(* ===== verification/_CoqProject ===== *)
-Q . S2P
Prelude.v
Crypto.v
Contracts.v
Plans.v
CertContracts.v
Adapters.v
Reference.v
Ledger.v
LedgerLog.v
LedgerInv.v
LedgerStore.v
LedgerApi.v
LedgerProps.v
Text.v
ConfigText.v
Ufw.v
Host.v
Snapshot.v
Nginx.v
Diagnostics.v
ManagedConfig.v
Certificate.v
EngineCore.v
EngineNginx.v
EngineConfig.v
EngineCert.v
EngineService.v
EngineUfw.v
EngineMain.v
EngineLogic.v
HostProofs.v
ManagedProofs.v
EngineNginxProofs.v
CertProofs.v
EngineConfigProofs.v
EngineCertProofs.v
EngineServiceProofs.v
EngineUfwProofs.v
StartProofs.v
EngineSteps.v
EngineProps.v
CertProps.v
HostReference.v
EngineWitness.v
TextProofs.v
ConfigProps.v
CertWitness.v
Bytes.v
Loops.v
Files.v
Sftp.v
SftpWire.v
SftpTrace.v
SftpClient.v
SftpUpload.v
SftpSession.v
SftpProps.v
WebStore.v
Session.v
Totp.v
Claims.v
WebProofs.v
WebFrames.v
WebReference.v
WebProps.v
FileBroker.v
BrokerSteps.v
BrokerInv.v
BrokerProps.v
Edge.v
EdgeProps.v
CertDaemon.v
CertdProps.v
AuthDaemon.v
Terminal.v
TerminalProps.v
WebGate.v
WebApi.v
LimiterProps.v
ApiProps.v
