(* ===== verification/Prelude.v ===== *)
(** * JW Agent: a verification development

    JW Agent manages one Linux server through a small web console.  It is a set
    of daemons: [jw-agentd] serves the web API, keeps browser sessions and their
    second factor, and talks SFTP and SSH on behalf of the signed-in user;
    [jw-opsd] is the privileged daemon that plans, approves, executes, verifies
    and rolls back a fixed catalogue of operations on the machine and records
    them in a tamper-evident ledger; [jw-certd] runs Certbot and probes TLS for
    it; [jw-authd] asks PAM who somebody is; [jw-edge] terminates TLS in front
    of [jw-agentd].  The daemons speak length-prefixed JSON frames over local
    sockets and share the types of [jw-contracts].

    ** Parts and files

    - This file: Rust results and the [?] operator ([let?]), the state-and-error
      monad [M] of the handlers ([let!], [try!]), strings and characters, and the
      automation every file uses ([bool_prop], the hint database [jw]).
    - [Crypto], [Contracts], [Plans], [Adapters]: SHA-256 and JSON as classes
      whose laws are their documented behaviour, the digest text format
      (digest.rs), the contract types and validators (jw-contracts: operation.rs,
      firewall.rs), stored plans and payloads, registered commands and services
      (runner.rs, service_control.rs).  [Reference], [HostReference] and
      [WebReference] instantiate these parameters by concrete functions so that
      definitions run and hypotheses are seen to hold.
    - [Ledger]: ledger.rs and its submodules as state passing on the record [Db]
      (one finite map or list per SQLite table), with the checkpoint file, the
      lock-down flag and the migration batches beside it ([LedgerStore]).
      [LedgerLog] holds the hash chain, [LedgerInv] the table invariants,
      [LedgerStore] also what is never forgotten, and [LedgerApi] the public
      interface as steps of a store and the calls that cannot fail.
    - [Host], [Text], [Ufw], [Nginx], [Snapshot]: the machine the daemon acts on
      (files, links, units, firewall rules, command outcomes), the parsers of
      command output, site discovery (nginx.rs), snapshots (snapshot.rs).
      Processes, system calls and clocks are the class [EngineExternals].
    - [ConfigText], [Diagnostics], [ManagedConfig]: differences and candidate
      checks of configuration texts (managed_config/text.rs,
      php_fpm_diagnostic.rs), the validators' output and its mapping to
      resources (config_diagnostic.rs, nginx_diagnostic.rs,
      apache_diagnostic.rs), and the files themselves (managed_config.rs and its
      submodules): discovery by opaque identifier in the site directories and
      the service trees, atomic replacement, clean-up of temporaries.
      [ManagedProofs] and [TextProofs] carry their proofs.
    - [CertContracts], [Certificate], [EngineCert]: domains, e-mail addresses,
      requests and commands of the certificate operations (jw-contracts:
      certificate.rs), the inventory of Certbot's lineages and the rewriting of
      the TLS directives (certificate.rs, certbot_runner.rs), and the issue,
      renewal-test and attachment handlers (engine.rs).  [CertProofs] and
      [EngineCertProofs] carry their proofs.
    - [EngineMain]: the requests and responses of the daemon's socket, their
      validation (operation.rs), the dispatcher [response_for], the common entry
      of execution and the recovery at start-up ([initialize]); [StartProofs]
      holds the proof of the latter.
    - [EngineCore], [EngineNginx], [EngineConfig], [EngineService], [EngineUfw]:
      the engine's plan, approve, execute, verify and rollback handlers
      (engine.rs, engine/managed_config_plan.rs,
      engine/managed_config_rollback.rs, engine/service_operation.rs,
      engine/ufw_operation.rs), each a whole handler with every ledger call and
      early return.  [EngineLogic], [HostProofs] and [EngineSteps]
      with the [Engine*Proofs] files carry their proofs, [EngineUfwProofs] also
      those of the rule arithmetic.
    - [Bytes], [Loops], [Files]: bytes and big-endian integers,
      bounded loops with weakest preconditions, file limits and path rules
      (files.rs), the socket frames (framing.rs).
    - [Sftp]: sftp_protocol.rs, every packet, reply parser and operation, against
      a server given as an arbitrary script of replies; [SftpWire], [SftpTrace],
      [SftpClient], [SftpUpload], [SftpSession] prove what goes over
      the wire, for all runs or for those that lead to a given wire (the class
      [Knowledge]).
    - [WebStore], [Session], [Totp], [Claims]: session.rs, session/lifecycle.rs
      and totp.rs on the fourteen tables of the web store; [WebOp] and [web_step]
      are all the operations on it, start-up and failing transactions included;
      [WebProofs] and [WebFrames] give each operation's preorder and frame.
    - [FileBroker]: file_session.rs, the broker of SFTP file sessions, one
      definition per section; [BrokerSteps] lets the sections of openings and
      requests interleave ([BrokerOp], [broker_step]), an exchange on the
      session's protocol lock apart from the check before it, and gives the
      moves they can make; [BrokerInv] has the invariant of the table and of
      pending openings.
    - [Edge]: the edge's configuration and its treatment of a request head
      (jw-edge: config.rs, proxy.rs), from the bytes read to the bytes sent on.
    - [CertDaemon]: the certificate daemon (jw-certd: lib.rs): one request from
      its validation through the private configuration file and the fixed
      command line to the evidence; programs are a parameter, file system calls
      a script.
    - [AuthDaemon]: the authentication daemon (jw-authd: lib.rs; auth.rs); PAM
      and the user database are the record [Accounts] of their answers.
    - [Terminal]: terminal.rs, terminal_session.rs, openssh.rs and the terminal
      contracts: the broker of tickets and running terminals ([TerminalOp],
      [terminal_step]), the checks before a terminal starts, the SSH command,
      and the relay between web socket and terminal, one turn per event.
    - [WebGate], [WebApi]: api.rs and its submodules on top of the store, the
      file broker and the terminal broker.  [WebGate] has what every request
      passes (host and origin, cookies, source address, CSRF, the attempt
      limiter), [WebApi] the handlers, the router [route], a whole request
      [api_request] and the histories of the process [api_reach], in which
      other requests and background tasks interleave.

    ** What the theorems show

    - [LedgerProps]: a store opens after every crash the commits, the
      checkpoint write and I/O outages allow; the checkpoint pins the history;
      at most one active operation holds a resource; approval is guarded and
      idempotent, planning is idempotent; the event history is append-only and
      the stored stage is the one of the last event; receipts are read back as
      written; an interrupted migration is shown to stick.  Steps of a store are
      the calls the daemon makes: transitions that do not expect a terminal
      stage ([store_step], which [EngineSteps] shows of every request).
    - [EngineProps]: an executed site operation ends verified or rolled back
      with the host in the promised state and touches only the planned link;
      service and firewall operations report success only with the effect read
      back, and rollback restores the snapshot; firewall deletion removes exactly
      the rules meant, never a protected one; whatever requests are made, the
      ledger remains one the store can reach and lock-down is not lifted, and an
      operation in a terminal stage stays as it is; a snapshot is returned only
      from private places and with its digest; a failed service verification is
      shown to strand its operation.
    - [ConfigProps]: an executed configuration edit always ends, in a stage that
      tells the truth about the file and the programs run on it, and touches no
      other file; a discovered resource is of the kind its identifier promises;
      replacement leaves the old file or the complete new one whichever step
      fails; the walk over a service tree ends; diagnostics show only fixed
      texts and locations the operator may see.
    - [CertProps]: attaching a certificate rewrites exactly the two TLS
      directives and always ends, in a stage that tells the truth about the
      management site; a certificate is requested at most once and in production
      only after a recent staging run; a start of the daemon ends every operation
      its predecessor left, with a stage that is so when it is recorded, or locks
      the daemon down; only valid write requests of permitted roles change
      anything.
    - [SftpProps]: a session names only the home, plain components below it,
      what the server gave as canonical for these inside the home, and plain
      entries there, so that with a server that canonicalises every path
      descends from the home; every operation ends, answers respect the limits,
      a download is the data sent, an upload touches nothing unless the target is
      as expected and reports success only after it was written, synchronised,
      renamed once and read back; replies and frames are accepted exactly when
      well formed.
    - [WebProps]: the session store keeps its invariant and only moves forward;
      authentication decides exactly by the stored row; revocation is final;
      operation claims, the second one too, and one-time codes work once; the second-factor policy
      changes only with the required proof.
    - [BrokerProps]: whatever sections interleave, once the web session is
      revoked no request on its file session that begins afterwards succeeds or
      sends anything, and only requests past their check before that can still
      have their one exchange; an upload applies the plan that was shown and
      confirmed and is published as such; the tables stay within their limits.
    - [EdgeProps]: which heads the edge forwards, exactly, and as what: the same
      lines with host and origin rewritten, the connection and forwarding headers
      removed and its own added; what a server reads in the head of a request
      without line feeds inside its lines; [Edge] also runs a head whose line
      feed passes the check.
    - [CertdProps]: the certificate daemon runs only the command lines written
      out there, for valid requests, its evidence is that of the run and is
      accepted by the engine, and the private file is removed unless the file
      system failed.
    - [AuthDaemon]: who is authenticated, and with which role, exactly.
    - [TerminalProps]: a terminal ticket works once, for the session, ingress and
      origin it was issued for; the broker stays within its limits; a relay ends
      after its session is revoked.
    - [LimiterProps], [ApiProps]: attempts to authenticate are bounded in every
      minute; an approval reaches the operations daemon only from a session with
      its CSRF token, administrative access and the claims it carries; a log-out
      ends the session, its terminals and its files for good.

    Each property with a hypothesis has a concrete run beside it ([LedgerProps],
    [EngineWitness], [ConfigProps], [CertWitness], [SftpProps], [WebProps],
    [BrokerProps], [TerminalProps], [LimiterProps], [ApiProps]) on the reference
    instances.  [ConfigProps] also runs three edits whose outcome
    differs from the documents: one of the management site through the tree
    adapter, one with a private key, and one next to a leftover temporary.

    ** Bounds

    Machine integers are [Z] with the code's own saturation, wrapping or range
    checks written out ([sat_add], [be32], [i64_of_u64]).  Loops that are not
    structural carry fuel with a proof that it suffices: reading a handle runs at
    most one step per byte of the limit plus two; listing a directory is bounded
    by the 2^32 request identifiers of the protocol; the version packet has at
    most one extension per byte of a packet; decimal printing uses 20 digits,
    enough for 64 bits, octal printing 11 digits, enough for 32, and a random
    suffix its 16 hexadecimal ones; the base-32 encoder emits at most two digits
    per byte; the walk over a service tree runs 256 rounds and two, one per
    entry it may observe, the root and the end, and [managed_tree_walk_ends]
    shows that it never needs more.
    Reaching a bound would be the error [LOOP_BOUND], which
    [sftp_operations_end] excludes.

    ** Not modelled

    The sockets, TLS and process handling of the daemons, and PAM itself
    (parameters or scripted environments); of the web API the plan and read
    handlers, the inventories of services and packages, the event stream, the
    static files and the clients that carry requests to the other daemons, whose
    answers are inputs of the handlers here; the SSH password helper process;
    and the packaging and test tool [xtask].  SQLite is represented
    by its tables, its constraints and the atomicity of a transaction; isolation
    between processes is SQLite's own.  In the web store the constant
    [remote_host] columns, the settings row's time stamp and the
    [schema_migrations] rows are left out: nothing reads them. *)

From stdpp Require Export base option list gmap strings.
From Stdlib Require Export ZArith Lia.
From Stdlib Require Import Ascii String.

Open Scope Z_scope.

(** ** Rust results and the [?] operator *)

Inductive result (E A : Type) : Type :=
  | Ok (a : A)
  | Err (e : E).
Arguments Ok {E A} _.
Arguments Err {E A} _.

#[export] Instance result_eq_dec `{EqDecision E, EqDecision A} : EqDecision (result E A).
Proof. solve_decision. Defined.

Declare Scope rust_scope.
Delimit Scope rust_scope with rust.
Open Scope rust_scope.

Notation "'let?' x ':=' e 'in' k" :=
  (match e with Ok x => k | Err err => Err err end)
  (at level 10, x pattern, e at level 100, k at level 200) : rust_scope.
Notation "'check' e 'else' err 'in' k" :=
  (if e then k else Err err)
  (at level 10, e at level 100, err at level 100, k at level 200) : rust_scope.

Definition is_ok {E A} (r : result E A) : bool :=
  match r with Ok _ => true | Err _ => false end.

Definition is_err {E A} (r : result E A) : bool := negb (is_ok r).

(** [Result::is_ok_and]. *)
Definition is_ok_and {E A} (r : result E A) (p : A -> bool) : bool :=
  match r with Ok a => p a | Err _ => false end.

(** [Option::ok_or]. *)
Definition ok_or {E A} (o : option A) (e : E) : result E A :=
  match o with Some a => Ok a | None => Err e end.

(** [Option::is_some_and] and [Option::is_none_or]. *)
Definition is_some_and {A} (o : option A) (p : A -> bool) : bool :=
  match o with Some a => p a | None => false end.

Definition is_none_or {A} (o : option A) (p : A -> bool) : bool :=
  match o with Some a => p a | None => true end.

Definition is_some {A} (o : option A) : bool :=
  match o with Some _ => true | None => false end.

Definition is_none {A} (o : option A) : bool := negb (is_some o).

(** [Result::map_err]. *)
Definition map_err {E E' A} (r : result E A) (f : E -> E') : result E' A :=
  match r with Ok a => Ok a | Err e => Err (f e) end.

(** ** Handlers that mutate a state and may fail

    [&mut self] methods returning [Result]: the state survives an early
    return, so the final state is produced on both branches. *)

Definition M (S E A : Type) : Type := S -> result E A * S.

Definition mret {S E A} (a : A) : M S E A := fun s => (Ok a, s).
Definition mfail {S E A} (e : E) : M S E A := fun s => (Err e, s).
Definition mlift {S E A} (r : result E A) : M S E A := fun s => (r, s).
Definition mget {S E A} (f : S -> A) : M S E A := fun s => (Ok (f s), s).
Definition mupd {S E} (f : S -> S) : M S E unit := fun s => (Ok tt, f s).
Definition mbind {S E A B} (m : M S E A) (k : A -> M S E B) : M S E B :=
  fun s => match m s with
           | (Ok a, s') => k a s'
           | (Err e, s') => (Err e, s')
           end.

(** Run a fallible step and hand its [Result] to the continuation instead of
    propagating the error: a [match] on the call in the source. *)
Definition mtry {S E A B} (m : M S E A) (k : result E A -> M S E B) : M S E B :=
  fun s => let (r, s') := m s in k r s'.

Notation "'let!' x ':=' m 'in' k" := (mbind m (fun x => k))
  (at level 10, x pattern, m at level 100, k at level 200) : rust_scope.
Notation "'try!' x ':=' m 'in' k" := (mtry m (fun x => k))
  (at level 10, x pattern, m at level 100, k at level 200) : rust_scope.

Lemma mbind_ok {S E A B} (m : M S E A) (k : A -> M S E B) s a s' :
  m s = (Ok a, s') -> mbind m k s = k a s'.
Proof. unfold mbind. by intros ->. Qed.

Lemma mbind_err {S E A B} (m : M S E A) (k : A -> M S E B) s e s' :
  m s = (Err e, s') -> mbind m k s = (Err e, s').
Proof. unfold mbind. by intros ->. Qed.

(** A sequence stops at its first error. *)
Lemma mbind_inv {S E A B} (m : M S E A) (k : A -> M S E B) s r s' :
  mbind m k s = (r, s') ->
  (exists e, m s = (Err e, s') /\ r = Err e) \/ (exists a s1, m s = (Ok a, s1) /\ k a s1 = (r, s')).
Proof. unfold mbind. destruct (m s) as [[a|e] s1]; [by right; eauto|]. intros [= <- <-]. by left; eauto. Qed.

Lemma mbind_inv_ok {S E A B} (m : M S E A) (k : A -> M S E B) s b s' :
  mbind m k s = (Ok b, s') ->
  exists a s1, m s = (Ok a, s1) /\ k a s1 = (Ok b, s').
Proof.
  unfold mbind. destruct (m s) as [[a|e] s1]; [eauto|discriminate].
Qed.

(** ** Machine integers *)

Definition i64_min : Z := - 2 ^ 63.
Definition i64_max : Z := 2 ^ 63 - 1.
Definition u32_max : Z := 2 ^ 32 - 1.
Definition usize_max : Z := 2 ^ 64 - 1.
Definition u64_max : Z := 2 ^ 64 - 1.
Definition in_i64 (z : Z) : Prop := i64_min <= z <= i64_max.
Definition clamp_i64 (z : Z) : Z := Z.max i64_min (Z.min i64_max z).

(** [i64::saturating_add] and [i64::saturating_sub]. *)
Definition sat_add (a b : Z) : Z := clamp_i64 (a + b).
Definition sat_sub (a b : Z) : Z := clamp_i64 (a - b).

(** [i64::try_from(u64)] with the saturating default of the audit writers. *)
Definition i64_of_u64 (z : Z) : Z := if z <=? i64_max then z else i64_max.

Lemma clamp_in_i64 z : in_i64 (clamp_i64 z).
Proof. unfold in_i64, clamp_i64, i64_min, i64_max. lia. Qed.

Lemma clamp_mono a b : a <= b -> clamp_i64 a <= clamp_i64 b.
Proof. unfold clamp_i64. lia. Qed.

Lemma clamp_id z : in_i64 z -> clamp_i64 z = z.
Proof. unfold in_i64, clamp_i64. lia. Qed.

Lemma sat_add_le a b c : b <= c -> sat_add a b <= sat_add a c.
Proof. intros. apply clamp_mono. lia. Qed.

Lemma sat_add_ge a b : in_i64 a -> 0 <= b -> a <= sat_add a b.
Proof. unfold in_i64, sat_add, clamp_i64, i64_min, i64_max. lia. Qed.

Lemma sat_add_succ z : 0 <= z < i64_max -> sat_add z 1 = z + 1.
Proof. unfold sat_add, clamp_i64, i64_min, i64_max. lia. Qed.

Create HintDb jw.
Create Rewrite HintDb jw_rewrite.
#[export] Hint Resolve clamp_in_i64 clamp_mono sat_add_le sat_add_ge : jw.

(** ** Byte strings: Rust [&str] as the sequence of its UTF-8 bytes *)

Definition slen (s : string) : Z := Z.of_nat (String.length s).

Fixpoint sall (p : ascii -> bool) (s : string) : bool :=
  match s with
  | EmptyString => true
  | String c s' => p c && sall p s'
  end.

Definition sany (p : ascii -> bool) (s : string) : bool :=
  negb (sall (fun c => negb (p c)) s).

Definition starts_with (p s : string) : bool := String.prefix p s.

Fixpoint strip_prefix (p s : string) : option string :=
  match p, s with
  | EmptyString, _ => Some s
  | String a p', String b s' => if Ascii.eqb a b then strip_prefix p' s' else None
  | String _ _, EmptyString => None
  end.

Definition srev (s : string) : string :=
  String.string_of_list_ascii (rev (String.list_ascii_of_string s)).

Definition strip_suffix (q s : string) : option string :=
  srev <$> strip_prefix (srev q) (srev s).

Definition sconcat (l : list string) : string := String.concat "" l.

Definition code (c : ascii) : Z := Z.of_N (N_of_ascii c).
Definition in_range (lo hi : Z) (c : ascii) : bool := (lo <=? code c) && (code c <=? hi).
Definition is_ascii_digit : ascii -> bool := in_range 48 57.
Definition is_ascii_lowercase : ascii -> bool := in_range 97 122.
Definition is_ascii_uppercase : ascii -> bool := in_range 65 90.
Definition is_ascii_alphanumeric (c : ascii) : bool :=
  is_ascii_digit c || is_ascii_lowercase c || is_ascii_uppercase c.
Definition is_ascii_hexdigit (c : ascii) : bool :=
  is_ascii_digit c || in_range 97 102 c || in_range 65 70 c.
Definition is_ascii_graphic : ascii -> bool := in_range 33 126.
Definition is_ascii_control (c : ascii) : bool := in_range 0 31 c || (code c =? 127).
Definition byte_is (n : Z) (c : ascii) : bool := code c =? n.

(** [matches!(byte, b'a'..=b'f')] *)
Definition is_lower_hex (c : ascii) : bool := is_ascii_digit c || in_range 97 102 c.

Lemma strip_prefix_Some p s t : strip_prefix p s = Some t <-> s = (p +:+ t)%string.
Proof.
  revert s t. induction p as [|a p IH]; intros s t; cbn [strip_prefix].
  { change ("" +:+ t) with t. naive_solver. }
  change (String a p +:+ t) with (String a (p +:+ t)).
  destruct s as [|b s]; [done|].
  destruct (Ascii.eqb_spec a b) as [->|Hne].
  - rewrite IH. split; [by intros ->|]. by intros [= ->].
  - split; [done|]. intros [= ? ?]. congruence.
Qed.

Lemma slen_app a b : slen (a +:+ b) = slen a + slen b.
Proof.
  unfold slen. induction a as [|c a IH]; [done|].
  change (String c a +:+ b) with (String c (a +:+ b)). cbn [String.length]. lia.
Qed.

Lemma sapp_cons c a b : String c a +:+ b = String c (a +:+ b).
Proof. done. Qed.

Lemma sapp_nil_r s : s +:+ "" = s.
Proof. induction s as [|c s IH]; [done|]. by rewrite sapp_cons, IH. Qed.

Lemma sconcat_cons x l : sconcat (x :: l) = x +:+ sconcat l.
Proof. destruct l; [by rewrite sapp_nil_r|done]. Qed.

Lemma sapp_assoc a b c : (a +:+ b) +:+ c = a +:+ (b +:+ c).
Proof. induction a as [|x a IH]; [done|]. by rewrite !sapp_cons, IH. Qed.

Lemma sall_impl p q s : (forall c, p c = true -> q c = true) -> sall p s = true -> sall q s = true.
Proof. intros Hpq. induction s as [|c s IH]; [done|]. cbn. intros [Hc Hs]%andb_true_iff. by rewrite Hpq, IH. Qed.

Lemma sall_app p a b : sall p (a +:+ b) = sall p a && sall p b.
Proof.
  induction a as [|c a IH]; [done|]. change (String c a +:+ b) with (String c (a +:+ b)). cbn [sall].
  by rewrite IH, andb_assoc.
Qed.

Lemma sapp_inj a b c d :
  String.length a = String.length c -> a +:+ b = c +:+ d -> a = c /\ b = d.
Proof.
  revert c. induction a as [|x a IH]; intros [|y c] Hl Heq; try discriminate Hl; [done|].
  change (String x (a +:+ b) = String y (c +:+ d)) in Heq. injection Heq as -> Heq.
  injection Hl as Hl. destruct (IH c Hl Heq) as [-> ->]. done.
Qed.

Lemma slen_nonneg s : 0 <= slen s.
Proof. unfold slen. lia. Qed.

#[export] Hint Resolve slen_nonneg : jw.

(** Reversal and suffixes. *)
Lemma list_of_append a b :
  String.list_ascii_of_string (a +:+ b) = (String.list_ascii_of_string a ++ String.list_ascii_of_string b)%list.
Proof. induction a as [|c a IH]; [done|]. change (String c a +:+ b) with (String c (a +:+ b)). simpl. by rewrite IH. Qed.

Lemma string_of_append a b :
  String.string_of_list_ascii (a ++ b)%list = String.string_of_list_ascii a +:+ String.string_of_list_ascii b.
Proof. induction a as [|c a IH]; [done|]. simpl. by rewrite IH. Qed.

Lemma srev_append a b : srev (a +:+ b) = srev b +:+ srev a.
Proof. unfold srev. by rewrite list_of_append, rev_app_distr, string_of_append. Qed.

Lemma srev_involutive a : srev (srev a) = a.
Proof.
  unfold srev. by rewrite String.list_ascii_of_string_of_list_ascii, rev_involutive,
    String.string_of_list_ascii_of_string.
Qed.

Lemma strip_suffix_app a b : strip_suffix b (a +:+ b) = Some a.
Proof.
  unfold strip_suffix. rewrite srev_append. rewrite (proj2 (strip_prefix_Some _ _ (srev a)) eq_refl). simpl.
  by rewrite srev_involutive.
Qed.

Lemma strip_suffix_Some q s t : strip_suffix q s = Some t -> s = t +:+ q.
Proof.
  unfold strip_suffix. destruct (strip_prefix _ _) as [r|] eqn:Ep; [|done]. intros [= <-].
  apply strip_prefix_Some in Ep. by rewrite <- (srev_involutive s), Ep, srev_append, srev_involutive.
Qed.

(** ** Ordered selections: [ORDER BY] clauses and [sort_unstable_by] *)

Fixpoint insert_sorted {A} (le : A -> A -> bool) (x : A) (l : list A) : list A :=
  match l with
  | [] => [x]
  | y :: l' => if le x y then x :: l else y :: insert_sorted le x l'
  end.

Fixpoint isort {A} (le : A -> A -> bool) (l : list A) : list A :=
  match l with
  | [] => []
  | x :: l' => insert_sorted le x (isort le l')
  end.

Lemma insert_sorted_perm {A} (le : A -> A -> bool) x l : insert_sorted le x l ≡ₚ x :: l.
Proof.
  induction l as [|y l IH]; simpl; [done|]. destruct (le x y); [done|].
  rewrite IH. apply Permutation_swap.
Qed.

Lemma isort_perm {A} (le : A -> A -> bool) l : isort le l ≡ₚ l.
Proof. induction l as [|x l IH]; simpl; [done|]. by rewrite insert_sorted_perm, IH. Qed.

Lemma elem_of_isort {A} (le : A -> A -> bool) x l : x ∈ isort le l <-> x ∈ l.
Proof. by rewrite isort_perm. Qed.

(** The list without its [n]-th element, counted from 1. *)
Definition remove_at {A} (n : Z) (l : list A) : list A :=
  take (Z.to_nat (n - 1)) l ++ drop (Z.to_nat n) l.

(** ** Automation *)

(** Split every [let?]/[if]/[match] of a hypothesis. *)
Ltac break_match_in H :=
  match type of H with
  | context [match ?x with _ => _ end] =>
      lazymatch x with
      | context [match _ with _ => _ end] => fail
      | _ => let E := fresh "E" in destruct x eqn:E
      end
  end.

Ltac break_in H := repeat (break_match_in H; simplify_eq/=; try done).

Ltac break_goal :=
  repeat match goal with
  | |- context [match ?x with _ => _ end] =>
      lazymatch x with
      | context [match _ with _ => _ end] => fail
      | _ => let E := fresh "E" in destruct x eqn:E
      end; simplify_eq/=; try done
  end.

(** Turn boolean equations into propositions. *)
Ltac bool_prop :=
  repeat match goal with
  | H : (_ && _) = true |- _ => apply andb_true_iff in H as [? ?]
  | H : (_ || _) = false |- _ => apply orb_false_iff in H as [? ?]
  | H : negb _ = true |- _ => apply negb_true_iff in H
  | H : negb _ = false |- _ => apply negb_false_iff in H
  | H : bool_decide _ = true |- _ => apply bool_decide_eq_true in H
  | H : bool_decide _ = false |- _ => apply bool_decide_eq_false in H
  | H : (_ <? _) = true |- _ => apply Z.ltb_lt in H
  | H : (_ <? _) = false |- _ => apply Z.ltb_ge in H
  | H : (_ <=? _) = true |- _ => apply Z.leb_le in H
  | H : (_ <=? _) = false |- _ => apply Z.leb_gt in H
  | H : (_ =? _) = true |- _ => apply Z.eqb_eq in H
  | H : (_ =? _) = false |- _ => apply Z.eqb_neq in H
  end.
