(* ===== verification/Crypto.v ===== *)
(** * Hashing, hexadecimal digests and serialised records

    The [sha2] and [serde_json] crates are outside the repository: they enter
    the development as the classes [Sha256] and [Json], whose laws are the
    documented behaviour the code relies on.  The textual digest format
    ([sha256_from_raw] / [format_sha256]) and its decoder are the repository's
    own code and are modelled here. *)

From Stdlib Require Import Ascii String.
From S2P Require Import Prelude.

(** ** The two external crates *)

(** [sha2::Sha256]: a function from byte strings to 32-byte strings. *)
Class Sha256 := {
  sha256 : string -> string;
  sha256_length : forall m, String.length (sha256 m) = 32%nat;
}.

(** [serde_json]: a value is written and read back unchanged. *)
Class Json (A : Type) := {
  to_json : A -> string;
  from_json : string -> option A;
  from_to_json : forall a, from_json (to_json a) = Some a;
}.

Lemma to_json_inj `{Json A} (a b : A) : to_json a = to_json b -> a = b.
Proof. intros E. apply (f_equal from_json) in E. rewrite !from_to_json in E. congruence. Qed.

(** ** Hexadecimal digests *)

Definition chr (z : Z) : ascii := ascii_of_N (Z.to_N z).

(** [HEX[n]] for [n < 16]. *)
Definition hex_digit (n : Z) : ascii := chr (if n <? 10 then 48 + n else 87 + n).

Fixpoint hex_of_bytes (s : string) : string :=
  match s with
  | EmptyString => EmptyString
  | String c s' =>
      String (hex_digit (Z.shiftr (code c) 4))
        (String (hex_digit (Z.land (code c) 15)) (hex_of_bytes s'))
  end.

Definition sha256_from_raw (bytes : string) : string :=
  ("sha256:" +:+ hex_of_bytes bytes)%string.

Definition format_sha256 (bytes : string) : string :=
  ("sha256:" +:+ hex_of_bytes bytes)%string.

(** [char::to_digit(16)]. *)
Definition hex_value (c : ascii) : option Z :=
  if is_ascii_digit c then Some (code c - 48)
  else if in_range 97 102 c then Some (code c - 87)
  else if in_range 65 70 c then Some (code c - 55)
  else None.

(** [u8::from_str_radix(pair, 16)] on a two-byte slice: one leading [+] is
    accepted by the standard library. *)
Definition from_str_radix_16 (a b : ascii) : option Z :=
  if byte_is 43 a then hex_value b
  else match hex_value a, hex_value b with
       | Some x, Some y => Some (16 * x + y)
       | _, _ => None
       end.

Fixpoint decode_pairs (s : string) : option string :=
  match s with
  | EmptyString => Some EmptyString
  | String a (String b s') =>
      match from_str_radix_16 a b, decode_pairs s' with
      | Some v, Some t => Some (String (chr v) t)
      | _, _ => None
      end
  | String _ EmptyString => None
  end.

Lemma code_bounds c : 0 <= code c < 256.
Proof. unfold code. pose proof (N_ascii_bounded c). lia. Qed.

Lemma chr_code c : chr (code c) = c.
Proof. unfold chr, code. rewrite N2Z.id. apply ascii_N_embedding. Qed.

Lemma code_chr z : 0 <= z < 256 -> code (chr z) = z.
Proof. intros. unfold code, chr. rewrite N_ascii_embedding; lia. Qed.

Lemma code_hex_digit n : 0 <= n < 16 -> code (hex_digit n) = if n <? 10 then 48 + n else 87 + n.
Proof. intros. unfold hex_digit. rewrite code_chr; [done|]. destruct (n <? 10) eqn:E; bool_prop; lia. Qed.

Lemma hex_value_digit n : 0 <= n < 16 -> hex_value (hex_digit n) = Some n.
Proof.
  intros Hn. unfold hex_value, is_ascii_digit, in_range. rewrite !code_hex_digit by done.
  destruct (n <? 10) eqn:E; bool_prop.
  - rewrite (proj2 (Z.leb_le 48 (48 + n))), (proj2 (Z.leb_le (48 + n) 57)) by lia. simpl. f_equal. lia.
  - rewrite (proj2 (Z.leb_gt (87 + n) 57)), andb_false_r by lia.
    rewrite (proj2 (Z.leb_le 97 (87 + n))), (proj2 (Z.leb_le (87 + n) 102)) by lia. simpl. f_equal. lia.
Qed.

Lemma hex_digit_lower n : 0 <= n < 16 -> is_lower_hex (hex_digit n) = true.
Proof.
  intros Hn. unfold is_lower_hex, is_ascii_digit, in_range. rewrite !code_hex_digit by done.
  destruct (n <? 10) eqn:E; bool_prop; apply orb_true_iff; [left|right];
    apply andb_true_iff; rewrite !Z.leb_le; lia.
Qed.

#[local] Ltac Zify.zify_post_hook ::= Z.to_euclidean_division_equations.

Lemma nibble_hi c : 0 <= Z.shiftr (code c) 4 < 16.
Proof. pose proof (code_bounds c). rewrite Z.shiftr_div_pow2 by lia. change (2 ^ 4) with 16. lia. Qed.

Lemma nibble_lo c : 0 <= Z.land (code c) 15 < 16.
Proof. change 15 with (Z.ones 4). rewrite Z.land_ones by lia. change (2 ^ 4) with 16. lia. Qed.

#[export] Hint Resolve code_bounds nibble_hi nibble_lo hex_digit_lower : jw.

Lemma from_str_radix_hex c :
  from_str_radix_16 (hex_digit (Z.shiftr (code c) 4)) (hex_digit (Z.land (code c) 15)) = Some (code c).
Proof.
  unfold from_str_radix_16, byte_is. rewrite code_hex_digit by auto with jw.
  rewrite !hex_value_digit by auto with jw.
  pose proof (nibble_hi c). destruct (_ <? 10) eqn:E; bool_prop;
    (rewrite (proj2 (Z.eqb_neq _ 43)) by lia); f_equal;
    change 15 with (Z.ones 4); rewrite Z.land_ones, Z.shiftr_div_pow2 by lia;
    change (2 ^ 4) with 16; lia.
Qed.

Lemma decode_pairs_hex s : decode_pairs (hex_of_bytes s) = Some s.
Proof.
  induction s as [|c s IH]; [done|]. cbn [hex_of_bytes decode_pairs].
  by rewrite from_str_radix_hex, IH, chr_code.
Qed.

Lemma hex_of_bytes_length s : String.length (hex_of_bytes s) = (2 * String.length s)%nat.
Proof. induction s as [|c s IH]; cbn [hex_of_bytes String.length]; lia. Qed.

Lemma hex_of_bytes_lower s : sall is_lower_hex (hex_of_bytes s) = true.
Proof.
  induction s as [|c s IH]; [done|]. cbn [hex_of_bytes sall].
  rewrite !hex_digit_lower by auto with jw. done.
Qed.

Lemma format_sha256_inj a b : format_sha256 a = format_sha256 b -> a = b.
Proof.
  unfold format_sha256. intros E. apply (inj (String.append "sha256:")) in E.
  apply (f_equal decode_pairs) in E. rewrite !decode_pairs_hex in E. congruence.
Qed.

Section WithSha.
Context `{Sha256}.

Definition sha256_digest (bytes : string) : string := sha256_from_raw (sha256 bytes).
End WithSha.
