(* ===== verification/Contracts.v ===== *)
(** * jw-contracts: the shared vocabulary of the daemons

    Enumerations, request records and validators of [jw-contracts]
    ([operation.rs], [operation/command_evidence.rs],
    [operation/diagnostic.rs], [auth.rs], [assurance.rs]).  Validators return
    the name of the offending field, as in the source. *)

From Stdlib Require Import Ascii String.
From S2P Require Import Prelude Crypto.

(** ** Constants *)

Definition NGINX_SITE_STATE_OPERATION : string := "nginx.site_state.set/v1".
Definition MANAGED_CONFIG_OPERATION : string := "service.config_file.set/v1".
Definition MANAGED_CONFIG_RESTORE_OPERATION : string := "service.config_file.restore/v1".
Definition SERVICE_CONTROL_OPERATION : string := "service.lifecycle.set/v1".
Definition CERTBOT_ISSUE_OPERATION : string := "certbot.certificate.issue/v1".
Definition CERTBOT_RENEW_TEST_OPERATION : string := "certbot.certificate.renew_test/v1".
Definition CERTBOT_ATTACH_OPERATION : string := "certbot.certificate.attach/v1".
Definition UFW_RULE_OPERATION : string := "ufw.rule.set/v1".
Definition NGINX_LAYOUT_ID : string := "ubuntu-nginx-sites-v1".
Definition MANAGED_CONFIG_MAX_BYTES : Z := 128 * 1024.
Definition OPERATION_SCHEMA_VERSION : Z := 1.
Definition IDEMPOTENCY_KEY_MIN_BYTES : Z := 16.
Definition IDEMPOTENCY_KEY_MAX_BYTES : Z := 64.
Definition DIGEST_BYTES : Z := 71.
Definition PLAN_ID_MAX_BYTES : Z := 64.
Definition OPERATION_ID_MAX_BYTES : Z := 64.
Definition NGINX_MANAGEMENT_MARKER : string := "jw-agent:protected-management-v1".
Definition NGINX_MANAGEMENT_PROXY_INCLUDE : string :=
  "include /usr/share/jw-agent/nginx/proxy-common.conf;".

(** ** Subjects and assurance *)

Inductive Role := Admin | Operator | Viewer.
#[export] Instance Role_eq_dec : EqDecision Role.
Proof. solve_decision. Defined.

Record Subject := { uid : Z; username : string; role : Role }.
#[export] Instance Subject_eq_dec : EqDecision Subject.
Proof. solve_decision. Defined.

Inductive AssuranceLevel :=
  | G0ObserveOnly | G1VerifiedAction | G2ReversibleConfig | G3RestoreValidatedData.
#[export] Instance AssuranceLevel_eq_dec : EqDecision AssuranceLevel.
Proof. solve_decision. Defined.

Inductive RollbackSupport :=
  | NotApplicable | NotGuaranteed | AutomaticBounded | RestoreValidated.
#[export] Instance RollbackSupport_eq_dec : EqDecision RollbackSupport.
Proof. solve_decision. Defined.

Record AssuranceView := {
  level : AssuranceLevel;
  rollback_support : RollbackSupport;
  operation_available : bool;
  scope : list string;
  excluded_effects : list string;
  apply_verifier : list string;
  rollback_verifier : list string;
  reason : option string;
}.
#[export] Instance AssuranceView_eq_dec : EqDecision AssuranceView.
Proof. solve_decision. Defined.

(** ** Enumerations of operation.rs *)

Inductive NginxSiteState := Enabled | Disabled.
#[export] Instance NginxSiteState_eq_dec : EqDecision NginxSiteState.
Proof. solve_decision. Defined.

Inductive OperationStage :=
  | Planned | Approved | Snapshotted | Applying | Validating | Reloading | Verifying
  | RollingBack | Succeeded | RolledBack | RecoveryRequired | Rejected | Expired
  | CancelledBeforeApply.
#[export] Instance OperationStage_eq_dec : EqDecision OperationStage.
Proof. solve_decision. Defined.

Definition is_terminal (s : OperationStage) : bool :=
  match s with
  | Succeeded | RolledBack | RecoveryRequired | Rejected | Expired | CancelledBeforeApply => true
  | _ => false
  end.

Definition stage_storage_value (s : OperationStage) : string :=
  match s with
  | Planned => "PLANNED"
  | Approved => "APPROVED"
  | Snapshotted => "SNAPSHOTTED"
  | Applying => "APPLYING"
  | Validating => "VALIDATING"
  | Reloading => "RELOADING"
  | Verifying => "VERIFYING"
  | RollingBack => "ROLLING_BACK"
  | Succeeded => "SUCCEEDED"
  | RolledBack => "ROLLED_BACK"
  | RecoveryRequired => "RECOVERY_REQUIRED"
  | Rejected => "REJECTED"
  | Expired => "EXPIRED"
  | CancelledBeforeApply => "CANCELLED_BEFORE_APPLY"
  end.

Inductive ServiceAction := ValidateOnly | SReload | SRestart.
#[export] Instance ServiceAction_eq_dec : EqDecision ServiceAction.
Proof. solve_decision. Defined.

Inductive ManagedServiceAction := Start | Stop | Restart | Reload.
#[export] Instance ManagedServiceAction_eq_dec : EqDecision ManagedServiceAction.
Proof. solve_decision. Defined.

Definition action_storage_value (a : ManagedServiceAction) : string :=
  match a with Start => "start" | Stop => "stop" | Restart => "restart" | Reload => "reload" end.

Inductive CertificateEnvironment := Staging | Production.
#[export] Instance CertificateEnvironment_eq_dec : EqDecision CertificateEnvironment.
Proof. solve_decision. Defined.

(** ** Field validators *)

Definition vresult := result string unit.

Definition validate_identifier (value prefix error : string) : vresult :=
  if (slen value <? slen prefix + 8) || (64 <? slen value) || negb (starts_with prefix value)
     || negb (sall (fun b => is_ascii_alphanumeric b || byte_is 95 b || byte_is 45 b) value)
  then Err error else Ok tt.

Definition validate_service_identifier (value : string) : vresult :=
  match strip_prefix "svc_" value with
  | None => Err "service_id"
  | Some digest =>
      if (slen digest =? 64) && sall is_ascii_hexdigit digest then Ok tt else Err "service_id"
  end.

Definition validate_digest (value : string) : vresult :=
  match strip_prefix "sha256:" value with
  | None => Err "digest"
  | Some hex =>
      if negb (slen value =? DIGEST_BYTES) || negb (sall is_lower_hex hex)
      then Err "digest" else Ok tt
  end.

Definition validate_ascii_range (value : string) (minimum maximum : Z) (error : string) : vresult :=
  if (slen value <? minimum) || (maximum <? slen value) || negb (sall is_ascii_graphic value)
  then Err error else Ok tt.

Definition validate_idempotency_key (key : string) : vresult :=
  validate_ascii_range key IDEMPOTENCY_KEY_MIN_BYTES IDEMPOTENCY_KEY_MAX_BYTES "idempotency_key".

Definition managed_config_prefixes : list string :=
  ["ngc_"; "ngf_"; "ngm_"; "ngd_"; "apf_"; "apm_"; "app_"; "apc_"; "aps_"; "php_"].

Definition validate_managed_config_resource_id (value : string) : vresult :=
  match List.find (fun prefix => starts_with prefix value) managed_config_prefixes with
  | Some prefix => validate_identifier value prefix "resource_id"
  | None => Err "resource_id"
  end.

Definition nginx_internal_temporary_name (value : string) : bool :=
  match strip_prefix ".jw-agent-" value ≫= strip_suffix ".tmp" with
  | Some suffix => (slen suffix =? 16) && sall is_ascii_hexdigit suffix
  | None => false
  end.

(** [std::str::from_utf8]: well-formed byte sequences of the Unicode standard
    (Table 3-7). *)
Fixpoint utf8_valid_fuel (fuel : nat) (s : string) : bool :=
  match fuel with
  | O => false
  | S f =>
      let cont lo hi c := in_range lo hi c in
      match s with
      | EmptyString => true
      | String a s1 =>
          if in_range 0 127 a then utf8_valid_fuel f s1
          else match s1 with
          | EmptyString => false
          | String b s2 =>
              if in_range 194 223 a then cont 128 191 b && utf8_valid_fuel f s2
              else match s2 with
              | EmptyString => false
              | String c s3 =>
                  let second :=
                    if byte_is 224 a then cont 160 191 b
                    else if in_range 225 236 a || in_range 238 239 a then cont 128 191 b
                    else byte_is 237 a && cont 128 159 b in
                  if in_range 224 239 a then second && cont 128 191 c && utf8_valid_fuel f s3
                  else match s3 with
                  | EmptyString => false
                  | String d s4 =>
                      let second4 :=
                        if byte_is 240 a then cont 144 191 b
                        else if in_range 241 243 a then cont 128 191 b
                        else byte_is 244 a && cont 128 143 b in
                      second4 && cont 128 191 c && cont 128 191 d && utf8_valid_fuel f s4
                  end
              end
          end
      end
  end.

Definition utf8_valid (s : string) : bool := utf8_valid_fuel (S (String.length s)) s.

Definition managed_config_bytes_supported (value : string) : bool :=
  utf8_valid value &&
  sall (fun b => negb (is_ascii_control b) || byte_is 10 b || byte_is 13 b || byte_is 9 b) value.

(** [value.windows(n).any(|window| window == needle)] *)
Fixpoint windows_any (needle value : string) : bool :=
  starts_with needle value ||
  match value with EmptyString => false | String _ v => windows_any needle v end.

Definition contains_bytes (value needle : string) : bool :=
  negb (bool_decide (needle = EmptyString)) && windows_any needle value.

Definition nginx_management_config (bytes : string) : bool :=
  contains_bytes bytes NGINX_MANAGEMENT_MARKER || contains_bytes bytes NGINX_MANAGEMENT_PROXY_INCLUDE.

(** ** Plan and approval requests *)

Record NginxSiteStatePlanRequest := {
  nr_schema_version : Z;
  nr_operation_type : string;
  nr_site_id : string;
  nr_target_state : NginxSiteState;
  nr_expected_available_digest : string;
  nr_expected_enabled_state_digest : string;
  nr_idempotency_key : string;
}.

Definition nginx_request_validate (r : NginxSiteStatePlanRequest) : vresult :=
  check nr_schema_version r =? OPERATION_SCHEMA_VERSION else "schema_version"%string in
  check bool_decide (nr_operation_type r = NGINX_SITE_STATE_OPERATION) else "operation_type"%string in
  let? _ := validate_identifier (nr_site_id r) "ngs_" "site_id" in
  let? _ := validate_digest (nr_expected_available_digest r) in
  let? _ := validate_digest (nr_expected_enabled_state_digest r) in
  validate_idempotency_key (nr_idempotency_key r).

Record ServiceControlPlanRequest := {
  sr_schema_version : Z;
  sr_operation_type : string;
  sr_service_id : string;
  sr_action : ManagedServiceAction;
  sr_expected_state_digest : string;
  sr_idempotency_key : string;
}.

Definition service_request_validate (r : ServiceControlPlanRequest) : vresult :=
  check sr_schema_version r =? OPERATION_SCHEMA_VERSION else "schema_version"%string in
  check bool_decide (sr_operation_type r = SERVICE_CONTROL_OPERATION) else "operation_type"%string in
  let? _ := validate_service_identifier (sr_service_id r) in
  let? _ := validate_digest (sr_expected_state_digest r) in
  validate_idempotency_key (sr_idempotency_key r).

Record ManagedConfigPlanRequest := {
  mr_schema_version : Z;
  mr_operation_type : string;
  mr_resource_id : string;
  mr_expected_content_digest : string;
  mr_expected_metadata_digest : string;
  mr_proposed_content : string;
  mr_service_action : ServiceAction;
  mr_idempotency_key : string;
}.

Definition managed_request_validate (r : ManagedConfigPlanRequest) : vresult :=
  check mr_schema_version r =? OPERATION_SCHEMA_VERSION else "schema_version"%string in
  check bool_decide (mr_operation_type r = MANAGED_CONFIG_OPERATION) else "operation_type"%string in
  let? _ := validate_managed_config_resource_id (mr_resource_id r) in
  let? _ := validate_digest (mr_expected_content_digest r) in
  let? _ := validate_digest (mr_expected_metadata_digest r) in
  check slen (mr_proposed_content r) <=? MANAGED_CONFIG_MAX_BYTES else "size_limit"%string in
  check managed_config_bytes_supported (mr_proposed_content r) else "invalid_encoding"%string in
  check negb (starts_with "ngc_" (mr_resource_id r) && nginx_management_config (mr_proposed_content r))
    else "protected_content"%string in
  check match mr_service_action r with SReload | ValidateOnly => true | SRestart => false end
    else "unsupported_service_action"%string in
  validate_idempotency_key (mr_idempotency_key r).

Record ManagedConfigRestorePlanRequest := {
  rr_schema_version : Z;
  rr_operation_type : string;
  rr_source_operation_id : string;
  rr_expected_content_digest : string;
  rr_expected_metadata_digest : string;
  rr_idempotency_key : string;
}.

Definition restore_request_validate (r : ManagedConfigRestorePlanRequest) : vresult :=
  check rr_schema_version r =? OPERATION_SCHEMA_VERSION else "schema_version"%string in
  check bool_decide (rr_operation_type r = MANAGED_CONFIG_RESTORE_OPERATION)
    else "operation_type"%string in
  let? _ := validate_ascii_range (rr_source_operation_id r) 1 OPERATION_ID_MAX_BYTES
              "source_operation_id" in
  let? _ := validate_digest (rr_expected_content_digest r) in
  let? _ := validate_digest (rr_expected_metadata_digest r) in
  validate_idempotency_key (rr_idempotency_key r).

Record ManagedConfigApprovalIntent := {
  validation_confirmed : bool;
  service_action_confirmed : bool;
}.

Definition intent_validate (i : ManagedConfigApprovalIntent) : vresult :=
  if validation_confirmed i && service_action_confirmed i then Ok tt else Err "approval_intent".

Record ManagedConfigApprovalRequest := {
  ma_schema_version : Z;
  ma_plan_id : string;
  ma_plan_hash : string;
  ma_idempotency_key : string;
  ma_reauth_token : option string;
  ma_additional_auth_claim : option string;
  ma_approval_intent : ManagedConfigApprovalIntent;
}.

Definition managed_approval_validate_shape (r : ManagedConfigApprovalRequest) : vresult :=
  check ma_schema_version r =? OPERATION_SCHEMA_VERSION else "schema_version"%string in
  let? _ := validate_ascii_range (ma_plan_id r) 1 PLAN_ID_MAX_BYTES "plan_id" in
  let? _ := validate_digest (ma_plan_hash r) in
  let? _ := validate_idempotency_key (ma_idempotency_key r) in
  let? _ := match ma_reauth_token r with
            | Some token => validate_ascii_range token 16 256 "reauth_token"
            | None => Ok tt
            end in
  let? _ := match ma_additional_auth_claim r with
            | Some claim =>
                check is_some (ma_reauth_token r) else "additional_auth_claim"%string in
                validate_ascii_range claim 16 256 "additional_auth_claim"
            | None => Ok tt
            end in
  intent_validate (ma_approval_intent r).

Record OperationApprovalRequest := {
  oa_schema_version : Z;
  oa_plan_id : string;
  oa_plan_hash : string;
  oa_idempotency_key : string;
  oa_reauth_token : string;
  oa_additional_auth_claim : option string;
}.

Definition operation_approval_validate_shape (r : OperationApprovalRequest) : vresult :=
  check oa_schema_version r =? OPERATION_SCHEMA_VERSION else "schema_version"%string in
  let? _ := validate_ascii_range (oa_plan_id r) 1 PLAN_ID_MAX_BYTES "plan_id" in
  let? _ := validate_digest (oa_plan_hash r) in
  let? _ := validate_idempotency_key (oa_idempotency_key r) in
  let? _ := validate_ascii_range (oa_reauth_token r) 16 256 "reauth_token" in
  match oa_additional_auth_claim r with
  | Some claim => validate_ascii_range claim 16 256 "additional_auth_claim"
  | None => Ok tt
  end.

Record ServiceControlApprovalRequest := {
  sa_schema_version : Z;
  sa_plan_id : string;
  sa_plan_hash : string;
  sa_idempotency_key : string;
  sa_impact_confirmed : bool;
}.

Definition service_approval_validate (r : ServiceControlApprovalRequest) : vresult :=
  check negb (negb (sa_schema_version r =? OPERATION_SCHEMA_VERSION) || negb (sa_impact_confirmed r))
    else "approval"%string in
  let? _ := validate_ascii_range (sa_plan_id r) 1 PLAN_ID_MAX_BYTES "plan_id" in
  let? _ := validate_digest (sa_plan_hash r) in
  validate_idempotency_key (sa_idempotency_key r).

(** ** Evidence records *)

Record OperationCommandEvidenceView := {
  ev_class : string;
  ev_success : bool;
  ev_exit_code : option Z;
  ev_timed_out : bool;
  ev_stdout_digest : string;
  ev_stdout_truncated : bool;
  ev_stderr_digest : string;
  ev_stderr_truncated : bool;
}.
#[export] Instance OperationCommandEvidenceView_eq_dec : EqDecision OperationCommandEvidenceView.
Proof. solve_decision. Defined.

Definition OPERATION_COMMAND_CLASS_MAX_BYTES : Z := 64.

Definition command_validate_shape (e : OperationCommandEvidenceView) : vresult :=
  check negb (bool_decide (ev_class e = EmptyString)
              || (OPERATION_COMMAND_CLASS_MAX_BYTES <? slen (ev_class e))
              || negb (sall (fun b => is_ascii_lowercase b || is_ascii_digit b || byte_is 95 b)
                            (ev_class e)))
    else "command_class"%string in
  check negb (ev_success e && (ev_timed_out e || negb (bool_decide (ev_exit_code e = Some 0))))
    else "command_success"%string in
  let? _ := validate_digest (ev_stdout_digest e) in
  validate_digest (ev_stderr_digest e).

Inductive ManagedConfigDiagnosticSeverity := SevError | SevWarning.
#[export] Instance ManagedConfigDiagnosticSeverity_eq_dec : EqDecision ManagedConfigDiagnosticSeverity.
Proof. solve_decision. Defined.

Record ManagedConfigDiagnosticView := {
  dg_service : string;
  dg_validator : string;
  dg_resource_id : option string;
  dg_masked_path : option string;
  dg_line : option Z;
  dg_column : option Z;
  dg_severity : ManagedConfigDiagnosticSeverity;
  dg_code : string;
  dg_message : string;
  dg_related_changed_lines : list Z;
  dg_cause_candidate_lines : list Z;
}.
#[export] Instance ManagedConfigDiagnosticView_eq_dec : EqDecision ManagedConfigDiagnosticView.
Proof. solve_decision. Defined.

Definition MANAGED_CONFIG_DIAGNOSTIC_MAX_ENTRIES : Z := 32.
Definition MANAGED_CONFIG_DIAGNOSTIC_MAX_MESSAGE_BYTES : Z := 240.
Definition MANAGED_CONFIG_DIAGNOSTIC_MAX_RELATED_LINES : Z := 16.

Definition diagnostic_validate_shape (d : ManagedConfigDiagnosticView) : vresult :=
  let? _ := validate_ascii_range (dg_service d) 1 32 "diagnostic_service" in
  let? _ := validate_ascii_range (dg_validator d) 1 64 "diagnostic_validator" in
  let? _ := match dg_resource_id d with
            | Some r => validate_managed_config_resource_id r
            | None => Ok tt
            end in
  check negb (is_some_and (dg_masked_path d) (fun p =>
                bool_decide (p = EmptyString) || (512 <? slen p) || sany is_ascii_control p))
    else "diagnostic_masked_path"%string in
  check negb (bool_decide (dg_line d = Some 0)) else "diagnostic_line"%string in
  check negb (bool_decide (dg_column d = Some 0)) else "diagnostic_column"%string in
  let? _ := validate_ascii_range (dg_code d) 1 96 "diagnostic_code" in
  check negb (bool_decide (dg_message d = EmptyString)
              || (MANAGED_CONFIG_DIAGNOSTIC_MAX_MESSAGE_BYTES <? slen (dg_message d))
              || sany is_ascii_control (dg_message d))
    else "diagnostic_message"%string in
  check negb ((MANAGED_CONFIG_DIAGNOSTIC_MAX_RELATED_LINES <? Z.of_nat (length (dg_related_changed_lines d)))
              || bool_decide (0 ∈ dg_related_changed_lines d))
    else "diagnostic_related_lines"%string in
  check negb ((MANAGED_CONFIG_DIAGNOSTIC_MAX_RELATED_LINES <? Z.of_nat (length (dg_cause_candidate_lines d)))
              || bool_decide (0 ∈ dg_cause_candidate_lines d))
    else "diagnostic_cause_candidate_lines"%string in
  Ok tt.

(** ** Derived identifiers *)

(** [str::trim_start_matches]. *)
Fixpoint trim_start_matches_fuel (fuel : nat) (p s : string) : string :=
  match fuel with
  | O => s
  | S f => match strip_prefix p s with Some t => trim_start_matches_fuel f p t | None => s end
  end.

Definition trim_start_matches (p s : string) : string :=
  trim_start_matches_fuel (S (String.length s)) p s.

Definition NUL : string := String "000" EmptyString.

Section Identifiers.
Context `{Sha256}.

Definition nginx_enabled_state_digest (enabled : bool) : string :=
  sha256_from_raw (sha256 ("jw-agent/nginx/enabled-state/v1" +:+ NUL +:+
                           (if enabled then "enabled" else "disabled"))).

Definition service_id (unit_name : string) : string :=
  ("svc_" +:+ trim_start_matches "sha256:" (sha256_digest unit_name)).

Definition service_state_digest (unit_name : string) (active : bool) : string :=
  sha256_digest (unit_name +:+ NUL +:+ String (chr (if active then 1 else 0)) EmptyString).
End Identifiers.
