(* ===== verification/Plans.v ===== *)
(** * jw-opsd: stored plans, payloads and the error type

    The records that travel through the ledger: [StoredPlan],
    [StoredOperation], the typed payloads of the operation families
    ([certificate.rs], [managed_config.rs], [ufw.rs], [firewall.rs]) and
    [OpsError] ([error.rs]).  The class [Externals] collects the crates the
    daemon depends on: hashing, JSON, time formatting. *)

From Stdlib Require Import Ascii String.
From S2P Require Import Prelude Crypto Contracts.

(** ** Errors

    The payload of the last variants is a driver message that the code only
    displays; the variants are modelled without it. *)

Inductive OpsError :=
  | ERejected (code : string)
  | ERejectedOwned (code : string)
  | EStorage
  | EFilesystem
  | ECommand
  | EForensicLockdown.
#[export] Instance OpsError_eq_dec : EqDecision OpsError.
Proof. solve_decision. Defined.

Definition error_code (e : OpsError) : string :=
  match e with
  | ERejected code => code
  | ERejectedOwned code => code
  | EStorage => "ledger_failure"
  | EFilesystem => "filesystem_failure"
  | ECommand => "command_failure"
  | EForensicLockdown => "forensic_lockdown"
  end.

Definition oresult := result OpsError.

(** ** Payloads *)

Record ManagedConfigPlanPayload := {
  mp_proposal_relative_path : string;
  mp_proposal_digest : string;
  mp_basename : option string;
  mp_proposed_content_digest : string;
  mp_current_bytes : Z;
  mp_proposed_bytes : Z;
  mp_added_lines : Z;
  mp_removed_lines : Z;
  mp_diff_summary : list string;
  mp_service_action : ServiceAction;
}.
#[export] Instance ManagedConfigPlanPayload_eq_dec : EqDecision ManagedConfigPlanPayload.
Proof. solve_decision. Defined.

Record CertbotRenewPlanPayload := {
  rp_inventory_digest : string;
  rp_timer_enabled : bool;
  rp_timer_active : bool;
  rp_certificate_count : Z;
}.
#[export] Instance CertbotRenewPlanPayload_eq_dec : EqDecision CertbotRenewPlanPayload.
Proof. solve_decision. Defined.

Record CertbotIssuePlanPayload := {
  ip_primary_domain : string;
  ip_domains : list string;
  ip_account_email_proposal_relative_path : string;
  ip_account_email_proposal_digest : string;
  ip_masked_account_email : string;
  ip_environment : CertificateEnvironment;
  ip_site_id : string;
  ip_site_digest : string;
  ip_inventory_digest : string;
  ip_preflight_observed_at_ms : Z;
  ip_resolved_addresses : list string;
  ip_local_port_80_reachable : bool;
  ip_local_port_443_reachable : bool;
  ip_staging_evidence_valid : bool;
  ip_staging_evidence_key : string;
}.
#[export] Instance CertbotIssuePlanPayload_eq_dec : EqDecision CertbotIssuePlanPayload.
Proof. solve_decision. Defined.

Record CertbotAttachPlanPayload := {
  ap_primary_domain : string;
  ap_site_id : string;
  ap_site_digest : string;
  ap_metadata_digest : string;
  ap_inventory_digest : string;
  ap_certificate_fingerprint : string;
  ap_sans : list string;
  ap_not_after : string;
  ap_current_certificate_path : string;
  ap_target_certificate_path : string;
  ap_proposed_content_digest : string;
  ap_timer_enabled : bool;
  ap_timer_active : bool;
}.
#[export] Instance CertbotAttachPlanPayload_eq_dec : EqDecision CertbotAttachPlanPayload.
Proof. solve_decision. Defined.

Inductive UfwRuleMutation := UAllow | UDeny | UDelete.
#[export] Instance UfwRuleMutation_eq_dec : EqDecision UfwRuleMutation.
Proof. solve_decision. Defined.

Definition mutation_as_str (m : UfwRuleMutation) : string :=
  match m with UAllow => "allow" | UDeny => "deny" | UDelete => "delete" end.

Inductive UfwProtocol := Tcp | Udp.
#[export] Instance UfwProtocol_eq_dec : EqDecision UfwProtocol.
Proof. solve_decision. Defined.

Definition protocol_as_str (p : UfwProtocol) : string :=
  match p with Tcp => "tcp" | Udp => "udp" end.

Record UfwRuleSpec := {
  us_mutation : UfwRuleMutation;
  us_protocol : UfwProtocol;
  us_port : Z;
  us_source : string;
  us_rule_id : string;
}.
#[export] Instance UfwRuleSpec_eq_dec : EqDecision UfwRuleSpec.
Proof. solve_decision. Defined.

Record UfwPlanPayload := {
  up_requested_mutation : UfwRuleMutation;
  up_rule : UfwRuleSpec;
  up_delete_sequences : list Z;
}.
#[export] Instance UfwPlanPayload_eq_dec : EqDecision UfwPlanPayload.
Proof. solve_decision. Defined.

Record SnapshotRecord := { sn_relative_path : string; sn_digest : string }.
#[export] Instance SnapshotRecord_eq_dec : EqDecision SnapshotRecord.
Proof. solve_decision. Defined.

(** ** Plans and operations as the engine sees them *)

Record StoredPlan := {
  p_operation_type : string;
  p_plan_id : string;
  p_plan_hash : string;
  p_actor : Subject;
  p_site_id : string;
  p_display_name : string;
  p_current_state : NginxSiteState;
  p_target_state : NginxSiteState;
  p_available_digest : string;
  p_enabled_state_digest : string;
  p_created_at_ms : Z;
  p_expires_at_ms : Z;
  p_idempotency_key : string;
  p_request_digest : string;
  p_resource_key : string;
  p_assurance : AssuranceView;
  p_managed_config : option ManagedConfigPlanPayload;
  p_certbot_renew : option CertbotRenewPlanPayload;
  p_certbot_issue : option CertbotIssuePlanPayload;
  p_certbot_attach : option CertbotAttachPlanPayload;
  p_ufw_rule : option UfwPlanPayload;
}.
#[export] Instance StoredPlan_eq_dec : EqDecision StoredPlan.
Proof. solve_decision. Defined.

Definition is_type (plan : StoredPlan) (ty : string) : bool :=
  bool_decide (p_operation_type plan = ty).

Definition is_managed_config (plan : StoredPlan) : bool :=
  is_type plan MANAGED_CONFIG_OPERATION || is_type plan MANAGED_CONFIG_RESTORE_OPERATION.

Definition plan_before_digest (plan : StoredPlan) : string :=
  if is_type plan MANAGED_CONFIG_OPERATION || is_type plan MANAGED_CONFIG_RESTORE_OPERATION
     || is_type plan CERTBOT_ATTACH_OPERATION
  then p_available_digest plan
  else p_enabled_state_digest plan.

Record StoredOperation := {
  o_operation_id : string;
  o_plan : StoredPlan;
  o_stage : OperationStage;
  o_before_digest : string;
  o_after_digest : string;
  o_rollback_result : option string;
  o_snapshot : option SnapshotRecord;
}.

Record Transition := {
  t_expected : list OperationStage;
  t_next : OperationStage;
  t_result_code : string;
  t_evidence_digest : string;
  t_after_digest : option string;
  t_rollback_result : option string;
  t_now_ms : Z;
}.

Record CanonicalEvent := {
  ce_schema_version : Z;
  ce_sequence : Z;
  ce_previous_digest : string;
  ce_operation_id : string;
  ce_plan_id : string;
  ce_stage : string;
  ce_result_code : string;
  ce_recorded_at_ms : Z;
  ce_evidence_digest : string;
}.

Record Checkpoint := {
  cp_schema_version : Z;
  cp_sequence : Z;
  cp_event_digest : string;
}.

Record DiagnosticEvidence := {
  de_schema_version : Z;
  de_validator_evidence_digest : string;
  de_diagnostics_digest : string;
}.

Inductive CertbotCommandClass := IssueStaging | IssueProduction | RenewDryRunClass | VerifyLocalTlsClass.
#[export] Instance CertbotCommandClass_eq_dec : EqDecision CertbotCommandClass.
Proof. solve_decision. Defined.

Record CertbotCommandEvidence := {
  cb_command_class : CertbotCommandClass;
  cb_success : bool;
  cb_exit_code : option Z;
  cb_timed_out : bool;
  cb_stdout_digest : string;
  cb_stdout_truncated : bool;
  cb_stderr_digest : string;
  cb_stderr_truncated : bool;
}.

(** ** External crates *)

Class Externals := {
  ext_sha :: Sha256;
  ext_role :: Json Role;
  ext_site_state :: Json NginxSiteState;
  ext_assurance :: Json AssuranceView;
  ext_managed :: Json (option ManagedConfigPlanPayload);
  ext_renew :: Json (option CertbotRenewPlanPayload);
  ext_issue :: Json (option CertbotIssuePlanPayload);
  ext_attach :: Json (option CertbotAttachPlanPayload);
  ext_ufw :: Json (option UfwPlanPayload);
  ext_command :: Json OperationCommandEvidenceView;
  ext_diagnostics :: Json (list ManagedConfigDiagnosticView);
  ext_event :: Json CanonicalEvent;
  ext_checkpoint :: Json Checkpoint;
  ext_diagnostic_evidence :: Json DiagnosticEvidence;
  ext_certbot_evidence :: Json CertbotCommandEvidence;
  ext_strings :: Json (list string);
  (** [time::OffsetDateTime] formatting; [None] when out of range. *)
  rfc3339 : Z -> option string;
  (** [base64::engine::general_purpose::URL_SAFE_NO_PAD]. *)
  base64url : string -> string;
}.

(** ** digest.rs *)

Section Digest.
Context `{Externals}.

Definition canonical_digest {A} `{Json A} (domain : string) (value : A) : string :=
  format_sha256 (sha256 (domain +:+ NUL +:+ to_json value)).

Definition decode_sha256 (value : string) : oresult string :=
  match strip_prefix "sha256:" value with
  | None => Err EForensicLockdown
  | Some hex =>
      if negb (slen hex =? 64) then Err EForensicLockdown
      else ok_or (decode_pairs hex) EForensicLockdown
  end.

Definition ledger_event_digest (previous canonical_event : string) : oresult string :=
  let? raw_previous := decode_sha256 previous in
  Ok (format_sha256 (sha256 ("jw-agent/ledger/v1" +:+ NUL +:+ raw_previous +:+ canonical_event))).

Definition format_time (milliseconds : Z) : oresult string :=
  ok_or (rfc3339 milliseconds) EStorage.

Definition certbot_command_digest (evidence : CertbotCommandEvidence) : string :=
  canonical_digest "jw-agent/certbot-command-evidence/v1" evidence.
End Digest.

(** A digest string of the repository decodes to the hash it was built from. *)
Lemma decode_format_sha256 s :
  String.length s = 32%nat -> decode_sha256 (format_sha256 s) = Ok s.
Proof.
  intros Hl. unfold decode_sha256, format_sha256.
  rewrite (proj2 (strip_prefix_Some "sha256:" _ (hex_of_bytes s)) eq_refl).
  unfold slen. rewrite hex_of_bytes_length, Hl. simpl. by rewrite decode_pairs_hex.
Qed.

Lemma decode_sha256_length d s : decode_sha256 d = Ok s -> String.length s = 32%nat.
Proof.
  unfold decode_sha256, ok_or. intros Hd. break_in Hd. bool_prop.
  assert (forall n t u, (String.length t <= n)%nat -> decode_pairs t = Some u ->
            String.length t = (2 * String.length u)%nat) as Hlen.
  { clear. induction n as [|n IH]; intros t u Hn Hu.
    - destruct t; simpl in *; [by simplify_eq | lia].
    - destruct t as [|a [|b t]]; simpl in *; simplify_eq/=; [done|].
      break_in Hu. rewrite (IH t s); [simpl; lia | lia | done]. }
  unfold slen in *. rename select (decode_pairs _ = _) into Hp.
  apply (Hlen _ _ _ (le_n _)) in Hp. lia.
Qed.
