(* ===== verification/CertContracts.v ===== *)
(** * jw-contracts: certificates (certificate.rs)

    Domain names, e-mail addresses, the plan requests of the certificate
    operations and the commands sent to the certificate daemon, with their
    validation. *)

From Stdlib Require Import Ascii String.
From S2P Require Import Prelude Crypto Contracts Plans.

Definition CERTBOT_MAX_DOMAINS : Z := 5.
Definition IPC_PROTOCOL_VERSION : Z := 1.

(** ** Names *)

(** [str::split] on an ASCII character. *)
Fixpoint split_on (sep : Z) (s : string) : list string :=
  match s with
  | EmptyString => [EmptyString]
  | String c s' =>
      if byte_is sep c then EmptyString :: split_on sep s'
      else match split_on sep s' with
           | piece :: rest => String c piece :: rest
           | [] => [String c EmptyString]
           end
  end.

Definition is_ascii (s : string) : bool := sall (in_range 0 127) s.
Definition first_byte (s : string) : option ascii := match s with String c _ => Some c | EmptyString => None end.
Definition last_byte (s : string) : option ascii := first_byte (srev s).

Definition label_ok (label : string) : bool :=
  negb (bool_decide (label = EmptyString)) && negb (63 <? slen label)
  && sall (fun b => is_ascii_lowercase b || is_ascii_digit b || byte_is 45 b) label
  && is_some_and (first_byte label) is_ascii_alphanumeric && is_some_and (last_byte label) is_ascii_alphanumeric.

Definition validate_domain (domain : string) : vresult :=
  if (slen domain <? 4) || (253 <? slen domain) || negb (is_ascii domain) || sany is_ascii_uppercase domain
  then Err "invalid_domain"
  else
    let labels := split_on 46 domain in
    if (Z.of_nat (length labels) <? 2)
       || is_none_or (last labels) (fun label => negb (sany (fun b => is_ascii_lowercase b || is_ascii_uppercase b) label))
    then Err "invalid_domain"
    else if forallb label_ok labels then Ok tt else Err "invalid_domain".

(** [str::split_once] on an ASCII character. *)
Fixpoint split_once_on (sep : Z) (s : string) : option (string * string) :=
  match s with
  | EmptyString => None
  | String c s' =>
      if byte_is sep c then Some (EmptyString, s')
      else match split_once_on sep s' with Some (a, b) => Some (String c a, b) | None => None end
  end.

Definition email_local_byte (b : ascii) : bool :=
  is_ascii_alphanumeric b
  || existsb (fun n => byte_is n b) [46; 33; 35; 36; 37; 38; 39; 42; 43; 45; 47; 61; 63; 94; 95; 96; 123; 124; 125; 126].

Definition validate_email (email : string) : vresult :=
  if (slen email <? 6) || (254 <? slen email) || negb (is_ascii email) then Err "invalid_email"
  else match split_once_on 64 email with
       | None => Err "invalid_email"
       | Some (local, domain) =>
           if bool_decide (local = EmptyString) || (64 <? slen local) || sany (byte_is 64) domain
              || negb (sall email_local_byte local)
           then Err "invalid_email"
           else map_err (validate_domain domain) (fun _ => "invalid_email"%string)
       end.

Definition validate_token (value : string) (minimum maximum : Z) (code : string) : vresult :=
  if (slen value <? minimum) || (maximum <? slen value)
     || negb (sall (fun b => is_ascii_alphanumeric b || byte_is 95 b || byte_is 45 b) value)
  then Err code else Ok tt.

(** [Vec::dedup]. *)
Fixpoint dedup {A} `{EqDecision A} (l : list A) : list A :=
  match l with
  | [] => []
  | x :: rest =>
      match rest with
      | y :: _ => if bool_decide (x = y) then dedup rest else x :: dedup rest
      | [] => [x]
      end
  end.

(** [sort] and [dedup] of strings. *)
Definition sort_dedup (l : list string) : list string := dedup (isort String.leb l).

Definition canonical_domains (primary : string) (alternatives : list string) : list string :=
  primary :: sort_dedup (List.filter (fun domain => negb (bool_decide (domain = primary))) alternatives).

(** ** Plan requests *)

Record CertbotIssuePlanRequest := {
  ci_schema_version : Z;
  ci_operation_type : string;
  ci_primary_domain : string;
  ci_alternative_domains : list string;
  ci_account_email : string;
  ci_environment : CertificateEnvironment;
  ci_site_id : string;
  ci_expected_site_digest : string;
  ci_expected_inventory_digest : string;
  ci_tos_agreed : bool;
  ci_idempotency_key : string;
}.

Fixpoint validate_each {A} (f : A -> vresult) (l : list A) : vresult :=
  match l with [] => Ok tt | x :: rest => let? _ := f x in validate_each f rest end.

Definition issue_domains (r : CertbotIssuePlanRequest) : list string :=
  canonical_domains (ci_primary_domain r) (ci_alternative_domains r).

Definition validate_certbot_key (key : string) : vresult :=
  validate_token key IDEMPOTENCY_KEY_MIN_BYTES IDEMPOTENCY_KEY_MAX_BYTES "idempotency_key".

Definition validate_certbot_site (site_id : string) : vresult :=
  let? _ := validate_token site_id 12 64 "site_id" in
  if starts_with "ngs_" site_id then Ok tt else Err "site_id".

Definition issue_request_validate (r : CertbotIssuePlanRequest) : vresult :=
  check ci_schema_version r =? OPERATION_SCHEMA_VERSION else "schema_version"%string in
  check bool_decide (ci_operation_type r = CERTBOT_ISSUE_OPERATION) else "operation_type"%string in
  check ci_tos_agreed r else "tos_not_agreed"%string in
  let? _ := validate_domain (ci_primary_domain r) in
  check Z.of_nat (length (ci_alternative_domains r)) <? CERTBOT_MAX_DOMAINS else "domains"%string in
  let domains := issue_domains r in
  check bool_decide (length domains = S (length (ci_alternative_domains r)))
        && bool_decide (tail domains = ci_alternative_domains r) else "domains"%string in
  let? _ := validate_each validate_domain (ci_alternative_domains r) in
  let? _ := validate_email (ci_account_email r) in
  let? _ := validate_certbot_site (ci_site_id r) in
  let? _ := validate_digest (ci_expected_site_digest r) in
  let? _ := validate_digest (ci_expected_inventory_digest r) in
  validate_certbot_key (ci_idempotency_key r).

Record CertbotIssuePreflightEvidence := {
  pf_observed_at_unix_ms : Z;
  pf_resolved_addresses : list string;
  pf_expected_addresses : list string;
  pf_local_port_80_reachable : bool;
  pf_local_port_443_reachable : bool;
}.

Record CertbotIssuePlanInput := {
  in_request : CertbotIssuePlanRequest;
  in_preflight : CertbotIssuePreflightEvidence;
}.

Section Addresses.
(** [std::net::IpAddr]: the rank of a textual address in its order, [None] if
    it does not parse. *)
Context (ip_rank : string -> option Z).

Fixpoint ascending_addresses (previous : option Z) (addresses : list string) : vresult :=
  match addresses with
  | [] => Ok tt
  | address :: rest =>
      match ip_rank address with
      | None => Err "dns_addresses"
      | Some parsed =>
          if is_some_and previous (fun value => parsed <=? value) then Err "dns_addresses"
          else ascending_addresses (Some parsed) rest
      end
  end.

Definition validate_ip_set (addresses : list string) : vresult :=
  if bool_decide (addresses = []) || (8 <? Z.of_nat (length addresses)) then Err "dns_addresses"
  else ascending_addresses None addresses.

Definition preflight_validate (p : CertbotIssuePreflightEvidence) (now_unix_ms : Z) : vresult :=
  if (now_unix_ms <? pf_observed_at_unix_ms p) || (60000 <? sat_sub now_unix_ms (pf_observed_at_unix_ms p))
  then Err "preflight_stale"
  else
    let? _ := validate_ip_set (pf_resolved_addresses p) in
    let? _ := validate_ip_set (pf_expected_addresses p) in
    check bool_decide (pf_resolved_addresses p = pf_expected_addresses p) else "dns_mismatch"%string in
    check pf_local_port_80_reachable p else "challenge_unreachable"%string in
    Ok tt.

Definition issue_input_validate (i : CertbotIssuePlanInput) (now_unix_ms : Z) : vresult :=
  let? _ := issue_request_validate (in_request i) in
  preflight_validate (in_preflight i) now_unix_ms.
End Addresses.

Record CertbotRenewTestPlanRequest := {
  rt_schema_version : Z;
  rt_operation_type : string;
  rt_expected_inventory_digest : string;
  rt_idempotency_key : string;
}.

Definition renew_request_validate (r : CertbotRenewTestPlanRequest) : vresult :=
  check rt_schema_version r =? OPERATION_SCHEMA_VERSION else "schema_version"%string in
  check bool_decide (rt_operation_type r = CERTBOT_RENEW_TEST_OPERATION) else "operation_type"%string in
  let? _ := validate_digest (rt_expected_inventory_digest r) in
  validate_certbot_key (rt_idempotency_key r).

Record CertbotAttachPlanRequest := {
  at_schema_version : Z;
  at_operation_type : string;
  at_primary_domain : string;
  at_site_id : string;
  at_expected_site_digest : string;
  at_expected_inventory_digest : string;
  at_expected_certificate_fingerprint : string;
  at_idempotency_key : string;
}.

Definition attach_request_validate (r : CertbotAttachPlanRequest) : vresult :=
  check at_schema_version r =? OPERATION_SCHEMA_VERSION else "schema_version"%string in
  check bool_decide (at_operation_type r = CERTBOT_ATTACH_OPERATION) else "operation_type"%string in
  let? _ := validate_domain (at_primary_domain r) in
  let? _ := validate_certbot_site (at_site_id r) in
  let? _ := validate_digest (at_expected_site_digest r) in
  let? _ := validate_digest (at_expected_inventory_digest r) in
  let? _ := validate_digest (at_expected_certificate_fingerprint r) in
  validate_certbot_key (at_idempotency_key r).

(** ** Commands to the certificate daemon *)

Inductive CertbotCommand :=
  | Issue (primary_domain : string) (domains : list string) (account_email : string)
      (environment : CertificateEnvironment) (tos_agreed : bool)
  | RenewDryRun
  | VerifyLocalTls (server_name expected_fingerprint : string).

Fixpoint ascending_domains (previous : option string) (domains : list string) : vresult :=
  match domains with
  | [] => Ok tt
  | domain :: rest =>
      let? _ := validate_domain domain in
      if is_some_and previous (fun value => String.leb domain value) then Err "domains"
      else ascending_domains (Some domain) rest
  end.

Definition command_validate (c : CertbotCommand) : vresult :=
  match c with
  | Issue primary_domain domains account_email _ tos_agreed =>
      check tos_agreed else "tos_not_agreed"%string in
      let? _ := validate_domain primary_domain in
      if bool_decide (domains = []) || (CERTBOT_MAX_DOMAINS <? Z.of_nat (length domains))
         || negb (bool_decide (head domains = Some primary_domain))
      then Err "domains"
      else
        let? _ := ascending_domains None domains in
        validate_email account_email
  | RenewDryRun => Ok tt
  | VerifyLocalTls server_name expected_fingerprint =>
      let? _ := validate_domain server_name in
      validate_digest expected_fingerprint
  end.

Record CertbotCommandRequest := {
  cq_protocol_version : Z;
  cq_request_id : string;
  cq_deadline_unix_ms : Z;
  cq_command : CertbotCommand;
}.

Definition command_request_validate (r : CertbotCommandRequest) (now_unix_ms : Z) : vresult :=
  check cq_protocol_version r =? IPC_PROTOCOL_VERSION else "protocol_version"%string in
  let? _ := validate_token (cq_request_id r) 1 64 "request_id" in
  if cq_deadline_unix_ms r <=? now_unix_ms then Err "deadline_expired"
  else command_validate (cq_command r).

Inductive CertbotCommandResult :=
  | CertCompleted (evidence : CertbotCommandEvidence)
  | CertRejected (code : string).

Record CertbotCommandResponse := {
  cs_protocol_version : Z;
  cs_request_id : string;
  cs_result : CertbotCommandResult;
}.

(** ** Inventory *)

Record CertificateSummaryView := {
  cy_primary_domain : string;
  cy_sans : list string;
  cy_not_after : string;
  cy_fingerprint_sha256 : string;
  cy_certificate_path : string;
  cy_private_key_present : bool;
  cy_renewal_config_present : bool;
  cy_webroot_managed : bool;
}.

Record CertificateInventoryView := {
  iv_schema_version : Z;
  iv_observed_at : string;
  iv_certbot_installed : bool;
  iv_timer_enabled : bool;
  iv_timer_active : bool;
  iv_inventory_digest : string;
  iv_certificates : list CertificateSummaryView;
  iv_problems : list string;
  iv_issue_operation_type : option string;
  iv_renew_test_operation_type : option string;
  iv_attach_operation_type : option string;
  iv_assurance : AssuranceView;
}.

Example command_domains_must_ascend :
  command_validate (Issue "example.com" ["example.com"; "a.example.com"] "a@example.com" Staging true)
    = Err "domains"%string /\
  issue_domains {| ci_schema_version := 1; ci_operation_type := CERTBOT_ISSUE_OPERATION;
                   ci_primary_domain := "example.com"; ci_alternative_domains := ["a.example.com"];
                   ci_account_email := "a@example.com"; ci_environment := Staging; ci_site_id := "";
                   ci_expected_site_digest := ""; ci_expected_inventory_digest := ""; ci_tos_agreed := true;
                   ci_idempotency_key := "" |} = ["example.com"; "a.example.com"]%string.
Proof. split; vm_compute; reflexivity. Qed.
