(* ===== verification/Adapters.v ===== *)
(** * jw-opsd: registered commands, services and managed-config adapters

    The closed enumerations an operation can name ([runner.rs]
    [CommandClass], [service_control.rs] [RegisteredService],
    [managed_config.rs] [ManagedConfigAdapter]), the evidence a command leaves,
    and the identifiers that select them. *)

From Stdlib Require Import Ascii String.
From S2P Require Import Prelude Crypto Contracts Plans.

(** ** Commands *)

Inductive CommandClass :=
  | NginxConfigTest
  | NginxReload
  | NginxStart
  | NginxStop
  | NginxRestart
  | NginxActive
  | ApacheConfigTest
  | ApacheReload
  | ApacheStart
  | ApacheStop
  | ApacheRestart
  | ApacheActive
  | JwEdgeActive
  | JwEdgeReady
  | PhpFpm83ConfigTest
  | PhpFpm83Reload
  | PhpFpm83Start
  | PhpFpm83Stop
  | PhpFpm83Restart
  | PhpFpm83Active
  | CertbotTimerEnabled
  | CertbotTimerActive
  | UfwStatus
  | UfwRuleAdd
  | UfwRuleDelete.
#[export] Instance CommandClass_eq_dec : EqDecision CommandClass.
Proof. solve_decision. Defined.

Definition class_as_str (c : CommandClass) : string :=
  match c with
  | NginxConfigTest => "nginx_config_test"
  | NginxReload => "nginx_reload"
  | NginxStart => "nginx_start"
  | NginxStop => "nginx_stop"
  | NginxRestart => "nginx_restart"
  | NginxActive => "nginx_active"
  | ApacheConfigTest => "apache_config_test"
  | ApacheReload => "apache_reload"
  | ApacheStart => "apache_start"
  | ApacheStop => "apache_stop"
  | ApacheRestart => "apache_restart"
  | ApacheActive => "apache_active"
  | JwEdgeActive => "jw_edge_active"
  | JwEdgeReady => "jw_edge_ready"
  | PhpFpm83ConfigTest => "php_fpm_83_config_test"
  | PhpFpm83Reload => "php_fpm_83_reload"
  | PhpFpm83Start => "php_fpm_83_start"
  | PhpFpm83Stop => "php_fpm_83_stop"
  | PhpFpm83Restart => "php_fpm_83_restart"
  | PhpFpm83Active => "php_fpm_83_active"
  | CertbotTimerEnabled => "certbot_timer_enabled"
  | CertbotTimerActive => "certbot_timer_active"
  | UfwStatus => "ufw_status"
  | UfwRuleAdd => "ufw_rule_add"
  | UfwRuleDelete => "ufw_rule_delete"
  end.

Record StreamEvidence := { sv_digest : string; sv_captured : string; sv_truncated : bool }.

Record CommandEvidence := {
  c_class : CommandClass;
  c_success : bool;
  c_exit_code : option Z;
  c_timed_out : bool;
  c_stdout : StreamEvidence;
  c_stderr : StreamEvidence;
}.

(** Captured output keeps at most [cap] bytes; the digest covers all of it. *)
Definition read_bounded `{Sha256} (cap : Z) (output : string) : StreamEvidence :=
  {| sv_digest := format_sha256 (sha256 output);
     sv_captured := String.substring 0 (Z.to_nat cap) output;
     sv_truncated := cap <? slen output |}.

Definition command_evidence_view (e : CommandEvidence) : OperationCommandEvidenceView :=
  {| ev_class := class_as_str (c_class e);
     ev_success := c_success e;
     ev_exit_code := c_exit_code e;
     ev_timed_out := c_timed_out e;
     ev_stdout_digest := sv_digest (c_stdout e);
     ev_stdout_truncated := sv_truncated (c_stdout e);
     ev_stderr_digest := sv_digest (c_stderr e);
     ev_stderr_truncated := sv_truncated (c_stderr e) |}.

Definition failed_evidence `{Sha256} (class : CommandClass) : CommandEvidence :=
  let empty := {| sv_digest := sha256_digest ""; sv_captured := ""; sv_truncated := false |} in
  {| c_class := class; c_success := false; c_exit_code := None; c_timed_out := false;
     c_stdout := empty; c_stderr := empty |}.

(** ** Registered services *)

Inductive RegisteredService := SvcNginx | SvcApache | SvcPhpFpm83.
#[export] Instance RegisteredService_eq_dec : EqDecision RegisteredService.
Proof. solve_decision. Defined.

Definition unit_name (s : RegisteredService) : string :=
  match s with
  | SvcNginx => "nginx.service"
  | SvcApache => "apache2.service"
  | SvcPhpFpm83 => "php8.3-fpm.service"
  end.

Definition service_display_name (s : RegisteredService) : string :=
  match s with
  | SvcNginx => "Nginx"
  | SvcApache => "Apache HTTP Server"
  | SvcPhpFpm83 => "PHP 8.3 FPM"
  end.

Definition active_command (s : RegisteredService) : CommandClass :=
  match s with
  | SvcNginx => NginxActive
  | SvcApache => ApacheActive
  | SvcPhpFpm83 => PhpFpm83Active
  end.

Definition action_command (s : RegisteredService) (action : ManagedServiceAction) : CommandClass :=
  match s, action with
  | SvcNginx, Start => NginxStart
  | SvcNginx, Stop => NginxStop
  | SvcNginx, Restart => NginxRestart
  | SvcNginx, Reload => NginxReload
  | SvcApache, Start => ApacheStart
  | SvcApache, Stop => ApacheStop
  | SvcApache, Restart => ApacheRestart
  | SvcApache, Reload => ApacheReload
  | SvcPhpFpm83, Start => PhpFpm83Start
  | SvcPhpFpm83, Stop => PhpFpm83Stop
  | SvcPhpFpm83, Restart => PhpFpm83Restart
  | SvcPhpFpm83, Reload => PhpFpm83Reload
  end.

Definition restore_command (s : RegisteredService) (active : bool) : CommandClass :=
  match s, active with
  | SvcNginx, true => NginxStart
  | SvcNginx, false => NginxStop
  | SvcApache, true => ApacheStart
  | SvcApache, false => ApacheStop
  | SvcPhpFpm83, true => PhpFpm83Start
  | SvcPhpFpm83, false => PhpFpm83Stop
  end.

Definition expected_active (action : ManagedServiceAction) : bool :=
  negb (bool_decide (action = Stop)).

(** ** Recovery instructions shown with a receipt *)

Definition NGINX_MANAGED_CONFIG_RECOVERY_PATH : list string :=
  ["SSH로 서버에 접속합니다.";
   "JW Agent receipt의 operation ID와 snapshot 상태를 확인합니다.";
   "대상 Nginx 설정 파일을 검토하고 nginx -t를 실행합니다.";
   "검증 성공 후 nginx.service를 reload합니다."].
Definition PHP_FPM_MANAGED_CONFIG_RECOVERY_PATH : list string :=
  ["SSH로 서버에 접속합니다.";
   "JW Agent receipt의 operation ID와 snapshot 상태를 확인합니다.";
   "/etc/php/8.3/fpm/php.ini를 검토하고 php-fpm8.3 -t를 실행합니다.";
   "검증 성공 후 php8.3-fpm.service를 reload합니다."].
Definition APACHE_MANAGED_CONFIG_RECOVERY_PATH : list string :=
  ["SSH로 서버에 접속합니다.";
   "JW Agent receipt의 operation ID와 snapshot 상태를 확인합니다.";
   "대상 Apache 설정 파일을 검토하고 apache2ctl configtest를 실행합니다.";
   "검증 성공 후 apache2.service를 reload합니다."].
Definition NGINX_RECOVERY_PATH : list string :=
  ["SSH로 서버에 접속합니다.";
   "JW Agent receipt와 Nginx 설정을 확인합니다.";
   "nginx -t 성공 후 Nginx를 reload합니다."].
Definition UFW_RECOVERY_PATH : list string :=
  ["독립 JW Agent edge 또는 SSH로 서버에 접속합니다.";
   "JW Agent receipt의 operation ID와 UFW status digest를 확인합니다.";
   "sudo ufw status numbered로 제품 소유 comment를 확인합니다.";
   "자동 원복이 실패한 제품 소유 규칙만 수동으로 복구합니다."].
Definition CERTBOT_ISSUE_RECOVERY_PATH : list string :=
  ["SSH에서 certbot certificates와 해당 domain의 renewal 상태를 확인합니다.";
   "감사 영수증의 environment·command class·exit·timeout digest를 확인합니다.";
   "발급 성공 후에는 별도 TLS attach 계획을 만들고, 실패하면 DNS·80 포트·webroot를 수정한 뒤 새 계획을 만듭니다."].
Definition CERTBOT_RENEW_RECOVERY_PATH : list string :=
  ["SSH로 certbot.timer와 Nginx 상태를 확인합니다.";
   "감사 영수증의 command class·exit·timeout digest를 확인합니다.";
   "중단된 dry-run은 새 계획과 재인증으로 다시 실행합니다."].
Definition CERTBOT_ATTACH_RECOVERY_PATH : list string :=
  ["SSH로 서버에 접속합니다.";
   "JW Agent receipt의 operation ID와 rollback 결과를 확인합니다.";
   "보호된 관리 vhost의 ssl_certificate 지시문과 snapshot을 비교합니다.";
   "nginx -t와 로컬 SNI TLS 지문을 확인한 뒤 nginx.service를 reload합니다."].
Definition SERVICE_CONTROL_RECOVERY_PATH : list string :=
  ["터미널 또는 SSH로 서버에 접속합니다.";
   "systemctl status로 대상 서비스와 최근 journal을 확인합니다.";
   "설정 문법을 확인한 뒤 이전 상태에 맞게 start 또는 stop합니다."].

(** ** Managed-config adapters *)

Inductive ManagedConfigAdapter :=
  | AdNginx
  | AdNginxTree
  | AdNginxMain
  | AdNginxConfD
  | AdApacheTree
  | AdApacheMain
  | AdApachePorts
  | AdApacheConf
  | AdApacheSite
  | AdPhpFpm83Ini
  | AdPhpFpm83Global
  | AdPhpFpm83PoolWww
  | AdPhpFpm83Pool.
#[export] Instance ManagedConfigAdapter_eq_dec : EqDecision ManagedConfigAdapter.
Proof. solve_decision. Defined.

Definition adapter_recovery_path (a : ManagedConfigAdapter) : list string :=
  match a with
  | AdNginx | AdNginxTree | AdNginxMain | AdNginxConfD => NGINX_MANAGED_CONFIG_RECOVERY_PATH
  | AdApacheTree | AdApacheMain | AdApachePorts | AdApacheConf | AdApacheSite =>
      APACHE_MANAGED_CONFIG_RECOVERY_PATH
  | AdPhpFpm83Ini | AdPhpFpm83Global | AdPhpFpm83PoolWww | AdPhpFpm83Pool =>
      PHP_FPM_MANAGED_CONFIG_RECOVERY_PATH
  end.

Definition NGINX_CONFIG_ADAPTER_ID : string := "nginx/ubuntu-standard-v1".
Definition NGINX_TREE_CONFIG_ADAPTER_ID : string := "nginx/ubuntu-24.04-tree-v1".
Definition NGINX_MAIN_CONFIG_ADAPTER_ID : string := "nginx/ubuntu-24.04-main-v1".
Definition NGINX_CONF_D_CONFIG_ADAPTER_ID : string := "nginx/ubuntu-24.04-conf-d-v1".
Definition APACHE_TREE_CONFIG_ADAPTER_ID : string := "apache/ubuntu-24.04-tree-v1".
Definition APACHE_MAIN_CONFIG_ADAPTER_ID : string := "apache/ubuntu-24.04-main-v1".
Definition APACHE_PORTS_CONFIG_ADAPTER_ID : string := "apache/ubuntu-24.04-ports-v1".
Definition APACHE_CONF_CONFIG_ADAPTER_ID : string := "apache/ubuntu-24.04-conf-enabled-v1".
Definition APACHE_SITE_CONFIG_ADAPTER_ID : string := "apache/ubuntu-24.04-site-enabled-v1".
Definition PHP_FPM_CONFIG_ADAPTER_ID : string := "php-fpm/ubuntu-24.04-8.3-v1".
Definition PHP_FPM_GLOBAL_CONFIG_ADAPTER_ID : string := "php-fpm/ubuntu-24.04-8.3-global-v1".
Definition PHP_FPM_POOL_CONFIG_ADAPTER_ID : string := "php-fpm/ubuntu-24.04-8.3-pool-www-v1".
Definition PHP_FPM_DYNAMIC_POOL_CONFIG_ADAPTER_ID : string := "php-fpm/ubuntu-24.04-8.3-pool-v1".

Definition adapter_id (a : ManagedConfigAdapter) : string :=
  match a with
  | AdNginx => NGINX_CONFIG_ADAPTER_ID
  | AdNginxTree => NGINX_TREE_CONFIG_ADAPTER_ID
  | AdNginxMain => NGINX_MAIN_CONFIG_ADAPTER_ID
  | AdNginxConfD => NGINX_CONF_D_CONFIG_ADAPTER_ID
  | AdApacheTree => APACHE_TREE_CONFIG_ADAPTER_ID
  | AdApacheMain => APACHE_MAIN_CONFIG_ADAPTER_ID
  | AdApachePorts => APACHE_PORTS_CONFIG_ADAPTER_ID
  | AdApacheConf => APACHE_CONF_CONFIG_ADAPTER_ID
  | AdApacheSite => APACHE_SITE_CONFIG_ADAPTER_ID
  | AdPhpFpm83Ini => PHP_FPM_CONFIG_ADAPTER_ID
  | AdPhpFpm83Global => PHP_FPM_GLOBAL_CONFIG_ADAPTER_ID
  | AdPhpFpm83PoolWww => PHP_FPM_POOL_CONFIG_ADAPTER_ID
  | AdPhpFpm83Pool => PHP_FPM_DYNAMIC_POOL_CONFIG_ADAPTER_ID
  end.

Definition NGINX_MANAGED_CONFIG_MAX_BYTES : Z := 24 * 1024.
Definition PHP_FPM_CONFIG_MAX_BYTES : Z := 128 * 1024.

Definition maximum_bytes (a : ManagedConfigAdapter) : Z :=
  match a with
  | AdNginx => NGINX_MANAGED_CONFIG_MAX_BYTES
  | AdNginxTree | AdNginxMain | AdNginxConfD | AdApacheTree | AdApacheMain | AdApachePorts | AdApacheConf
  | AdApacheSite => MANAGED_CONFIG_MAX_BYTES
  | AdPhpFpm83Ini | AdPhpFpm83Global | AdPhpFpm83PoolWww | AdPhpFpm83Pool => PHP_FPM_CONFIG_MAX_BYTES
  end.

Definition NGINX_MANAGED_CONFIG_IMPACT : list string :=
  ["등록된 Nginx 설정 파일 하나의 bytes·owner·mode를 교체합니다.";
   "nginx -t가 성공한 경우에만 nginx.service reload를 실행합니다.";
   "문법·reload·active·read-back 실패 시 직전 파일을 자동 복원합니다."].
Definition PHP_FPM_MANAGED_CONFIG_IMPACT : list string :=
  ["Ubuntu PHP 8.3 FPM의 표준 php.ini bytes·owner·mode를 교체합니다.";
   "php-fpm8.3 -t가 성공한 경우에만 php8.3-fpm.service reload를 실행합니다.";
   "문법·reload·active·read-back 실패 시 직전 php.ini를 자동 복원합니다."].
Definition APACHE_MANAGED_CONFIG_IMPACT : list string :=
  ["등록된 Apache 설정 파일 하나의 bytes·owner·mode를 교체합니다.";
   "apache2ctl configtest가 성공한 경우에만 apache2.service reload를 실행합니다.";
   "문법·reload·active·read-back 실패 시 직전 파일을 자동 복원합니다."].

(** The service an adapter configures. *)
Definition adapter_service (a : ManagedConfigAdapter) : RegisteredService :=
  match a with
  | AdNginx | AdNginxTree | AdNginxMain | AdNginxConfD => SvcNginx
  | AdApacheTree | AdApacheMain | AdApachePorts | AdApacheConf | AdApacheSite => SvcApache
  | AdPhpFpm83Ini | AdPhpFpm83Global | AdPhpFpm83PoolWww | AdPhpFpm83Pool => SvcPhpFpm83
  end.

Definition adapter_impact (a : ManagedConfigAdapter) : list string :=
  match adapter_service a with
  | SvcNginx => NGINX_MANAGED_CONFIG_IMPACT
  | SvcApache => APACHE_MANAGED_CONFIG_IMPACT
  | SvcPhpFpm83 => PHP_FPM_MANAGED_CONFIG_IMPACT
  end.

Definition adapter_config_test (a : ManagedConfigAdapter) : CommandClass :=
  match adapter_service a with
  | SvcNginx => NginxConfigTest
  | SvcApache => ApacheConfigTest
  | SvcPhpFpm83 => PhpFpm83ConfigTest
  end.

Definition adapter_reload (a : ManagedConfigAdapter) : CommandClass :=
  match adapter_service a with
  | SvcNginx => NginxReload
  | SvcApache => ApacheReload
  | SvcPhpFpm83 => PhpFpm83Reload
  end.

Definition adapter_active (a : ManagedConfigAdapter) : CommandClass :=
  match adapter_service a with
  | SvcNginx => NginxActive
  | SvcApache => ApacheActive
  | SvcPhpFpm83 => PhpFpm83Active
  end.

Definition config_valid_code (a : ManagedConfigAdapter) : string :=
  match adapter_service a with
  | SvcNginx => "nginx_config_valid"
  | SvcApache => "apache_config_valid"
  | SvcPhpFpm83 => "php_fpm_config_valid"
  end.

Definition reloaded_code (a : ManagedConfigAdapter) : string :=
  match adapter_service a with
  | SvcNginx => "nginx_reloaded"
  | SvcApache => "apache_reloaded"
  | SvcPhpFpm83 => "php_fpm_reloaded"
  end.

Definition is_tree_adapter (a : ManagedConfigAdapter) : bool :=
  match a with AdNginxTree | AdApacheTree => true | _ => false end.

Definition managed_config_masked_path (a : ManagedConfigAdapter) (display_name : string) : string :=
  match a with
  | AdNginx => "…/nginx/sites-available/" +:+ display_name
  | AdNginxTree => "/etc/nginx/" +:+ display_name
  | AdNginxMain => "…/nginx/nginx.conf"
  | AdNginxConfD => "…/nginx/conf.d/" +:+ display_name
  | AdApacheTree => "/etc/apache2/" +:+ display_name
  | AdApacheMain => "…/apache2/apache2.conf"
  | AdApachePorts => "…/apache2/ports.conf"
  | AdApacheConf => "…/apache2/conf-available/" +:+ display_name
  | AdApacheSite => "…/apache2/sites-available/" +:+ display_name
  | AdPhpFpm83Ini => "…/php/8.3/fpm/php.ini"
  | AdPhpFpm83Global => "…/php/8.3/fpm/php-fpm.conf"
  | AdPhpFpm83PoolWww => "…/php/8.3/fpm/pool.d/www.conf"
  | AdPhpFpm83Pool => "…/php/8.3/fpm/pool.d/" +:+ display_name
  end.

Definition assurance_parts (s : RegisteredService) : string * list string * list string * list string :=
  match s with
  | SvcNginx =>
      ("등록된 Nginx 설정 파일 하나의 bytes·owner·mode와 검증된 reload"%string,
       ["include된 다른 파일과 active connection"; "Nginx process의 과거 in-memory 상태";
        "제품 밖 root 사용자의 동시 변경"]%string,
       ["atomic replace와 content·metadata read-back"; "nginx -t"; "reload 후 nginx.service active"]%string,
       ["이전 bytes·owner·mode 복원"; "nginx -t와 reload 후 active 확인"]%string)
  | SvcApache =>
      ("Ubuntu Apache의 선택한 표준 설정 파일 bytes·owner·mode와 검증된 reload"%string,
       ["선택하지 않은 다른 설정 파일과 active connection"; "Apache process의 과거 in-memory 상태";
        "제품 밖 root 사용자의 동시 변경"]%string,
       ["atomic replace와 content·metadata read-back"; "apache2ctl configtest";
        "reload 후 apache2.service active"]%string,
       ["이전 bytes·owner·mode 복원"; "apache2ctl configtest와 reload 후 active 확인"]%string)
  | SvcPhpFpm83 =>
      ("Ubuntu PHP 8.3 FPM의 선택한 표준 설정 파일 bytes·owner·mode와 검증된 reload"%string,
       ["선택하지 않은 다른 FPM·CLI·Apache SAPI 설정과 extension package";
        "기존 request와 PHP process의 과거 in-memory 상태"; "제품 밖 root 사용자의 동시 변경"]%string,
       ["atomic replace와 content·metadata read-back"; "php-fpm8.3 -t와 php.ini syntax warning 부재";
        "reload 후 php8.3-fpm.service active"]%string,
       ["이전 php.ini bytes·owner·mode 복원"; "php-fpm8.3 -t와 reload 후 active 확인"]%string)
  end.

Definition managed_config_assurance (a : ManagedConfigAdapter) : AssuranceView :=
  let '(sc, excluded, apply, rollback) := assurance_parts (adapter_service a) in
  {| level := G2ReversibleConfig; rollback_support := AutomaticBounded; operation_available := true;
     scope := [sc]; excluded_effects := excluded; apply_verifier := apply; rollback_verifier := rollback;
     reason := None |}.

(** A configuration file that was found and may be managed. *)
Record ManagedConfigResource := {
  cr_adapter : ManagedConfigAdapter;
  cr_resource_id : string;
  cr_basename : string;
  cr_display_name : string;
  cr_root : string;
  cr_content : string;
  cr_content_digest : string;
  cr_metadata_digest : string;
  cr_mode : Z;
  cr_uid : Z;
  cr_gid : Z;
}.

Record ManagedConfigResourceView := {
  cv_schema_version : Z;
  cv_adapter_id : string;
  cv_resource_id : string;
  cv_display_name : string;
  cv_masked_path : string;
  cv_content : string;
  cv_content_digest : string;
  cv_metadata_digest : string;
  cv_max_bytes : Z;
  cv_allowed_service_actions : list ServiceAction;
  cv_assurance : AssuranceView;
}.

Definition resource_view (r : ManagedConfigResource) (assurance : AssuranceView) : ManagedConfigResourceView :=
  {| cv_schema_version := OPERATION_SCHEMA_VERSION;
     cv_adapter_id := adapter_id (cr_adapter r);
     cv_resource_id := cr_resource_id r;
     cv_display_name := cr_display_name r;
     cv_masked_path := managed_config_masked_path (cr_adapter r)
                         (if is_tree_adapter (cr_adapter r) then cr_display_name r else cr_basename r);
     cv_content := cr_content r;
     cv_content_digest := cr_content_digest r;
     cv_metadata_digest := cr_metadata_digest r;
     cv_max_bytes := maximum_bytes (cr_adapter r);
     cv_allowed_service_actions := [SReload; ValidateOnly];
     cv_assurance := assurance |}.

Definition RESOURCE_ID_BYTES : nat := 18.

Section Identifiers.
Context `{Externals}.

Definition command_evidence_digest (command : OperationCommandEvidenceView) : string :=
  canonical_digest "jw-agent/command-evidence/v1" command.

Definition command_digest (e : CommandEvidence) : string :=
  command_evidence_digest (command_evidence_view e).

Definition hashed_id (prefix scope name : string) : string :=
  prefix +:+ base64url (String.substring 0 RESOURCE_ID_BYTES (sha256 (scope +:+ NUL +:+ name))).

Definition nginx_site_id (layout_id basename : string) : string :=
  hashed_id "ngs_" layout_id basename.

Definition nginx_config_resource_id (adapter_id basename : string) : string :=
  hashed_id "ngc_" adapter_id basename.

Definition php_fpm_config_resource_id (adapter_id : string) : string :=
  hashed_id "php_" adapter_id "php.ini".

Definition php_fpm_pool_config_resource_id (basename : string) : string :=
  hashed_id "php_" PHP_FPM_DYNAMIC_POOL_CONFIG_ADAPTER_ID basename.

Definition managed_service_config_resource_id (prefix adapter_id logical_name : string) : string :=
  hashed_id prefix adapter_id logical_name.

Definition registered_service (service_identifier : string) : oresult RegisteredService :=
  ok_or (List.find (fun s => bool_decide (service_id (unit_name s) = service_identifier))
           [SvcNginx; SvcApache; SvcPhpFpm83])
        (ERejected "service_not_managed").

Definition service_action_digest (action : ManagedServiceAction) : string :=
  sha256_digest (action_storage_value action).

Definition service_action_from_digest (value : string) : oresult ManagedServiceAction :=
  ok_or (List.find (fun a => bool_decide (service_action_digest a = value))
           [Start; Stop; Restart; Reload])
        EForensicLockdown.

Definition managed_config_adapter (resource_id : string) : oresult ManagedConfigAdapter :=
  if starts_with "ngc_" resource_id then Ok AdNginx
  else if starts_with "ngf_" resource_id then Ok AdNginxTree
  else if starts_with "ngm_" resource_id then Ok AdNginxMain
  else if starts_with "ngd_" resource_id then Ok AdNginxConfD
  else if starts_with "apf_" resource_id then Ok AdApacheTree
  else if starts_with "apm_" resource_id then Ok AdApacheMain
  else if starts_with "app_" resource_id then Ok AdApachePorts
  else if starts_with "apc_" resource_id then Ok AdApacheConf
  else if starts_with "aps_" resource_id then Ok AdApacheSite
  else if bool_decide (resource_id = php_fpm_config_resource_id "php-fpm/ubuntu-24.04-8.3-v1")
  then Ok AdPhpFpm83Ini
  else if bool_decide (resource_id = php_fpm_config_resource_id "php-fpm/ubuntu-24.04-8.3-global-v1")
  then Ok AdPhpFpm83Global
  else if bool_decide (resource_id = php_fpm_config_resource_id "php-fpm/ubuntu-24.04-8.3-pool-www-v1")
  then Ok AdPhpFpm83PoolWww
  else if starts_with "php_" resource_id then Ok AdPhpFpm83Pool
  else Err (ERejected "resource_missing").

Definition recovery_path_for (plan : StoredPlan) : list string :=
  if is_managed_config plan then
    match managed_config_adapter (p_site_id plan) with
    | Ok adapter => adapter_recovery_path adapter
    | Err _ => []
    end
  else if is_type plan SERVICE_CONTROL_OPERATION then SERVICE_CONTROL_RECOVERY_PATH
  else if is_type plan UFW_RULE_OPERATION then UFW_RECOVERY_PATH
  else if is_type plan CERTBOT_ISSUE_OPERATION then CERTBOT_ISSUE_RECOVERY_PATH
  else if is_type plan CERTBOT_RENEW_TEST_OPERATION then CERTBOT_RENEW_RECOVERY_PATH
  else if is_type plan CERTBOT_ATTACH_OPERATION then CERTBOT_ATTACH_RECOVERY_PATH
  else NGINX_RECOVERY_PATH.
End Identifiers.
