(* ===== verification/Reference.v ===== *)
(** * Reference instances of the external crates

    Concrete functions for what the development takes as parameters, so that
    definitions can be evaluated and hypotheses shown satisfiable: a checksum
    in place of SHA-256, a token codec in place of [serde_json], and simple
    stand-ins for time formatting and base64. *)

From Stdlib Require Import Ascii String.
From S2P Require Import Prelude Crypto Contracts Plans.

(** ** A checksum of 32 bytes *)

Fixpoint checksum (seed : Z) (s : string) : Z :=
  match s with
  | EmptyString => seed
  | String c s' => checksum ((seed * 31 + code c + 7) mod 65521) s'
  end.

Fixpoint pad_bytes (n : nat) (z : Z) : string :=
  match n with
  | O => EmptyString
  | S n' => String (chr (z mod 256)) (pad_bytes n' (z / 256))
  end.

#[refine] Definition sha256_checksum : Sha256 :=
  {| sha256 m := pad_bytes 32 (checksum 1 m + 65536 * Z.of_nat (String.length m)) |}.
Proof.
  intros m. generalize (checksum 1 m + 65536 * Z.of_nat (String.length m)). intros z.
  assert (forall n z, String.length (pad_bytes n z) = n) as Hl.
  { induction n as [|n IH]; intros z'; cbn [pad_bytes String.length]; [done|]. by rewrite IH. }
  apply Hl.
Defined.

(** ** A codec: values as token lists, token lists as strings *)

Fixpoint ser_token (t : string) (rest : string) : string :=
  match t with
  | EmptyString => String "0" rest
  | String c t' => String "1" (String c (ser_token t' rest))
  end.

Fixpoint ser (ts : list string) : string :=
  match ts with
  | [] => EmptyString
  | t :: ts' => ser_token t (ser ts')
  end.

Fixpoint deser (s : string) : option (list string) :=
  match s with
  | EmptyString => Some []
  | String tag s1 =>
      if Ascii.eqb tag "0" then cons EmptyString <$> deser s1
      else match s1 with
           | String c s2 => match deser s2 with
                            | Some (t :: ts) => Some (String c t :: ts)
                            | _ => None
                            end
           | EmptyString => None
           end
  end.

Lemma deser_token t rest ts : deser rest = Some ts -> deser (ser_token t rest) = Some (t :: ts).
Proof.
  intros Hr. induction t as [|c t IH]; cbn [ser_token deser].
  - rewrite Ascii.eqb_refl. by rewrite Hr.
  - change (Ascii.eqb "1" "0") with false. cbn match. by rewrite IH.
Qed.

Lemma deser_ser ts : deser (ser ts) = Some ts.
Proof. induction ts as [|t ts IH]; [done|]. cbn [ser]. by apply deser_token. Qed.

Class Codec (A : Type) := {
  tokens : A -> list string;
  parse_tokens : list string -> option (A * list string);
  parse_tokens_ok : forall a rest, parse_tokens (tokens a ++ rest) = Some (a, rest);
}.

Definition json_of_codec (A : Type) `{Codec A} : Json A.
Proof.
  refine {| to_json a := ser (tokens a);
            from_json s := match deser s ≫= parse_tokens with
                           | Some (a, []) => Some a
                           | _ => None
                           end |}.
  intros a. rewrite deser_ser. cbn. rewrite <- (app_nil_r (tokens a)). by rewrite parse_tokens_ok.
Defined.

#[refine] Definition codec_iso {A B} `{Codec B} (f : A -> B) (g : B -> A)
    (gf : forall a, g (f a) = a) : Codec A :=
  {| tokens a := tokens (f a);
     parse_tokens ts := match parse_tokens ts with Some (b, rest) => Some (g b, rest) | None => None end |}.
Proof. intros a rest. by rewrite parse_tokens_ok, gf. Defined.

#[export] #[refine] Instance codec_string : Codec string :=
  {| tokens s := [s]; parse_tokens ts := match ts with t :: rest => Some (t, rest) | [] => None end |}.
Proof. done. Defined.

#[export] #[refine] Instance codec_prod {A B} `{Codec A, Codec B} : Codec (A * B) :=
  {| tokens p := tokens p.1 ++ tokens p.2;
     parse_tokens ts := match parse_tokens ts with
                        | Some (a, ts') => match parse_tokens ts' with
                                           | Some (b, rest) => Some ((a, b), rest)
                                           | None => None
                                           end
                        | None => None
                        end |}.
Proof. intros [a b] rest. simpl. rewrite <- app_assoc. by rewrite !parse_tokens_ok. Defined.

(** Binary digits, least significant first. *)
Fixpoint pos_to_string (p : positive) : string :=
  match p with
  | xH => EmptyString
  | xO p => String "0" (pos_to_string p)
  | xI p => String "1" (pos_to_string p)
  end.

Fixpoint pos_of_string (s : string) : positive :=
  match s with
  | EmptyString => xH
  | String c s' => if Ascii.eqb c "0" then xO (pos_of_string s') else xI (pos_of_string s')
  end.

Lemma pos_of_to_string p : pos_of_string (pos_to_string p) = p.
Proof. induction p as [p IH|p IH|]; cbn [pos_to_string pos_of_string]; [| |done]; by rewrite IH. Qed.

Definition z_to_string (z : Z) : string :=
  match z with Z0 => "z" | Zpos p => "p" +:+ pos_to_string p | Zneg p => "n" +:+ pos_to_string p end.

Definition z_of_string (s : string) : Z :=
  match s with
  | String c s' => if Ascii.eqb c "p" then Zpos (pos_of_string s')
                   else if Ascii.eqb c "n" then Zneg (pos_of_string s') else 0
  | EmptyString => 0
  end.

#[export] Instance codec_Z : Codec Z.
Proof.
  refine (codec_iso z_to_string z_of_string _).
  intros [|p|p]; [done| |]; cbn -[pos_to_string pos_of_string];
    [change (Z.pos (pos_of_string (pos_to_string p)) = Z.pos p) |
     change (Z.neg (pos_of_string (pos_to_string p)) = Z.neg p)]; by rewrite pos_of_to_string.
Defined.

#[export] Instance codec_bool : Codec bool.
Proof. refine (codec_iso (fun b : bool => if b then 1 else 0) (fun z => z =? 1) _). by intros []. Defined.

#[export] #[refine] Instance codec_option {A} `{Codec A} : Codec (option A) :=
  {| tokens o := match o with None => [""%string] | Some a => "s"%string :: tokens a end;
     parse_tokens ts := match ts with
                        | EmptyString :: rest => Some (None, rest)
                        | _ :: ts' => match parse_tokens ts' with
                                      | Some (a, rest) => Some (Some a, rest)
                                      | None => None
                                      end
                        | [] => None
                        end |}.
Proof. intros [a|] rest; [|done]. simpl. by rewrite parse_tokens_ok. Defined.

Fixpoint parse_many {A} `{Codec A} (n : nat) (ts : list string) : option (list A * list string) :=
  match n with
  | O => Some ([], ts)
  | S n' => match parse_tokens ts with
            | Some (a, ts') => match parse_many n' ts' with
                               | Some (l, rest) => Some (a :: l, rest)
                               | None => None
                               end
            | None => None
            end
  end.

#[export] #[refine] Instance codec_list {A} `{Codec A} : Codec (list A) :=
  {| tokens l := z_to_string (Z.of_nat (length l)) :: concat (map tokens l);
     parse_tokens ts := match ts with
                        | t :: ts' => parse_many (Z.to_nat (z_of_string t)) ts'
                        | [] => None
                        end |}.
Proof.
  intros l rest. cbn [app].
  assert (z_of_string (z_to_string (Z.of_nat (length l))) = Z.of_nat (length l)) as ->.
  { pose proof (parse_tokens_ok (Z.of_nat (length l)) []) as Hz. cbn in Hz. congruence. }
  rewrite Nat2Z.id. induction l as [|a l IH]; [done|]. simpl.
  rewrite <- app_assoc, parse_tokens_ok. simpl in IH. by rewrite IH.
Defined.

(** ** The types of the ledger *)

(** An enumeration is coded by its position in the list of its values. *)
Definition codec_enum {A} `{EqDecision A} (all : list A) (d : A)
    (Hall : forall a, default d (all !! Z.to_nat (Z.of_nat (default 0%nat (fst <$> list_find (fun x => a = x) all)))) = a)
    : Codec A :=
  codec_iso (fun a => Z.of_nat (default 0%nat (fst <$> list_find (fun x => a = x) all)))
            (fun z => default d (all !! Z.to_nat z)) Hall.

#[export] Instance codec_Role : Codec Role.
Proof. refine (codec_enum [Admin; Operator; Viewer] Admin _). by intros []. Defined.
#[export] Instance codec_AssuranceLevel : Codec AssuranceLevel.
Proof. refine (codec_enum [G0ObserveOnly; G1VerifiedAction; G2ReversibleConfig; G3RestoreValidatedData] G0ObserveOnly _). by intros []. Defined.
#[export] Instance codec_RollbackSupport : Codec RollbackSupport.
Proof. refine (codec_enum [NotApplicable; NotGuaranteed; AutomaticBounded; RestoreValidated] NotApplicable _). by intros []. Defined.
#[export] Instance codec_NginxSiteState : Codec NginxSiteState.
Proof. refine (codec_enum [Enabled; Disabled] Enabled _). by intros []. Defined.
#[export] Instance codec_ServiceAction : Codec ServiceAction.
Proof. refine (codec_enum [ValidateOnly; SReload; SRestart] ValidateOnly _). by intros []. Defined.
#[export] Instance codec_CertificateEnvironment : Codec CertificateEnvironment.
Proof. refine (codec_enum [Staging; Production] Staging _). by intros []. Defined.
#[export] Instance codec_UfwRuleMutation : Codec UfwRuleMutation.
Proof. refine (codec_enum [UAllow; UDeny; UDelete] UAllow _). by intros []. Defined.
#[export] Instance codec_UfwProtocol : Codec UfwProtocol.
Proof. refine (codec_enum [Tcp; Udp] Tcp _). by intros []. Defined.
#[export] Instance codec_ManagedConfigDiagnosticSeverity : Codec ManagedConfigDiagnosticSeverity.
Proof. refine (codec_enum [SevError; SevWarning] SevError _). by intros []. Defined.
#[export] Instance codec_CertbotCommandClass : Codec CertbotCommandClass.
Proof. refine (codec_enum [IssueStaging; IssueProduction; RenewDryRunClass; VerifyLocalTlsClass] IssueStaging _). by intros []. Defined.

#[export] Instance codec_AssuranceView : Codec AssuranceView.
Proof.
  refine (codec_iso (fun r => (level r, rollback_support r, operation_available r, scope r, excluded_effects r, apply_verifier r, rollback_verifier r, reason r))
    (fun '(x0, x1, x2, x3, x4, x5, x6, x7) => {| level := x0; rollback_support := x1; operation_available := x2; scope := x3; excluded_effects := x4; apply_verifier := x5; rollback_verifier := x6; reason := x7 |}) _).
  by intros [].
Defined.

#[export] Instance codec_OperationCommandEvidenceView : Codec OperationCommandEvidenceView.
Proof.
  refine (codec_iso (fun r => (ev_class r, ev_success r, ev_exit_code r, ev_timed_out r, ev_stdout_digest r, ev_stdout_truncated r, ev_stderr_digest r, ev_stderr_truncated r))
    (fun '(x0, x1, x2, x3, x4, x5, x6, x7) => {| ev_class := x0; ev_success := x1; ev_exit_code := x2; ev_timed_out := x3; ev_stdout_digest := x4; ev_stdout_truncated := x5; ev_stderr_digest := x6; ev_stderr_truncated := x7 |}) _).
  by intros [].
Defined.

#[export] Instance codec_ManagedConfigDiagnosticView : Codec ManagedConfigDiagnosticView.
Proof.
  refine (codec_iso (fun r => (dg_service r, dg_validator r, dg_resource_id r, dg_masked_path r, dg_line r, dg_column r, dg_severity r, dg_code r, dg_message r, dg_related_changed_lines r, dg_cause_candidate_lines r))
    (fun '(x0, x1, x2, x3, x4, x5, x6, x7, x8, x9, x10) => {| dg_service := x0; dg_validator := x1; dg_resource_id := x2; dg_masked_path := x3; dg_line := x4; dg_column := x5; dg_severity := x6; dg_code := x7; dg_message := x8; dg_related_changed_lines := x9; dg_cause_candidate_lines := x10 |}) _).
  by intros [].
Defined.

#[export] Instance codec_ManagedConfigPlanPayload : Codec ManagedConfigPlanPayload.
Proof.
  refine (codec_iso (fun r => (mp_proposal_relative_path r, mp_proposal_digest r, mp_basename r, mp_proposed_content_digest r, mp_current_bytes r, mp_proposed_bytes r, mp_added_lines r, mp_removed_lines r, mp_diff_summary r, mp_service_action r))
    (fun '(x0, x1, x2, x3, x4, x5, x6, x7, x8, x9) => {| mp_proposal_relative_path := x0; mp_proposal_digest := x1; mp_basename := x2; mp_proposed_content_digest := x3; mp_current_bytes := x4; mp_proposed_bytes := x5; mp_added_lines := x6; mp_removed_lines := x7; mp_diff_summary := x8; mp_service_action := x9 |}) _).
  by intros [].
Defined.

#[export] Instance codec_CertbotRenewPlanPayload : Codec CertbotRenewPlanPayload.
Proof.
  refine (codec_iso (fun r => (rp_inventory_digest r, rp_timer_enabled r, rp_timer_active r, rp_certificate_count r))
    (fun '(x0, x1, x2, x3) => {| rp_inventory_digest := x0; rp_timer_enabled := x1; rp_timer_active := x2; rp_certificate_count := x3 |}) _).
  by intros [].
Defined.

#[export] Instance codec_CertbotIssuePlanPayload : Codec CertbotIssuePlanPayload.
Proof.
  refine (codec_iso (fun r => (ip_primary_domain r, ip_domains r, ip_account_email_proposal_relative_path r, ip_account_email_proposal_digest r, ip_masked_account_email r, ip_environment r, ip_site_id r, ip_site_digest r, ip_inventory_digest r, ip_preflight_observed_at_ms r, ip_resolved_addresses r, ip_local_port_80_reachable r, ip_local_port_443_reachable r, ip_staging_evidence_valid r, ip_staging_evidence_key r))
    (fun '(x0, x1, x2, x3, x4, x5, x6, x7, x8, x9, x10, x11, x12, x13, x14) => {| ip_primary_domain := x0; ip_domains := x1; ip_account_email_proposal_relative_path := x2; ip_account_email_proposal_digest := x3; ip_masked_account_email := x4; ip_environment := x5; ip_site_id := x6; ip_site_digest := x7; ip_inventory_digest := x8; ip_preflight_observed_at_ms := x9; ip_resolved_addresses := x10; ip_local_port_80_reachable := x11; ip_local_port_443_reachable := x12; ip_staging_evidence_valid := x13; ip_staging_evidence_key := x14 |}) _).
  by intros [].
Defined.

#[export] Instance codec_CertbotAttachPlanPayload : Codec CertbotAttachPlanPayload.
Proof.
  refine (codec_iso (fun r => (ap_primary_domain r, ap_site_id r, ap_site_digest r, ap_metadata_digest r, ap_inventory_digest r, ap_certificate_fingerprint r, ap_sans r, ap_not_after r, ap_current_certificate_path r, ap_target_certificate_path r, ap_proposed_content_digest r, ap_timer_enabled r, ap_timer_active r))
    (fun '(x0, x1, x2, x3, x4, x5, x6, x7, x8, x9, x10, x11, x12) => {| ap_primary_domain := x0; ap_site_id := x1; ap_site_digest := x2; ap_metadata_digest := x3; ap_inventory_digest := x4; ap_certificate_fingerprint := x5; ap_sans := x6; ap_not_after := x7; ap_current_certificate_path := x8; ap_target_certificate_path := x9; ap_proposed_content_digest := x10; ap_timer_enabled := x11; ap_timer_active := x12 |}) _).
  by intros [].
Defined.

#[export] Instance codec_UfwRuleSpec : Codec UfwRuleSpec.
Proof.
  refine (codec_iso (fun r => (us_mutation r, us_protocol r, us_port r, us_source r, us_rule_id r))
    (fun '(x0, x1, x2, x3, x4) => {| us_mutation := x0; us_protocol := x1; us_port := x2; us_source := x3; us_rule_id := x4 |}) _).
  by intros [].
Defined.

#[export] Instance codec_UfwPlanPayload : Codec UfwPlanPayload.
Proof.
  refine (codec_iso (fun r => (up_requested_mutation r, up_rule r, up_delete_sequences r))
    (fun '(x0, x1, x2) => {| up_requested_mutation := x0; up_rule := x1; up_delete_sequences := x2 |}) _).
  by intros [].
Defined.

#[export] Instance codec_CanonicalEvent : Codec CanonicalEvent.
Proof.
  refine (codec_iso (fun r => (ce_schema_version r, ce_sequence r, ce_previous_digest r, ce_operation_id r, ce_plan_id r, ce_stage r, ce_result_code r, ce_recorded_at_ms r, ce_evidence_digest r))
    (fun '(x0, x1, x2, x3, x4, x5, x6, x7, x8) => {| ce_schema_version := x0; ce_sequence := x1; ce_previous_digest := x2; ce_operation_id := x3; ce_plan_id := x4; ce_stage := x5; ce_result_code := x6; ce_recorded_at_ms := x7; ce_evidence_digest := x8 |}) _).
  by intros [].
Defined.

#[export] Instance codec_Checkpoint : Codec Checkpoint.
Proof.
  refine (codec_iso (fun r => (cp_schema_version r, cp_sequence r, cp_event_digest r))
    (fun '(x0, x1, x2) => {| cp_schema_version := x0; cp_sequence := x1; cp_event_digest := x2 |}) _).
  by intros [].
Defined.

#[export] Instance codec_DiagnosticEvidence : Codec DiagnosticEvidence.
Proof.
  refine (codec_iso (fun r => (de_schema_version r, de_validator_evidence_digest r, de_diagnostics_digest r))
    (fun '(x0, x1, x2) => {| de_schema_version := x0; de_validator_evidence_digest := x1; de_diagnostics_digest := x2 |}) _).
  by intros [].
Defined.

#[export] Instance codec_CertbotCommandEvidence : Codec CertbotCommandEvidence.
Proof.
  refine (codec_iso (fun r => (cb_command_class r, cb_success r, cb_exit_code r, cb_timed_out r, cb_stdout_digest r, cb_stdout_truncated r, cb_stderr_digest r, cb_stderr_truncated r))
    (fun '(x0, x1, x2, x3, x4, x5, x6, x7) => {| cb_command_class := x0; cb_success := x1; cb_exit_code := x2; cb_timed_out := x3; cb_stdout_digest := x4; cb_stdout_truncated := x5; cb_stderr_digest := x6; cb_stderr_truncated := x7 |}) _).
  by intros [].
Defined.

(** ** The whole parameter *)

Definition reference : Externals :=
  {| ext_sha := sha256_checksum;
     ext_role := json_of_codec Role;
     ext_site_state := json_of_codec NginxSiteState;
     ext_assurance := json_of_codec AssuranceView;
     ext_managed := json_of_codec (option ManagedConfigPlanPayload);
     ext_renew := json_of_codec (option CertbotRenewPlanPayload);
     ext_issue := json_of_codec (option CertbotIssuePlanPayload);
     ext_attach := json_of_codec (option CertbotAttachPlanPayload);
     ext_ufw := json_of_codec (option UfwPlanPayload);
     ext_command := json_of_codec OperationCommandEvidenceView;
     ext_diagnostics := json_of_codec (list ManagedConfigDiagnosticView);
     ext_event := json_of_codec CanonicalEvent;
     ext_checkpoint := json_of_codec Checkpoint;
     ext_diagnostic_evidence := json_of_codec DiagnosticEvidence;
     ext_certbot_evidence := json_of_codec CertbotCommandEvidence;
     ext_strings := json_of_codec (list string);
     rfc3339 := fun z => if (0 <=? z) && (z <? 253402300800000) then Some (z_to_string z) else None;
     base64url := hex_of_bytes |}.
