(* ===== verification/Ledger.v ===== *)
(** * jw-opsd: the durable operation ledger (ledger.rs)

    The SQLite tables are finite maps keyed by primary key ([ledger_events] is
    the list of its rows in primary-key order); a transaction is a function on
    the tables whose [Err] leaves them unchanged; primary-key and [UNIQUE]
    constraints are checked where a row is inserted.  [Store] adds what lives
    outside the tables: file metadata, the checkpoint file and the schema
    version. *)

From Stdlib Require Import Ascii String.
From S2P Require Import Prelude Crypto Contracts Plans Adapters.

Definition GENESIS_DIGEST : string :=
  "sha256:0000000000000000000000000000000000000000000000000000000000000000".
Definition CHECKPOINT_PENDING_KEY : string := "checkpoint_required_sequence".

(** ** Tables *)

Record PlanRow := {
  pr_operation_type : string;
  pr_plan_id : string;
  pr_plan_hash : string;
  pr_actor_uid : Z;
  pr_actor_username : string;
  pr_actor_role : string;
  pr_site_id : string;
  pr_display_name : string;
  pr_current_state : string;
  pr_target_state : string;
  pr_available_digest : string;
  pr_enabled_state_digest : string;
  pr_created_at_ms : Z;
  pr_expires_at_ms : Z;
  pr_idempotency_key : string;
  pr_request_digest : string;
  pr_resource_key : string;
  pr_assurance_json : string;
  pr_payload_json : string;
  pr_certificate_payload_json : string;
  pr_certificate_issue_payload_json : string;
  pr_certificate_attach_payload_json : string;
  pr_ufw_rule_payload_json : string;
}.

Record OpRow := {
  or_plan_id : string;
  or_stage : string;
  or_before_digest : string;
  or_after_digest : string;
  or_rollback_result : option string;
  or_snapshot_relative_path : option string;
  or_snapshot_digest : option string;
  or_created_at_ms : Z;
  or_updated_at_ms : Z;
}.

Record IdemRow := {
  ir_request_digest : string;
  ir_plan_id : string;
  ir_operation_id : option string;
}.

Record LockRow := { lr_operation_id : string; lr_acquired_at_ms : Z }.

Record EventRow := {
  le_sequence : Z;
  le_operation_id : string;
  le_plan_id : string;
  le_stage : string;
  le_result_code : string;
  le_recorded_at_ms : Z;
  le_evidence_digest : string;
  le_previous_digest : string;
  le_event_digest : string;
}.

Record DiagRow := {
  dr_diagnostics_json : string;
  dr_diagnostics_digest : string;
  dr_validator_evidence_digest : string;
}.

Record Db := {
  metadata : gmap string Z;
  plans : gmap string PlanRow;
  operations : gmap string OpRow;
  idempotency : gmap string IdemRow;
  resource_locks : gmap string LockRow;
  ledger_events : list EventRow;
  command_evidence : gmap Z string;
  managed_config_diagnostics : gmap Z DiagRow;
}.

Definition empty_db : Db :=
  {| metadata := ∅; plans := ∅; operations := ∅; idempotency := ∅; resource_locks := ∅;
     ledger_events := []; command_evidence := ∅; managed_config_diagnostics := ∅ |}.

Definition set_metadata (f : gmap string Z -> gmap string Z) (d : Db) : Db :=
  {| metadata := f (metadata d); plans := plans d; operations := operations d;
     idempotency := idempotency d; resource_locks := resource_locks d;
     ledger_events := ledger_events d; command_evidence := command_evidence d;
     managed_config_diagnostics := managed_config_diagnostics d |}.
Definition set_plans (f : gmap string PlanRow -> gmap string PlanRow) (d : Db) : Db :=
  {| metadata := metadata d; plans := f (plans d); operations := operations d;
     idempotency := idempotency d; resource_locks := resource_locks d;
     ledger_events := ledger_events d; command_evidence := command_evidence d;
     managed_config_diagnostics := managed_config_diagnostics d |}.
Definition set_operations (f : gmap string OpRow -> gmap string OpRow) (d : Db) : Db :=
  {| metadata := metadata d; plans := plans d; operations := f (operations d);
     idempotency := idempotency d; resource_locks := resource_locks d;
     ledger_events := ledger_events d; command_evidence := command_evidence d;
     managed_config_diagnostics := managed_config_diagnostics d |}.
Definition set_idempotency (f : gmap string IdemRow -> gmap string IdemRow) (d : Db) : Db :=
  {| metadata := metadata d; plans := plans d; operations := operations d;
     idempotency := f (idempotency d); resource_locks := resource_locks d;
     ledger_events := ledger_events d; command_evidence := command_evidence d;
     managed_config_diagnostics := managed_config_diagnostics d |}.
Definition set_locks (f : gmap string LockRow -> gmap string LockRow) (d : Db) : Db :=
  {| metadata := metadata d; plans := plans d; operations := operations d;
     idempotency := idempotency d; resource_locks := f (resource_locks d);
     ledger_events := ledger_events d; command_evidence := command_evidence d;
     managed_config_diagnostics := managed_config_diagnostics d |}.
Definition set_events (f : list EventRow -> list EventRow) (d : Db) : Db :=
  {| metadata := metadata d; plans := plans d; operations := operations d;
     idempotency := idempotency d; resource_locks := resource_locks d;
     ledger_events := f (ledger_events d); command_evidence := command_evidence d;
     managed_config_diagnostics := managed_config_diagnostics d |}.
Definition set_commands (f : gmap Z string -> gmap Z string) (d : Db) : Db :=
  {| metadata := metadata d; plans := plans d; operations := operations d;
     idempotency := idempotency d; resource_locks := resource_locks d;
     ledger_events := ledger_events d; command_evidence := f (command_evidence d);
     managed_config_diagnostics := managed_config_diagnostics d |}.
Definition set_diagnostics (f : gmap Z DiagRow -> gmap Z DiagRow) (d : Db) : Db :=
  {| metadata := metadata d; plans := plans d; operations := operations d;
     idempotency := idempotency d; resource_locks := resource_locks d;
     ledger_events := ledger_events d; command_evidence := command_evidence d;
     managed_config_diagnostics := f (managed_config_diagnostics d) |}.

(** [INSERT INTO t (pk, ...)]: a duplicate primary key is a constraint error. *)
Definition insert_row {K V} `{Countable K} (k : K) (v : V) (m : gmap K V) : option (gmap K V) :=
  match m !! k with Some _ => None | None => Some (<[k := v]> m) end.

(** Number of rows of a finite map that satisfy a column test. *)
Definition exists_row {K V} `{Countable K} (p : V -> bool) (m : gmap K V) : bool :=
  existsb (fun kv => p kv.2) (map_to_list m).

(** ** Stages as stored *)

Definition parse_stage (value : string) : oresult OperationStage :=
  if bool_decide (value = "PLANNED") then Ok Planned
  else if bool_decide (value = "APPROVED") then Ok Approved
  else if bool_decide (value = "SNAPSHOTTED") then Ok Snapshotted
  else if bool_decide (value = "APPLYING") then Ok Applying
  else if bool_decide (value = "VALIDATING") then Ok Validating
  else if bool_decide (value = "RELOADING") then Ok Reloading
  else if bool_decide (value = "VERIFYING") then Ok Verifying
  else if bool_decide (value = "ROLLING_BACK") then Ok RollingBack
  else if bool_decide (value = "SUCCEEDED") then Ok Succeeded
  else if bool_decide (value = "ROLLED_BACK") then Ok RolledBack
  else if bool_decide (value = "RECOVERY_REQUIRED") then Ok RecoveryRequired
  else if bool_decide (value = "REJECTED") then Ok Rejected
  else if bool_decide (value = "EXPIRED") then Ok Expired
  else if bool_decide (value = "CANCELLED_BEFORE_APPLY") then Ok CancelledBeforeApply
  else Err EForensicLockdown.

(** The literal list of the [stage NOT IN (...)] and [stage IN (...)] clauses. *)
Definition terminal_stage_values : list string :=
  ["SUCCEEDED"; "ROLLED_BACK"; "RECOVERY_REQUIRED"; "REJECTED"; "EXPIRED"; "CANCELLED_BEFORE_APPLY"].

Definition terminal_value (s : string) : bool := bool_decide (s ∈ terminal_stage_values).

Section Ledger.
Context `{Externals}.

(** ** Plans: rows and values *)

Definition plan_row (plan : StoredPlan) : PlanRow :=
  {| pr_operation_type := p_operation_type plan;
     pr_plan_id := p_plan_id plan;
     pr_plan_hash := p_plan_hash plan;
     pr_actor_uid := uid (p_actor plan);
     pr_actor_username := username (p_actor plan);
     pr_actor_role := to_json (role (p_actor plan));
     pr_site_id := p_site_id plan;
     pr_display_name := p_display_name plan;
     pr_current_state := to_json (p_current_state plan);
     pr_target_state := to_json (p_target_state plan);
     pr_available_digest := p_available_digest plan;
     pr_enabled_state_digest := p_enabled_state_digest plan;
     pr_created_at_ms := p_created_at_ms plan;
     pr_expires_at_ms := p_expires_at_ms plan;
     pr_idempotency_key := p_idempotency_key plan;
     pr_request_digest := p_request_digest plan;
     pr_resource_key := p_resource_key plan;
     pr_assurance_json := to_json (p_assurance plan);
     pr_payload_json := to_json (p_managed_config plan);
     pr_certificate_payload_json := to_json (p_certbot_renew plan);
     pr_certificate_issue_payload_json := to_json (p_certbot_issue plan);
     pr_certificate_attach_payload_json := to_json (p_certbot_attach plan);
     pr_ufw_rule_payload_json := to_json (p_ufw_rule plan) |}.

(** [u32::try_from(i64)]. *)
Definition u32_try_from (z : Z) : option Z :=
  if (0 <=? z) && (z <=? u32_max) then Some z else None.

Definition parse_plan_row (row : PlanRow) : oresult StoredPlan :=
  let? uid := ok_or (u32_try_from (pr_actor_uid row)) EForensicLockdown in
  let? role := ok_or (from_json (pr_actor_role row)) EForensicLockdown in
  let? current_state := ok_or (from_json (pr_current_state row)) EForensicLockdown in
  let? target_state := ok_or (from_json (pr_target_state row)) EForensicLockdown in
  let? assurance := ok_or (from_json (pr_assurance_json row)) EForensicLockdown in
  let? managed_config := ok_or (from_json (pr_payload_json row)) EForensicLockdown in
  let? certbot_renew := ok_or (from_json (pr_certificate_payload_json row)) EForensicLockdown in
  let? certbot_issue := ok_or (from_json (pr_certificate_issue_payload_json row)) EForensicLockdown in
  let? certbot_attach := ok_or (from_json (pr_certificate_attach_payload_json row)) EForensicLockdown in
  let? ufw_rule := ok_or (from_json (pr_ufw_rule_payload_json row)) EForensicLockdown in
  Ok {| p_operation_type := pr_operation_type row;
        p_plan_id := pr_plan_id row;
        p_plan_hash := pr_plan_hash row;
        p_actor := {| uid := uid; username := pr_actor_username row; role := role |};
        p_site_id := pr_site_id row;
        p_display_name := pr_display_name row;
        p_current_state := current_state;
        p_target_state := target_state;
        p_available_digest := pr_available_digest row;
        p_enabled_state_digest := pr_enabled_state_digest row;
        p_created_at_ms := pr_created_at_ms row;
        p_expires_at_ms := pr_expires_at_ms row;
        p_idempotency_key := pr_idempotency_key row;
        p_request_digest := pr_request_digest row;
        p_resource_key := pr_resource_key row;
        p_assurance := assurance;
        p_managed_config := managed_config;
        p_certbot_renew := certbot_renew;
        p_certbot_issue := certbot_issue;
        p_certbot_attach := certbot_attach;
        p_ufw_rule := ufw_rule |}.

Definition load_plan_from (db : Db) (plan_id : string) : oresult StoredPlan :=
  match plans db !! plan_id with
  | None => Err (ERejected "plan_missing")
  | Some row => parse_plan_row row
  end.

Definition load_operation_from (db : Db) (operation_id : string) : oresult StoredOperation :=
  match operations db !! operation_id with
  | None => Err (ERejected "operation_missing")
  | Some row =>
      let? snapshot :=
        match or_snapshot_relative_path row, or_snapshot_digest row with
        | Some path, Some digest =>
            (Ok (Some {| sn_relative_path := path; sn_digest := digest |})
              : oresult (option SnapshotRecord))
        | None, None => Ok None
        | _, _ => Err EForensicLockdown
        end in
      let? plan := load_plan_from db (or_plan_id row) in
      let? stage := parse_stage (or_stage row) in
      Ok {| o_operation_id := operation_id;
            o_plan := plan;
            o_stage := stage;
            o_before_digest := or_before_digest row;
            o_after_digest := or_after_digest row;
            o_rollback_result := or_rollback_result row;
            o_snapshot := snapshot |}
  end.

(** ** The hash-chained event log *)

Record EventInput := {
  ei_operation_id : string;
  ei_plan_id : string;
  ei_stage : OperationStage;
  ei_result_code : string;
  ei_recorded_at_ms : Z;
  ei_evidence_digest : string;
}.

Definition canonical_of (sequence : Z) (previous operation_id plan_id stage result_code : string)
    (recorded_at_ms : Z) (evidence_digest : string) : CanonicalEvent :=
  {| ce_schema_version := 1; ce_sequence := sequence; ce_previous_digest := previous;
     ce_operation_id := operation_id; ce_plan_id := plan_id; ce_stage := stage;
     ce_result_code := result_code; ce_recorded_at_ms := recorded_at_ms;
     ce_evidence_digest := evidence_digest |}.

Definition event_head (events : list EventRow) : Z * string :=
  match last events with
  | Some e => (le_sequence e, le_event_digest e)
  | None => (0, GENESIS_DIGEST)
  end.

(** [INSERT INTO ledger_events]: primary key [sequence], unique [event_digest]. *)
Definition insert_event (row : EventRow) (events : list EventRow) : option (list EventRow) :=
  if existsb (fun e => (le_sequence e =? le_sequence row)
                       || bool_decide (le_event_digest e = le_event_digest row)) events
  then None else Some (events ++ [row]).

Definition append_event (db : Db) (event : EventInput) : oresult (Z * Db) :=
  let '(last_sequence, previous_digest) := event_head (ledger_events db) in
  let sequence := sat_add last_sequence 1 in
  let stage_value := stage_storage_value (ei_stage event) in
  let canonical :=
    to_json (canonical_of sequence previous_digest (ei_operation_id event) (ei_plan_id event)
               stage_value (ei_result_code event) (ei_recorded_at_ms event)
               (ei_evidence_digest event)) in
  let? digest := ledger_event_digest previous_digest canonical in
  let row :=
    {| le_sequence := sequence; le_operation_id := ei_operation_id event;
       le_plan_id := ei_plan_id event; le_stage := stage_value;
       le_result_code := ei_result_code event; le_recorded_at_ms := ei_recorded_at_ms event;
       le_evidence_digest := ei_evidence_digest event; le_previous_digest := previous_digest;
       le_event_digest := digest |} in
  match insert_event row (ledger_events db) with
  | Some events => Ok (sequence, set_events (fun _ => events) db)
  | None => Err EStorage
  end.

Definition mark_checkpoint_if_needed (db : Db) (sequence : Z) (terminal : bool) : Db :=
  if terminal || (Z.rem sequence 128 =? 0)
  then set_metadata (insert CHECKPOINT_PENDING_KEY sequence) db
  else db.

Definition clear_completed_checkpoint (db : Db) (completed_sequence : Z) : Db :=
  match metadata db !! CHECKPOINT_PENDING_KEY with
  | Some v => if v =? completed_sequence then set_metadata (delete CHECKPOINT_PENDING_KEY) db else db
  | None => db
  end.

(** ** Transactions of the public interface

    Each function is the body of one immediate transaction: [Err] is a return
    before [commit], which rolls the tables back. *)

(** Column [UNIQUE] constraints of [plans]. *)
Definition plan_unique (db : Db) (row : PlanRow) : bool :=
  negb (exists_row (fun r => bool_decide (pr_plan_hash r = pr_plan_hash row)
                             || bool_decide (pr_idempotency_key r = pr_idempotency_key row))
          (plans db)).

(** The result says whether an existing plan was reused (nothing committed). *)
Definition create_or_reuse_plan_tx (plan : StoredPlan) (db : Db) : oresult ((StoredPlan * bool) * Db) :=
  match idempotency db !! p_idempotency_key plan with
  | Some existing =>
      if negb (bool_decide (ir_request_digest existing = p_request_digest plan))
      then Err (ERejected "idempotency_conflict")
      else let? stored := load_plan_from db (ir_plan_id existing) in
           Ok ((stored, true), db)
  | None =>
      let row := plan_row plan in
      check plan_unique db row else EStorage in
      let? plans' := ok_or (insert_row (p_plan_id plan) row (plans db)) EStorage in
      let db := set_plans (fun _ => plans') db in
      let? idem' := ok_or (insert_row (p_idempotency_key plan)
                             {| ir_request_digest := p_request_digest plan;
                                ir_plan_id := p_plan_id plan;
                                ir_operation_id := None |} (idempotency db)) EStorage in
      let db := set_idempotency (fun _ => idem') db in
      let? (sequence, db) := append_event db
             {| ei_operation_id := ""; ei_plan_id := p_plan_id plan; ei_stage := Planned;
                ei_result_code := "planned"; ei_recorded_at_ms := p_created_at_ms plan;
                ei_evidence_digest := p_plan_hash plan |} in
      Ok ((plan, false), mark_checkpoint_if_needed db sequence false)
  end.

(** [SELECT operation_id FROM operations WHERE plan_id = ?1]. *)
Definition operation_of_plan (db : Db) (plan_id : string) : option string :=
  match List.find (fun kv => bool_decide (or_plan_id kv.2 = plan_id)) (map_to_list (operations db)) with
  | Some (operation_id, _) => Some operation_id
  | None => None
  end.

Definition insert_lock (key operation_id : string) (now_ms : Z) (db : Db) : oresult Db :=
  let? locks := ok_or (insert_row key {| lr_operation_id := operation_id; lr_acquired_at_ms := now_ms |}
                         (resource_locks db)) (ERejected "resource_busy") in
  Ok (set_locks (fun _ => locks) db).

Definition needs_reload_lock (plan : StoredPlan) : bool :=
  negb (is_type plan CERTBOT_RENEW_TEST_OPERATION) && negb (is_type plan CERTBOT_ISSUE_OPERATION).

(** The result is the operation a previous approval created, if any. *)
Definition begin_operation_tx (operation_id plan_id plan_hash idempotency_key : string)
    (actor : Subject) (now_ms : Z) (db : Db) : oresult (option StoredOperation * Db) :=
  let? plan := load_plan_from db plan_id in
  if negb (bool_decide (p_plan_hash plan = plan_hash))
     || negb (bool_decide (p_idempotency_key plan = idempotency_key))
     || negb (bool_decide (p_actor plan = actor))
  then Err (ERejected "approval_mismatch")
  else if p_expires_at_ms plan <=? now_ms then Err (ERejected "plan_expired")
  else match operation_of_plan db plan_id with
  | Some existing_id =>
      let? operation := load_operation_from db existing_id in
      Ok (Some operation, db)
  | None =>
      let? ops := ok_or (insert_row operation_id
                    {| or_plan_id := plan_id;
                       or_stage := stage_storage_value Approved;
                       or_before_digest := plan_before_digest plan;
                       or_after_digest := plan_before_digest plan;
                       or_rollback_result := None;
                       or_snapshot_relative_path := None;
                       or_snapshot_digest := None;
                       or_created_at_ms := now_ms;
                       or_updated_at_ms := now_ms |} (operations db)) EStorage in
      let db := set_operations (fun _ => ops) db in
      let? db := insert_lock (p_resource_key plan) operation_id now_ms db in
      let? db := if needs_reload_lock plan
                 then insert_lock "nginx/reload" operation_id now_ms db
                 else Ok db in
      let db := set_idempotency (alter (fun r =>
                    {| ir_request_digest := ir_request_digest r; ir_plan_id := ir_plan_id r;
                       ir_operation_id := Some operation_id |}) idempotency_key) db in
      let? (sequence, db) := append_event db
             {| ei_operation_id := operation_id; ei_plan_id := plan_id; ei_stage := Approved;
                ei_result_code := "approved"; ei_recorded_at_ms := now_ms;
                ei_evidence_digest := plan_hash |} in
      Ok (None, mark_checkpoint_if_needed db sequence false)
  end.

Definition attach_snapshot_tx (operation_id : string) (snapshot : SnapshotRecord) (now_ms : Z)
    (db : Db) : oresult (unit * Db) :=
  match operations db !! operation_id with
  | None => Err EStorage
  | Some row =>
      check bool_decide (or_stage row = stage_storage_value Approved) else EStorage in
      let row' :=
        {| or_plan_id := or_plan_id row;
           or_stage := stage_storage_value Snapshotted;
           or_before_digest := or_before_digest row;
           or_after_digest := or_after_digest row;
           or_rollback_result := or_rollback_result row;
           or_snapshot_relative_path := Some (sn_relative_path snapshot);
           or_snapshot_digest := Some (sn_digest snapshot);
           or_created_at_ms := or_created_at_ms row;
           or_updated_at_ms := now_ms |} in
      let db := set_operations (insert operation_id row') db in
      let? operation := load_operation_from db operation_id in
      let? (sequence, db) := append_event db
             {| ei_operation_id := operation_id; ei_plan_id := p_plan_id (o_plan operation);
                ei_stage := Snapshotted; ei_result_code := "snapshot_durable";
                ei_recorded_at_ms := now_ms; ei_evidence_digest := sn_digest snapshot |} in
      Ok (tt, mark_checkpoint_if_needed db sequence false)
  end.

Record StoredDiagnostics := {
  sd_json : string;
  sd_digest : string;
  sd_validator_evidence_digest : string;
}.

Definition transition_tx (operation_id : string) (change : Transition)
    (diagnostics : option StoredDiagnostics) (command : option string) (db : Db)
    : oresult (unit * Db) :=
  let? current := load_operation_from db operation_id in
  if is_some diagnostics && negb (is_managed_config (o_plan current))
  then Err (ERejected "diagnostic_operation")
  else if negb (bool_decide (o_stage current ∈ t_expected change))
  then Err (ERejected "stage_conflict")
  else
    let after := default (o_after_digest current) (t_after_digest change) in
    let rollback := match t_rollback_result change with
                    | Some r => Some r
                    | None => o_rollback_result current
                    end in
    let db := set_operations (alter (fun row =>
         {| or_plan_id := or_plan_id row;
            or_stage := stage_storage_value (t_next change);
            or_before_digest := or_before_digest row;
            or_after_digest := after;
            or_rollback_result := rollback;
            or_snapshot_relative_path := or_snapshot_relative_path row;
            or_snapshot_digest := or_snapshot_digest row;
            or_created_at_ms := or_created_at_ms row;
            or_updated_at_ms := t_now_ms change |}) operation_id) db in
    let? (sequence, db) := append_event db
           {| ei_operation_id := operation_id; ei_plan_id := p_plan_id (o_plan current);
              ei_stage := t_next change; ei_result_code := t_result_code change;
              ei_recorded_at_ms := t_now_ms change;
              ei_evidence_digest := t_evidence_digest change |} in
    let? db := match diagnostics with
               | None => Ok db
               | Some value =>
                   let? rows := ok_or (insert_row sequence
                        {| dr_diagnostics_json := sd_json value;
                           dr_diagnostics_digest := sd_digest value;
                           dr_validator_evidence_digest := sd_validator_evidence_digest value |}
                        (managed_config_diagnostics db)) EStorage in
                   Ok (set_diagnostics (fun _ => rows) db)
               end in
    let? db := match command with
               | None => Ok db
               | Some json =>
                   let? rows := ok_or (insert_row sequence json (command_evidence db)) EStorage in
                   Ok (set_commands (fun _ => rows) db)
               end in
    let db := if is_terminal (t_next change)
              then set_locks (filter (fun kv => lr_operation_id kv.2 <> operation_id)) db
              else db in
    Ok (tt, mark_checkpoint_if_needed db sequence (is_terminal (t_next change))).

(** ** Evidence attached to events (ledger/command_evidence.rs, ledger/diagnostics.rs) *)

Definition prepare_command_evidence (command : OperationCommandEvidenceView) (expected_digest : string)
    : oresult string :=
  if is_err (command_validate_shape command)
     || negb (bool_decide (command_evidence_digest command = expected_digest))
  then Err (ERejected "invalid_command_evidence")
  else Ok (to_json command).

Definition load_command_evidence (command_json : option string) (event_evidence_digest : string)
    (validator_evidence_digest : option string) : oresult (option OperationCommandEvidenceView) :=
  match command_json with
  | None => Ok None
  | Some json =>
      let? command := ok_or (from_json json) EForensicLockdown in
      if is_err (command_validate_shape command) then Err EForensicLockdown
      else
        let expected := default event_evidence_digest validator_evidence_digest in
        if negb (bool_decide (command_evidence_digest command = expected))
        then Err EForensicLockdown
        else Ok (Some command)
  end.

Definition diagnostic_evidence_digest (validator_evidence_digest diagnostics_digest : string) : string :=
  canonical_digest "jw-agent/managed-config-diagnostic-evidence/v1"
    {| de_schema_version := 1; de_validator_evidence_digest := validator_evidence_digest;
       de_diagnostics_digest := diagnostics_digest |}.

Definition diagnostics_bounded (diagnostics : list ManagedConfigDiagnosticView) : bool :=
  negb (bool_decide (diagnostics = [])
        || (MANAGED_CONFIG_DIAGNOSTIC_MAX_ENTRIES <? Z.of_nat (length diagnostics))
        || existsb (fun d => is_err (diagnostic_validate_shape d)) diagnostics).

Definition prepare_diagnostics (validator_evidence_digest : string)
    (diagnostics : list ManagedConfigDiagnosticView) : oresult (StoredDiagnostics * string) :=
  if negb (diagnostics_bounded diagnostics) || is_err (validate_digest validator_evidence_digest)
  then Err (ERejected "invalid_diagnostic")
  else
    let json := to_json diagnostics in
    let digest := sha256_digest json in
    Ok ({| sd_json := json; sd_digest := digest;
           sd_validator_evidence_digest := validator_evidence_digest |},
        diagnostic_evidence_digest validator_evidence_digest digest).

Definition load_diagnostics (row : option DiagRow) (event_evidence_digest : string)
    : oresult (list ManagedConfigDiagnosticView) :=
  match row with
  | None => Ok []
  | Some r =>
      let json := dr_diagnostics_json r in
      let digest := dr_diagnostics_digest r in
      let validator_digest := dr_validator_evidence_digest r in
      if is_err (validate_digest digest) || is_err (validate_digest validator_digest)
         || negb (bool_decide (sha256_digest json = digest))
      then Err EForensicLockdown
      else
        let? diagnostics := ok_or (from_json json) EForensicLockdown in
        if negb (diagnostics_bounded diagnostics)
           || negb (bool_decide (diagnostic_evidence_digest validator_digest digest
                                 = event_evidence_digest))
        then Err EForensicLockdown
        else Ok diagnostics
  end.

(** The evidence joined to one event row ([LEFT JOIN] on [sequence]). *)
Definition load_event_evidence (db : Db) (e : EventRow)
    : oresult (option OperationCommandEvidenceView * list ManagedConfigDiagnosticView) :=
  let diag := managed_config_diagnostics db !! le_sequence e in
  let? command := load_command_evidence (command_evidence db !! le_sequence e)
                    (le_evidence_digest e) (dr_validator_evidence_digest <$> diag) in
  let? diagnostics := load_diagnostics diag (le_evidence_digest e) in
  Ok (command, diagnostics).

(** ** Continuity and checkpoints *)

Definition canonical_of_row (e : EventRow) (previous : string) : CanonicalEvent :=
  canonical_of (le_sequence e) previous (le_operation_id e) (le_plan_id e) (le_stage e)
    (le_result_code e) (le_recorded_at_ms e) (le_evidence_digest e).

(** The loop of [validate_continuity]; the result is the last sequence seen
    plus one, as the loop variable is. *)
Fixpoint continuity_loop (db : Db) (rows : list EventRow) (expected_sequence : Z) (previous : string)
    : oresult Z :=
  match rows with
  | [] => Ok expected_sequence
  | e :: rest =>
      if negb (le_sequence e =? expected_sequence)
         || negb (bool_decide (le_previous_digest e = previous))
      then Err EForensicLockdown
      else
        let canonical := to_json (canonical_of_row e previous) in
        let? expected_digest := ledger_event_digest previous canonical in
        if negb (bool_decide (le_event_digest e = expected_digest))
        then Err EForensicLockdown
        else
          let? _ := load_event_evidence db e in
          continuity_loop db rest (sat_add expected_sequence 1) (le_event_digest e)
  end.

(** ** Files *)

Record FileMeta := {
  fm_is_file : bool;
  fm_is_symlink : bool;
  fm_nlink : Z;
  fm_uid : Z;
}.

Definition validate_private_file (meta : option FileMeta) (enforce_root_ownership missing_allowed : bool)
    : oresult unit :=
  match meta with
  | None => if missing_allowed then Ok tt else Err EForensicLockdown
  | Some m =>
      if negb (fm_is_file m) || fm_is_symlink m then Err EForensicLockdown
      else if negb (fm_nlink m =? 1) || (enforce_root_ownership && negb (fm_uid m =? 0))
      then Err EForensicLockdown
      else Ok tt
  end.

(** [dm_resolves] is [Path::is_dir], which follows links; the other fields are
    those of [symlink_metadata]. *)
Record DirMeta := { dm_resolves : bool; dm_is_dir : bool; dm_is_symlink : bool; dm_uid : Z }.

(** Everything the ledger keeps on disk.  [st_io_ok] is the environment's
    answer to file creations, renames and permission changes; [st_integrity]
    the answer of [PRAGMA integrity_check]; [st_euid] the owner of the files
    the process creates.  [st_migrations] lists the migration batches whose
    DDL has been executed. *)
Record Store := {
  st_db : Db;
  st_user_version : Z;
  st_migrations : list Z;
  st_integrity : bool;
  st_io_ok : bool;
  st_euid : Z;
  st_enforce_root_ownership : bool;
  st_parent : option DirMeta;
  st_database_file : option FileMeta;
  st_sidecar_files : list (option FileMeta);
  st_checkpoint : option (FileMeta * string);
}.

Definition set_db (db : Db) (st : Store) : Store :=
  {| st_db := db; st_user_version := st_user_version st; st_migrations := st_migrations st;
     st_integrity := st_integrity st; st_io_ok := st_io_ok st; st_euid := st_euid st;
     st_enforce_root_ownership := st_enforce_root_ownership st; st_parent := st_parent st;
     st_database_file := st_database_file st; st_sidecar_files := st_sidecar_files st;
     st_checkpoint := st_checkpoint st |}.
Definition set_checkpoint (c : option (FileMeta * string)) (st : Store) : Store :=
  {| st_db := st_db st; st_user_version := st_user_version st; st_migrations := st_migrations st;
     st_integrity := st_integrity st; st_io_ok := st_io_ok st; st_euid := st_euid st;
     st_enforce_root_ownership := st_enforce_root_ownership st; st_parent := st_parent st;
     st_database_file := st_database_file st; st_sidecar_files := st_sidecar_files st;
     st_checkpoint := c |}.
Definition set_schema (version : Z) (migrations : list Z) (st : Store) : Store :=
  {| st_db := st_db st; st_user_version := version; st_migrations := migrations;
     st_integrity := st_integrity st; st_io_ok := st_io_ok st; st_euid := st_euid st;
     st_enforce_root_ownership := st_enforce_root_ownership st; st_parent := st_parent st;
     st_database_file := st_database_file st; st_sidecar_files := st_sidecar_files st;
     st_checkpoint := st_checkpoint st |}.
Definition set_files (parent : option DirMeta) (database : option FileMeta) (st : Store) : Store :=
  {| st_db := st_db st; st_user_version := st_user_version st; st_migrations := st_migrations st;
     st_integrity := st_integrity st; st_io_ok := st_io_ok st; st_euid := st_euid st;
     st_enforce_root_ownership := st_enforce_root_ownership st; st_parent := parent;
     st_database_file := database; st_sidecar_files := st_sidecar_files st;
     st_checkpoint := st_checkpoint st |}.

Definition set_io (b : bool) (st : Store) : Store :=
  {| st_db := st_db st; st_user_version := st_user_version st; st_migrations := st_migrations st;
     st_integrity := st_integrity st; st_io_ok := b; st_euid := st_euid st;
     st_enforce_root_ownership := st_enforce_root_ownership st; st_parent := st_parent st;
     st_database_file := st_database_file st; st_sidecar_files := st_sidecar_files st;
     st_checkpoint := st_checkpoint st |}.

Definition LM (A : Type) := M Store OpsError A.

(** Run a transaction body: commit on [Ok], roll back on [Err]. *)
Definition transact {A} (tx : Db -> oresult (A * Db)) : LM A := fun st =>
  match tx (st_db st) with
  | Ok (a, db) => (Ok a, set_db db st)
  | Err e => (Err e, st)
  end.

Definition read_db {A} (f : Db -> oresult A) : LM A := fun st => (f (st_db st), st).

(** A file created by the daemon with mode 0600. *)
Definition own_file (st : Store) : FileMeta :=
  {| fm_is_file := true; fm_is_symlink := false; fm_nlink := 1; fm_uid := st_euid st |}.

Definition write_checkpoint (checkpoint : Checkpoint) : LM unit := fun st =>
  match validate_private_file (fst <$> st_checkpoint st) false true with
  | Err e => (Err e, st)
  | Ok _ =>
      if st_io_ok st
      then (Ok tt, set_checkpoint (Some (own_file st, to_json checkpoint)) st)
      else (Err EStorage, st)
  end.

Definition complete_pending_checkpoint : LM unit := fun st =>
  match metadata (st_db st) !! CHECKPOINT_PENDING_KEY with
  | None => (Ok tt, st)
  | Some required_sequence =>
      match last (ledger_events (st_db st)) with
      | None => (Err EStorage, st)
      | Some e =>
          if le_sequence e <? required_sequence then (Err EForensicLockdown, st)
          else match write_checkpoint {| cp_schema_version := 1; cp_sequence := le_sequence e;
                                         cp_event_digest := le_event_digest e |} st with
               | (Err err, st') => (Err err, st')
               | (Ok _, st') =>
                   (Ok tt, set_db (clear_completed_checkpoint (st_db st') required_sequence) st')
               end
      end
  end.

(** [SELECT MAX(sequence) FROM ledger_events WHERE stage IN (...)]. *)
Definition terminal_sequence (events : list EventRow) : option Z :=
  fold_left (fun acc e => if terminal_value (le_stage e)
                          then Some (match acc with
                                     | Some m => Z.max m (le_sequence e)
                                     | None => le_sequence e
                                     end)
                          else acc) events None.

Definition digest_at (events : list EventRow) (sequence : Z) : option string :=
  le_event_digest <$> List.find (fun e => le_sequence e =? sequence) events.

Definition checkpoint_required (events : list EventRow) (latest_sequence : Z) : Z :=
  let periodic_sequence := sat_sub latest_sequence (latest_sequence mod 128) in
  Z.max (default 0 (terminal_sequence events)) periodic_sequence.

Definition validate_checkpoint (latest_sequence : Z) (st : Store) : oresult unit :=
  let db := st_db st in
  let? _ := validate_private_file (fst <$> st_checkpoint st) (st_enforce_root_ownership st) true in
  let required_sequence := checkpoint_required (ledger_events db) latest_sequence in
  let pending_sequence := metadata db !! CHECKPOINT_PENDING_KEY in
  if is_some_and pending_sequence (fun s => (s <=? 0) || (latest_sequence <? s))
  then Err EForensicLockdown
  else match st_checkpoint st with
  | None =>
      if (required_sequence =? 0)
         || is_some_and pending_sequence (fun s => required_sequence <=? s)
      then Ok tt else Err EForensicLockdown
  | Some (_, bytes) =>
      let? checkpoint := ok_or (from_json bytes) EForensicLockdown in
      if negb (cp_schema_version checkpoint =? 1)
         || (latest_sequence <? cp_sequence checkpoint)
         || ((cp_sequence checkpoint <? required_sequence)
             && is_none_or pending_sequence (fun s => s <? required_sequence))
      then Err EForensicLockdown
      else if bool_decide (digest_at (ledger_events db) (cp_sequence checkpoint)
                           = Some (cp_event_digest checkpoint))
      then Ok tt else Err EForensicLockdown
  end.

Definition validate_continuity (st : Store) : oresult unit :=
  check st_integrity st else EForensicLockdown in
  let? expected_sequence := continuity_loop (st_db st) (ledger_events (st_db st)) 1 GENESIS_DIGEST in
  validate_checkpoint (sat_sub expected_sequence 1) st.

(** ** Opening the ledger *)

(** The directory the daemon creates when the parent is missing. *)
Definition own_dir (st : Store) : DirMeta :=
  {| dm_resolves := true; dm_is_dir := true; dm_is_symlink := false; dm_uid := st_euid st |}.

Definition validate_all (st : Store) (missing_allowed : bool) (files : list (option FileMeta))
    : oresult unit :=
  foldr (fun f acc => let? _ := validate_private_file f (st_enforce_root_ownership st) missing_allowed in acc)
        (Ok tt) files.

Definition prepare_state : LM unit := fun st =>
  match (match st_parent st with
         | None => if st_io_ok st then Some (own_dir st) else None
         | Some m => if dm_resolves m then Some m else None
         end) with
  | None => (Err EStorage, st)
  | Some parent =>
      let st := set_files (Some parent) (st_database_file st) st in
      if negb (dm_is_dir parent) || dm_is_symlink parent then (Err EForensicLockdown, st)
      else if st_enforce_root_ownership st && negb (dm_uid parent =? 0)
      then (Err EForensicLockdown, st)
      else if negb (st_io_ok st) then (Err EStorage, st)
      else (let? _ := validate_private_file (st_database_file st)
                        (st_enforce_root_ownership st) true in
            let? _ := validate_all st true (st_sidecar_files st) in
            validate_private_file (fst <$> st_checkpoint st) (st_enforce_root_ownership st) true,
            st)
  end.

(** [Connection::open] creates a missing database file. *)
Definition open_connection : LM unit := fun st =>
  match st_database_file st with
  | Some _ => (Ok tt, st)
  | None => if st_io_ok st
            then (Ok tt, set_files (st_parent st) (Some (own_file st)) st)
            else (Err EStorage, st)
  end.

(** [execute_batch] of migration [n] (2 to 8): its [ALTER TABLE .. ADD COLUMN]
    or [CREATE TABLE] is an SQL error on a schema that already has it.  Batch 1
    is all [IF NOT EXISTS]. *)
Definition execute_batch (n : Z) : LM unit := fun st =>
  if bool_decide (n ∈ st_migrations st) then (Err EStorage, st)
  else (Ok tt, set_schema (st_user_version st) (st_migrations st ++ [n]) st).

Definition set_user_version (n : Z) : LM unit := mupd (fun st => set_schema n (st_migrations st) st).

(** One migration: the DDL batch, then the version pragma, each committed on
    its own. *)
Definition migration_step (n : Z) : LM unit :=
  let! _ := execute_batch n in set_user_version n.

Fixpoint migration_steps (ns : list Z) : LM unit :=
  match ns with
  | [] => mret tt
  | n :: rest => let! _ := migration_step n in migration_steps rest
  end.

Definition migrate : LM unit :=
  let! version := mget st_user_version in
  let! _ :=
    (if version =? 0 then let! _ := set_user_version 1 in migration_steps [2; 3; 4; 5; 6]
     else if version =? 1 then migration_steps [2; 3; 4; 5; 6]
     else if version =? 2 then migration_steps [3; 4; 5; 6]
     else if version =? 3 then migration_steps [4; 5; 6]
     else if version =? 4 then migration_steps [5; 6]
     else if version =? 5 then migration_steps [6]
     else if (6 <=? version) && (version <=? 8) then mret tt
     else mfail EForensicLockdown) in
  let! current := mget st_user_version in
  let! current := (if current =? 6 then let! _ := migration_step 7 in mret 7 else mret current) in
  let! current := (if current =? 7 then let! _ := migration_step 8 in mret 8 else mret current) in
  if negb (current =? 8) then mfail EForensicLockdown else mret tt.

Definition secure_database_files : LM unit := fun st =>
  if negb (st_io_ok st) then (Err EStorage, st)
  else (let? _ := validate_private_file (st_database_file st) (st_enforce_root_ownership st) false in
        validate_all st false (List.filter is_some (st_sidecar_files st)), st).

Definition open : LM unit :=
  let! _ := prepare_state in
  let! _ := open_connection in
  let! _ := migrate in
  let! _ := secure_database_files in
  let! _ := (fun st => (validate_continuity st, st)) in
  complete_pending_checkpoint.

(** ** Public interface *)

Definition load_operation (operation_id : string) : LM StoredOperation :=
  read_db (fun db => load_operation_from db operation_id).

Definition load_plan (plan_id : string) : LM StoredPlan :=
  read_db (fun db => load_plan_from db plan_id).

Definition create_or_reuse_plan (plan : StoredPlan) : LM StoredPlan :=
  let! (stored, reused) := transact (create_or_reuse_plan_tx plan) in
  if (reused : bool) then mret stored
  else let! _ := complete_pending_checkpoint in mret stored.

Definition begin_operation (operation_id plan_id plan_hash idempotency_key : string)
    (actor : Subject) (now_ms : Z) : LM StoredOperation :=
  let! existing := transact (begin_operation_tx operation_id plan_id plan_hash idempotency_key
                               actor now_ms) in
  match existing with
  | Some operation => mret operation
  | None => let! _ := complete_pending_checkpoint in load_operation operation_id
  end.

Definition attach_snapshot (operation_id : string) (snapshot : SnapshotRecord) (now_ms : Z)
    : LM StoredOperation :=
  let! _ := transact (attach_snapshot_tx operation_id snapshot now_ms) in
  let! _ := complete_pending_checkpoint in
  load_operation operation_id.

Definition transition_internal (operation_id : string) (change : Transition)
    (diagnostics : option StoredDiagnostics) (command : option string) : LM StoredOperation :=
  let! _ := transact (transition_tx operation_id change diagnostics command) in
  let! _ := complete_pending_checkpoint in
  load_operation operation_id.

Definition transition (operation_id : string) (change : Transition) : LM StoredOperation :=
  transition_internal operation_id change None None.

Definition with_evidence (change : Transition) (digest : string) : Transition :=
  {| t_expected := t_expected change; t_next := t_next change;
     t_result_code := t_result_code change; t_evidence_digest := digest;
     t_after_digest := t_after_digest change; t_rollback_result := t_rollback_result change;
     t_now_ms := t_now_ms change |}.

Definition transition_with_command_evidence (operation_id : string) (change : Transition)
    (command : OperationCommandEvidenceView) : LM StoredOperation :=
  let! stored := mlift (prepare_command_evidence command (t_evidence_digest change)) in
  transition_internal operation_id change None (Some stored).

Definition transition_with_diagnostics (operation_id : string) (change : Transition)
    (diagnostics : list ManagedConfigDiagnosticView) : LM StoredOperation :=
  if bool_decide (diagnostics = []) then transition operation_id change
  else
    let! (stored, combined) := mlift (prepare_diagnostics (t_evidence_digest change) diagnostics) in
    transition_internal operation_id (with_evidence change combined) (Some stored) None.

Definition transition_with_diagnostics_and_command (operation_id : string) (change : Transition)
    (diagnostics : list ManagedConfigDiagnosticView) (command : OperationCommandEvidenceView)
    : LM StoredOperation :=
  if bool_decide (diagnostics = []) then transition_with_command_evidence operation_id change command
  else
    let! stored_command := mlift (prepare_command_evidence command (t_evidence_digest change)) in
    let! (stored, combined) := mlift (prepare_diagnostics (t_evidence_digest change) diagnostics) in
    transition_internal operation_id (with_evidence change combined) (Some stored) (Some stored_command).

(** ** Queries *)

(** [ORDER BY a, b] on an integer and a text column ([BINARY] collation). *)
Definition le_by (a b : Z * string) : bool :=
  (a.1 <? b.1) || ((a.1 =? b.1) && String.leb a.2 b.2).

(** Load a list of rows in order, stopping at the first failure. *)
Fixpoint load_all {A B} (f : A -> oresult B) (keys : list A) : oresult (list B) :=
  match keys with
  | [] => Ok []
  | k :: rest => let? v := f k in let? vs := load_all f rest in Ok (v :: vs)
  end.

Definition incomplete_ids (db : Db) : list string :=
  map snd (isort le_by
    (map (fun kv => (or_created_at_ms kv.2, kv.1))
       (List.filter (fun kv => negb (terminal_value (or_stage kv.2))) (map_to_list (operations db))))).

Definition incomplete_operations : LM (list StoredOperation) :=
  read_db (fun db => load_all (load_operation_from db) (incomplete_ids db)).

Definition proposal_type (operation_type : string) : bool :=
  bool_decide (operation_type ∈ [MANAGED_CONFIG_OPERATION; MANAGED_CONFIG_RESTORE_OPERATION;
                                 CERTBOT_ISSUE_OPERATION]).

Definition expired_unexecuted_ids (db : Db) (now_ms : Z) : list string :=
  map snd (isort le_by
    (map (fun kv => (pr_expires_at_ms kv.2, kv.1))
       (List.filter (fun kv => proposal_type (pr_operation_type kv.2)
                               && (pr_expires_at_ms kv.2 <=? now_ms)
                               && negb (exists_row (fun o => bool_decide (or_plan_id o = kv.1))
                                          (operations db)))
          (map_to_list (plans db))))).

Definition expired_unexecuted_proposal_plans (now_ms : Z) : LM (list StoredPlan) :=
  read_db (fun db => load_all (load_plan_from db) (expired_unexecuted_ids db now_ms)).

(** Rows of [has_recent_staging_evidence], most recently updated first. *)
Definition staging_rows (db : Db) (not_before_ms : Z) : list string :=
  map snd (isort (fun a b : Z * string => b.1 <=? a.1)
    (omap (fun kv : string * OpRow =>
       match plans db !! or_plan_id kv.2 with
       | Some row =>
           if bool_decide (pr_operation_type row = CERTBOT_ISSUE_OPERATION)
              && bool_decide (or_stage kv.2 = stage_storage_value Succeeded)
              && (not_before_ms <=? or_updated_at_ms kv.2)
           then Some (or_updated_at_ms kv.2, pr_certificate_issue_payload_json row) else None
       | None => None
       end) (map_to_list (operations db)))).

Fixpoint staging_match (evidence_key : string) (rows : list string) : oresult bool :=
  match rows with
  | [] => Ok false
  | encoded :: rest =>
      let? payload := ok_or (from_json encoded) EForensicLockdown in
      if is_some_and (payload : option CertbotIssuePlanPayload)
           (fun v => bool_decide (ip_environment v = Staging)
                     && bool_decide (ip_staging_evidence_key v = evidence_key))
      then Ok true else staging_match evidence_key rest
  end.

Definition has_recent_staging_evidence (evidence_key : string) (not_before_ms : Z) : LM bool :=
  read_db (fun db => staging_match evidence_key (staging_rows db not_before_ms)).

(** ** Receipts *)

Record OperationStageEvidenceView := {
  se_sequence : Z;
  se_stage : OperationStage;
  se_recorded_at : string;
  se_result_code : string;
  se_evidence_digest : string;
  se_command : option OperationCommandEvidenceView;
  se_diagnostics : list ManagedConfigDiagnosticView;
}.

Record OperationReceiptView := {
  rv_schema_version : Z;
  rv_operation_type : string;
  rv_operation_id : string;
  rv_display_name : string;
  rv_recorded_at : string;
  rv_plan_id : string;
  rv_plan_hash : string;
  rv_actor : Subject;
  rv_terminal_state : OperationStage;
  rv_before_digest : string;
  rv_after_digest : string;
  rv_stages : list OperationStageEvidenceView;
  rv_assurance : AssuranceView;
  rv_rollback_result : option string;
  rv_recovery_path : list string;
  rv_resource_id : option string;
  rv_restore_available : bool;
}.

Definition stage_evidence (db : Db) (e : EventRow) : oresult OperationStageEvidenceView :=
  let? (command, diagnostics) := load_event_evidence db e in
  check 0 <=? le_sequence e else EForensicLockdown in
  let? stage := parse_stage (le_stage e) in
  let? recorded_at := format_time (le_recorded_at_ms e) in
  Ok {| se_sequence := le_sequence e; se_stage := stage; se_recorded_at := recorded_at;
        se_result_code := le_result_code e; se_evidence_digest := le_evidence_digest e;
        se_command := command; se_diagnostics := diagnostics |}.

Definition events_of (db : Db) (operation_id : string) : list EventRow :=
  List.filter (fun e => bool_decide (le_operation_id e = operation_id)) (ledger_events db).

Definition receipt_from (db : Db) (operation_id : string) : oresult OperationReceiptView :=
  let? operation := load_operation_from db operation_id in
  let? stages := load_all (stage_evidence db) (events_of db operation_id) in
  let? recorded_at := ok_or (se_recorded_at <$> last stages) EForensicLockdown in
  let plan := o_plan operation in
  let recovery_path := if bool_decide (o_stage operation = RecoveryRequired)
                       then recovery_path_for plan else [] in
  Ok {| rv_schema_version := OPERATION_SCHEMA_VERSION;
        rv_operation_type := p_operation_type plan;
        rv_operation_id := o_operation_id operation;
        rv_display_name := p_display_name plan;
        rv_recorded_at := recorded_at;
        rv_plan_id := p_plan_id plan;
        rv_plan_hash := p_plan_hash plan;
        rv_actor := p_actor plan;
        rv_terminal_state := o_stage operation;
        rv_before_digest := o_before_digest operation;
        rv_after_digest := o_after_digest operation;
        rv_stages := stages;
        rv_assurance := p_assurance plan;
        rv_rollback_result := o_rollback_result operation;
        rv_recovery_path := recovery_path;
        rv_resource_id := if is_managed_config plan then Some (p_site_id plan) else None;
        rv_restore_available := is_managed_config plan
                                && bool_decide (o_stage operation = Succeeded)
                                && is_some (o_snapshot operation) |}.

Definition receipt (operation_id : string) : LM OperationReceiptView :=
  read_db (fun db => receipt_from db operation_id).

(** [ORDER BY updated_at_ms DESC, operation_id DESC LIMIT n]. *)
Definition recent_ids (db : Db) (actor_uid limit : Z) : list string :=
  firstn (Z.to_nat limit) (map snd (isort (fun a b => le_by b a)
    (omap (fun kv : string * OpRow =>
       match plans db !! or_plan_id kv.2 with
       | Some row => if pr_actor_uid row =? actor_uid
                     then Some (or_updated_at_ms kv.2, kv.1) else None
       | None => None
       end) (map_to_list (operations db))))).

Definition recent_receipts (actor_uid limit : Z) : LM (list OperationReceiptView) :=
  read_db (fun db => load_all (receipt_from db) (recent_ids db actor_uid limit)).
End Ledger.
