(* ===== verification/LedgerLog.v ===== *)
(** * jw-opsd: the hash chain of the ledger

    The specification of the event log ([chained]: consecutive sequence
    numbers, each row bound to its predecessor's digest), that [append_event]
    extends a chain, that the loop of [validate_continuity] decides it, and
    the reduction of tamper evidence to an explicit SHA-256 collision between
    two rows ([clash]). *)

From Stdlib Require Import Ascii String.
From S2P Require Import Prelude Crypto Contracts Plans Adapters Ledger.

Section Log.
Context `{Externals}.

(** ** Specification of the log *)

Definition linked (n : Z) (prev : string) (e : EventRow) : Prop :=
  le_sequence e = n /\ le_previous_digest e = prev /\
  ledger_event_digest prev (to_json (canonical_of_row e prev)) = Ok (le_event_digest e).

Fixpoint chained (n : Z) (prev : string) (rows : list EventRow) : Prop :=
  match rows with
  | [] => True
  | e :: rest => linked n prev e /\ chained (n + 1) (le_event_digest e) rest
  end.

(** The bytes hashed for a row, and two rows that break SHA-256: different
    bytes, the same hash. *)
Definition hashed (e : EventRow) : string :=
  "jw-agent/ledger/v1" +:+ NUL +:+
  (match decode_sha256 (le_previous_digest e) with Ok raw => raw | Err _ => EmptyString end) +:+
  to_json (canonical_of_row e (le_previous_digest e)).

Definition clash (e e' : EventRow) : Prop :=
  hashed e <> hashed e' /\ sha256 (hashed e) = sha256 (hashed e').

Definition head_digest (prev : string) (rows : list EventRow) : string :=
  match last rows with Some e => le_event_digest e | None => prev end.

Lemma head_digest_cons prev e rows :
  head_digest prev (e :: rows) = head_digest (le_event_digest e) rows.
Proof. unfold head_digest. rewrite last_cons. by destruct (last rows). Qed.

Lemma chained_snoc n prev rows e :
  chained n prev (rows ++ [e]) <->
  chained n prev rows /\ linked (n + Z.of_nat (length rows)) (head_digest prev rows) e.
Proof.
  revert n prev. induction rows as [|r rows IH]; intros n prev; simpl.
  - rewrite Z.add_0_r. unfold head_digest. simpl. tauto.
  - rewrite IH, head_digest_cons.
    replace (n + 1 + Z.of_nat (length rows)) with (n + Z.of_nat (S (length rows))) by lia.
    tauto.
Qed.

Lemma chained_app n prev l k :
  chained n prev (l ++ k) <->
  chained n prev l /\ chained (n + Z.of_nat (length l)) (head_digest prev l) k.
Proof.
  revert n prev. induction l as [|e l IH]; intros n prev; simpl.
  - rewrite Z.add_0_r. unfold head_digest. simpl. tauto.
  - rewrite IH, head_digest_cons.
    replace (n + 1 + Z.of_nat (length l)) with (n + Z.of_nat (S (length l))) by lia.
    tauto.
Qed.

Lemma chained_lookup n prev rows i e :
  chained n prev rows -> rows !! i = Some e -> le_sequence e = n + Z.of_nat i.
Proof.
  revert n prev i. induction rows as [|r rows IH]; intros n prev [|i] Hc Hi; simplify_eq/=.
  - destruct Hc as [(-> & _) _]. lia.
  - destruct Hc as [_ Hc]. rewrite (IH _ _ _ Hc Hi). lia.
Qed.

Lemma chained_elem n prev rows e :
  chained n prev rows -> e ∈ rows -> n <= le_sequence e < n + Z.of_nat (length rows).
Proof.
  intros Hc He. apply list_elem_of_lookup in He as [i Hi].
  rewrite (chained_lookup _ _ _ _ _ Hc Hi). apply lookup_lt_Some in Hi. lia.
Qed.

Lemma chained_last_sequence prev rows e :
  chained 1 prev rows -> last rows = Some e -> le_sequence e = Z.of_nat (length rows).
Proof.
  intros Hc Hl. rewrite last_lookup in Hl.
  rewrite (chained_lookup _ _ _ _ _ Hc Hl). apply lookup_lt_Some in Hl. lia.
Qed.

Lemma chained_find n prev rows i e :
  chained n prev rows -> rows !! i = Some e ->
  List.find (fun r => le_sequence r =? n + Z.of_nat i) rows = Some e.
Proof.
  revert n prev i. induction rows as [|r rows IH]; intros n prev i Hc Hi; [done|].
  destruct Hc as [(Hs & _) Hc]. simpl. destruct i as [|i]; simplify_eq/=.
  - by rewrite Z.add_0_r, Z.eqb_refl.
  - replace (le_sequence r =? le_sequence r + Z.of_nat (S i)) with false
      by (symmetry; apply Z.eqb_neq; lia).
    replace (le_sequence r + Z.of_nat (S i)) with (le_sequence r + 1 + Z.of_nat i) by lia.
    by eapply IH.
Qed.

Lemma digest_at_lookup prev rows s d :
  chained 1 prev rows -> digest_at rows s = Some d ->
  exists e, rows !! Z.to_nat (s - 1) = Some e /\ le_event_digest e = d /\
            le_sequence e = s /\ 1 <= s <= Z.of_nat (length rows).
Proof.
  unfold digest_at. intros Hc Hd. apply fmap_Some in Hd as (e & He & ->).
  apply find_some in He as [Hin Hs]. apply Z.eqb_eq in Hs. subst s.
  apply list_elem_of_In, list_elem_of_lookup in Hin as [i Hi].
  pose proof (chained_lookup _ _ _ _ _ Hc Hi) as Hseq.
  pose proof (lookup_lt_Some _ _ _ Hi).
  exists e. rewrite Hseq. replace (Z.to_nat (1 + Z.of_nat i - 1)) with i by lia.
  split_and!; [done..|lia|lia].
Qed.

(** ** Digests of the log *)

Lemma ledger_event_digest_format prev c d :
  ledger_event_digest prev c = Ok d ->
  exists raw, decode_sha256 prev = Ok raw /\
    d = format_sha256 (sha256 ("jw-agent/ledger/v1" +:+ NUL +:+ raw +:+ c)).
Proof. unfold ledger_event_digest. intros Hd. break_in Hd. eauto. Qed.

Lemma decode_genesis : is_ok (decode_sha256 GENESIS_DIGEST) = true.
Proof. vm_compute. reflexivity. Qed.

Lemma decode_event_digest prev c d :
  ledger_event_digest prev c = Ok d -> is_ok (decode_sha256 d) = true.
Proof.
  intros (raw & _ & ->)%ledger_event_digest_format.
  by rewrite decode_format_sha256 by apply sha256_length.
Qed.

Lemma head_decodes n rows :
  chained n GENESIS_DIGEST rows -> is_ok (decode_sha256 (head_digest GENESIS_DIGEST rows)) = true.
Proof.
  destruct rows as [|e rows _] using rev_ind; [intros _; apply decode_genesis|].
  rewrite chained_snoc. intros [_ (_ & _ & Hd)].
  unfold head_digest. rewrite last_snoc. by eapply decode_event_digest.
Qed.

Lemma linked_hash n prev e :
  linked n prev e -> is_ok (decode_sha256 prev) = true /\ le_event_digest e = format_sha256 (sha256 (hashed e)).
Proof.
  intros (_ & Hp & (raw & Hr & Hd)%ledger_event_digest_format). unfold hashed. rewrite Hp, Hr. by rewrite Hd.
Qed.

(** Rows with equal digests are equal, or they clash. *)
Lemma linked_inj n n' p p' e e' :
  linked n p e -> linked n' p' e' -> le_event_digest e = le_event_digest e' -> e = e' \/ clash e e'.
Proof.
  intros He He' Hd. destruct (linked_hash _ _ _ He) as [Hk Hh], (linked_hash _ _ _ He') as [Hk' Hh'].
  destruct He as (_ & Hp & _), He' as (_ & Hp' & _). pose proof Hd as Hd0. rewrite Hh, Hh' in Hd.
  apply format_sha256_inj in Hd. destruct (decide (hashed e = hashed e')) as [Heq|Hne]; [left|by right].
  unfold hashed in Heq. apply sapp_inj in Heq as [_ Heq]; [|done]. apply sapp_inj in Heq as [_ Heq]; [|done].
  rewrite Hp, Hp' in Heq.
  destruct (decode_sha256 p) as [raw|] eqn:Hr; [|done]. destruct (decode_sha256 p') as [raw'|] eqn:Hr'; [|done].
  apply sapp_inj in Heq as [_ Heq%to_json_inj];
    [|by rewrite (decode_sha256_length _ _ Hr), (decode_sha256_length _ _ Hr')].
  unfold canonical_of_row, canonical_of in Heq. injection Heq as Hq1 Hq2 Hq3 Hq4 Hq5 Hq6 Hq7 Hq8.
  destruct e, e'; simpl in *; congruence.
Qed.

(** ** Appending *)

Definition row_of (n : Z) (prev : string) (ev : EventInput) (digest : string) : EventRow :=
  {| le_sequence := n; le_operation_id := ei_operation_id ev; le_plan_id := ei_plan_id ev;
     le_stage := stage_storage_value (ei_stage ev); le_result_code := ei_result_code ev;
     le_recorded_at_ms := ei_recorded_at_ms ev; le_evidence_digest := ei_evidence_digest ev;
     le_previous_digest := prev; le_event_digest := digest |}.

(** The log of a table set: chained from genesis, within [i64], and every row
    with evidence that loads. *)
Record log_inv (db : Db) : Prop := {
  log_chained : chained 1 GENESIS_DIGEST (ledger_events db);
  log_bounded : Z.of_nat (length (ledger_events db)) <= i64_max;
  log_evidence : forall e, e ∈ ledger_events db -> is_ok (load_event_evidence db e) = true;
  log_commands : forall s c, command_evidence db !! s = Some c ->
                   s <= Z.of_nat (length (ledger_events db));
  log_diagnostics : forall s c, managed_config_diagnostics db !! s = Some c ->
                      s <= Z.of_nat (length (ledger_events db));
  log_stages : forall e, e ∈ ledger_events db -> exists s, le_stage e = stage_storage_value s;
}.

Lemma event_head_chained rows :
  chained 1 GENESIS_DIGEST rows ->
  event_head rows = (Z.of_nat (length rows), head_digest GENESIS_DIGEST rows).
Proof.
  intros Hc. unfold event_head, head_digest. destruct (last rows) as [e|] eqn:Hl.
  - by rewrite (chained_last_sequence _ _ _ Hc Hl).
  - by apply last_None in Hl as ->.
Qed.

(** Appending and marking leave the row tables alone. *)
Lemma append_event_rows db ev s db' :
  append_event db ev = Ok (s, db') ->
  plans db' = plans db /\ operations db' = operations db /\ idempotency db' = idempotency db /\
  resource_locks db' = resource_locks db /\ ledger_events db `prefix_of` ledger_events db'.
Proof.
  unfold append_event, insert_event. intros Ha. destruct (event_head _).
  destruct (ledger_event_digest _ _); [|done]. destruct (existsb _ _); [done|].
  injection Ha as _ <-. split_and!; try done. by eexists.
Qed.

Lemma mark_rows db s t :
  let db' := mark_checkpoint_if_needed db s t in
  plans db' = plans db /\ operations db' = operations db /\ idempotency db' = idempotency db /\
  resource_locks db' = resource_locks db /\ ledger_events db' = ledger_events db.
Proof. unfold mark_checkpoint_if_needed. by destruct (_ || _). Qed.

(** What a successful append does: one row at the end, linked to the head. *)
Lemma append_event_ok db ev s db' :
  log_inv db -> append_event db ev = Ok (s, db') ->
  exists row, db' = set_events (fun _ => ledger_events db ++ [row]) db /\
    s = Z.of_nat (length (ledger_events db)) + 1 /\ s <= i64_max /\
    linked s (head_digest GENESIS_DIGEST (ledger_events db)) row /\
    row = row_of s (head_digest GENESIS_DIGEST (ledger_events db)) ev (le_event_digest row).
Proof.
  intros Hinv Ha. destruct Hinv as [Hc Hb _ _ _ _]. unfold append_event in Ha.
  rewrite (event_head_chained _ Hc) in Ha.
  set (n := Z.of_nat (length (ledger_events db))) in *.
  set (prev := head_digest _ _) in *.
  destruct (ledger_event_digest _ _) as [d|] eqn:Hd; [|done].
  unfold insert_event in Ha. destruct (existsb _ _) eqn:Hex; [done|].
  injection Ha as <- <-.
  assert (n < i64_max) as Hn.
  { destruct (last (ledger_events db)) as [e|] eqn:Hl.
    - pose proof (chained_last_sequence _ _ _ Hc Hl) as Hs. fold n in Hs.
      apply not_true_iff_false in Hex.
      assert (n <> sat_add n 1); [|unfold sat_add, clamp_i64, i64_min, i64_max in *; lia].
      intros Heq. apply Hex, existsb_exists. exists e. split.
      + apply list_elem_of_In. by apply last_Some_elem_of.
      + cbn. by rewrite Hs, <- Heq, Z.eqb_refl.
    - apply last_None in Hl. unfold n. rewrite Hl. unfold i64_max. simpl. lia. }
  rewrite sat_add_succ in * by (unfold n in *; lia).
  eexists. split_and!; [done|done|lia| |done]. split_and!; [done|done|]. exact Hd.
Qed.

(** Some row in the log clashes with the row that is about to follow it. *)
Definition next_clash (db : Db) : Prop :=
  exists e row, e ∈ ledger_events db /\ clash e row /\
    le_sequence row = Z.of_nat (length (ledger_events db)) + 1 /\
    le_previous_digest row = head_digest GENESIS_DIGEST (ledger_events db).

(** An append fails only when the sequence space is exhausted or the new row
    clashes with one in the log. *)
Lemma append_event_total db ev :
  log_inv db -> Z.of_nat (length (ledger_events db)) < i64_max ->
  is_ok (append_event db ev) = true \/ (append_event db ev = Err EStorage /\ next_clash db).
Proof.
  intros Hinv Hroom. destruct Hinv as [Hc _ _ _ _ _]. unfold append_event.
  rewrite (event_head_chained _ Hc), sat_add_succ by lia.
  set (n := Z.of_nat (length (ledger_events db))) in *.
  set (prev := head_digest _ _) in *.
  destruct (ledger_event_digest prev _) as [d|] eqn:Hd.
  2:{ exfalso. unfold ledger_event_digest in Hd. pose proof (head_decodes _ _ Hc) as Hh.
      fold prev in Hh. destruct (decode_sha256 prev); done. }
  unfold insert_event. destruct (existsb _ _) eqn:Hex; [right|by left]. split; [done|].
  apply existsb_exists in Hex as (e & He & Hdup). apply list_elem_of_In in He.
  pose proof (chained_elem _ _ _ _ Hc He) as Hrange. fold n in Hrange.
  apply orb_true_iff in Hdup as [Hdup|Hdup]; [apply Z.eqb_eq in Hdup; simpl in Hdup; lia|].
  apply bool_decide_eq_true in Hdup. simpl in Hdup. pose proof He as Hin.
  apply list_elem_of_lookup in He as [i Hi].
  rewrite <- (take_drop_middle _ _ _ Hi), chained_app in Hc. destruct Hc as [_ [Hlink _]].
  pose proof Hlink as (Hs & _ & _).
  destruct (linked_inj _ (n + 1) _ prev _ (row_of (n + 1) prev ev d) Hlink) as [->|Hcl].
  - split_and!; [done|done|exact Hd].
  - done.
  - simpl in Hs, Hrange. lia.
  - by exists e, (row_of (n + 1) prev ev d).
Qed.

(** ** The loop of [validate_continuity] decides the specification *)

Lemma continuity_loop_complete db rows n prev :
  chained n prev rows -> 0 < n -> n + Z.of_nat (length rows) <= i64_max ->
  (forall e, e ∈ rows -> is_ok (load_event_evidence db e) = true) ->
  continuity_loop db rows n prev = Ok (n + Z.of_nat (length rows)).
Proof.
  revert n prev. induction rows as [|e rows IH]; intros n prev Hc Hn Hb Hev.
  { simpl. f_equal. lia. }
  destruct Hc as [(Hs & Hp & Hd) Hc]. cbn [continuity_loop length] in *.
  rewrite Hs, Z.eqb_refl, bool_decide_eq_true_2 by done. simpl.
  rewrite Hd, bool_decide_eq_true_2 by done. simpl.
  pose proof (Hev e ltac:(left)) as Hl.
  destruct (load_event_evidence db e); [|done].
  rewrite sat_add_succ by lia.
  rewrite IH; [f_equal; lia|done|lia|lia|]. intros e' He'. apply Hev. by right.
Qed.

Lemma continuity_loop_sound db rows n prev m :
  continuity_loop db rows n prev = Ok m -> 0 < n -> n + Z.of_nat (length rows) <= i64_max ->
  chained n prev rows /\ m = n + Z.of_nat (length rows) /\
  (forall e, e ∈ rows -> is_ok (load_event_evidence db e) = true).
Proof.
  revert n prev. induction rows as [|e rows IH]; intros n prev Hl Hn Hb; cbn [continuity_loop length] in *.
  { injection Hl as <-. split_and!; [done|simpl; lia|]. by intros e He%elem_of_nil. }
  break_in Hl. bool_prop. rewrite sat_add_succ in Hl by lia.
  destruct (IH _ _ Hl) as (Hc & -> & Hev); [lia|lia|].
  split; [|split; [lia|]].
  - split; [|done]. split_and!; [done|done|]. congruence.
  - intros e' [->|He']%elem_of_cons; [|by apply Hev].
    rename select (load_event_evidence _ _ = _) into Hload. by rewrite Hload.
Qed.

(** ** Tamper evidence *)

Definition clashing (rows rows' : list EventRow) : Prop :=
  exists e e', e ∈ rows /\ e' ∈ rows' /\ clash e e'.

Lemma clashing_mono rows rows' l l' :
  clashing rows rows' -> (forall e, e ∈ rows -> e ∈ l) -> (forall e, e ∈ rows' -> e ∈ l') -> clashing l l'.
Proof. intros (e & e' & ? & ? & ?) Hl Hl'. exists e, e'. auto. Qed.

(** Two chains that agree on a digest at one position agree on every row up to
    it, unless two of those rows clash. *)
Lemma chained_same_prefix rows rows' e e' :
  chained 1 GENESIS_DIGEST (rows ++ [e]) -> chained 1 GENESIS_DIGEST (rows' ++ [e']) ->
  length rows = length rows' -> le_event_digest e = le_event_digest e' ->
  rows ++ [e] = rows' ++ [e'] \/ clashing (rows ++ [e]) (rows' ++ [e']).
Proof.
  revert rows' e e'. induction rows as [|r rows IH] using rev_ind; intros rows' e e' Hc Hc' Hlen Hd.
  all: rewrite chained_snoc in Hc, Hc'; destruct Hc as [Hc Hl], Hc' as [Hc' Hl'];
       destruct (linked_inj _ _ _ _ _ _ Hl Hl' Hd) as [<-|];
       [|right; exists e, e'; split_and!; [apply elem_of_app; right; by left..|done]].
  - destruct rows'; [|done]. by left.
  - destruct rows' as [|r' rows' _] using rev_ind; [rewrite length_app in Hlen; simpl in Hlen; lia|].
    rewrite !length_app in Hlen. simpl in Hlen.
    destruct Hl as (_ & Hp & _), Hl' as (_ & Hp' & _). unfold head_digest in Hp, Hp'. rewrite !last_snoc in Hp, Hp'.
    destruct (IH rows' r r' Hc Hc') as [->|Hcl]; [lia|congruence|by left|right].
    eapply clashing_mono; [exact Hcl|..]; intros x Hx; apply elem_of_app; by left.
Qed.

Lemma chained_agree rows rows' s d :
  chained 1 GENESIS_DIGEST rows -> chained 1 GENESIS_DIGEST rows' ->
  digest_at rows s = Some d -> digest_at rows' s = Some d ->
  take (Z.to_nat s) rows = take (Z.to_nat s) rows' \/
  clashing (take (Z.to_nat s) rows) (take (Z.to_nat s) rows').
Proof.
  intros Hc Hc' Hd Hd'.
  destruct (digest_at_lookup _ _ _ _ Hc Hd) as (e & He & Hed & _ & Hs).
  destruct (digest_at_lookup _ _ _ _ Hc' Hd') as (e' & He' & Hed' & _ & Hs').
  replace (Z.to_nat s) with (S (Z.to_nat (s - 1))) by lia.
  rewrite (take_S_r _ _ _ He), (take_S_r _ _ _ He').
  rewrite <- (take_drop (S (Z.to_nat (s - 1))) rows), (take_S_r _ _ _ He), chained_app in Hc.
  rewrite <- (take_drop (S (Z.to_nat (s - 1))) rows'), (take_S_r _ _ _ He'), chained_app in Hc'.
  apply chained_same_prefix; [apply Hc|apply Hc'| |congruence].
  rewrite !length_take. lia.
Qed.
End Log.
