(* ===== verification/LedgerInv.v ===== *)
(** * jw-opsd: invariants of the ledger tables

    [rows_inv] relates plans, operations, idempotency keys and resource locks;
    [log_agrees] says an operation's stage column is the stage of its last
    event.  Every transaction of the public interface ([ledger_tx]) preserves
    both, together with the hash chain of [LedgerLog]. *)

From Stdlib Require Import Ascii String.
From S2P Require Import Prelude Crypto Contracts Plans Adapters Ledger LedgerLog.

(** ** Stages as stored *)

Lemma parse_stage_storage s : parse_stage (stage_storage_value s) = Ok s.
Proof. by destruct s. Qed.

Lemma parse_stage_inv v s : parse_stage v = Ok s -> v = stage_storage_value s.
Proof. unfold parse_stage. intros Hp. break_in Hp; bool_prop; by subst. Qed.

Lemma terminal_value_stage s : terminal_value (stage_storage_value s) = is_terminal s.
Proof. by destruct s. Qed.

Lemma stage_storage_inj s t : stage_storage_value s = stage_storage_value t -> s = t.
Proof. intros Heq. apply (f_equal parse_stage) in Heq. rewrite !parse_stage_storage in Heq. congruence. Qed.

#[export] Hint Rewrite parse_stage_storage terminal_value_stage : jw_rewrite.

(** ** Finite-map helpers *)

Lemma insert_row_Some {K V} `{Countable K} (k : K) (v : V) m m' :
  insert_row k v m = Some m' -> m !! k = None /\ m' = <[k := v]> m.
Proof. unfold insert_row. intros Hi. by destruct (m !! k) eqn:E; simplify_eq. Qed.

Lemma exists_row_false {K V} `{Countable K} (p : V -> bool) (m : gmap K V) k v :
  exists_row p m = false -> m !! k = Some v -> p v = false.
Proof.
  unfold exists_row. intros Hf Hk. apply not_true_iff_false in Hf.
  destruct (p v) eqn:E; [|done]. exfalso. apply Hf, existsb_exists.
  exists (k, v). split; [|done]. by apply list_elem_of_In, elem_of_map_to_list.
Qed.

(** Compute projections of updated tables. *)
Ltac db_simpl :=
  cbn [metadata plans operations idempotency resource_locks ledger_events command_evidence
       managed_config_diagnostics set_metadata set_plans set_operations set_idempotency set_locks
       set_events set_commands set_diagnostics].
Tactic Notation "db_simpl" "in" hyp(H) :=
  cbn [metadata plans operations idempotency resource_locks ledger_events command_evidence
       managed_config_diagnostics set_metadata set_plans set_operations set_idempotency set_locks
       set_events set_commands set_diagnostics] in H.

Section Inv.
Context `{Externals}.

(** ** Plans *)

(** The actor's uid is a [u32]. *)
Definition plan_ok (plan : StoredPlan) : Prop := 0 <= uid (p_actor plan) <= u32_max.

Lemma parse_plan_row_ok plan : plan_ok plan -> parse_plan_row (plan_row plan) = Ok plan.
Proof.
  unfold plan_ok. intros Huid. unfold parse_plan_row, plan_row; simpl.
  rewrite !from_to_json. unfold u32_try_from.
  replace ((0 <=? uid (p_actor plan)) && (uid (p_actor plan) <=? u32_max)) with true
    by (symmetry; apply andb_true_iff; split; apply Z.leb_le; lia).
  simpl. destruct plan as [? ? ? [? ? ?]]; reflexivity.
Qed.

Lemma plan_row_inj p q : plan_ok p -> plan_ok q -> plan_row p = plan_row q -> p = q.
Proof.
  intros Hp Hq Heq. apply (f_equal parse_plan_row) in Heq.
  rewrite !parse_plan_row_ok in Heq by done. congruence.
Qed.

(** ** Relations between the tables *)

Record rows_inv (pl : gmap string PlanRow) (ops : gmap string OpRow)
    (idem : gmap string IdemRow) (locks : gmap string LockRow) : Prop := {
  ri_plans : forall id row, pl !! id = Some row ->
    exists p, row = plan_row p /\ plan_ok p /\ p_plan_id p = id;
  ri_idem : forall key r, idem !! key = Some r ->
    exists p, pl !! ir_plan_id r = Some (plan_row p) /\ plan_ok p /\
              p_idempotency_key p = key /\ p_request_digest p = ir_request_digest r;
  ri_keyed : forall id row, pl !! id = Some row ->
    exists r, idem !! pr_idempotency_key row = Some r /\ ir_plan_id r = id;
  ri_ops : forall id row, ops !! id = Some row ->
    id <> EmptyString /\ is_Some (pl !! or_plan_id row) /\
    (exists s, or_stage row = stage_storage_value s) /\
    is_some (or_snapshot_relative_path row) = is_some (or_snapshot_digest row);
  ri_one_op : forall id1 id2 r1 r2, ops !! id1 = Some r1 -> ops !! id2 = Some r2 ->
    or_plan_id r1 = or_plan_id r2 -> id1 = id2;
  ri_locks : forall k l, locks !! k = Some l ->
    exists row, ops !! lr_operation_id l = Some row /\ terminal_value (or_stage row) = false;
  ri_held : forall id row p, ops !! id = Some row -> terminal_value (or_stage row) = false ->
    pl !! or_plan_id row = Some (plan_row p) -> plan_ok p ->
    lr_operation_id <$> locks !! p_resource_key p = Some id /\
    (needs_reload_lock p = true -> lr_operation_id <$> locks !! "nginx/reload" = Some id);
}.

Definition db_rows (db : Db) : Prop :=
  rows_inv (plans db) (operations db) (idempotency db) (resource_locks db).

Definition log_agrees (db : Db) : Prop :=
  forall id row, operations db !! id = Some row ->
    le_stage <$> last (events_of db id) = Some (or_stage row).

Lemma load_plan_from_ok db id row :
  db_rows db -> plans db !! id = Some row ->
  exists p, load_plan_from db id = Ok p /\ row = plan_row p /\ plan_ok p /\ p_plan_id p = id.
Proof.
  intros Hr Hl. destruct (ri_plans _ _ _ _ Hr _ _ Hl) as (p & -> & Hp & Hid).
  exists p. unfold load_plan_from. by rewrite Hl, parse_plan_row_ok.
Qed.

Lemma load_plan_from_inv db id p :
  db_rows db -> load_plan_from db id = Ok p ->
  plans db !! id = Some (plan_row p) /\ plan_ok p /\ p_plan_id p = id.
Proof.
  intros Hr Hl. unfold load_plan_from in Hl.
  destruct (plans db !! id) as [row|] eqn:E; [|done].
  destruct (ri_plans _ _ _ _ Hr _ _ E) as (q & -> & Hq & Hid).
  rewrite parse_plan_row_ok in Hl by done. by simplify_eq.
Qed.

(** Every stored operation loads. *)
Lemma load_operation_from_ok db id row :
  db_rows db -> operations db !! id = Some row ->
  exists op, load_operation_from db id = Ok op /\ o_operation_id op = id /\
    plans db !! or_plan_id row = Some (plan_row (o_plan op)) /\ plan_ok (o_plan op) /\
    p_plan_id (o_plan op) = or_plan_id row /\
    or_stage row = stage_storage_value (o_stage op).
Proof.
  intros Hr Hl. destruct (ri_ops _ _ _ _ Hr _ _ Hl) as (_ & [prow Hp] & [s Hs] & Hsnap).
  destruct (load_plan_from_ok _ _ _ Hr Hp) as (p & Hload & -> & Hpok & Hid).
  unfold load_operation_from. rewrite Hl, Hload, Hs, parse_stage_storage.
  destruct (or_snapshot_relative_path row), (or_snapshot_digest row); simpl in Hsnap; try done;
    (eexists; split; [reflexivity|]; simpl; done).
Qed.

Lemma load_operation_from_inv db id op :
  db_rows db -> load_operation_from db id = Ok op ->
  exists row, operations db !! id = Some row /\ o_operation_id op = id /\
    plans db !! or_plan_id row = Some (plan_row (o_plan op)) /\ plan_ok (o_plan op) /\
    p_plan_id (o_plan op) = or_plan_id row /\
    or_stage row = stage_storage_value (o_stage op).
Proof.
  intros Hr Hl. destruct (operations db !! id) as [row|] eqn:E.
  - destruct (load_operation_from_ok _ _ _ Hr E) as (op' & Hl' & Hrest).
    rewrite Hl in Hl'. simplify_eq. eauto.
  - unfold load_operation_from in Hl. by rewrite E in Hl.
Qed.

(** ** Preservation, one table update at a time *)

Lemma rows_insert_plan db plan :
  db_rows db -> plan_ok plan -> plan_unique db (plan_row plan) = true ->
  plans db !! p_plan_id plan = None -> idempotency db !! p_idempotency_key plan = None ->
  rows_inv (<[p_plan_id plan := plan_row plan]> (plans db)) (operations db)
    (<[p_idempotency_key plan := {| ir_request_digest := p_request_digest plan;
                                    ir_plan_id := p_plan_id plan; ir_operation_id := None |}]>
       (idempotency db)) (resource_locks db).
Proof.
  intros Hr Hok Hu Hfresh Hkey. unfold plan_unique in Hu. apply negb_true_iff in Hu.
  destruct Hr as [Hpl Hid Hkd Hops H1 Hlk Hh]. constructor.
  - intros id row [[<- <-]|[Hne Hl]]%lookup_insert_Some; [by exists plan|by apply Hpl].
  - intros key r [[<- <-]|[Hne Hl]]%lookup_insert_Some; simpl.
    + exists plan. by rewrite lookup_insert_eq.
    + destruct (Hid _ _ Hl) as (p & Hp & Hrest). exists p. split; [|done].
      rewrite lookup_insert_ne; [done|]. intros Heq. congruence.
  - intros id row [[<- <-]|[Hne Hl]]%lookup_insert_Some; simpl.
    + eexists. by rewrite lookup_insert_eq.
    + pose proof (exists_row_false _ _ _ _ Hu Hl) as Hd. simpl in Hd. bool_prop.
      destruct (Hkd _ _ Hl) as (r & Hr & Hrid). exists r. rewrite lookup_insert_ne; [done|congruence].
  - intros id row Hl. destruct (Hops _ _ Hl) as (? & [prow Hp] & ? & ?). split_and!; try done.
    exists prow. rewrite lookup_insert_ne; [done|congruence].
  - done.
  - done.
  - intros id row p Hl Ht Hp. rewrite lookup_insert_ne in Hp; [by eapply Hh|].
    destruct (Hops _ _ Hl) as (_ & [prow Hp'] & _). congruence.
Qed.

Lemma operation_of_plan_None db plan_id :
  operation_of_plan db plan_id = None ->
  forall id row, operations db !! id = Some row -> or_plan_id row <> plan_id.
Proof.
  unfold operation_of_plan. intros Hf id row Hl Heq.
  destruct (List.find _ _) as [[k v]|] eqn:E; [done|].
  eapply find_none in E; [|apply list_elem_of_In, elem_of_map_to_list, Hl].
  simpl in E. bool_prop. done.
Qed.

Definition lock_insert (key id : string) (now : Z) (locks : gmap string LockRow) :=
  <[key := {| lr_operation_id := id; lr_acquired_at_ms := now |}]> locks.

Lemma rows_insert_operation db id row p now idem locks :
  db_rows db -> id <> EmptyString -> operations db !! id = None ->
  (forall i r, operations db !! i = Some r -> or_plan_id r <> or_plan_id row) ->
  plans db !! or_plan_id row = Some (plan_row p) -> plan_ok p ->
  or_stage row = stage_storage_value Approved ->
  is_some (or_snapshot_relative_path row) = is_some (or_snapshot_digest row) ->
  resource_locks db !! p_resource_key p = None ->
  (needs_reload_lock p = true -> lock_insert (p_resource_key p) id now (resource_locks db) !! "nginx/reload" = None) ->
  locks = (if needs_reload_lock p
           then lock_insert "nginx/reload" id now (lock_insert (p_resource_key p) id now (resource_locks db))
           else lock_insert (p_resource_key p) id now (resource_locks db)) ->
  (forall k r, idem !! k = Some r -> exists r0, idempotency db !! k = Some r0 /\
      ir_plan_id r0 = ir_plan_id r /\ ir_request_digest r0 = ir_request_digest r) ->
  (forall k r0, idempotency db !! k = Some r0 -> exists r, idem !! k = Some r /\ ir_plan_id r = ir_plan_id r0) ->
  rows_inv (plans db) (<[id := row]> (operations db)) idem locks.
Proof.
  intros Hr Hne Hfresh Honly Hp Hok Hstage Hsnap Hfree Hfree2 Hlocks Hi1 Hi2.
  assert (forall k l, locks !! k = Some l -> lr_operation_id l = id \/ resource_locks db !! k = Some l) as Hlk1.
  { intros k l. rewrite Hlocks. unfold lock_insert. destruct (needs_reload_lock p);
      intros Hl; repeat (apply lookup_insert_Some in Hl as [[_ <-]|[_ Hl]]; [by left|]); by right. }
  assert (forall k l, resource_locks db !! k = Some l -> locks !! k = Some l) as Hlk2.
  { intros k l Hl. rewrite Hlocks. unfold lock_insert in *. destruct (needs_reload_lock p) eqn:En.
    - assert (k <> p_resource_key p) by congruence.
      assert (k <> "nginx/reload"%string).
      { intros ->. specialize (Hfree2 eq_refl). rewrite lookup_insert_ne in Hfree2; congruence. }
      by rewrite !lookup_insert_ne.
    - assert (k <> p_resource_key p) by congruence. by rewrite lookup_insert_ne. }
  destruct Hr as [Hpl Hid Hkd Hops H1 Hlk Hh]. constructor.
  - done.
  - intros k r Hk. destruct (Hi1 _ _ Hk) as (r0 & Hr0 & <- & <-). by apply Hid.
  - intros i r Hi. destruct (Hkd _ _ Hi) as (r0 & Hr0 & <-).
    destruct (Hi2 _ _ Hr0) as (r' & Hr' & <-). by eexists.
  - intros i r [[<- <-]|[Hn Hl]]%lookup_insert_Some; [|by apply Hops]. by eauto 10.
  - intros i1 i2 r1 r2 [[<- <-]|[Hn1 Hl1]]%lookup_insert_Some [[<- <-]|[Hn2 Hl2]]%lookup_insert_Some Heq;
      [done|by destruct (Honly _ _ Hl2)|by destruct (Honly _ _ Hl1)|by eapply H1].
  - intros k l Hl. destruct (Hlk1 _ _ Hl) as [<-|Hl'].
    + exists row. rewrite lookup_insert_eq, Hstage. done.
    + destruct (Hlk _ _ Hl') as (row' & Hrow' & Ht). exists row'. rewrite lookup_insert_ne; [done|congruence].
  - intros i r q [[<- <-]|[Hn Hl]]%lookup_insert_Some Ht Hq Hqok.
    + assert (q = p) as -> by (apply plan_row_inj; congruence).
      rewrite Hlocks. unfold lock_insert. destruct (needs_reload_lock p).
      * rewrite lookup_insert_eq. split; [|done]. destruct (decide (p_resource_key p = "nginx/reload"%string)) as [->|].
        -- by rewrite lookup_insert_eq.
        -- by rewrite lookup_insert_ne, lookup_insert_eq.
      * by rewrite lookup_insert_eq.
    + destruct (Hh _ _ _ Hl Ht Hq Hqok) as [Ha Hb]. split.
      * apply fmap_Some in Ha as (l & Hl' & ->). by rewrite (Hlk2 _ _ Hl').
      * intros Hnl. apply Hb in Hnl. apply fmap_Some in Hnl as (l & Hl' & ->). by rewrite (Hlk2 _ _ Hl').
Qed.

(** Locks after a transition of [id]: a terminal stage releases its own. *)
Definition locks_after (id : string) (terminal : bool) (locks : gmap string LockRow) :=
  if terminal then filter (fun kv : string * LockRow => lr_operation_id kv.2 <> id) locks else locks.

Lemma locks_after_Some id t locks k l :
  locks_after id t locks !! k = Some l <->
  locks !! k = Some l /\ (t = true -> lr_operation_id l <> id).
Proof.
  unfold locks_after. destruct t; [|naive_solver].
  rewrite map_lookup_filter_Some. simpl. naive_solver.
Qed.

Lemma rows_update_operation db id row row' s' :
  db_rows db -> operations db !! id = Some row -> terminal_value (or_stage row) = false ->
  or_plan_id row' = or_plan_id row -> or_stage row' = stage_storage_value s' ->
  is_some (or_snapshot_relative_path row') = is_some (or_snapshot_digest row') ->
  rows_inv (plans db) (<[id := row']> (operations db)) (idempotency db)
    (locks_after id (is_terminal s') (resource_locks db)).
Proof.
  intros [Hpl Hid Hkd Hops H1 Hlk Hh] Hrow Hnt Hplan Hstage Hsnap.
  destruct (Hops _ _ Hrow) as (Hne & Hpr & _ & _). constructor; try done.
  - intros i r [[<- <-]|[Hn Hl]]%lookup_insert_Some; [|by apply Hops]. rewrite Hplan. by eauto 10.
  - intros i1 i2 r1 r2 [[<- <-]|[Hn1 Hl1]]%lookup_insert_Some [[<- <-]|[Hn2 Hl2]]%lookup_insert_Some Heq;
      [done| eapply H1; [exact Hrow|exact Hl2|congruence] | eapply H1; [exact Hl1|exact Hrow|congruence] |by eapply H1].
  - intros k l [Hl Ht]%locks_after_Some. destruct (Hlk _ _ Hl) as (r & Hr & Hrt).
    destruct (decide (lr_operation_id l = id)) as [Heq|Hn].
    + exists row'. rewrite Heq, lookup_insert_eq, Hstage, terminal_value_stage. split; [done|].
      destruct (is_terminal s'); [by destruct (Ht eq_refl)|done].
    + exists r. by rewrite lookup_insert_ne.
  - intros i r p Hi Hrt Hp Hok.
    assert (exists r0, operations db !! i = Some r0 /\ terminal_value (or_stage r0) = false /\
              or_plan_id r0 = or_plan_id r /\ (is_terminal s' = true -> i <> id)) as (r0 & Hr0 & Hr0t & Hr0p & Hti).
    { apply lookup_insert_Some in Hi as [[<- <-]|[Hn Hl]]; [|by exists r].
      exists row. rewrite Hstage, terminal_value_stage in Hrt. split_and!; congruence. }
    rewrite <- Hr0p in Hp. destruct (Hh _ _ _ Hr0 Hr0t Hp Hok) as [Ha Hb].
    assert (forall k, lr_operation_id <$> resource_locks db !! k = Some i ->
              lr_operation_id <$> locks_after id (is_terminal s') (resource_locks db) !! k = Some i) as Hkeep.
    { intros k (l & Hl & ->)%fmap_Some. replace (locks_after _ _ _ !! k) with (Some l); [done|].
      symmetry. apply locks_after_Some. split; [done|]. intros Ht. by apply Hti in Ht. }
    split; [by apply Hkeep|]. intros Hn. by apply Hkeep, Hb.
Qed.

(** ** Preservation by the appended event *)

Lemma events_of_snoc db id rows row :
  events_of (set_events (fun _ => rows ++ [row]) db) id =
  List.filter (fun e => bool_decide (le_operation_id e = id)) rows ++
  (if bool_decide (le_operation_id row = id) then [row] else []).
Proof. unfold events_of. simpl. rewrite List.filter_app. simpl. by destruct (bool_decide _). Qed.

Lemma log_inv_ext db db' :
  ledger_events db' = ledger_events db -> command_evidence db' = command_evidence db ->
  managed_config_diagnostics db' = managed_config_diagnostics db -> log_inv db -> log_inv db'.
Proof.
  intros He Hc Hd [? ? Hev ? ? ?]. constructor; rewrite ?He, ?Hc, ?Hd; try done.
  intros e Hin. specialize (Hev e Hin). unfold load_event_evidence in *. by rewrite Hc, Hd.
Qed.

Lemma log_inv_append db ev s db' :
  log_inv db -> append_event db ev = Ok (s, db') -> log_inv db'.
Proof.
  intros Hinv Ha. destruct (append_event_ok _ _ _ _ Hinv Ha) as (row & -> & Hs & Hb & Hl & Hrow).
  destruct Hinv as [Hc Hbd Hev Hcm Hdg Hsg].
  constructor; simpl; rewrite ?length_app; simpl.
  - apply chained_snoc. split; [done|]. by replace (1 + Z.of_nat (length (ledger_events db))) with s by lia.
  - lia.
  - intros e [He|He%list_elem_of_singleton]%elem_of_app; [by apply Hev|]. subst e.
    unfold load_event_evidence. simpl. destruct Hl as (Hseq & _ & _). rewrite Hseq.
    destruct (managed_config_diagnostics db !! s) eqn:Ed; [apply Hdg in Ed; lia|].
    destruct (command_evidence db !! s) eqn:Ec; [apply Hcm in Ec; lia|]. done.
  - intros k c Hk. apply Hcm in Hk. lia.
  - intros k c Hk. apply Hdg in Hk. lia.
  - intros e [He|He%list_elem_of_singleton]%elem_of_app; [by apply Hsg|]. subst e.
    rewrite Hrow. by eexists.
Qed.

(** The log keeps agreeing with the stage column when the appended event
    carries the stage the transaction gave its operation. *)
Lemma log_agrees_append db ev s db' :
  log_inv db -> append_event db ev = Ok (s, db') ->
  (forall id row, operations db !! id = Some row ->
     if bool_decide (ei_operation_id ev = id)
     then or_stage row = stage_storage_value (ei_stage ev)
     else le_stage <$> last (events_of db id) = Some (or_stage row)) ->
  log_agrees db'.
Proof.
  intros Hinv Ha Hag. destruct (append_event_ok _ _ _ _ Hinv Ha) as (row & -> & _ & _ & _ & Hrow).
  intros id r Hr. simpl in Hr. specialize (Hag _ _ Hr). rewrite events_of_snoc.
  assert (le_operation_id row = ei_operation_id ev) as -> by (rewrite Hrow; done).
  case_bool_decide.
  - rewrite last_snoc. simpl. rewrite Hrow, Hag. done.
  - by rewrite app_nil_r.
Qed.

Lemma log_agrees_ext db db' :
  ledger_events db' = ledger_events db -> operations db' = operations db ->
  log_agrees db -> log_agrees db'.
Proof. intros He Ho Hag id row. unfold events_of. rewrite He, Ho. apply Hag. Qed.

(** ** Evidence *)

(** The rows a caller may attach: what [prepare_diagnostics] and
    [prepare_command_evidence] produce for the event's digest. *)
Definition evidence_wf (digest : string) (diagnostics : option StoredDiagnostics)
    (command : option string) : Prop :=
  exists base,
    match diagnostics with
    | None => base = digest
    | Some d => exists ds, prepare_diagnostics base ds = Ok (d, digest)
    end /\
    match command with
    | None => True
    | Some json => exists c, prepare_command_evidence c base = Ok json
    end.

Lemma format_digest_valid s : String.length s = 32%nat -> validate_digest (format_sha256 s) = Ok tt.
Proof.
  intros Hl. unfold validate_digest, format_sha256, sha256_from_raw.
  rewrite (proj2 (strip_prefix_Some "sha256:" _ (hex_of_bytes s)) eq_refl), hex_of_bytes_lower.
  rewrite slen_app. unfold slen at 2. by rewrite hex_of_bytes_length, Hl.
Qed.

Lemma sha256_digest_valid b : validate_digest (sha256_digest b) = Ok tt.
Proof. apply format_digest_valid, sha256_length. Qed.

Lemma prepare_diagnostics_load base ds d digest :
  prepare_diagnostics base ds = Ok (d, digest) ->
  sd_validator_evidence_digest d = base /\
  load_diagnostics (Some {| dr_diagnostics_json := sd_json d; dr_diagnostics_digest := sd_digest d;
                            dr_validator_evidence_digest := sd_validator_evidence_digest d |}) digest
  = Ok ds.
Proof.
  unfold prepare_diagnostics. intros Hp. break_in Hp. bool_prop. split; [done|].
  unfold load_diagnostics. simpl. rewrite sha256_digest_valid, bool_decide_eq_true_2 by done. simpl.
  rename select (is_err _ = false) into Hv. rewrite Hv. simpl. rewrite from_to_json. simpl.
  rename select (diagnostics_bounded _ = _) into Hb. rewrite Hb.
  by rewrite bool_decide_eq_true_2.
Qed.

Lemma prepare_command_load c base json digest v :
  prepare_command_evidence c base = Ok json -> default digest v = base ->
  load_command_evidence (Some json) digest v = Ok (Some c).
Proof.
  unfold prepare_command_evidence, load_command_evidence. intros Hp Hb. break_in Hp. bool_prop.
  rewrite from_to_json. simpl. rename select (is_err _ = false) into Hv. rewrite Hv.
  by rewrite bool_decide_eq_true_2.
Qed.

Definition diag_row (d : StoredDiagnostics) : DiagRow :=
  {| dr_diagnostics_json := sd_json d; dr_diagnostics_digest := sd_digest d;
     dr_validator_evidence_digest := sd_validator_evidence_digest d |}.

(** Attaching prepared evidence to the last event keeps the log readable. *)
Lemma log_inv_attach db row digest diagnostics command diag' cmd' :
  log_inv db -> last (ledger_events db) = Some row -> le_evidence_digest row = digest ->
  evidence_wf digest diagnostics command ->
  managed_config_diagnostics db !! le_sequence row = None ->
  command_evidence db !! le_sequence row = None ->
  diag' = match diagnostics with
          | Some d => <[le_sequence row := diag_row d]> (managed_config_diagnostics db)
          | None => managed_config_diagnostics db
          end ->
  cmd' = match command with
         | Some json => <[le_sequence row := json]> (command_evidence db)
         | None => command_evidence db
         end ->
  log_inv (set_commands (fun _ => cmd') (set_diagnostics (fun _ => diag') db)).
Proof.
  intros [Hc Hb Hev Hcm Hdg Hsg] Hlast Hdig (base & Hd & Hcmd) Hnd Hnc -> ->.
  pose proof (chained_last_sequence _ _ _ Hc Hlast) as Hseq.
  constructor; simpl; try done.
  - intros e He. destruct (decide (le_sequence e = le_sequence row)) as [Heq|Hne].
    + unfold load_event_evidence. simpl. rewrite Heq.
      assert (e = row) as ->.
      { apply list_elem_of_lookup in He as [i Hi]. rewrite last_lookup in Hlast.
        pose proof (chained_lookup _ _ _ _ _ Hc Hi). pose proof (chained_lookup _ _ _ _ _ Hc Hlast).
        assert (i = Nat.pred (length (ledger_events db))) as -> by lia. congruence. }
      destruct diagnostics as [d|].
      * rewrite lookup_insert_eq. destruct Hd as [ds Hd].
        destruct (prepare_diagnostics_load _ _ _ _ Hd) as [Hbase Hload].
        rewrite Hdig. fold (diag_row d) in Hload. destruct command as [json|].
        -- rewrite lookup_insert_eq. destruct Hcmd as [c Hcmd].
           rewrite (prepare_command_load _ _ _ _ _ Hcmd) by done. by rewrite Hload.
        -- rewrite Hnc. cbn [load_command_evidence]. by rewrite Hload.
      * rewrite Hnd. destruct command as [json|]; [|by rewrite Hnc].
        rewrite lookup_insert_eq. destruct Hcmd as [c Hcmd].
        by rewrite (prepare_command_load _ _ _ _ _ Hcmd) by (simpl; congruence).
    + specialize (Hev e He). unfold load_event_evidence in *. simpl.
      destruct diagnostics, command; rewrite ?lookup_insert_ne by done; done.
  - intros k c. destruct command; [|by apply Hcm].
    intros [[<- _]|[_ Hk]]%lookup_insert_Some; [lia|by eapply Hcm].
  - intros k c. destruct diagnostics; [|by apply Hdg].
    intros [[<- _]|[_ Hk]]%lookup_insert_Some; [lia|by eapply Hdg].
Qed.

(** ** Transactions *)

Definition db_inv (db : Db) : Prop := log_inv db /\ db_rows db /\ log_agrees db.

(** What a transaction does to the log: nothing, or one more row and the
    checkpoint mark the row calls for. *)
Definition tx_shape (db db' : Db) : Prop :=
  db' = db \/
  exists row, ledger_events db' = ledger_events db ++ [row] /\
    metadata db' = (if terminal_value (le_stage row) || (Z.rem (le_sequence row) 128 =? 0)
                    then <[CHECKPOINT_PENDING_KEY := le_sequence row]> (metadata db)
                    else metadata db).

Inductive ledger_tx : Db -> Db -> Prop :=
  | tx_plan plan r db db' :
      plan_ok plan -> create_or_reuse_plan_tx plan db = Ok (r, db') -> ledger_tx db db'
  | tx_begin id plan_id hash key actor now r db db' :
      id <> EmptyString ->
      begin_operation_tx id plan_id hash key actor now db = Ok (r, db') -> ledger_tx db db'
  | tx_attach id snapshot now db db' :
      attach_snapshot_tx id snapshot now db = Ok (tt, db') -> ledger_tx db db'
  | tx_transition id change diagnostics command db db' :
      (forall s, s ∈ t_expected change -> is_terminal s = false) ->
      evidence_wf (t_evidence_digest change) diagnostics command ->
      transition_tx id change diagnostics command db = Ok (tt, db') -> ledger_tx db db'.

Lemma mark_shape db s row db0 t :
  ledger_events db = ledger_events db0 ++ [row] -> metadata db = metadata db0 ->
  le_sequence row = s -> terminal_value (le_stage row) = t ->
  tx_shape db0 (mark_checkpoint_if_needed db s t).
Proof.
  intros He Hm <- <-. right. exists row. unfold mark_checkpoint_if_needed.
  destruct (_ || _); simpl; rewrite ?Hm; done.
Qed.

Lemma db_inv_mark db s t : db_inv db -> db_inv (mark_checkpoint_if_needed db s t).
Proof.
  intros (Hl & Hr & Ha). unfold mark_checkpoint_if_needed. destruct (_ || _); [|done].
  split_and!; [by eapply (log_inv_ext db)|done|by eapply (log_agrees_ext db)].
Qed.

(** One appended event on top of a change of the row tables. *)
Lemma tx_append db0 db ev s db' :
  log_inv db0 -> ledger_events db = ledger_events db0 -> metadata db = metadata db0 ->
  command_evidence db = command_evidence db0 ->
  managed_config_diagnostics db = managed_config_diagnostics db0 ->
  db_rows db ->
  (forall id row, operations db !! id = Some row ->
     if bool_decide (ei_operation_id ev = id)
     then or_stage row = stage_storage_value (ei_stage ev)
     else le_stage <$> last (events_of db0 id) = Some (or_stage row)) ->
  append_event db ev = Ok (s, db') ->
  db_inv db' /\
  tx_shape db0 (mark_checkpoint_if_needed db' s (is_terminal (ei_stage ev))).
Proof.
  intros Hlog He Hm Hc Hd Hr Hag Ha.
  assert (log_inv db) as Hlog' by (by eapply (log_inv_ext db0)).
  pose proof (append_event_ok _ _ _ _ Hlog' Ha) as (row & Hdb' & Hs & _ & (Hseq & _) & Hrow).
  split; [split_and!|].
  - by eapply log_inv_append.
  - rewrite Hdb'. exact Hr.
  - eapply log_agrees_append; [exact Hlog'|exact Ha|]. unfold events_of in *. by rewrite He.
  - eapply mark_shape with (row := row); rewrite ?Hdb'; simpl; [by rewrite He|done|done|].
    rewrite Hrow. simpl. apply terminal_value_stage.
Qed.

Lemma create_tx_inv plan r db db' :
  db_inv db -> plan_ok plan -> create_or_reuse_plan_tx plan db = Ok (r, db') ->
  db_inv db' /\ tx_shape db db'.
Proof.
  intros Hinv Hok Htx. pose proof Hinv as (Hlog & Hr & Hag).
  unfold create_or_reuse_plan_tx in Htx.
  destruct (idempotency db !! _) as [ex|] eqn:Hkey.
  { break_in Htx. split; [done|by left]. }
  destruct (plan_unique _ _) eqn:Hu; [|done]. unfold ok_or in Htx.
  destruct (insert_row (p_plan_id plan) _ _) as [pl|] eqn:Hpl; [|done].
  apply insert_row_Some in Hpl as [Hfresh ->]. cbn [set_plans idempotency] in Htx.
  destruct (insert_row (p_idempotency_key plan) _ _) as [idem|] eqn:Hidem; [|done].
  apply insert_row_Some in Hidem as [_ ->].
  destruct (append_event _ _) as [[s db1]|] eqn:Ha; [|done]. injection Htx as <- <-.
  eapply (tx_append db) in Ha as [Hinv' Hshape]; try done.
  - split; [by apply db_inv_mark|exact Hshape].
  - exact (rows_insert_plan _ _ Hr Hok Hu Hfresh Hkey).
  - cbn. intros id row Hrow. rewrite bool_decide_eq_false_2; [by apply Hag|].
    intros <-. by destruct (ri_ops _ _ _ _ Hr _ _ Hrow).
Qed.

(** The row and the tables an approval writes before its event. *)
Definition begin_row (plan_id : string) (plan : StoredPlan) (now : Z) : OpRow :=
  {| or_plan_id := plan_id; or_stage := stage_storage_value Approved;
     or_before_digest := plan_before_digest plan; or_after_digest := plan_before_digest plan;
     or_rollback_result := None; or_snapshot_relative_path := None; or_snapshot_digest := None;
     or_created_at_ms := now; or_updated_at_ms := now |}.

Definition begin_locks (id : string) (plan : StoredPlan) (now : Z) (locks : gmap string LockRow) :=
  if needs_reload_lock plan
  then lock_insert "nginx/reload" id now (lock_insert (p_resource_key plan) id now locks)
  else lock_insert (p_resource_key plan) id now locks.

Definition begin_db (id plan_id key : string) (plan : StoredPlan) (now : Z) (db : Db) : Db :=
  set_idempotency (alter (fun r => {| ir_request_digest := ir_request_digest r;
                                      ir_plan_id := ir_plan_id r; ir_operation_id := Some id |}) key)
    (set_locks (fun _ => begin_locks id plan now (resource_locks db))
       (set_operations (fun _ => <[id := begin_row plan_id plan now]> (operations db)) db)).

(** An approval in one equation: the guards, then either the operation that
    already exists or the new rows. *)
Lemma begin_tx_ok id plan_id hash key actor now r db db' :
  begin_operation_tx id plan_id hash key actor now db = Ok (r, db') ->
  exists plan, load_plan_from db plan_id = Ok plan /\
    p_plan_hash plan = hash /\ p_idempotency_key plan = key /\ p_actor plan = actor /\
    now < p_expires_at_ms plan /\
    ((exists ex op, operation_of_plan db plan_id = Some ex /\ load_operation_from db ex = Ok op /\
        r = Some op /\ db' = db) \/
     (operation_of_plan db plan_id = None /\ r = None /\ operations db !! id = None /\
      resource_locks db !! p_resource_key plan = None /\
      (needs_reload_lock plan = true ->
         lock_insert (p_resource_key plan) id now (resource_locks db) !! "nginx/reload" = None) /\
      exists s db1,
        append_event (begin_db id plan_id key plan now db)
          {| ei_operation_id := id; ei_plan_id := plan_id; ei_stage := Approved;
             ei_result_code := "approved"; ei_recorded_at_ms := now; ei_evidence_digest := hash |}
        = Ok (s, db1) /\ db' = mark_checkpoint_if_needed db1 s false)).
Proof.
  intros Htx. unfold begin_operation_tx in Htx.
  destruct (load_plan_from db plan_id) as [plan|] eqn:Hp; [|done].
  destruct (_ || _) eqn:Hg; [done|]. destruct (_ <=? _) eqn:Hexp; [done|]. bool_prop.
  exists plan. split_and!; try done.
  destruct (operation_of_plan db plan_id) as [ex|] eqn:Hop.
  { left. destruct (load_operation_from db ex) as [op|] eqn:Hl; [|done]. simplify_eq. by eauto 10. }
  right. unfold ok_or in Htx. destruct (insert_row id _ _) as [ops|] eqn:Hops; [|done].
  apply insert_row_Some in Hops as [Hfresh ->].
  unfold insert_lock, ok_or in Htx. db_simpl in Htx.
  destruct (insert_row (p_resource_key plan) _ _) as [locks|] eqn:Hl1; [|done].
  apply insert_row_Some in Hl1 as [Hfree ->]. db_simpl in Htx.
  assert (needs_reload_lock plan = true ->
          lock_insert (p_resource_key plan) id now (resource_locks db) !! "nginx/reload" = None) as Hf2.
  { intros En. rewrite En in Htx. destruct (insert_row "nginx/reload" _ _) eqn:Hi; [|done].
    by apply insert_row_Some in Hi as [? _]. }
  unfold begin_db, begin_locks. destruct (needs_reload_lock plan) eqn:En.
  - destruct (insert_row "nginx/reload" _ _) as [l2|] eqn:Hi; [|done].
    apply insert_row_Some in Hi as [_ ->].
    destruct (append_event _ _) as [[s db1]|] eqn:Ha; [|done]. injection Htx as <- <-. by eauto 10.
  - destruct (append_event _ _) as [[s db1]|] eqn:Ha; [|done]. injection Htx as <- <-. by eauto 10.
Qed.

Lemma begin_tx_inv id plan_id hash key actor now r db db' :
  db_inv db -> id <> EmptyString ->
  begin_operation_tx id plan_id hash key actor now db = Ok (r, db') ->
  db_inv db' /\ tx_shape db db'.
Proof.
  intros Hinv Hne Htx. pose proof Hinv as (Hlog & Hr & Hag).
  apply begin_tx_ok in Htx as (plan & Hp & _ & _ & _ & _ & [(ex & op & _ & _ & _ & ->)|
    (Hop & _ & Hfresh & Hfree & Hfree2 & s & db1 & Ha & ->)]); [split; [done|by left]|].
  destruct (load_plan_from_inv _ _ _ Hr Hp) as (Hpl & Hok & Hid).
  eapply (tx_append db) in Ha as [Hinv' Hshape]; try done.
  - split; [by apply db_inv_mark|exact Hshape].
  - unfold db_rows, begin_db. db_simpl. eapply rows_insert_operation with (p := plan); try done.
    + intros i row Hi. by eapply operation_of_plan_None.
    + db_simpl. intros k r'. rewrite lookup_alter_Some.
      intros [(-> & r0 & Hr0 & ->)|[_ Hr0]]; by exists r0 || eauto.
    + db_simpl. intros k r0 Hr0. destruct (decide (k = key)) as [->|Hn].
      * rewrite lookup_alter_eq, Hr0. by eexists.
      * rewrite lookup_alter_ne by done. by eexists.
  - cbn. intros i row [[<- <-]|[Hn Hi]]%lookup_insert_Some.
    + by rewrite bool_decide_eq_true_2.
    + rewrite bool_decide_eq_false_2 by done. by apply Hag.
Qed.

Lemma agrees_update db id row row' stage :
  log_agrees db -> operations db !! id = Some row -> or_stage row' = stage_storage_value stage ->
  forall i r, <[id := row']> (operations db) !! i = Some r ->
    if bool_decide (id = i) then or_stage r = stage_storage_value stage
    else le_stage <$> last (events_of db i) = Some (or_stage r).
Proof.
  intros Hag Hrow Hs i r [[<- <-]|[Hn Hi]]%lookup_insert_Some.
  - by rewrite bool_decide_eq_true_2.
  - rewrite bool_decide_eq_false_2 by done. by apply Hag.
Qed.

Lemma attach_tx_inv id snapshot now db db' :
  db_inv db -> attach_snapshot_tx id snapshot now db = Ok (tt, db') -> db_inv db' /\ tx_shape db db'.
Proof.
  intros Hinv Htx. pose proof Hinv as (Hlog & Hr & Hag). unfold attach_snapshot_tx in Htx.
  destruct (operations db !! id) as [row|] eqn:Hrow; [|done].
  destruct (bool_decide _) eqn:Hst; [|done]. bool_prop.
  set (row' := {| or_plan_id := or_plan_id row |}) in Htx.
  destruct (load_operation_from _ id) as [op|] eqn:Hop; [|done].
  destruct (append_event _ _) as [[s db1]|] eqn:Ha; [|done]. injection Htx as <-.
  eapply (tx_append db) in Ha as [Hinv' Hshape]; try done.
  - split; [by apply db_inv_mark|exact Hshape].
  - exact (rows_update_operation db id row row' Snapshotted Hr Hrow ltac:(by rewrite Hst)
             eq_refl eq_refl eq_refl).
  - exact (agrees_update db id row row' Snapshotted Hag Hrow eq_refl).
Qed.

(** The operation row a transition writes. *)
Definition transition_row (current : StoredOperation) (change : Transition) (row : OpRow) : OpRow :=
  {| or_plan_id := or_plan_id row;
     or_stage := stage_storage_value (t_next change);
     or_before_digest := or_before_digest row;
     or_after_digest := default (o_after_digest current) (t_after_digest change);
     or_rollback_result := match t_rollback_result change with
                           | Some r => Some r
                           | None => o_rollback_result current
                           end;
     or_snapshot_relative_path := or_snapshot_relative_path row;
     or_snapshot_digest := or_snapshot_digest row;
     or_created_at_ms := or_created_at_ms row;
     or_updated_at_ms := t_now_ms change |}.

(** A transition in one equation: guards, then the final tables. *)
Lemma transition_tx_ok id change diagnostics command db db' :
  db_inv db -> transition_tx id change diagnostics command db = Ok (tt, db') ->
  exists current row s db1 diag cmd,
    load_operation_from db id = Ok current /\ o_stage current ∈ t_expected change /\
    (is_some diagnostics = true -> is_managed_config (o_plan current) = true) /\
    operations db !! id = Some row /\
    append_event (set_operations (insert id (transition_row current change row)) db)
      {| ei_operation_id := id; ei_plan_id := p_plan_id (o_plan current);
         ei_stage := t_next change; ei_result_code := t_result_code change;
         ei_recorded_at_ms := t_now_ms change; ei_evidence_digest := t_evidence_digest change |}
    = Ok (s, db1) /\
    diag = match diagnostics with
           | Some d => <[s := diag_row d]> (managed_config_diagnostics db1)
           | None => managed_config_diagnostics db1
           end /\
    cmd = match command with
          | Some json => <[s := json]> (command_evidence db1)
          | None => command_evidence db1
          end /\
    db' = mark_checkpoint_if_needed
            (set_locks (locks_after id (is_terminal (t_next change)))
               (set_commands (fun _ => cmd) (set_diagnostics (fun _ => diag) db1)))
            s (is_terminal (t_next change)).
Proof.
  intros (Hlog & Hr & Hag) Htx. unfold transition_tx in Htx.
  destruct (load_operation_from db id) as [current|] eqn:Hcur; [|done].
  destruct (load_operation_from_inv _ _ _ Hr Hcur) as (row & Hrow & _).
  destruct (_ && _) eqn:Hdm; [done|]. destruct (negb (bool_decide _)) eqn:Hex; [done|]. bool_prop.
  assert (set_operations (alter (transition_row current change) id) db
          = set_operations (insert id (transition_row current change row)) db) as Halter.
  { unfold set_operations. f_equal. apply map_eq. intros k.
    destruct (decide (k = id)) as [->|Hn].
    - by rewrite lookup_alter_eq, Hrow, lookup_insert_eq.
    - by rewrite lookup_alter_ne, lookup_insert_ne by done. }
  change (set_operations (alter _ id) db) with
    (set_operations (alter (transition_row current change) id) db) in Htx. rewrite Halter in Htx.
  destruct (append_event _ _) as [[s db1]|] eqn:Ha; [|done].
  exists current, row, s, db1. eexists _, _.
  split_and!; try done.
  - destruct diagnostics; simpl in *; [|done]. by destruct (is_managed_config _).
  - unfold ok_or in Htx. destruct diagnostics as [d|].
    + destruct (insert_row s _ (managed_config_diagnostics _)) as [diag|] eqn:Hd; [|done].
      apply insert_row_Some in Hd as [_ ->]. db_simpl in Htx. destruct command as [json|].
      * destruct (insert_row s _ (command_evidence _)) as [cmd|] eqn:Hc; [|done].
        apply insert_row_Some in Hc as [_ ->]. injection Htx as <-. by destruct (is_terminal _), db1.
      * injection Htx as <-. by destruct (is_terminal _), db1.
    + destruct command as [json|].
      * destruct (insert_row s _ (command_evidence _)) as [cmd|] eqn:Hc; [|done].
        apply insert_row_Some in Hc as [_ ->]. injection Htx as <-. by destruct (is_terminal _), db1.
      * injection Htx as <-. by destruct (is_terminal _), db1.
Qed.

Lemma transition_tx_inv id change diagnostics command db db' :
  db_inv db -> (forall s, s ∈ t_expected change -> is_terminal s = false) ->
  evidence_wf (t_evidence_digest change) diagnostics command ->
  transition_tx id change diagnostics command db = Ok (tt, db') ->
  db_inv db' /\ tx_shape db db'.
Proof.
  intros Hinv Hexp Hwf Htx. pose proof Hinv as (Hlog & Hr & Hag).
  destruct (transition_tx_ok _ _ _ _ _ _ Hinv Htx)
    as (current & row & s & db1 & diag & cmd & Hcur & Hin & _ & Hrow & Ha & Hd & Hc & ->).
  destruct (load_operation_from_inv _ _ _ Hr Hcur) as (row0 & Hrow0 & _ & _ & _ & _ & Hst).
  assert (row0 = row) as -> by congruence.
  assert (terminal_value (or_stage row) = false) as Hnt
    by (rewrite Hst, terminal_value_stage; by apply Hexp).
  destruct (ri_ops _ _ _ _ Hr _ _ Hrow) as (_ & _ & _ & Hsnap).
  set (db0 := set_operations _ db) in *.
  assert (log_inv db0) as Hlog0 by (by eapply (log_inv_ext db)).
  destruct (append_event_ok _ _ _ _ Hlog0 Ha) as (erow & Hdb1 & Hs & _ & (Hseq & _) & Herow).
  pose proof (log_inv_append _ _ _ _ Hlog0 Ha) as Hlog1.
  assert (last (ledger_events db1) = Some erow) as Hlast by (rewrite Hdb1; apply last_snoc).
  split.
  - apply db_inv_mark. split_and!.
    + eapply (log_inv_ext (set_commands (fun _ => cmd) (set_diagnostics (fun _ => diag) db1))); try done.
      eapply (log_inv_attach db1 erow); try done; rewrite ?Hseq; try done.
      * by rewrite Herow.
      * rewrite Hdb1. simpl. destruct (managed_config_diagnostics db !! s) eqn:E; [|done].
        apply (log_diagnostics _ Hlog) in E. change (ledger_events db0) with (ledger_events db) in Hs. lia.
      * rewrite Hdb1. simpl. destruct (command_evidence db !! s) eqn:E; [|done].
        apply (log_commands _ Hlog) in E. change (ledger_events db0) with (ledger_events db) in Hs. lia.
    + rewrite Hdb1. exact (rows_update_operation db id row (transition_row current change row) (t_next change) Hr Hrow Hnt eq_refl eq_refl Hsnap).
    + eapply (log_agrees_ext db1); try done. eapply log_agrees_append; [exact Hlog0|exact Ha|].
      exact (agrees_update db id row (transition_row current change row) (t_next change) Hag Hrow eq_refl).
  - eapply mark_shape with (row := erow); [by rewrite Hdb1|by rewrite Hdb1|done|].
    rewrite Herow. simpl. apply terminal_value_stage.
Qed.

(** Every transaction preserves the invariant of the tables. *)
Lemma ledger_tx_inv db db' : db_inv db -> ledger_tx db db' -> db_inv db' /\ tx_shape db db'.
Proof.
  intros Hinv Htx. destruct Htx.
  - eapply create_tx_inv; eassumption.
  - eapply begin_tx_inv; eassumption.
  - eapply attach_tx_inv; eassumption.
  - eapply transition_tx_inv; eassumption.
Qed.

Lemma db_inv_empty : db_inv empty_db.
Proof.
  split_and!; [constructor|constructor|]; simpl; try done; unfold i64_max; try lia.
  by intros e He%elem_of_nil.
Qed.
End Inv.
