(* ===== verification/LedgerStore.v ===== *)
(** * jw-opsd: the ledger on disk

    Commits, checkpoint writes and restarts as steps of a transition system
    ([store_step]); the invariant that makes [Ledger::open] succeed after any
    interleaving of them, including a crash between a commit and its
    checkpoint; what the checkpoint file pins down. *)

From Stdlib Require Import Ascii String.
From S2P Require Import Prelude Crypto Contracts Plans Adapters Ledger LedgerLog LedgerInv.

Section Store.
Context `{Externals}.

(** ** The sequence a checkpoint must cover *)

Definition required (events : list EventRow) : Z :=
  checkpoint_required events (Z.of_nat (length events)).

Lemma terminal_sequence_snoc events row :
  terminal_sequence (events ++ [row]) =
  if terminal_value (le_stage row)
  then Some (match terminal_sequence events with
             | Some m => Z.max m (le_sequence row)
             | None => le_sequence row
             end)
  else terminal_sequence events.
Proof. unfold terminal_sequence. by rewrite fold_left_app. Qed.

Lemma terminal_sequence_range prev events m :
  chained 1 prev events -> terminal_sequence events = Some m -> 1 <= m <= Z.of_nat (length events).
Proof.
  revert m. induction events as [|row events IH] using rev_ind; intros m Hc Hm; [done|].
  rewrite terminal_sequence_snoc in Hm. rewrite length_app. simpl.
  apply chained_snoc in Hc as [Hc (Hs & _ & _)].
  destruct (terminal_value _); [|apply IH in Hm; [lia|done]].
  destruct (terminal_sequence events) as [m'|] eqn:E; simplify_eq; [|lia].
  specialize (IH m' Hc eq_refl). lia.
Qed.

Lemma sat_sub_mod n : 0 <= n <= i64_max -> sat_sub n (n mod 128) = n - n mod 128.
Proof.
  intros Hn. unfold sat_sub. apply clamp_id. unfold in_i64, i64_min, i64_max in *.
  pose proof (Z.mod_pos_bound n 128 ltac:(lia)).
  pose proof (Z.mod_le n 128 ltac:(lia) ltac:(lia)). lia.
Qed.

Lemma required_le prev events :
  chained 1 prev events -> Z.of_nat (length events) <= i64_max ->
  0 <= required events <= Z.of_nat (length events).
Proof.
  intros Hc Hb. unfold required, checkpoint_required. rewrite sat_sub_mod by lia.
  pose proof (Z.mod_pos_bound (Z.of_nat (length events)) 128 ltac:(lia)).
  pose proof (Z.mod_le (Z.of_nat (length events)) 128 ltac:(lia) ltac:(lia)).
  destruct (terminal_sequence events) as [m|] eqn:E; simpl; [|lia].
  pose proof (terminal_sequence_range _ _ _ Hc E). lia.
Qed.

Lemma periodic_step n :
  0 <= n -> (n + 1) mod 128 <> 0 -> n + 1 - (n + 1) mod 128 = n - n mod 128.
Proof.
  intros Hn Hm. pose proof (Z.div_mod n 128 ltac:(lia)). pose proof (Z.mod_pos_bound n 128 ltac:(lia)).
  pose proof (Z.div_mod (n + 1) 128 ltac:(lia)). pose proof (Z.mod_pos_bound (n + 1) 128 ltac:(lia)).
  assert ((n + 1) / 128 = n / 128) by nia. lia.
Qed.

(** A row that calls for no checkpoint leaves the required sequence alone. *)
Lemma required_snoc events row :
  chained 1 GENESIS_DIGEST (events ++ [row]) -> Z.of_nat (length (events ++ [row])) <= i64_max ->
  terminal_value (le_stage row) || (Z.rem (le_sequence row) 128 =? 0) = false ->
  required (events ++ [row]) = required events.
Proof.
  intros Hc Hb Hno. apply orb_false_iff in Hno as [Ht Hrem].
  apply chained_snoc in Hc as [Hc (Hs & _ & _)]. rewrite length_app in Hb. simpl in Hb.
  unfold required, checkpoint_required. rewrite terminal_sequence_snoc, Ht, length_app. simpl.
  replace (Z.of_nat (length events + 1)) with (Z.of_nat (length events) + 1) by lia.
  rewrite !sat_sub_mod by lia. rewrite periodic_step; [done|lia|].
  rewrite Hs in Hrem. apply Z.eqb_neq in Hrem.
  rewrite Z.rem_mod_nonneg in Hrem by lia. by rewrite Z.add_comm.
Qed.

(** ** Invariant *)

Definition private_meta (m : FileMeta) : Prop :=
  fm_is_file m = true /\ fm_is_symlink m = false /\ fm_nlink m = 1.

Definition checkpoint_wf (st : Store) (m : FileMeta) (bytes : string) (c : Checkpoint) : Prop :=
  private_meta m /\ (st_enforce_root_ownership st = true -> fm_uid m = 0) /\
  bytes = to_json c /\ cp_schema_version c = 1 /\
  digest_at (ledger_events (st_db st)) (cp_sequence c) = Some (cp_event_digest c).

(** The sequence the checkpoint file vouches for; 0 without a file. *)
Definition checkpoint_covers (st : Store) (n : Z) : Prop :=
  match st_checkpoint st with
  | None => n = 0
  | Some (m, bytes) => exists c, checkpoint_wf st m bytes c /\ n = cp_sequence c
  end.

Definition pending (db : Db) : option Z := metadata db !! CHECKPOINT_PENDING_KEY.

Record store_inv (st : Store) : Prop := {
  si_db : db_inv (st_db st);
  si_owner : st_enforce_root_ownership st = true -> st_euid st = 0;
  si_pending : forall s, pending (st_db st) = Some s ->
                 1 <= s <= Z.of_nat (length (ledger_events (st_db st)));
  si_checkpoint : exists n, checkpoint_covers st n /\
    (required (ledger_events (st_db st)) <= n \/
     exists s, pending (st_db st) = Some s /\ required (ledger_events (st_db st)) <= s);
}.

Lemma si_rows st : store_inv st -> db_rows (st_db st).
Proof. intros Hinv. apply (si_db _ Hinv). Qed.

Lemma si_log st : store_inv st -> log_inv (st_db st).
Proof. intros Hinv. apply (si_db _ Hinv). Qed.

(** ** Steps: commits, checkpoint writes, the environment *)

(** [write_checkpoint] of the current head, without the clearing statement
    that follows it: the state a crash between the two leaves. *)
Definition write_head_checkpoint (st : Store) : Store :=
  match last (ledger_events (st_db st)) with
  | Some e => (write_checkpoint {| cp_schema_version := 1; cp_sequence := le_sequence e;
                                   cp_event_digest := le_event_digest e |} st).2
  | None => st
  end.

(** The steps of a store.  [transition] of ledger.rs accepts any list of
    expected stages; the steps are those of the transitions that expect no
    terminal stage ([tx_transition]), which are the ones the engine makes: its
    requests are proved to move the ledger by these steps only
    (EngineSteps.v). *)
Inductive store_step : Store -> Store -> Prop :=
  | step_commit st db' : ledger_tx (st_db st) db' -> store_step st (set_db db' st)
  | step_complete st : store_step st (complete_pending_checkpoint st).2
  | step_crash_in_checkpoint st : store_step st (write_head_checkpoint st)
  | step_env st st' :
      (* anything outside the tables and the checkpoint file: I/O outages, file
         creation and schema migration during [open] *)
      st_db st' = st_db st -> st_checkpoint st' = st_checkpoint st -> st_euid st' = st_euid st ->
      st_enforce_root_ownership st' = st_enforce_root_ownership st -> store_step st st'.

Lemma set_io_step b st : store_step st (set_io b st).
Proof. by apply step_env. Qed.

Lemma digest_at_snoc events row s d :
  digest_at events s = Some d -> digest_at (events ++ [row]) s = Some d.
Proof.
  unfold digest_at. intros (e & He & ->)%fmap_Some. induction events as [|x events IH]; [done|].
  simpl in *. destruct (_ =? _); [by simplify_eq|by apply IH].
Qed.

Lemma digest_at_head db e :
  log_inv db -> last (ledger_events db) = Some e ->
  digest_at (ledger_events db) (le_sequence e) = Some (le_event_digest e).
Proof.
  intros Hl He. unfold digest_at. pose proof (log_chained _ Hl) as Hc.
  rewrite last_lookup in He. pose proof (chained_find _ _ _ _ _ Hc He) as Hf.
  by rewrite (chained_lookup _ _ _ _ _ Hc He), Hf.
Qed.

Lemma checkpoint_wf_grow st db' m bytes c row :
  ledger_events db' = ledger_events (st_db st) ++ [row] ->
  checkpoint_wf st m bytes c -> checkpoint_wf (set_db db' st) m bytes c.
Proof.
  intros He (? & ? & ? & ? & Hd). unfold checkpoint_wf. simpl. rewrite He.
  split_and!; try done. by apply digest_at_snoc.
Qed.

Lemma commit_inv st db' : store_inv st -> ledger_tx (st_db st) db' -> store_inv (set_db db' st).
Proof.
  intros [Hdb Ho Hp (n & Hn & Hreq)] Htx.
  destruct (ledger_tx_inv _ _ Hdb Htx) as [Hdb' [->|(row & He & Hm)]].
  { replace (set_db (st_db st) st) with st by (by destruct st). by constructor; eauto. }
  destruct Hdb' as (Hlog & Hrest). pose proof (log_chained _ Hlog) as Hc.
  pose proof (log_bounded _ Hlog) as Hb. rewrite He in Hc, Hb.
  pose proof (proj1 (chained_snoc _ _ _ _) Hc) as [Hc0 (Hs & _ & _)].
  assert (length (ledger_events db') = S (length (ledger_events (st_db st)))) as Hlen
    by (rewrite He, length_app; simpl; lia).
  assert (checkpoint_covers (set_db db' st) n) as Hn'.
  { unfold checkpoint_covers in *. simpl. destruct (st_checkpoint st) as [[m b]|]; [|done].
    destruct Hn as (c & Hc' & ->). exists c. split; [by eapply checkpoint_wf_grow|done]. }
  unfold pending in *. constructor; simpl.
  - by split.
  - done.
  - intros s. unfold pending. rewrite Hm, Hlen. destruct (_ || _).
    + rewrite lookup_insert_eq. intros [= <-]. lia.
    + intros Hs'. apply Hp in Hs'. lia.
  - exists n. split; [done|]. unfold pending. rewrite Hm. destruct (_ || _) eqn:Eneed.
    + right. exists (le_sequence row). rewrite lookup_insert_eq. split; [done|].
      rewrite He, Hs. pose proof (required_le _ _ Hc Hb) as Hle. rewrite length_app in Hle. simpl in Hle. lia.
    + rewrite He, required_snoc by done. done.
Qed.

Lemma write_checkpoint_shape c st :
  (write_checkpoint c st).2 = st \/
  (write_checkpoint c st).2 = set_checkpoint (Some (own_file st, to_json c)) st.
Proof. unfold write_checkpoint. destruct (validate_private_file _ _ _); [|by left]. destruct (st_io_ok st); auto. Qed.

(** Writing the head's checkpoint covers whatever is required. *)
Lemma write_head_inv st e :
  store_inv st -> last (ledger_events (st_db st)) = Some e ->
  store_inv (write_checkpoint {| cp_schema_version := 1; cp_sequence := le_sequence e;
                                 cp_event_digest := le_event_digest e |} st).2.
Proof.
  intros Hinv He. destruct (write_checkpoint_shape {| cp_schema_version := 1;
    cp_sequence := le_sequence e; cp_event_digest := le_event_digest e |} st) as [->| ->]; [done|].
  destruct Hinv as [Hdb Ho Hp _]. pose proof Hdb as (Hlog & _). constructor; try done.
  exists (le_sequence e). split.
  - exists {| cp_schema_version := 1; cp_sequence := le_sequence e; cp_event_digest := le_event_digest e |}.
    split; [|done].
    split_and!; try done. simpl. by apply digest_at_head.
  - left. simpl. rewrite (chained_last_sequence _ _ _ (log_chained _ Hlog) He).
    apply (required_le GENESIS_DIGEST); [apply Hlog|apply Hlog].
Qed.

Lemma complete_inv st : store_inv st -> store_inv (complete_pending_checkpoint st).2.
Proof.
  intros Hinv. unfold complete_pending_checkpoint.
  destruct (metadata (st_db st) !! CHECKPOINT_PENDING_KEY) as [req|] eqn:Hpend; [|done].
  destruct (last (ledger_events (st_db st))) as [e|] eqn:He; [|done].
  destruct (_ <? _); [done|].
  set (c := {| cp_schema_version := 1 |}). pose proof (write_head_inv st e Hinv He) as Hw. fold c in Hw.
  destruct (write_checkpoint c st) as [[[]|err] st'] eqn:Ew; [|done]. simpl in *.
  assert (st' = set_checkpoint (Some (own_file st, to_json c)) st) as ->.
  { unfold write_checkpoint in Ew. break_in Ew. }
  unfold clear_completed_checkpoint. simpl. rewrite Hpend, Z.eqb_refl.
  destruct Hw as [(Hlog & Hr & Ha) Ho Hp _]. simpl in *. constructor; simpl.
  - split_and!; [by eapply (log_inv_ext (st_db st))|done|by eapply (log_agrees_ext (st_db st))].
  - done.
  - intros s. unfold pending. simpl. by rewrite lookup_delete_eq.
  - exists (le_sequence e). split.
    + unfold checkpoint_covers. simpl. exists c. split; [|done].
      split_and!; try done. simpl. by apply digest_at_head.
    + left. rewrite (chained_last_sequence _ _ _ (log_chained _ Hlog) He).
      apply (required_le GENESIS_DIGEST); [apply Hlog|apply Hlog].
Qed.

Lemma store_inv_ext st st' :
  st_db st' = st_db st -> st_checkpoint st' = st_checkpoint st -> st_euid st' = st_euid st ->
  st_enforce_root_ownership st' = st_enforce_root_ownership st -> store_inv st -> store_inv st'.
Proof.
  intros Hd Hc Hu He [Hdb Ho Hp Hk]. constructor; rewrite ?Hd, ?Hu, ?He; try done.
  destruct Hk as (n & Hn & Hreq). exists n. split; [|done].
  unfold checkpoint_covers, checkpoint_wf in *. by rewrite Hc, Hd, He.
Qed.

Lemma store_step_inv st st' : store_inv st -> store_step st st' -> store_inv st'.
Proof.
  intros Hinv Hst. destruct Hst.
  - by apply commit_inv.
  - by apply complete_inv.
  - unfold write_head_checkpoint. destruct (last _) eqn:E; [|done]. by apply write_head_inv.
  - by eapply (store_inv_ext st).
Qed.

Lemma store_steps_inv st st' : store_inv st -> rtc store_step st st' -> store_inv st'.
Proof. intros Hinv Hr. induction Hr; eauto using store_step_inv. Qed.

(** ** The checks of [open] *)

Lemma validate_private_ok m enforce missing :
  private_meta m -> (enforce = true -> fm_uid m = 0) ->
  validate_private_file (Some m) enforce missing = Ok tt.
Proof.
  intros (Hf & Hs & Hn) Hu. unfold validate_private_file. rewrite Hf, Hs, Hn. simpl.
  destruct enforce; [|done]. by rewrite Hu.
Qed.

Lemma validate_checkpoint_ok st n :
  store_inv st -> n = Z.of_nat (length (ledger_events (st_db st))) ->
  validate_checkpoint n st = Ok tt.
Proof.
  intros [(Hlog & _) Ho Hp (k & Hk & Hreq)] ->. unfold validate_checkpoint.
  fold (required (ledger_events (st_db st))). fold (pending (st_db st)).
  set (n := Z.of_nat (length (ledger_events (st_db st)))) in *.
  assert (is_some_and (pending (st_db st)) (fun s => (s <=? 0) || (n <? s)) = false) as Hpend.
  { destruct (pending (st_db st)) as [s|] eqn:E; [|done]. specialize (Hp s eq_refl). simpl.
    apply orb_false_iff. split; [apply Z.leb_gt|apply Z.ltb_ge]; lia. }
  rewrite Hpend. pose proof (required_le _ _ (log_chained _ Hlog) (log_bounded _ Hlog)) as [Hr0 _].
  unfold checkpoint_covers in Hk. destruct (st_checkpoint st) as [[m bytes]|].
  - destruct Hk as (c & (Hm & Hu & -> & Hv & Hd) & ->).
    change (fst <$> Some (m, to_json c)) with (Some m). rewrite validate_private_ok by done.
    rewrite from_to_json. simpl. rewrite Hv, Hd, bool_decide_eq_true_2 by done. simpl.
    destruct (digest_at_lookup _ _ _ _ (log_chained _ Hlog) Hd) as (_ & _ & _ & _ & Hrange).
    replace (n <? cp_sequence c) with false by (symmetry; apply Z.ltb_ge; lia). simpl.
    destruct Hreq as [Hle|(s & Hs & Hle)].
    + by replace (cp_sequence c <? required (ledger_events (st_db st))) with false by (symmetry; apply Z.ltb_ge; lia).
    + rewrite Hs. simpl. replace (s <? required (ledger_events (st_db st))) with false by (symmetry; apply Z.ltb_ge; lia).
      by rewrite andb_false_r.
  - destruct Hreq as [Hle|(s & Hs & Hle)].
    + by replace (required (ledger_events (st_db st)) =? 0) with true by (symmetry; apply Z.eqb_eq; lia).
    + rewrite Hs. simpl. replace (required (ledger_events (st_db st)) <=? s) with true by (symmetry; apply Z.leb_le; lia).
      by rewrite orb_true_r.
Qed.

Lemma validate_continuity_ok st :
  store_inv st -> st_integrity st = true ->
  Z.of_nat (length (ledger_events (st_db st))) < i64_max -> validate_continuity st = Ok tt.
Proof.
  intros Hinv Hi Hroom. pose proof (si_db _ Hinv) as (Hlog & _). unfold validate_continuity. rewrite Hi.
  rewrite (continuity_loop_complete (st_db st)); [|apply Hlog|lia|lia|apply Hlog].
  apply validate_checkpoint_ok; [done|]. unfold sat_sub. rewrite clamp_id; [lia|].
  unfold in_i64, i64_min, i64_max in *. lia.
Qed.

(** A healthy machine: writable state directory, private files, a schema
    whose applied batches match its version. *)
Definition owned (st : Store) (u : Z) : Prop := st_enforce_root_ownership st = true -> u = 0.

Definition file_ok (st : Store) (f : option FileMeta) : Prop :=
  match f with None => True | Some m => private_meta m /\ owned st (fm_uid m) end.

Definition all_migrations : list Z := [2; 3; 4; 5; 6; 7; 8].

Definition schema_clean (st : Store) : Prop :=
  0 <= st_user_version st <= 8 /\
  st_migrations st = List.filter (fun n => n <=? st_user_version st) all_migrations.

Record healthy (st : Store) : Prop := {
  h_io : st_io_ok st = true;
  h_integrity : st_integrity st = true;
  h_parent : match st_parent st with
             | None => True
             | Some m => dm_resolves m = true /\ dm_is_dir m = true /\ dm_is_symlink m = false /\
                         owned st (dm_uid m)
             end;
  h_database : file_ok st (st_database_file st);
  h_sidecars : Forall (file_ok st) (st_sidecar_files st);
  h_schema : schema_clean st;
}.

Lemma migrate_ok st : schema_clean st -> migrate st = (Ok tt, set_schema 8 all_migrations st).
Proof.
  intros [Hv Hm]. destruct st as [db v ms ig io eu enf par dbf sc ck]; simpl in *. subst ms.
  assert (v ∈ [0;1;2;3;4;5;6;7;8]) as Hin by (rewrite !elem_of_cons; lia).
  repeat (apply elem_of_cons in Hin as [->|Hin]; [reflexivity|]). by apply elem_of_nil in Hin.
Qed.

Lemma validate_file_ok st f missing :
  file_ok st f -> (missing = false -> is_some f = true) ->
  validate_private_file f (st_enforce_root_ownership st) missing = Ok tt.
Proof.
  intros Hf Hm. destruct f as [m|]; [destruct Hf; by apply validate_private_ok|].
  destruct missing; [done|]. by specialize (Hm eq_refl).
Qed.

Lemma validate_all_ok st fs missing :
  Forall (file_ok st) fs -> (missing = false -> forall f, f ∈ fs -> is_some f = true) ->
  validate_all st missing fs = Ok tt.
Proof.
  intros Hfs Hm. induction Hfs as [|f fs Hf Hfs IH]; [done|]. simpl.
  rewrite validate_file_ok; [apply IH|done|]; intros Hmiss; [|apply Hm; [done|left]].
  intros f' Hf'. apply Hm; [done|by right].
Qed.

Lemma checkpoint_file_ok st : store_inv st -> file_ok st (fst <$> st_checkpoint st).
Proof.
  intros [_ _ _ (n & Hn & _)]. unfold checkpoint_covers in Hn.
  destruct (st_checkpoint st) as [[m b]|]; simpl; [|done].
  destruct Hn as (c & (Hm & Hu & _) & _). by split.
Qed.

Lemma own_dir_ok st : store_inv st -> owned st (st_euid st).
Proof. intros Hinv He. by apply (si_owner _ Hinv). Qed.

Lemma prepare_state_ok st :
  store_inv st -> healthy st ->
  exists parent, prepare_state st = (Ok tt, set_files (Some parent) (st_database_file st) st).
Proof.
  intros Hinv Hh. pose proof Hh as [Hio _ Hpar Hdb Hsc _]. unfold prepare_state.
  assert (exists parent, (match st_parent st with
         | None => if st_io_ok st then Some (own_dir st) else None
         | Some m => if dm_resolves m then Some m else None
         end) = Some parent /\ dm_is_dir parent = true /\ dm_is_symlink parent = false /\
         owned st (dm_uid parent)) as (parent & -> & Hd & Hs & Hu).
  { destruct (st_parent st) as [m|].
    - destruct Hpar as (-> & ? & ? & ?). by eauto.
    - rewrite Hio. eexists. split_and!; [done|done|done|]. by apply own_dir_ok. }
  exists parent. rewrite Hd, Hs. simpl. unfold owned in Hu.
  rewrite (validate_file_ok st (st_database_file st)), (validate_file_ok st (fst <$> st_checkpoint st))
    by (done || by apply checkpoint_file_ok).
  rewrite (validate_all_ok (set_files (Some parent) (st_database_file st) st)) by done.
  rewrite Hio. destruct (st_enforce_root_ownership st); simpl; by rewrite ?Hu.
Qed.

Lemma open_connection_ok st :
  healthy st -> exists f, open_connection st = (Ok tt, set_files (st_parent st) (Some f) st) /\
    (st_database_file st = Some f \/ f = own_file st).
Proof.
  intros Hh. unfold open_connection. rewrite (h_io _ Hh).
  destruct (st_database_file st) as [f|] eqn:E; [|by eauto].
  exists f. split; [|by left]. rewrite <- E. by destruct st.
Qed.

Lemma secure_files_ok st :
  st_io_ok st = true -> is_some (st_database_file st) = true -> file_ok st (st_database_file st) ->
  Forall (file_ok st) (st_sidecar_files st) -> secure_database_files st = (Ok tt, st).
Proof.
  intros Hio Hdb Hf Hsc. unfold secure_database_files. rewrite Hio. simpl.
  rewrite validate_file_ok, validate_all_ok; try done.
  - apply Forall_forall. intros f Hin%list_elem_of_In%filter_In. rewrite Forall_forall in Hsc.
    apply Hsc, list_elem_of_In, Hin.
  - intros _ f Hin%list_elem_of_In%filter_In. apply Hin.
Qed.

Lemma complete_pending_ok st :
  store_inv st -> st_io_ok st = true ->
  exists st', complete_pending_checkpoint st = (Ok tt, st') /\ pending (st_db st') = None /\
    ledger_events (st_db st') = ledger_events (st_db st).
Proof.
  intros Hinv Hio. pose proof (checkpoint_file_ok _ Hinv) as Hck.
  unfold complete_pending_checkpoint, pending.
  destruct (metadata (st_db st) !! CHECKPOINT_PENDING_KEY) as [req|] eqn:Hp; [|by eauto].
  pose proof (si_pending _ Hinv _ Hp) as Hrange. pose proof (si_db _ Hinv) as (Hlog & _).
  destruct (last (ledger_events (st_db st))) as [e|] eqn:He.
  2:{ apply last_None in He. rewrite He in Hrange. simpl in Hrange. lia. }
  rewrite (chained_last_sequence _ _ _ (log_chained _ Hlog) He).
  replace (_ <? req) with false by (symmetry; apply Z.ltb_ge; lia).
  unfold write_checkpoint.
  assert (validate_private_file (fst <$> st_checkpoint st) false true = Ok tt) as ->.
  { destruct (st_checkpoint st) as [[m b]|]; [|done]. by apply validate_private_ok; [apply Hck|]. }
  rewrite Hio. eexists. split; [done|].
  unfold clear_completed_checkpoint. simpl. rewrite Hp, Z.eqb_refl. simpl. by rewrite lookup_delete_eq.
Qed.

Lemma prepare_parent st st' :
  prepare_state st = (Ok tt, st') ->
  match st_parent st' with
  | None => True
  | Some m => dm_resolves m = true /\ dm_is_dir m = true /\ dm_is_symlink m = false /\
              owned st (dm_uid m)
  end.
Proof.
  unfold prepare_state, owned. intros Hp.
  destruct (match st_parent st with None => _ | Some _ => _ end) as [m|] eqn:Em; [|done].
  assert (dm_resolves m = true) by (break_in Em; done).
  destruct (negb (dm_is_dir m) || dm_is_symlink m) eqn:E1; [done|]. simpl in Hp.
  destruct (st_enforce_root_ownership st) eqn:Ee; simpl in Hp.
  - destruct (negb (dm_uid m =? 0)) eqn:E2; [done|]. destruct (negb (st_io_ok st)); [done|].
    injection Hp as _ <-. simpl. bool_prop. done.
  - destruct (negb (st_io_ok st)); [done|]. injection Hp as _ <-. simpl. bool_prop. done.
Qed.

(** A healthy machine opens any reachable ledger, with the same events. *)
Lemma open_ok st :
  store_inv st -> healthy st -> Z.of_nat (length (ledger_events (st_db st))) < i64_max ->
  exists st', open st = (Ok tt, st') /\ store_inv st' /\ pending (st_db st') = None /\
    ledger_events (st_db st') = ledger_events (st_db st).
Proof.
  intros Hinv Hh Hroom. unfold open.
  destruct (prepare_state_ok st Hinv Hh) as [parent Hprep]. rewrite (mbind_ok _ _ _ _ _ Hprep).
  set (st1 := set_files (Some parent) (st_database_file st) st).
  assert (healthy st1) as Hh1.
  { pose proof (prepare_parent _ _ Hprep) as Hpar. destruct Hh. by constructor. }
  destruct (open_connection_ok st1 Hh1) as (f & Hconn & Hf). rewrite (mbind_ok _ _ _ _ _ Hconn).
  set (st2 := set_files (st_parent st1) (Some f) st1).
  rewrite (mbind_ok _ _ _ _ _ (migrate_ok st2 (h_schema _ Hh))).
  set (st3 := set_schema 8 all_migrations st2).
  assert (store_inv st3) as Hinv3 by (by eapply (store_inv_ext st)).
  assert (file_ok st3 (Some f)) as Hdbf.
  { destruct Hf as [Hf| ->]; [|split; [done|by apply (own_dir_ok st)]].
    pose proof (h_database _ Hh1) as Hd. by rewrite Hf in Hd. }
  rewrite (mbind_ok _ _ _ _ _ (secure_files_ok st3 (h_io _ Hh) eq_refl Hdbf (h_sidecars _ Hh))).
  erewrite mbind_ok.
  2:{ rewrite (validate_continuity_ok st3 Hinv3 (h_integrity _ Hh) Hroom). reflexivity. }
  destruct (complete_pending_ok st3 Hinv3 (h_io _ Hh)) as (st4 & Hc & Hp & He).
  exists st4. split_and!; [done| |done|done].
  pose proof (complete_inv st3 Hinv3) as Hfin. by rewrite Hc in Hfin.
Qed.
End Store.

(** ** jw-opsd: what a ledger never forgets

    Along every store step: the event log grows at its end only, plans and
    idempotency keys are never changed, an operation keeps its plan, and an
    operation in a terminal stage is frozen, its events included. *)

Section Mono.
Context `{Externals}.

(** An operation row evolves: same plan, same creation, frozen once terminal. *)
Definition row_evolves (r r' : OpRow) : Prop :=
  or_plan_id r' = or_plan_id r /\ or_before_digest r' = or_before_digest r /\
  or_created_at_ms r' = or_created_at_ms r /\ (terminal_value (or_stage r) = true -> r' = r).

Record db_le (db db' : Db) : Prop := {
  le_events : ledger_events db `prefix_of` ledger_events db';
  le_plans : plans db ⊆ plans db';
  le_keys : forall k r, idempotency db !! k = Some r ->
    exists r', idempotency db' !! k = Some r' /\ ir_plan_id r' = ir_plan_id r /\
               ir_request_digest r' = ir_request_digest r;
  le_ops : forall id r, operations db !! id = Some r ->
    exists r', operations db' !! id = Some r' /\ row_evolves r r';
  le_closed : forall id r, operations db !! id = Some r -> terminal_value (or_stage r) = true ->
    events_of db' id = events_of db id;
}.

Lemma row_evolves_refl r : row_evolves r r.
Proof. by split_and!. Qed.

#[export] Instance db_le_preorder : PreOrder db_le.
Proof.
  split.
  - intros db. constructor; eauto using row_evolves_refl.
  - intros d1 d2 d3 [E1 P1 K1 O1 C1] [E2 P2 K2 O2 C2]. constructor.
    + by etrans.
    + by etrans.
    + intros k r Hk. destruct (K1 _ _ Hk) as (r' & Hk' & A1 & B1).
      destruct (K2 _ _ Hk') as (r'' & Hk'' & A2 & B2). exists r''. split_and!; congruence.
    + intros i r Hi. destruct (O1 _ _ Hi) as (r' & Hi' & A1 & B1 & D1 & T1).
      destruct (O2 _ _ Hi') as (r'' & Hi'' & A2 & B2 & D2 & T2). exists r''. split; [done|].
      split_and!; try congruence. intros Ht. rewrite T2, T1; [done|done|]. by rewrite (T1 Ht).
    + intros i r Hi Ht. destruct (O1 _ _ Hi) as (r' & Hi' & _ & _ & _ & T1). rewrite (T1 Ht) in Hi'.
      rewrite (C2 _ _ Hi' Ht). by eapply C1.
Qed.

Lemma append_event_one db ev s db' : append_event db ev = Ok (s, db') ->
  exists e, ledger_events db' = ledger_events db ++ [e] /\ le_operation_id e = ei_operation_id ev.
Proof.
  unfold append_event, insert_event. intros Ha. destruct (event_head _).
  destruct (ledger_event_digest _ _); [|done]. destruct (existsb _ _); [done|].
  injection Ha as _ <-. by eexists.
Qed.

(** A transaction that appends an event of an open operation, or of none,
    after updating the rows of [db0] to [db]. *)
Lemma append_le db0 db ev s db1 t :
  append_event db ev = Ok (s, db1) -> ledger_events db = ledger_events db0 ->
  plans db0 ⊆ plans db ->
  (forall k r, idempotency db0 !! k = Some r ->
    exists r', idempotency db !! k = Some r' /\ ir_plan_id r' = ir_plan_id r /\
               ir_request_digest r' = ir_request_digest r) ->
  (forall id r, operations db0 !! id = Some r ->
    exists r', operations db !! id = Some r' /\ row_evolves r r') ->
  (forall r, operations db0 !! ei_operation_id ev = Some r -> terminal_value (or_stage r) = false) ->
  db_le db0 (mark_checkpoint_if_needed db1 s t).
Proof.
  intros Ha He Hp Hk Ho Hopen. pose proof (append_event_one _ _ _ _ Ha) as (e & He1 & Hid).
  apply append_event_rows in Ha as (P & O & K & _ & E).
  destruct (mark_rows db1 s t) as (P' & O' & K' & _ & E').
  constructor; rewrite ?P', ?P, ?K', ?K, ?O', ?O, ?E'; try done; [by rewrite <- He|].
  intros i r Hi Ht. unfold events_of. rewrite E', He1, He, List.filter_app. simpl. rewrite bool_decide_eq_false_2; [by rewrite app_nil_r|].
  rewrite Hid. intros <-. specialize (Hopen _ Hi). congruence.
Qed.

Lemma insert_evolves (ops : gmap string OpRow) id row row' :
  ops !! id = Some row -> row_evolves row row' ->
  forall i r, ops !! i = Some r -> exists r', <[id := row']> ops !! i = Some r' /\ row_evolves r r'.
Proof.
  intros Hrow Hev i r Hi. destruct (decide (i = id)) as [->|Hn].
  - rewrite lookup_insert_eq. replace r with row by congruence. by eauto.
  - rewrite lookup_insert_ne by done. eauto using row_evolves_refl.
Qed.

Lemma create_tx_le plan r db db' : db_rows db -> create_or_reuse_plan_tx plan db = Ok (r, db') -> db_le db db'.
Proof.
  unfold create_or_reuse_plan_tx. intros Hrows Htx.
  destruct (idempotency db !! _) eqn:Hk; [by break_in Htx|].
  destruct (plan_unique _ _); [|done]. unfold ok_or in Htx.
  destruct (insert_row (p_plan_id plan) _ _) as [pl|] eqn:Hp; [|done].
  apply insert_row_Some in Hp as [Hf ->]. db_simpl in Htx.
  destruct (insert_row (p_idempotency_key plan) _ _) as [idem|] eqn:Hi; [|done].
  apply insert_row_Some in Hi as [_ ->].
  destruct (append_event _ _) as [[s db1]|] eqn:Ha; [|done]. injection Htx as _ <-.
  eapply append_le; [exact Ha|done|by apply insert_subseteq| |eauto using row_evolves_refl|].
  - intros k r' Hk'. db_simpl. rewrite lookup_insert_ne by congruence. by eauto.
  - intros r' Hr'. by destruct (ri_ops _ _ _ _ Hrows _ _ Hr') as [? _].
Qed.

Lemma begin_tx_le id plan_id hash key actor now r db db' :
  begin_operation_tx id plan_id hash key actor now db = Ok (r, db') -> db_le db db'.
Proof.
  intros (plan & _ & _ & _ & _ & _ & [(? & ? & _ & _ & _ & ->)|
    (_ & _ & Hfresh & _ & _ & s & db1 & Ha & ->)])%begin_tx_ok; [done|].
  eapply append_le; [exact Ha|done|done| | |]; unfold begin_db; db_simpl.
  - intros k r' Hk'. destruct (decide (k = key)) as [->|Hn].
    + rewrite lookup_alter_eq, Hk'. by eexists.
    + rewrite lookup_alter_ne by done. by eauto.
  - intros i r' Hi. rewrite lookup_insert_ne by congruence. eauto using row_evolves_refl.
  - intros r'. cbn [ei_operation_id]. by rewrite Hfresh.
Qed.

Lemma attach_tx_le id snapshot now db db' :
  attach_snapshot_tx id snapshot now db = Ok (tt, db') -> db_le db db'.
Proof.
  unfold attach_snapshot_tx. intros Htx. destruct (operations db !! id) as [row|] eqn:Hrow; [|done].
  destruct (bool_decide _) eqn:Hst; [|done]. bool_prop. destruct (load_operation_from _ _); [|done].
  destruct (append_event _ _) as [[s db1]|] eqn:Ha; [|done]. injection Htx as <-.
  eapply append_le; [exact Ha|done|done|by eauto| |]; db_simpl.
  - eapply insert_evolves; [done|]. split_and!; try done. by rewrite Hst.
  - cbn [ei_operation_id]. rewrite Hrow. intros r [= <-]. by rewrite Hst.
Qed.

Lemma transition_tx_le id change dg cmd db db' :
  db_inv db -> (forall s, s ∈ t_expected change -> is_terminal s = false) ->
  transition_tx id change dg cmd db = Ok (tt, db') -> db_le db db'.
Proof.
  intros Hinv Hexp Htx. pose proof Hinv as (_ & Hr & _).
  destruct (transition_tx_ok _ _ _ _ _ _ Hinv Htx)
    as (current & row & s & db1 & diag & c & Hcur & Hin & _ & Hrow & Ha & _ & _ & ->).
  destruct (load_operation_from_inv _ _ _ Hr Hcur) as (row0 & Hrow0 & _ & _ & _ & _ & Hst).
  assert (row0 = row) as -> by congruence.
  assert (terminal_value (or_stage row) = false) as Hopen by (by rewrite Hst, terminal_value_stage, (Hexp _ Hin)).
  etrans; [eapply (append_le db _ _ _ _ false); [exact Ha|done|done|by eauto| |]|].
  - db_simpl. eapply insert_evolves; [done|]. split_and!; try done. by rewrite Hopen.
  - cbn [ei_operation_id]. rewrite Hrow. by intros r [= <-].
  - unfold mark_checkpoint_if_needed.
    destruct (false || _), (_ || _); by constructor; eauto using row_evolves_refl.
Qed.

Lemma ledger_tx_le db db' : db_inv db -> ledger_tx db db' -> db_le db db'.
Proof.
  intros Hinv Htx. pose proof Hinv as (_ & Hrows & _). destruct Htx;
    eauto using create_tx_le, begin_tx_le, attach_tx_le, transition_tx_le.
Qed.

Lemma store_step_le st st' : store_inv st -> store_step st st' -> db_le (st_db st) (st_db st').
Proof.
  intros Hinv Hs. destruct Hs as [st db' Htx|st|st|st st' Hdb _ _ _].
  - simpl. apply ledger_tx_le; [apply Hinv|done].
  - unfold complete_pending_checkpoint. destruct (metadata _ !! _); [|done].
    destruct (last _) as [e|]; [|done]. destruct (_ <? _); [done|].
    destruct (write_checkpoint _ st) as [[[]|err] st'] eqn:Ew; simpl; unfold write_checkpoint in Ew;
      break_in Ew; try done.
    unfold clear_completed_checkpoint. simpl. destruct (metadata _ !! _); [|done].
    destruct (_ =? _); [|done]. by constructor; eauto using row_evolves_refl.
  - unfold write_head_checkpoint. destruct (last _) as [e|]; [|done].
    by destruct (write_checkpoint_shape {| cp_schema_version := 1; cp_sequence := le_sequence e;
      cp_event_digest := le_event_digest e |} st) as [->| ->].
  - by rewrite Hdb.
Qed.

Lemma store_steps_le st st' : store_inv st -> rtc store_step st st' -> db_le (st_db st) (st_db st').
Proof.
  intros Hinv Hr. induction Hr as [st|st st1 st' Hs Hr IH]; [done|].
  etrans; [by apply store_step_le|]. apply IH. by eapply store_step_inv.
Qed.
End Mono.
