(* ===== verification/LedgerApi.v ===== *)
(** * jw-opsd: the public interface of the ledger as store steps

    Every method of [Ledger] moves the store along [store_step] only, and what
    each method returns when it succeeds. *)

From Stdlib Require Import Ascii String.
From S2P Require Import Prelude Crypto Contracts Plans Adapters Ledger LedgerLog LedgerInv LedgerStore.

Section Api.
Context `{Externals}.

(** A method that only takes store steps. *)
Definition steps {A} (m : LM A) : Prop := forall st, rtc store_step st (m st).2.

Lemma steps_ret {A} (a : A) : steps (mret a).
Proof. intros st. apply rtc_refl. Qed.

Lemma steps_fail {A} e : steps (mfail e : LM A).
Proof. intros st. apply rtc_refl. Qed.

Lemma steps_lift {A} (r : oresult A) : steps (mlift r).
Proof. intros st. apply rtc_refl. Qed.

Lemma steps_read {A} (f : Db -> oresult A) : steps (read_db f).
Proof. intros st. apply rtc_refl. Qed.

Lemma steps_bind {A B} (m : LM A) (k : A -> LM B) :
  steps m -> (forall a, steps (k a)) -> steps (mbind m k).
Proof.
  intros Hm Hk st. unfold mbind. specialize (Hm st). destruct (m st) as [[a|e] st1]; simpl in *; [|done].
  etrans; [exact Hm|apply Hk].
Qed.

Lemma steps_complete : steps complete_pending_checkpoint.
Proof. intros st. apply rtc_once, step_complete. Qed.

Lemma steps_transact {A} (tx : Db -> oresult (A * Db)) :
  (forall db a db', tx db = Ok (a, db') -> ledger_tx db db') -> steps (transact tx).
Proof.
  intros Htx st. unfold transact. destruct (tx (st_db st)) as [[a db']|e] eqn:E; [|apply rtc_refl].
  by eapply rtc_once, step_commit, Htx.
Qed.

Lemma steps_create plan : plan_ok plan -> steps (create_or_reuse_plan plan).
Proof.
  intros Hok. apply steps_bind; [apply steps_transact; intros; by eapply tx_plan|].
  intros [p []]; [apply steps_ret|]. apply steps_bind; [apply steps_complete|intros; apply steps_ret].
Qed.

Lemma steps_begin id plan_id hash key actor now :
  id <> EmptyString -> steps (begin_operation id plan_id hash key actor now).
Proof.
  intros Hne. apply steps_bind; [apply steps_transact; intros; by eapply tx_begin|].
  intros [o|]; [apply steps_ret|]. apply steps_bind; [apply steps_complete|intros; apply steps_read].
Qed.

Lemma steps_attach id snapshot now : steps (attach_snapshot id snapshot now).
Proof.
  apply steps_bind; [apply steps_transact; intros db [] db' Htx; by eapply tx_attach|].
  intros []. apply steps_bind; [apply steps_complete|intros; apply steps_read].
Qed.

(** Actions that leave the tables and the checkpoint alone. *)
Definition env_only {A} (m : LM A) : Prop :=
  forall st, let st' := (m st).2 in
    st_db st' = st_db st /\ st_checkpoint st' = st_checkpoint st /\ st_euid st' = st_euid st /\
    st_enforce_root_ownership st' = st_enforce_root_ownership st.

Lemma env_only_bind {A B} (m : LM A) (k : A -> LM B) :
  env_only m -> (forall a, env_only (k a)) -> env_only (mbind m k).
Proof.
  intros Hm Hk st. unfold mbind. specialize (Hm st). destruct (m st) as [[a|e] st1]; simpl in *; [|done].
  specialize (Hk a st1). simpl in *. destruct Hm as (<- & <- & <- & <-). exact Hk.
Qed.

Lemma steps_env_only {A} (m : LM A) : env_only m -> steps m.
Proof. intros Hm st. destruct (Hm st) as (? & ? & ? & ?). by apply rtc_once, step_env. Qed.

Lemma env_only_ret {A} (a : A) : env_only (mret a).
Proof. done. Qed.

Lemma env_only_migration n : env_only (migration_step n).
Proof.
  apply env_only_bind; [|done]. intros st. unfold execute_batch. by case_bool_decide.
Qed.

Lemma env_only_migrations ns : env_only (migration_steps ns).
Proof. induction ns as [|n ns IH]; [done|]. apply env_only_bind; [apply env_only_migration|done]. Qed.

Lemma env_only_migrate : env_only migrate.
Proof.
  unfold migrate. apply env_only_bind; [done|]. intros v. apply env_only_bind.
  { repeat (destruct (_ =? _); [first [apply env_only_migrations|
      apply env_only_bind; [done|intros; apply env_only_migrations]]|]). by destruct (_ && _). }
  intros _. apply env_only_bind; [done|]. intros c. apply env_only_bind.
  { destruct (_ =? _); [|done]. apply env_only_bind; [apply env_only_migration|done]. }
  intros d. apply env_only_bind.
  { destruct (_ =? _); [|done]. apply env_only_bind; [apply env_only_migration|done]. }
  intros e. by destruct (negb _).
Qed.

Lemma env_only_prepare : env_only prepare_state.
Proof.
  intros st. unfold prepare_state.
  destruct (match st_parent st with None => _ | Some _ => _ end); [|done].
  repeat (destruct (_ || _) || destruct (_ && _) || destruct (negb _)); done.
Qed.

Lemma env_only_connection : env_only open_connection.
Proof. intros st. unfold open_connection. destruct (st_database_file st); [done|]. by destruct (st_io_ok st). Qed.

Lemma env_only_secure : env_only secure_database_files.
Proof. intros st. unfold secure_database_files. by destruct (negb _). Qed.

Lemma steps_open : steps open.
Proof.
  unfold open.
  apply steps_bind; [apply steps_env_only, env_only_prepare|intros _].
  apply steps_bind; [apply steps_env_only, env_only_connection|intros _].
  apply steps_bind; [apply steps_env_only, env_only_migrate|intros _].
  apply steps_bind; [apply steps_env_only, env_only_secure|intros _].
  apply steps_bind; [by apply steps_env_only|intros _]. apply steps_complete.
Qed.

(** Transitions out of non-terminal stages. *)
Definition leaves_active (change : Transition) : Prop :=
  forall s, s ∈ t_expected change -> is_terminal s = false.

Lemma steps_internal id change diagnostics command :
  leaves_active change -> evidence_wf (t_evidence_digest change) diagnostics command ->
  steps (transition_internal id change diagnostics command).
Proof.
  intros Ha Hwf. apply steps_bind; [apply steps_transact; intros db [] db' Htx; by eapply tx_transition|].
  intros []. apply steps_bind; [apply steps_complete|intros; apply steps_read].
Qed.

Lemma steps_transition id change : leaves_active change -> steps (transition id change).
Proof. intros Ha. apply steps_internal; [done|]. by exists (t_evidence_digest change). Qed.

Lemma steps_command id change command :
  leaves_active change -> steps (transition_with_command_evidence id change command).
Proof.
  intros Ha st. unfold transition_with_command_evidence, mlift, mbind.
  destruct (prepare_command_evidence _ _) as [json|] eqn:E; [|apply rtc_refl].
  apply steps_internal; [done|]. exists (t_evidence_digest change). by eauto.
Qed.

Lemma steps_diagnostics id change diagnostics :
  leaves_active change -> steps (transition_with_diagnostics id change diagnostics).
Proof.
  intros Ha. unfold transition_with_diagnostics. case_bool_decide; [by apply steps_transition|].
  intros st. unfold mlift, mbind.
  destruct (prepare_diagnostics _ _) as [[d digest]|] eqn:E; [|apply rtc_refl].
  apply steps_internal; [done|]. exists (t_evidence_digest change). by eauto.
Qed.

Lemma steps_diagnostics_command id change diagnostics command :
  leaves_active change -> steps (transition_with_diagnostics_and_command id change diagnostics command).
Proof.
  intros Ha. unfold transition_with_diagnostics_and_command.
  case_bool_decide; [by apply steps_command|].
  intros st. unfold mlift, mbind.
  destruct (prepare_command_evidence _ _) as [json|] eqn:Ec; [|apply rtc_refl].
  destruct (prepare_diagnostics _ _) as [[d digest]|] eqn:E; [|apply rtc_refl].
  apply steps_internal; [done|]. exists (t_evidence_digest change). by eauto.
Qed.

(** ** Results *)

(** The operation value after a transition. *)
Definition transition_op (current : StoredOperation) (change : Transition) : StoredOperation :=
  {| o_operation_id := o_operation_id current;
     o_plan := o_plan current;
     o_stage := t_next change;
     o_before_digest := o_before_digest current;
     o_after_digest := default (o_after_digest current) (t_after_digest change);
     o_rollback_result := match t_rollback_result change with
                          | Some r => Some r
                          | None => o_rollback_result current
                          end;
     o_snapshot := o_snapshot current |}.

Lemma load_operation_from_id db id op : load_operation_from db id = Ok op -> o_operation_id op = id.
Proof. unfold load_operation_from. intros Hl. break_in Hl. Qed.

Lemma load_after_update db db' id current change row :
  load_operation_from db id = Ok current -> operations db !! id = Some row ->
  plans db' = plans db -> operations db' !! id = Some (transition_row current change row) ->
  load_operation_from db' id = Ok (transition_op current change).
Proof.
  intros Hl Hrow Hp Hrow'. unfold load_operation_from in *. rewrite Hrow in Hl. rewrite Hrow'. cbn [or_plan_id or_stage
    or_snapshot_relative_path or_snapshot_digest transition_row or_before_digest].
  unfold load_plan_from in *. rewrite Hp, parse_stage_storage.
  destruct (plans db !! or_plan_id row) as [prow|]; [|by break_in Hl].
  destruct (parse_plan_row prow); [|by break_in Hl].
  destruct (or_snapshot_relative_path row), (or_snapshot_digest row), (parse_stage (or_stage row));
    try discriminate Hl; injection Hl as <-; reflexivity.
Qed.

Lemma load_operation_ext db db' id :
  plans db' = plans db -> operations db' = operations db ->
  load_operation_from db' id = load_operation_from db id.
Proof. intros Hp Ho. unfold load_operation_from, load_plan_from. by rewrite Ho, Hp. Qed.

(** Completing a checkpoint touches neither rows nor events. *)
Lemma complete_rows st :
  let db := st_db st in let db' := st_db (complete_pending_checkpoint st).2 in
  plans db' = plans db /\ operations db' = operations db /\ idempotency db' = idempotency db /\
  resource_locks db' = resource_locks db /\ ledger_events db' = ledger_events db /\
  command_evidence db' = command_evidence db /\
  managed_config_diagnostics db' = managed_config_diagnostics db.
Proof.
  unfold complete_pending_checkpoint.
  destruct (metadata (st_db st) !! _); [|done]. destruct (last _); [|done]. destruct (_ <? _); [done|].
  destruct (write_checkpoint _ st) as [[[]|err] st'] eqn:Ew; simpl.
  - pose proof (write_checkpoint_shape {| cp_schema_version := 1; cp_sequence := le_sequence e;
      cp_event_digest := le_event_digest e |} st) as Hsh. rewrite Ew in Hsh. simpl in Hsh.
    assert (st_db st' = st_db st) as -> by (by destruct Hsh as [->| ->]).
    unfold clear_completed_checkpoint. destruct (metadata _ !! _); [|done]. by destruct (_ =? _).
  - unfold write_checkpoint in Ew. break_in Ew.
Qed.

(** A successful transition: the operation was in an expected stage, and the
    returned value and the stored row are its update. *)
Lemma transition_internal_ok id change diagnostics command st op st' :
  store_inv st -> transition_internal id change diagnostics command st = (Ok op, st') ->
  exists current, load_operation_from (st_db st) id = Ok current /\
    o_stage current ∈ t_expected change /\ op = transition_op current change /\
    load_operation_from (st_db st') id = Ok op /\
    (forall i, i <> id -> load_operation_from (st_db st') i = load_operation_from (st_db st) i) /\
    resource_locks (st_db st') = locks_after id (is_terminal (t_next change)) (resource_locks (st_db st)).
Proof.
  intros Hinv Ht. pose proof (si_db _ Hinv) as Hdb.
  apply mbind_inv_ok in Ht as ([] & st1 & Htx & Ht). unfold transact in Htx.
  destruct (transition_tx _ _ _ _ (st_db st)) as [[[] db']|] eqn:Etx; [|done]. injection Htx as <-.
  destruct (transition_tx_ok _ _ _ _ _ _ Hdb Etx)
    as (current & row & s & db1 & diag & cmd & Hcur & Hin & _ & Hrow & Happ & _ & _ & Hdb').
  apply append_event_rows in Happ as (Ep & Eo & _ & El & _). db_simpl in Ep. db_simpl in Eo. db_simpl in El.
  assert (plans db' = plans (st_db st) /\
          operations db' = <[id := transition_row current change row]> (operations (st_db st)) /\
          resource_locks db' = locks_after id (is_terminal (t_next change)) (resource_locks (st_db st)))
    as (Hp & Ho & Hlk).
  { rewrite Hdb'. edestruct mark_rows as (-> & -> & _ & -> & _). db_simpl. by rewrite Ep, Eo, El. }
  apply mbind_inv_ok in Ht as ([] & st2 & Hc & Hl).
  pose proof (complete_rows (set_db db' st)) as (Cp & Co & _ & Cl & _). rewrite Hc in Cp, Co, Cl. simpl in *.
  unfold load_operation, read_db in Hl. injection Hl as Hl <-.
  assert (load_operation_from (st_db st2) id = Ok (transition_op current change)) as Hnew.
  { eapply (load_after_update (st_db st)); [done|done|congruence|]. by rewrite Co, Ho, lookup_insert_eq. }
  exists current. rewrite Hnew in Hl. injection Hl as <-. split_and!; try done; [|congruence].
  intros i Hi. unfold load_operation_from, load_plan_from. by rewrite Co, Ho, lookup_insert_ne, Cp, Hp.
Qed.

Lemma operation_of_plan_Some db plan_id id :
  operation_of_plan db plan_id = Some id ->
  exists row, operations db !! id = Some row /\ or_plan_id row = plan_id.
Proof.
  unfold operation_of_plan. destruct (List.find _ _) as [[k row]|] eqn:E; [|done]. intros [= <-].
  apply find_some in E as [Hin Hp]. apply list_elem_of_In, elem_of_map_to_list in Hin.
  simpl in Hp. bool_prop. by eauto.
Qed.

(** The operation value an approval creates. *)
Definition begin_op (id : string) (plan : StoredPlan) : StoredOperation :=
  {| o_operation_id := id; o_plan := plan; o_stage := Approved;
     o_before_digest := plan_before_digest plan; o_after_digest := plan_before_digest plan;
     o_rollback_result := None; o_snapshot := None |}.

Lemma begin_operation_ok id plan_id hash key actor now st op st' :
  store_inv st -> begin_operation id plan_id hash key actor now st = (Ok op, st') ->
  exists plan, load_plan_from (st_db st) plan_id = Ok plan /\
    p_plan_hash plan = hash /\ p_idempotency_key plan = key /\ p_actor plan = actor /\
    now < p_expires_at_ms plan /\ o_plan op = plan /\
    ((st' = st /\ load_operation_from (st_db st) (o_operation_id op) = Ok op) \/
     (operations (st_db st) !! id = None /\ op = begin_op id plan /\
      load_operation_from (st_db st') id = Ok op /\
      (forall i, i <> id -> load_operation_from (st_db st') i = load_operation_from (st_db st) i) /\
      resource_locks (st_db st') = begin_locks id plan now (resource_locks (st_db st)))).
Proof.
  intros Hinv Hb. pose proof (si_db _ Hinv) as (_ & Hrows & _).
  apply mbind_inv_ok in Hb as (ex & st1 & Htx & Hb). unfold transact in Htx.
  destruct (begin_operation_tx _ _ _ _ _ _ (st_db st)) as [[r db']|] eqn:Etx; [|done]. injection Htx as -> <-.
  pose proof (begin_tx_ok _ _ _ _ _ _ _ _ _ Etx) as (plan & Hp & Hh & Hk & Ha & Hx & Hcase).
  exists plan. destruct (load_plan_from_inv _ _ _ Hrows Hp) as (Hpl & Hok & Hpid).
  destruct Hcase as [(exid & op' & Hop & Hl & -> & ->)|(Hop & -> & Hfresh & Hfree & Hf2 & s & db1 & Happ & ->)].
  - injection Hb as <- <-. replace (set_db (st_db st) st) with st by (by destruct st).
    destruct (operation_of_plan_Some _ _ _ Hop) as (row & Hrow & Hrp).
    destruct (load_operation_from_inv _ _ _ Hrows Hl) as (row' & Hrow' & Hoid & Hop' & Hok' & _).
    assert (row' = row) as -> by congruence. split_and!; try done.
    + apply plan_row_inj; congruence.
    + left. by rewrite Hoid.
  - apply mbind_inv_ok in Hb as ([] & st2 & Hc & Hl).
    pose proof (complete_rows (set_db (mark_checkpoint_if_needed db1 s false) st)) as (Cp & Co & _ & Cl & _).
    rewrite Hc in Cp, Co, Cl. simpl in Cp, Co, Cl.
    assert (plans db1 = plans (st_db st) /\
            operations db1 = <[id := begin_row plan_id plan now]> (operations (st_db st)) /\
            resource_locks db1 = begin_locks id plan now (resource_locks (st_db st))) as (Hp1 & Ho1 & Hl1).
    { by apply append_event_rows in Happ as (-> & -> & _ & -> & _). }
    assert (plans (st_db st2) = plans db1 /\ operations (st_db st2) = operations db1 /\
            resource_locks (st_db st2) = resource_locks db1) as (Hp2 & Ho2 & Hl2).
    { rewrite Cp, Co, Cl. by edestruct mark_rows as (-> & -> & _ & -> & _). }
    unfold load_operation, read_db in Hl. injection Hl as Hl <-.
    assert (load_operation_from (st_db st2) id = Ok (begin_op id plan)) as Hnew.
    { unfold load_operation_from, load_plan_from.
      rewrite Ho2, Ho1, lookup_insert_eq. cbn [begin_row or_snapshot_relative_path or_snapshot_digest
        or_plan_id or_stage]. by rewrite Hp2, Hp1, Hpl, parse_plan_row_ok. }
    rewrite Hnew in Hl. injection Hl as <-. split_and!; try done. right. split_and!; try done; [|congruence].
    intros i Hi. unfold load_operation_from, load_plan_from. by rewrite Ho2, Ho1, lookup_insert_ne, Hp2, Hp1.
Qed.

Lemma steps_result {A} (m : LM A) st a st' : steps m -> m st = (a, st') -> rtc store_step st st'.
Proof. intros Hm He. specialize (Hm st). by rewrite He in Hm. Qed.

(** The operation an approval returns is stored under its plan. *)
Lemma begin_operation_row id plan_id hash key actor now st op st' :
  store_inv st -> id <> EmptyString ->
  begin_operation id plan_id hash key actor now st = (Ok op, st') ->
  exists r, operations (st_db st') !! o_operation_id op = Some r /\ or_plan_id r = plan_id.
Proof.
  intros Hinv Hne Hb.
  assert (store_inv st') as Hinv'.
  { eapply store_steps_inv; [exact Hinv|]. eapply steps_result; [|exact Hb]. by apply steps_begin. }
  destruct (begin_operation_ok _ _ _ _ _ _ _ _ _ Hinv Hb) as (p & Hp & _ & _ & _ & _ & Hop & Hcase).
  destruct (load_plan_from_inv _ _ _ (si_rows _ Hinv) Hp) as (_ & _ & Hpid).
  assert (load_operation_from (st_db st') (o_operation_id op) = Ok op) as Hl
    by (destruct Hcase as [[-> Hl]|(_ & -> & Hl & _)]; done).
  destruct (load_operation_from_inv _ _ _ (si_rows _ Hinv') Hl) as (r & Hr & _ & _ & _ & Hid & _).
  exists r. split; congruence.
Qed.

(** After planning, the key is bound to the returned plan and the digest. *)
Lemma create_or_reuse_plan_ok plan p st st' :
  store_inv st -> plan_ok plan -> create_or_reuse_plan plan st = (Ok p, st') ->
  exists r, idempotency (st_db st') !! p_idempotency_key plan = Some r /\
    ir_request_digest r = p_request_digest plan /\ load_plan_from (st_db st') (ir_plan_id r) = Ok p.
Proof.
  intros Hinv Hok Hc. apply mbind_inv_ok in Hc as ([q reused] & st1 & Htx & Hc). unfold transact in Htx.
  destruct (create_or_reuse_plan_tx plan (st_db st)) as [[[q' u'] db']|] eqn:E; [|done].
  injection Htx as -> -> <-. unfold create_or_reuse_plan_tx in E.
  destruct (idempotency (st_db st) !! p_idempotency_key plan) as [ex|] eqn:Hk.
  - destruct (negb _) eqn:Hd; [done|]. bool_prop. destruct (load_plan_from _ _) as [q'|] eqn:Hl; [|done].
    injection E as <- <- <-. injection Hc as <- <-. simpl. by eauto.
  - destruct (plan_unique _ _); [|done]. unfold ok_or in E.
    destruct (insert_row (p_plan_id plan) _ _) as [pl|] eqn:Hp; [|done].
    apply insert_row_Some in Hp as [_ ->]. db_simpl in E.
    destruct (insert_row (p_idempotency_key plan) _ _) as [idem|] eqn:Hi; [|done].
    apply insert_row_Some in Hi as [_ ->].
    destruct (append_event _ _) as [[s db1]|] eqn:Ha; [|done]. injection E as <- <- <-.
    apply mbind_inv_ok in Hc as ([] & st2 & Hcp & Hret). injection Hret as <- <-.
    pose proof (complete_rows (set_db (mark_checkpoint_if_needed db1 s false) st)) as (Cp & _ & Ci & _).
    rewrite Hcp in Cp, Ci. simpl in Cp, Ci.
    edestruct (mark_rows db1 s false) as (Mp & _ & Mi & _).
    apply append_event_rows in Ha as (Ap & _ & Ai & _).
    eexists. rewrite Ci, Mi, Ai. db_simpl. rewrite lookup_insert_eq. split_and!; [done|done|].
    unfold load_plan_from. rewrite Cp, Mp, Ap. db_simpl. by rewrite lookup_insert_eq, parse_plan_row_ok.
Qed.
End Api.

(** ** jw-opsd: ledger calls that cannot fail

    On a store whose invariant holds and whose files can be written, a
    transition from an expected stage, the attachment of a snapshot and the
    receipt of a stored operation all succeed, up to a SHA-256 collision of the
    new event with a recorded one ([next_clash]), which the [UNIQUE] constraint
    refuses. *)

Section Total.
Context `{Externals}.

(** One event was appended, recorded at [now]. *)
Definition wrote (now : Z) (db db' : Db) : Prop :=
  exists e, ledger_events db' = ledger_events db ++ [e] /\ le_recorded_at_ms e = now.

Lemma append_wrote db ev s db' :
  log_inv db -> append_event db ev = Ok (s, db') -> wrote (ei_recorded_at_ms ev) db db'.
Proof.
  intros Hl (row & -> & _ & _ & _ & Hrow)%append_event_ok; [|done].
  exists row. split; [done|]. by rewrite Hrow.
Qed.

(** A committed transaction followed by the checkpoint and a reload. *)
Lemma transact_reload (tx : Db -> oresult (unit * Db)) id st db' op :
  store_inv st -> st_io_ok st = true -> tx (st_db st) = Ok (tt, db') -> ledger_tx (st_db st) db' ->
  load_operation_from db' id = Ok op ->
  exists st', (let! _ := transact tx in let! _ := complete_pending_checkpoint in load_operation id) st
              = (Ok op, st').
Proof.
  intros Hinv Hio Htx Hstep Hl.
  erewrite mbind_ok by (unfold transact; rewrite Htx; reflexivity).
  assert (store_inv (set_db db' st)) as Hinv' by (eapply store_step_inv; [exact Hinv|by apply step_commit]).
  destruct (complete_pending_ok _ Hinv' Hio) as (st' & Hc & _). rewrite (mbind_ok _ _ _ _ _ Hc).
  pose proof (complete_rows (set_db db' st)) as (Cp & Co & _). rewrite Hc in Cp, Co. simpl in Cp, Co.
  exists st'. unfold load_operation, read_db. by rewrite (load_operation_ext db'), Hl.
Qed.

Lemma append_total db db0 ev :
  log_inv db0 -> ledger_events db = ledger_events db0 -> command_evidence db = command_evidence db0 ->
  managed_config_diagnostics db = managed_config_diagnostics db0 ->
  Z.of_nat (length (ledger_events db0)) < i64_max ->
  (exists s db', append_event db ev = Ok (s, db')) \/ (append_event db ev = Err EStorage /\ next_clash db0).
Proof.
  intros Hlog He Hc Hd Hroom. assert (log_inv db) as Hlog' by (by eapply (log_inv_ext db0)).
  rewrite <- He in Hroom. destruct (append_event_total db ev Hlog' Hroom) as [Hok|[Herr Hn]]; [left|right].
  - destruct (append_event db ev) as [[s db']|]; [by eauto|done].
  - split; [done|]. unfold next_clash in *. by rewrite <- He.
Qed.

(** The sequence number an append returns is free in the evidence tables. *)
Lemma append_fresh db ev s db1 :
  log_inv db -> append_event db ev = Ok (s, db1) ->
  managed_config_diagnostics db1 !! s = None /\ command_evidence db1 !! s = None.
Proof.
  intros Hlog (row & -> & Hs & _)%append_event_ok; [|done]. db_simpl. split.
  - destruct (managed_config_diagnostics db !! s) eqn:E; [|done]. apply (log_diagnostics _ Hlog) in E. lia.
  - destruct (command_evidence db !! s) eqn:E; [|done]. apply (log_commands _ Hlog) in E. lia.
Qed.

(** The transaction of a transition fails only with a digest collision. *)
Lemma transition_tx_total id change diagnostics command db current :
  db_inv db -> load_operation_from db id = Ok current -> o_stage current ∈ t_expected change ->
  (is_some diagnostics = true -> is_managed_config (o_plan current) = true) ->
  Z.of_nat (length (ledger_events db)) < i64_max ->
  (exists db', transition_tx id change diagnostics command db = Ok (tt, db')) \/
  (transition_tx id change diagnostics command db = Err EStorage /\ next_clash db).
Proof.
  intros Hdb Hl Hin Hm Hroom. unfold transition_tx. rewrite Hl. simpl.
  replace (is_some diagnostics && negb (is_managed_config (o_plan current))) with false
    by (destruct (is_some diagnostics); [rewrite Hm|]; done).
  rewrite bool_decide_eq_true_2 by done. simpl.
  set (db0 := set_operations (alter (transition_row current change) id) db).
  assert (log_inv db0) as Hlog0 by (by eapply (log_inv_ext db); [..|apply Hdb]).
  edestruct (append_total db0 db) as [(s & db1 & Happ)|[Happ Hn]]; [apply Hdb|done|done|done|done|left|right];
    unfold db0, transition_row in Happ; rewrite Happ; [|done].
  destruct (append_fresh _ _ _ _ Hlog0 Happ) as [Fd Fc].
  destruct diagnostics as [d|], command as [json|]; simpl; unfold insert_row, ok_or; rewrite ?Fd, ?Fc; simpl;
    db_simpl; rewrite ?Fc; by eexists.
Qed.

Lemma internal_success id change diagnostics command st current :
  store_inv st -> st_io_ok st = true -> load_operation_from (st_db st) id = Ok current ->
  o_stage current ∈ t_expected change -> leaves_active change ->
  evidence_wf (t_evidence_digest change) diagnostics command ->
  (is_some diagnostics = true -> is_managed_config (o_plan current) = true) ->
  Z.of_nat (length (ledger_events (st_db st))) < i64_max ->
  (exists st', transition_internal id change diagnostics command st = (Ok (transition_op current change), st')) \/
  (transition_internal id change diagnostics command st = (Err EStorage, st) /\ next_clash (st_db st)).
Proof.
  intros Hinv Hio Hl Hin Ha Hwf Hm Hroom. pose proof (si_db _ Hinv) as Hdb.
  destruct (transition_tx_total id change diagnostics command (st_db st) current)
    as [(db' & Htx)|[Htx Hclash]]; try done; [left|right; split; [|done]].
  2:{ unfold transition_internal, transact, mbind. by rewrite Htx. }
  pose proof (tx_transition id change diagnostics command (st_db st) db' Ha Hwf Htx) as Hstep.
  destruct (transition_tx_ok _ _ _ _ _ _ Hdb Htx)
    as (cur & row & s & db1 & diag & cmd & Hcur & _ & _ & Hrow & Happ & _ & _ & Hdb').
  assert (cur = current) as -> by congruence.
  apply append_event_rows in Happ as (Ep & Eo & _). db_simpl in Ep. db_simpl in Eo.
  eapply transact_reload; try done. eapply (load_after_update (st_db st)); try done.
  - rewrite Hdb'. edestruct mark_rows as (-> & _). by db_simpl.
  - rewrite Hdb'. edestruct mark_rows as (_ & -> & _). db_simpl. by rewrite Eo, lookup_insert_eq.
Qed.

Lemma internal_wrote id change diagnostics command st op st' :
  store_inv st -> transition_internal id change diagnostics command st = (Ok op, st') ->
  wrote (t_now_ms change) (st_db st) (st_db st').
Proof.
  intros Hinv Ht. pose proof (si_db _ Hinv) as Hdb.
  apply mbind_inv_ok in Ht as ([] & st1 & Htx & Ht). unfold transact in Htx.
  destruct (transition_tx _ _ _ _ (st_db st)) as [[[] db']|] eqn:Etx; [|done]. injection Htx as <-.
  destruct (transition_tx_ok _ _ _ _ _ _ Hdb Etx)
    as (cur & row & s & db1 & diag & cmd & _ & _ & _ & _ & Happ & _ & _ & Hdb').
  apply mbind_inv_ok in Ht as ([] & st2 & Hc & Hl). injection Hl as _ <-.
  pose proof (complete_rows (set_db db' st)) as (_ & _ & _ & _ & Ce & _). rewrite Hc in Ce. simpl in Ce.
  apply append_wrote in Happ as (e & He & Hr); [|by eapply (log_inv_ext (st_db st)); [..|apply Hdb]].
  exists e. rewrite Ce, Hdb'. edestruct mark_rows as (_ & _ & _ & _ & ->). by db_simpl.
Qed.

(** *** Snapshots *)

Definition attach_op (current : StoredOperation) (record : SnapshotRecord) : StoredOperation :=
  {| o_operation_id := o_operation_id current; o_plan := o_plan current; o_stage := Snapshotted;
     o_before_digest := o_before_digest current; o_after_digest := o_after_digest current;
     o_rollback_result := o_rollback_result current; o_snapshot := Some record |}.

Definition attach_row (snapshot : SnapshotRecord) (now_ms : Z) (row : OpRow) : OpRow :=
  {| or_plan_id := or_plan_id row;
     or_stage := stage_storage_value Snapshotted;
     or_before_digest := or_before_digest row;
     or_after_digest := or_after_digest row;
     or_rollback_result := or_rollback_result row;
     or_snapshot_relative_path := Some (sn_relative_path snapshot);
     or_snapshot_digest := Some (sn_digest snapshot);
     or_created_at_ms := or_created_at_ms row;
     or_updated_at_ms := now_ms |}.

Lemma load_after_attach db db' id current snapshot now row :
  load_operation_from db id = Ok current -> operations db !! id = Some row ->
  plans db' = plans db -> operations db' !! id = Some (attach_row snapshot now row) ->
  load_operation_from db' id = Ok (attach_op current snapshot).
Proof.
  intros Hl Hrow Hp Hrow'. unfold load_operation_from in *. rewrite Hrow in Hl. rewrite Hrow'.
  cbn [attach_row or_plan_id or_stage or_snapshot_relative_path or_snapshot_digest or_before_digest].
  unfold load_plan_from in *. rewrite Hp, parse_stage_storage.
  destruct (plans db !! or_plan_id row) as [prow|]; [|by break_in Hl].
  destruct (parse_plan_row prow); [|by break_in Hl].
  destruct snapshot.
  destruct (or_snapshot_relative_path row), (or_snapshot_digest row), (parse_stage (or_stage row));
    try discriminate Hl; injection Hl as <-; reflexivity.
Qed.

Lemma attach_tx_ok id snapshot now db db' :
  attach_snapshot_tx id snapshot now db = Ok (tt, db') ->
  exists row s db1 ev, operations db !! id = Some row /\ or_stage row = stage_storage_value Approved /\
    ei_recorded_at_ms ev = now /\
    append_event (set_operations (insert id (attach_row snapshot now row)) db) ev = Ok (s, db1) /\
    db' = mark_checkpoint_if_needed db1 s false.
Proof.
  intros Htx. unfold attach_snapshot_tx in Htx.
  destruct (operations db !! id) as [row|] eqn:Hrow; [|done].
  destruct (bool_decide _) eqn:Hst; [|done]. bool_prop.
  destruct (load_operation_from _ id); [|done].
  destruct (append_event _ _) as [[s db1]|] eqn:Ha; [|done]. injection Htx as <-.
  exists row, s, db1. eexists. split; [done|]. split; [done|]. split; [|split; [exact Ha|done]]. done.
Qed.

Lemma attach_success id snapshot now st current :
  store_inv st -> st_io_ok st = true -> load_operation_from (st_db st) id = Ok current ->
  o_stage current = Approved -> Z.of_nat (length (ledger_events (st_db st))) < i64_max ->
  (exists st', attach_snapshot id snapshot now st = (Ok (attach_op current snapshot), st')) \/
  (attach_snapshot id snapshot now st = (Err EStorage, st) /\ next_clash (st_db st)).
Proof.
  intros Hinv Hio Hl Hstage Hroom. pose proof (si_db _ Hinv) as Hdb.
  destruct (load_operation_from_inv _ _ _ (si_rows _ Hinv) Hl) as (row & Hrow & _ & _ & _ & _ & Hst).
  rewrite Hstage in Hst.
  assert (load_operation_from (set_operations (insert id (attach_row snapshot now row)) (st_db st)) id
          = Ok (attach_op current snapshot)) as Hl'.
  { eapply (load_after_attach (st_db st)); try done. db_simpl. by rewrite lookup_insert_eq. }
  assert ((exists db', attach_snapshot_tx id snapshot now (st_db st) = Ok (tt, db')) \/
          (attach_snapshot_tx id snapshot now (st_db st) = Err EStorage /\ next_clash (st_db st)))
    as [(db' & Htx)|[Htx Hclash]]; [|left|right; split; [|done]].
  { unfold attach_snapshot_tx. rewrite Hrow, Hst, bool_decide_eq_true_2 by done.
    fold (attach_row snapshot now row). rewrite Hl'.
    edestruct (append_total (set_operations (insert id (attach_row snapshot now row)) (st_db st)) (st_db st))
      as [(s & db' & Happ)|[Happ Hn]]; [apply Hdb|done|done|done|done|left|right]; rewrite Happ; by eauto. }
  2:{ unfold attach_snapshot, transact, mbind. by rewrite Htx. }
  destruct (attach_tx_ok _ _ _ _ _ Htx) as (row' & s & db1 & ev & Hr' & _ & _ & Happ & Hdb').
  assert (row' = row) as -> by congruence.
  apply append_event_rows in Happ as (Ep & Eo & _).
  eapply transact_reload; try done; [by eapply tx_attach|]. rewrite <- Hl'. apply load_operation_ext.
  - rewrite Hdb'. by edestruct mark_rows as (-> & _).
  - rewrite Hdb'. by edestruct mark_rows as (_ & -> & _).
Qed.

Lemma attach_snapshot_ok id snapshot now st op st' current :
  store_inv st -> load_operation_from (st_db st) id = Ok current ->
  attach_snapshot id snapshot now st = (Ok op, st') ->
  op = attach_op current snapshot /\ load_operation_from (st_db st') id = Ok op /\
  wrote now (st_db st) (st_db st').
Proof.
  intros Hinv Hl Ht. pose proof (si_db _ Hinv) as Hdb.
  apply mbind_inv_ok in Ht as ([] & st1 & Htx & Ht). unfold transact in Htx.
  destruct (attach_snapshot_tx _ _ _ (st_db st)) as [[[] db']|] eqn:Etx; [|done]. injection Htx as <-.
  destruct (attach_tx_ok _ _ _ _ _ Etx) as (row & s & db1 & ev & Hrow & _ & Hev & Happ & Hdb').
  apply mbind_inv_ok in Ht as ([] & st2 & Hc & Hld). unfold load_operation, read_db in Hld. injection Hld as Hld <-.
  pose proof (complete_rows (set_db db' st)) as (Cp & Co & _ & _ & Ce & _). rewrite Hc in Cp, Co, Ce. simpl in Cp, Co, Ce.
  pose proof (append_event_rows _ _ _ _ Happ) as (Ep & Eo & _). db_simpl in Ep. db_simpl in Eo.
  pose proof (mark_rows db1 s false) as (Mp & Mo & _ & _ & Me). rewrite <- Hdb' in Mp, Mo, Me.
  assert (load_operation_from (st_db st2) id = Ok (attach_op current snapshot)) as Hnew.
  { eapply (load_after_attach (st_db st)); [done|done|congruence|]. by rewrite Co, Mo, Eo, lookup_insert_eq. }
  split_and!; [congruence|congruence|].
  apply append_wrote in Happ as (e & He & Hr); [|by eapply (log_inv_ext (st_db st)); [..|apply Hdb]].
  exists e. rewrite Ce, Me. split; [done|congruence].
Qed.

(** *** Receipts *)

(** Every recorded time can be formatted. *)
Definition times_ok (db : Db) : Prop :=
  forall e, e ∈ ledger_events db -> is_some (rfc3339 (le_recorded_at_ms e)) = true.

Lemma wrote_times now db db' :
  times_ok db -> is_some (rfc3339 now) = true -> wrote now db db' -> times_ok db'.
Proof.
  intros Ht Hn (e & He & Hr) e' Hin. rewrite He in Hin.
  apply elem_of_app in Hin as [Hin| ->%list_elem_of_singleton]; [by apply Ht|by rewrite Hr].
Qed.

Lemma load_all_total {A B} (f : A -> oresult B) l :
  (forall x, x ∈ l -> is_ok (f x) = true) -> exists vs, load_all f l = Ok vs /\ length vs = length l.
Proof.
  induction l as [|x l IH]; intros Hf; simpl; [by eexists|].
  pose proof (Hf x ltac:(left)) as Hx. destruct (f x) as [v|]; [|done].
  destruct IH as (vs & -> & Hlen); [intros y Hy; apply Hf; by right|]. exists (v :: vs). simpl. by rewrite Hlen.
Qed.

Lemma stage_evidence_total st e :
  store_inv st -> times_ok (st_db st) -> e ∈ ledger_events (st_db st) ->
  is_ok (stage_evidence (st_db st) e) = true.
Proof.
  intros Hinv Ht Hin. pose proof (si_log _ Hinv) as Hlog. unfold stage_evidence.
  pose proof (log_evidence _ Hlog e Hin) as Hev. destruct (load_event_evidence _ _) as [[c d]|]; [|done].
  pose proof (chained_elem _ _ _ _ (log_chained _ Hlog) Hin) as Hs.
  replace (0 <=? le_sequence e) with true by (symmetry; apply Z.leb_le; lia).
  destruct (log_stages _ Hlog e Hin) as [s ->]. rewrite parse_stage_storage.
  specialize (Ht e Hin). unfold format_time. by destruct (rfc3339 _).
Qed.

Lemma elem_of_events_of db id e : e ∈ events_of db id -> e ∈ ledger_events db.
Proof. unfold events_of. intros Hin%list_elem_of_In%filter_In. apply list_elem_of_In, Hin. Qed.

(** What a receipt says about the operation. *)
Definition receipt_of (op : StoredOperation) (r : OperationReceiptView) : Prop :=
  rv_operation_id r = o_operation_id op /\ rv_terminal_state r = o_stage op /\
  rv_plan_hash r = p_plan_hash (o_plan op) /\ rv_actor r = p_actor (o_plan op) /\
  rv_before_digest r = o_before_digest op /\ rv_after_digest r = o_after_digest op /\
  rv_rollback_result r = o_rollback_result op.

Lemma receipt_total st id op :
  store_inv st -> times_ok (st_db st) -> load_operation_from (st_db st) id = Ok op ->
  exists r, receipt id st = (Ok r, st) /\ receipt_of op r.
Proof.
  intros Hinv Ht Hl. unfold receipt, read_db, receipt_from. rewrite Hl.
  destruct (load_all_total (stage_evidence (st_db st)) (events_of (st_db st) id)) as (vs & -> & Hlen).
  { intros e He%elem_of_events_of. by apply stage_evidence_total. }
  destruct (load_operation_from_inv _ _ _ (si_rows _ Hinv) Hl) as (row & Hrow & _).
  pose proof (proj2 (proj2 (si_db _ Hinv)) _ _ Hrow) as Hlast.
  destruct (last vs) as [v|] eqn:Hv; [simpl; by eexists|].
  apply last_None in Hv as ->. destruct (events_of (st_db st) id); [done|discriminate Hlen].
Qed.
End Total.
