(* ===== verification/LedgerProps.v ===== *)
(** * jw-opsd: properties of the durable ledger

    The guarantees of [ledger.rs], each on every store reachable from a fresh
    one by commits, checkpoint writes, I/O failures and crashes between them. *)

From Stdlib Require Import Ascii String.
From S2P Require Import Prelude Crypto Contracts Plans Adapters Ledger LedgerLog LedgerInv LedgerStore.
From S2P Require Import LedgerApi Reference.

Section Props.
Context `{Externals}.

(** A new installation: empty tables, no checkpoint file. *)
Definition fresh (st : Store) : Prop :=
  st_db st = empty_db /\ st_checkpoint st = None /\ owned st (st_euid st).

Definition reachable (st : Store) : Prop := exists st0, fresh st0 /\ rtc store_step st0 st.

Lemma fresh_inv st : fresh st -> store_inv st.
Proof.
  intros (Hdb & Hc & Ho). constructor.
  - rewrite Hdb. apply db_inv_empty.
  - exact Ho.
  - unfold pending. rewrite Hdb. done.
  - exists 0. unfold checkpoint_covers. rewrite Hc, Hdb. split; [done|]. by left.
Qed.

Lemma reachable_inv st : reachable st -> store_inv st.
Proof. intros (st0 & Hf & Hr). eapply store_steps_inv; [by apply fresh_inv|done]. Qed.

Lemma reachable_step st st' : reachable st -> rtc store_step st st' -> reachable st'.
Proof. intros (st0 & Hf & Hr) Hs. exists st0. split; [done|by etrans]. Qed.

(** C1: restart after any crash.  Whatever sequence of committed transactions,
    failed or interrupted checkpoint writes and I/O outages happened, the
    daemon's [Ledger::open] succeeds on a healthy machine, keeps every event
    and leaves no checkpoint pending. *)
Theorem open_after_any_crash st :
  reachable st -> healthy st -> Z.of_nat (length (ledger_events (st_db st))) < i64_max ->
  exists st', open st = (Ok tt, st') /\ store_inv st' /\ pending (st_db st') = None /\
    ledger_events (st_db st') = ledger_events (st_db st).
Proof. intros Hr. apply open_ok, reachable_inv, Hr. Qed.

(** C2: tamper evidence.  Two stores whose history passes
    [validate_continuity] and whose checkpoint files hold the same bytes have
    identical event rows up to the checkpoint, unless one of those rows of the
    first and one of the second hash different bytes to the same SHA-256:
    rewriting history behind the checkpoint is detected. *)
Theorem checkpoint_pins_history st st' m m' bytes c :
  validate_continuity st = Ok tt -> validate_continuity st' = Ok tt ->
  Z.of_nat (length (ledger_events (st_db st))) < i64_max ->
  Z.of_nat (length (ledger_events (st_db st'))) < i64_max ->
  st_checkpoint st = Some (m, bytes) -> st_checkpoint st' = Some (m', bytes) ->
  from_json bytes = Some c ->
  take (Z.to_nat (cp_sequence c)) (ledger_events (st_db st)) =
  take (Z.to_nat (cp_sequence c)) (ledger_events (st_db st')) \/
  clashing (take (Z.to_nat (cp_sequence c)) (ledger_events (st_db st)))
           (take (Z.to_nat (cp_sequence c)) (ledger_events (st_db st'))).
Proof.
  intros Hv Hv' Hroom Hroom' Hc Hc' Hj.
  assert (forall s mm, validate_continuity s = Ok tt ->
            Z.of_nat (length (ledger_events (st_db s))) < i64_max ->
            st_checkpoint s = Some (mm, bytes) ->
            chained 1 GENESIS_DIGEST (ledger_events (st_db s)) /\
            digest_at (ledger_events (st_db s)) (cp_sequence c) = Some (cp_event_digest c)) as Hkey.
  { intros s mm Hs Hr Hck. unfold validate_continuity in Hs.
    destruct (st_integrity s); [|done].
    destruct (continuity_loop _ _ _ _) as [n|] eqn:El; [|done].
    apply continuity_loop_sound in El as (Hch & _ & _); [|lia|lia]. split; [done|].
    unfold validate_checkpoint in Hs. rewrite Hck, Hj in Hs. unfold ok_or in Hs. break_in Hs.
    bool_prop. done. }
  destruct (Hkey _ _ Hv Hroom Hc) as [Ha Hd]. destruct (Hkey _ _ Hv' Hroom' Hc') as [Ha' Hd'].
  by eapply chained_agree.
Qed.

(** C3: mutual exclusion.  Two operations that are both in a non-terminal
    stage and share a resource key, or both need the Nginx reload lock, are
    the same operation. *)
Theorem active_operations_exclusive st id1 id2 op1 op2 :
  reachable st ->
  load_operation_from (st_db st) id1 = Ok op1 -> load_operation_from (st_db st) id2 = Ok op2 ->
  is_terminal (o_stage op1) = false -> is_terminal (o_stage op2) = false ->
  p_resource_key (o_plan op1) = p_resource_key (o_plan op2) \/
  (needs_reload_lock (o_plan op1) = true /\ needs_reload_lock (o_plan op2) = true) ->
  id1 = id2.
Proof.
  intros Hr H1 H2 T1 T2 Hshare. destruct (si_db _ (reachable_inv _ Hr)) as (_ & Hrows & _).
  destruct (load_operation_from_inv _ _ _ Hrows H1) as (r1 & L1 & _ & P1 & K1 & _ & S1).
  destruct (load_operation_from_inv _ _ _ Hrows H2) as (r2 & L2 & _ & P2 & K2 & _ & S2).
  rewrite <- (terminal_value_stage (o_stage op1)), <- S1 in T1.
  rewrite <- (terminal_value_stage (o_stage op2)), <- S2 in T2.
  destruct (ri_held _ _ _ _ Hrows _ _ _ L1 T1 P1 K1) as [A1 B1].
  destruct (ri_held _ _ _ _ Hrows _ _ _ L2 T2 P2 K2) as [A2 B2].
  destruct Hshare as [Hk|[N1 N2]]; [rewrite Hk in A1|specialize (B1 N1); specialize (B2 N2)]; congruence.
Qed.

(** C4: approval guards.  [begin_operation] returns an operation only for the
    plan's own hash, idempotency key and actor, strictly before its expiry; the
    operation returned is the plan's.  A new one starts in stage [Approved]
    without snapshot, under the requested id, and holds the plan's resource
    lock; otherwise nothing is written. *)
Theorem begin_operation_guards st id plan_id hash key actor now op st' :
  reachable st -> begin_operation id plan_id hash key actor now st = (Ok op, st') ->
  exists plan, load_plan_from (st_db st) plan_id = Ok plan /\
    p_plan_hash plan = hash /\ p_idempotency_key plan = key /\ p_actor plan = actor /\
    now < p_expires_at_ms plan /\ o_plan op = plan /\
    ((st' = st /\ load_operation_from (st_db st) (o_operation_id op) = Ok op) \/
     (operations (st_db st) !! id = None /\ op = begin_op id plan /\
      lr_operation_id <$> resource_locks (st_db st') !! p_resource_key plan = Some id)).
Proof.
  intros Hr Hb. destruct (begin_operation_ok _ _ _ _ _ _ _ _ _ (reachable_inv _ Hr) Hb)
    as (plan & Hp & Hh & Hk & Ha & Hx & Hop & [[Hs Hl]|(Hf & -> & _ & _ & Hlk)]); [by eauto 15|].
  exists plan. split_and!; try done. right. split_and!; try done. rewrite Hlk.
  unfold begin_locks, lock_insert. destruct (needs_reload_lock plan); [|by rewrite lookup_insert_eq].
  destruct (decide ("nginx/reload" = p_resource_key plan)%string) as [<-|Hn];
    rewrite ?lookup_insert_eq; [done|]. by rewrite lookup_insert_ne, lookup_insert_eq.
Qed.

(** One operation per plan.  Approving a plan again, at any later time and
    under any requested id, returns the operation the first approval created
    and writes nothing. *)
Theorem approval_idempotent st id1 id2 plan_id hash key actor t1 t2 op1 st1 st2 op2 st3 :
  reachable st -> id1 <> EmptyString -> id2 <> EmptyString ->
  begin_operation id1 plan_id hash key actor t1 st = (Ok op1, st1) ->
  rtc store_step st1 st2 ->
  begin_operation id2 plan_id hash key actor t2 st2 = (Ok op2, st3) ->
  o_operation_id op2 = o_operation_id op1 /\ st3 = st2.
Proof.
  intros Hr N1 N2 B1 Hs B2. pose proof (reachable_inv _ Hr) as I0.
  pose proof (steps_result _ _ _ _ (steps_begin id1 plan_id hash key actor t1 N1) B1) as S1.
  pose proof (store_steps_inv _ _ I0 S1) as I1. pose proof (store_steps_inv _ _ I1 Hs) as I2.
  pose proof (steps_result _ _ _ _ (steps_begin id2 plan_id hash key actor t2 N2) B2) as S3.
  pose proof (store_steps_inv _ _ I2 S3) as I3.
  destruct (begin_operation_row _ _ _ _ _ _ _ _ _ I0 N1 B1) as (r1 & L1 & P1).
  destruct (begin_operation_row _ _ _ _ _ _ _ _ _ I2 N2 B2) as (r & L & P).
  destruct (le_ops _ _ (store_steps_le _ _ I1 Hs) _ _ L1) as (r2 & L2 & E2 & _).
  destruct (le_ops _ _ (store_steps_le _ _ I2 S3) _ _ L2) as (r3 & L3 & E3 & _).
  assert (o_operation_id op2 = o_operation_id op1) as Heq
    by (eapply (ri_one_op _ _ _ _ (si_rows _ I3)); [done|done|congruence]).
  split; [done|]. destruct (begin_operation_ok _ _ _ _ _ _ _ _ _ I2 B2)
    as (p & _ & _ & _ & _ & _ & _ & [[-> _]|(Hf & -> & _)]); [done|].
  simpl in Heq. congruence.
Qed.

(** Idempotent planning.  Once a plan has been recorded under an
    idempotency key, every later request with that key returns the recorded
    plan if the request digest is the same, fails with [idempotency_conflict]
    if it differs, and changes nothing in either case. *)
Theorem planning_idempotent st plan plan' p st1 st2 :
  reachable st -> plan_ok plan ->
  create_or_reuse_plan plan st = (Ok p, st1) -> rtc store_step st1 st2 ->
  p_idempotency_key plan' = p_idempotency_key plan ->
  create_or_reuse_plan plan' st2 =
    (if bool_decide (p_request_digest plan' = p_request_digest plan) then Ok p
     else Err (ERejected "idempotency_conflict"), st2).
Proof.
  intros Hr Hok Hc Hs Hkey. pose proof (reachable_inv _ Hr) as I0.
  pose proof (steps_result _ _ _ _ (steps_create plan Hok) Hc) as S1.
  pose proof (store_steps_inv _ _ I0 S1) as I1. pose proof (store_steps_inv _ _ I1 Hs) as I2.
  destruct (create_or_reuse_plan_ok _ _ _ _ I0 Hok Hc) as (r & Hk & Hd & Hl).
  destruct (store_steps_le _ _ I1 Hs) as [_ Hpl Hks _]. destruct (Hks _ _ Hk) as (r' & Hk' & Hp' & Hd').
  unfold create_or_reuse_plan, mbind, transact, create_or_reuse_plan_tx.
  rewrite Hkey, Hk', Hd', Hd. rewrite (bool_decide_ext _ (p_request_digest plan' = p_request_digest plan)) by done.
  case_bool_decide; simpl; [|done].
  destruct (load_plan_from_inv _ _ _ (si_rows _ I1) Hl) as (Hrow & Hpok & _).
  unfold load_plan_from. rewrite Hp', (lookup_weaken _ _ _ _ Hrow Hpl), parse_plan_row_ok by done.
  by destruct st2.
Qed.

(** C8: history is append-only.  Along any sequence of steps the event log
    only grows at its end, recorded plans never change, and an operation
    keeps its plan, its before-digest and its creation time; one in a terminal
    stage keeps its whole row and gets no further event. *)
Theorem history_append_only st st' :
  reachable st -> rtc store_step st st' -> db_le (st_db st) (st_db st').
Proof. intros Hr. apply store_steps_le, reachable_inv, Hr. Qed.

(** The event log is the truth about stages.  The stage an operation
    reports is the stage of its last event, and it has at least one event. *)
Theorem stage_is_last_event st id op :
  reachable st -> load_operation_from (st_db st) id = Ok op ->
  le_stage <$> last (events_of (st_db st) id) = Some (stage_storage_value (o_stage op)).
Proof.
  intros Hr Hl. pose proof (reachable_inv _ Hr) as I.
  destruct (load_operation_from_inv _ _ _ (si_rows _ I) Hl) as (row & Hrow & _ & _ & _ & _ & <-).
  by apply (si_db _ I).
Qed.

Lemma load_all_ok {A B} (f : A -> oresult B) keys :
  (forall k, k ∈ keys -> is_ok (f k) = true) ->
  exists vs, load_all f keys = Ok vs /\ forall v, v ∈ vs <-> exists k, k ∈ keys /\ f k = Ok v.
Proof.
  induction keys as [|k keys IH]; intros Hk; simpl.
  - exists []. split; [done|]. intros v. split; [by intros ?%elem_of_nil|].
    intros (k & Hin & _). by apply elem_of_nil in Hin.
  - pose proof (Hk k ltac:(left)) as Hf. destruct (f k) as [v|] eqn:E; [|done].
    destruct IH as (vs & -> & Hvs); [intros k' Hk'; apply Hk; by right|].
    exists (v :: vs). split; [done|]. intros w. rewrite elem_of_cons, Hvs. split.
    + intros [->|(k' & Hk' & Hw)]; [exists k; split; [left|done]|exists k'; split; [by right|done]].
    + intros (k' & [->|Hk']%elem_of_cons & Hw); [left; congruence|right; by eauto].
Qed.

Lemma elem_of_incomplete_ids db id :
  id ∈ incomplete_ids db <->
  exists row, operations db !! id = Some row /\ terminal_value (or_stage row) = false.
Proof.
  unfold incomplete_ids. rewrite list_elem_of_fmap. split.
  - intros ([t i] & -> & Hin). rewrite elem_of_isort, list_elem_of_fmap in Hin.
    destruct Hin as ([k row] & Heq & Hin). simplify_eq/=.
    apply list_elem_of_In, filter_In in Hin as [Hin Ht]. apply list_elem_of_In, elem_of_map_to_list in Hin.
    simpl in Ht. bool_prop. by eauto.
  - intros (row & Hrow & Ht). exists (or_created_at_ms row, id). split; [done|].
    rewrite elem_of_isort, list_elem_of_fmap. exists (id, row). split; [done|].
    apply list_elem_of_In, filter_In. split; [by apply list_elem_of_In, elem_of_map_to_list|].
    simpl. by rewrite Ht.
Qed.

(** Restart finds exactly the unfinished work.  [incomplete_operations]
    succeeds on every reachable store and returns exactly the stored
    operations whose stage is not terminal. *)
Theorem incomplete_operations_exact st :
  reachable st ->
  exists ops, incomplete_operations st = (Ok ops, st) /\
    forall op, op ∈ ops <->
      exists id, load_operation_from (st_db st) id = Ok op /\ is_terminal (o_stage op) = false.
Proof.
  intros Hr. pose proof (reachable_inv _ Hr) as I. unfold incomplete_operations, read_db.
  destruct (load_all_ok (load_operation_from (st_db st)) (incomplete_ids (st_db st))) as (ops & -> & Hops).
  { intros k (row & Hrow & _)%elem_of_incomplete_ids.
    destruct (load_operation_from_ok _ _ _ (si_rows _ I) Hrow) as (op & -> & _). done. }
  exists ops. split; [done|]. intros op. rewrite Hops. split.
  - intros (id & (row & Hrow & Ht)%elem_of_incomplete_ids & Hl). exists id. split; [done|].
    destruct (load_operation_from_inv _ _ _ (si_rows _ I) Hl) as (row' & Hrow' & _ & _ & _ & _ & Hst).
    rewrite <- terminal_value_stage, <- Hst. congruence.
  - intros (id & Hl & Ht). exists id. split; [|done]. apply elem_of_incomplete_ids.
    destruct (load_operation_from_inv _ _ _ (si_rows _ I) Hl) as (row' & Hrow' & _ & _ & _ & _ & Hst).
    exists row'. split; [done|]. by rewrite Hst, terminal_value_stage.
Qed.

(** C11: an interrupted migration is not repeatable.  A crash after the DDL
    batch of migration [v + 1] and before its [user_version] update leaves a
    store on which [migrate], hence [Ledger::open], fails with a storage error
    and changes nothing, so every later start fails the same way. *)
Theorem interrupted_migration_sticks st v :
  schema_clean st -> st_user_version st = v -> 1 <= v <= 7 ->
  exists st1, execute_batch (v + 1) st = (Ok tt, st1) /\ migrate st1 = (Err EStorage, st1).
Proof.
  intros [_ Hm] Hv Hr. destruct st as [db v0 ms ig io eu enf par dbf sc ck]; simpl in *. subst v0 ms.
  assert (v ∈ [1;2;3;4;5;6;7]) as Hin by (rewrite !elem_of_cons; lia).
  repeat (apply elem_of_cons in Hin as [->|Hin]; [eexists; split; reflexivity|]).
  by apply elem_of_nil in Hin.
Qed.

(** Evidence round trip.  Diagnostics and command evidence recorded with
    a transition are what the ledger reads back, after its digest checks, for
    the event of that transition. *)
Theorem evidence_roundtrip st id change ds c op st' :
  reachable st -> ds <> [] ->
  transition_with_diagnostics_and_command id change ds c st = (Ok op, st') ->
  exists e, last (ledger_events (st_db st')) = Some e /\ le_operation_id e = id /\
    load_event_evidence (st_db st') e = Ok (Some c, ds).
Proof.
  intros Hr Hne Ht. pose proof (reachable_inv _ Hr) as I.
  unfold transition_with_diagnostics_and_command in Ht. rewrite bool_decide_eq_false_2 in Ht by done.
  unfold mlift, mbind in Ht. destruct (prepare_command_evidence _ _) as [json|] eqn:Ec; [|done].
  destruct (prepare_diagnostics _ _) as [[d digest]|] eqn:Ed; [|done]. unfold transition_internal in Ht.
  apply mbind_inv_ok in Ht as ([] & st1 & Htx & Ht). unfold transact in Htx.
  destruct (transition_tx _ _ _ _ (st_db st)) as [[[] db']|] eqn:Etx; [|done]. injection Htx as <-.
  destruct (transition_tx_ok _ _ _ _ _ _ (si_db _ I) Etx)
    as (current & row & s & db1 & diag & cmd & _ & _ & _ & _ & Happ & -> & -> & Hdb').
  apply append_event_ok in Happ as (e & Hdb1 & _ & _ & (Hseq & _) & He);
    [|by eapply (log_inv_ext (st_db st)); [..|apply (si_log _ I)]].
  apply mbind_inv_ok in Ht as ([] & st2 & Hc & Hl). injection Hl as _ <-.
  pose proof (complete_rows (set_db db' st)) as (_ & _ & _ & _ & Ce & Cc & Cd).
  rewrite Hc in Ce, Cc, Cd. simpl in Ce, Cc, Cd.
  assert (ledger_events db' = ledger_events (st_db st) ++ [e] /\
          command_evidence db' !! s = Some json /\
          managed_config_diagnostics db' !! s = Some (diag_row d)) as (Le & Lc & Ld).
  { rewrite Hdb', Hdb1. unfold mark_checkpoint_if_needed.
    destruct (_ || _); db_simpl; by rewrite !lookup_insert_eq. }
  exists e. rewrite Ce, Le, last_snoc. split_and!; [done|by rewrite He|].
  unfold load_event_evidence. rewrite Cc, Cd, Hseq, Lc, Ld.
  destruct (prepare_diagnostics_load _ _ _ _ Ed) as [Hb Hld].
  assert (le_evidence_digest e = digest) as -> by (by rewrite He).
  fold (diag_row d) in Hld. rewrite (prepare_command_load _ _ _ _ _ Ec) by done. by rewrite Hld.
Qed.
End Props.

(** ** Witnesses

    A plan, its approval and its first transitions, evaluated with the
    reference instances of the external crates. *)
Module Demo.
Definition actor : Subject := {| uid := 1000; username := "operator"; role := Operator |}.

Definition assurance : AssuranceView :=
  {| level := G2ReversibleConfig; rollback_support := AutomaticBounded; operation_available := true;
     scope := ["site"%string]; excluded_effects := []; apply_verifier := ["nginx -t"%string];
     rollback_verifier := []; reason := None |}.

Definition plan : StoredPlan :=
  {| p_operation_type := MANAGED_CONFIG_OPERATION; p_plan_id := "plan_1";
     p_plan_hash := GENESIS_DIGEST; p_actor := actor; p_site_id := "ngm_1"; p_display_name := "nginx.conf";
     p_current_state := Enabled; p_target_state := Enabled; p_available_digest := GENESIS_DIGEST;
     p_enabled_state_digest := GENESIS_DIGEST; p_created_at_ms := 1000; p_expires_at_ms := 5000;
     p_idempotency_key := "key-0000-0000-0001"; p_request_digest := GENESIS_DIGEST;
     p_resource_key := "config/ngm_1"; p_assurance := assurance; p_managed_config := None;
     p_certbot_renew := None; p_certbot_issue := None; p_certbot_attach := None; p_ufw_rule := None |}.

Definition store0 : Store :=
  {| st_db := empty_db; st_user_version := 0; st_migrations := []; st_integrity := true;
     st_io_ok := true; st_euid := 0; st_enforce_root_ownership := true; st_parent := None;
     st_database_file := None; st_sidecar_files := [None; None]; st_checkpoint := None |}.

Definition change (expected : list OperationStage) (next : OperationStage) (digest : string) : Transition :=
  {| t_expected := expected; t_next := next; t_result_code := "step"; t_evidence_digest := digest;
     t_after_digest := None; t_rollback_result := None; t_now_ms := 1200 |}.

Definition command : OperationCommandEvidenceView :=
  {| ev_class := "nginx_config_test"; ev_success := false; ev_exit_code := Some 1; ev_timed_out := false;
     ev_stdout_digest := GENESIS_DIGEST; ev_stdout_truncated := false;
     ev_stderr_digest := GENESIS_DIGEST; ev_stderr_truncated := false |}.

Definition diagnostic : ManagedConfigDiagnosticView :=
  {| dg_service := "nginx"; dg_validator := "nginx-t"; dg_resource_id := None; dg_masked_path := None;
     dg_line := Some 3; dg_column := None; dg_severity := SevError; dg_code := "unexpected_token";
     dg_message := "unexpected token"; dg_related_changed_lines := []; dg_cause_candidate_lines := [] |}.

Existing Instance reference.

Definition create : LM StoredPlan := create_or_reuse_plan plan.
Definition approve (id : string) : LM StoredOperation :=
  begin_operation id "plan_1" GENESIS_DIGEST "key-0000-0000-0001" actor 1100.
Definition apply_change : LM StoredOperation :=
  transition "op_1" (change [Approved] Applying GENESIS_DIGEST).
Definition finish : LM StoredOperation :=
  transition "op_1" (change [Applying] Succeeded GENESIS_DIGEST).

Definition planned : Store := (create store0).2.
Definition approved : Store := (approve "op_1" planned).2.
Definition applying : Store := (apply_change approved).2.
Definition finished : Store := (finish applying).2.

Lemma leaves e n d : (forall s, s ∈ e -> is_terminal s = false) -> leaves_active (change e n d).
Proof. done. Defined.

Lemma plan_is_ok : plan_ok plan.
Proof. unfold plan_ok, u32_max. simpl. lia. Defined.

Lemma planned_steps : rtc store_step store0 planned.
Proof. apply (steps_create plan plan_is_ok). Defined.

Lemma approved_steps : rtc store_step planned approved.
Proof. apply steps_begin. done. Defined.

Lemma applying_steps : rtc store_step approved applying.
Proof. apply steps_transition. intros s ->%list_elem_of_singleton. done. Defined.

Lemma finished_steps : rtc store_step applying finished.
Proof. apply steps_transition. intros s ->%list_elem_of_singleton. done. Defined.

Lemma fresh0 : fresh store0.
Proof. done. Defined.

Lemma reachable0 : reachable store0.
Proof. exists store0. split; [apply fresh0|apply rtc_refl]. Defined.
Lemma planned_reachable : reachable planned.
Proof. exact (reachable_step _ _ reachable0 planned_steps). Defined.
Lemma approved_reachable : reachable approved.
Proof. exact (reachable_step _ _ planned_reachable approved_steps). Defined.
Lemma applying_reachable : reachable applying.
Proof. exact (reachable_step _ _ approved_reachable applying_steps). Defined.
Lemma finished_reachable : reachable finished.
Proof. exact (reachable_step _ _ applying_reachable finished_steps). Defined.

(** The values the runs return. *)
Definition value {A} (d : A) (r : oresult A) : A := match r with Ok a => a | Err _ => d end.
Definition no_operation : StoredOperation := begin_op "" plan.
Definition operation (st : Store) : StoredOperation :=
  value no_operation (load_operation_from (st_db st) "op_1").
End Demo.

Module LedgerWitness.
Import Demo.

(** The last transition committed, its checkpoint write failed, the machine
    came back. *)
Definition crashed : Store := set_io true (finish (set_io false applying)).2.

Lemma crashed_reachable : reachable crashed.
Proof.
  eapply reachable_step; [exact applying_reachable|].
  eapply rtc_l; [apply (set_io_step false)|]. eapply rtc_r; [|apply (set_io_step true)].
  apply steps_transition. intros s ->%list_elem_of_singleton. done.
Defined.

Lemma crashed_healthy : healthy crashed.
Proof.
  split; try (vm_compute; reflexivity); try (vm_compute; exact I).
  - vm_compute. repeat constructor.
  - split; [vm_compute; split; discriminate|vm_compute; reflexivity].
Defined.

Lemma open_after_any_crash_witness :
  pending (st_db crashed) = Some 4 /\ st_checkpoint crashed = None /\
  exists st', open crashed = (Ok tt, st') /\ store_inv st' /\ pending (st_db st') = None /\
    ledger_events (st_db st') = ledger_events (st_db crashed).
Proof.
  split; [vm_compute; reflexivity|]. split; [vm_compute; reflexivity|].
  apply (open_after_any_crash crashed crashed_reachable crashed_healthy). vm_compute. reflexivity.
Defined.

Lemma checkpoint_pins_history_witness :
  let bytes := to_json {| cp_schema_version := 1; cp_sequence := 4;
                          cp_event_digest := default ""%string (digest_at (ledger_events (st_db finished)) 4) |} in
  take 4 (ledger_events (st_db finished)) = take 4 (ledger_events (st_db finished)) \/
  clashing (take 4 (ledger_events (st_db finished))) (take 4 (ledger_events (st_db finished))).
Proof.
  intros bytes.
  apply (checkpoint_pins_history finished finished (own_file finished) (own_file finished) bytes
    {| cp_schema_version := 1; cp_sequence := 4;
       cp_event_digest := default ""%string (digest_at (ledger_events (st_db finished)) 4) |});
    vm_compute; reflexivity.
Defined.

Lemma active_operations_exclusive_witness : "op_1"%string = "op_1"%string.
Proof.
  apply (active_operations_exclusive applying "op_1" "op_1" (operation applying) (operation applying)
    applying_reachable); try (vm_compute; reflexivity).
  left. reflexivity.
Defined.

Lemma begin_operation_guards_witness :
  exists p, load_plan_from (st_db planned) "plan_1" = Ok p /\
    p_plan_hash p = GENESIS_DIGEST /\ p_idempotency_key p = "key-0000-0000-0001"%string /\
    p_actor p = actor /\ 1100 < p_expires_at_ms p /\ o_plan (operation approved) = p /\
    ((approved = planned /\
      load_operation_from (st_db planned) (o_operation_id (operation approved)) = Ok (operation approved)) \/
     (operations (st_db planned) !! "op_1" = None /\ operation approved = begin_op "op_1" p /\
      lr_operation_id <$> resource_locks (st_db approved) !! p_resource_key p = Some "op_1")).
Proof.
  apply (begin_operation_guards planned "op_1" "plan_1" GENESIS_DIGEST "key-0000-0000-0001" actor 1100).
  - exact planned_reachable.
  - vm_compute. reflexivity.
Defined.

Lemma approval_idempotent_witness :
  o_operation_id (operation applying) = o_operation_id (operation approved) /\ applying = applying.
Proof.
  apply (approval_idempotent planned "op_1" "op_2" "plan_1" GENESIS_DIGEST "key-0000-0000-0001" actor
    1100 1100 (operation approved) approved applying (operation applying) applying planned_reachable).
  - discriminate.
  - discriminate.
  - vm_compute. reflexivity.
  - exact applying_steps.
  - vm_compute. reflexivity.
Defined.

Lemma planning_idempotent_witness :
  create_or_reuse_plan plan approved =
  (if bool_decide (p_request_digest plan = p_request_digest plan) then Ok plan
   else Err (ERejected "idempotency_conflict"), approved).
Proof.
  apply (planning_idempotent store0 plan plan plan planned approved reachable0 plan_is_ok).
  - vm_compute. reflexivity.
  - exact approved_steps.
  - reflexivity.
Defined.

Lemma history_append_only_witness : db_le (st_db store0) (st_db planned).
Proof. apply (history_append_only store0 planned reachable0 planned_steps). Defined.

Lemma stage_is_last_event_witness :
  le_stage <$> last (events_of (st_db finished) "op_1") = Some (stage_storage_value Succeeded).
Proof.
  apply (stage_is_last_event finished "op_1" (operation finished) finished_reachable).
  vm_compute. reflexivity.
Defined.

Lemma incomplete_operations_exact_witness :
  exists ops, incomplete_operations applying = (Ok ops, applying) /\
    forall op, op ∈ ops <->
      exists id, load_operation_from (st_db applying) id = Ok op /\ is_terminal (o_stage op) = false.
Proof. apply (incomplete_operations_exact applying applying_reachable). Defined.

Lemma interrupted_migration_sticks_witness :
  let st := set_schema 1 [] store0 in
  exists st1, execute_batch 2 st = (Ok tt, st1) /\ migrate st1 = (Err EStorage, st1).
Proof.
  intros st. apply (interrupted_migration_sticks st 1).
  - split; [vm_compute; split; discriminate|reflexivity].
  - reflexivity.
  - lia.
Defined.

Definition noted : oresult StoredOperation * Store :=
  transition_with_diagnostics_and_command "op_1"
    (change [Applying] RollingBack (command_evidence_digest command)) [diagnostic] command applying.

Lemma evidence_roundtrip_witness :
  exists e, last (ledger_events (st_db noted.2)) = Some e /\ le_operation_id e = "op_1"%string /\
    load_event_evidence (st_db noted.2) e = Ok (Some command, [diagnostic]).
Proof.
  apply (evidence_roundtrip applying "op_1" (change [Applying] RollingBack (command_evidence_digest command))
    [diagnostic] command (value no_operation noted.1) noted.2 applying_reachable).
  - discriminate.
  - vm_compute. reflexivity.
Defined.
End LedgerWitness.
