(* ===== verification/Text.v ===== *)
(** * Text handling of the Rust standard library used by the parsers

    A [&str] is a byte string; the methods that work on characters
    ([trim], [split_whitespace], [lines]) are defined on the list of its UTF-8
    encoded characters. *)

From Stdlib Require Import Ascii String.
From S2P Require Import Prelude Crypto.

(** ** Characters *)

(** One encoded character of a well-formed string, as its bytes. *)
Definition char := string.

Definition cont (c : ascii) : bool := in_range 128 191 c.

(** Second byte allowed after a three- or four-byte lead (Unicode table 3-7). *)
Definition second3 (a b : ascii) : bool :=
  if byte_is 224 a then in_range 160 191 b
  else if in_range 225 236 a || in_range 238 239 a then cont b
  else byte_is 237 a && in_range 128 159 b.

Definition second4 (a b : ascii) : bool :=
  if byte_is 240 a then in_range 144 191 b
  else if in_range 241 243 a then cont b
  else byte_is 244 a && in_range 128 143 b.

Definition REPLACEMENT : char :=
  String (chr 239) (String (chr 191) (String (chr 189) EmptyString)).

Definition s1 (a : ascii) : string := String a EmptyString.
Definition s2 (a b : ascii) : string := String a (s1 b).
Definition s3 (a b c : ascii) : string := String a (s2 b c).
Definition s4 (a b c d : ascii) : string := String a (s3 b c d).

(** [String::from_utf8_lossy]: each maximal ill-formed prefix becomes U+FFFD.
    The fuel is the number of bytes, one at least being consumed per step. *)
Fixpoint lossy_fuel (fuel : nat) (s : string) : list char :=
  match fuel with
  | O => []
  | S f =>
      match s with
      | EmptyString => []
      | String a r =>
          if in_range 0 127 a then s1 a :: lossy_fuel f r
          else match r with
          | EmptyString => [REPLACEMENT]
          | String b r2 =>
              if in_range 194 223 a then
                (if cont b then s2 a b :: lossy_fuel f r2 else REPLACEMENT :: lossy_fuel f r)
              else if in_range 224 239 a && second3 a b then
                match r2 with
                | String c r3 => if cont c then s3 a b c :: lossy_fuel f r3 else REPLACEMENT :: lossy_fuel f r2
                | EmptyString => [REPLACEMENT]
                end
              else if in_range 240 244 a && second4 a b then
                match r2 with
                | String c (String d r4) =>
                    if cont c then
                      (if cont d then s4 a b c d :: lossy_fuel f r4
                       else REPLACEMENT :: lossy_fuel f (String d r4))
                    else REPLACEMENT :: lossy_fuel f r2
                | String c EmptyString =>
                    if cont c then [REPLACEMENT] else REPLACEMENT :: lossy_fuel f r2
                | EmptyString => [REPLACEMENT]
                end
              else REPLACEMENT :: lossy_fuel f r
          end
      end
  end.

Definition from_utf8_lossy (s : string) : list char := lossy_fuel (String.length s) s.

(** The bytes of a text. *)
Definition text (cs : list char) : string := sconcat cs.

(** ** White space, lines and tokens *)

(** [char::is_whitespace] (Unicode [White_Space]). *)
Definition is_whitespace (c : char) : bool :=
  match c with
  | String a EmptyString => in_range 9 13 a || byte_is 32 a
  | String a (String b EmptyString) => byte_is 194 a && (byte_is 133 b || byte_is 160 b)
  | String a (String b (String d EmptyString)) =>
      (byte_is 225 a && byte_is 154 b && byte_is 128 d)
      || (byte_is 226 a && byte_is 128 b
          && (in_range 128 138 d || byte_is 168 d || byte_is 169 d || byte_is 175 d))
      || (byte_is 226 a && byte_is 129 b && byte_is 159 d)
      || (byte_is 227 a && byte_is 128 b && byte_is 128 d)
  | _ => false
  end.

Fixpoint drop_while {A} (p : A -> bool) (l : list A) : list A :=
  match l with
  | [] => []
  | x :: l' => if p x then drop_while p l' else l
  end.

Definition trim_start (cs : list char) : list char := drop_while is_whitespace cs.
Definition trim_end (cs : list char) : list char := rev (drop_while is_whitespace (rev cs)).
Definition trim (cs : list char) : list char := trim_end (trim_start cs).

(** Pieces between the characters that satisfy [p], empty ones included. *)
Fixpoint split_by (p : char -> bool) (cs : list char) : list (list char) :=
  match cs with
  | [] => [[]]
  | c :: cs' =>
      if p c then [] :: split_by p cs'
      else match split_by p cs' with
           | piece :: rest => (c :: piece) :: rest
           | [] => [[c]]
           end
  end.

Definition split_whitespace (cs : list char) : list (list char) :=
  List.filter (fun piece => negb (bool_decide (piece = []))) (split_by is_whitespace cs).

Definition is_newline (c : char) : bool := bool_decide (c = s1 (chr 10)).

(** [str::lines]: a final newline ends the last line, and a carriage return
    before a newline is part of the terminator. *)
Definition strip_cr (cs : list char) : list char :=
  match rev cs with
  | c :: r => if bool_decide (c = s1 (chr 13)) then rev r else cs
  | [] => []
  end.

Definition lines (cs : list char) : list (list char) :=
  let pieces := split_by is_newline cs in
  match rev pieces with
  | [] => []
  | last :: init =>
      map strip_cr (rev init) ++ (if bool_decide (last = []) then [] else [last])
  end.

(** [split_once] on a single ASCII character. *)
Fixpoint split_once (sep : ascii) (cs : list char) : option (list char * list char) :=
  match cs with
  | [] => None
  | c :: cs' =>
      if bool_decide (c = s1 sep) then Some ([], cs')
      else match split_once sep cs' with
           | Some (a, b) => Some (c :: a, b)
           | None => None
           end
  end.

(** ** Numbers *)

Definition digit_of (c : char) : option Z :=
  match c with
  | String a EmptyString => if is_ascii_digit a then Some (code a - 48) else None
  | _ => None
  end.

Fixpoint digits_value (acc : Z) (cs : list char) : option Z :=
  match cs with
  | [] => Some acc
  | c :: cs' => match digit_of c with
                | Some d => digits_value (10 * acc + d) cs'
                | None => None
                end
  end.

(** [str::parse::<uN>]: an optional [+], then at least one decimal digit,
    within the range of the type. *)
Definition parse_unsigned (maximum : Z) (cs : list char) : option Z :=
  let body := match cs with
              | c :: ((_ :: _) as rest) => if bool_decide (c = s1 (chr 43)) then rest else cs
              | _ => cs
              end in
  match body with
  | [] => None
  | _ => match digits_value 0 body with
         | Some v => if v <=? maximum then Some v else None
         | None => None
         end
  end.

Definition parse_u16 : list char -> option Z := parse_unsigned (2 ^ 16 - 1).

(** Decimal notation, [ToString] of an unsigned integer. *)
Fixpoint decimal_fuel (fuel : nat) (z : Z) (acc : string) : string :=
  match fuel with
  | O => acc
  | S f => let acc := String (chr (48 + z mod 10)) acc in
           if z <? 10 then acc else decimal_fuel f (z / 10) acc
  end.

(** Twenty digits are enough for a [u64]. *)
Definition decimal (z : Z) : string := decimal_fuel 20 z EmptyString.

Definition to_ascii_lowercase (s : string) : string :=
  String.string_of_list_ascii
    (map (fun c => if is_ascii_uppercase c then chr (code c + 32) else c)
       (String.list_ascii_of_string s)).

Definition eq_ignore_ascii_case (a b : string) : bool :=
  bool_decide (to_ascii_lowercase a = to_ascii_lowercase b).
