(* ===== verification/ConfigText.v ===== *)
(** * jw-opsd: texts of managed configurations

    The difference shown with a plan ([managed_config/text.rs]), the candidate
    checks of PHP files and the reading of the validators' verdicts
    ([php_fpm_diagnostic.rs], [nginx_diagnostic.rs]). *)

From Stdlib Require Import Ascii String.
From S2P Require Import Prelude Crypto Contracts Plans Adapters Text.

(** ** Searching a text *)

(** [str::split_once] and [str::rsplit_once] on a non-empty string pattern. *)
Fixpoint split_once_str (m s : string) : option (string * string) :=
  match strip_prefix m s with
  | Some rest => Some (EmptyString, rest)
  | None =>
      match s with
      | EmptyString => None
      | String c s' => match split_once_str m s' with
                       | Some (a, b) => Some (String c a, b)
                       | None => None
                       end
      end
  end.

Fixpoint rsplit_once_str (m s : string) : option (string * string) :=
  match s with
  | EmptyString => None
  | String c s' =>
      match rsplit_once_str m s' with
      | Some (a, b) => Some (String c a, b)
      | None => match strip_prefix m s with Some rest => Some (EmptyString, rest) | None => None end
      end
  end.

(** [str::contains] and [str::ends_with]. *)
Definition contains_str (m s : string) : bool := windows_any m s.
Definition ends_with (m s : string) : bool := is_some (strip_suffix m s).

(** The characters of a [&str], and [str::trim]. *)
Definition chars (s : string) : list char := from_utf8_lossy s.
Definition trim_str (s : string) : string := text (trim (chars s)).
Definition lines_of (s : string) : list (list char) := lines (chars s).

Definition parse_u32 : list char -> option Z := parse_unsigned u32_max.

(** [take_while(char::is_ascii_digit)]. *)
Fixpoint leading_digits (s : string) : string :=
  match s with
  | String c s' => if is_ascii_digit c then String c (leading_digits s') else EmptyString
  | EmptyString => EmptyString
  end.

(** ** text.rs *)

Section Diff.
Context {A : Type} `{EqDecision A}.

(** Length of the longest common prefix: [zip], [take_while], [count]. *)
Fixpoint common_prefix (before after : list A) : nat :=
  match before, after with
  | x :: before', y :: after' => if bool_decide (x = y) then S (common_prefix before' after') else O
  | _, _ => O
  end.

(** Length of the common suffix, at most [max_suffix] long. *)
Definition common_suffix (max_suffix : nat) (before after : list A) : nat :=
  common_prefix (take max_suffix (rev before)) (take max_suffix (rev after)).

(** The bounds of the changed region: lines before it, lines after it. *)
Definition diff_bounds (before after : list A) : nat * nat :=
  let prefix := common_prefix before after in
  let max_suffix := Nat.min (length before - prefix) (length after - prefix) in
  (prefix, common_suffix max_suffix before after).

(** [&lines[prefix..lines.len() - suffix]]. *)
Definition changed_region (bounds : nat * nat) (lines : list A) : list A :=
  take (length lines - bounds.2 - bounds.1) (drop bounds.1 lines).
End Diff.

Definition ELLIPSIS : char := String (chr 226) (String (chr 128) (String (chr 166) EmptyString)).

Definition bounded_line (value : list char) : string :=
  text (take 160 value ++ (if (160 <? length value)%nat then [ELLIPSIS] else [])).

Record DiffStats := {
  df_added_lines : Z;
  df_removed_lines : Z;
  df_summary : list string;
}.

(** [u32::try_from(n).map_or(u32::MAX, identity)]. *)
Definition u32_saturated (n : nat) : Z := Z.min (Z.of_nat n) u32_max.

Definition diff_stats (current proposed : string) : DiffStats :=
  let before := lines_of current in
  let after := lines_of proposed in
  let bounds := diff_bounds before after in
  let removed := changed_region bounds before in
  let added := changed_region bounds after in
  let summary := map (fun line => "-" +:+ bounded_line line) (take 20 removed)
                 ++ map (fun line => "+" +:+ bounded_line line) (take 20 added) in
  {| df_added_lines := u32_saturated (length added);
     df_removed_lines := u32_saturated (length removed);
     df_summary := summary ++ (if (length summary <? length removed + length added)%nat
                               then ["… diff preview truncated"%string] else []) |}.

Definition changed_candidate_lines (current proposed : string) : list Z :=
  let before := lines_of current in
  let after := lines_of proposed in
  let (prefix, suffix) := diff_bounds before after in
  take 128 (List.filter (fun n => n <=? u32_max)
    (map (fun index => Z.of_nat index + 1) (seq prefix (length after - suffix - prefix)))).

(** ** Candidate checks of PHP files (php_fpm_diagnostic.rs) *)

Definition valid_ini_key (value : string) : bool :=
  negb (bool_decide (value = EmptyString)) &&
  sall (fun b => is_ascii_alphanumeric b || byte_is 95 b || byte_is 46 b || byte_is 45 b) value.

Definition valid_fpm_key (value : string) : bool :=
  negb (bool_decide (value = EmptyString)) &&
  sall (fun b => is_ascii_alphanumeric b || byte_is 95 b || byte_is 46 b || byte_is 45 b
                 || byte_is 91 b || byte_is 93 b || byte_is 36 b) value.

Definition lower_key (raw_key : list char) : string := to_ascii_lowercase (text (trim raw_key)).

Definition known_ini_key (valid_key : string -> bool) (line : list char) : option string :=
  let trimmed := trim line in
  if bool_decide (trimmed = []) || starts_with "#" (text trimmed) || starts_with "[" (text trimmed) then None
  else
    let candidate := match trimmed with
                     | c :: rest => if bool_decide (c = s1 (chr 59)) then trim rest else trimmed
                     | [] => trimmed
                     end in
    match split_once (chr 61) candidate with
    | None => None
    | Some (raw_key, _) => let key := lower_key raw_key in if valid_key key then Some key else None
    end.

Definition line_error (what : string) (index : nat) : string := what +:+ decimal (Z.of_nat index + 1).

(** One line of the proposal, against the keys of the current file. *)
Definition check_ini_line (valid_key : string -> bool) (known : list string) (index : nat) (line : list char)
    : result string unit :=
  let trimmed := trim line in
  let t := text trimmed in
  if bool_decide (trimmed = []) || starts_with ";" t || starts_with "#" t then Ok tt
  else if starts_with "[" t && ends_with "]" t then Ok tt
  else
    match split_once (chr 61) trimmed with
    | None => Err (line_error "ignored_directive_line_" index)
    | Some (raw_key, _) =>
        let key := lower_key raw_key in
        if negb (valid_key key) then Err (line_error "invalid_directive_line_" index)
        else if negb (bool_decide (key ∈ known)) then Err (line_error "unknown_directive_line_" index)
        else Ok tt
    end.

Fixpoint check_ini_lines (valid_key : string -> bool) (known : list string) (index : nat)
    (ls : list (list char)) : result string unit :=
  match ls with
  | [] => Ok tt
  | line :: rest =>
      let? _ := check_ini_line valid_key known index line in
      check_ini_lines valid_key known (S index) rest
  end.

Definition validate_ini_candidate (valid_key : string -> bool) (current proposed : string)
    : result string unit :=
  if bool_decide (trim_str proposed = EmptyString) then Err "empty_config"
  else
    let known := omap (known_ini_key valid_key) (lines_of current) in
    if bool_decide (known = []) then Err "directive_inventory_unavailable"
    else check_ini_lines valid_key known 0 (lines_of proposed).

Definition validate_php_ini_candidate : string -> string -> result string unit :=
  validate_ini_candidate valid_ini_key.
Definition validate_php_fpm_candidate : string -> string -> result string unit :=
  validate_ini_candidate valid_fpm_key.

Definition validate_managed_config_candidate (adapter : ManagedConfigAdapter) (current proposed : string)
    : oresult unit :=
  match adapter with
  | AdPhpFpm83Ini => map_err (validate_php_ini_candidate current proposed) ERejectedOwned
  | AdPhpFpm83Global | AdPhpFpm83PoolWww | AdPhpFpm83Pool =>
      map_err (validate_php_fpm_candidate current proposed) ERejectedOwned
  | _ => Ok tt
  end.

(** ** Verdicts of the validators *)

Definition diagnostic_text (e : CommandEvidence) : string :=
  text (from_utf8_lossy (sv_captured (c_stderr e))) +:+ s1 (chr 10)
  +:+ text (from_utf8_lossy (sv_captured (c_stdout e))).

Definition syntax_line (e : CommandEvidence) : option Z :=
  match rsplit_once_str " on line " (diagnostic_text e) with
  | None => None
  | Some (_, rest) => parse_u32 (chars (leading_digits rest))
  end.

Definition contains_syntax_error (e : CommandEvidence) : bool :=
  contains_str "syntax error" (to_ascii_lowercase (diagnostic_text e)).

Definition php_fpm_config_test_succeeded (e : CommandEvidence) : bool :=
  c_success e && is_none (syntax_line e) && negb (contains_syntax_error e).

Definition php_fpm_config_failure_code (e : CommandEvidence) : string :=
  match syntax_line e with
  | Some line => "php_fpm_config_syntax_line_" +:+ decimal line
  | None => "php_fpm_config_invalid"
  end.

Definition selected_line (marker : string) (line : list char) : option Z :=
  match rsplit_once_str marker (text line) with
  | None => None
  | Some (_, suffix) =>
      match parse_u32 (chars (String.substring 0 10 (leading_digits suffix))) with
      | Some v => if 0 <? v then Some v else None
      | None => None
      end
  end.

Definition selected_resource_line (stderr basename : string) : option Z :=
  if bool_decide (basename = EmptyString) || sany (byte_is 47) basename || sany (byte_is 92) basename then None
  else if negb (utf8_valid stderr) then None
  else head (omap (selected_line ("/" +:+ basename +:+ ":")) (lines_of stderr)).

Definition nginx_config_failure_code (e : CommandEvidence) (basename : string) : string :=
  match selected_resource_line (sv_captured (c_stderr e)) basename with
  | Some line => "nginx_config_test_failed:line=" +:+ decimal line
  | None => "nginx_config_test_failed"
  end.

Definition managed_config_test_succeeded (adapter : ManagedConfigAdapter) (e : CommandEvidence) : bool :=
  match adapter with
  | AdPhpFpm83Ini | AdPhpFpm83Global | AdPhpFpm83PoolWww | AdPhpFpm83Pool => php_fpm_config_test_succeeded e
  | _ => c_success e
  end.

Definition managed_config_failure_code (adapter : ManagedConfigAdapter) (e : CommandEvidence)
    (basename : string) : string :=
  match adapter with
  | AdNginx | AdNginxTree | AdNginxMain | AdNginxConfD => nginx_config_failure_code e basename
  | AdApacheTree | AdApacheMain | AdApachePorts | AdApacheConf | AdApacheSite =>
      if c_timed_out e then "apache_config_test_timeout" else "apache_config_invalid"
  | AdPhpFpm83Ini | AdPhpFpm83Global | AdPhpFpm83PoolWww | AdPhpFpm83Pool => php_fpm_config_failure_code e
  end.
