(* ===== verification/Ufw.v ===== *)
(** * jw-opsd: the UFW adapter (ufw.rs, firewall.rs)

    Registered commands, the parser of [ufw status numbered], and the rule
    matching that planning, verification and rollback share. *)

From Stdlib Require Import Ascii String.
From S2P Require Import Prelude Crypto Contracts Plans Adapters Text.

Definition UFW_RULE_ID_PREFIX : string := "ufr_".
Definition UFW_RULE_MAX_ENTRIES : nat := 256.
Definition UFW_COMMENT_PREFIX : string := "jw-agent:".

Inductive UfwStatusValue := UfwActive | UfwInactive | UfwNotInstalled | UfwUnsupportedPlatform | UfwUnavailable.
#[export] Instance UfwStatusValue_eq_dec : EqDecision UfwStatusValue.
Proof. solve_decision. Defined.

Record UfwRuleView := {
  uv_sequence : Z;
  uv_rule_id : option string;
  uv_action : string;
  uv_protocol : option UfwProtocol;
  uv_port : option Z;
  uv_source : string;
  uv_destination : string;
  uv_ipv6 : bool;
  uv_owned : bool;
  uv_protected : bool;
  uv_summary : string;
}.
#[export] Instance UfwRuleView_eq_dec : EqDecision UfwRuleView.
Proof. solve_decision. Defined.

Record UfwView := {
  uw_observed_at : string;
  uw_status : UfwStatusValue;
  uw_default_incoming : option string;
  uw_default_outgoing : option string;
  uw_rules : list UfwRuleView;
  uw_state_digest : string;
  uw_truncated : bool;
  uw_mutation_available : bool;
  uw_blocked_reason : option string;
  uw_assurance : AssuranceView;
}.

Definition ufw_protected_tcp_port (port : Z) : bool :=
  (port =? 22) || (port =? 443) || (port =? 9443).

(** ** Registered commands *)

Inductive UfwCommand :=
  | UStatus
  | UAdd (rule : UfwRuleSpec)
  | UDeleteAt (sequence : Z).

Definition registered_arguments (command : UfwCommand) : CommandClass * list string :=
  match command with
  | UStatus => (UfwStatus, ["status"; "numbered"]%string)
  | UAdd rule =>
      (UfwRuleAdd,
       [mutation_as_str (us_mutation rule); "from"; us_source rule; "to"; "any"; "port";
        decimal (us_port rule); "proto"; protocol_as_str (us_protocol rule); "comment";
        UFW_COMMENT_PREFIX +:+ us_rule_id rule]%string)
  | UDeleteAt sequence => (UfwRuleDelete, ["--force"; "delete"; decimal sequence]%string)
  end.

(** ** Parsing [ufw status numbered] *)

Definition parse_target (value : list char) : option Z * option UfwProtocol :=
  match split_once "/" value with
  | None => (parse_u16 value, None)
  | Some (port, protocol) =>
      (parse_u16 port,
       if bool_decide (text protocol = "tcp"%string) then Some Tcp
       else if bool_decide (text protocol = "udp"%string) then Some Udp else None)
  end.

Definition is_action (token : list char) : bool :=
  bool_decide (text token ∈ ["ALLOW"; "DENY"; "REJECT"; "LIMIT"]%string).

Definition is_direction (token : list char) : bool :=
  bool_decide (text token ∈ ["IN"; "OUT"; "FWD"]%string).

Fixpoint position {A} (p : A -> bool) (l : list A) : option nat :=
  match l with
  | [] => None
  | x :: l' => if p x then Some O else S <$> position p l'
  end.

(** [trimmed.get(1..closing)] where [before] is [trimmed[..closing]]: the
    first byte must be a character of its own. *)
Definition drop_first_byte (before : list char) : option (list char) :=
  match before with
  | c :: rest => if slen c =? 1 then Some rest else None
  | [] => None
  end.

(** The rule id of a comment: the first token with the product prefix, if it
    has the shape of an id. *)
Definition comment_rule_id (comment : list char) : option string :=
  match List.find is_some (map (fun part => strip_prefix UFW_COMMENT_PREFIX (text part))
                             (split_whitespace comment)) with
  | Some (Some value) => if starts_with UFW_RULE_ID_PREFIX value && (slen value =? 28)
                         then Some value else None
  | _ => None
  end.

Definition parse_numbered_rule (line : list char) : option UfwRuleView :=
  let trimmed := trim line in
  match split_once "]" trimmed with
  | None => None
  | Some (before, after) =>
      match drop_first_byte before with
      | None => None
      | Some number =>
          match parse_u16 (trim number) with
          | None => None
          | Some sequence =>
              let body := trim after in
              let '(columns, comment) := match split_once "#" body with
                                         | Some (columns, comment) => (trim columns, Some (trim comment))
                                         | None => (body, None)
                                         end in
              let tokens := split_whitespace columns in
              match position is_action tokens with
              | None => None
              | Some action_index =>
                  let target := default ["a"; "n"; "y"]%string (head tokens) in
                  let action := to_ascii_lowercase (text (default [] (tokens !! action_index))) in
                  let source_start :=
                    (action_index + 1 + if is_some_and (tokens !! (action_index + 1)%nat) is_direction
                                        then 1 else 0)%nat in
                  let parts := drop source_start tokens in
                  let source := if bool_decide (parts = []) then "any"%string
                                else String.concat " " (map text parts) in
                  let '(port, protocol) := parse_target target in
                  let rule_id := comment ≫= comment_rule_id in
                  Some {| uv_sequence := sequence;
                          uv_rule_id := rule_id;
                          uv_action := action;
                          uv_protocol := protocol;
                          uv_port := port;
                          uv_source := source;
                          uv_destination := text target;
                          uv_ipv6 := windows_any "(v6)" (text columns);
                          uv_owned := is_some rule_id;
                          uv_protected := bool_decide (protocol = Some Tcp)
                                          && is_some_and port ufw_protected_tcp_port;
                          uv_summary := action +:+ " " +:+ text target +:+ " · " +:+ source |}
              end
          end
      end
  end.

Definition ufw_assurance (operation_available : bool) (reason : option string) : AssuranceView :=
  {| level := G2ReversibleConfig;
     rollback_support := AutomaticBounded;
     operation_available := operation_available;
     scope := ["이번 작업의 JW Agent 소유 UFW 규칙 한 개와 verified status read-back"%string];
     excluded_effects := ["기존 사용자 규칙, default policy, cloud firewall"%string;
                          "SSH 22, HTTPS 443, 독립 관리 edge 9443"%string;
                          "동시에 수행된 제품 밖 root 변경"%string];
     apply_verifier := ["ufw status numbered before digest"%string;
                        "제품 comment와 typed rule exact read-back"%string];
     rollback_verifier := ["이번 product effect의 inverse operation과 status read-back"%string];
     reason := reason |}.

Definition has_line (output : list char) (value : string) : bool :=
  existsb (fun line => bool_decide (text (trim line) = value)) (lines output).

Definition parse_ufw_status `{Sha256} (evidence : CommandEvidence) (observed_at : string) : UfwView :=
  let output := from_utf8_lossy (sv_captured (c_stdout evidence)) in
  let status := if has_line output "Status: active" then UfwActive
                else if has_line output "Status: inactive" then UfwInactive
                else UfwUnavailable in
  let rules := omap parse_numbered_rule (lines output) in
  let truncated := (UFW_RULE_MAX_ENTRIES <? length rules)%nat || sv_truncated (c_stdout evidence) in
  let mutation_available := bool_decide (status = UfwActive) && c_success evidence && negb truncated in
  let blocked_reason :=
    if bool_decide (status = UfwInactive) then Some "ufw_inactive"%string
    else if negb (c_success evidence) || bool_decide (status = UfwUnavailable)
    then Some "ufw_unavailable"%string
    else if truncated then Some "rule_inventory_truncated"%string
    else None in
  {| uw_observed_at := observed_at;
     uw_status := status;
     uw_default_incoming := None;
     uw_default_outgoing := None;
     uw_rules := take UFW_RULE_MAX_ENTRIES rules;
     uw_state_digest := sha256_digest (sv_captured (c_stdout evidence));
     uw_truncated := truncated;
     uw_mutation_available := mutation_available;
     uw_blocked_reason := blocked_reason;
     uw_assurance := ufw_assurance mutation_available blocked_reason |}.

(** ** Matching *)

Definition normalized_source (value : string) : string :=
  if starts_with "Anywhere" value || bool_decide (value = "any"%string) then "any"
  else default value (strip_suffix " (v6)" value).

Definition has_rule_id (rule_id : string) (rule : UfwRuleView) : bool :=
  bool_decide (uv_rule_id rule = Some rule_id).

Definition matching_owned_rule (view : UfwView) (rule_id : string) : option UfwRuleView :=
  List.find (fun rule => uv_owned rule && has_rule_id rule_id rule) (uw_rules view).

Definition rule_matches_spec (rule : UfwRuleView) (spec : UfwRuleSpec) : bool :=
  uv_owned rule
  && has_rule_id (us_rule_id spec) rule
  && bool_decide (uv_protocol rule = Some (us_protocol spec))
  && bool_decide (uv_port rule = Some (us_port spec))
  && bool_decide (normalized_source (uv_source rule) = normalized_source (us_source spec))
  && eq_ignore_ascii_case (uv_action rule) (mutation_as_str (us_mutation spec)).
