(* ===== verification/Host.v ===== *)
(** * jw-opsd: the machine the daemon runs on

    [EngineExternals] is what the daemon does not control: the operating
    system's answers to system calls, the registered programs
    ([OperationRunner]), the entropy source.  [World] is the state the engine
    reads and writes: the ledger, the snapshot directory ([snapshot.rs]), the
    configuration directories ([nginx.rs], [managed_config.rs]), the proposal
    directory, the lockdown flag.  Programs receive the directories read-only:
    no other process changes the product's files while a request runs. *)

From Stdlib Require Import Ascii String.
From S2P Require Import Prelude Crypto Contracts Plans CertContracts Adapters Ledger Text Ufw.

(** ** Snapshot contents *)

Record NginxLinkSnapshot := {
  nl_schema_version : Z;
  nl_site_id : string;
  nl_basename : string;
  nl_enabled : bool;
  nl_available_digest : string;
  nl_enabled_state_digest : string;
}.

Record ServiceStateSnapshot := {
  ss_schema_version : Z;
  ss_service_id : string;
  ss_unit_name : string;
  ss_active : bool;
  ss_state_digest : string;
}.

Record UfwSnapshot := {
  uf_schema_version : Z;
  uf_state_digest : string;
  uf_rules : list UfwRuleView;
}.

Record ManagedConfigSnapshot := {
  ms_schema_version : Z;
  ms_resource_id : string;
  ms_basename : string;
  ms_content : string;
  ms_content_digest : string;
  ms_metadata_digest : string;
  ms_mode : Z;
  ms_uid : Z;
  ms_gid : Z;
}.

Record CertificateInventorySnapshot := {
  cx_schema_version : Z;
  cx_inventory_digest : string;
  cx_timer_enabled : bool;
  cx_timer_active : bool;
  cx_certificate_count : Z;
}.

(** ** Directories *)

(** [symlink_metadata] of a snapshot directory or file; [sm_private] is
    [mode & 0o077 == 0]. *)
Record NodeMeta := {
  nm_is_dir : bool;
  nm_is_file : bool;
  nm_is_symlink : bool;
  nm_nlink : Z;
  nm_uid : Z;
  nm_private : bool;
}.

(** The private directory of snapshots or of proposals: its own metadata, its
    sub-directories and its files, by path below it. *)
Record SnapshotDir := {
  sd_root : option NodeMeta;
  sd_dirs : gmap string NodeMeta;
  sd_files : gmap string (NodeMeta * string);
}.

(** An entry of a configuration directory: its [symlink_metadata] and content.
    [af_canonical] is what [canonicalize] answers for it; [af_openable] whether
    [openat2] without symlinks accepts it; [af_link] the target of a symbolic
    link; [af_mode] the permission bits. *)
Record AvailableFile := {
  af_openable : bool;
  af_is_file : bool;
  af_is_dir : bool;
  af_link : option string;
  af_nlink : Z;
  af_uid : Z;
  af_gid : Z;
  af_mode : Z;
  af_bytes : string;
  af_canonical : option string;
}.

(** An entry of [sites-enabled]. *)
Inductive EnabledEntry :=
  | EnabledLink (target : string)
  | EnabledOther (node : AvailableFile).

(** A directory and its listing. *)
Record ConfigDir := {
  cd_meta : DirMeta;
  cd_entries : list (string * AvailableFile);
}.

(** The configuration directories of the managed services: the two site
    directories of Nginx, which the site operations work on, and every other
    one by its path. *)
Record NginxTree := {
  nt_available_root : option DirMeta;
  nt_enabled_root : option DirMeta;
  nt_available : list (string * AvailableFile);
  nt_enabled : gmap string EnabledEntry;
  nt_elsewhere : gmap string string;
  nt_dirs : gmap string ConfigDir;
}.

Definition set_enabled_entries (f : gmap string EnabledEntry -> gmap string EnabledEntry)
    (t : NginxTree) : NginxTree :=
  {| nt_available_root := nt_available_root t; nt_enabled_root := nt_enabled_root t;
     nt_available := nt_available t; nt_enabled := f (nt_enabled t); nt_elsewhere := nt_elsewhere t;
     nt_dirs := nt_dirs t |}.
Definition set_available_entries
    (f : list (string * AvailableFile) -> list (string * AvailableFile)) (t : NginxTree) : NginxTree :=
  {| nt_available_root := nt_available_root t; nt_enabled_root := nt_enabled_root t;
     nt_available := f (nt_available t); nt_enabled := nt_enabled t; nt_elsewhere := nt_elsewhere t;
     nt_dirs := nt_dirs t |}.
Definition set_dirs (f : gmap string ConfigDir -> gmap string ConfigDir) (t : NginxTree) : NginxTree :=
  {| nt_available_root := nt_available_root t; nt_enabled_root := nt_enabled_root t;
     nt_available := nt_available t; nt_enabled := nt_enabled t; nt_elsewhere := nt_elsewhere t;
     nt_dirs := f (nt_dirs t) |}.

(** A node of the certificate directories: its [symlink_metadata] and, for a
    regular file, its content. *)
Record CertNode := {
  cn_is_dir : bool;
  cn_is_file : bool;
  cn_is_symlink : bool;
  cn_uid : Z;
  cn_mode : Z;
  cn_bytes : string;
}.

(** The directories Certbot writes, as the daemon finds them: nodes by path,
    listings of directories, and what [canonicalize] answers. *)
Record CertTree := {
  ct_nodes : gmap string CertNode;
  ct_listing : gmap string (list string);
  ct_canonical : gmap string string;
}.

(** How a run of [openssl x509] ends. *)
Inductive OpensslOutcome :=
  | OpensslUnavailable
  | OpensslTimeout
  | OpensslExit (success : bool) (stdout : string).

(** ** What the daemon relies on *)

(** The two private directories of the daemon and the steps on them. *)
Inductive PrivateRoot := SnapshotRoot | ProposalRoot.
Inductive PrivateCall := PParent | PStat | PRoot | PDir | PCreate | PWrite | PRead | PRemove.

Inductive SystemCall :=
  | SysLedger
  | SysSymlink
  | SysUnlink
  | SysSyncEnabled
  | SysReadAvailableDir
  | SysReadAvailable
  | SysStatEnabled
  | SysPrivate (root : PrivateRoot) (call : PrivateCall)
  | SysReadConfigDir
  | SysStatConfig
  | SysReadConfig
  | SysReadLink
  | SysTempCreate
  | SysTempMode
  | SysTempOwner
  | SysTempWrite
  | SysTempRename
  | SysTempRemove
  | SysSyncConfigDir
  | SysStatCert
  | SysReadCert
  | SysReadCertDir.

Record PlanRequestDigest (R : Type) := {
  rd_operation_type : string;
  rd_actor : Subject;
  rd_request : R;
}.
Arguments rd_operation_type {R}.
Arguments rd_actor {R}.
Arguments rd_request {R}.

Record PlanHashMaterial := {
  ph_schema_version : Z;
  ph_operation_type : string;
  ph_plan_id : string;
  ph_created_at_ms : Z;
  ph_expires_at_ms : Z;
  ph_actor : Subject;
  ph_site_id : string;
  ph_display_name : string;
  ph_current_state : NginxSiteState;
  ph_target_state : NginxSiteState;
  ph_available_digest : string;
  ph_enabled_state_digest : string;
  ph_resource_key : string;
  ph_impact : list string;
  ph_recovery_path : list string;
  ph_assurance : AssuranceView;
}.

Record UfwRulePlanRequest := {
  ur_schema_version : Z;
  ur_operation_type : string;
  ur_mutation : UfwRuleMutation;
  ur_protocol : option UfwProtocol;
  ur_port : option Z;
  ur_source : option string;
  ur_rule_id : option string;
  ur_expected_state_digest : string;
  ur_idempotency_key : string;
}.

Record UfwPlanHashMaterial := {
  uh_schema_version : Z;
  uh_operation_type : string;
  uh_plan_id : string;
  uh_created_at_ms : Z;
  uh_expires_at_ms : Z;
  uh_actor : Subject;
  uh_expected_state_digest : string;
  uh_resource_key : string;
  uh_payload : UfwPlanPayload;
  uh_assurance : AssuranceView;
}.

Record ManagedPlanHashMaterial := {
  mh_schema_version : Z;
  mh_operation_type : string;
  mh_plan_id : string;
  mh_created_at_ms : Z;
  mh_expires_at_ms : Z;
  mh_actor : Subject;
  mh_resource_id : string;
  mh_display_name : string;
  mh_current_content_digest : string;
  mh_metadata_digest : string;
  mh_proposed_content_digest : string;
  mh_service_action : string;
  mh_current_bytes : Z;
  mh_proposed_bytes : Z;
  mh_added_lines : Z;
  mh_removed_lines : Z;
  mh_diff_summary : list string;
  mh_resource_key : string;
  mh_impact : list string;
  mh_recovery_path : list string;
  mh_assurance : AssuranceView;
}.

(** What the digest of the certificate inventory covers. *)
Record InventoryDigest := {
  id_certbot_installed : bool;
  id_timer_enabled : bool;
  id_timer_active : bool;
  id_certificates : list CertificateSummaryView;
  id_problems : list string;
}.

Record CertbotStagingEvidenceMaterial := {
  se_domains : list string;
  se_site_digest : string;
  se_resolved_addresses : list string;
}.

Record CertbotRenewPlanHashMaterial := {
  rh_schema_version : Z;
  rh_operation_type : string;
  rh_plan_id : string;
  rh_created_at_ms : Z;
  rh_expires_at_ms : Z;
  rh_actor : Subject;
  rh_inventory_digest : string;
  rh_timer_enabled : bool;
  rh_timer_active : bool;
  rh_certificate_count : Z;
  rh_resource_key : string;
  rh_assurance : AssuranceView;
}.

Record CertbotIssuePlanHashMaterial := {
  ih_schema_version : Z;
  ih_operation_type : string;
  ih_plan_id : string;
  ih_created_at_ms : Z;
  ih_expires_at_ms : Z;
  ih_actor : Subject;
  ih_primary_domain : string;
  ih_domains : list string;
  ih_account_email_digest : string;
  ih_masked_account_email : string;
  ih_environment : CertificateEnvironment;
  ih_site_id : string;
  ih_site_digest : string;
  ih_inventory_digest : string;
  ih_preflight_observed_at_ms : Z;
  ih_resolved_addresses : list string;
  ih_local_port_80_reachable : bool;
  ih_local_port_443_reachable : bool;
  ih_staging_evidence_valid : bool;
  ih_staging_evidence_key : string;
  ih_resource_key : string;
  ih_assurance : AssuranceView;
}.

Record CertbotAttachPlanHashMaterial := {
  ah_schema_version : Z;
  ah_operation_type : string;
  ah_plan_id : string;
  ah_created_at_ms : Z;
  ah_expires_at_ms : Z;
  ah_actor : Subject;
  ah_primary_domain : string;
  ah_site_id : string;
  ah_site_digest : string;
  ah_metadata_digest : string;
  ah_inventory_digest : string;
  ah_certificate_fingerprint : string;
  ah_sans : list string;
  ah_not_after : string;
  ah_current_certificate_path : string;
  ah_target_certificate_path : string;
  ah_proposed_content_digest : string;
  ah_timer_enabled : bool;
  ah_timer_active : bool;
  ah_resource_key : string;
  ah_assurance : AssuranceView;
}.

Class EngineExternals := {
  ee_externals :: Externals;
  ee_nginx_snapshot :: Json NginxLinkSnapshot;
  ee_service_snapshot :: Json ServiceStateSnapshot;
  ee_ufw_snapshot :: Json UfwSnapshot;
  ee_managed_snapshot :: Json ManagedConfigSnapshot;
  ee_nginx_request :: Json (PlanRequestDigest NginxSiteStatePlanRequest);
  ee_service_request :: Json (PlanRequestDigest ServiceControlPlanRequest);
  ee_ufw_request :: Json (PlanRequestDigest UfwRulePlanRequest);
  ee_managed_request :: Json (PlanRequestDigest ManagedConfigPlanRequest);
  ee_restore_request :: Json (PlanRequestDigest ManagedConfigRestorePlanRequest);
  ee_plan_hash :: Json PlanHashMaterial;
  ee_managed_plan_hash :: Json ManagedPlanHashMaterial;
  ee_ufw_plan_hash :: Json UfwPlanHashMaterial;
  ee_certificate_snapshot :: Json CertificateInventorySnapshot;
  ee_inventory :: Json InventoryDigest;
  ee_staging_evidence :: Json CertbotStagingEvidenceMaterial;
  ee_issue_request :: Json (PlanRequestDigest CertbotIssuePlanInput);
  ee_renew_request :: Json (PlanRequestDigest CertbotRenewTestPlanRequest);
  ee_attach_request :: Json (PlanRequestDigest CertbotAttachPlanRequest);
  ee_renew_plan_hash :: Json CertbotRenewPlanHashMaterial;
  ee_issue_plan_hash :: Json CertbotIssuePlanHashMaterial;
  ee_attach_plan_hash :: Json CertbotAttachPlanHashMaterial;
  (** The rest of the machine. *)
  Machine : Type;
  (** Does a system call succeed? *)
  sys : SystemCall -> Machine -> bool * Machine;
  (** Free bytes of the file system of the private directories, [None] if [statvfs] fails. *)
  free_bytes : Machine -> option Z;
  (** [OperationRunner::run], [run_ufw] and [management_edge_ready]. *)
  runner_run : CommandClass -> NginxTree -> Machine -> oresult CommandEvidence * Machine;
  runner_run_ufw : UfwCommand -> Machine -> oresult CommandEvidence * Machine;
  runner_edge_ready : Machine -> oresult bool * Machine;
  (** Are the UFW and Certbot executables regular files? *)
  ufw_installed : Machine -> bool;
  certbot_installed : Machine -> bool;
  (** The directories Certbot keeps its certificates in. *)
  certificate_tree : Machine -> CertTree;
  (** [openssl x509] on the file at a path. *)
  openssl_x509 : string -> Machine -> OpensslOutcome * Machine;
  (** One exchange with the certificate daemon: connecting, writing the request
      and reading a response; [None] if any of it fails. *)
  certd_exchange : CertbotCommandRequest -> Machine -> option CertbotCommandResponse * Machine;
  (** [getrandom] of sixteen bytes, and of a [u64]. *)
  random16 : Machine -> option string * Machine;
  random_u64 : Machine -> option Z * Machine;
  (** Group and permission bits of a file the daemon creates. *)
  new_file_gid : Z;
  new_file_mode : Z;
  (** [std::net::IpAddr]: the canonical text of an address and whether it is
      IPv4, [None] if it does not parse. *)
  ip_addr : string -> option (string * bool);
  (** ... and its rank in the order of [IpAddr]. *)
  ip_rank : string -> option Z;
}.

(** ** State and policy of the service *)

(** [OpsPaths], the configuration locations.  They are absolute, without
    doubled or trailing slashes. *)
Record OpsPaths := {
  pa_nginx_main : string;
  pa_nginx_conf_d : string;
  pa_nginx_available : string;
  pa_nginx_enabled : string;
  pa_apache_main : string;
  pa_apache_ports : string;
  pa_apache_conf_available : string;
  pa_apache_conf_enabled : string;
  pa_apache_sites_available : string;
  pa_apache_sites_enabled : string;
  pa_php_fpm_ini : string;
  pa_php_fpm_global : string;
  pa_php_fpm_pool_www : string;
  pa_php_fpm_pool_dir : string;
  pa_letsencrypt_live : string;
  pa_letsencrypt_archive : string;
  pa_letsencrypt_renewal : string;
  pa_acme_webroot : string;
}.

Definition default_paths : OpsPaths :=
  {| pa_nginx_main := "/etc/nginx/nginx.conf";
     pa_nginx_conf_d := "/etc/nginx/conf.d";
     pa_nginx_available := "/etc/nginx/sites-available";
     pa_nginx_enabled := "/etc/nginx/sites-enabled";
     pa_apache_main := "/etc/apache2/apache2.conf";
     pa_apache_ports := "/etc/apache2/ports.conf";
     pa_apache_conf_available := "/etc/apache2/conf-available";
     pa_apache_conf_enabled := "/etc/apache2/conf-enabled";
     pa_apache_sites_available := "/etc/apache2/sites-available";
     pa_apache_sites_enabled := "/etc/apache2/sites-enabled";
     pa_php_fpm_ini := "/etc/php/8.3/fpm/php.ini";
     pa_php_fpm_global := "/etc/php/8.3/fpm/php-fpm.conf";
     pa_php_fpm_pool_www := "/etc/php/8.3/fpm/pool.d/www.conf";
     pa_php_fpm_pool_dir := "/etc/php/8.3/fpm/pool.d";
     pa_letsencrypt_live := "/etc/letsencrypt/live";
     pa_letsencrypt_archive := "/etc/letsencrypt/archive";
     pa_letsencrypt_renewal := "/etc/letsencrypt/renewal";
     pa_acme_webroot := "/var/lib/jw-agent/acme-webroot" |}.

Record Config := {
  cf_paths : OpsPaths;
  cf_plan_ttl_ms : Z;
  cf_snapshot_min_free_bytes : Z;
}.

(** One question to the machine, with its answer. *)
Inductive Call :=
  | CallSys (c : SystemCall) (ok : bool)
  | CallRun (class : CommandClass) (t : NginxTree) (r : oresult CommandEvidence)
  | CallUfw (command : UfwCommand) (r : oresult CommandEvidence)
  | CallEdge (r : oresult bool)
  | CallOpenssl (path : string) (r : OpensslOutcome)
  | CallCertd (request : CertbotCommandRequest) (response : option CertbotCommandResponse)
  | CallRandom (bytes : option string)
  | CallSuffix (value : option Z).

Section World.
Context `{EngineExternals}.

(** The machine and, newest first, the calls made to it so far.  The list is
    there for the theorems, which speak about the calls of a run; no handler
    reads it. *)
Record HostState := {
  h_machine : Machine;
  h_calls : list Call;
}.

Definition answered (h : HostState) (c : Call) (m : Machine) : HostState :=
  {| h_machine := m; h_calls := c :: h_calls h |}.

Definition ask_sys (c : SystemCall) (h : HostState) : bool * HostState :=
  let (ok, m) := sys c (h_machine h) in (ok, answered h (CallSys c ok) m).
Definition ask_run (class : CommandClass) (t : NginxTree) (h : HostState) : oresult CommandEvidence * HostState :=
  let (r, m) := runner_run class t (h_machine h) in (r, answered h (CallRun class t r) m).
Definition ask_ufw (command : UfwCommand) (h : HostState) : oresult CommandEvidence * HostState :=
  let (r, m) := runner_run_ufw command (h_machine h) in (r, answered h (CallUfw command r) m).
Definition ask_edge (h : HostState) : oresult bool * HostState :=
  let (r, m) := runner_edge_ready (h_machine h) in (r, answered h (CallEdge r) m).
Definition ask_random (h : HostState) : option string * HostState :=
  let (b, m) := random16 (h_machine h) in (b, answered h (CallRandom b) m).
Definition ask_suffix (h : HostState) : option Z * HostState :=
  let (n, m) := random_u64 (h_machine h) in (n, answered h (CallSuffix n) m).
Definition ask_openssl (path : string) (h : HostState) : OpensslOutcome * HostState :=
  let (r, m) := openssl_x509 path (h_machine h) in (r, answered h (CallOpenssl path r) m).
Definition ask_certd (request : CertbotCommandRequest) (h : HostState)
    : option CertbotCommandResponse * HostState :=
  let (r, m) := certd_exchange request (h_machine h) in (r, answered h (CallCertd request r) m).

Record World := {
  w_store : Store;
  w_snapshots : SnapshotDir;
  w_nginx : NginxTree;
  w_proposals : SnapshotDir;
  w_lockdown : bool;
  w_host : HostState;
}.

Definition with_store (st : Store) (w : World) : World :=
  {| w_store := st; w_snapshots := w_snapshots w; w_nginx := w_nginx w;
     w_proposals := w_proposals w; w_lockdown := w_lockdown w; w_host := w_host w |}.
Definition with_snapshots (s : SnapshotDir) (w : World) : World :=
  {| w_store := w_store w; w_snapshots := s; w_nginx := w_nginx w;
     w_proposals := w_proposals w; w_lockdown := w_lockdown w; w_host := w_host w |}.
Definition with_nginx (t : NginxTree) (w : World) : World :=
  {| w_store := w_store w; w_snapshots := w_snapshots w; w_nginx := t;
     w_proposals := w_proposals w; w_lockdown := w_lockdown w; w_host := w_host w |}.
Definition with_proposals (p : SnapshotDir) (w : World) : World :=
  {| w_store := w_store w; w_snapshots := w_snapshots w; w_nginx := w_nginx w;
     w_proposals := p; w_lockdown := w_lockdown w; w_host := w_host w |}.
Definition with_lockdown (b : bool) (w : World) : World :=
  {| w_store := w_store w; w_snapshots := w_snapshots w; w_nginx := w_nginx w;
     w_proposals := w_proposals w; w_lockdown := b; w_host := w_host w |}.
Definition with_host (m : HostState) (w : World) : World :=
  {| w_store := w_store w; w_snapshots := w_snapshots w; w_nginx := w_nginx w;
     w_proposals := w_proposals w; w_lockdown := w_lockdown w; w_host := m |}.

Definition private_dir (r : PrivateRoot) (w : World) : SnapshotDir :=
  match r with SnapshotRoot => w_snapshots w | ProposalRoot => w_proposals w end.
Definition with_private (r : PrivateRoot) (s : SnapshotDir) (w : World) : World :=
  match r with SnapshotRoot => with_snapshots s w | ProposalRoot => with_proposals s w end.

Definition enforce (w : World) : bool := st_enforce_root_ownership (w_store w).

Definition calls (w : World) : list Call := h_calls (w_host w).

(** The machine as it is after something else happened to it. *)
Definition with_machine (m : Machine) (w : World) : World :=
  with_host {| h_machine := m; h_calls := calls w |} w.

Definition EM (A : Type) := M World OpsError A.

(** One system call: [e] is the error the source maps its failure to. *)
Definition syscall (c : SystemCall) (e : OpsError) : EM unit := fun w =>
  let (ok, m) := ask_sys c (w_host w) in
  ((if ok then Ok tt else Err e), with_host m w).

(** A ledger method on the shared store; whether its file writes succeed is
    the machine's answer. *)
Definition ledger {A} (m : LM A) : EM A := fun w =>
  let (ok, mach) := ask_sys SysLedger (w_host w) in
  let (r, st') := m (set_io ok (w_store w)) in
  (r, with_store st' (with_host mach w)).

Definition run (class : CommandClass) : EM CommandEvidence := fun w =>
  let (r, m) := ask_run class (w_nginx w) (w_host w) in (r, with_host m w).

Definition run_ufw (command : UfwCommand) : EM CommandEvidence := fun w =>
  let (r, m) := ask_ufw command (w_host w) in (r, with_host m w).

Definition management_edge_ready : EM bool := fun w =>
  let (r, m) := ask_edge (w_host w) in (r, with_host m w).

Definition random_id (prefix : string) : EM string := fun w =>
  let (bytes, m) := ask_random (w_host w) in
  (match bytes with
   | Some b => Ok (prefix +:+ "_" +:+ hex_of_bytes b)
   | None => Err EStorage
   end, with_host m w).

Definition run_openssl (path : string) : EM OpensslOutcome := fun w =>
  let (r, m) := ask_openssl path (w_host w) in (Ok r, with_host m w).

Definition exchange_certd (request : CertbotCommandRequest) : EM CertbotCommandResponse := fun w =>
  let (r, m) := ask_certd request (w_host w) in
  (match r with Some response => Ok response | None => Err ECommand end, with_host m w).

(** [certbot_runner.rs] [random_identifier]. *)
Definition random_identifier : EM string := fun w =>
  let (bytes, m) := ask_random (w_host w) in
  (match bytes with Some b => Ok (hex_of_bytes b) | None => Err ECommand end, with_host m w).

Definition certificates_now : EM CertTree := mget (fun w => certificate_tree (h_machine (w_host w))).

(** [{:016x}] of a [u64]. *)
Fixpoint hex_digits (n : nat) (z : Z) (acc : string) : string :=
  match n with
  | O => acc
  | S n' => hex_digits n' (Z.shiftr z 4) (String (hex_digit (Z.land z 15)) acc)
  end.

Definition random_suffix : EM string := fun w =>
  let (value, m) := ask_suffix (w_host w) in
  (match value with
   | Some v => Ok (hex_digits 16 v EmptyString)
   | None => Err EStorage
   end, with_host m w).

End World.
