(* ===== verification/Snapshot.v ===== *)
(** * jw-opsd: the private directories (snapshot.rs, managed_config/proposal.rs)

    Rollback snapshots and proposed contents are kept in two directories only
    the daemon can read; [PrivateRoot] says which of the two is meant. *)

From Stdlib Require Import Ascii String.
From S2P Require Import Prelude Crypto Contracts Plans Adapters Ledger Text Ufw Host.

(** ** Relative paths *)

(** [str::split('/')]. *)
Fixpoint split_slash (s : string) : list string :=
  match s with
  | EmptyString => [EmptyString]
  | String c s' =>
      if byte_is 47 c then EmptyString :: split_slash s'
      else match split_slash s' with
           | piece :: rest => String c piece :: rest
           | [] => [String c EmptyString]
           end
  end.

Definition bad_component (c : string) : bool :=
  bool_decide (c = "") || bool_decide (c = "."%string) || bool_decide (c = ".."%string).

Definition relative_path_ok (path : string) : bool :=
  negb (starts_with "/" path || existsb bad_component (split_slash path)).

(** [Path::parent] of a relative path inside the root: [None] is the root. *)
Definition parent_of (path : string) : option string :=
  match removelast (split_slash path) with
  | [] => None
  | init => Some (String.concat "/" init)
  end.

Section Snapshot.
Context `{EngineExternals}.
Context (cfg : Config).

Definition own_node (w : World) (is_dir private : bool) : NodeMeta :=
  {| nm_is_dir := is_dir; nm_is_file := negb is_dir; nm_is_symlink := false; nm_nlink := 1;
     nm_uid := st_euid (w_store w); nm_private := private |}.

Definition set_private (m : NodeMeta) : NodeMeta :=
  {| nm_is_dir := nm_is_dir m; nm_is_file := nm_is_file m; nm_is_symlink := nm_is_symlink m;
     nm_nlink := nm_nlink m; nm_uid := nm_uid m; nm_private := true |}.

Definition set_root (m : NodeMeta) (s : SnapshotDir) : SnapshotDir :=
  {| sd_root := Some m; sd_dirs := sd_dirs s; sd_files := sd_files s |}.
Definition add_dir (name : string) (m : NodeMeta) (s : SnapshotDir) : SnapshotDir :=
  {| sd_root := sd_root s; sd_dirs := <[name := m]> (sd_dirs s); sd_files := sd_files s |}.
Definition add_file (path : string) (m : NodeMeta) (bytes : string) (s : SnapshotDir) : SnapshotDir :=
  {| sd_root := sd_root s; sd_dirs := sd_dirs s; sd_files := <[path := (m, bytes)]> (sd_files s) |}.

Definition update_private (r : PrivateRoot) (f : World -> SnapshotDir -> SnapshotDir) : EM unit :=
  mupd (fun w => with_private r (f w (private_dir r w)) w).

Definition validate_private_directory (m : option NodeMeta) (enforce_root_ownership : bool)
    : oresult unit :=
  match m with
  | None => Err EForensicLockdown
  | Some m =>
      if negb (nm_is_dir m) || nm_is_symlink m then Err EForensicLockdown
      else if (enforce_root_ownership && negb (nm_uid m =? 0)) || negb (nm_private m)
      then Err EForensicLockdown
      else Ok tt
  end.

Definition private_call (r : PrivateRoot) (c : PrivateCall) : EM unit :=
  syscall (SysPrivate r c) EFilesystem.

Definition prepare_private_root (r : PrivateRoot) : EM unit :=
  let! _ := private_call r PParent in
  let! root := mget (fun w => sd_root (private_dir r w)) in
  let! _ := match root with
            | Some m => if nm_is_dir m && negb (nm_is_symlink m) then mret tt
                        else mfail (ERejected "snapshot_root_rejected")
            | None =>
                let! _ := private_call r PStat in
                let! _ := private_call r PRoot in
                update_private r (fun w => set_root (own_node w true false))
            end in
  let! _ := private_call r PRoot in
  let! _ := update_private r (fun _ s =>
               match sd_root s with Some m => set_root (set_private m) s | None => s end) in
  fun w => (validate_private_directory (sd_root (private_dir r w)) (enforce w), w).

Definition require_capacity (minimum_free_bytes : Z) : EM unit := fun w =>
  (match free_bytes (h_machine (w_host w)) with
   | None => Err EFilesystem
   | Some free => if free <? minimum_free_bytes then Err (ERejected "snapshot_space_insufficient")
                  else Ok tt
   end, w).

(** [create_dir], [set_mode 0o700] and the check of the new directory. *)
Definition create_private_dir (r : PrivateRoot) (name : string) : EM unit :=
  let! existing := mget (fun w => sd_dirs (private_dir r w) !! name) in
  let! _ := match existing with Some _ => mfail EFilesystem | None => mret tt end in
  let! _ := private_call r PDir in
  let! _ := update_private r (fun w => add_dir name (own_node w true false)) in
  let! _ := private_call r PDir in
  let! _ := update_private r (fun w => add_dir name (own_node w true true)) in
  fun w => (validate_private_directory (sd_dirs (private_dir r w) !! name) (enforce w), w).

(** [create_new], [set_file_mode 0o600], [write_all] and [sync_all]. *)
Definition create_private_file (r : PrivateRoot) (path bytes : string) : EM unit :=
  let! present := mget (fun w => sd_files (private_dir r w) !! path) in
  let! _ := match present with Some _ => mfail EFilesystem | None => mret tt end in
  let! _ := private_call r PCreate in
  let! _ := update_private r (fun w => add_file path (own_node w false false) "") in
  let! _ := private_call r PCreate in
  let! _ := update_private r (fun w => add_file path (own_node w false true) "") in
  let! _ := private_call r PWrite in
  update_private r (fun w => add_file path (own_node w false true) bytes).

Definition write_snapshot_bytes (operation_id filename bytes : string) : EM SnapshotRecord :=
  let! _ := prepare_private_root SnapshotRoot in
  let! _ := require_capacity (cf_snapshot_min_free_bytes cfg) in
  let! _ := create_private_dir SnapshotRoot operation_id in
  let relative_path := operation_id +:+ "/" +:+ filename in
  let! _ := create_private_file SnapshotRoot relative_path bytes in
  let digest := sha256_digest bytes in
  let! _ := private_call SnapshotRoot PRead in
  let! read_back := mget (fun w => sd_files (w_snapshots w) !! relative_path) in
  let! _ := match read_back with
            | Some (_, content) => if bool_decide (sha256_digest content = digest) then mret tt
                                   else mfail (ERejected "snapshot_read_back_mismatch")
            | None => mfail EFilesystem
            end in
  let! _ := private_call SnapshotRoot PDir in
  let! _ := private_call SnapshotRoot PRoot in
  mret {| sn_relative_path := relative_path; sn_digest := digest |}.

Definition read_snapshot_bytes (record : SnapshotRecord) (max_bytes : Z) : EM string :=
  let path := sn_relative_path record in
  if negb (relative_path_ok path) then mfail (ERejected "snapshot_path_rejected")
  else
    let! _ := (fun w => (validate_private_directory (sd_root (w_snapshots w)) (enforce w), w)) in
    let! _ := (fun w => (validate_private_directory
                           (match parent_of path with
                            | Some d => sd_dirs (w_snapshots w) !! d
                            | None => sd_root (w_snapshots w)
                            end) (enforce w), w)) in
    let! file := mget (fun w => sd_files (w_snapshots w) !! path) in
    match file with
    | None => mfail EFilesystem
    | Some (m, bytes) =>
        if negb (nm_is_file m) || nm_is_symlink m || (max_bytes <? slen bytes)
        then mfail (ERejected "snapshot_file_rejected")
        else
          let! owned := mget enforce in
          if negb (nm_nlink m =? 1) || ((owned : bool) && negb (nm_uid m =? 0)) || negb (nm_private m)
          then mfail EForensicLockdown
          else
            let! _ := private_call SnapshotRoot PRead in
            if negb (bool_decide (sha256_digest bytes = sn_digest record)) then mfail EForensicLockdown
            else mret bytes
    end.

Definition write_nginx_snapshot (operation_id : string) (s : NginxLinkSnapshot) : EM SnapshotRecord :=
  write_snapshot_bytes operation_id "nginx-link.json" (to_json s).
Definition write_service_state_snapshot (operation_id : string) (s : ServiceStateSnapshot)
    : EM SnapshotRecord := write_snapshot_bytes operation_id "service-state.json" (to_json s).
Definition write_ufw_snapshot (operation_id : string) (s : UfwSnapshot) : EM SnapshotRecord :=
  write_snapshot_bytes operation_id "ufw-rules.json" (to_json s).

Definition write_managed_config_snapshot (operation_id : string) (s : ManagedConfigSnapshot)
    : EM SnapshotRecord := write_snapshot_bytes operation_id "managed-config.json" (to_json s).
Definition write_certificate_inventory_snapshot (operation_id : string) (s : CertificateInventorySnapshot)
    : EM SnapshotRecord := write_snapshot_bytes operation_id "certificate-inventory.json" (to_json s).

Definition read_nginx_snapshot (record : SnapshotRecord) : EM NginxLinkSnapshot :=
  let! bytes := read_snapshot_bytes record (64 * 1024) in
  mlift (ok_or (from_json bytes) EFilesystem).
Definition read_service_state_snapshot (record : SnapshotRecord) : EM ServiceStateSnapshot :=
  let! bytes := read_snapshot_bytes record (64 * 1024) in
  mlift (ok_or (from_json bytes) EFilesystem).
Definition read_ufw_snapshot (record : SnapshotRecord) : EM UfwSnapshot :=
  let! bytes := read_snapshot_bytes record (256 * 1024) in
  mlift (ok_or (from_json bytes) EFilesystem).
Definition read_managed_config_snapshot (record : SnapshotRecord) : EM ManagedConfigSnapshot :=
  let! bytes := read_snapshot_bytes record (2 * 1024 * 1024) in
  mlift (ok_or (from_json bytes) EFilesystem).
Definition read_certificate_inventory_snapshot (record : SnapshotRecord) : EM CertificateInventorySnapshot :=
  let! bytes := read_snapshot_bytes record (64 * 1024) in
  mlift (ok_or (from_json bytes) EFilesystem).

(** ** Proposals *)

Record ProposalRecord := { pr_relative_path : string; pr_digest : string }.

Definition write_proposal (plan_id content : string) : EM ProposalRecord :=
  if MANAGED_CONFIG_MAX_BYTES <? slen content then mfail (ERejected "size_limit")
  else if negb (managed_config_bytes_supported content) then mfail (ERejected "invalid_encoding")
  else
    let! _ := prepare_private_root ProposalRoot in
    let! _ := require_capacity (cf_snapshot_min_free_bytes cfg) in
    let! _ := create_private_dir ProposalRoot plan_id in
    let relative_path := plan_id +:+ "/content" in
    let! _ := create_private_file ProposalRoot relative_path content in
    let! _ := private_call ProposalRoot PDir in
    let! _ := private_call ProposalRoot PRoot in
    mret {| pr_relative_path := relative_path; pr_digest := sha256_digest content |}.

Definition validate_relative_path (value : string) : oresult unit :=
  if relative_path_ok value then Ok tt else Err (ERejected "proposal_path_rejected").

(** The parent directory of a path below a private root. *)
Definition private_parent (s : SnapshotDir) (path : string) : option NodeMeta :=
  match parent_of path with Some d => sd_dirs s !! d | None => sd_root s end.

Definition read_proposal (record : ProposalRecord) : EM string :=
  let path := pr_relative_path record in
  let! _ := mlift (validate_relative_path path) in
  let! _ := prepare_private_root ProposalRoot in
  let! _ := (fun w => (validate_private_directory (private_parent (w_proposals w) path) (enforce w), w)) in
  let! file := mget (fun w => sd_files (w_proposals w) !! path) in
  match file with
  | None => mfail EFilesystem
  | Some (m, bytes) =>
      if negb (nm_is_file m) || nm_is_symlink m || (MANAGED_CONFIG_MAX_BYTES <? slen bytes)
      then mfail (ERejected "proposal_file_rejected")
      else
        let! owned := mget enforce in
        if negb (nm_nlink m =? 1) || ((owned : bool) && negb (nm_uid m =? 0)) || negb (nm_private m)
        then mfail EForensicLockdown
        else
          let! _ := private_call ProposalRoot PRead in
          if negb (bool_decide (sha256_digest bytes = pr_digest record))
             || negb (managed_config_bytes_supported bytes)
          then mfail EForensicLockdown
          else mret bytes
  end.

Definition drop_file (path : string) (s : SnapshotDir) : SnapshotDir :=
  {| sd_root := sd_root s; sd_dirs := sd_dirs s; sd_files := delete path (sd_files s) |}.

(** [remove_dir] of the directory above [path]: it must exist and be empty. *)
Definition below (dir : option string) (path : string) : bool := bool_decide (parent_of path = dir).
Definition dir_empty (s : SnapshotDir) (dir : option string) : bool :=
  forallb (fun kv => negb (below dir kv.1)) (map_to_list (sd_files s))
  && forallb (fun kv => negb (below dir kv.1)) (map_to_list (sd_dirs s)).

Definition drop_parent (path : string) (s : SnapshotDir) : option SnapshotDir :=
  if negb (dir_empty s (parent_of path)) || is_none (private_parent s path) then None
  else Some match parent_of path with
            | Some d => {| sd_root := sd_root s; sd_dirs := delete d (sd_dirs s); sd_files := sd_files s |}
            | None => {| sd_root := None; sd_dirs := sd_dirs s; sd_files := sd_files s |}
            end.

Definition remove_proposal (relative_path : string) : EM unit :=
  let! _ := mlift (validate_relative_path relative_path) in
  let! present := mget (fun w => sd_files (w_proposals w) !! relative_path) in
  let! _ := match present with None => mfail EFilesystem | Some _ => mret tt end in
  let! _ := private_call ProposalRoot PRemove in
  let! _ := update_private ProposalRoot (fun _ => drop_file relative_path) in
  let! _ := private_call ProposalRoot PDir in
  let! without := mget (fun w => drop_parent relative_path (w_proposals w)) in
  match without with
  | None => mfail EFilesystem
  | Some s =>
      let! _ := private_call ProposalRoot PRemove in
      let! _ := update_private ProposalRoot (fun _ _ => s) in
      let! root := mget (fun w => sd_root (w_proposals w)) in
      match root with None => mfail EFilesystem | Some _ => private_call ProposalRoot PRoot end
  end.
End Snapshot.
