(* ===== verification/Nginx.v ===== *)
(** * jw-opsd: Nginx site discovery and the enabled link (nginx.rs) *)

From Stdlib Require Import Ascii String.
From S2P Require Import Prelude Crypto Contracts Plans Adapters Ledger Text Ufw Host.

Definition AVAILABLE_FILE_MAX_BYTES : Z := 1024 * 1024.
Definition MANAGEMENT_SITE : string := "jw-agent-management.conf".

Record NginxSite := {
  ns_site_id : string;
  ns_basename : string;
  ns_available_digest : string;
  ns_enabled_state_digest : string;
  ns_state : NginxSiteState;
  ns_protected : bool;
}.

Definition validate_root (root : option DirMeta) (enforce_root_ownership : bool) : oresult unit :=
  match root with
  | None => Err (ERejected "unsupported_nginx_layout")
  | Some m =>
      if negb (dm_is_dir m) || dm_is_symlink m then Err (ERejected "path_policy_violation")
      else if enforce_root_ownership && negb (dm_uid m =? 0) then Err (ERejected "path_owner_violation")
      else Ok tt
  end.

Definition safe_basename (value : string) : oresult string :=
  if negb (utf8_valid value) then Err (ERejected "site_name_not_utf8")
  else if bool_decide (value = "") || (255 <? slen value)
          || bool_decide (value = "."%string) || bool_decide (value = ".."%string)
          || sany (byte_is 47) value || sany (byte_is 0) value
  then Err (ERejected "site_name_rejected")
  else Ok value.

Definition validate_available_metadata (f : AvailableFile) (enforce_root_ownership : bool)
    : oresult unit :=
  if negb (af_is_file f) then Err (ERejected "available_not_regular")
  else if negb (af_nlink f =? 1) then Err (ERejected "available_hardlink_rejected")
  else if enforce_root_ownership && negb (af_uid f =? 0) then Err (ERejected "path_owner_violation")
  else Ok tt.

(** The first entry of a directory listing with the given name. *)
Definition find_entry (name : string) (l : list (string * AvailableFile)) : option AvailableFile :=
  snd <$> List.find (fun kv => bool_decide (kv.1 = name)) l.

(** [canonicalize] of a link target below [sites-enabled]. *)
Definition resolve (t : NginxTree) (target : string) : option string :=
  match strip_prefix "../sites-available/" target with
  | Some name => find_entry name (nt_available t) ≫= af_canonical
  | None => nt_elsewhere t !! target
  end.

Definition read_enabled (t : NginxTree) (basename : string) : oresult bool :=
  match nt_enabled t !! basename with
  | None => Ok false
  | Some (EnabledOther _) => Err (ERejected "enabled_entry_not_symlink")
  | Some (EnabledLink target) =>
      let? resolved_link := ok_or (resolve t target) (ERejected "enabled_link_unresolvable") in
      let? resolved_available := ok_or (find_entry basename (nt_available t) ≫= af_canonical)
                                       (ERejected "available_unresolvable") in
      if bool_decide (resolved_link = resolved_available) then Ok true
      else Err (ERejected "enabled_link_outside_source")
  end.

Section Nginx.
Context `{EngineExternals}.

(** [read_enabled]: the link's [symlink_metadata] may fail for reasons other
    than its absence. *)
Definition read_enabled_state (basename : string) : EM bool :=
  let! _ := syscall SysStatEnabled EFilesystem in
  fun w => (read_enabled (w_nginx w) basename, w).

Definition read_available_content (f : AvailableFile) : EM (string * bool) :=
  if negb (af_openable f) then mfail (ERejected "path_policy_violation")
  else
    let! _ := syscall SysReadAvailable EFilesystem in
    if AVAILABLE_FILE_MAX_BYTES <? slen (af_bytes f) then mfail (ERejected "available_file_too_large")
    else mret (af_bytes f, nginx_management_config (af_bytes f)).

(** The scan of [discover_site]: the first entry whose hashed name is the
    requested id; an unusable name anywhere before it is an error. *)
Fixpoint find_site (requested : string) (entries : list (string * AvailableFile))
    : oresult (string * AvailableFile) :=
  match entries with
  | [] => Err (ERejected "site_missing")
  | (name, f) :: rest =>
      let? basename := safe_basename name in
      if nginx_internal_temporary_name basename then find_site requested rest
      else if negb (bool_decide (nginx_site_id NGINX_LAYOUT_ID basename = requested))
      then find_site requested rest
      else Ok (basename, f)
  end.

Definition site_value (requested basename bytes : string) (management_config enabled : bool) : NginxSite :=
  {| ns_site_id := requested;
     ns_basename := basename;
     ns_available_digest := sha256_digest bytes;
     ns_enabled_state_digest := nginx_enabled_state_digest enabled;
     ns_state := if enabled then Enabled else Disabled;
     ns_protected := bool_decide (basename = MANAGEMENT_SITE) || management_config |}.

Definition discover_site (requested_site_id : string) : EM NginxSite :=
  let! t := mget w_nginx in
  let! owned := mget enforce in
  let! _ := mlift (validate_root (nt_available_root t) owned) in
  let! _ := mlift (validate_root (nt_enabled_root t) owned) in
  let! _ := syscall SysReadAvailableDir EFilesystem in
  let! (basename, f) := mlift (find_site requested_site_id (nt_available t)) in
  let! (bytes, management_config) := read_available_content f in
  let! _ := mlift (validate_available_metadata f owned) in
  let! enabled := read_enabled_state basename in
  mret (site_value requested_site_id basename bytes management_config enabled).

(** What the directories say about a site, every read succeeding: the
    reference the read-back theorems speak about. *)
Definition site_in (t : NginxTree) (requested : string) : option NginxSite :=
  match find_site requested (nt_available t) with
  | Ok (basename, f) =>
      match read_enabled t basename with
      | Ok enabled => Some (site_value requested basename (af_bytes f)
                              (nginx_management_config (af_bytes f)) enabled)
      | Err _ => None
      end
  | Err _ => None
  end.

Definition set_enabled_linux (basename : string) (enabled : bool) : EM unit :=
  if enabled then
    let! existing := mget (fun w => nt_enabled (w_nginx w) !! basename) in
    match existing with
    | Some _ => mfail (ERejected "link_create_failed")
    | None =>
        let! _ := syscall SysSymlink (ERejected "link_create_failed") in
        mupd (fun w => with_nginx (set_enabled_entries
                 (insert basename (EnabledLink ("../sites-available/" +:+ basename))) (w_nginx w)) w)
    end
  else
    let! existing := mget (fun w => nt_enabled (w_nginx w) !! basename) in
    match existing with
    | None => mfail (ERejected "link_remove_failed")
    | Some _ =>
        let! _ := syscall SysUnlink (ERejected "link_remove_failed") in
        mupd (fun w => with_nginx (set_enabled_entries (delete basename) (w_nginx w)) w)
    end.

Definition set_enabled (site : NginxSite) (enabled : bool) : EM unit :=
  let! currently_enabled := read_enabled_state (ns_basename site) in
  if bool_decide (currently_enabled = enabled) then mret tt
  else
    let! _ := set_enabled_linux (ns_basename site) enabled in
    let! _ := syscall SysSyncEnabled EFilesystem in
    let! after := read_enabled_state (ns_basename site) in
    if bool_decide (after = enabled) then mret tt else mfail (ERejected "read_back_failed").
End Nginx.
