(* ===== verification/Diagnostics.v ===== *)
(** * jw-opsd: diagnostics of a rejected configuration

    The validators' output is parsed per service ([nginx_diagnostic.rs],
    [apache_diagnostic.rs], [php_fpm_diagnostic.rs]) and mapped to the
    resources the operator may see ([config_diagnostic.rs]). *)

From Stdlib Require Import Ascii String.
From S2P Require Import Prelude Crypto Contracts Plans Adapters Text Ufw Ledger Host Snapshot ConfigText.

(** ** Paths

    [std::path]: a path is compared and stripped by its components; empty and
    [.] pieces are skipped. *)

Definition skipped (piece : string) : bool :=
  bool_decide (piece = EmptyString) || bool_decide (piece = "."%string).

(** [Path::components]: the root, a leading [.] and the named pieces. *)
Definition components (path : string) : list string :=
  let pieces := split_slash path in
  let named := List.filter (fun p => negb (skipped p)) pieces in
  if starts_with "/" path then "/"%string :: named
  else match pieces with
       | p :: _ => if bool_decide (p = "."%string) then "."%string :: named else named
       | [] => named
       end.

(** [Path::strip_prefix]: the pieces left after the components of [base],
    without skipped pieces at either end. *)
Fixpoint strip_components (base pieces : list string) : option (list string) :=
  match base, pieces with
  | [], _ => Some pieces
  | b :: base', p :: pieces' =>
      if skipped p then strip_components base pieces'
      else if bool_decide (p = b) then strip_components base' pieces'
      else None
  | _ :: _, [] => None
  end.

Definition trim_pieces (pieces : list string) : list string :=
  rev (drop_while skipped (rev (drop_while skipped pieces))).

(** Both paths absolute. *)
Definition path_strip_prefix (base path : string) : option (list string) :=
  if starts_with "/" base && starts_with "/" path then
    trim_pieces <$> strip_components (List.filter (fun p => negb (skipped p)) (split_slash base)) (split_slash path)
  else None.

Definition path_join (base name : string) : string := base +:+ "/" +:+ name.

(** [Path::parent] of a normal path. *)
Definition path_parent (path : string) : option string :=
  match removelast (split_slash path) with
  | [] => if bool_decide (path = EmptyString) then None else Some EmptyString
  | [p] => if bool_decide (p = EmptyString)
           then (if bool_decide (path = "/"%string) then None else Some "/"%string)
           else Some p
  | pieces => Some (String.concat "/" pieces)
  end.

(** ** Names inside a service tree (managed_config/tree.rs) *)

Definition MANAGED_SERVICE_CONFIG_MAX_ENTRIES : nat := 256.
Definition MANAGED_SERVICE_CONFIG_MAX_DEPTH : nat := 5.

Definition tree_part_ok (part : string) : bool :=
  negb (bool_decide (part = EmptyString)) && negb (starts_with "." part)
  && sall (fun b => is_ascii_alphanumeric b || byte_is 46 b || byte_is 95 b || byte_is 45 b) part.

Definition normal_component (c : string) : bool :=
  negb (bool_decide (c = "/"%string) || bool_decide (c = "."%string) || bool_decide (c = ".."%string)).

Definition safe_tree_relative_path (path : string) : oresult string :=
  if (MANAGED_SERVICE_CONFIG_MAX_DEPTH + 1 <? length (components path))%nat
     || negb (forallb normal_component (components path))
  then Err (ERejected "path_policy")
  else if negb (utf8_valid path) then Err (ERejected "path_policy")
  else if bool_decide (path = EmptyString) || (512 <? slen path)
          || negb (forallb tree_part_ok (split_slash path))
  then Err (ERejected "path_policy")
  else Ok path.

Definition secret_markers : list string :=
  ["private"; "privkey"; "credential"; "password"; "passwd"; "secret"; "token"].
Definition secret_suffixes : list string := [".key"; ".pem"; ".p12"; ".pfx"].

Definition secret_tree_resource (relative_path : string) : bool :=
  let lowered := to_ascii_lowercase relative_path in
  existsb (fun marker => contains_str marker lowered) secret_markers
  || existsb (fun suffix => ends_with suffix lowered) secret_suffixes.

(** ** Parsed diagnostics *)

Inductive ParsedSeverity := PError | PWarning.

Record ParsedConfigDiagnostic := {
  pd_path : option string;
  pd_line : option Z;
  pd_column : option Z;
  pd_severity : ParsedSeverity;
  pd_code : string;
  pd_message : string;
}.

Definition generic_validator_diagnostic (code message : string) : ParsedConfigDiagnostic :=
  {| pd_path := None; pd_line := None; pd_column := None; pd_severity := PError;
     pd_code := code; pd_message := message |}.

Definition located (path : string) (line : Z) (severity : ParsedSeverity) (code message : string)
    : ParsedConfigDiagnostic :=
  {| pd_path := Some path; pd_line := Some line; pd_column := None; pd_severity := severity;
     pd_code := code; pd_message := message |}.

(** [number.trim().parse::<u32>().ok().filter(|v| *v > 0)]. *)
Definition positive_u32 (number : list char) : option Z :=
  match parse_u32 number with
  | Some v => if 0 <? v then Some v else None
  | None => None
  end.

Definition nonempty_path (path : string) (line : Z) : option (string * Z) :=
  if bool_decide (path = EmptyString) then None else Some (path, line).

(** *** Nginx *)

Definition nginx_location (line : string) : option (string * Z) :=
  match rsplit_once_str " in " line with
  | None => None
  | Some (_, location) =>
      match rsplit_once_str ":" location with
      | None => None
      | Some (path, number) =>
          match positive_u32 (trim (chars number)) with
          | None => None
          | Some n => nonempty_path (trim_str path) n
          end
      end
  end.

Definition nginx_code (line : string) : string :=
  let lowered := to_ascii_lowercase line in
  if contains_str "unknown directive" lowered then "unknown_directive"
  else if contains_str "duplicate" lowered then "duplicate_directive"
  else if contains_str "unexpected" lowered || contains_str "expecting" lowered then "unexpected_token"
  else if contains_str "address already in use" lowered || contains_str "bind()" lowered then "listener_conflict"
  else if contains_str "invalid number" lowered || contains_str "invalid value" lowered then "invalid_value"
  else "validator_rejected".

Definition nginx_message (line : string) : string :=
  let code := nginx_code line in
  if bool_decide (code = "unknown_directive"%string)
  then "알 수 없는 지시어입니다. 보고된 줄뿐 아니라 앞 변경 줄의 세미콜론(;)·중괄호 누락도 확인하세요."
  else if bool_decide (code = "duplicate_directive"%string) then "Nginx 설정에 중복된 지시어가 있습니다."
  else if bool_decide (code = "unexpected_token"%string)
  then "Nginx가 해석을 중단한 위치입니다. 실제 원인은 앞 변경 줄의 세미콜론(;)·중괄호 누락일 수 있습니다."
  else if bool_decide (code = "listener_conflict"%string) then "Nginx listen 주소 또는 포트가 충돌합니다."
  else if bool_decide (code = "invalid_value"%string) then "Nginx 지시어 값이 올바르지 않습니다."
  else "Nginx가 현재 설정을 거부했습니다.".

Definition nginx_line_diagnostic (line : list char) : option ParsedConfigDiagnostic :=
  let line := text line in
  match nginx_location line with
  | None => None
  | Some (path, number) =>
      Some (located path number (if contains_str "[warn]" line then PWarning else PError)
              (nginx_code line) (nginx_message line))
  end.

Definition or_generic (diagnostics : list ParsedConfigDiagnostic) (failed timed_out : bool)
    (code timeout_message message : string) : list ParsedConfigDiagnostic :=
  if bool_decide (length diagnostics = O) && failed then
    [generic_validator_diagnostic (if timed_out then "validator_timeout" else code)
       (if timed_out then timeout_message else message)]
  else diagnostics.

Definition parse_nginx_config_diagnostics (e : CommandEvidence) : list ParsedConfigDiagnostic :=
  or_generic (omap nginx_line_diagnostic (lines_of (diagnostic_text e))) (negb (c_success e)) (c_timed_out e)
    "validator_rejected" "Nginx 문법 검사가 제한 시간을 초과했습니다." "Nginx가 현재 설정을 거부했습니다.".

(** *** Apache *)

Fixpoint drop_colons (s : list ascii) : list ascii :=
  match s with
  | c :: s' => if byte_is 58 c then drop_colons s' else s
  | [] => []
  end.

(** [trim_end_matches(':')]. *)
Definition trim_end_colons (s : string) : string :=
  String.string_of_list_ascii (rev (drop_colons (rev (String.list_ascii_of_string s)))).

Definition apache_location (line : string) : option (string * Z) :=
  match split_once_str "Syntax error on line " line with
  | None => None
  | Some (_, after) =>
      match split_once_str " of " after with
      | None => None
      | Some (number, path) =>
          match positive_u32 (chars number) with
          | None => None
          | Some n => nonempty_path (trim_end_colons (trim_str path)) n
          end
      end
  end.

Definition apache_code (output : string) : string :=
  let lowered := to_ascii_lowercase output in
  if contains_str "invalid command" lowered then "unknown_directive"
  else if contains_str "multiple listeners" lowered || contains_str "address already in use" lowered
  then "listener_conflict"
  else if contains_str "expected </" lowered || contains_str "without matching" lowered then "unmatched_block"
  else "validator_rejected".

Definition apache_message (output : string) : string :=
  let code := apache_code output in
  if bool_decide (code = "unknown_directive"%string) then "Apache가 알 수 없는 지시어를 발견했습니다."
  else if bool_decide (code = "listener_conflict"%string) then "Apache listen 주소 또는 포트가 충돌합니다."
  else if bool_decide (code = "unmatched_block"%string) then "Apache 설정 블록의 시작과 끝이 맞지 않습니다."
  else "Apache가 현재 설정을 거부했습니다.".

Definition apache_line_diagnostic (output : string) (line : list char) : option ParsedConfigDiagnostic :=
  match apache_location (text line) with
  | None => None
  | Some (path, number) => Some (located path number PError (apache_code output) (apache_message output))
  end.

Definition parse_apache_config_diagnostics (e : CommandEvidence) : list ParsedConfigDiagnostic :=
  let output := diagnostic_text e in
  or_generic (omap (apache_line_diagnostic output) (lines_of output)) (negb (c_success e)) (c_timed_out e)
    "validator_rejected" "Apache 문법 검사가 제한 시간을 초과했습니다." "Apache가 현재 설정을 거부했습니다.".

(** *** PHP-FPM *)

Definition php_ini_location (line : string) : option (string * Z) :=
  match rsplit_once_str " on line " line with
  | None => None
  | Some (before, number) =>
      match positive_u32 (trim (chars number)) with
      | None => None
      | Some n =>
          match rsplit_once_str " in " before with
          | None => None
          | Some (_, path) => nonempty_path (trim_str path) n
          end
      end
  end.

Definition php_fpm_bracket_location (line : string) : option (string * Z) :=
  match rsplit_once_str "[" line with
  | None => None
  | Some (_, after) =>
      match split_once_str "]" after with
      | None => None
      | Some (location, _) =>
          match rsplit_once_str ":" location with
          | None => None
          | Some (path, number) =>
              match positive_u32 (trim (chars number)) with
              | None => None
              | Some n => nonempty_path (trim_str path) n
              end
          end
      end
  end.

Definition php_location (line : string) : option (string * Z) :=
  match php_ini_location line with Some l => Some l | None => php_fpm_bracket_location line end.

Definition php_code (line : string) : string :=
  let lowered := to_ascii_lowercase line in
  if contains_str "syntax error" lowered then "syntax_error"
  else if contains_str "unknown entry" lowered || contains_str "unknown directive" lowered then "unknown_directive"
  else if contains_str "unable to include" lowered || contains_str "failed to open" lowered then "include_error"
  else if contains_str "must be" lowered || contains_str "invalid value" lowered then "invalid_value"
  else "validator_rejected".

Definition php_message (line : string) : string :=
  let code := php_code line in
  if bool_decide (code = "syntax_error"%string) then "PHP-FPM 설정에 문법 오류가 있습니다."
  else if bool_decide (code = "unknown_directive"%string) then "PHP-FPM이 알 수 없는 설정 항목을 발견했습니다."
  else if bool_decide (code = "include_error"%string) then "PHP-FPM이 포함된 설정 파일을 읽지 못했습니다."
  else if bool_decide (code = "invalid_value"%string) then "PHP-FPM 설정 값이 올바르지 않습니다."
  else "PHP-FPM이 현재 설정을 거부했습니다.".

Definition php_line_diagnostic (line : list char) : option ParsedConfigDiagnostic :=
  let line := text line in
  match php_location line with
  | None => None
  | Some (path, number) =>
      Some (located path number (if contains_str "warning" (to_ascii_lowercase line) then PWarning else PError)
              (php_code line) (php_message line))
  end.

Definition parse_php_fpm_config_diagnostics (e : CommandEvidence) : list ParsedConfigDiagnostic :=
  let syntax := contains_syntax_error e in
  or_generic (omap php_line_diagnostic (lines_of (diagnostic_text e))) (negb (c_success e) || syntax)
    (c_timed_out e) (if syntax then "syntax_error" else "validator_rejected")
    "PHP-FPM 문법 검사가 제한 시간을 초과했습니다."
    (if syntax then "PHP-FPM 설정에 문법 오류가 있습니다." else "PHP-FPM이 현재 설정을 거부했습니다.").

(** ** Mapping to resources (config_diagnostic.rs) *)

Record MappedResource := { mr_mapped_id : string; mr_masked_path : string }.

Definition service_root (paths : OpsPaths) (a : ManagedConfigAdapter) : option string :=
  path_parent match adapter_service a with
              | SvcNginx => pa_nginx_main paths
              | SvcApache => pa_apache_main paths
              | SvcPhpFpm83 => pa_php_fpm_ini paths
              end.

Definition selected_resource_path (paths : OpsPaths) (r : ManagedConfigResource) : option string :=
  if is_tree_adapter (cr_adapter r)
  then (fun root => path_join root (cr_display_name r)) <$> service_root paths (cr_adapter r)
  else Some (path_join (cr_root r) (cr_basename r)).

(** The pairs of available and enabled directories of an adapter. *)
Definition alias_pairs (paths : OpsPaths) (a : ManagedConfigAdapter) : list (string * string) :=
  match a with
  | AdNginx | AdNginxTree => [(pa_nginx_available paths, pa_nginx_enabled paths)]
  | AdApacheTree | AdApacheSite =>
      [(pa_apache_sites_available paths, pa_apache_sites_enabled paths);
       (pa_apache_conf_available paths, pa_apache_conf_enabled paths)]
  | _ => []
  end.

Definition active_alias_matches (paths : OpsPaths) (a : ManagedConfigAdapter) (selected reported : string) : bool :=
  existsb (fun '(available, enabled) =>
    is_some_and (path_strip_prefix available selected) (fun relative =>
      bool_decide (components enabled ++ List.filter (fun p => negb (skipped p)) relative = components reported)))
    (alias_pairs paths a).

Section Mapping.
Context `{Externals}.

Definition map_reported_path (paths : OpsPaths) (a : ManagedConfigAdapter) (reported : string)
    : option MappedResource :=
  match service_root paths a ≫= (fun root => path_strip_prefix root reported) with
  | None => None
  | Some pieces =>
      match safe_tree_relative_path (String.concat "/" pieces) with
      | Err _ => None
      | Ok relative =>
          if secret_tree_resource relative then None
          else match a with
          | AdNginx | AdNginxTree | AdNginxMain | AdNginxConfD =>
              Some {| mr_mapped_id := managed_service_config_resource_id "ngf_" NGINX_TREE_CONFIG_ADAPTER_ID relative;
                      mr_masked_path := "/etc/nginx/" +:+ relative |}
          | AdApacheTree | AdApacheMain | AdApachePorts | AdApacheConf | AdApacheSite =>
              Some {| mr_mapped_id := managed_service_config_resource_id "apf_" APACHE_TREE_CONFIG_ADAPTER_ID relative;
                      mr_masked_path := "/etc/apache2/" +:+ relative |}
          | AdPhpFpm83Ini =>
              if bool_decide (relative = "php.ini"%string)
              then Some {| mr_mapped_id := php_fpm_config_resource_id PHP_FPM_CONFIG_ADAPTER_ID;
                           mr_masked_path := "/etc/php/8.3/fpm/php.ini" |}
              else None
          | AdPhpFpm83Global =>
              if bool_decide (relative = "php-fpm.conf"%string)
              then Some {| mr_mapped_id := php_fpm_config_resource_id PHP_FPM_GLOBAL_CONFIG_ADAPTER_ID;
                           mr_masked_path := "/etc/php/8.3/fpm/php-fpm.conf" |}
              else None
          | AdPhpFpm83PoolWww | AdPhpFpm83Pool =>
              match strip_prefix "pool.d/" relative with
              | None => None
              | Some basename =>
                  if sany (byte_is 47) basename then None
                  else Some {| mr_mapped_id := php_fpm_pool_config_resource_id basename;
                               mr_masked_path := "/etc/php/8.3/fpm/pool.d/" +:+ basename |}
              end
          end
      end
  end.

Definition map_diagnostic_path (paths : OpsPaths) (r : ManagedConfigResource) (reported : string)
    : option MappedResource :=
  match selected_resource_path paths r with
  | None => None
  | Some selected =>
      let selected_or_alias := bool_decide (components reported = components selected)
                               || active_alias_matches paths (cr_adapter r) selected reported in
      match map_reported_path paths (cr_adapter r) (if selected_or_alias then selected else reported) with
      | None => None
      | Some mapped =>
          Some (if selected_or_alias
                then {| mr_mapped_id := cr_resource_id r; mr_masked_path := mr_masked_path mapped |}
                else mapped)
      end
  end.

Definition service_key (a : ManagedConfigAdapter) : string :=
  match adapter_service a with SvcNginx => "nginx" | SvcApache => "apache" | SvcPhpFpm83 => "php_fpm" end.

Definition validator_id (a : ManagedConfigAdapter) : string :=
  match adapter_config_test a with
  | NginxConfigTest => "nginx_config_test"
  | ApacheConfigTest => "apache_config_test"
  | PhpFpm83ConfigTest => "php_fpm_83_config_test"
  | _ => "managed_config_test"
  end.

Definition nginx_line_looks_incomplete (content : string) (line : Z) : bool :=
  if line <? 1 then false
  else match lines_of content !! Z.to_nat (line - 1) with
       | None => false
       | Some value =>
           let v := text (trim value) in
           negb (bool_decide (v = EmptyString)) && negb (starts_with "#" v) && negb (ends_with ";" v)
           && negb (ends_with "{" v) && negb (ends_with "}" v)
       end.

(** [Iterator::max]. *)
Definition max_of (l : list Z) : option Z :=
  match l with [] => None | x :: rest => Some (fold_left Z.max rest x) end.

Definition nginx_cause_candidate_lines (r : ManagedConfigResource) (mapped : option MappedResource)
    (diagnostic_code : string) (reported_line : Z) (changed_lines : list Z) (proposed_content : string) : list Z :=
  if negb (bool_decide (adapter_service (cr_adapter r) = SvcNginx))
     || negb (bool_decide (diagnostic_code = "unknown_directive"%string)
              || bool_decide (diagnostic_code = "unexpected_token"%string))
     || is_none_or mapped (fun m => negb (bool_decide (mr_mapped_id m = cr_resource_id r)))
  then []
  else option_list (max_of (List.filter (fun line =>
         (line <? reported_line) && (reported_line - line <=? 8)
         && nginx_line_looks_incomplete proposed_content line) changed_lines)).

Definition diagnostic_view (paths : OpsPaths) (r : ManagedConfigResource) (changed_lines : list Z)
    (proposed_content : string) (d : ParsedConfigDiagnostic) : ManagedConfigDiagnosticView :=
  let mapped := pd_path d ≫= map_diagnostic_path paths r in
  let location_allowed := is_none (pd_path d) || is_some mapped in
  let allowed (o : option Z) := if location_allowed then o else None in
  {| dg_service := service_key (cr_adapter r);
     dg_validator := validator_id (cr_adapter r);
     dg_resource_id := mr_mapped_id <$> mapped;
     dg_masked_path := mr_masked_path <$> mapped;
     dg_line := allowed (pd_line d);
     dg_column := allowed (pd_column d);
     dg_severity := match pd_severity d with PError => SevError | PWarning => SevWarning end;
     dg_code := pd_code d;
     dg_message := pd_message d;
     dg_related_changed_lines :=
       match pd_line d with
       | Some line =>
           if is_some_and mapped (fun m => bool_decide (mr_mapped_id m = cr_resource_id r))
              && bool_decide (line ∈ changed_lines) then [line] else []
       | None => []
       end;
     dg_cause_candidate_lines :=
       match pd_line d with
       | Some reported_line =>
           nginx_cause_candidate_lines r mapped (pd_code d) reported_line changed_lines proposed_content
       | None => []
       end |}.

Definition parsed_diagnostics (a : ManagedConfigAdapter) (e : CommandEvidence) : list ParsedConfigDiagnostic :=
  match adapter_service a with
  | SvcNginx => parse_nginx_config_diagnostics e
  | SvcApache => parse_apache_config_diagnostics e
  | SvcPhpFpm83 => parse_php_fpm_config_diagnostics e
  end.

Definition managed_config_diagnostics (paths : OpsPaths) (r : ManagedConfigResource) (e : CommandEvidence)
    (changed_lines : list Z) (proposed_content : string) : list ManagedConfigDiagnosticView :=
  List.filter (fun view => is_ok (diagnostic_validate_shape view))
    (map (diagnostic_view paths r changed_lines proposed_content)
       (take (Z.to_nat MANAGED_CONFIG_DIAGNOSTIC_MAX_ENTRIES) (parsed_diagnostics (cr_adapter r) e))).
End Mapping.
