(* ===== verification/Certificate.v ===== *)
(** * jw-opsd: certificates (certificate.rs, certbot_runner.rs)

    The inventory of Certbot's lineages, the site a certificate is issued for,
    the replacement of the TLS directives of the management site, and commands
    to the certificate daemon. *)

From Stdlib Require Import Ascii String.
From S2P Require Import Prelude Crypto Contracts Plans CertContracts Adapters Ledger Text Ufw Host Snapshot Nginx.
From S2P Require Import ConfigText Diagnostics ManagedConfig.

Definition CERTIFICATE_MAX_BYTES : Z := 256 * 1024.
Definition COMMAND_OUTPUT_MAX_BYTES : Z := 64 * 1024.
Definition ACME_CHALLENGE_INCLUDE : string := "include /usr/share/jw-agent/nginx/acme-challenge.conf;".

(** ** Texts *)

(** [u8::is_ascii_whitespace]. *)
Definition is_ascii_whitespace (c : ascii) : bool := existsb (fun n => byte_is n c) [32; 9; 10; 12; 13].

(** [str::split_ascii_whitespace]. *)
Fixpoint split_whitespace_bytes (s : string) : list string :=
  match s with
  | EmptyString => [EmptyString]
  | String c s' =>
      if is_ascii_whitespace c then EmptyString :: split_whitespace_bytes s'
      else match split_whitespace_bytes s' with
           | piece :: rest => String c piece :: rest
           | [] => [String c EmptyString]
           end
  end.
Definition split_ascii_whitespace (s : string) : list string :=
  List.filter (fun piece => negb (bool_decide (piece = EmptyString))) (split_whitespace_bytes s).

(** [str::split_inclusive('\n')]: each line without its newline, and whether
    it had one. *)
Fixpoint split_inclusive (cs : list char) : list (list char * bool) :=
  match cs with
  | [] => []
  | c :: rest =>
      if is_newline c then ([], true) :: split_inclusive rest
      else match split_inclusive rest with
           | (line, newline) :: more => (c :: line, newline) :: more
           | [] => [([c], false)]
           end
  end.

(** [strip_prefix] of a text and of one white-space character. *)
Fixpoint strip_chars (p cs : list char) : option (list char) :=
  match p, cs with
  | [], _ => Some cs
  | x :: p', y :: cs' => if bool_decide (x = y) then strip_chars p' cs' else None
  | _ :: _, [] => None
  end.
Definition strip_space (cs : list char) : option (list char) :=
  match cs with c :: rest => if is_whitespace c then Some rest else None | [] => None end.
Definition strip_semicolon (cs : list char) : option (list char) :=
  match rev cs with c :: rest => if bool_decide (c = s1 (chr 59)) then Some (rev rest) else None | [] => None end.

Definition directive_value (line : list char) (directive : string) : option string :=
  match strip_chars (chars directive) line ≫= strip_space with
  | None => None
  | Some rest =>
      match strip_semicolon (trim rest) with
      | None => None
      | Some body =>
          let value := text (trim body) in
          if bool_decide (value = EmptyString) || sany is_ascii_whitespace value then None else Some value
      end
  end.

(** [Path::file_name]. *)
Definition file_name_of (path : string) : option string :=
  match last (components path) with
  | Some c => if normal_component c then Some c else None
  | None => None
  end.

Definition mask_path (value : string) : string :=
  let cs := components value in
  if (3 <=? length cs)%nat then "…/" +:+ String.concat "/" (drop (length cs - 3) cs)
  else match file_name_of value with
       | Some name => "…/" +:+ name
       | None => "…/certificate.pem"
       end.

(** ** The TLS directives *)

Record TlsScan := {
  ts_certificates : Z;
  ts_private_keys : Z;
  ts_current : option string;
  ts_output : string;
}.

Definition indentation (bare : list char) : list char := take (length bare - length (trim_start bare)) bare.

(** One line of the site. *)
Definition tls_line (fullchain private_key : string) (s : TlsScan) (line : list char * bool) : TlsScan :=
  let (bare, newline) := line in
  let trimmed := trim bare in
  let indent := text (indentation bare) in
  let ending := if newline then s1 (chr 10) else EmptyString in
  match directive_value trimmed "ssl_certificate" with
  | Some value =>
      {| ts_certificates := Z.min 255 (ts_certificates s + 1); ts_private_keys := ts_private_keys s;
         ts_current := Some (mask_path value);
         ts_output := ts_output s +:+ indent +:+ "ssl_certificate " +:+ fullchain +:+ ";" +:+ ending |}
  | None =>
      if is_some (directive_value trimmed "ssl_certificate_key")
      then {| ts_certificates := ts_certificates s; ts_private_keys := Z.min 255 (ts_private_keys s + 1);
              ts_current := ts_current s;
              ts_output := ts_output s +:+ indent +:+ "ssl_certificate_key " +:+ private_key +:+ ";" +:+ ending |}
      else {| ts_certificates := ts_certificates s; ts_private_keys := ts_private_keys s; ts_current := ts_current s;
              ts_output := ts_output s +:+ text bare +:+ ending |}
  end.

Definition replace_tls_directives (content fullchain private_key : string) : oresult (string * string) :=
  let s := fold_left (tls_line fullchain private_key) (split_inclusive (chars content))
             {| ts_certificates := 0; ts_private_keys := 0; ts_current := None; ts_output := EmptyString |} in
  if negb (ts_certificates s =? 1) || negb (ts_private_keys s =? 1) then Err (ERejected "attach_unsupported")
  else match ts_current s with
       | Some current => Ok (ts_output s, current)
       | None => Err (ERejected "attach_unsupported")
       end.

(** The names a site serves. *)
Definition server_names (line : list char) : list string :=
  match strip_prefix "server_name " (text (trim line)) ≫= strip_suffix ";" with
  | Some value => List.filter (fun name => is_ok (validate_domain name)) (split_ascii_whitespace value)
  | None => []
  end.

(** The sorted names are searched by bisection. *)
Definition server_names_cover (content : string) (expected : list string) : bool :=
  utf8_valid content &&
  let names := sort_dedup (concat (map server_names (lines_of content))) in
  forallb (fun domain => bool_decide (domain ∈ names)) expected.

Definition mask_account_email (email : string) : string :=
  match split_once_on 64 email with
  | None => "***"
  | Some (local, domain) => text (take 1 (chars local)) +:+ "***@" +:+ domain
  end.

(** ** The output of [openssl x509] *)

Definition remove_colons (s : string) : string :=
  String.string_of_list_ascii (List.filter (fun c => negb (byte_is 58 c)) (String.list_ascii_of_string s)).

Record X509 := { x_fingerprint : option string; x_not_after : option string; x_sans : list string }.

Definition line_fingerprint (trimmed : string) : option string :=
  match (match strip_prefix "sha256 Fingerprint=" trimmed with
         | Some value => Some value
         | None => strip_prefix "SHA256 Fingerprint=" trimmed
         end) with
  | None => None
  | Some value =>
      let hex := to_ascii_lowercase (remove_colons value) in
      if (slen hex =? 64) && sall is_ascii_hexdigit hex then Some ("sha256:" +:+ hex) else None
  end.

Definition san_domain (item : string) : option string :=
  match strip_prefix "DNS:" (trim_str item) with
  | Some domain => if is_ok (validate_domain domain) then Some domain else None
  | None => None
  end.

Definition x509_line (x : X509) (line : list char) : X509 :=
  let trimmed := text (trim line) in
  {| x_fingerprint := match line_fingerprint trimmed with Some f => Some f | None => x_fingerprint x end;
     x_not_after := match strip_prefix "notAfter=" trimmed with Some v => Some v | None => x_not_after x end;
     x_sans := x_sans x ++ omap san_domain (split_on 44 trimmed) |}.

Definition parse_x509_output (output : string) : oresult (string * string * list string) :=
  let x := fold_left x509_line (lines_of output) {| x_fingerprint := None; x_not_after := None; x_sans := [] |} in
  match x_fingerprint x, x_not_after x with
  | Some fingerprint, Some not_after =>
      if bool_decide (x_sans x = []) then Err (ERejected "certificate_invalid")
      else Ok (fingerprint, not_after, x_sans x)
  | _, _ => Err (ERejected "certificate_invalid")
  end.

(** ** Views *)

Definition inventory_assurance : AssuranceView :=
  {| level := G0ObserveOnly; rollback_support := NotApplicable; operation_available := false;
     scope := ["certificate SAN·만료·fingerprint와 Certbot timer 상태만 조회합니다."%string];
     excluded_effects := ["private key·ACME account secret·certificate 원문을 읽거나 반환하지 않습니다."%string];
     apply_verifier := []; rollback_verifier := [];
     reason := Some "발급·attach 작업은 P2C operation fault gate 전까지 차단됩니다."%string |}.

Definition with_reason (a : AssuranceView) (r : string) : AssuranceView :=
  {| level := level a; rollback_support := rollback_support a; operation_available := operation_available a;
     scope := scope a; excluded_effects := excluded_effects a; apply_verifier := apply_verifier a;
     rollback_verifier := rollback_verifier a; reason := Some r |}.

(** ** Reading the certificate directories *)

Section Certificates.
Context `{EngineExternals}.
Context (paths : OpsPaths).

(** [symlink_metadata] and [canonicalize]. *)
Definition stat_cert (path : string) : EM CertNode :=
  let! _ := syscall SysStatCert EFilesystem in
  let! t := certificates_now in
  mlift (ok_or (ct_nodes t !! path) EFilesystem).
Definition canonicalize (path : string) : EM string :=
  let! _ := syscall SysStatCert EFilesystem in
  let! t := certificates_now in
  mlift (ok_or (ct_canonical t !! path) EFilesystem).

Definition group_writable (n : CertNode) : bool := negb (Z.land (cn_mode n) 18 =? 0).

Definition validate_directory (path : string) : EM unit :=
  let! n := stat_cert path in
  if negb (cn_is_dir n) || cn_is_symlink n then mfail (ERejected "certificate_path_policy")
  else
    let! owned := mget enforce in
    if (owned : bool) && (negb (cn_uid n =? 0) || group_writable n) then mfail (ERejected "certificate_path_policy")
    else mret tt.

Definition validate_regular_file (path : string) (max : Z) : EM unit :=
  let! n := stat_cert path in
  if negb (cn_is_file n) || cn_is_symlink n || (slen (cn_bytes n) =? 0) || (max <? slen (cn_bytes n))
  then mfail (ERejected "certificate_path_policy")
  else
    let! owned := mget enforce in
    if (owned : bool) && (negb (cn_uid n =? 0) || group_writable n) then mfail (ERejected "certificate_path_policy")
    else mret tt.

Definition path_starts_with (path base : string) : bool := is_some (path_strip_prefix base path).

Definition validate_lineage_target (domain path : string) (private_key : bool) : EM unit :=
  let! link := stat_cert path in
  if negb (cn_is_symlink link) then mfail (ERejected "certificate_path_policy")
  else
    let! target := canonicalize path in
    let! archive := canonicalize (path_join (pa_letsencrypt_archive paths) domain) in
    let! archive_root := canonicalize (pa_letsencrypt_archive paths) in
    if negb (path_starts_with archive archive_root) || negb (path_starts_with target archive)
    then mfail (ERejected "certificate_path_policy")
    else
      let! n := stat_cert target in
      if negb (cn_is_file n) || (slen (cn_bytes n) =? 0) || (CERTIFICATE_MAX_BYTES <? slen (cn_bytes n))
      then mfail (ERejected "certificate_invalid")
      else
        let! owned := mget enforce in
        if (owned : bool) && (negb (cn_uid n =? 0) || (private_key && negb (Z.land (cn_mode n) 63 =? 0)))
        then mfail (ERejected "certificate_path_policy")
        else mret tt.

Definition inspect_x509 (path : string) : EM string :=
  let! outcome := run_openssl path in
  match outcome with
  | OpensslUnavailable => mfail ECommand
  | OpensslTimeout => mfail (ERejected "certificate_inspection_timeout")
  | OpensslExit success stdout =>
      if COMMAND_OUTPUT_MAX_BYTES <? slen stdout then mfail ECommand
      else if negb success || negb (utf8_valid stdout) then mfail (ERejected "certificate_invalid")
      else mret stdout
  end.

Definition read_renewal (path : string) : EM string :=
  let! _ := syscall SysReadCert EFilesystem in
  let! t := certificates_now in
  let! n := mlift (ok_or (ct_nodes t !! path) EFilesystem) in
  if utf8_valid (cn_bytes n) then mret (cn_bytes n) else mfail EFilesystem.

Definition has_line (line content : string) : bool :=
  existsb (fun l => bool_decide (text (trim l) = line)) (lines_of content).

Definition inspect_lineage (domain : string) : EM CertificateSummaryView :=
  let renewal_path := path_join (pa_letsencrypt_renewal paths) (domain +:+ ".conf") in
  let! _ := validate_regular_file renewal_path (64 * 1024) in
  let! renewal := read_renewal renewal_path in
  let live := path_join (pa_letsencrypt_live paths) domain in
  let! _ := validate_directory (pa_letsencrypt_live paths) in
  let! _ := validate_directory (pa_letsencrypt_archive paths) in
  let! _ := validate_directory live in
  let! _ := validate_directory (path_join (pa_letsencrypt_archive paths) domain) in
  let fullchain := path_join live "fullchain.pem" in
  let private_key := path_join live "privkey.pem" in
  let! _ := validate_lineage_target domain fullchain false in
  let! _ := validate_lineage_target domain private_key true in
  let! output := inspect_x509 fullchain in
  let! (fingerprint, not_after, found) := mlift (parse_x509_output output) in
  let sans := sort_dedup found in
  if negb (bool_decide (domain ∈ sans)) then mfail (ERejected "certificate_invalid")
  else mret {| cy_primary_domain := domain;
               cy_sans := sans;
               cy_not_after := not_after;
               cy_fingerprint_sha256 := fingerprint;
               cy_certificate_path := "…/live/" +:+ domain +:+ "/fullchain.pem";
               cy_private_key_present := true;
               cy_renewal_config_present := true;
               cy_webroot_managed := has_line "authenticator = webroot" renewal
                                     && has_line "webroot_path = /var/lib/jw-agent/acme-webroot" renewal |}.

(** The lineage names of the renewal directory, and the problems met. *)
Fixpoint renewal_domains (names : list string) : list string * list string :=
  match names with
  | [] => ([], [])
  | name :: rest =>
      let (domains, problems) := renewal_domains rest in
      if negb (utf8_valid name) then (domains, problems)
      else match strip_suffix ".conf" name with
           | None => (domains, problems)
           | Some domain =>
               if is_ok (validate_domain domain) then (domain :: domains, problems)
               else (domains, "invalid_renewal_lineage_name"%string :: problems)
           end
  end.

Fixpoint inspect_lineages (domains : list string) : EM (list CertificateSummaryView * list string) :=
  match domains with
  | [] => mret ([], [])
  | domain :: rest =>
      try! inspected := inspect_lineage domain in
      let! (certificates, problems) := inspect_lineages rest in
      mret match inspected with
           | Ok certificate => (certificate :: certificates, problems)
           | Err _ => (certificates, ("certificate_invalid:" +:+ domain) :: problems)
           end
  end.

Definition discover_certificates : EM (list CertificateSummaryView * list string) :=
  try! present := canonicalize (pa_letsencrypt_renewal paths) in
  if is_err present then mret ([], [])
  else
    let! _ := validate_directory (pa_letsencrypt_renewal paths) in
    let! _ := syscall SysReadCertDir EFilesystem in
    let! t := certificates_now in
    let (domains, problems) := renewal_domains (default [] (ct_listing t !! pa_letsencrypt_renewal paths)) in
    let! (certificates, invalid) := inspect_lineages (sort_dedup domains) in
    mret (certificates, problems ++ invalid).

(** [runner.run(class).is_ok_and(|evidence| evidence.success)]. *)
Definition probe (class : CommandClass) : EM bool :=
  try! r := run class in mret (is_ok_and r c_success).

Definition certificate_inventory (now_ms : Z) : EM CertificateInventoryView :=
  let! installed := mget (fun w => certbot_installed (h_machine (w_host w))) in
  let! timer_enabled := probe CertbotTimerEnabled in
  let! timer_active := probe CertbotTimerActive in
  let! (certificates, found) := discover_certificates in
  let problems := sort_dedup (found ++ (if (installed : bool) then [] else ["certbot_not_installed"%string])
                                ++ (if (timer_enabled : bool) then [] else ["certbot_timer_disabled"%string])
                                ++ (if (timer_active : bool) then [] else ["certbot_timer_inactive"%string])) in
  let digest := sha256_digest (to_json {| id_certbot_installed := installed; id_timer_enabled := timer_enabled;
                                          id_timer_active := timer_active; id_certificates := certificates;
                                          id_problems := problems |}) in
  let! observed_at := mlift (format_time now_ms) in
  mret {| iv_schema_version := OPERATION_SCHEMA_VERSION;
          iv_observed_at := observed_at;
          iv_certbot_installed := installed;
          iv_timer_enabled := timer_enabled;
          iv_timer_active := timer_active;
          iv_inventory_digest := digest;
          iv_certificates := certificates;
          iv_problems := problems;
          iv_issue_operation_type := None;
          iv_renew_test_operation_type := None;
          iv_attach_operation_type := None;
          iv_assurance := inventory_assurance |}.

(** ** Sites *)

Definition validate_issue_site (site_id expected_site_digest : string) (domains : list string) : EM NginxSite :=
  let! site := discover_site site_id in
  if negb (ns_protected site) || negb (bool_decide (ns_state site = Enabled))
  then mfail (ERejected "unsupported_environment")
  else if negb (bool_decide (ns_available_digest site = expected_site_digest)) then mfail (ERejected "stale_site")
  else
    let! entry := mget (fun w => find_entry (ns_basename site) (nt_available (w_nginx w))) in
    let! f := mlift (ok_or entry (ERejected "path_policy_violation")) in
    let! (content, _) := read_available_content f in
    if negb (contains_bytes content ACME_CHALLENGE_INCLUDE) || negb (server_names_cover content domains)
    then mfail (ERejected "wrong_webroot")
    else
      try! webroot := validate_directory (pa_acme_webroot paths) in
      if is_err webroot then mfail (ERejected "wrong_webroot") else mret site.

Definition validate_issue_preconditions (input : CertbotIssuePlanInput) (now_ms : Z) : EM NginxSite :=
  let! _ := mlift (map_err (issue_input_validate ip_rank input now_ms) ERejected) in
  let request := in_request input in
  validate_issue_site (ci_site_id request) (ci_expected_site_digest request) (issue_domains request).

Record TlsAttachmentResource := {
  ta_config : ManagedConfigResource;
  ta_proposed_content : string;
  ta_proposed_content_digest : string;
  ta_current_certificate_path : string;
  ta_target_certificate_path : string;
}.

Definition prepare_tls_attachment (primary_domain site_id expected_site_digest : string)
    : EM TlsAttachmentResource :=
  let! _ := mlift (map_err (validate_domain primary_domain) ERejected) in
  let! config := discover_protected_config paths site_id in
  if negb (bool_decide (cr_content_digest config = expected_site_digest)) then mfail (ERejected "stale_site")
  else if negb (server_names_cover (cr_content config) [primary_domain]) then mfail (ERejected "invalid_domain")
  else
    let fullchain := path_join (path_join (pa_letsencrypt_live paths) primary_domain) "fullchain.pem" in
    let private_key := path_join (path_join (pa_letsencrypt_live paths) primary_domain) "privkey.pem" in
    if negb (utf8_valid fullchain) || negb (utf8_valid private_key)
       || sany is_ascii_whitespace fullchain || sany is_ascii_whitespace private_key
    then mfail (ERejected "certificate_path_policy")
    else
      let! (proposed, current) := mlift (replace_tls_directives (cr_content config) fullchain private_key) in
      mret {| ta_config := config;
              ta_proposed_content := proposed;
              ta_proposed_content_digest := sha256_digest proposed;
              ta_current_certificate_path := current;
              ta_target_certificate_path := "…/live/" +:+ primary_domain +:+ "/fullchain.pem" |}.

(** ** The certificate daemon (certbot_runner.rs) *)

Definition CERTBOT_TIMEOUT_MS : Z := 13 * 60 * 1000.

Definition expected_class (c : CertbotCommand) : CertbotCommandClass :=
  match c with
  | Issue _ _ _ Staging _ => IssueStaging
  | Issue _ _ _ Production _ => IssueProduction
  | RenewDryRun => RenewDryRunClass
  | VerifyLocalTls _ _ => VerifyLocalTlsClass
  end.

Definition validate_evidence (c : CertbotCommand) (e : CertbotCommandEvidence) : oresult unit :=
  if negb (bool_decide (cb_command_class e = expected_class c))
     || is_err (validate_digest (cb_stdout_digest e)) || is_err (validate_digest (cb_stderr_digest e))
     || (cb_success e && (cb_timed_out e || negb (bool_decide (cb_exit_code e = Some 0))))
  then Err (ERejected "certbot_response_invalid") else Ok tt.

Definition certbot_run (command : CertbotCommand) (now_ms : Z) : EM CertbotCommandEvidence :=
  let! request_id := random_identifier in
  let request := {| cq_protocol_version := IPC_PROTOCOL_VERSION; cq_request_id := request_id;
                    cq_deadline_unix_ms := sat_add now_ms CERTBOT_TIMEOUT_MS; cq_command := command |} in
  let! _ := mlift (map_err (command_request_validate request now_ms)
                     (fun _ => ERejected "certbot_request_invalid")) in
  let! response := exchange_certd request in
  if negb (cs_protocol_version response =? IPC_PROTOCOL_VERSION)
     || negb (bool_decide (cs_request_id response = request_id))
  then mfail (ERejected "certbot_response_invalid")
  else match cs_result response with
       | CertRejected _ => mfail (ERejected "certbot_request_rejected")
       | CertCompleted evidence =>
           let! _ := mlift (validate_evidence command evidence) in
           mret evidence
       end.
End Certificates.

Example tls_directives_replaced :
  replace_tls_directives
    ("server {" +:+ s1 (chr 10) +:+ "  ssl_certificate /a/b/c.pem;" +:+ s1 (chr 10)
     +:+ "  ssl_certificate_key /a/b/k.pem;" +:+ s1 (chr 10) +:+ "}")
    "/l/f.pem" "/l/k.pem" =
  Ok ("server {" +:+ s1 (chr 10) +:+ "  ssl_certificate /l/f.pem;" +:+ s1 (chr 10)
      +:+ "  ssl_certificate_key /l/k.pem;" +:+ s1 (chr 10) +:+ "}", "…/a/b/c.pem"%string).
Proof. vm_compute. reflexivity. Qed.
