(* ===== verification/EngineCore.v ===== *)
(** * jw-opsd: the operation engine, shared parts (engine.rs)

    Opening the ledger with the lockdown flag, authorisation, proposal
    clean-up, the terminal [RecoveryRequired] transition, receipts. *)

From Stdlib Require Import Ascii String.
From S2P Require Import Prelude Crypto Contracts Plans Adapters Ledger Text Ufw Host Snapshot.

(** A [Transition] literal. *)
Definition change (expected : list OperationStage) (next : OperationStage)
    (result_code evidence_digest : string) (after_digest rollback_result : option string)
    (now_ms : Z) : Transition :=
  {| t_expected := expected; t_next := next; t_result_code := result_code;
     t_evidence_digest := evidence_digest; t_after_digest := after_digest;
     t_rollback_result := rollback_result; t_now_ms := now_ms |}.

Definition require_operator (actor : Subject) : oresult unit :=
  if bool_decide (role actor = Admin) || bool_decide (role actor = Operator) then Ok tt
  else Err (ERejected "role_denied").

Section Core.
Context `{EngineExternals}.

Definition require_write_available : EM unit := fun w =>
  if w_lockdown w then (Err EForensicLockdown, w) else (Ok tt, w).

Definition open_ledger : EM unit :=
  try! opened := ledger open in
  match opened with
  | Ok _ => mret tt
  | Err EForensicLockdown =>
      let! _ := mupd (with_lockdown true) in mfail EForensicLockdown
  | Err error => mfail error
  end.

Record OpsCapabilityResponse := {
  oc_read_only : bool;
  oc_supported_operations : list string;
  oc_forensic_lockdown : bool;
}.

Definition no_capability : OpsCapabilityResponse :=
  {| oc_read_only := true; oc_supported_operations := []; oc_forensic_lockdown := true |}.

Definition capabilities : EM OpsCapabilityResponse :=
  let! locked := mget w_lockdown in
  if (locked : bool) then mret no_capability
  else
    try! opened := ledger open in
    match opened with
    | Ok _ =>
        mret {| oc_read_only := false;
                oc_supported_operations :=
                  [NGINX_SITE_STATE_OPERATION; MANAGED_CONFIG_OPERATION; CERTBOT_ISSUE_OPERATION;
                   CERTBOT_RENEW_TEST_OPERATION; CERTBOT_ATTACH_OPERATION; SERVICE_CONTROL_OPERATION;
                   UFW_RULE_OPERATION];
                oc_forensic_lockdown := false |}
    | Err EForensicLockdown => let! _ := mupd (with_lockdown true) in mret no_capability
    | Err _ => mret no_capability
    end.

(** ** Proposals *)

(** Its result is discarded by the callers. *)
Definition discard {A} (m : EM A) : EM unit := try! _ := m in mret tt.

Definition remove_plan_proposal (plan : StoredPlan) : EM unit :=
  let! _ := match p_managed_config plan with
            | Some payload => discard (remove_proposal (mp_proposal_relative_path payload))
            | None => mret tt
            end in
  match p_certbot_issue plan with
  | Some payload => discard (remove_proposal (ip_account_email_proposal_relative_path payload))
  | None => mret tt
  end.

Definition remove_operation_proposal (operation : StoredOperation) : EM unit :=
  remove_plan_proposal (o_plan operation).

Fixpoint remove_proposals (plans : list StoredPlan) : EM unit :=
  match plans with
  | [] => mret tt
  | plan :: rest => let! _ := remove_plan_proposal plan in remove_proposals rest
  end.

Definition remove_expired_proposals (now_ms : Z) : EM unit :=
  let! plans := ledger (expired_unexecuted_proposal_plans now_ms) in
  remove_proposals plans.

(** ** Receipts and terminal transitions *)

Definition operation_receipt (actor : Subject) (operation_id : string) : EM OperationReceiptView :=
  let! _ := open_ledger in
  let! operation := ledger (load_operation operation_id) in
  if negb (uid (p_actor (o_plan operation)) =? uid actor)
  then mfail (ERejected "operation_access_denied")
  else ledger (receipt operation_id).

(** A transition followed by the receipt of the operation it returns. *)
Definition conclude (operation_id : string) (t : Transition) : EM OperationReceiptView :=
  let! terminal := ledger (transition operation_id t) in
  ledger (receipt (o_operation_id terminal)).

Definition recovery_required (operation_id reason : string) (now_ms : Z) : EM OperationReceiptView :=
  let! terminal := ledger (transition operation_id
        (change [RollingBack] RecoveryRequired reason (sha256_digest reason) None (Some "failed"%string) now_ms)) in
  let! r := ledger (receipt (o_operation_id terminal)) in
  let! _ := remove_operation_proposal terminal in
  mret r.

(** The approval handlers of the families share this body: load the plan,
    check its type, begin the operation under a fresh id. *)
Definition approve_plan (type_ok : StoredPlan -> bool) (actor : Subject)
    (plan_id plan_hash idempotency_key : string) (now_ms : Z) : EM OperationReceiptView :=
  let! _ := open_ledger in
  let! plan := ledger (load_plan plan_id) in
  if negb (type_ok plan) then mfail (ERejected "approval_mismatch")
  else
    let! operation_id := random_id "op" in
    let! operation := ledger (begin_operation operation_id plan_id plan_hash idempotency_key actor now_ms) in
    ledger (receipt (o_operation_id operation)).

(** [i64::try_from(plan_ttl.as_millis())]. *)
Definition ttl_ms (cfg : Config) : oresult Z :=
  if cf_plan_ttl_ms cfg <=? i64_max then Ok (cf_plan_ttl_ms cfg) else Err EStorage.
End Core.
