(* ===== verification/EngineNginx.v ===== *)
(** * jw-opsd: the Nginx site-state operation (engine.rs)

    Planning, approval, execution with its durable stages, the no-change path
    and rollback. *)

From Stdlib Require Import Ascii String.
From S2P Require Import Prelude Crypto Contracts Plans Adapters Ledger Text Ufw Host Snapshot Nginx.
From S2P Require Import EngineCore.

Definition NGINX_IMPACT : list string :=
  ["Nginx enabled symlink 상태가 변경됩니다."%string;
   "nginx -t 후 nginx.service reload를 실행합니다."%string].

Definition nginx_assurance : AssuranceView :=
  {| level := G2ReversibleConfig;
     rollback_support := AutomaticBounded;
     operation_available := true;
     scope := ["선택한 Nginx site의 enabled link 존재 상태"%string];
     excluded_effects := ["sites-available 설정 내용"%string; "기존 연결과 process history"%string;
                          "제품 밖 root 사용자의 동시 변경"%string];
     apply_verifier := ["enabled link read-back"%string; "nginx -t"%string; "nginx.service active"%string];
     rollback_verifier := ["이전 link 상태 복원"%string; "nginx -t와 reload 후 active 확인"%string];
     reason := None |}.

Record NginxSiteStatePlanView := {
  nv_schema_version : Z;
  nv_operation_type : string;
  nv_plan_id : string;
  nv_plan_hash : string;
  nv_created_at : string;
  nv_expires_at : string;
  nv_actor : Subject;
  nv_site_id : string;
  nv_display_name : string;
  nv_current_state : NginxSiteState;
  nv_target_state : NginxSiteState;
  nv_available_digest : string;
  nv_enabled_state_digest : string;
  nv_impact : list string;
  nv_recovery_path : list string;
  nv_assurance : AssuranceView;
}.

Section NginxOp.
Context `{EngineExternals}.
Context (cfg : Config).

(** ** Planning *)

Definition plan_view (plan : StoredPlan) : oresult NginxSiteStatePlanView :=
  if negb (is_type plan NGINX_SITE_STATE_OPERATION) then Err (ERejected "operation_type")
  else
    let? created_at := format_time (p_created_at_ms plan) in
    let? expires_at := format_time (p_expires_at_ms plan) in
    Ok {| nv_schema_version := OPERATION_SCHEMA_VERSION;
          nv_operation_type := NGINX_SITE_STATE_OPERATION;
          nv_plan_id := p_plan_id plan;
          nv_plan_hash := p_plan_hash plan;
          nv_created_at := created_at;
          nv_expires_at := expires_at;
          nv_actor := p_actor plan;
          nv_site_id := p_site_id plan;
          nv_display_name := p_display_name plan;
          nv_current_state := p_current_state plan;
          nv_target_state := p_target_state plan;
          nv_available_digest := p_available_digest plan;
          nv_enabled_state_digest := p_enabled_state_digest plan;
          nv_impact := NGINX_IMPACT;
          nv_recovery_path := NGINX_RECOVERY_PATH;
          nv_assurance := p_assurance plan |}.

Definition plan_hash_material (operation_type : string) (impact recovery : list string)
    (plan : StoredPlan) : PlanHashMaterial :=
  {| ph_schema_version := 1;
     ph_operation_type := operation_type;
     ph_plan_id := p_plan_id plan;
     ph_created_at_ms := p_created_at_ms plan;
     ph_expires_at_ms := p_expires_at_ms plan;
     ph_actor := p_actor plan;
     ph_site_id := p_site_id plan;
     ph_display_name := p_display_name plan;
     ph_current_state := p_current_state plan;
     ph_target_state := p_target_state plan;
     ph_available_digest := p_available_digest plan;
     ph_enabled_state_digest := p_enabled_state_digest plan;
     ph_resource_key := p_resource_key plan;
     ph_impact := impact;
     ph_recovery_path := recovery;
     ph_assurance := p_assurance plan |}.

Definition plan_hash (plan : StoredPlan) : string :=
  canonical_digest "jw-agent/operation-plan/v1"
    (plan_hash_material NGINX_SITE_STATE_OPERATION NGINX_IMPACT NGINX_RECOVERY_PATH plan).

Definition set_plan_hash (hash : string) (plan : StoredPlan) : StoredPlan :=
  {| p_operation_type := p_operation_type plan; p_plan_id := p_plan_id plan; p_plan_hash := hash;
     p_actor := p_actor plan; p_site_id := p_site_id plan; p_display_name := p_display_name plan;
     p_current_state := p_current_state plan; p_target_state := p_target_state plan;
     p_available_digest := p_available_digest plan;
     p_enabled_state_digest := p_enabled_state_digest plan;
     p_created_at_ms := p_created_at_ms plan; p_expires_at_ms := p_expires_at_ms plan;
     p_idempotency_key := p_idempotency_key plan; p_request_digest := p_request_digest plan;
     p_resource_key := p_resource_key plan; p_assurance := p_assurance plan;
     p_managed_config := p_managed_config plan; p_certbot_renew := p_certbot_renew plan;
     p_certbot_issue := p_certbot_issue plan; p_certbot_attach := p_certbot_attach plan;
     p_ufw_rule := p_ufw_rule plan |}.

Definition plan_nginx (actor : Subject) (request : NginxSiteStatePlanRequest) (now_ms : Z)
    : EM NginxSiteStatePlanView :=
  let! _ := mlift (map_err (nginx_request_validate request) ERejected) in
  let! site := discover_site (nr_site_id request) in
  if ns_protected site then mfail (ERejected "protected_resource")
  else if negb (bool_decide (ns_available_digest site = nr_expected_available_digest request))
          || negb (bool_decide (ns_enabled_state_digest site = nr_expected_enabled_state_digest request))
  then mfail (ERejected "precondition_changed")
  else
    let! plan_id := random_id "plan" in
    let! ttl := mlift (ttl_ms cfg) in
    let request_digest := canonical_digest "jw-agent/operation-request/v1"
          {| rd_operation_type := NGINX_SITE_STATE_OPERATION; rd_actor := actor; rd_request := request |} in
    let plan :=
      {| p_operation_type := NGINX_SITE_STATE_OPERATION;
         p_plan_id := plan_id;
         p_plan_hash := "";
         p_actor := actor;
         p_site_id := ns_site_id site;
         p_display_name := ns_basename site;
         p_current_state := ns_state site;
         p_target_state := nr_target_state request;
         p_available_digest := ns_available_digest site;
         p_enabled_state_digest := ns_enabled_state_digest site;
         p_created_at_ms := now_ms;
         p_expires_at_ms := sat_add now_ms ttl;
         p_idempotency_key := nr_idempotency_key request;
         p_request_digest := request_digest;
         p_resource_key := "nginx/site/" +:+ ns_site_id site;
         p_assurance := nginx_assurance;
         p_managed_config := None;
         p_certbot_renew := None;
         p_certbot_issue := None;
         p_certbot_attach := None;
         p_ufw_rule := None |} in
    let plan := set_plan_hash (plan_hash plan) plan in
    let! _ := open_ledger in
    let! stored := ledger (create_or_reuse_plan plan) in
    mlift (plan_view stored).

Definition approve_nginx : Subject -> string -> string -> string -> Z -> EM OperationReceiptView :=
  approve_plan (fun plan => is_type plan NGINX_SITE_STATE_OPERATION).

(** ** Execution *)

Definition cancel_noop (operation : StoredOperation) (result_code evidence_digest : string) (now_ms : Z)
    : EM OperationReceiptView :=
  conclude (o_operation_id operation)
    (change [Verifying] CancelledBeforeApply result_code evidence_digest None None now_ms).

Definition finish_noop (operation : StoredOperation) (now_ms : Z) : EM OperationReceiptView :=
  let! _ := ledger (transition (o_operation_id operation)
        (change [Snapshotted] Verifying "no_change_required"
           (p_enabled_state_digest (o_plan operation)) None None now_ms)) in
  try! config := run NginxConfigTest in
  match config with
  | Err error => cancel_noop operation (error_code error) (sha256_digest (error_code error)) now_ms
  | Ok config =>
      try! active := run NginxActive in
      match active with
      | Err error => cancel_noop operation (error_code error) (sha256_digest (error_code error)) now_ms
      | Ok active =>
          if negb (c_success config) || negb (c_success active)
          then cancel_noop operation "preexisting_validation_failed" (command_digest active) now_ms
          else
            conclude (o_operation_id operation)
              (change [Verifying] Succeeded "verified_noop" (command_digest active)
                 (Some (p_enabled_state_digest (o_plan operation))) None now_ms)
      end
  end.

(** The commands of a rollback: reload only after a valid configuration,
    activity only after a reload. *)
Definition rollback_command (previous : bool) (class : CommandClass) : EM CommandEvidence :=
  if previous then run class else mret (failed_evidence class).

Definition rollback_verify (operation_id : string) (snapshot : NginxLinkSnapshot)
    (config reload active : CommandEvidence) (now_ms : Z) : EM OperationReceiptView :=
  try! restored := discover_site (nl_site_id snapshot) in
  let verified :=
    is_ok_and restored (fun site =>
      bool_decide (ns_available_digest site = nl_available_digest snapshot)
      && bool_decide (ns_enabled_state_digest site = nl_enabled_state_digest snapshot))
    && c_success config && c_success reload && c_success active in
  if negb verified then recovery_required operation_id "rollback_verify_failed" now_ms
  else
    let! terminal := ledger (transition operation_id
          (change [RollingBack] RolledBack "rollback_verified" (command_digest active)
             (Some (nl_enabled_state_digest snapshot)) (Some "verified"%string) now_ms)) in
    let! r := ledger (receipt (o_operation_id terminal)) in
    let! _ := remove_operation_proposal terminal in
    mret r.

(** Restore the link from the snapshot and re-validate Nginx. *)
Definition rollback_restore (operation_id : string) (record : SnapshotRecord) (now_ms : Z)
    : EM OperationReceiptView :=
  try! snapshot := read_nginx_snapshot record in
  match snapshot with
  | Err error => recovery_required operation_id (error_code error) now_ms
  | Ok snapshot =>
      try! current := discover_site (nl_site_id snapshot) in
      match current with
      | Err error => recovery_required operation_id (error_code error) now_ms
      | Ok current =>
          try! restored := set_enabled current (nl_enabled snapshot) in
          if is_err restored then recovery_required operation_id "rollback_link_failed" now_ms
          else
            try! config := run NginxConfigTest in
            match config with
            | Err error => recovery_required operation_id (error_code error) now_ms
            | Ok config =>
                try! reload := rollback_command (c_success config) NginxReload in
                match reload with
                | Err error => recovery_required operation_id (error_code error) now_ms
                | Ok reload =>
                    try! active := rollback_command (c_success reload) NginxActive in
                    match active with
                    | Err error => recovery_required operation_id (error_code error) now_ms
                    | Ok active => rollback_verify operation_id snapshot config reload active now_ms
                    end
                end
            end
      end
  end.

Definition rollback (operation_id cause cause_evidence_digest : string) (now_ms : Z)
    : EM OperationReceiptView :=
  let! operation := ledger (load_operation operation_id) in
  let! rolling :=
    (if bool_decide (o_stage operation = RollingBack) then mret operation
     else ledger (transition operation_id
            (change [Applying; Validating; Reloading; Verifying; RollingBack] RollingBack cause
               cause_evidence_digest None None now_ms))) in
  match o_snapshot rolling with
  | None => recovery_required operation_id "snapshot_missing" now_ms
  | Some record => rollback_restore operation_id record now_ms
  end.

Definition validate_precondition (operation : StoredOperation) : EM NginxSite :=
  let plan := o_plan operation in
  let! site := discover_site (p_site_id plan) in
  if ns_protected site then mfail (ERejected "protected_resource")
  else if negb (bool_decide (ns_available_digest site = p_available_digest plan))
          || negb (bool_decide (ns_enabled_state_digest site = p_enabled_state_digest plan))
          || negb (bool_decide (ns_state site = p_current_state plan))
  then mfail (ERejected "precondition_changed")
  else mret site.

Definition cancel_approved (operation : StoredOperation) (error : OpsError) (now_ms : Z)
    : EM OperationReceiptView :=
  conclude (o_operation_id operation)
    (change [Approved] CancelledBeforeApply (error_code error) (sha256_digest (error_code error))
       None None now_ms).

(** From [Verifying]: read the link back, check the service, conclude. *)
Definition verify_nginx (snapshotted : StoredOperation) (now_ms : Z) : EM OperationReceiptView :=
  let id := o_operation_id snapshotted in
  let plan := o_plan snapshotted in
  try! after := discover_site (p_site_id plan) in
  match after with
  | Err error => rollback id "read_back_unavailable" (sha256_digest (error_code error)) now_ms
  | Ok after =>
      try! active := run NginxActive in
      match active with
      | Err error => rollback id "nginx_active_unavailable" (sha256_digest (error_code error)) now_ms
      | Ok active =>
          if negb (bool_decide (ns_state after = p_target_state plan))
             || negb (bool_decide (ns_available_digest after = p_available_digest plan))
             || negb (c_success active)
          then rollback id "read_back_failed" (command_digest active) now_ms
          else
            conclude id
              (change [Verifying] Succeeded "verified" (command_digest active)
                 (Some (ns_enabled_state_digest after)) None now_ms)
      end
  end.

(** From [Validating]: configuration test, reload. *)
Definition validate_and_reload (snapshotted : StoredOperation) (now_ms : Z) : EM OperationReceiptView :=
  let id := o_operation_id snapshotted in
  try! config_test := run NginxConfigTest in
  match config_test with
  | Err error => rollback id "nginx_config_test_unavailable" (sha256_digest (error_code error)) now_ms
  | Ok config_test =>
      if negb (c_success config_test)
      then rollback id "nginx_config_test_failed" (command_digest config_test) now_ms
      else
        let! _ := ledger (transition id
              (change [Validating] Reloading "nginx_config_valid" (command_digest config_test)
                 None None now_ms)) in
        try! reload := run NginxReload in
        match reload with
        | Err error => rollback id "nginx_reload_unavailable" (sha256_digest (error_code error)) now_ms
        | Ok reload =>
            if negb (c_success reload)
            then rollback id "nginx_reload_failed" (command_digest reload) now_ms
            else
              let! _ := ledger (transition id
                    (change [Reloading] Verifying "nginx_reloaded" (command_digest reload)
                       None None now_ms)) in
              verify_nginx snapshotted now_ms
        end
  end.

(** From [Snapshotted]: apply the link, then validate. *)
Definition apply_nginx (preflight : NginxSite) (snapshotted : StoredOperation) (now_ms : Z)
    : EM OperationReceiptView :=
  let id := o_operation_id snapshotted in
  let target := bool_decide (p_target_state (o_plan snapshotted) = Enabled) in
  let! _ := ledger (transition id
        (change [Snapshotted] Applying "apply_started" (ns_enabled_state_digest preflight) None None now_ms)) in
  try! applied := set_enabled preflight target in
  match applied with
  | Err error => rollback id (error_code error) (sha256_digest (error_code error)) now_ms
  | Ok _ =>
      let! _ := ledger (transition id
            (change [Applying] Validating "link_applied" (nginx_enabled_state_digest target)
               None None now_ms)) in
      validate_and_reload snapshotted now_ms
  end.

(** The snapshot taken before the link changes. *)
Definition link_snapshot (preflight : NginxSite) : NginxLinkSnapshot :=
  {| nl_schema_version := 1;
     nl_site_id := ns_site_id preflight;
     nl_basename := ns_basename preflight;
     nl_enabled := bool_decide (ns_state preflight = Enabled);
     nl_available_digest := ns_available_digest preflight;
     nl_enabled_state_digest := ns_enabled_state_digest preflight |}.

(** The site-state branch of [execute_operation], for an operation in stage
    [Approved]. *)
Definition execute_nginx (operation : StoredOperation) (now_ms : Z) : EM OperationReceiptView :=
  try! preflight := validate_precondition operation in
  match preflight with
  | Err error => cancel_approved operation error now_ms
  | Ok preflight =>
      try! record := write_nginx_snapshot cfg (o_operation_id operation) (link_snapshot preflight) in
      match record with
      | Err error => cancel_approved operation error now_ms
      | Ok record =>
          let! snapshotted := ledger (attach_snapshot (o_operation_id operation) record now_ms) in
          if bool_decide (p_current_state (o_plan snapshotted) = p_target_state (o_plan snapshotted))
          then finish_noop snapshotted now_ms
          else apply_nginx preflight snapshotted now_ms
      end
  end.
End NginxOp.
