(* ===== verification/EngineConfig.v ===== *)
(** * jw-opsd: operations on managed configuration files

    Planning, approving, executing and rolling back the replacement of one
    configuration file ([engine.rs], [engine/managed_config_plan.rs],
    [engine/managed_config_rollback.rs]). *)

From Stdlib Require Import Ascii String.
From S2P Require Import Prelude Crypto Contracts Plans Adapters Ledger Text Ufw Host Snapshot Nginx.
From S2P Require Import ConfigText Diagnostics ManagedConfig EngineCore EngineNginx.

Record ManagedConfigPlanView := {
  vw_schema_version : Z;
  vw_operation_type : string;
  vw_plan_id : string;
  vw_plan_hash : string;
  vw_created_at : string;
  vw_expires_at : string;
  vw_actor : Subject;
  vw_adapter_id : string;
  vw_resource_id : string;
  vw_display_name : string;
  vw_masked_path : string;
  vw_current_content_digest : string;
  vw_proposed_content_digest : string;
  vw_metadata_digest : string;
  vw_current_bytes : Z;
  vw_proposed_bytes : Z;
  vw_added_lines : Z;
  vw_removed_lines : Z;
  vw_diff_summary : list string;
  vw_service_action : ServiceAction;
  vw_impact : list string;
  vw_recovery_path : list string;
  vw_assurance : AssuranceView;
}.

Definition service_action_storage (a : ServiceAction) : string :=
  match a with ValidateOnly => "validate_only" | SReload => "reload" | SRestart => "restart" end.

(** What a rollback records about its cause. *)
Record RollbackEvidence := {
  re_cause : string;
  re_digest : string;
  re_diagnostics : list ManagedConfigDiagnosticView;
  re_command : option OperationCommandEvidenceView;
}.

Definition plain_evidence (cause digest : string) : RollbackEvidence :=
  {| re_cause := cause; re_digest := digest; re_diagnostics := []; re_command := None |}.
Definition command_evidence (cause digest : string) (command : OperationCommandEvidenceView) : RollbackEvidence :=
  {| re_cause := cause; re_digest := digest; re_diagnostics := []; re_command := Some command |}.
Definition diagnostics_and_command (cause digest : string) (diagnostics : list ManagedConfigDiagnosticView)
    (command : OperationCommandEvidenceView) : RollbackEvidence :=
  {| re_cause := cause; re_digest := digest; re_diagnostics := diagnostics; re_command := Some command |}.

Section ConfigOp.
Context `{EngineExternals}.
Context (cfg : Config).
Let paths := cf_paths cfg.

Definition managed_config_plan_view (plan : StoredPlan) : oresult ManagedConfigPlanView :=
  if negb (is_managed_config plan) then Err (ERejected "operation_type")
  else
    let? payload := ok_or (p_managed_config plan) EForensicLockdown in
    let? adapter := managed_config_adapter (p_site_id plan) in
    let? created_at := format_time (p_created_at_ms plan) in
    let? expires_at := format_time (p_expires_at_ms plan) in
    Ok {| vw_schema_version := OPERATION_SCHEMA_VERSION;
          vw_operation_type := p_operation_type plan;
          vw_plan_id := p_plan_id plan;
          vw_plan_hash := p_plan_hash plan;
          vw_created_at := created_at;
          vw_expires_at := expires_at;
          vw_actor := p_actor plan;
          vw_adapter_id := adapter_id adapter;
          vw_resource_id := p_site_id plan;
          vw_display_name := p_display_name plan;
          vw_masked_path := managed_config_masked_path adapter
            (if is_tree_adapter adapter then p_display_name plan
             else default (p_display_name plan) (mp_basename payload));
          vw_current_content_digest := p_available_digest plan;
          vw_proposed_content_digest := mp_proposed_content_digest payload;
          vw_metadata_digest := p_enabled_state_digest plan;
          vw_current_bytes := mp_current_bytes payload;
          vw_proposed_bytes := mp_proposed_bytes payload;
          vw_added_lines := mp_added_lines payload;
          vw_removed_lines := mp_removed_lines payload;
          vw_diff_summary := mp_diff_summary payload;
          vw_service_action := mp_service_action payload;
          vw_impact := adapter_impact adapter;
          vw_recovery_path := adapter_recovery_path adapter;
          vw_assurance := p_assurance plan |}.

Definition managed_plan_hash_material (plan : StoredPlan) (payload : ManagedConfigPlanPayload)
    (adapter : ManagedConfigAdapter) : ManagedPlanHashMaterial :=
  {| mh_schema_version := 1;
     mh_operation_type := p_operation_type plan;
     mh_plan_id := p_plan_id plan;
     mh_created_at_ms := p_created_at_ms plan;
     mh_expires_at_ms := p_expires_at_ms plan;
     mh_actor := p_actor plan;
     mh_resource_id := p_site_id plan;
     mh_display_name := p_display_name plan;
     mh_current_content_digest := p_available_digest plan;
     mh_metadata_digest := p_enabled_state_digest plan;
     mh_proposed_content_digest := mp_proposed_content_digest payload;
     mh_service_action := service_action_storage (mp_service_action payload);
     mh_current_bytes := mp_current_bytes payload;
     mh_proposed_bytes := mp_proposed_bytes payload;
     mh_added_lines := mp_added_lines payload;
     mh_removed_lines := mp_removed_lines payload;
     mh_diff_summary := mp_diff_summary payload;
     mh_resource_key := p_resource_key plan;
     mh_impact := adapter_impact adapter;
     mh_recovery_path := adapter_recovery_path adapter;
     mh_assurance := p_assurance plan |}.

Definition managed_config_plan_hash (plan : StoredPlan) : oresult string :=
  let? payload := ok_or (p_managed_config plan) EForensicLockdown in
  let? adapter := managed_config_adapter (p_site_id plan) in
  Ok (canonical_digest "jw-agent/operation-plan/v1" (managed_plan_hash_material plan payload adapter)).

(** ** Planning *)

Definition read_managed_config (resource_id : string) : EM ManagedConfigResourceView :=
  let! resource := discover_managed_config paths resource_id in
  mret (resource_view resource (managed_config_assurance (cr_adapter resource))).

Record ManagedPlanStorage := {
  st_plan_id : string;
  st_proposal : ProposalRecord;
  st_operation_type : string;
  st_request_digest : string;
}.

(** [u32::try_from(content.len())]. *)
Definition size_u32 (content : string) : oresult Z :=
  if slen content <=? u32_max then Ok (slen content) else Err (ERejected "size_limit").

Definition managed_plan (actor : Subject) (request : ManagedConfigPlanRequest) (resource : ManagedConfigResource)
    (storage : ManagedPlanStorage) (current_bytes proposed_bytes now_ms expires_at_ms : Z) : StoredPlan :=
  let stats := diff_stats (cr_content resource) (mr_proposed_content request) in
  {| p_operation_type := st_operation_type storage;
     p_plan_id := st_plan_id storage;
     p_plan_hash := EmptyString;
     p_actor := actor;
     p_site_id := cr_resource_id resource;
     p_display_name := cr_display_name resource;
     p_current_state := Disabled;
     p_target_state := Disabled;
     p_available_digest := cr_content_digest resource;
     p_enabled_state_digest := cr_metadata_digest resource;
     p_created_at_ms := now_ms;
     p_expires_at_ms := expires_at_ms;
     p_idempotency_key := mr_idempotency_key request;
     p_request_digest := st_request_digest storage;
     p_resource_key := "config/" +:+ adapter_id (cr_adapter resource) +:+ "/" +:+ mr_resource_id request;
     p_assurance := managed_config_assurance (cr_adapter resource);
     p_managed_config := Some
       {| mp_proposal_relative_path := pr_relative_path (st_proposal storage);
          mp_proposal_digest := pr_digest (st_proposal storage);
          mp_basename := Some (cr_basename resource);
          mp_proposed_content_digest := sha256_digest (mr_proposed_content request);
          mp_current_bytes := current_bytes;
          mp_proposed_bytes := proposed_bytes;
          mp_added_lines := df_added_lines stats;
          mp_removed_lines := df_removed_lines stats;
          mp_diff_summary := df_summary stats;
          mp_service_action := mr_service_action request |};
     p_certbot_renew := None;
     p_certbot_issue := None;
     p_certbot_attach := None;
     p_ufw_rule := None |}.

Definition store_managed_config_plan (actor : Subject) (request : ManagedConfigPlanRequest)
    (resource : ManagedConfigResource) (storage : ManagedPlanStorage) (now_ms : Z) : EM StoredPlan :=
  let! ttl := mlift (ttl_ms cfg) in
  let! current_bytes := mlift (size_u32 (cr_content resource)) in
  let! proposed_bytes := mlift (size_u32 (mr_proposed_content request)) in
  let plan := managed_plan actor request resource storage current_bytes proposed_bytes now_ms
                (sat_add now_ms ttl) in
  let! hash := mlift (managed_config_plan_hash plan) in
  let! _ := open_ledger in
  ledger (create_or_reuse_plan (set_plan_hash hash plan)).

(** The end of both planning handlers: the proposal is kept only with the plan
    it was written for. *)
Definition keep_or_drop_proposal (created_plan_id : string) (proposal : ProposalRecord) (stored : EM StoredPlan)
    : EM ManagedConfigPlanView :=
  try! result := stored in
  let! _ := (if is_ok_and result (fun plan => bool_decide (p_plan_id plan = created_plan_id)) then mret tt
             else discard (remove_proposal (pr_relative_path proposal))) in
  let! plan := mlift result in
  let! _ := open_ledger in
  mlift (managed_config_plan_view plan).

Definition stale (resource : ManagedConfigResource) (content_digest metadata_digest : string) : bool :=
  negb (bool_decide (cr_content_digest resource = content_digest))
  || negb (bool_decide (cr_metadata_digest resource = metadata_digest)).

Definition plan_managed_config (actor : Subject) (request : ManagedConfigPlanRequest) (now_ms : Z)
    : EM ManagedConfigPlanView :=
  let! _ := mlift (map_err (managed_request_validate request) ERejected) in
  let! _ := open_ledger in
  let! _ := remove_expired_proposals now_ms in
  let! resource := discover_managed_config paths (mr_resource_id request) in
  if maximum_bytes (cr_adapter resource) <? slen (mr_proposed_content request) then mfail (ERejected "size_limit")
  else if stale resource (mr_expected_content_digest request) (mr_expected_metadata_digest request)
  then mfail (ERejected "stale_resource")
  else
    let! _ := mlift (validate_managed_config_candidate (cr_adapter resource) (cr_content resource)
                       (mr_proposed_content request)) in
    let! plan_id := random_id "plan" in
    let! proposal := write_proposal cfg plan_id (mr_proposed_content request) in
    let request_digest := canonical_digest "jw-agent/operation-request/v1"
          {| rd_operation_type := MANAGED_CONFIG_OPERATION; rd_actor := actor; rd_request := request |} in
    keep_or_drop_proposal plan_id proposal
      (store_managed_config_plan actor request resource
         {| st_plan_id := plan_id; st_proposal := proposal; st_operation_type := MANAGED_CONFIG_OPERATION;
            st_request_digest := request_digest |} now_ms).

Definition plan_managed_config_restore (actor : Subject) (request : ManagedConfigRestorePlanRequest) (now_ms : Z)
    : EM ManagedConfigPlanView :=
  let! _ := mlift (map_err (restore_request_validate request) ERejected) in
  let! _ := open_ledger in
  let! source := ledger (load_operation (rr_source_operation_id request)) in
  if negb (uid (p_actor (o_plan source)) =? uid actor) || negb (is_managed_config (o_plan source))
     || negb (bool_decide (o_stage source = Succeeded))
  then mfail (ERejected "restore_source_unavailable")
  else
    let! record := mlift (ok_or (o_snapshot source) (ERejected "restore_source_unavailable")) in
    let! snapshot := read_managed_config_snapshot record in
    let! resource := discover_managed_config paths (ms_resource_id snapshot) in
    if stale resource (rr_expected_content_digest request) (rr_expected_metadata_digest request)
    then mfail (ERejected "stale_resource")
    else
      let! _ := mlift (validate_managed_config_candidate (cr_adapter resource) (cr_content resource)
                         (ms_content snapshot)) in
      let! plan_id := random_id "plan" in
      let! proposal := write_proposal cfg plan_id (ms_content snapshot) in
      let internal :=
        {| mr_schema_version := rr_schema_version request;
           mr_operation_type := MANAGED_CONFIG_OPERATION;
           mr_resource_id := ms_resource_id snapshot;
           mr_expected_content_digest := rr_expected_content_digest request;
           mr_expected_metadata_digest := rr_expected_metadata_digest request;
           mr_proposed_content := ms_content snapshot;
           mr_service_action := SReload;
           mr_idempotency_key := rr_idempotency_key request |} in
      let request_digest := canonical_digest "jw-agent/operation-request/v1"
            {| rd_operation_type := MANAGED_CONFIG_RESTORE_OPERATION; rd_actor := actor; rd_request := request |} in
      keep_or_drop_proposal plan_id proposal
        (store_managed_config_plan actor internal resource
           {| st_plan_id := plan_id; st_proposal := proposal; st_operation_type := MANAGED_CONFIG_RESTORE_OPERATION;
              st_request_digest := request_digest |} now_ms).

Definition approve_managed_config (actor : Subject) (plan_id plan_hash idempotency_key : string)
    (approval_intent : ManagedConfigApprovalIntent) (now_ms : Z) : EM OperationReceiptView :=
  let! _ := mlift (map_err (intent_validate approval_intent) ERejected) in
  let! _ := open_ledger in
  let! plan := ledger (load_plan plan_id) in
  if negb (is_managed_config plan) then mfail (ERejected "approval_mismatch")
  else
    let! operation_id := random_id "op" in
    try! operation := ledger (begin_operation operation_id plan_id plan_hash idempotency_key actor now_ms) in
    match operation with
    | Ok operation => ledger (receipt (o_operation_id operation))
    | Err error =>
        let! _ := (if bool_decide (error = ERejected "plan_expired") then remove_plan_proposal plan else mret tt) in
        mfail error
    end.

(** ** Rollback *)

Definition rollback_transition (operation_id : string) (evidence : RollbackEvidence) (now_ms : Z)
    : LM StoredOperation :=
  let t := change [Applying; Validating; Reloading; Verifying; RollingBack] RollingBack (re_cause evidence)
             (re_digest evidence) None None now_ms in
  match re_diagnostics evidence, re_command evidence with
  | [], None => transition operation_id t
  | [], Some command => transition_with_command_evidence operation_id t command
  | diagnostics, None => transition_with_diagnostics operation_id t diagnostics
  | diagnostics, Some command => transition_with_diagnostics_and_command operation_id t diagnostics command
  end.

(** Reload and activity after the file was put back; [None] for a plan that
    only validates. *)
Definition rollback_runtime (operation_id : string) (adapter : ManagedConfigAdapter) (validate_only : bool)
    (now_ms : Z) (k : option CommandEvidence -> EM OperationReceiptView) : EM OperationReceiptView :=
  if validate_only then k None
  else
    try! reload := run (adapter_reload adapter) in
    if negb (is_ok_and reload c_success) then recovery_required operation_id "rollback_reload_failed" now_ms
    else
      try! active := run (adapter_active adapter) in
      match active with
      | Ok active => if c_success active then k (Some active)
                     else recovery_required operation_id "rollback_active_failed" now_ms
      | Err _ => recovery_required operation_id "rollback_active_failed" now_ms
      end.

Definition conclude_rollback (operation_id : string) (snapshot : ManagedConfigSnapshot)
    (restored : ManagedConfigResource) (config : CommandEvidence) (runtime : option CommandEvidence) (now_ms : Z)
    : EM OperationReceiptView :=
  if negb (bool_decide (cr_content_digest restored = ms_content_digest snapshot))
     || negb (bool_decide (cr_metadata_digest restored = ms_metadata_digest snapshot))
     || negb (c_success config)
  then recovery_required operation_id "rollback_verify_failed" now_ms
  else
    let command := default config runtime in
    let! terminal := ledger (transition_with_command_evidence operation_id
          (change [RollingBack] RolledBack "rollback_verified" (command_digest command)
             (Some (ms_content_digest snapshot)) (Some "verified"%string) now_ms)
          (command_evidence_view command)) in
    let! r := ledger (receipt (o_operation_id terminal)) in
    let! _ := match p_managed_config (o_plan terminal) with
              | Some payload => discard (remove_proposal (mp_proposal_relative_path payload))
              | None => mret tt
              end in
    mret r.

Definition restore_from_snapshot (operation_id : string) (rolling : StoredOperation) (record : SnapshotRecord)
    (now_ms : Z) : EM OperationReceiptView :=
  try! snapshot := read_managed_config_snapshot record in
  match snapshot with
  | Err error => recovery_required operation_id (error_code error) now_ms
  | Ok snapshot =>
      try! restored := restore_managed_config paths (ms_resource_id snapshot) (ms_basename snapshot)
                         (ms_content snapshot) (ms_mode snapshot) (ms_uid snapshot) (ms_gid snapshot) in
      match restored with
      | Err _ => recovery_required operation_id "rollback_replace_failed" now_ms
      | Ok restored =>
          try! config := run (adapter_config_test (cr_adapter restored)) in
          match config with
          | Err _ => recovery_required operation_id "rollback_syntax_failed" now_ms
          | Ok config =>
              if negb (managed_config_test_succeeded (cr_adapter restored) config)
              then recovery_required operation_id "rollback_syntax_failed" now_ms
              else
                let validate_only := is_some_and (p_managed_config (o_plan rolling)) (fun payload =>
                      bool_decide (mp_service_action payload = ValidateOnly)) in
                rollback_runtime operation_id (cr_adapter restored) validate_only now_ms (fun runtime =>
                  conclude_rollback operation_id snapshot restored config runtime now_ms)
          end
      end
  end.

Definition rollback_managed_config_with_evidence (operation_id : string) (evidence : RollbackEvidence) (now_ms : Z)
    : EM OperationReceiptView :=
  let! operation := ledger (load_operation operation_id) in
  let! rolling := (if bool_decide (o_stage operation = RollingBack) then mret operation
                   else ledger (rollback_transition operation_id evidence now_ms)) in
  match o_snapshot rolling with
  | None => recovery_required operation_id "snapshot_missing" now_ms
  | Some record => restore_from_snapshot operation_id rolling record now_ms
  end.

Definition rollback_managed_config (operation_id cause cause_evidence_digest : string) (now_ms : Z)
    : EM OperationReceiptView :=
  rollback_managed_config_with_evidence operation_id (plain_evidence cause cause_evidence_digest) now_ms.

(** ** Execution *)

Definition cancel_managed_before_apply (operation : StoredOperation) (result_code : string) (now_ms : Z)
    : EM OperationReceiptView :=
  let! terminal := ledger (transition (o_operation_id operation)
        (change [Approved] CancelledBeforeApply result_code (sha256_digest result_code) None None now_ms)) in
  let! r := ledger (receipt (o_operation_id terminal)) in
  let! _ := remove_operation_proposal operation in
  mret r.

(** [then(|| self.runner.run(class))]. *)
Definition run_if (b : bool) (class : CommandClass) : EM (option (oresult CommandEvidence)) :=
  if b then try! r := run class in mret (Some r) else mret None.

Definition active_ok (active : option (oresult CommandEvidence)) : bool :=
  is_none_or active (fun r => is_ok_and r c_success).

Definition finish_managed_noop (operation : StoredOperation) (proposal : ProposalRecord)
    (adapter : ManagedConfigAdapter) (now_ms : Z) : EM OperationReceiptView :=
  let id := o_operation_id operation in
  let! _ := ledger (transition id
        (change [Snapshotted] Verifying "no_change_required" (p_available_digest (o_plan operation))
           None None now_ms)) in
  try! config := run (adapter_config_test adapter) in
  let! payload := mlift (ok_or (p_managed_config (o_plan operation)) EForensicLockdown) in
  let! active := run_if (bool_decide (mp_service_action payload = SReload)) (adapter_active adapter) in
  if negb (is_ok_and config (managed_config_test_succeeded adapter) && active_ok active) then
    let! cancelled := ledger (transition id
          (change [Verifying] CancelledBeforeApply "preexisting_validation_failed"
             (sha256_digest "preexisting_validation_failed") None None now_ms)) in
    let! r := ledger (receipt (o_operation_id cancelled)) in
    let! _ := remove_operation_proposal operation in
    mret r
  else
    let! evidence := mlift (match active with Some result => result | None => config end) in
    let! succeeded := ledger (transition id
          (change [Verifying] Succeeded "verified_noop" (command_digest evidence)
             (Some (p_available_digest (o_plan operation))) None now_ms)) in
    let! r := ledger (receipt (o_operation_id succeeded)) in
    let! _ := discard (remove_proposal (pr_relative_path proposal)) in
    mret r.

Section Running.
Context (payload : ManagedConfigPlanPayload) (proposal : ProposalRecord) (preflight : ManagedConfigResource)
        (proposed : string) (snapshotted : StoredOperation) (now_ms : Z).
Let id := o_operation_id snapshotted.
Let adapter := cr_adapter preflight.
Let reloads := bool_decide (mp_service_action payload = SReload).

(** From [Verifying]: read the file back, check the service, conclude. *)
Definition verify_managed (config_test : CommandEvidence) (verification_digest : string)
    : EM OperationReceiptView :=
  try! read_back := discover_managed_config paths (p_site_id (o_plan snapshotted)) in
  let content_verified := is_ok_and read_back (fun resource =>
        bool_decide (cr_content_digest resource = mp_proposed_content_digest payload)
        && bool_decide (cr_metadata_digest resource = p_enabled_state_digest (o_plan snapshotted))) in
  let! active := run_if reloads (adapter_active adapter) in
  if negb (content_verified && active_ok active) then
    match active with
    | Some (Ok value) =>
        rollback_managed_config_with_evidence id
          (command_evidence "read_back_failed" (command_digest value) (command_evidence_view value)) now_ms
    | Some (Err _) =>
        rollback_managed_config id "read_back_failed" (sha256_digest (class_as_str (adapter_active adapter))) now_ms
    | None => rollback_managed_config id "read_back_failed" verification_digest now_ms
    end
  else
    let! command := mlift (match active with Some result => result | None => Ok config_test end) in
    let! succeeded := ledger (transition_with_command_evidence id
          (change [Verifying] Succeeded "config_verified" (command_digest command)
             (Some (mp_proposed_content_digest payload)) None now_ms)
          (command_evidence_view command)) in
    let! r := ledger (receipt (o_operation_id succeeded)) in
    let! _ := discard (remove_proposal (pr_relative_path proposal)) in
    mret r.

(** From [Reloading]. *)
Definition reload_managed (config_test : CommandEvidence) : EM OperationReceiptView :=
  try! reload := run (adapter_reload adapter) in
  match reload with
  | Err error =>
      rollback_managed_config id (class_as_str (adapter_reload adapter) +:+ "_unavailable")
        (sha256_digest (error_code error)) now_ms
  | Ok reload =>
      if negb (c_success reload) then
        rollback_managed_config_with_evidence id
          (command_evidence (class_as_str (adapter_reload adapter) +:+ "_failed") (command_digest reload)
             (command_evidence_view reload)) now_ms
      else
        let! _ := ledger (transition_with_command_evidence id
              (change [Reloading] Verifying (reloaded_code adapter) (command_digest reload) None None now_ms)
              (command_evidence_view reload)) in
        verify_managed config_test (command_digest reload)
  end.

(** From [Validating]: the configuration test. *)
Definition validate_managed : EM OperationReceiptView :=
  try! config_test := run (adapter_config_test adapter) in
  match config_test with
  | Err error =>
      rollback_managed_config id (class_as_str (adapter_config_test adapter) +:+ "_unavailable")
        (sha256_digest (error_code error)) now_ms
  | Ok config_test =>
      if negb (managed_config_test_succeeded adapter config_test) then
        rollback_managed_config_with_evidence id
          (diagnostics_and_command
             (managed_config_failure_code adapter config_test (cr_basename preflight))
             (command_digest config_test)
             (managed_config_diagnostics paths preflight config_test
                (changed_candidate_lines (cr_content preflight) proposed) proposed)
             (command_evidence_view config_test)) now_ms
      else
        let! _ := ledger (transition_with_command_evidence id
              (change [Validating] (if reloads then Reloading else Verifying) (config_valid_code adapter)
                 (command_digest config_test) None None now_ms)
              (command_evidence_view config_test)) in
        if reloads then reload_managed config_test
        else verify_managed config_test (command_digest config_test)
  end.

(** From [Snapshotted]: replace the file, then validate. *)
Definition apply_managed : EM OperationReceiptView :=
  let! _ := ledger (transition id
        (change [Snapshotted] Applying "config_apply_started" (cr_content_digest preflight) None None now_ms)) in
  try! applied := replace_managed_config paths preflight proposed in
  match applied with
  | Err error => rollback_managed_config id (error_code error) (sha256_digest (error_code error)) now_ms
  | Ok applied =>
      let! _ := ledger (transition id
            (change [Applying] Validating "config_replaced" (cr_content_digest applied) None None now_ms)) in
      validate_managed
  end.
End Running.

(** The snapshot taken before the file changes. *)
Definition config_snapshot (preflight : ManagedConfigResource) : ManagedConfigSnapshot :=
  {| ms_schema_version := 1;
     ms_resource_id := cr_resource_id preflight;
     ms_basename := cr_basename preflight;
     ms_content := cr_content preflight;
     ms_content_digest := cr_content_digest preflight;
     ms_metadata_digest := cr_metadata_digest preflight;
     ms_mode := cr_mode preflight;
     ms_uid := cr_uid preflight;
     ms_gid := cr_gid preflight |}.

(** The file found is the planned one, and its service may be left running. *)
Definition preflight_managed (operation : StoredOperation) (payload : ManagedConfigPlanPayload)
    : EM (string + ManagedConfigResource) :=
  try! found := discover_managed_config paths (p_site_id (o_plan operation)) in
  match found with
  | Err error => mret (inl (error_code error))
  | Ok resource =>
      if stale resource (p_available_digest (o_plan operation)) (p_enabled_state_digest (o_plan operation))
      then mret (inl "stale_resource"%string)
      else if bool_decide (mp_service_action payload = ValidateOnly) then
        try! active := run (adapter_active (cr_adapter resource)) in
        mret (if is_ok_and active c_success then inl "reload_required_for_active_service"%string
              else inr resource)
      else mret (inr resource)
  end.

Definition execute_managed_config (operation : StoredOperation) (now_ms : Z) : EM OperationReceiptView :=
  let! payload := mlift (ok_or (p_managed_config (o_plan operation)) EForensicLockdown) in
  let! checked := preflight_managed operation payload in
  match checked with
  | inl code => cancel_managed_before_apply operation code now_ms
  | inr preflight =>
      let proposal := {| pr_relative_path := mp_proposal_relative_path payload;
                         pr_digest := mp_proposal_digest payload |} in
      try! proposed := read_proposal proposal in
      match proposed with
      | Err error => cancel_managed_before_apply operation (error_code error) now_ms
      | Ok proposed =>
          if negb (bool_decide (sha256_digest proposed = mp_proposed_content_digest payload))
          then cancel_managed_before_apply operation "proposal_digest_mismatch" now_ms
          else
            match validate_managed_config_candidate (cr_adapter preflight) (cr_content preflight) proposed with
            | Err error => cancel_managed_before_apply operation (error_code error) now_ms
            | Ok _ =>
                try! record := write_managed_config_snapshot cfg (o_operation_id operation)
                                 (config_snapshot preflight) in
                match record with
                | Err error => cancel_managed_before_apply operation (error_code error) now_ms
                | Ok record =>
                    let! snapshotted := ledger (attach_snapshot (o_operation_id operation) record now_ms) in
                    if bool_decide (cr_content_digest preflight = mp_proposed_content_digest payload)
                    then finish_managed_noop snapshotted proposal (cr_adapter preflight) now_ms
                    else apply_managed payload proposal preflight proposed snapshotted now_ms
                end
            end
      end
  end.
End ConfigOp.
