(* ===== verification/EngineCert.v ===== *)
(** * jw-opsd: certificate operations (engine.rs)

    Planning, approving and executing a certificate issue, a renewal test and
    the attachment of a certificate to the management site, with the rollback
    of the latter. *)

From Stdlib Require Import Ascii String.
From S2P Require Import Prelude Crypto Contracts Plans CertContracts Adapters Ledger Text Ufw Host Snapshot Nginx.
From S2P Require Import ConfigText Diagnostics ManagedConfig Certificate EngineCore EngineNginx.

Definition CERTBOT_STAGING_EVIDENCE_TTL_MS : Z := 24 * 60 * 60 * 1000.

Definition CERTBOT_ISSUE_IMPACT : list string :=
  ["staging은 Let’s Encrypt 시험 CA에 실제 challenge를 요청하지만 인증서를 저장하지 않습니다.";
   "production은 공개 CA 발급·rate-limit 기록을 만들며 이 외부 효과는 원복할 수 없습니다.";
   "이번 작업은 인증서 발급까지만 수행하고 Nginx TLS 연결은 별도 G2 승인으로 남깁니다.";
   "실행 결과 원문과 계정 이메일은 감사 로그에 남기지 않고 digest와 마스킹 값만 기록합니다."].
Definition CERTBOT_RENEW_IMPACT : list string :=
  ["Certbot이 ACME staging 서버에 실제 갱신 challenge를 요청할 수 있습니다.";
   "인증서 교체를 적용하지 않는 dry-run이지만 외부 CA 통신과 challenge 요청은 되돌릴 수 없습니다.";
   "실행은 최대 12분 걸릴 수 있으며 결과 원문 대신 digest와 상태만 기록합니다."].
Definition CERTBOT_ATTACH_IMPACT : list string :=
  ["보호된 JW Agent Nginx vhost의 ssl_certificate 두 지시문만 표준 Certbot lineage로 교체합니다.";
   "nginx -t 통과 뒤 nginx.service를 reload하며 연결이 잠시 재수립될 수 있습니다.";
   "SNI TLS 응답 지문·Nginx active·certbot.timer·renewal 설정을 모두 다시 확인합니다.";
   "교체·문법·reload·TLS 검증 실패 시 Nginx 파일 원본 bytes·owner·mode를 자동 복원합니다."].

Definition renew_test_assurance : AssuranceView :=
  {| level := G1VerifiedAction; rollback_support := NotGuaranteed; operation_available := true;
     scope := ["고정된 certbot renew --dry-run만 one-shot network runner에서 실행합니다."%string];
     excluded_effects := ["CA challenge·rate-limit 기록 같은 외부 효과는 원복할 수 없습니다."%string];
     apply_verifier := ["Certbot exit와 timeout 상태를 digest-only 증거로 검증합니다.";
                        "certbot.timer와 sanitized certificate inventory를 다시 읽습니다."]%string;
     rollback_verifier := [];
     reason := Some "로컬 설정을 바꾸지 않는 외부 갱신 검증이므로 자동 원복 대상이 없습니다."%string |}.

Definition issue_assurance : AssuranceView :=
  {| level := G1VerifiedAction; rollback_support := NotGuaranteed; operation_available := true;
     scope := ["canonical domain에 대해 고정 webroot Certbot staging 또는 production 발급만 실행합니다."%string];
     excluded_effects := ["CA challenge·계정·발급·rate-limit 기록은 원복할 수 없습니다.";
                          "Nginx TLS 연결은 이 작업에 포함하지 않고 별도 G2 계획으로 수행합니다."]%string;
     apply_verifier := ["staging은 비저장 dry-run exit와 timeout을 digest-only로 확인합니다.";
                        "production은 표준 lineage의 SAN·fingerprint·webroot renewal 설정을 다시 읽습니다."]%string;
     rollback_verifier := [];
     reason := Some "외부 CA 효과는 되돌릴 수 없어 발급 결과 검증만 보장합니다."%string |}.

Definition attach_assurance : AssuranceView :=
  {| level := G2ReversibleConfig; rollback_support := AutomaticBounded; operation_available := true;
     scope := ["보호된 관리 vhost의 인증서·개인키 지시문 두 개와 Nginx reload만 변경합니다."%string];
     excluded_effects := ["인증서 발급·폐기·DNS·firewall·다른 Nginx 파일은 변경하거나 원복하지 않습니다."%string];
     apply_verifier := ["nginx -t, reload, active 상태를 확인합니다.";
                        "127.0.0.1:443 SNI 응답의 인증서 SHA-256 지문을 확인합니다.";
                        "Certbot lineage·renewal config·timer 상태를 다시 읽습니다."]%string;
     rollback_verifier := ["snapshot의 원본 bytes·owner·mode를 복원합니다.";
                           "복원 뒤 nginx -t, reload, active 상태를 다시 확인합니다."]%string;
     reason := Some "로컬 Nginx 설정 범위만 자동 원복하며 이미 발생한 CA 외부 효과는 포함하지 않습니다."%string |}.

(** ** Plan views *)

Record CertbotIssuePlanView := {
  vi_schema_version : Z;
  vi_operation_type : string;
  vi_plan_id : string;
  vi_plan_hash : string;
  vi_created_at : string;
  vi_expires_at : string;
  vi_actor : Subject;
  vi_primary_domain : string;
  vi_domains : list string;
  vi_masked_account_email : string;
  vi_environment : CertificateEnvironment;
  vi_site_id : string;
  vi_inventory_digest : string;
  vi_site_digest : string;
  vi_resolved_addresses : list string;
  vi_local_port_80_reachable : bool;
  vi_local_port_443_reachable : bool;
  vi_staging_evidence_valid : bool;
  vi_impact : list string;
  vi_recovery_path : list string;
  vi_assurance : AssuranceView;
}.

Record CertbotRenewTestPlanView := {
  vr_schema_version : Z;
  vr_operation_type : string;
  vr_plan_id : string;
  vr_plan_hash : string;
  vr_created_at : string;
  vr_expires_at : string;
  vr_actor : Subject;
  vr_inventory_digest : string;
  vr_timer_enabled : bool;
  vr_timer_active : bool;
  vr_certificate_count : Z;
  vr_impact : list string;
  vr_recovery_path : list string;
  vr_assurance : AssuranceView;
}.

Record CertbotAttachPlanView := {
  va_schema_version : Z;
  va_operation_type : string;
  va_plan_id : string;
  va_plan_hash : string;
  va_created_at : string;
  va_expires_at : string;
  va_actor : Subject;
  va_primary_domain : string;
  va_site_id : string;
  va_site_digest : string;
  va_inventory_digest : string;
  va_certificate_fingerprint : string;
  va_sans : list string;
  va_not_after : string;
  va_current_certificate_path : string;
  va_target_certificate_path : string;
  va_timer_enabled : bool;
  va_timer_active : bool;
  va_impact : list string;
  va_recovery_path : list string;
  va_assurance : AssuranceView;
}.

Section CertOp.
Context `{EngineExternals}.
Context (cfg : Config).
Let paths := cf_paths cfg.

Definition certbot_issue_plan_view (plan : StoredPlan) : oresult CertbotIssuePlanView :=
  if negb (is_type plan CERTBOT_ISSUE_OPERATION) then Err (ERejected "operation_type")
  else
    let? payload := ok_or (p_certbot_issue plan) EForensicLockdown in
    let? created_at := format_time (p_created_at_ms plan) in
    let? expires_at := format_time (p_expires_at_ms plan) in
    Ok {| vi_schema_version := OPERATION_SCHEMA_VERSION;
          vi_operation_type := p_operation_type plan;
          vi_plan_id := p_plan_id plan;
          vi_plan_hash := p_plan_hash plan;
          vi_created_at := created_at;
          vi_expires_at := expires_at;
          vi_actor := p_actor plan;
          vi_primary_domain := ip_primary_domain payload;
          vi_domains := ip_domains payload;
          vi_masked_account_email := ip_masked_account_email payload;
          vi_environment := ip_environment payload;
          vi_site_id := ip_site_id payload;
          vi_inventory_digest := ip_inventory_digest payload;
          vi_site_digest := ip_site_digest payload;
          vi_resolved_addresses := ip_resolved_addresses payload;
          vi_local_port_80_reachable := ip_local_port_80_reachable payload;
          vi_local_port_443_reachable := ip_local_port_443_reachable payload;
          vi_staging_evidence_valid := ip_staging_evidence_valid payload;
          vi_impact := CERTBOT_ISSUE_IMPACT;
          vi_recovery_path := CERTBOT_ISSUE_RECOVERY_PATH;
          vi_assurance := p_assurance plan |}.

Definition certbot_renew_plan_view (plan : StoredPlan) : oresult CertbotRenewTestPlanView :=
  if negb (is_type plan CERTBOT_RENEW_TEST_OPERATION) then Err (ERejected "operation_type")
  else
    let? payload := ok_or (p_certbot_renew plan) EForensicLockdown in
    let? created_at := format_time (p_created_at_ms plan) in
    let? expires_at := format_time (p_expires_at_ms plan) in
    Ok {| vr_schema_version := OPERATION_SCHEMA_VERSION;
          vr_operation_type := p_operation_type plan;
          vr_plan_id := p_plan_id plan;
          vr_plan_hash := p_plan_hash plan;
          vr_created_at := created_at;
          vr_expires_at := expires_at;
          vr_actor := p_actor plan;
          vr_inventory_digest := rp_inventory_digest payload;
          vr_timer_enabled := rp_timer_enabled payload;
          vr_timer_active := rp_timer_active payload;
          vr_certificate_count := rp_certificate_count payload;
          vr_impact := CERTBOT_RENEW_IMPACT;
          vr_recovery_path := CERTBOT_RENEW_RECOVERY_PATH;
          vr_assurance := p_assurance plan |}.

Definition certbot_attach_plan_view (plan : StoredPlan) : oresult CertbotAttachPlanView :=
  if negb (is_type plan CERTBOT_ATTACH_OPERATION) then Err (ERejected "operation_type")
  else
    let? payload := ok_or (p_certbot_attach plan) EForensicLockdown in
    let? created_at := format_time (p_created_at_ms plan) in
    let? expires_at := format_time (p_expires_at_ms plan) in
    Ok {| va_schema_version := OPERATION_SCHEMA_VERSION;
          va_operation_type := p_operation_type plan;
          va_plan_id := p_plan_id plan;
          va_plan_hash := p_plan_hash plan;
          va_created_at := created_at;
          va_expires_at := expires_at;
          va_actor := p_actor plan;
          va_primary_domain := ap_primary_domain payload;
          va_site_id := ap_site_id payload;
          va_site_digest := ap_site_digest payload;
          va_inventory_digest := ap_inventory_digest payload;
          va_certificate_fingerprint := ap_certificate_fingerprint payload;
          va_sans := ap_sans payload;
          va_not_after := ap_not_after payload;
          va_current_certificate_path := ap_current_certificate_path payload;
          va_target_certificate_path := ap_target_certificate_path payload;
          va_timer_enabled := ap_timer_enabled payload;
          va_timer_active := ap_timer_active payload;
          va_impact := CERTBOT_ATTACH_IMPACT;
          va_recovery_path := CERTBOT_ATTACH_RECOVERY_PATH;
          va_assurance := p_assurance plan |}.

(** ** Plan hashes *)

Definition certbot_renew_plan_hash (plan : StoredPlan) : oresult string :=
  let? payload := ok_or (p_certbot_renew plan) EForensicLockdown in
  Ok (canonical_digest "jw-agent/operation-plan/v1"
    {| rh_schema_version := 1; rh_operation_type := CERTBOT_RENEW_TEST_OPERATION; rh_plan_id := p_plan_id plan;
       rh_created_at_ms := p_created_at_ms plan; rh_expires_at_ms := p_expires_at_ms plan;
       rh_actor := p_actor plan; rh_inventory_digest := rp_inventory_digest payload;
       rh_timer_enabled := rp_timer_enabled payload; rh_timer_active := rp_timer_active payload;
       rh_certificate_count := rp_certificate_count payload; rh_resource_key := p_resource_key plan;
       rh_assurance := p_assurance plan |}).

Definition certbot_issue_plan_hash (plan : StoredPlan) : oresult string :=
  let? payload := ok_or (p_certbot_issue plan) EForensicLockdown in
  Ok (canonical_digest "jw-agent/operation-plan/v1"
    {| ih_schema_version := 1; ih_operation_type := CERTBOT_ISSUE_OPERATION; ih_plan_id := p_plan_id plan;
       ih_created_at_ms := p_created_at_ms plan; ih_expires_at_ms := p_expires_at_ms plan;
       ih_actor := p_actor plan; ih_primary_domain := ip_primary_domain payload;
       ih_domains := ip_domains payload; ih_account_email_digest := ip_account_email_proposal_digest payload;
       ih_masked_account_email := ip_masked_account_email payload; ih_environment := ip_environment payload;
       ih_site_id := ip_site_id payload; ih_site_digest := ip_site_digest payload;
       ih_inventory_digest := ip_inventory_digest payload;
       ih_preflight_observed_at_ms := ip_preflight_observed_at_ms payload;
       ih_resolved_addresses := ip_resolved_addresses payload;
       ih_local_port_80_reachable := ip_local_port_80_reachable payload;
       ih_local_port_443_reachable := ip_local_port_443_reachable payload;
       ih_staging_evidence_valid := ip_staging_evidence_valid payload;
       ih_staging_evidence_key := ip_staging_evidence_key payload; ih_resource_key := p_resource_key plan;
       ih_assurance := p_assurance plan |}).

Definition certbot_attach_plan_hash (plan : StoredPlan) : oresult string :=
  let? payload := ok_or (p_certbot_attach plan) EForensicLockdown in
  Ok (canonical_digest "jw-agent/operation-plan/v1"
    {| ah_schema_version := 1; ah_operation_type := CERTBOT_ATTACH_OPERATION; ah_plan_id := p_plan_id plan;
       ah_created_at_ms := p_created_at_ms plan; ah_expires_at_ms := p_expires_at_ms plan;
       ah_actor := p_actor plan; ah_primary_domain := ap_primary_domain payload;
       ah_site_id := ap_site_id payload; ah_site_digest := ap_site_digest payload;
       ah_metadata_digest := ap_metadata_digest payload; ah_inventory_digest := ap_inventory_digest payload;
       ah_certificate_fingerprint := ap_certificate_fingerprint payload; ah_sans := ap_sans payload;
       ah_not_after := ap_not_after payload;
       ah_current_certificate_path := ap_current_certificate_path payload;
       ah_target_certificate_path := ap_target_certificate_path payload;
       ah_proposed_content_digest := ap_proposed_content_digest payload;
       ah_timer_enabled := ap_timer_enabled payload; ah_timer_active := ap_timer_active payload;
       ah_resource_key := p_resource_key plan; ah_assurance := p_assurance plan |}).

(** ** Inventory and planning *)

Definition engine_certificate_inventory (now_ms : Z) : EM CertificateInventoryView :=
  let! inventory := certificate_inventory paths now_ms in
  let! locked := mget w_lockdown in
  if negb (iv_certbot_installed inventory) || (locked : bool) then mret inventory
  else
    try! opened := ledger open in
    if is_err opened then mret inventory
    else mret {| iv_schema_version := iv_schema_version inventory;
                 iv_observed_at := iv_observed_at inventory;
                 iv_certbot_installed := iv_certbot_installed inventory;
                 iv_timer_enabled := iv_timer_enabled inventory;
                 iv_timer_active := iv_timer_active inventory;
                 iv_inventory_digest := iv_inventory_digest inventory;
                 iv_certificates := iv_certificates inventory;
                 iv_problems := iv_problems inventory;
                 iv_issue_operation_type := Some CERTBOT_ISSUE_OPERATION;
                 iv_renew_test_operation_type := Some CERTBOT_RENEW_TEST_OPERATION;
                 iv_attach_operation_type := Some CERTBOT_ATTACH_OPERATION;
                 iv_assurance := with_reason (iv_assurance inventory)
                   "목록은 G0 조회 전용이며 발급·갱신 G1과 Nginx 연결 G2는 각각 별도 계획·재인증을 요구합니다." |}.

(** Nginx is healthy before anything is planned. *)
Definition require_nginx_healthy : EM unit :=
  let! nginx_test := run NginxConfigTest in
  let! nginx_active := run NginxActive in
  if negb (c_success nginx_test) || negb (c_success nginx_active)
  then mfail (ERejected "unsupported_environment") else mret tt.

(** [u32::try_from(certificates.len())]. *)
Definition certificate_count (inventory : CertificateInventoryView) : oresult Z :=
  let n := Z.of_nat (length (iv_certificates inventory)) in
  if n <=? u32_max then Ok n else Err (ERejected "certificate_inventory_too_large").

Definition plan_certbot_renew_test (actor : Subject) (request : CertbotRenewTestPlanRequest) (now_ms : Z)
    : EM CertbotRenewTestPlanView :=
  let! _ := mlift (map_err (renew_request_validate request) ERejected) in
  let! inventory := engine_certificate_inventory now_ms in
  if negb (iv_certbot_installed inventory) then mfail (ERejected "unsupported_environment")
  else if negb (bool_decide (iv_inventory_digest inventory = rt_expected_inventory_digest request))
  then mfail (ERejected "stale_inventory")
  else
    let! count := mlift (certificate_count inventory) in
    let! ttl := mlift (ttl_ms cfg) in
    let! plan_id := random_id "plan" in
    let plan :=
      {| p_operation_type := CERTBOT_RENEW_TEST_OPERATION;
         p_plan_id := plan_id;
         p_plan_hash := EmptyString;
         p_actor := actor;
         p_site_id := "certbot-renewal";
         p_display_name := "Certbot 갱신 사전 검증";
         p_current_state := Disabled;
         p_target_state := Disabled;
         p_available_digest := iv_inventory_digest inventory;
         p_enabled_state_digest := iv_inventory_digest inventory;
         p_created_at_ms := now_ms;
         p_expires_at_ms := sat_add now_ms ttl;
         p_idempotency_key := rt_idempotency_key request;
         p_request_digest := canonical_digest "jw-agent/operation-request/v1"
           {| rd_operation_type := CERTBOT_RENEW_TEST_OPERATION; rd_actor := actor; rd_request := request |};
         p_resource_key := "certbot/global";
         p_assurance := renew_test_assurance;
         p_managed_config := None;
         p_certbot_renew := Some {| rp_inventory_digest := iv_inventory_digest inventory;
                                    rp_timer_enabled := iv_timer_enabled inventory;
                                    rp_timer_active := iv_timer_active inventory;
                                    rp_certificate_count := count |};
         p_certbot_issue := None;
         p_certbot_attach := None;
         p_ufw_rule := None |} in
    let! hash := mlift (certbot_renew_plan_hash plan) in
    let! _ := open_ledger in
    let! stored := ledger (create_or_reuse_plan (set_plan_hash hash plan)) in
    mlift (certbot_renew_plan_view stored).

Definition issue_plan (actor : Subject) (input : CertbotIssuePlanInput) (site : NginxSite)
    (inventory_digest plan_id : string) (email : ProposalRecord) (staging_evidence_valid : bool)
    (staging_evidence_key : string) (now_ms expires_at_ms : Z) : StoredPlan :=
  let request := in_request input in
  let preflight := in_preflight input in
  {| p_operation_type := CERTBOT_ISSUE_OPERATION;
     p_plan_id := plan_id;
     p_plan_hash := EmptyString;
     p_actor := actor;
     p_site_id := ns_site_id site;
     p_display_name := ci_primary_domain request;
     p_current_state := Disabled;
     p_target_state := Disabled;
     p_available_digest := inventory_digest;
     p_enabled_state_digest := inventory_digest;
     p_created_at_ms := now_ms;
     p_expires_at_ms := expires_at_ms;
     p_idempotency_key := ci_idempotency_key request;
     p_request_digest := canonical_digest "jw-agent/operation-request/v1"
       {| rd_operation_type := CERTBOT_ISSUE_OPERATION; rd_actor := actor; rd_request := input |};
     p_resource_key := "certbot/global";
     p_assurance := issue_assurance;
     p_managed_config := None;
     p_certbot_renew := None;
     p_certbot_issue := Some
       {| ip_primary_domain := ci_primary_domain request;
          ip_domains := issue_domains request;
          ip_account_email_proposal_relative_path := pr_relative_path email;
          ip_account_email_proposal_digest := pr_digest email;
          ip_masked_account_email := mask_account_email (ci_account_email request);
          ip_environment := ci_environment request;
          ip_site_id := ns_site_id site;
          ip_site_digest := ns_available_digest site;
          ip_inventory_digest := inventory_digest;
          ip_preflight_observed_at_ms := pf_observed_at_unix_ms preflight;
          ip_resolved_addresses := pf_resolved_addresses preflight;
          ip_local_port_80_reachable := pf_local_port_80_reachable preflight;
          ip_local_port_443_reachable := pf_local_port_443_reachable preflight;
          ip_staging_evidence_valid := staging_evidence_valid;
          ip_staging_evidence_key := staging_evidence_key |};
     p_certbot_attach := None;
     p_ufw_rule := None |}.

(** The end of the issue planning: the e-mail is kept only with the plan it
    was written for. *)
Definition store_issue_plan (plan : StoredPlan) (email : ProposalRecord) : EM CertbotIssuePlanView :=
  try! result := (let! _ := open_ledger in
                  let! stored := ledger (create_or_reuse_plan plan) in
                  let! view := mlift (certbot_issue_plan_view stored) in
                  mret (p_plan_id stored, view)) in
  match result with
  | Ok (stored_plan_id, view) =>
      let! _ := (if bool_decide (stored_plan_id = p_plan_id plan) then mret tt
                 else discard (remove_proposal (pr_relative_path email))) in
      mret view
  | Err error =>
      let! _ := discard (remove_proposal (pr_relative_path email)) in
      mfail error
  end.

Definition plan_certbot_issue (actor : Subject) (input : CertbotIssuePlanInput) (now_ms : Z)
    : EM CertbotIssuePlanView :=
  let request := in_request input in
  let! _ := open_ledger in
  let! _ := remove_expired_proposals now_ms in
  let! site := validate_issue_preconditions paths input now_ms in
  let! inventory := engine_certificate_inventory now_ms in
  if negb (iv_certbot_installed inventory) then mfail (ERejected "unsupported_environment")
  else if negb (bool_decide (iv_inventory_digest inventory = ci_expected_inventory_digest request))
  then mfail (ERejected "stale_inventory")
  else
    let! _ := require_nginx_healthy in
    let staging_evidence_key := canonical_digest "jw-agent/certbot-staging-evidence/v1"
          {| se_domains := issue_domains request; se_site_digest := ns_available_digest site;
             se_resolved_addresses := pf_resolved_addresses (in_preflight input) |} in
    let! _ := open_ledger in
    let! staging_evidence_valid := ledger (has_recent_staging_evidence staging_evidence_key
                                     (sat_sub now_ms CERTBOT_STAGING_EVIDENCE_TTL_MS)) in
    if bool_decide (ci_environment request = Production) && negb staging_evidence_valid
    then mfail (ERejected "staging_required")
    else
      let! ttl := mlift (ttl_ms cfg) in
      let! plan_id := random_id "plan" in
      let! email := write_proposal cfg plan_id (ci_account_email request) in
      let plan := issue_plan actor input site (iv_inventory_digest inventory) plan_id email staging_evidence_valid
                    staging_evidence_key now_ms (sat_add now_ms ttl) in
      let! hash := mlift (certbot_issue_plan_hash plan) in
      store_issue_plan (set_plan_hash hash plan) email.

(** The certificate a request names. *)
Definition find_certificate (primary_domain : string) (inventory : CertificateInventoryView)
    : option CertificateSummaryView :=
  List.find (fun c => bool_decide (cy_primary_domain c = primary_domain)) (iv_certificates inventory).

Definition attachable (request : CertbotAttachPlanRequest) (c : CertificateSummaryView) : bool :=
  bool_decide (cy_fingerprint_sha256 c = at_expected_certificate_fingerprint request)
  && cy_private_key_present c && cy_renewal_config_present c && cy_webroot_managed c
  && bool_decide (at_primary_domain request ∈ cy_sans c).

Definition attach_plan (actor : Subject) (request : CertbotAttachPlanRequest)
    (inventory : CertificateInventoryView) (certificate : CertificateSummaryView)
    (attachment : TlsAttachmentResource) (plan_id : string) (now_ms expires_at_ms : Z) : StoredPlan :=
  {| p_operation_type := CERTBOT_ATTACH_OPERATION;
     p_plan_id := plan_id;
     p_plan_hash := EmptyString;
     p_actor := actor;
     p_site_id := at_site_id request;
     p_display_name := at_primary_domain request;
     p_current_state := Enabled;
     p_target_state := Enabled;
     p_available_digest := cr_content_digest (ta_config attachment);
     p_enabled_state_digest := cr_metadata_digest (ta_config attachment);
     p_created_at_ms := now_ms;
     p_expires_at_ms := expires_at_ms;
     p_idempotency_key := at_idempotency_key request;
     p_request_digest := canonical_digest "jw-agent/operation-request/v1"
       {| rd_operation_type := CERTBOT_ATTACH_OPERATION; rd_actor := actor; rd_request := request |};
     p_resource_key := "certbot/global";
     p_assurance := attach_assurance;
     p_managed_config := None;
     p_certbot_renew := None;
     p_certbot_issue := None;
     p_certbot_attach := Some
       {| ap_primary_domain := at_primary_domain request;
          ap_site_id := at_site_id request;
          ap_site_digest := cr_content_digest (ta_config attachment);
          ap_metadata_digest := cr_metadata_digest (ta_config attachment);
          ap_inventory_digest := iv_inventory_digest inventory;
          ap_certificate_fingerprint := cy_fingerprint_sha256 certificate;
          ap_sans := cy_sans certificate;
          ap_not_after := cy_not_after certificate;
          ap_current_certificate_path := ta_current_certificate_path attachment;
          ap_target_certificate_path := ta_target_certificate_path attachment;
          ap_proposed_content_digest := ta_proposed_content_digest attachment;
          ap_timer_enabled := iv_timer_enabled inventory;
          ap_timer_active := iv_timer_active inventory |};
     p_ufw_rule := None |}.

Definition plan_certbot_attach (actor : Subject) (request : CertbotAttachPlanRequest) (now_ms : Z)
    : EM CertbotAttachPlanView :=
  let! _ := mlift (map_err (attach_request_validate request) ERejected) in
  let! inventory := engine_certificate_inventory now_ms in
  if negb (bool_decide (iv_inventory_digest inventory = at_expected_inventory_digest request))
  then mfail (ERejected "stale_inventory")
  else if negb (iv_certbot_installed inventory) || negb (iv_timer_enabled inventory)
          || negb (iv_timer_active inventory)
  then mfail (ERejected "unsupported_environment")
  else
    let! certificate := mlift (ok_or (find_certificate (at_primary_domain request) inventory)
                                 (ERejected "certificate_invalid")) in
    if negb (attachable request certificate) then mfail (ERejected "certificate_invalid")
    else
      let! attachment := prepare_tls_attachment paths (at_primary_domain request) (at_site_id request)
                           (at_expected_site_digest request) in
      let! _ := require_nginx_healthy in
      let! ttl := mlift (ttl_ms cfg) in
      let! plan_id := random_id "plan" in
      let plan := attach_plan actor request inventory certificate attachment plan_id now_ms (sat_add now_ms ttl) in
      let! hash := mlift (certbot_attach_plan_hash plan) in
      let! _ := open_ledger in
      let! stored := ledger (create_or_reuse_plan (set_plan_hash hash plan)) in
      mlift (certbot_attach_plan_view stored).

(** ** Approval *)

Definition approve_certbot_issue (actor : Subject) (plan_id plan_hash idempotency_key : string)
    (external_effect_confirmed local_attach_deferred_confirmed : bool) (now_ms : Z) : EM OperationReceiptView :=
  if negb external_effect_confirmed then mfail (ERejected "external_effect_confirmation")
  else if negb local_attach_deferred_confirmed then mfail (ERejected "local_attach_deferred_confirmation")
  else
    let! _ := open_ledger in
    let! plan := ledger (load_plan plan_id) in
    if negb (is_type plan CERTBOT_ISSUE_OPERATION) then mfail (ERejected "approval_mismatch")
    else
      let! payload := mlift (ok_or (p_certbot_issue plan) EForensicLockdown) in
      if 60000 <? sat_sub now_ms (ip_preflight_observed_at_ms payload) then mfail (ERejected "preflight_stale")
      else
        let! operation_id := random_id "op" in
        let! operation := ledger (begin_operation operation_id plan_id plan_hash idempotency_key actor now_ms) in
        ledger (receipt (o_operation_id operation)).

Definition approve_certbot_renew_test (actor : Subject) (plan_id plan_hash idempotency_key : string)
    (external_effect_confirmed : bool) (now_ms : Z) : EM OperationReceiptView :=
  if negb external_effect_confirmed then mfail (ERejected "external_effect_confirmation")
  else approve_plan (fun plan => is_type plan CERTBOT_RENEW_TEST_OPERATION) actor plan_id plan_hash
         idempotency_key now_ms.

Definition approve_certbot_attach (actor : Subject) (plan_id plan_hash idempotency_key : string)
    (config_replace_confirmed service_reload_confirmed : bool) (now_ms : Z) : EM OperationReceiptView :=
  if negb config_replace_confirmed then mfail (ERejected "config_replace_confirmation")
  else if negb service_reload_confirmed then mfail (ERejected "service_reload_confirmation")
  else approve_plan (fun plan => is_type plan CERTBOT_ATTACH_OPERATION) actor plan_id plan_hash
         idempotency_key now_ms.

(** ** Execution of an issue and of a renewal test *)

Definition cancel_certbot_before_apply (operation : StoredOperation) (reason : string) (now_ms : Z)
    : EM OperationReceiptView :=
  let! terminal := ledger (transition (o_operation_id operation)
        (change [Approved] CancelledBeforeApply reason (sha256_digest reason) None None now_ms)) in
  let! r := ledger (receipt (o_operation_id terminal)) in
  let! _ := remove_operation_proposal terminal in
  mret r.

Definition reject_certbot_execution (operation_id : string) (expected : OperationStage)
    (reason evidence_digest : string) (now_ms : Z) : EM OperationReceiptView :=
  let! terminal := ledger (transition operation_id
        (change [expected] Rejected reason evidence_digest None None now_ms)) in
  let! r := ledger (receipt (o_operation_id terminal)) in
  let! _ := remove_operation_proposal terminal in
  mret r.

Definition inventory_snapshot (inventory : CertificateInventoryView) (count : Z) : CertificateInventorySnapshot :=
  {| cx_schema_version := 1; cx_inventory_digest := iv_inventory_digest inventory;
     cx_timer_enabled := iv_timer_enabled inventory; cx_timer_active := iv_timer_active inventory;
     cx_certificate_count := count |}.

(** The read-back and the verdict: [inl] the code and evidence of a rejection,
    [inr] those of the success. *)
Definition CertVerdict : Type := (string * string) + (string * string).

(** From [Validating]: read the inventory back and conclude. *)
Definition conclude_certbot (operation_id : string) (unreadable : string)
    (verdict : CertificateInventoryView -> CertVerdict) (now_ms : Z) : EM OperationReceiptView :=
  try! read_back := engine_certificate_inventory now_ms in
  match read_back with
  | Err error => reject_certbot_execution operation_id Validating unreadable (sha256_digest (error_code error)) now_ms
  | Ok inventory =>
      match verdict inventory with
      | inl (reason, evidence) => reject_certbot_execution operation_id Validating reason evidence now_ms
      | inr (code, evidence) =>
          let! terminal := ledger (transition operation_id
                (change [Validating] Succeeded code evidence (Some evidence) None now_ms)) in
          let! r := ledger (receipt (o_operation_id terminal)) in
          let! _ := remove_operation_proposal terminal in
          mret r
      end
  end.

(** The codes a certificate run records. *)
Record CertCodes := {
  cc_started : string;
  cc_unavailable : string;
  cc_completed : string;
  cc_failed : string;
  cc_rejected : string;
  cc_unreadable : string;
}.

(** From [Snapshotted]: run the command, record its evidence, read back. *)
Definition run_certbot (operation_id : string) (record : SnapshotRecord) (command : CertbotCommand)
    (codes : CertCodes) (verdict : CertificateInventoryView -> CertVerdict) (now_ms : Z)
    : EM OperationReceiptView :=
  let! _ := ledger (transition operation_id
        (change [Snapshotted] Applying (cc_started codes) (sn_digest record) None None now_ms)) in
  try! ran := certbot_run command now_ms in
  match ran with
  | Err error => reject_certbot_execution operation_id Applying (cc_unavailable codes)
                   (sha256_digest (error_code error)) now_ms
  | Ok evidence =>
      let evidence_digest := certbot_command_digest evidence in
      let! _ := ledger (transition operation_id
            (change [Applying] Validating (if cb_success evidence then cc_completed codes else cc_failed codes)
               evidence_digest None None now_ms)) in
      if negb (cb_success evidence)
      then reject_certbot_execution operation_id Validating (cc_rejected codes) evidence_digest now_ms
      else conclude_certbot operation_id (cc_unreadable codes) verdict now_ms
  end.

Definition renew_codes : CertCodes :=
  {| cc_started := "certbot_renew_dry_run_started"; cc_unavailable := "renewal_test_unavailable";
     cc_completed := "certbot_renew_dry_run_completed"; cc_failed := "certbot_renew_dry_run_failed";
     cc_rejected := "renewal_test_failed"; cc_unreadable := "renewal_read_back_failed" |}.

Definition renew_verdict (inventory : CertificateInventoryView) : CertVerdict :=
  if negb (iv_certbot_installed inventory) || negb (iv_timer_enabled inventory) || negb (iv_timer_active inventory)
  then inl ("renewal_timer_unhealthy"%string, iv_inventory_digest inventory)
  else inr ("renewal_test_verified"%string, iv_inventory_digest inventory).

(** From [Approved]: check the inventory, take its snapshot, run. *)
Definition snapshot_and_run (operation : StoredOperation) (planned_digest : string) (command : CertbotCommand)
    (codes : CertCodes) (verdict : CertificateInventoryView -> CertVerdict) (now_ms : Z)
    : EM OperationReceiptView :=
  let id := o_operation_id operation in
  try! found := engine_certificate_inventory now_ms in
  match found with
  | Err error => cancel_certbot_before_apply operation (error_code error) now_ms
  | Ok inventory =>
      if negb (iv_certbot_installed inventory) || negb (bool_decide (iv_inventory_digest inventory = planned_digest))
      then cancel_certbot_before_apply operation "precondition_changed" now_ms
      else
        let! count := mlift (certificate_count inventory) in
        try! record := write_certificate_inventory_snapshot cfg id (inventory_snapshot inventory count) in
        match record with
        | Err error => cancel_certbot_before_apply operation (error_code error) now_ms
        | Ok record =>
            let! _ := ledger (attach_snapshot id record now_ms) in
            run_certbot id record command codes verdict now_ms
        end
  end.

Definition execute_certbot_renew_test (operation : StoredOperation) (now_ms : Z) : EM OperationReceiptView :=
  let! payload := mlift (ok_or (p_certbot_renew (o_plan operation)) EForensicLockdown) in
  snapshot_and_run operation (rp_inventory_digest payload) RenewDryRun renew_codes renew_verdict now_ms.

Definition issue_codes (environment : CertificateEnvironment) : CertCodes :=
  {| cc_started := match environment with
                   | Staging => "certbot_staging_dry_run_started"
                   | Production => "certbot_production_issue_started"
                   end;
     cc_unavailable := "issuance_unavailable"; cc_completed := "certbot_issue_command_completed";
     cc_failed := "certbot_issue_command_failed"; cc_rejected := "issuance_failed";
     cc_unreadable := "certificate_invalid" |}.

Definition issue_verified (payload : CertbotIssuePlanPayload) (read_back : CertificateInventoryView) : bool :=
  match ip_environment payload with
  | Staging => bool_decide (iv_inventory_digest read_back = ip_inventory_digest payload)
  | Production =>
      is_some_and (find_certificate (ip_primary_domain payload) read_back) (fun c =>
        bool_decide (cy_sans c = ip_domains payload) && cy_webroot_managed c)
      && iv_timer_enabled read_back && iv_timer_active read_back
  end.

Definition issue_verdict (payload : CertbotIssuePlanPayload) (read_back : CertificateInventoryView) : CertVerdict :=
  if negb (issue_verified payload read_back)
  then inl ("certificate_invalid"%string, iv_inventory_digest read_back)
  else inr (match ip_environment payload with
            | Staging => "staging_challenge_verified"%string
            | Production => "production_certificate_verified"%string
            end, iv_inventory_digest read_back).

Definition execute_certbot_issue (operation : StoredOperation) (now_ms : Z) : EM OperationReceiptView :=
  let! payload := mlift (ok_or (p_certbot_issue (o_plan operation)) EForensicLockdown) in
  try! email := read_proposal {| pr_relative_path := ip_account_email_proposal_relative_path payload;
                                 pr_digest := ip_account_email_proposal_digest payload |} in
  match email with
  | Err error => cancel_certbot_before_apply operation (error_code error) now_ms
  | Ok account_email =>
      let! staged := (if bool_decide (ip_environment payload = Production)
                      then ledger (has_recent_staging_evidence (ip_staging_evidence_key payload)
                                     (sat_sub now_ms CERTBOT_STAGING_EVIDENCE_TTL_MS))
                      else mret true) in
      if negb staged then cancel_certbot_before_apply operation "staging_required" now_ms
      else
        try! site := validate_issue_site paths (ip_site_id payload) (ip_site_digest payload) (ip_domains payload) in
        if is_err site then cancel_certbot_before_apply operation "precondition_changed" now_ms
        else snapshot_and_run operation (ip_inventory_digest payload)
               (Issue (ip_primary_domain payload) (ip_domains payload) account_email (ip_environment payload) true)
               (issue_codes (ip_environment payload)) (issue_verdict payload) now_ms
  end.

(** ** Attaching a certificate *)

Definition protected_snapshot (config : ManagedConfigResource) : ManagedConfigSnapshot :=
  {| ms_schema_version := 1; ms_resource_id := cr_resource_id config; ms_basename := cr_basename config;
     ms_content := cr_content config; ms_content_digest := cr_content_digest config;
     ms_metadata_digest := cr_metadata_digest config; ms_mode := cr_mode config; ms_uid := cr_uid config;
     ms_gid := cr_gid config |}.

Definition restore_attached (operation_id : string) (record : SnapshotRecord) (now_ms : Z)
    : EM OperationReceiptView :=
  try! snapshot := read_managed_config_snapshot record in
  match snapshot with
  | Err error => recovery_required operation_id (error_code error) now_ms
  | Ok snapshot =>
      try! restored := restore_protected_config paths (ms_resource_id snapshot) (ms_basename snapshot)
                         (ms_content snapshot) (ms_mode snapshot) (ms_uid snapshot) (ms_gid snapshot) in
      match restored with
      | Err _ => recovery_required operation_id "rollback_replace_failed" now_ms
      | Ok restored =>
          try! config := run NginxConfigTest in
          try! reload := run NginxReload in
          try! active := run NginxActive in
          if negb (bool_decide (cr_content_digest restored = ms_content_digest snapshot)
                   && bool_decide (cr_metadata_digest restored = ms_metadata_digest snapshot)
                   && is_ok_and config c_success && is_ok_and reload c_success && is_ok_and active c_success)
          then recovery_required operation_id "rollback_verify_failed" now_ms
          else
            let! active := mlift active in
            conclude operation_id
              (change [RollingBack] RolledBack "rollback_verified" (command_digest active)
                 (Some (ms_content_digest snapshot)) (Some "verified"%string) now_ms)
      end
  end.

Definition rollback_certbot_attach (operation_id cause cause_evidence_digest : string) (now_ms : Z)
    : EM OperationReceiptView :=
  let! operation := ledger (load_operation operation_id) in
  let! rolling :=
    (if bool_decide (o_stage operation = RollingBack) then mret operation
     else ledger (transition operation_id
            (change [Applying; Validating; Reloading; Verifying; RollingBack] RollingBack cause
               cause_evidence_digest None None now_ms))) in
  match o_snapshot rolling with
  | None => recovery_required operation_id "snapshot_missing" now_ms
  | Some record => restore_attached operation_id record now_ms
  end.

Definition attached_inventory (payload : CertbotAttachPlanPayload) (inventory : CertificateInventoryView) : bool :=
  bool_decide (iv_inventory_digest inventory = ap_inventory_digest payload)
  && iv_timer_enabled inventory && iv_timer_active inventory
  && existsb (fun c => bool_decide (cy_primary_domain c = ap_primary_domain payload)
                       && bool_decide (cy_fingerprint_sha256 c = ap_certificate_fingerprint payload)
                       && cy_webroot_managed c) (iv_certificates inventory).

Definition verify_certbot_attach (operation_id : string) (payload : CertbotAttachPlanPayload) (now_ms : Z)
    : EM OperationReceiptView :=
  try! config := discover_protected_config paths (ap_site_id payload) in
  try! active := run NginxActive in
  try! inventory := engine_certificate_inventory now_ms in
  try! tls := certbot_run (VerifyLocalTls (ap_primary_domain payload) (ap_certificate_fingerprint payload)) now_ms in
  if negb (is_ok_and config (fun c => bool_decide (cr_content_digest c = ap_proposed_content_digest payload)
                                      && bool_decide (cr_metadata_digest c = ap_metadata_digest payload))
           && is_ok_and active c_success && is_ok_and inventory (attached_inventory payload)
           && is_ok_and tls cb_success)
  then rollback_certbot_attach operation_id "tls_read_back_failed"
         (match tls with
          | Ok value => certbot_command_digest value
          | Err _ => sha256_digest "tls_probe_unavailable"
          end) now_ms
  else
    let! tls := mlift tls in
    conclude operation_id
      (change [Verifying] Succeeded "tls_attachment_verified" (certbot_command_digest tls)
         (Some (ap_proposed_content_digest payload)) None now_ms).

(** From [Reloading]. *)
Definition reload_attached (id : string) (payload : CertbotAttachPlanPayload) (now_ms : Z)
    : EM OperationReceiptView :=
  try! reload := run NginxReload in
  match reload with
  | Err error => rollback_certbot_attach id "nginx_reload_unavailable" (sha256_digest (error_code error)) now_ms
  | Ok reload =>
      if negb (c_success reload)
      then rollback_certbot_attach id "nginx_reload_failed" (command_digest reload) now_ms
      else
        let! _ := ledger (transition id
              (change [Reloading] Verifying "nginx_reloaded" (command_digest reload) None None now_ms)) in
        verify_certbot_attach id payload now_ms
  end.

(** From [Validating]. *)
Definition validate_attached (id : string) (payload : CertbotAttachPlanPayload) (now_ms : Z)
    : EM OperationReceiptView :=
  try! config_test := run NginxConfigTest in
  match config_test with
  | Err error => rollback_certbot_attach id "nginx_config_test_unavailable" (sha256_digest (error_code error)) now_ms
  | Ok config_test =>
      if negb (c_success config_test)
      then rollback_certbot_attach id "nginx_config_test_failed" (command_digest config_test) now_ms
      else
        let! _ := ledger (transition id
              (change [Validating] Reloading "nginx_config_valid" (command_digest config_test) None None now_ms)) in
        reload_attached id payload now_ms
  end.

(** From [Snapshotted]. *)
Definition apply_attached (id : string) (payload : CertbotAttachPlanPayload) (attachment : TlsAttachmentResource)
    (record : SnapshotRecord) (now_ms : Z) : EM OperationReceiptView :=
  let! _ := ledger (transition id
        (change [Snapshotted] Applying "tls_directives_replace_started" (sn_digest record) None None now_ms)) in
  try! applied := replace_protected_config paths (ta_config attachment) (ta_proposed_content attachment) in
  match applied with
  | Err error => rollback_certbot_attach id (error_code error) (sha256_digest (error_code error)) now_ms
  | Ok applied =>
      if negb (bool_decide (cr_content_digest applied = ap_proposed_content_digest payload))
      then rollback_certbot_attach id "config_read_back_failed" (sha256_digest "config_read_back_failed") now_ms
      else
        let! _ := ledger (transition id
              (change [Applying] Validating "tls_directives_replaced" (cr_content_digest applied) None None now_ms)) in
        validate_attached id payload now_ms
  end.

(** The planned certificate is still there, unchanged. *)
Definition certificate_unchanged (payload : CertbotAttachPlanPayload) (inventory : CertificateInventoryView) : bool :=
  bool_decide (iv_inventory_digest inventory = ap_inventory_digest payload)
  && iv_timer_enabled inventory && iv_timer_active inventory
  && is_some_and (find_certificate (ap_primary_domain payload) inventory) (fun c =>
       bool_decide (cy_fingerprint_sha256 c = ap_certificate_fingerprint payload)
       && bool_decide (cy_sans c = ap_sans payload) && bool_decide (cy_not_after c = ap_not_after payload)
       && cy_private_key_present c && cy_renewal_config_present c && cy_webroot_managed c).

Definition execute_certbot_attach (operation : StoredOperation) (now_ms : Z) : EM OperationReceiptView :=
  let id := o_operation_id operation in
  let! payload := mlift (ok_or (p_certbot_attach (o_plan operation)) EForensicLockdown) in
  try! found := engine_certificate_inventory now_ms in
  match found with
  | Err error => cancel_certbot_before_apply operation (error_code error) now_ms
  | Ok inventory =>
      if negb (certificate_unchanged payload inventory)
      then cancel_certbot_before_apply operation "precondition_changed" now_ms
      else
        try! prepared := prepare_tls_attachment paths (ap_primary_domain payload) (ap_site_id payload)
                           (ap_site_digest payload) in
        match prepared with
        | Err error => cancel_certbot_before_apply operation (error_code error) now_ms
        | Ok attachment =>
            let config := ta_config attachment in
            if negb (bool_decide (cr_metadata_digest config = ap_metadata_digest payload)
                     && bool_decide (ta_proposed_content_digest attachment = ap_proposed_content_digest payload))
            then cancel_certbot_before_apply operation "precondition_changed" now_ms
            else
              try! record := write_managed_config_snapshot cfg id (protected_snapshot config) in
              match record with
              | Err error => cancel_certbot_before_apply operation (error_code error) now_ms
              | Ok record =>
                  let! _ := ledger (attach_snapshot id record now_ms) in
                  if bool_decide (cr_content_digest config = ta_proposed_content_digest attachment) then
                    let! _ := ledger (transition id
                          (change [Snapshotted] Verifying "certificate_already_attached"
                             (ta_proposed_content_digest attachment) None None now_ms)) in
                    verify_certbot_attach id payload now_ms
                  else apply_attached id payload attachment record now_ms
              end
        end
  end.
End CertOp.
