(* ===== verification/EngineService.v ===== *)
(** * jw-opsd: service lifecycle operations (engine/service_operation.rs)

    Planning, approval, execution and rollback of start, stop, restart and
    reload of a registered service. *)

From Stdlib Require Import Ascii String.
From S2P Require Import Prelude Crypto Contracts Plans Adapters Ledger Text Ufw Host Snapshot Nginx.
From S2P Require Import EngineCore EngineNginx.

Definition SERVICE_CONTROL_IMPACT : list string :=
  ["등록된 systemd 서비스 하나에 선택한 lifecycle 동작을 실행합니다."%string;
   "실행 전 상태를 기록하고 동작 후 active 상태를 다시 확인합니다."%string;
   "검증 실패 시 실행 전 active/inactive 상태로 복구를 시도합니다."%string].

Definition service_control_assurance (service : RegisteredService) : AssuranceView :=
  {| level := G2ReversibleConfig;
     rollback_support := AutomaticBounded;
     operation_available := true;
     scope := [unit_name service +:+ "의 active/inactive 상태와 등록된 lifecycle 동작"];
     excluded_effects := ["서비스 외부 의존성과 진행 중 요청의 애플리케이션 상태"%string;
                          "서비스 설정 파일과 데이터 파일"%string];
     apply_verifier := ["systemctl 동작 결과"%string; "is-active read-back"%string];
     rollback_verifier := ["이전 active/inactive 상태 복원"%string; "is-active read-back"%string];
     reason := None |}.

Record ServiceControlPlanView := {
  sp_schema_version : Z;
  sp_operation_type : string;
  sp_plan_id : string;
  sp_plan_hash : string;
  sp_created_at : string;
  sp_expires_at : string;
  sp_actor : Subject;
  sp_service_id : string;
  sp_unit_name : string;
  sp_display_name : string;
  sp_current_active : bool;
  sp_action : ManagedServiceAction;
  sp_expected_state_digest : string;
  sp_impact : list string;
  sp_recovery_path : list string;
  sp_assurance : AssuranceView;
}.

Definition state_of_active (active : bool) : NginxSiteState := if active then Enabled else Disabled.

Section ServiceOp.
Context `{EngineExternals}.
Context (cfg : Config).

(** ** Planning *)

Definition service_control_plan_view (plan : StoredPlan) : oresult ServiceControlPlanView :=
  if negb (is_type plan SERVICE_CONTROL_OPERATION) then Err (ERejected "operation_type")
  else
    let? service := registered_service (p_site_id plan) in
    let? created_at := format_time (p_created_at_ms plan) in
    let? expires_at := format_time (p_expires_at_ms plan) in
    let? action := service_action_from_digest (p_available_digest plan) in
    Ok {| sp_schema_version := OPERATION_SCHEMA_VERSION;
          sp_operation_type := p_operation_type plan;
          sp_plan_id := p_plan_id plan;
          sp_plan_hash := p_plan_hash plan;
          sp_created_at := created_at;
          sp_expires_at := expires_at;
          sp_actor := p_actor plan;
          sp_service_id := p_site_id plan;
          sp_unit_name := unit_name service;
          sp_display_name := p_display_name plan;
          sp_current_active := bool_decide (p_current_state plan = Enabled);
          sp_action := action;
          sp_expected_state_digest := p_enabled_state_digest plan;
          sp_impact := SERVICE_CONTROL_IMPACT;
          sp_recovery_path := SERVICE_CONTROL_RECOVERY_PATH;
          sp_assurance := p_assurance plan |}.

Definition service_control_plan_hash (plan : StoredPlan) : string :=
  canonical_digest "jw-agent/operation-plan/v1"
    (plan_hash_material SERVICE_CONTROL_OPERATION SERVICE_CONTROL_IMPACT SERVICE_CONTROL_RECOVERY_PATH plan).

(** Is the action meaningful in the observed state? *)
Definition action_allowed (action : ManagedServiceAction) (active : bool) : oresult unit :=
  match action with
  | Start => if active then Err (ERejected "service_already_active") else Ok tt
  | Stop | Restart | Reload => if negb active then Err (ERejected "service_inactive") else Ok tt
  end.

(** Stopping Nginx requires the independent management edge: [false] when it
    is the case and the edge is not ready. *)
Definition ingress_kept (service : RegisteredService) (action : ManagedServiceAction) : EM bool :=
  if bool_decide (service = SvcNginx) && bool_decide (action = Stop)
  then management_edge_ready else mret true.

Definition plan_service_control (actor : Subject) (request : ServiceControlPlanRequest) (now_ms : Z)
    : EM ServiceControlPlanView :=
  let! _ := mlift (map_err (service_request_validate request) ERejected) in
  let! service := mlift (registered_service (sr_service_id request)) in
  let! active_evidence := run (active_command service) in
  let active := c_success active_evidence in
  let current_digest := service_state_digest (unit_name service) active in
  if negb (bool_decide (current_digest = sr_expected_state_digest request))
  then mfail (ERejected "precondition_changed")
  else
    let! _ := mlift (action_allowed (sr_action request) active) in
    let! kept := ingress_kept service (sr_action request) in
    if negb kept then mfail (ERejected "management_ingress_dependency")
    else
      let! ttl := mlift (ttl_ms cfg) in
      let! plan_id := random_id "plan" in
      let request_digest := canonical_digest "jw-agent/operation-request/v1"
            {| rd_operation_type := SERVICE_CONTROL_OPERATION; rd_actor := actor; rd_request := request |} in
      let plan :=
        {| p_operation_type := SERVICE_CONTROL_OPERATION;
           p_plan_id := plan_id;
           p_plan_hash := "";
           p_actor := actor;
           p_site_id := sr_service_id request;
           p_display_name := service_display_name service;
           p_current_state := state_of_active active;
           p_target_state := state_of_active (expected_active (sr_action request));
           p_available_digest := service_action_digest (sr_action request);
           p_enabled_state_digest := current_digest;
           p_created_at_ms := now_ms;
           p_expires_at_ms := sat_add now_ms ttl;
           p_idempotency_key := sr_idempotency_key request;
           p_request_digest := request_digest;
           p_resource_key := "service/" +:+ unit_name service;
           p_assurance := service_control_assurance service;
           p_managed_config := None;
           p_certbot_renew := None;
           p_certbot_issue := None;
           p_certbot_attach := None;
           p_ufw_rule := None |} in
      let plan := set_plan_hash (service_control_plan_hash plan) plan in
      let! _ := open_ledger in
      let! stored := ledger (create_or_reuse_plan plan) in
      mlift (service_control_plan_view stored).

Definition approve_service_control : Subject -> string -> string -> string -> Z -> EM OperationReceiptView :=
  approve_plan (fun plan => is_type plan SERVICE_CONTROL_OPERATION).

(** ** Execution *)

Definition is_active_equals (service : RegisteredService) (active : bool) : EM bool :=
  try! evidence := run (active_command service) in
  mret (is_ok_and evidence (fun e => Bool.eqb (c_success e) active)).

(** Run the restore command; read the state back only if it succeeded. *)
Definition restore_service (service : RegisteredService) (active : bool) : EM bool :=
  try! restore := run (restore_command service active) in
  if is_ok_and restore c_success then is_active_equals service active else mret false.

(** From [RollingBack]: put the unit back into the recorded state. *)
Definition restore_service_state (operation_id : string) (rolling : StoredOperation) (now_ms : Z)
    : EM OperationReceiptView :=
  let! record := mlift (ok_or (o_snapshot rolling) EForensicLockdown) in
  let! snapshot := read_service_state_snapshot record in
  let! service := mlift (registered_service (ss_service_id snapshot)) in
  if negb (bool_decide (ss_unit_name snapshot = unit_name service))
     || negb (bool_decide (ss_state_digest snapshot
                           = service_state_digest (unit_name service) (ss_active snapshot)))
  then mfail EForensicLockdown
  else
    let! verified := restore_service service (ss_active snapshot) in
    let after_digest := service_state_digest (unit_name service) (ss_active snapshot) in
    conclude operation_id
      (change [RollingBack]
         (if (verified : bool) then RolledBack else RecoveryRequired)
         (if verified then "service_state_restored" else "service_restore_failed")
         after_digest (Some after_digest)
         (Some (if verified then "restored" else "manual_recovery_required")%string) now_ms).

Definition rollback_service_control (operation_id failure_code failure_digest : string) (now_ms : Z)
    : EM OperationReceiptView :=
  let! current := ledger (load_operation operation_id) in
  let! rolling :=
    (if bool_decide (o_stage current = RollingBack) then mret current
     else ledger (transition operation_id
            (change [Applying; Verifying] RollingBack failure_code failure_digest None None now_ms))) in
  restore_service_state operation_id rolling now_ms.

Definition cancel_service (operation : StoredOperation) (result_code evidence_digest : string) (now_ms : Z)
    : EM OperationReceiptView :=
  conclude (o_operation_id operation)
    (change [Approved] CancelledBeforeApply result_code evidence_digest None None now_ms).

(** From [Verifying]: compare the unit's state with what the action
    promises.  A runner error propagates. *)
Definition verify_service (operation : StoredOperation) (service : RegisteredService)
    (action : ManagedServiceAction) (now_ms : Z) : EM OperationReceiptView :=
  let id := o_operation_id operation in
  let! active_evidence := run (active_command service) in
  let after_active := c_success active_evidence in
  let after_digest := service_state_digest (unit_name service) after_active in
  if negb (Bool.eqb after_active (expected_active action))
  then rollback_service_control id "service_state_verification_failed" (command_digest active_evidence) now_ms
  else conclude id (change [Verifying] Succeeded "service_state_verified" (command_digest active_evidence)
                      (Some after_digest) None now_ms).

(** From [Snapshotted]: run the action, then verify. *)
Definition apply_service (operation snapshotted : StoredOperation) (service : RegisteredService)
    (action : ManagedServiceAction) (now_ms : Z) : EM OperationReceiptView :=
  let id := o_operation_id operation in
  let! _ := ledger (transition id
        (change [Snapshotted] Applying "service_action_started" (service_action_digest action)
           None None now_ms)) in
  try! action_evidence := run (action_command service action) in
  match action_evidence with
  | Err error => rollback_service_control (o_operation_id snapshotted) (error_code error)
                   (sha256_digest (error_code error)) now_ms
  | Ok action_evidence =>
      if negb (c_success action_evidence)
      then rollback_service_control (o_operation_id snapshotted) "service_action_failed"
             (command_digest action_evidence) now_ms
      else
        let! _ := ledger (transition id
              (change [Applying] Verifying "service_action_completed" (command_digest action_evidence)
                 None None now_ms)) in
        verify_service operation service action now_ms
  end.

Definition execute_service_control (operation : StoredOperation) (now_ms : Z) : EM OperationReceiptView :=
  let plan := o_plan operation in
  let! service := mlift (registered_service (p_site_id plan)) in
  let! action := mlift (service_action_from_digest (p_available_digest plan)) in
  let! kept := ingress_kept service action in
  if negb kept
  then cancel_service operation "management_ingress_dependency"
         (sha256_digest "management_ingress_dependency") now_ms
  else
    let! before := run (active_command service) in
    let before_active := c_success before in
    let before_digest := service_state_digest (unit_name service) before_active in
    if negb (bool_decide (before_digest = p_enabled_state_digest plan))
       || negb (Bool.eqb before_active (bool_decide (p_current_state plan = Enabled)))
    then cancel_service operation "precondition_changed" before_digest now_ms
    else
      let snapshot :=
        {| ss_schema_version := 1;
           ss_service_id := p_site_id plan;
           ss_unit_name := unit_name service;
           ss_active := before_active;
           ss_state_digest := before_digest |} in
      try! record := write_service_state_snapshot cfg (o_operation_id operation) snapshot in
      match record with
      | Err error => cancel_service operation (error_code error) (sha256_digest (error_code error)) now_ms
      | Ok record =>
          let! snapshotted := ledger (attach_snapshot (o_operation_id operation) record now_ms) in
          apply_service operation snapshotted service action now_ms
      end.
End ServiceOp.
