(* ===== verification/EngineUfw.v ===== *)
(** * jw-opsd: UFW rule operations (engine/ufw_operation.rs, firewall.rs)

    Request validation, inventory, planning, approval, execution and rollback
    of one product-owned firewall rule. *)

From Stdlib Require Import Ascii String.
From S2P Require Import Prelude Crypto Contracts Plans Adapters Ledger Text Ufw Host Snapshot Nginx.
From S2P Require Import EngineCore EngineNginx EngineService.

Definition UFW_IMPACT : list string :=
  ["활성 UFW에 JW Agent 소유 인바운드 규칙 하나를 추가하거나 삭제합니다."%string;
   "SSH·HTTPS·독립 관리 edge와 기존 사용자 규칙은 변경하지 않습니다."%string].

Record UfwRulePlanView := {
  uq_schema_version : Z;
  uq_operation_type : string;
  uq_plan_id : string;
  uq_plan_hash : string;
  uq_created_at : string;
  uq_expires_at : string;
  uq_actor : Subject;
  uq_mutation : UfwRuleMutation;
  uq_rule_id : string;
  uq_protocol : UfwProtocol;
  uq_port : Z;
  uq_source : string;
  uq_expected_state_digest : string;
  uq_impact : list string;
  uq_recovery_path : list string;
  uq_assurance : AssuranceView;
}.

(** ** Requests *)

Definition valid_rule_id (value : string) : bool :=
  (slen value =? slen UFW_RULE_ID_PREFIX + 24)
  && starts_with UFW_RULE_ID_PREFIX value
  && sall (fun c => is_ascii_alphanumeric c || byte_is 95 c) value.

(** [u16::to_be_bytes]. *)
Definition be_bytes16 (port : Z) : string :=
  String (chr (Z.shiftr port 8)) (String (chr (Z.land port 255)) EmptyString).

(** [str::get(..n)] of an ASCII string. *)
Definition get_prefix (n : nat) (s : string) : option string :=
  if (n <=? String.length s)%nat then Some (String.substring 0 n s) else None.

Section UfwRequest.
Context `{EngineExternals}.

Definition validate_prefix (prefix : list char) (is_ipv4 : bool) : vresult :=
  if bool_decide (prefix = [])
     || ((1 <? slen (text prefix)) && starts_with "0" (text prefix))
     || negb (sall is_ascii_digit (text prefix))
  then Err "invalid_source"%string
  else match parse_unsigned 255 prefix with
       | None => Err "invalid_source"%string
       | Some value => if (if is_ipv4 then 32 else 128) <? value then Err "invalid_source"%string
                       else Ok tt
       end.

Definition validate_source (value : string) : vresult :=
  let chars := from_utf8_lossy value in
  let '(address, prefix) := match split_once "/" chars with
                            | Some (address, prefix) => (address, Some prefix)
                            | None => (chars, None)
                            end in
  match ip_addr (text address) with
  | None => Err "invalid_source"%string
  | Some (canonical, is_ipv4) =>
      if negb (bool_decide (canonical = text address)) then Err "invalid_source"%string
      else match prefix with
           | None => Ok tt
           | Some prefix => validate_prefix prefix is_ipv4
           end
  end.

Definition ufw_request_validate (r : UfwRulePlanRequest) : vresult :=
  check ur_schema_version r =? OPERATION_SCHEMA_VERSION else "schema_version"%string in
  check bool_decide (ur_operation_type r = UFW_RULE_OPERATION) else "operation_type"%string in
  let? _ := validate_digest (ur_expected_state_digest r) in
  let? _ := validate_ascii_range (ur_idempotency_key r) IDEMPOTENCY_KEY_MIN_BYTES
              IDEMPOTENCY_KEY_MAX_BYTES "idempotency_key" in
  match ur_mutation r with
  | UDelete =>
      if is_some (ur_protocol r) || is_some (ur_port r) || is_some (ur_source r)
         || negb (is_some_and (ur_rule_id r) valid_rule_id)
      then Err "delete_shape"%string else Ok tt
  | _ =>
      let? protocol := ok_or (ur_protocol r) "protocol"%string in
      let? port := match ur_port r with
                   | Some value => if 0 <? value then Ok value else Err "port"%string
                   | None => Err "port"%string
                   end in
      if is_some (ur_rule_id r) then Err "rule_id"%string
      else
        let? _ := match ur_source r with Some source => validate_source source | None => Ok tt end in
        if bool_decide (ur_mutation r = UDeny) && bool_decide (protocol = Tcp) && ufw_protected_tcp_port port
        then Err "protected_management_rule"%string else Ok tt
  end.

Definition source_or_any (source : option string) : string := default "any"%string source.

Definition generated_rule_id (r : UfwRulePlanRequest) : option string :=
  if bool_decide (ur_mutation r = UDelete) then ur_rule_id r
  else
    match ur_protocol r, ur_port r with
    | Some protocol, Some port =>
        let material := "jw-agent/ufw-rule/v1" +:+ NUL +:+ mutation_as_str (ur_mutation r) +:+ NUL
              +:+ protocol_as_str protocol +:+ NUL +:+ be_bytes16 port +:+ NUL
              +:+ source_or_any (ur_source r) in
        let digest := sha256_digest (sha256 material) in
        (fun suffix => UFW_RULE_ID_PREFIX +:+ suffix)
          <$> get_prefix 24 (trim_start_matches "sha256:" digest)
    | _, _ => None
    end.
End UfwRequest.

(** ** Resolving a request against the inventory *)

Definition rules_with_id (rule_id : string) (rules : list UfwRuleView) : list UfwRuleView :=
  List.filter (has_rule_id rule_id) rules.

(** [sort_unstable_by(|left, right| right.cmp(left))]. *)
Definition sort_descending (l : list Z) : list Z := isort (fun a b => b <=? a) l.

Definition same_identity (first rule : UfwRuleView) : bool :=
  bool_decide (uv_action rule = uv_action first)
  && bool_decide (uv_protocol rule = uv_protocol first)
  && bool_decide (uv_port rule = uv_port first)
  && bool_decide (normalized_source (uv_source rule) = normalized_source (uv_source first)).

Definition resolve_delete (rule_id : string) (inventory : UfwView) : oresult (UfwRuleSpec * list Z) :=
  let matches := rules_with_id rule_id (uw_rules inventory) in
  let? first := ok_or (head matches) (ERejected "rule_missing") in
  if existsb (fun rule => negb (uv_owned rule)) matches then Err (ERejected "rule_not_owned")
  else if existsb uv_protected matches then Err (ERejected "protected_management_rule")
  else
    let? mutation := if bool_decide (uv_action first = "allow"%string) then Ok UAllow
                     else if bool_decide (uv_action first = "deny"%string) then Ok UDeny
                     else Err (ERejected "unsupported_rule") in
    let? protocol := ok_or (uv_protocol first) (ERejected "unsupported_rule") in
    let? port := ok_or (uv_port first) (ERejected "unsupported_rule") in
    let source := normalized_source (uv_source first) in
    if existsb (fun rule => negb (same_identity first rule)) matches
    then Err (ERejected "rule_identity_conflict")
    else
      Ok ({| us_mutation := mutation; us_protocol := protocol; us_port := port; us_source := source;
             us_rule_id := rule_id |},
          sort_descending (map uv_sequence matches)).

Definition resolve_rule `{EngineExternals} (request : UfwRulePlanRequest) (inventory : UfwView)
    : oresult (UfwRuleSpec * list Z) :=
  match ur_mutation request with
  | UDelete =>
      let? rule_id := ok_or (ur_rule_id request) (ERejected "rule_id") in
      resolve_delete rule_id inventory
  | mutation =>
      let? rule_id := ok_or (generated_rule_id request) (ERejected "rule_id") in
      if is_some (matching_owned_rule inventory rule_id) then Err (ERejected "rule_exists")
      else
        let? protocol := ok_or (ur_protocol request) (ERejected "protocol") in
        let? port := ok_or (ur_port request) (ERejected "port") in
        Ok ({| us_mutation := mutation; us_protocol := protocol; us_port := port;
               us_source := source_or_any (ur_source request); us_rule_id := rule_id |}, [])
  end.

Definition validate_resolved_rule (payload : UfwPlanPayload) (inventory : UfwView) : oresult unit :=
  let rule_id := us_rule_id (up_rule payload) in
  match up_requested_mutation payload with
  | UDelete =>
      let current := rules_with_id rule_id (uw_rules inventory) in
      if negb (length current =? length (up_delete_sequences payload))%nat
         || existsb (fun rule => negb (rule_matches_spec rule (up_rule payload)) || uv_protected rule) current
      then Err (ERejected "precondition_changed") else Ok tt
  | _ => if is_some (matching_owned_rule inventory rule_id) then Err (ERejected "rule_exists") else Ok tt
  end.

Definition effect_verified (payload : UfwPlanPayload) (inventory : UfwView) : bool :=
  let matches := rules_with_id (us_rule_id (up_rule payload)) (uw_rules inventory) in
  match up_requested_mutation payload with
  | UDelete => bool_decide (matches = [])
  | _ => negb (bool_decide (matches = []))
         && forallb (fun rule => rule_matches_spec rule (up_rule payload)) matches
  end.

Definition rollback_verified (payload : UfwPlanPayload) (inventory : UfwView)
    (original : list UfwRuleView) : bool :=
  let current := rules_with_id (us_rule_id (up_rule payload)) (uw_rules inventory) in
  if bool_decide (original = []) then bool_decide (current = [])
  else (length current =? length original)%nat
       && forallb (fun rule => rule_matches_spec rule (up_rule payload)) current.

Section UfwOp.
Context `{EngineExternals}.
Context (cfg : Config).

(** ** Inventory *)

Definition ufw_not_installed_view (observed_at : string) : UfwView :=
  {| uw_observed_at := observed_at;
     uw_status := UfwNotInstalled;
     uw_default_incoming := None;
     uw_default_outgoing := None;
     uw_rules := [];
     uw_state_digest := sha256_digest "jw-agent/ufw/not-installed/v1";
     uw_truncated := false;
     uw_mutation_available := false;
     uw_blocked_reason := Some "ufw_not_installed"%string;
     uw_assurance := ufw_assurance false (Some "ufw_not_installed"%string) |}.

Definition observe_ufw (observed_at : string) : EM UfwView :=
  let! evidence := run_ufw UStatus in
  mret (parse_ufw_status evidence observed_at).

Definition ufw_inventory (now_ms : Z) : EM UfwView :=
  let! observed_at := mlift (format_time now_ms) in
  let! missing := mget (fun w => enforce w && negb (ufw_installed (h_machine (w_host w)))) in
  if (missing : bool) then mret (ufw_not_installed_view observed_at) else observe_ufw observed_at.

(** ** Planning *)

Definition ufw_rule_plan_view (plan : StoredPlan) : oresult UfwRulePlanView :=
  if negb (is_type plan UFW_RULE_OPERATION) then Err (ERejected "operation_type")
  else
    let? payload := ok_or (p_ufw_rule plan) EForensicLockdown in
    let? created_at := format_time (p_created_at_ms plan) in
    let? expires_at := format_time (p_expires_at_ms plan) in
    Ok {| uq_schema_version := OPERATION_SCHEMA_VERSION;
          uq_operation_type := p_operation_type plan;
          uq_plan_id := p_plan_id plan;
          uq_plan_hash := p_plan_hash plan;
          uq_created_at := created_at;
          uq_expires_at := expires_at;
          uq_actor := p_actor plan;
          uq_mutation := up_requested_mutation payload;
          uq_rule_id := us_rule_id (up_rule payload);
          uq_protocol := us_protocol (up_rule payload);
          uq_port := us_port (up_rule payload);
          uq_source := us_source (up_rule payload);
          uq_expected_state_digest := p_enabled_state_digest plan;
          uq_impact := UFW_IMPACT;
          uq_recovery_path := UFW_RECOVERY_PATH;
          uq_assurance := p_assurance plan |}.

Definition ufw_plan_hash (plan : StoredPlan) : oresult string :=
  let? payload := ok_or (p_ufw_rule plan) EForensicLockdown in
  Ok (canonical_digest "jw-agent/operation-plan/v1"
        {| uh_schema_version := 1;
           uh_operation_type := UFW_RULE_OPERATION;
           uh_plan_id := p_plan_id plan;
           uh_created_at_ms := p_created_at_ms plan;
           uh_expires_at_ms := p_expires_at_ms plan;
           uh_actor := p_actor plan;
           uh_expected_state_digest := p_enabled_state_digest plan;
           uh_resource_key := p_resource_key plan;
           uh_payload := payload;
           uh_assurance := p_assurance plan |}).

Definition ufw_plan (actor : Subject) (request : UfwRulePlanRequest) (payload : UfwPlanPayload)
    (state_digest plan_id : string) (ttl now_ms : Z) : StoredPlan :=
  {| p_operation_type := UFW_RULE_OPERATION;
     p_plan_id := plan_id;
     p_plan_hash := "";
     p_actor := actor;
     p_site_id := us_rule_id (up_rule payload);
     p_display_name := "UFW " +:+ mutation_as_str (ur_mutation request) +:+ " "
                       +:+ decimal (us_port (up_rule payload)) +:+ "/"
                       +:+ protocol_as_str (us_protocol (up_rule payload));
     p_current_state := Enabled;
     p_target_state := Enabled;
     p_available_digest := state_digest;
     p_enabled_state_digest := state_digest;
     p_created_at_ms := now_ms;
     p_expires_at_ms := sat_add now_ms ttl;
     p_idempotency_key := ur_idempotency_key request;
     p_request_digest := canonical_digest "jw-agent/operation-request/v1"
       {| rd_operation_type := UFW_RULE_OPERATION; rd_actor := actor; rd_request := request |};
     p_resource_key := "ufw/rules";
     p_assurance := ufw_assurance true None;
     p_managed_config := None;
     p_certbot_renew := None;
     p_certbot_issue := None;
     p_certbot_attach := None;
     p_ufw_rule := Some payload |}.

Definition plan_ufw_rule (actor : Subject) (request : UfwRulePlanRequest) (now_ms : Z)
    : EM UfwRulePlanView :=
  let! _ := mlift (map_err (ufw_request_validate request) ERejected) in
  let! inventory := ufw_inventory now_ms in
  if negb (bool_decide (uw_status inventory = UfwActive)) || negb (uw_mutation_available inventory)
  then mfail (ERejected "ufw_inactive")
  else if negb (bool_decide (uw_state_digest inventory = ur_expected_state_digest request))
  then mfail (ERejected "precondition_changed")
  else
    let! (rule, delete_sequences) := mlift (resolve_rule request inventory) in
    let payload := {| up_requested_mutation := ur_mutation request; up_rule := rule;
                      up_delete_sequences := delete_sequences |} in
    let! ttl := mlift (ttl_ms cfg) in
    let! plan_id := random_id "plan" in
    let plan := ufw_plan actor request payload (uw_state_digest inventory) plan_id ttl now_ms in
    let! hash := mlift (ufw_plan_hash plan) in
    let plan := set_plan_hash hash plan in
    let! _ := open_ledger in
    let! stored := ledger (create_or_reuse_plan plan) in
    mlift (ufw_rule_plan_view stored).

Definition approve_ufw_rule : Subject -> string -> string -> string -> Z -> EM OperationReceiptView :=
  approve_plan (fun plan => is_type plan UFW_RULE_OPERATION && is_some (p_ufw_rule plan)).

(** ** Execution *)

Fixpoint delete_each (sequences : list Z) : EM (list string) :=
  match sequences with
  | [] => mret []
  | sequence :: rest =>
      let! evidence := run_ufw (UDeleteAt sequence) in
      if negb (c_success evidence) then mfail (ERejected "rule_apply_failed")
      else
        let! digests := delete_each rest in
        mret (command_digest evidence :: digests)
  end.

Definition delete_sequences (sequences : list Z) : EM string :=
  let! digests := delete_each sequences in
  mret (canonical_digest "jw-agent/ufw-command-evidence/v1" digests).

Definition apply_payload (payload : UfwPlanPayload) : EM string :=
  match up_requested_mutation payload with
  | UDelete => delete_sequences (up_delete_sequences payload)
  | _ =>
      let! evidence := run_ufw (UAdd (up_rule payload)) in
      if negb (c_success evidence) then mfail (ERejected "rule_apply_failed")
      else mret (command_digest evidence)
  end.

(** Remove what is there under the rule's id, highest number first; put the
    rule back if the snapshot had it. *)
Definition restore_product_effect (payload : UfwPlanPayload) (original : list UfwRuleView) : EM unit :=
  let! current_evidence := run_ufw UStatus in
  let current := parse_ufw_status current_evidence "" in
  let sequences := sort_descending
        (map uv_sequence (rules_with_id (us_rule_id (up_rule payload)) (uw_rules current))) in
  let! _ := (if bool_decide (sequences = []) then mret ""%string else delete_sequences sequences) in
  if bool_decide (original = []) then mret tt
  else
    let! evidence := run_ufw (UAdd (up_rule payload)) in
    if negb (c_success evidence) then mfail (ERejected "rule_rollback_failed") else mret tt.

Definition restore_and_verify (payload : UfwPlanPayload) (original : list UfwRuleView) (now_ms : Z)
    : EM bool :=
  try! view := (let! _ := restore_product_effect payload original in ufw_inventory now_ms) in
  mret (is_ok_and view (fun view => rollback_verified payload view original)).

(** From [RollingBack]: undo the rule's effect and conclude. *)
Definition restore_ufw_state (operation_id : string) (rolling : StoredOperation) (now_ms : Z)
    : EM OperationReceiptView :=
  let! payload := mlift (ok_or (p_ufw_rule (o_plan rolling)) EForensicLockdown) in
  let! record := mlift (ok_or (o_snapshot rolling) EForensicLockdown) in
  let! snapshot := read_ufw_snapshot record in
  let original := rules_with_id (us_rule_id (up_rule payload)) (uf_rules snapshot) in
  let! restored := restore_and_verify payload original now_ms in
  try! read_back := ufw_inventory now_ms in
  let after := match read_back with
               | Ok view => uw_state_digest view
               | Err _ => sha256_digest "ufw_read_back_failed"
               end in
  conclude operation_id
    (change [RollingBack]
       (if (restored : bool) then RolledBack else RecoveryRequired)
       (if restored then "ufw_rule_restored" else "rule_rollback_failed")
       after (Some after)
       (Some (if restored then "restored" else "manual_recovery_required")%string) now_ms).

Definition rollback_ufw_rule (operation_id failure_code failure_digest : string) (now_ms : Z)
    : EM OperationReceiptView :=
  let! current := ledger (load_operation operation_id) in
  let! rolling :=
    (if bool_decide (o_stage current = RollingBack) then mret current
     else ledger (transition operation_id
            (change [Applying; Verifying; Validating; Reloading] RollingBack failure_code failure_digest
               None None now_ms))) in
  restore_ufw_state operation_id rolling now_ms.

(** From [Verifying]: a new inventory must show the requested effect.  A
    runner error propagates. *)
Definition verify_ufw (operation_id : string) (payload : UfwPlanPayload) (now_ms : Z)
    : EM OperationReceiptView :=
  let! after := ufw_inventory now_ms in
  if negb (effect_verified payload after)
  then rollback_ufw_rule operation_id "rule_verify_failed" (uw_state_digest after) now_ms
  else conclude operation_id
         (change [Verifying] Succeeded "ufw_rule_verified" (uw_state_digest after)
            (Some (uw_state_digest after)) None now_ms).

Definition execute_ufw_rule (operation : StoredOperation) (now_ms : Z) : EM OperationReceiptView :=
  let id := o_operation_id operation in
  let! payload := mlift (ok_or (p_ufw_rule (o_plan operation)) EForensicLockdown) in
  let! before := ufw_inventory now_ms in
  if negb (bool_decide (uw_status before = UfwActive))
     || negb (bool_decide (uw_state_digest before = p_enabled_state_digest (o_plan operation)))
  then conclude id (change [Approved] CancelledBeforeApply "precondition_changed" (uw_state_digest before)
                      None None now_ms)
  else
    let! _ := mlift (validate_resolved_rule payload before) in
    let snapshot := {| uf_schema_version := 1; uf_state_digest := uw_state_digest before;
                       uf_rules := uw_rules before |} in
    try! record := write_ufw_snapshot cfg id snapshot in
    match record with
    | Err error => conclude id (change [Approved] CancelledBeforeApply (error_code error)
                                  (sha256_digest (error_code error)) None None now_ms)
    | Ok record =>
        let! _ := ledger (attach_snapshot id record now_ms) in
        let! _ := ledger (transition id
              (change [Snapshotted] Applying "ufw_rule_apply_started" (sn_digest record) None None now_ms)) in
        try! applied := apply_payload payload in
        match applied with
        | Err error => rollback_ufw_rule id (error_code error) (sha256_digest (error_code error)) now_ms
        | Ok apply_digest =>
            let! _ := ledger (transition id
                  (change [Applying] Verifying "ufw_rule_applied" apply_digest None None now_ms)) in
            verify_ufw id payload now_ms
        end
    end.
End UfwOp.
