(* ===== verification/EngineMain.v ===== *)
(** * jw-opsd: requests and start-up (engine.rs, operation.rs)

    [handle_body] dispatches a validated request to its handler, [initialize]
    brings the daemon up: it removes the leftovers of interrupted file
    replacements, opens the ledger and ends every operation a previous run
    left unfinished. *)

From Stdlib Require Import Ascii String.
From S2P Require Import Prelude Crypto Contracts Plans CertContracts Adapters Ledger Text Ufw Host Snapshot Nginx.
From S2P Require Import ConfigText Diagnostics ManagedConfig Certificate EngineCore EngineNginx EngineConfig.
From S2P Require Import EngineCert EngineService EngineUfw.

(** ** Requests *)

Inductive OpsRequestBody :=
  | Capabilities
  | CertificateInventory (actor : Subject)
  | PlanCertbotIssue (actor : Subject) (plan : CertbotIssuePlanInput)
  | ApproveCertbotIssue (actor : Subject) (plan_id plan_hash idempotency_key : string)
      (external_effect_confirmed local_attach_deferred_confirmed : bool)
  | PlanCertbotRenewTest (actor : Subject) (plan : CertbotRenewTestPlanRequest)
  | PlanCertbotAttach (actor : Subject) (plan : CertbotAttachPlanRequest)
  | ApproveCertbotAttach (actor : Subject) (plan_id plan_hash idempotency_key : string)
      (config_replace_confirmed service_reload_confirmed : bool)
  | ApproveCertbotRenewTest (actor : Subject) (plan_id plan_hash idempotency_key : string)
      (external_effect_confirmed : bool)
  | ReadManagedConfig (actor : Subject) (resource_id : string)
  | PlanNginxSiteState (actor : Subject) (plan : NginxSiteStatePlanRequest)
  | ApproveNginxSiteState (actor : Subject) (plan_id plan_hash idempotency_key : string)
  | PlanManagedConfig (actor : Subject) (plan : ManagedConfigPlanRequest)
  | PlanManagedConfigRestore (actor : Subject) (plan : ManagedConfigRestorePlanRequest)
  | ApproveManagedConfig (actor : Subject) (plan_id plan_hash idempotency_key : string)
      (approval_intent : ManagedConfigApprovalIntent)
  | PlanServiceControl (actor : Subject) (plan : ServiceControlPlanRequest)
  | ApproveServiceControl (actor : Subject) (plan_id plan_hash idempotency_key : string) (impact_confirmed : bool)
  | ObserveUfw (actor : Subject)
  | PlanUfwRule (actor : Subject) (plan : UfwRulePlanRequest)
  | ApproveUfwRule (actor : Subject) (plan_id plan_hash idempotency_key : string) (impact_confirmed : bool)
  | ExecuteOperation (actor : Subject) (operation_id : string)
  | OperationReceipt (actor : Subject) (operation_id : string)
  | RecentOperations (actor : Subject).

Record OpsRequest := {
  oq_protocol_version : Z;
  oq_request_id : string;
  oq_deadline_unix_ms : Z;
  oq_body : OpsRequestBody;
}.

Definition approval_shape (plan_id plan_hash idempotency_key : string) : vresult :=
  let? _ := validate_ascii_range plan_id 1 PLAN_ID_MAX_BYTES "plan_id" in
  let? _ := validate_digest plan_hash in
  validate_ascii_range idempotency_key IDEMPOTENCY_KEY_MIN_BYTES IDEMPOTENCY_KEY_MAX_BYTES "idempotency_key".

(** The confirmations an approval carries. *)
Definition confirmations_validate (body : OpsRequestBody) : vresult :=
  match body with
  | ApproveCertbotRenewTest _ _ _ _ external_effect_confirmed =>
      check external_effect_confirmed else "external_effect_confirmation"%string in Ok tt
  | ApproveServiceControl _ _ _ _ impact_confirmed | ApproveUfwRule _ _ _ _ impact_confirmed =>
      check impact_confirmed else "impact_confirmation"%string in Ok tt
  | ApproveCertbotIssue _ _ _ _ external_effect_confirmed local_attach_deferred_confirmed =>
      check external_effect_confirmed else "external_effect_confirmation"%string in
      check local_attach_deferred_confirmed else "local_attach_deferred_confirmation"%string in Ok tt
  | ApproveCertbotAttach _ _ _ _ config_replace_confirmed service_reload_confirmed =>
      check config_replace_confirmed else "config_replace_confirmation"%string in
      check service_reload_confirmed else "service_reload_confirmation"%string in Ok tt
  | _ => Ok tt
  end.

Inductive OpsResponseBody :=
  | RCapabilities (v : OpsCapabilityResponse)
  | RCertificateInventory (v : CertificateInventoryView)
  | RCertbotIssuePlan (v : CertbotIssuePlanView)
  | RCertbotRenewTestPlan (v : CertbotRenewTestPlanView)
  | RCertbotAttachPlan (v : CertbotAttachPlanView)
  | RManagedConfigResource (v : ManagedConfigResourceView)
  | RNginxSiteStatePlan (v : NginxSiteStatePlanView)
  | RManagedConfigPlan (v : ManagedConfigPlanView)
  | RServiceControlPlan (v : ServiceControlPlanView)
  | RUfw (v : UfwView)
  | RUfwRulePlan (v : UfwRulePlanView)
  | ROperationReceipt (v : OperationReceiptView)
  | RRecentOperations (v : list OperationReceiptView)
  | RRejected (code : string).

Record OpsResponse := {
  os_protocol_version : Z;
  os_request_id : string;
  os_body : OpsResponseBody;
}.

Section Main.
Context `{EngineExternals}.
Context (cfg : Config).
Let paths := cf_paths cfg.

Definition body_validate (body : OpsRequestBody) (now_unix_ms : Z) : vresult :=
  match body with
  | Capabilities | CertificateInventory _ | ObserveUfw _ | RecentOperations _ => Ok tt
  | PlanCertbotIssue _ plan => issue_input_validate ip_rank plan now_unix_ms
  | PlanCertbotRenewTest _ plan => renew_request_validate plan
  | PlanCertbotAttach _ plan => attach_request_validate plan
  | ReadManagedConfig _ resource_id => validate_managed_config_resource_id resource_id
  | PlanNginxSiteState _ plan => nginx_request_validate plan
  | PlanManagedConfig _ plan => managed_request_validate plan
  | PlanManagedConfigRestore _ plan => restore_request_validate plan
  | PlanServiceControl _ plan => service_request_validate plan
  | PlanUfwRule _ plan => ufw_request_validate plan
  | ApproveNginxSiteState _ plan_id plan_hash idempotency_key
  | ApproveManagedConfig _ plan_id plan_hash idempotency_key _
  | ApproveServiceControl _ plan_id plan_hash idempotency_key _
  | ApproveUfwRule _ plan_id plan_hash idempotency_key _
  | ApproveCertbotRenewTest _ plan_id plan_hash idempotency_key _
  | ApproveCertbotIssue _ plan_id plan_hash idempotency_key _ _
  | ApproveCertbotAttach _ plan_id plan_hash idempotency_key _ _ =>
      approval_shape plan_id plan_hash idempotency_key
  | ExecuteOperation _ operation_id | OperationReceipt _ operation_id =>
      validate_ascii_range operation_id 1 OPERATION_ID_MAX_BYTES "operation_id"
  end.

Definition ops_request_validate (r : OpsRequest) (now_unix_ms : Z) : vresult :=
  check oq_protocol_version r =? IPC_PROTOCOL_VERSION else "protocol_version"%string in
  let? _ := validate_ascii_range (oq_request_id r) 1 64 "request_id" in
  if oq_deadline_unix_ms r <=? now_unix_ms then Err "deadline_expired"
  else
    let? _ := confirmations_validate (oq_body r) in
    body_validate (oq_body r) now_unix_ms.

(** ** Execution *)

Definition execute_operation (actor : Subject) (operation_id : string) (now_ms : Z) : EM OperationReceiptView :=
  let! _ := open_ledger in
  let! operation := ledger (load_operation operation_id) in
  let plan := o_plan operation in
  if negb (bool_decide (p_actor plan = actor)) then mfail (ERejected "operation_access_denied")
  else if is_terminal (o_stage operation) || negb (bool_decide (o_stage operation = Approved))
  then ledger (receipt (o_operation_id operation))
  else if is_type plan CERTBOT_ISSUE_OPERATION then execute_certbot_issue cfg operation now_ms
  else if is_type plan CERTBOT_RENEW_TEST_OPERATION then execute_certbot_renew_test cfg operation now_ms
  else if is_type plan CERTBOT_ATTACH_OPERATION then execute_certbot_attach cfg operation now_ms
  else if is_type plan MANAGED_CONFIG_OPERATION || is_type plan MANAGED_CONFIG_RESTORE_OPERATION
  then execute_managed_config cfg operation now_ms
  else if is_type plan SERVICE_CONTROL_OPERATION then execute_service_control cfg operation now_ms
  else if is_type plan UFW_RULE_OPERATION then execute_ufw_rule cfg operation now_ms
  else if negb (is_type plan NGINX_SITE_STATE_OPERATION) then mfail EForensicLockdown
  else execute_nginx cfg operation now_ms.

(** ** Start-up *)

(** An operation that had not applied anything yet. *)
Definition recover_before_apply (operation : StoredOperation) (now_ms : Z) : EM unit :=
  let! terminal := ledger (transition (o_operation_id operation)
        (change [o_stage operation] CancelledBeforeApply "recovered_before_apply"
           (sha256_digest "recovered_before_apply") None None now_ms)) in
  if negb (is_terminal (o_stage terminal)) then mfail EForensicLockdown
  else remove_operation_proposal terminal.

(** A certificate issue or renewal test that may have reached the CA. *)
Definition recover_certbot (operation : StoredOperation) (now_ms : Z) : EM unit :=
  let! record := mlift (ok_or (o_snapshot operation) EForensicLockdown) in
  let! _ := read_certificate_inventory_snapshot record in
  let! terminal := ledger (transition (o_operation_id operation)
        (change [o_stage operation] RecoveryRequired
           (if is_type (o_plan operation) CERTBOT_ISSUE_OPERATION then "certificate_issue_interrupted"
            else "renewal_test_interrupted")
           (sn_digest record) None (Some "not_applicable_external_status_unknown"%string) now_ms)) in
  remove_operation_proposal terminal.

(** An operation in flight is rolled back by its family. *)
Definition recover_in_flight (operation : StoredOperation) (now_ms : Z) : EM unit :=
  let plan := o_plan operation in
  let id := o_operation_id operation in
  let cause := "restart_recovery"%string in
  let digest := sha256_digest cause in
  if is_type plan CERTBOT_RENEW_TEST_OPERATION || is_type plan CERTBOT_ISSUE_OPERATION
  then recover_certbot operation now_ms
  else
    let! _ :=
      (if is_type plan CERTBOT_ATTACH_OPERATION then rollback_certbot_attach cfg id cause digest now_ms
       else if is_type plan MANAGED_CONFIG_OPERATION || is_type plan MANAGED_CONFIG_RESTORE_OPERATION
       then rollback_managed_config cfg id cause digest now_ms
       else if is_type plan SERVICE_CONTROL_OPERATION then rollback_service_control id cause digest now_ms
       else if is_type plan UFW_RULE_OPERATION then rollback_ufw_rule id cause digest now_ms
       else rollback id cause digest now_ms) in
    mret tt.

Definition recover_operation (operation : StoredOperation) (now_ms : Z) : EM unit :=
  match o_stage operation with
  | Approved | Snapshotted => recover_before_apply operation now_ms
  | Applying | Validating | Reloading | Verifying | RollingBack => recover_in_flight operation now_ms
  | Planned => mfail EForensicLockdown
  | Succeeded | RolledBack | RecoveryRequired | Rejected | Expired | CancelledBeforeApply => mret tt
  end.

Fixpoint recover_operations (operations : list StoredOperation) (now_ms : Z) : EM unit :=
  match operations with
  | [] => mret tt
  | operation :: rest => let! _ := recover_operation operation now_ms in recover_operations rest now_ms
  end.

Definition initialize (now_ms : Z) : EM unit :=
  let! _ := cleanup_internal_temporaries paths in
  try! opened := ledger open in
  match opened with
  | Err EForensicLockdown => mupd (with_lockdown true)
  | Err error => mfail error
  | Ok _ =>
      let! operations := ledger incomplete_operations in
      let! _ := recover_operations operations now_ms in
      remove_expired_proposals now_ms
  end.

(** ** Dispatch *)

Definition respond {A} (f : A -> OpsResponseBody) (m : EM A) : EM OpsResponseBody := let! a := m in mret (f a).

(** [require_write_available()?; require_operator(actor)?;] *)
Definition writing (actor : Subject) (m : EM OpsResponseBody) : EM OpsResponseBody :=
  let! _ := require_write_available in
  let! _ := mlift (require_operator actor) in
  m.

Definition handle_body (body : OpsRequestBody) (now_ms : Z) : EM OpsResponseBody :=
  match body with
  | Capabilities => respond RCapabilities capabilities
  | CertificateInventory _ => respond RCertificateInventory (engine_certificate_inventory cfg now_ms)
  | PlanCertbotIssue actor plan => writing actor (respond RCertbotIssuePlan (plan_certbot_issue cfg actor plan now_ms))
  | ApproveCertbotIssue actor plan_id plan_hash key external_effect deferred =>
      writing actor (respond ROperationReceipt
        (approve_certbot_issue actor plan_id plan_hash key external_effect deferred now_ms))
  | PlanCertbotRenewTest actor plan =>
      writing actor (respond RCertbotRenewTestPlan (plan_certbot_renew_test cfg actor plan now_ms))
  | ApproveCertbotRenewTest actor plan_id plan_hash key external_effect =>
      writing actor (respond ROperationReceipt
        (approve_certbot_renew_test actor plan_id plan_hash key external_effect now_ms))
  | PlanCertbotAttach actor plan =>
      writing actor (respond RCertbotAttachPlan (plan_certbot_attach cfg actor plan now_ms))
  | ApproveCertbotAttach actor plan_id plan_hash key config_replace service_reload =>
      writing actor (respond ROperationReceipt
        (approve_certbot_attach actor plan_id plan_hash key config_replace service_reload now_ms))
  | ReadManagedConfig actor resource_id =>
      let! _ := mlift (require_operator actor) in
      respond RManagedConfigResource (read_managed_config cfg resource_id)
  | PlanNginxSiteState actor plan => writing actor (respond RNginxSiteStatePlan (plan_nginx cfg actor plan now_ms))
  | ApproveNginxSiteState actor plan_id plan_hash key =>
      writing actor (respond ROperationReceipt (approve_nginx actor plan_id plan_hash key now_ms))
  | PlanManagedConfig actor plan =>
      writing actor (respond RManagedConfigPlan (plan_managed_config cfg actor plan now_ms))
  | PlanManagedConfigRestore actor plan =>
      writing actor (respond RManagedConfigPlan (plan_managed_config_restore cfg actor plan now_ms))
  | ApproveManagedConfig actor plan_id plan_hash key intent =>
      writing actor (respond ROperationReceipt (approve_managed_config actor plan_id plan_hash key intent now_ms))
  | PlanServiceControl actor plan =>
      writing actor (respond RServiceControlPlan (plan_service_control cfg actor plan now_ms))
  | ApproveServiceControl actor plan_id plan_hash key impact_confirmed =>
      writing actor (if negb impact_confirmed then mfail (ERejected "impact_confirmation")
        else respond ROperationReceipt (approve_service_control actor plan_id plan_hash key now_ms))
  | ObserveUfw _ => respond RUfw (ufw_inventory now_ms)
  | PlanUfwRule actor plan => writing actor (respond RUfwRulePlan (plan_ufw_rule cfg actor plan now_ms))
  | ApproveUfwRule actor plan_id plan_hash key impact_confirmed =>
      writing actor (if negb impact_confirmed then mfail (ERejected "impact_confirmation")
        else respond ROperationReceipt (approve_ufw_rule actor plan_id plan_hash key now_ms))
  | ExecuteOperation actor operation_id =>
      writing actor (respond ROperationReceipt (execute_operation actor operation_id now_ms))
  | OperationReceipt actor operation_id => respond ROperationReceipt (operation_receipt actor operation_id)
  | RecentOperations actor =>
      let! _ := open_ledger in
      respond RRecentOperations (ledger (recent_receipts (uid actor) 8))
  end.

(** [poisoned]: a request panicked while it held the request lock. *)
Definition response_for (poisoned : bool) (request : OpsRequest) (now_ms : Z) (w : World) : OpsResponse * World :=
  let answer body := {| os_protocol_version := IPC_PROTOCOL_VERSION; os_request_id := oq_request_id request;
                        os_body := body |} in
  if poisoned then (answer (RRejected "forensic_lockdown"), w)
  else match ops_request_validate request now_ms with
       | Err code => (answer (RRejected code), w)
       | Ok _ =>
           let (r, w') := handle_body (oq_body request) now_ms w in
           (answer (match r with Ok body => body | Err error => RRejected (error_code error) end), w')
       end.
End Main.
