(* ===== verification/EngineLogic.v ===== *)
(** * jw-opsd: reasoning about engine handlers

    [total F I w m Post]: from [w] the handler [m] returns a value satisfying
    [Post]; if it returns an error instead, then in the world it leaves the
    last call was a failed ledger write ([storage_fault]) or [F] holds, and
    the Nginx directories still satisfy [I].  [runs w] are the programs run so
    far, newest first.  [quiet m]:
    [m] reads only, whatever it returns.  The rules for the ledger calls carry
    the durable state of the operation being executed ([live]) across stages. *)

From Stdlib Require Import Ascii String.
From S2P Require Import Prelude Crypto Contracts Plans Adapters Ledger LedgerLog LedgerInv LedgerStore.
From S2P Require Import LedgerApi Text Ufw Host Snapshot Nginx EngineCore.

Section Logic.
Context `{EngineExternals}.

(** The registered programs, and the exchanges with the certificate daemon,
    among the calls. *)
Definition is_program (c : Call) : bool :=
  match c with
  | CallRun _ _ _ | CallUfw _ _ | CallEdge _ | CallCertd _ _ => true
  | CallSys _ _ | CallRandom _ | CallSuffix _ | CallOpenssl _ _ => false
  end.

Definition host_runs (h : HostState) : list Call := List.filter is_program (h_calls h).
Definition runs (w : World) : list Call := host_runs (w_host w).

(** The reasons a ledger call of a running operation may fail: its write
    failed, or its event clashes with a recorded one. *)
Definition storage_fault (w : World) : Prop :=
  head (calls w) = Some (CallSys SysLedger false) \/ next_clash (st_db (w_store w)).

Definition total {A} (F : World -> Prop) (I : NginxTree -> Prop) (w : World) (m : EM A)
    (Post : A -> World -> Prop) : Prop :=
  match m w with
  | (Ok a, w') => Post a w'
  | (Err _, w') => (storage_fault w' \/ F w') /\ I (w_nginx w')
  end.

Lemma total_ret {A} F I w (a : A) (Post : A -> World -> Prop) : Post a w -> total F I w (mret a) Post.
Proof. done. Qed.

Lemma total_lift {A} F I w (a : A) (Post : A -> World -> Prop) :
  Post a w -> total F I w (mlift (Ok a)) Post.
Proof. done. Qed.

Lemma total_bind {A B} F I w (m : EM A) (k : A -> EM B) Post :
  total F I w m (fun a w' => total F I w' (k a) Post) -> total F I w (mbind m k) Post.
Proof. unfold total, mbind. destruct (m w) as [[a|e] w']; done. Qed.

Lemma total_try {A B} F I w (m : EM A) (k : oresult A -> EM B) Post :
  (forall r w', m w = (r, w') -> total F I w' (k r) Post) -> total F I w (mtry m k) Post.
Proof. unfold total, mtry. intros Hk. destruct (m w) as [r w'] eqn:E. by apply Hk. Qed.

Lemma total_mono {A} F I w (m : EM A) (P Q : A -> World -> Prop) :
  total F I w m P -> (forall a w', P a w' -> Q a w') -> total F I w m Q.
Proof. unfold total. destruct (m w) as [[a|e] w']; auto. Qed.

Lemma total_weaken {A} (F : World -> Prop) (I J : NginxTree -> Prop) w (m : EM A) (P Q : A -> World -> Prop) :
  (forall t, I t -> J t) -> (forall a w', P a w' -> Q a w') -> total F I w m P -> total F J w m Q.
Proof. unfold total. destruct (m w) as [[a|e] w']; naive_solver. Qed.

(** ** Reading actions *)

Definition quiet {A} (m : EM A) : Prop := forall w, exists mach, (m w).2 = with_host mach w.

Lemma with_host_id w : with_host (w_host w) w = w.
Proof. by destruct w. Qed.

Lemma quiet_pure {A} (f : World -> oresult A) : quiet (fun w => (f w, w)).
Proof. intros w. exists (w_host w). by rewrite with_host_id. Qed.

Lemma quiet_ret {A} (a : A) : quiet (mret a).
Proof. exact (quiet_pure (fun _ => Ok a)). Qed.
Lemma quiet_fail {A} e : quiet (mfail e : EM A).
Proof. exact (quiet_pure (fun _ => Err e)). Qed.
Lemma quiet_lift {A} (r : oresult A) : quiet (mlift r : EM A).
Proof. exact (quiet_pure (fun _ => r)). Qed.
Lemma quiet_get {A} (f : World -> A) : quiet (mget f : EM A).
Proof. exact (quiet_pure (fun w => Ok (f w))). Qed.

Lemma quiet_bind {A B} (m : EM A) (k : A -> EM B) :
  quiet m -> (forall a, quiet (k a)) -> quiet (mbind m k).
Proof.
  intros Hm Hk w. unfold mbind. destruct (Hm w) as [mach Hw]. destruct (m w) as [[a|e] w']; simpl in *; subst w'.
  - destruct (Hk a (with_host mach w)) as [mach' ->]. by exists mach'.
  - by exists mach.
Qed.

Lemma quiet_try {A B} (m : EM A) (k : oresult A -> EM B) :
  quiet m -> (forall r, quiet (k r)) -> quiet (mtry m k).
Proof.
  intros Hm Hk w. unfold mtry. destruct (Hm w) as [mach Hw]. destruct (m w) as [r w']; simpl in *; subst w'.
  destruct (Hk r (with_host mach w)) as [mach' ->]. by exists mach'.
Qed.

Lemma quiet_syscall c e : quiet (syscall c e).
Proof. intros w. unfold syscall. destruct (ask_sys _ _) as [ok m]. by exists m. Qed.
Lemma quiet_private r c : quiet (private_call r c).
Proof. apply quiet_syscall. Qed.
Lemma quiet_suffix : quiet random_suffix.
Proof. intros w. unfold random_suffix. destruct (ask_suffix _) as [r m]. by exists m. Qed.
Lemma quiet_run c : quiet (run c).
Proof. intros w. unfold run. destruct (ask_run _ _ _) as [r m]. by exists m. Qed.
Lemma quiet_run_ufw c : quiet (run_ufw c).
Proof. intros w. unfold run_ufw. destruct (ask_ufw _ _) as [r m]. by exists m. Qed.
Lemma quiet_edge : quiet management_edge_ready.
Proof. intros w. unfold management_edge_ready. destruct (ask_edge _) as [r m]. by exists m. Qed.

Lemma quiet_random p : quiet (random_id p).
Proof. intros w. unfold random_id. destruct (ask_random _) as [r m]. by exists m. Qed.
Lemma quiet_identifier : quiet random_identifier.
Proof. intros w. unfold random_identifier. destruct (ask_random _) as [r m]. by exists m. Qed.
Lemma quiet_openssl p : quiet (run_openssl p).
Proof. intros w. unfold run_openssl. destruct (ask_openssl _ _) as [r m]. by exists m. Qed.
Lemma quiet_certd q : quiet (exchange_certd q).
Proof. intros w. unfold exchange_certd. destruct (ask_certd _ _) as [r m]. by exists m. Qed.

(** Actions that run no program. *)
Definition unrun {A} (m : EM A) : Prop := forall w, runs (m w).2 = runs w.

Lemma ask_sys_runs c h ok h' : ask_sys c h = (ok, h') -> host_runs h' = host_runs h.
Proof. unfold ask_sys. destruct (sys _ _) as [b m]. by intros [= <- <-]. Qed.

Lemma ask_sys_last c h ok h' : ask_sys c h = (ok, h') -> head (h_calls h') = Some (CallSys c ok).
Proof. unfold ask_sys. destruct (sys _ _) as [b m]. by intros [= <- <-]. Qed.

Lemma run_runs class w r w' :
  run class w = (r, w') -> runs w' = CallRun class (w_nginx w) r :: runs w /\ calls w' = CallRun class (w_nginx w) r :: calls w.
Proof. unfold run, ask_run. destruct (runner_run _ _ _) as [b m]. by intros [= <- <-]. Qed.

Lemma run_ufw_runs command w r w' :
  run_ufw command w = (r, w') -> runs w' = CallUfw command r :: runs w /\ calls w' = CallUfw command r :: calls w.
Proof. unfold run_ufw, ask_ufw. destruct (runner_run_ufw _ _) as [b m]. by intros [= <- <-]. Qed.

Lemma edge_runs w r w' :
  management_edge_ready w = (r, w') -> runs w' = CallEdge r :: runs w /\ calls w' = CallEdge r :: calls w.
Proof. unfold management_edge_ready, ask_edge. destruct (runner_edge_ready _) as [b m]. by intros [= <- <-]. Qed.

Lemma unrun_pure {A} (f : World -> oresult A) : unrun (fun w => (f w, w)).
Proof. done. Qed.
Lemma unrun_upd (f : World -> World) : (forall w, w_host (f w) = w_host w) -> unrun (mupd f : EM unit).
Proof. intros Hf w. unfold runs. simpl. by rewrite Hf. Qed.
Lemma unrun_syscall c e : unrun (syscall c e).
Proof. intros w. unfold syscall. destruct (ask_sys _ _) as [ok h] eqn:E. by apply (ask_sys_runs _ _ _ _ E). Qed.
Lemma unrun_private r c : unrun (private_call r c).
Proof. apply unrun_syscall. Qed.
Lemma unrun_suffix : unrun random_suffix.
Proof. intros w. unfold random_suffix, ask_suffix. by destruct (random_u64 _) as [[v|] m]. Qed.
Lemma unrun_random p : unrun (random_id p).
Proof. intros w. unfold random_id, ask_random. by destruct (random16 _) as [[v|] m]. Qed.
Lemma unrun_identifier : unrun random_identifier.
Proof. intros w. unfold random_identifier, ask_random. by destruct (random16 _) as [[v|] m]. Qed.
Lemma unrun_openssl p : unrun (run_openssl p).
Proof. intros w. unfold run_openssl, ask_openssl. by destruct (openssl_x509 _ _) as [r m]. Qed.
Lemma unrun_bind {A B} (m : EM A) (k : A -> EM B) : unrun m -> (forall a, unrun (k a)) -> unrun (mbind m k).
Proof.
  intros Hm Hk w. unfold mbind. specialize (Hm w). destruct (m w) as [[a|e] w']; simpl in *; [|done].
  by rewrite Hk.
Qed.
Lemma unrun_try {A B} (m : EM A) (k : oresult A -> EM B) : unrun m -> (forall r, unrun (k r)) -> unrun (mtry m k).
Proof. intros Hm Hk w. unfold mtry. specialize (Hm w). destruct (m w) as [r w']; simpl in *. by rewrite Hk. Qed.
Lemma unrun_ledger {A} (m : LM A) : unrun (ledger m).
Proof.
  intros w. unfold ledger. destruct (ask_sys _ _) as [ok h] eqn:E. destruct (m _). by apply (ask_sys_runs _ _ _ _ E).
Qed.

(** Actions after which the world is related to the one before. *)
Definition keeps {A} (R : World -> World -> Prop) (m : EM A) : Prop := forall w, R w (m w).2.

Lemma keeps_bind {A B} R `{!Transitive R} (m : EM A) (k : A -> EM B) :
  keeps R m -> (forall a, keeps R (k a)) -> keeps R (mbind m k).
Proof.
  intros Hm Hk w. unfold mbind. specialize (Hm w). destruct (m w) as [[a|e] w']; simpl in *; [|done].
  etrans; [exact Hm|apply Hk].
Qed.

Lemma keeps_try {A B} R `{!Transitive R} (m : EM A) (k : oresult A -> EM B) :
  keeps R m -> (forall r, keeps R (k r)) -> keeps R (mtry m k).
Proof.
  intros Hm Hk w. unfold mtry. specialize (Hm w). destruct (m w) as [r w']; simpl in *.
  etrans; [exact Hm|apply Hk].
Qed.

Lemma keeps_quiet {A} R (m : EM A) : (forall mach w, R w (with_host mach w)) -> quiet m -> keeps R m.
Proof. intros HR Hq w. destruct (Hq w) as [mach ->]. apply HR. Qed.

Lemma keeps_result {A} R (m : EM A) w r w' : keeps R m -> m w = (r, w') -> R w w'.
Proof. intros Hm E. specialize (Hm w). by rewrite E in Hm. Qed.

Lemma keeps_weaken {A} (R S : World -> World -> Prop) (m : EM A) :
  (forall w w', R w w' -> S w w') -> keeps R m -> keeps S m.
Proof. intros HRS Hm w. apply HRS, Hm. Qed.

Lemma quiet_result {A} (m : EM A) w r w' :
  quiet m -> m w = (r, w') -> exists mach, w' = with_host mach w.
Proof. intros Hm E. specialize (Hm w). by rewrite E in Hm. Qed.

Lemma unrun_result {A} (m : EM A) w r w' : unrun m -> m w = (r, w') -> runs w' = runs w.
Proof. intros Hm E. specialize (Hm w). by rewrite E in Hm. Qed.

Lemma total_try_quiet {A B} F I w (m : EM A) (k : oresult A -> EM B) Post :
  quiet m ->
  (forall r mach, m w = (r, with_host mach w) -> total F I (with_host mach w) (k r) Post) ->
  total F I w (mtry m k) Post.
Proof.
  intros Hq Hk. apply total_try. intros r w' E. destruct (quiet_result _ _ _ _ Hq E) as [mach ->]. by apply Hk.
Qed.

(** A read whose errors propagate. *)
Lemma total_bind_quiet {A B} (F : World -> Prop) (I : NginxTree -> Prop) w (m : EM A) (k : A -> EM B) Post :
  quiet m -> I (w_nginx w) -> (forall e w', m w = (Err e, w') -> F w') ->
  (forall a mach, m w = (Ok a, with_host mach w) -> total F I (with_host mach w) (k a) Post) ->
  total F I w (mbind m k) Post.
Proof.
  intros Hq HI He Hk. unfold total, mbind. destruct (m w) as [[a|e] w'] eqn:E;
    destruct (quiet_result _ _ _ _ Hq E) as [mach ->].
  - specialize (Hk a mach eq_refl). exact Hk.
  - split; [right; by eapply He|done].
Qed.

End Logic.

Create HintDb quiet.
#[export] Hint Resolve quiet_pure quiet_ret quiet_fail quiet_lift quiet_get quiet_bind quiet_try
  quiet_syscall quiet_private quiet_suffix quiet_run quiet_run_ufw quiet_edge quiet_random
  quiet_identifier quiet_openssl quiet_certd : quiet.

(** Solve [quiet] goals by their structure. *)
Ltac quiet_solver :=
  repeat first
    [ progress auto with quiet
    | progress intros
    | apply quiet_bind
    | apply quiet_try
    | match goal with
      | |- quiet (if ?b then _ else _) => destruct b
      | |- quiet (match ?x with _ => _ end) => destruct x
      | |- quiet (let '(_, _) := ?x in _) => destruct x
      | |- quiet (fun w => (_, w)) => apply quiet_pure
      end ].

(** Solve [keeps] goals by their structure; [leaf] solves the single actions. *)
Ltac keeps_solver leaf :=
  repeat first
    [ solve [leaf]
    | progress intros
    | progress cbv beta zeta
    | apply keeps_bind; [exact _| |]
    | apply keeps_try; [exact _| |]
    | match goal with
      | |- keeps _ (match ?x with _ => _ end) => destruct x
      | |- keeps _ (if ?x then _ else _) => destruct x
      end ].

Create HintDb unrun.
#[export] Hint Resolve unrun_pure unrun_upd unrun_syscall unrun_private unrun_suffix unrun_random unrun_identifier unrun_openssl
  unrun_bind unrun_try unrun_ledger : unrun.
#[export] Hint Extern 1 (unrun (mret _)) => exact (unrun_pure (fun _ => Ok _)) : unrun.
#[export] Hint Extern 1 (unrun (mfail ?e)) => exact (unrun_pure (fun _ => Err e)) : unrun.
#[export] Hint Extern 1 (unrun (mlift ?r)) => exact (unrun_pure (fun _ => r)) : unrun.
#[export] Hint Extern 1 (unrun (mget ?f)) => exact (unrun_pure (fun w => Ok (f w))) : unrun.

(** Solve [unrun] goals by their structure. *)
Ltac unrun_solver :=
  repeat first
    [ progress auto with unrun
    | progress intros
    | apply unrun_bind
    | apply unrun_try
    | match goal with
      | |- unrun (if ?b then _ else _) => destruct b
      | |- unrun (match ?x with _ => _ end) => destruct x
      | |- unrun (let '(_, _) := ?x in _) => destruct x
      | |- unrun (fun w => (_, w)) => apply unrun_pure
      end ].

(** [leaves_active] of a transition literal. *)
Ltac expected_solver :=
  let s := fresh "s" in let Hs := fresh "Hs" in
  intros s Hs; cbn [t_expected change] in Hs;
  rewrite ?elem_of_cons, ?elem_of_nil in Hs; destruct_or? Hs; subst; done.

Section Live.
Context `{EngineExternals}.

Lemma quiet_discover id : quiet (discover_site id).
Proof. unfold discover_site, read_available_content, read_enabled_state. quiet_solver. Qed.

Lemma unrun_discover id : unrun (discover_site id).
Proof. unfold discover_site, read_available_content, read_enabled_state. unrun_solver. Qed.

Lemma unrun_read_snapshot record n : unrun (read_snapshot_bytes record n).
Proof. unfold read_snapshot_bytes. unrun_solver. Qed.

Lemma quiet_read_snapshot record n : quiet (read_snapshot_bytes record n).
Proof. unfold read_snapshot_bytes. quiet_solver. Qed.

(** ** The running operation

    [live n now id op w]: operation [id] is stored as [op], and the log has
    room for [n] more events, each time stamp printable. *)
Record live (n now : Z) (id : string) (op : StoredOperation) (w : World) : Prop := {
  lv_inv : store_inv (w_store w);
  lv_op : load_operation_from (st_db (w_store w)) id = Ok op;
  lv_room : Z.of_nat (length (ledger_events (st_db (w_store w)))) + n <= i64_max;
  lv_times : times_ok (st_db (w_store w));
  lv_now : is_some (rfc3339 now) = true;
}.

Lemma live_machine n now id op m w : live n now id op w -> live n now id op (with_host m w).
Proof. by intros []. Qed.

Lemma live_store n now id op w w' : w_store w' = w_store w -> live n now id op w -> live n now id op w'.
Proof. intros Hs []. by constructor; rewrite ?Hs. Qed.

Lemma live_le n n' now id op w : n' <= n -> live n now id op w -> live n' now id op w.
Proof. intros Hn []. constructor; try done. lia. Qed.

Lemma live_id n now id op w : live n now id op w -> o_operation_id op = id.
Proof. intros Hl. eapply load_operation_from_id, Hl. Qed.

(** Only the ledger and the machine differ, and no program was run. *)
Definition same_host (w w' : World) : Prop :=
  w_nginx w' = w_nginx w /\ w_snapshots w' = w_snapshots w /\ w_lockdown w' = w_lockdown w /\ runs w' = runs w.

#[export] Instance same_host_preorder : PreOrder same_host.
Proof. split; [by intros w|]. intros a b c (? & ? & ? & ?) (? & ? & ? & ?). split_and!; congruence. Qed.

Lemma store_inv_io b st : store_inv st -> store_inv (set_io b st).
Proof. intros Hinv. eapply store_step_inv; [exact Hinv|apply set_io_step]. Qed.

(** A ledger call fails only with the storage. *)
Lemma total_ledger {A} (F : World -> Prop) (I : NginxTree -> Prop) w (m : LM A) (Post : A -> World -> Prop) :
  I (w_nginx w) ->
  (forall ok, match m (set_io ok (w_store w)) with
              | (Ok a, st') => forall h, host_runs h = runs w -> Post a (with_store st' (with_host h w))
              | (Err _, st') => ok = false \/ next_clash (st_db st')
              end) -> total F I w (ledger m) Post.
Proof.
  unfold total, ledger. intros HI Hm. destruct (ask_sys SysLedger (w_host w)) as [ok h] eqn:Es.
  specialize (Hm ok). destruct (m (set_io ok (w_store w))) as [[a|e] st'].
  - apply Hm. by apply (ask_sys_runs _ _ _ _ Es).
  - split; [left|done]. destruct Hm as [->|]; [left; by apply (ask_sys_last _ _ _ _ Es)|by right].
Qed.

Lemma wrote_length now db db' :
  wrote now db db' -> Z.of_nat (length (ledger_events db')) = Z.of_nat (length (ledger_events db)) + 1.
Proof. intros (e & -> & _). rewrite length_app. simpl. lia. Qed.

(** After a step of the running operation. *)
Lemma live_next n now id op op' w st' mach :
  live n now id op w -> rtc store_step (w_store w) st' -> wrote now (st_db (w_store w)) (st_db st') ->
  load_operation_from (st_db st') id = Ok op' ->
  live (n - 1) now id op' (with_store st' (with_host mach w)).
Proof.
  intros [Hinv Hop Hroom Ht Hn] Hs Hw Hl. pose proof (wrote_length _ _ _ Hw). constructor; simpl.
  - by eapply store_steps_inv.
  - done.
  - lia.
  - by eapply wrote_times.
  - done.
Qed.

(** [m] records [change] for operation [op]: it is the transition with some
    evidence attached, or it refuses the evidence, which is a fault [F]. *)
Definition recorded (F : World -> Prop) (w : World) (id : string) (op : StoredOperation) (change : Transition)
    (m : LM StoredOperation) : Prop :=
  (exists digest diagnostics command, evidence_wf digest diagnostics command /\
     (is_some diagnostics = true -> is_managed_config (o_plan op) = true) /\
     forall st, m st = transition_internal id (with_evidence change digest) diagnostics command st) \/
  ((forall st, exists e, m st = (Err e, st)) /\ forall w', same_host w w' -> F w').

Lemma recorded_transition F w id op change : recorded F w id op change (transition id change).
Proof.
  left. exists (t_evidence_digest change), None, None. split_and!; [by eexists|done|]. by destruct change.
Qed.

(** The rows of the other operations are the same. *)
Definition others (id : string) (st st' : Store) : Prop :=
  forall i, i <> id -> load_operation_from (st_db st') i = load_operation_from (st_db st) i.

Lemma total_recorded_frame (F : World -> Prop) (I : NginxTree -> Prop) n now id op change m w (Post : StoredOperation -> World -> Prop) :
  I (w_nginx w) -> recorded F w id op change m ->
  1 <= n -> live n now id op w -> o_stage op ∈ t_expected change -> leaves_active change ->
  t_now_ms change = now ->
  (forall w', live (n - 1) now id (transition_op op change) w' -> same_host w w' ->
              others id (w_store w) (w_store w') -> Post (transition_op op change) w') ->
  total F I w (ledger m) Post.
Proof.
  intros HI [(digest & d & c & Hwf & Hd & Hm)|[Hm HF]] Hn Hlive Hin Ha Hnow HP.
  2:{ unfold total, ledger. destruct (ask_sys SysLedger (w_host w)) as [ok h] eqn:Es.
      destruct (Hm (set_io ok (w_store w))) as [e ->]. split; [|done]. right. apply HF.
      split_and!; try done. by apply (ask_sys_runs _ _ _ _ Es). }
  apply total_ledger; [done|]. intros ok. rewrite Hm. set (change' := with_evidence change digest).
  assert (leaves_active change') as Ha' by done.
  pose proof (store_inv_io ok _ (lv_inv _ _ _ _ _ Hlive)) as Hinv.
  destruct (transition_internal id change' d c (set_io ok (w_store w))) as [[op'|e] st'] eqn:Et.
  - intros h Hh. destruct (transition_internal_ok _ _ _ _ _ _ _ Hinv Et)
      as (cur & Hcur & _ & -> & Hl & Hoth & _).
    change (st_db (set_io ok (w_store w))) with (st_db (w_store w)) in Hcur.
    assert (cur = op) as -> by (pose proof (lv_op _ _ _ _ _ Hlive); congruence).
    apply HP; [|done|exact Hoth]. eapply live_next; [done| |by rewrite <- Hnow; apply (internal_wrote _ _ _ _ _ _ _ Hinv Et)|done].
    eapply rtc_l; [apply (set_io_step ok)|]. eapply steps_result; [by apply steps_internal|exact Et].
  - destruct ok; [right|by left].
    destruct (internal_success id change' d c (set_io true (w_store w)) op) as [[st2 E2]|[E2 Hc]]; try done.
    + apply Hlive.
    + pose proof (lv_room _ _ _ _ _ Hlive). simpl. lia.
    + rewrite Et in E2. discriminate.
    + rewrite Et in E2. by injection E2 as _ ->.
Qed.

Lemma total_recorded (F : World -> Prop) (I : NginxTree -> Prop) n now id op change m w (Post : StoredOperation -> World -> Prop) :
  I (w_nginx w) -> recorded F w id op change m ->
  1 <= n -> live n now id op w -> o_stage op ∈ t_expected change -> leaves_active change ->
  t_now_ms change = now ->
  (forall w', live (n - 1) now id (transition_op op change) w' -> same_host w w' ->
              Post (transition_op op change) w') ->
  total F I w (ledger m) Post.
Proof.
  intros HI Hm Hn Hl Hin Ha Hnow HP. eapply total_recorded_frame; try done. intros w' Hl' Hs _. by apply HP.
Qed.

Lemma total_transition (F : World -> Prop) (I : NginxTree -> Prop) n now id op change w (Post : StoredOperation -> World -> Prop) :
  I (w_nginx w) ->
  1 <= n -> live n now id op w -> o_stage op ∈ t_expected change -> leaves_active change ->
  t_now_ms change = now ->
  (forall w', live (n - 1) now id (transition_op op change) w' -> same_host w w' ->
              Post (transition_op op change) w') ->
  total F I w (ledger (transition id change)) Post.
Proof. intros HI. apply total_recorded; [done|]. apply recorded_transition. Qed.

Lemma total_attach (F : World -> Prop) (I : NginxTree -> Prop) n now id op record w (Post : StoredOperation -> World -> Prop) :
  I (w_nginx w) ->
  1 <= n -> live n now id op w -> o_stage op = Approved ->
  (forall w', live (n - 1) now id (attach_op op record) w' -> same_host w w' -> Post (attach_op op record) w') ->
  total F I w (ledger (attach_snapshot id record now)) Post.
Proof.
  intros HI Hn Hlive Hstage HP. apply total_ledger; [done|]. intros ok.
  pose proof (store_inv_io ok _ (lv_inv _ _ _ _ _ Hlive)) as Hinv.
  destruct (attach_snapshot id record now (set_io ok (w_store w))) as [[op'|e] st'] eqn:Et.
  - intros h Hh. destruct (attach_snapshot_ok _ _ _ _ _ _ op Hinv (lv_op _ _ _ _ _ Hlive) Et) as (-> & Hl & Hw).
    apply HP; [|done]. eapply live_next; [done| |exact Hw|done].
    eapply rtc_l; [apply (set_io_step ok)|]. eapply steps_result; [by apply steps_attach|exact Et].
  - destruct ok; [right|by left].
    destruct (attach_success id record now (set_io true (w_store w)) op) as [[st2 E2]|[E2 Hc]]; try done.
    + apply Hlive.
    + pose proof (lv_room _ _ _ _ _ Hlive). simpl. lia.
    + rewrite Et in E2. discriminate.
    + rewrite Et in E2. by injection E2 as _ ->.
Qed.

Lemma total_load (F : World -> Prop) (I : NginxTree -> Prop) n now id op w (Post : StoredOperation -> World -> Prop) :
  I (w_nginx w) ->
  live n now id op w ->
  (forall w', live n now id op w' -> same_host w w' -> Post op w') ->
  total F I w (ledger (load_operation id)) Post.
Proof.
  intros HI Hlive HP. apply total_ledger; [done|]. intros ok. unfold load_operation, read_db. simpl.
  rewrite (lv_op _ _ _ _ _ Hlive). intros h Hh. apply HP; [|done].
  destruct Hlive. constructor; try done. simpl. by apply store_inv_io.
Qed.

Lemma total_receipt (F : World -> Prop) (I : NginxTree -> Prop) n now id op w (Post : OperationReceiptView -> World -> Prop) :
  I (w_nginx w) ->
  live n now id op w ->
  (forall r w', receipt_of op r -> live n now id op w' -> same_host w w' -> Post r w') ->
  total F I w (ledger (receipt id)) Post.
Proof.
  intros HI Hlive HP. apply total_ledger; [done|]. intros ok. destruct Hlive as [Hinv Hop Hroom Ht Hn].
  destruct (receipt_total (set_io ok (w_store w)) id op) as (r & -> & Hr);
    [by apply store_inv_io|done|done|].
  intros h Hh. apply (HP r); [done| |done]. constructor; try done. simpl. by apply store_inv_io.
Qed.

(** The end of an operation: a terminal stage on disk, no lock held, and a
    receipt that says so. *)
Record finished (id : string) (op : StoredOperation) (r : OperationReceiptView) (w : World) : Prop := {
  fin_inv : store_inv (w_store w);
  fin_op : load_operation_from (st_db (w_store w)) id = Ok op;
  fin_terminal : is_terminal (o_stage op) = true;
  fin_receipt : receipt_of op r;
  fin_locks : forall key l, resource_locks (st_db (w_store w)) !! key = Some l -> lr_operation_id l <> id;
}.

Lemma terminal_no_lock st id op :
  store_inv st -> load_operation_from (st_db st) id = Ok op -> is_terminal (o_stage op) = true ->
  forall key l, resource_locks (st_db st) !! key = Some l -> lr_operation_id l <> id.
Proof.
  intros Hinv Hl Ht key l Hk <-.
  destruct (load_operation_from_inv _ _ _ (si_rows _ Hinv) Hl) as (row & Hrow & _ & _ & _ & _ & Hst).
  destruct (ri_locks _ _ _ _ (si_rows _ Hinv) _ _ Hk) as (r & Hr' & Hrt).
  assert (r = row) as -> by congruence. rewrite Hst, terminal_value_stage in Hrt. congruence.
Qed.

Lemma live_finished n now id op r w :
  live n now id op w -> is_terminal (o_stage op) = true -> receipt_of op r -> finished id op r w.
Proof. intros [] Ht Hr. constructor; try done. by eapply terminal_no_lock. Qed.

(** A terminal transition followed by its receipt. *)
Lemma total_terminal (F : World -> Prop) (I : NginxTree -> Prop) n now id op change w (Post : OperationReceiptView -> World -> Prop) :
  I (w_nginx w) ->
  1 <= n -> live n now id op w -> o_stage op ∈ t_expected change -> leaves_active change ->
  t_now_ms change = now -> is_terminal (t_next change) = true ->
  (forall r w', finished id (transition_op op change) r w' -> same_host w w' -> Post r w') ->
  total F I w (conclude id change) Post.
Proof.
  intros HI Hn Hlive Hin Ha Hnow Ht HP. apply total_bind.
  eapply total_transition; try done. intros w1 Hl1 Hs1. rewrite (live_id _ _ _ _ _ Hl1).
  eapply total_receipt; [by rewrite (proj1 Hs1)|done|]. intros r w2 Hr Hl2 Hs2.
  apply HP; [by eapply live_finished|by etrans].
Qed.

(** ** Clean-up of proposals *)

(** Only the proposal directory and the machine change. *)
Definition proposals_only (w w' : World) : Prop := w_store w' = w_store w /\ same_host w w'.

#[export] Instance proposals_only_preorder : PreOrder proposals_only.
Proof. split; [by split|]. intros a b c [A1 B1] [A2 B2]. split; [congruence|by etrans]. Qed.

Lemma proposals_read {A} (m : EM A) : quiet m -> unrun m -> keeps proposals_only m.
Proof. intros Hq Hu w. specialize (Hu w). destruct (Hq w) as [mach E]. rewrite E in *. by split. Qed.

Lemma proposals_update f : keeps proposals_only (update_private ProposalRoot f).
Proof. by intros w. Qed.

Ltac proposals_leaf :=
  first [ apply proposals_update
        | apply proposals_read; [solve [quiet_solver]|solve [unrun_solver]] ].

Lemma prepare_proposals : keeps proposals_only (prepare_private_root ProposalRoot).
Proof. unfold prepare_private_root. keeps_solver proposals_leaf. Qed.

Lemma remove_proposal_keeps p : keeps proposals_only (remove_proposal p).
Proof. unfold remove_proposal. keeps_solver proposals_leaf. Qed.

Lemma read_proposal_keeps record : keeps proposals_only (read_proposal record).
Proof.
  unfold read_proposal. keeps_solver ltac:(first [apply prepare_proposals | proposals_leaf]).
Qed.

Lemma write_proposal_keeps cfg id content : keeps proposals_only (write_proposal cfg id content).
Proof.
  unfold write_proposal, create_private_dir, create_private_file, require_capacity.
  keeps_solver ltac:(first [apply prepare_proposals | proposals_leaf]).
Qed.

Lemma remove_operation_proposal_ok op w :
  exists w', remove_operation_proposal op w = (Ok tt, w') /\ w_store w' = w_store w /\ same_host w w'.
Proof.
  unfold remove_operation_proposal, remove_plan_proposal, discard, mbind, mtry, mret.
  destruct (p_managed_config (o_plan op)) as [mc|].
  - destruct (remove_proposal_keeps (mp_proposal_relative_path mc) w) as [S1 H1].
    destruct (remove_proposal _ w) as [r1 w1]. simpl in *.
    destruct (p_certbot_issue (o_plan op)) as [ci|]; [|by eexists].
    destruct (remove_proposal_keeps (ip_account_email_proposal_relative_path ci) w1) as [S2 H2].
    destruct (remove_proposal _ w1) as [r2 w2]. simpl in *. exists w2. split_and!; [done|congruence|by etrans].
  - destruct (p_certbot_issue (o_plan op)) as [ci|]; [|by eexists].
    destruct (remove_proposal_keeps (ip_account_email_proposal_relative_path ci) w) as [S2 H2].
    destruct (remove_proposal _ w) as [r2 w2]. by exists w2.
Qed.

Lemma finished_store id op r w w' : w_store w' = w_store w -> finished id op r w -> finished id op r w'.
Proof. intros Hs [I O T R L]. by constructor; rewrite ?Hs. Qed.

(** A clean-up whose failure is ignored. *)
Definition cleans (m : EM unit) : Prop := forall w, exists w', m w = (Ok tt, w') /\ proposals_only w w'.

Lemma cleans_ret : cleans (mret tt).
Proof. intros w. by exists w. Qed.

Lemma cleans_discard {A} (m : EM A) : keeps proposals_only m -> cleans (discard m).
Proof.
  intros Hm w. specialize (Hm w). unfold discard, mtry, mret. destruct (m w) as [r w']. by exists w'.
Qed.

Lemma cleans_operation op : cleans (remove_operation_proposal op).
Proof. intros w. destruct (remove_operation_proposal_ok op w) as (w' & E & Hs & Hh). by exists w'. Qed.

(** The same as [total_terminal], with evidence and a clean-up at the end. *)
Lemma total_terminal_with (F : World -> Prop) (I : NginxTree -> Prop) n now id op change m
    (cleanup : StoredOperation -> EM unit) w (Post : OperationReceiptView -> World -> Prop) :
  I (w_nginx w) -> recorded F w id op change m ->
  1 <= n -> live n now id op w -> o_stage op ∈ t_expected change -> leaves_active change ->
  t_now_ms change = now -> is_terminal (t_next change) = true -> (forall terminal, cleans (cleanup terminal)) ->
  (forall r w', finished id (transition_op op change) r w' -> same_host w w' -> Post r w') ->
  total F I w (let! terminal := ledger m in
             let! r := ledger (receipt (o_operation_id terminal)) in
             let! _ := cleanup terminal in mret r) Post.
Proof.
  intros HI Hm Hn Hlive Hin Ha Hnow Ht Hc HP. apply total_bind.
  eapply total_recorded; try done. intros w1 Hl1 Hs1. rewrite (live_id _ _ _ _ _ Hl1). apply total_bind.
  eapply total_receipt; [by rewrite (proj1 Hs1)|done|]. intros r w2 Hr Hl2 Hs2.
  destruct (Hc (transition_op op change) w2) as (w3 & E3 & Hst3 & Hs3). unfold total, mbind. rewrite E3.
  apply HP; [eapply finished_store; [exact Hst3|by eapply live_finished]|].
  etrans; [exact Hs1|]. by etrans.
Qed.

Lemma total_terminal_cleanup (F : World -> Prop) (I : NginxTree -> Prop) n now id op change w (Post : OperationReceiptView -> World -> Prop) :
  I (w_nginx w) ->
  1 <= n -> live n now id op w -> o_stage op ∈ t_expected change -> leaves_active change ->
  t_now_ms change = now -> is_terminal (t_next change) = true ->
  (forall r w', finished id (transition_op op change) r w' -> same_host w w' -> Post r w') ->
  total F I w (let! terminal := ledger (transition id change) in
             let! r := ledger (receipt (o_operation_id terminal)) in
             let! _ := remove_operation_proposal terminal in mret r) Post.
Proof.
  intros HI Hn Hlive Hin Ha Hnow Ht HP. eapply total_terminal_with; try done.
  - apply recorded_transition.
  - apply cleans_operation.
Qed.
End Live.

#[export] Hint Resolve quiet_discover quiet_read_snapshot : quiet.
#[export] Hint Resolve unrun_discover unrun_read_snapshot : unrun.
