(* ===== verification/HostProofs.v ===== *)
(** * jw-opsd: what the host adapters promise

    Discovery agrees with the directories, [set_enabled] changes one link and
    reads it back, a written snapshot is the snapshot read. *)

From Stdlib Require Import Ascii String.
From S2P Require Import Prelude Crypto Contracts Plans Adapters Ledger LedgerLog LedgerInv LedgerStore.
From S2P Require Import LedgerApi Text Ufw Host Snapshot Nginx EngineCore EngineLogic.

(** Invert a successful [let!] chain. *)
Ltac bind_inv H :=
  let a := fresh "a" in let w := fresh "w" in let Ha := fresh "Hm" in
  apply mbind_inv_ok in H as (a & w & Ha & H).

Lemma syscall_inv `{EngineExternals} c e w u w' :
  syscall c e w = (Ok u, w') -> exists m, w' = with_host m w.
Proof. intros E. eapply quiet_result; [apply quiet_syscall|exact E]. Qed.

Lemma private_inv `{EngineExternals} r c w u w' :
  private_call r c w = (Ok u, w') -> exists m, w' = with_host m w.
Proof. apply syscall_inv. Qed.

(** The same for one step, its state reduced. *)
Ltac em_step H :=
  let a := fresh "a" in let w := fresh "w" in let Ha := fresh "Hm" in
  apply mbind_inv_ok in H as (a & w & Ha & H);
  first [ apply syscall_inv in Ha as [? ->] | apply private_inv in Ha as [? ->] | injection Ha as <- <- | injection Ha as Ha <- | idtac ].

Section Nginx.
Context `{EngineExternals}.

(** ** Discovery *)

Lemma quiet_available f : quiet (read_available_content f).
Proof. unfold read_available_content. quiet_solver. Qed.

Lemma discover_site_sound id w site w' :
  discover_site id w = (Ok site, w') -> site_in (w_nginx w) id = Some site.
Proof.
  unfold discover_site. intros Hd. do 5 bind_inv Hd.
  injection Hm as <- <-. injection Hm0 as <- <-. injection Hm1 as _ <-. injection Hm2 as _ <-.
  apply syscall_inv in Hm3 as [m3 ->].
  bind_inv Hd. destruct a as [basename f]. injection Hm as Hf <-.
  bind_inv Hd. destruct a as [bytes management].
  destruct (quiet_result _ _ _ _ (quiet_available f) Hm) as [m4 ->].
  assert (bytes = af_bytes f /\ management = nginx_management_config (af_bytes f)) as [-> ->].
  { unfold read_available_content in Hm. destruct (negb _); [done|]. bind_inv Hm.
    destruct (_ <? _); [done|]. by injection Hm as <- <- _. }
  do 2 bind_inv Hd. injection Hm0 as _ <-. injection Hd as <- <-.
  unfold read_enabled_state in Hm1. bind_inv Hm1. apply syscall_inv in Hm0 as [m5 ->].
  injection Hm1 as He _. simpl in He. unfold site_in. simpl in Hf. by rewrite Hf, He.
Qed.

Lemma site_in_inv t id site :
  site_in t id = Some site ->
  exists f, find_site id (nt_available t) = Ok (ns_basename site, f) /\
    read_enabled t (ns_basename site) = Ok (bool_decide (ns_state site = Enabled)) /\
    ns_available_digest site = sha256_digest (af_bytes f) /\
    ns_enabled_state_digest site = nginx_enabled_state_digest (bool_decide (ns_state site = Enabled)) /\
    ns_site_id site = id.
Proof.
  unfold site_in. destruct (find_site _ _) as [[b f]|] eqn:Ef; [|done].
  destruct (read_enabled t b) as [e|] eqn:Ee; [|done]. intros [= <-]. exists f. simpl.
  rewrite Ee. by destruct e.
Qed.

(** ** The enabled link *)

(** Two trees that agree on everything but the link [basename]. *)
Definition tree_frame (basename : string) (t t' : NginxTree) : Prop :=
  nt_available t' = nt_available t /\ nt_elsewhere t' = nt_elsewhere t /\ nt_dirs t' = nt_dirs t /\
  nt_available_root t' = nt_available_root t /\ nt_enabled_root t' = nt_enabled_root t /\
  forall other, other <> basename -> nt_enabled t' !! other = nt_enabled t !! other.

#[export] Instance tree_frame_preorder b : PreOrder (tree_frame b).
Proof.
  split; [by intros t|]. intros x y z (A1 & B1 & F1 & C1 & D1 & E1) (A2 & B2 & F2 & C2 & D2 & E2).
  split_and!; try congruence. intros o Ho. by rewrite E2, E1.
Qed.

(** The site of an id keeps its name and content under [tree_frame]. *)
Lemma site_in_frame b t t' id site site' :
  tree_frame b t t' -> site_in t id = Some site -> site_in t' id = Some site' ->
  ns_basename site' = ns_basename site /\ ns_available_digest site' = ns_available_digest site.
Proof.
  intros (Ha & _) (f & Hf & _ & Hd & _)%site_in_inv (f' & Hf' & _ & Hd' & _)%site_in_inv.
  rewrite Ha in Hf'. split; congruence.
Qed.

Lemma read_enabled_inv b w e w' :
  read_enabled_state b w = (Ok e, w') ->
  read_enabled (w_nginx w) b = Ok e /\ exists m, w' = with_host m w.
Proof.
  unfold read_enabled_state. intros Hr. bind_inv Hr. apply syscall_inv in Hm as [m ->].
  injection Hr as Hr <-. split; [done|by eexists].
Qed.

Lemma quiet_read_enabled b : quiet (read_enabled_state b).
Proof. unfold read_enabled_state. quiet_solver. Qed.

Lemma set_enabled_linux_frame b e w :
  let w' := (set_enabled_linux b e w).2 in
  tree_frame b (w_nginx w) (w_nginx w') /\ w_store w' = w_store w /\ w_snapshots w' = w_snapshots w /\
  w_lockdown w' = w_lockdown w.
Proof.
  unfold set_enabled_linux, mbind, mget, mupd, mfail, syscall, tree_frame.
  destruct e, (nt_enabled (w_nginx w) !! b); try done; destruct (ask_sys _ _) as [[] m]; simpl; try done;
    split_and!; try done; intros o Ho; simpl.
  - by rewrite lookup_insert_ne.
  - by rewrite lookup_delete_ne.
Qed.

Lemma set_enabled_frame site e w :
  let w' := (set_enabled site e w).2 in
  tree_frame (ns_basename site) (w_nginx w) (w_nginx w') /\ w_store w' = w_store w /\
  w_snapshots w' = w_snapshots w /\ w_lockdown w' = w_lockdown w.
Proof.
  unfold set_enabled, mbind. destruct (quiet_read_enabled (ns_basename site) w) as [m1 E1].
  destruct (read_enabled_state (ns_basename site) w) as [[c|er] w1]; simpl in *; subst w1; [|done].
  destruct (bool_decide _); [done|].
  destruct (set_enabled_linux_frame (ns_basename site) e (with_host m1 w)) as (Hf & Hs & Hn & Hl).
  destruct (set_enabled_linux _ _ _) as [[[]|er] w2]; simpl in *; [|done].
  destruct (quiet_syscall SysSyncEnabled EFilesystem w2) as [m2 E2].
  destruct (syscall _ _ w2) as [[[]|er] w3]; simpl in *; subst w3; [|done].
  destruct (quiet_read_enabled (ns_basename site) (with_host m2 w2)) as [m3 E3].
  destruct (read_enabled_state _ (with_host m2 w2)) as [[c2|er] w4]; simpl in *; subst w4; [|done].
  by destruct (bool_decide _).
Qed.

Lemma unrun_set_enabled site e : unrun (set_enabled site e).
Proof. unfold set_enabled, set_enabled_linux, read_enabled_state. unrun_solver. Qed.

Lemma set_enabled_reads site e w w' :
  set_enabled site e w = (Ok tt, w') -> read_enabled (w_nginx w') (ns_basename site) = Ok e.
Proof.
  unfold set_enabled. intros Hs. bind_inv Hs. apply read_enabled_inv in Hm as [Hr [m1 ->]].
  destruct (bool_decide (a = e)) eqn:Ed; [bool_prop; subst; injection Hs as <-; done|].
  do 3 bind_inv Hs. apply read_enabled_inv in Hm1 as [Hr' [m3 ->]].
  destruct (bool_decide (a2 = e)) eqn:Ed'; [|done]. bool_prop. subst. by injection Hs as <-.
Qed.
End Nginx.

Section Snapshots.
Context `{EngineExternals}.
Context (cfg : Config).

(** ** Snapshots *)

(** The file of a record holds the encoding of [s]. *)
Definition snapshot_stored {A} `{Json A} (record : SnapshotRecord) (s : A) (w : World) : Prop :=
  exists m, sd_files (w_snapshots w) !! sn_relative_path record = Some (m, to_json s).

(** Only the snapshot directory and the machine change. *)
Definition snapshots_only (w w' : World) : Prop :=
  w_store w' = w_store w /\ w_nginx w' = w_nginx w /\ w_lockdown w' = w_lockdown w.

#[export] Instance snapshots_only_preorder : PreOrder snapshots_only.
Proof. split; [by intros w|]. intros a b c (? & ? & ?) (? & ? & ?). split_and!; congruence. Qed.

Lemma snapshots_quiet {A} (m : EM A) : quiet m -> keeps snapshots_only m.
Proof. by apply keeps_quiet. Qed.

Lemma snapshots_update f : keeps snapshots_only (update_private SnapshotRoot f).
Proof. by intros w. Qed.

Ltac snapshots_leaf := first [apply snapshots_update | apply snapshots_quiet; solve [quiet_solver]].

Lemma write_snapshot_keeps id filename bytes : keeps snapshots_only (write_snapshot_bytes cfg id filename bytes).
Proof.
  unfold write_snapshot_bytes, prepare_private_root, create_private_dir, create_private_file, require_capacity.
  keeps_solver snapshots_leaf.
Qed.

Lemma unrun_update_private r f : unrun (update_private r f).
Proof. apply unrun_upd. by destruct r. Qed.

Lemma unrun_write_snapshot id filename bytes : unrun (write_snapshot_bytes cfg id filename bytes).
Proof.
  pose proof unrun_update_private.
  unfold write_snapshot_bytes, prepare_private_root, create_private_dir, create_private_file, require_capacity.
  unrun_solver.
Qed.

(** What a successful write leaves on disk. *)
Definition written (id filename bytes : string) (record : SnapshotRecord) (w : World) : Prop :=
  record = {| sn_relative_path := id +:+ "/" +:+ filename; sn_digest := sha256_digest bytes |} /\
  validate_private_directory (sd_root (w_snapshots w)) (enforce w) = Ok tt /\
  validate_private_directory (sd_dirs (w_snapshots w) !! id) (enforce w) = Ok tt /\
  sd_files (w_snapshots w) !! (id +:+ "/" +:+ filename) = Some (own_node w false true, bytes).

Lemma require_capacity_inv n w u w' : require_capacity n w = (Ok u, w') -> w' = w.
Proof. unfold require_capacity. by injection 1. Qed.

Lemma private_with r s w : private_dir r (with_private r s w) = s.
Proof. by destruct r. Qed.
Lemma private_host r m w : private_dir r (with_host m w) = private_dir r w.
Proof. by destruct r. Qed.
Lemma private_store r s w : w_store (with_private r s w) = w_store w.
Proof. by destruct r. Qed.

(** What the steps on a private directory leave when they succeed. *)
Ltac private_norm :=
  unfold enforce, own_node in *;
  repeat first [ progress rewrite ?private_with, ?private_store, ?private_host
               | progress cbn [w_store with_host sd_files sd_dirs sd_root add_file add_dir] ].

Lemma prepare_root_inv r w u w' :
  prepare_private_root r w = (Ok u, w') ->
  validate_private_directory (sd_root (private_dir r w')) (enforce w') = Ok tt.
Proof.
  unfold prepare_private_root. intros Hp. do 5 bind_inv Hp. injection Hp as Hv <-. destruct u. exact Hv.
Qed.

Lemma create_dir_inv r name w u w' :
  create_private_dir r name w = (Ok u, w') ->
  validate_private_directory (sd_dirs (private_dir r w') !! name) (enforce w') = Ok tt /\
  sd_root (private_dir r w') = sd_root (private_dir r w) /\
  sd_files (private_dir r w') = sd_files (private_dir r w) /\ w_store w' = w_store w.
Proof.
  unfold create_private_dir. intros Hc. do 2 em_step Hc. destruct (sd_dirs _ !! _); [done|].
  injection Hm as <- <-. do 4 em_step Hc. destruct u. injection Hc as Hv <-.
  split; [exact Hv|]. by private_norm.
Qed.

Lemma create_file_inv r path bytes w u w' :
  create_private_file r path bytes w = (Ok u, w') ->
  sd_files (private_dir r w') !! path = Some (own_node w' false true, bytes) /\
  sd_root (private_dir r w') = sd_root (private_dir r w) /\
  sd_dirs (private_dir r w') = sd_dirs (private_dir r w) /\ w_store w' = w_store w.
Proof.
  unfold create_private_file. intros Hc. do 2 em_step Hc. destruct (sd_files _ !! _); [done|].
  injection Hm as <- <-. do 5 em_step Hc. injection Hc as _ <-. private_norm.
  split_and!; [|done..]. apply lookup_insert_eq.
Qed.

Lemma write_snapshot_written id filename bytes w record w' :
  write_snapshot_bytes cfg id filename bytes w = (Ok record, w') -> written id filename bytes record w'.
Proof.
  unfold write_snapshot_bytes. intros Hw. bind_inv Hw. pose proof (prepare_root_inv _ _ _ _ Hm) as Hroot.
  bind_inv Hw. apply require_capacity_inv in Hm0 as ->.
  bind_inv Hw. destruct (create_dir_inv _ _ _ _ _ Hm0) as (Hd & Hr1 & _ & S1).
  bind_inv Hw. destruct (create_file_inv _ _ _ _ _ _ Hm1) as (Hf & Hr2 & Hd2 & S2). cbn [private_dir] in *.
  do 2 em_step Hw. bind_inv Hw. simpl in Hm2. rewrite Hf in Hm2. destruct (bool_decide _); [|done].
  injection Hm2 as _ <-. do 2 em_step Hw. injection Hw as <- <-. unfold written, enforce, own_node in *.
  cbn [w_store w_snapshots with_host]. rewrite Hr2, Hr1, Hd2, S2, S1 in *. by split_and!.
Qed.

Lemma read_snapshot_inv record n w bytes w' :
  read_snapshot_bytes record n w = (Ok bytes, w') ->
  exists m, sd_files (w_snapshots w) !! sn_relative_path record = Some (m, bytes).
Proof.
  unfold read_snapshot_bytes. intros Hr. destruct (negb (relative_path_ok _)); [done|].
  do 3 em_step Hr. destruct (sd_files _ !! _) as [[m b]|] eqn:Ef; [|done].
  destruct (_ || _ || _); [done|]. em_step Hr. destruct (_ || _ || _); [done|]. em_step Hr.
  destruct (negb _); [done|]. injection Hr as <- _. exists m. rewrite <- Ef. reflexivity.
Qed.

(** A decoded snapshot is the one that was stored. *)
Lemma read_stored {A} `{Json A} record n (s s' : A) w w' :
  snapshot_stored record s w ->
  (let! bytes := read_snapshot_bytes record n in mlift (ok_or (from_json bytes) EFilesystem)) w = (Ok s', w') ->
  s' = s.
Proof.
  intros [m Hs] Hr. bind_inv Hr. apply read_snapshot_inv in Hm as [m' Hf].
  rewrite Hf in Hs. injection Hs as _ ->. rewrite from_to_json in Hr. by injection Hr as <-.
Qed.

Lemma written_stored {A} `{Json A} id filename (s : A) record w :
  written id filename (to_json s) record w -> snapshot_stored record s w.
Proof. intros (-> & _ & _ & Hf). by eexists. Qed.

(** ** Paths of snapshot files *)

Definition no_slash (s : string) : bool := sall (fun c => negb (byte_is 47 c)) s.

Lemma split_slash_plain s : no_slash s = true -> split_slash s = [s].
Proof.
  induction s as [|c s IH]; [done|]. cbn [no_slash sall split_slash]. intros [Hc Hs]%andb_true_iff.
  apply negb_true_iff in Hc. by rewrite Hc, (IH Hs).
Qed.

Lemma split_slash_pair a b :
  no_slash a = true -> no_slash b = true -> split_slash (a +:+ "/" +:+ b) = [a; b].
Proof.
  intros Ha Hb. induction a as [|c a IH].
  - change (split_slash ("" +:+ "/" +:+ b)) with (EmptyString :: split_slash b).
    by rewrite (split_slash_plain b).
  - change (String c a +:+ "/" +:+ b) with (String c (a +:+ "/" +:+ b)). cbn [no_slash sall split_slash] in *.
    apply andb_true_iff in Ha as [Hc Ha]. apply negb_true_iff in Hc. by rewrite Hc, (IH Ha).
Qed.

Definition plain_name (s : string) : Prop := no_slash s = true /\ bad_component s = false.

Lemma snapshot_path_ok id filename :
  plain_name id -> plain_name filename ->
  relative_path_ok (id +:+ "/" +:+ filename) = true /\ parent_of (id +:+ "/" +:+ filename) = Some id.
Proof.
  intros [Ni Bi] [Nf Bf]. unfold relative_path_ok, parent_of. rewrite split_slash_pair by done. split.
  - cbn [existsb]. rewrite Bi, Bf. destruct id as [|c id]; [discriminate Bi|].
    change (String c id +:+ "/" +:+ filename) with (String c (id +:+ "/" +:+ filename)).
    cbn [no_slash sall] in Ni. apply andb_true_iff in Ni as [Hc _]. apply negb_true_iff in Hc.
    unfold starts_with. cbn [String.prefix]. destruct (ascii_dec "/" c) as [<-|]; [done|done].
  - cbn. done.
Qed.

(** Reading back what was written: the bytes, unless the read itself fails. *)
Lemma read_written id filename bytes record n w :
  written id filename bytes record w -> plain_name id -> plain_name filename -> slen bytes <= n ->
  (enforce w = true -> st_euid (w_store w) = 0) ->
  read_snapshot_bytes record n w =
    let (ok, m) := ask_sys (SysPrivate SnapshotRoot PRead) (w_host w) in
    ((if ok then Ok bytes else Err EFilesystem), with_host m w).
Proof.
  intros (-> & Hroot & Hdir & Hf) Hid Hfn Hn Ho. destruct (snapshot_path_ok id filename Hid Hfn) as [Hp Hpar].
  unfold read_snapshot_bytes. simpl. rewrite Hp. simpl. unfold mbind, mget. rewrite Hroot. simpl.
  rewrite Hpar, Hdir. simpl. rewrite Hf. simpl.
  replace (n <? slen bytes) with false by (symmetry; apply Z.ltb_ge; lia).
  destruct (enforce w) eqn:Ee; simpl; rewrite ?Ho by done; simpl; unfold private_call, syscall;
    destruct (ask_sys _ _) as [[] m]; simpl; rewrite ?bool_decide_eq_true_2 by done; done.
Qed.
End Snapshots.

(** ** jw-opsd: an operation between its snapshot and its end

    The three executions (Nginx site, service, UFW rule) share their shape: a
    snapshot on disk, a chain of durable stages, a rollback that starts from
    any of them.  [staged] is that common state; the rules below move it. *)

Section Staged.
Context `{EngineExternals} {A : Type} `{Json A}.
Context (F : World -> Prop) (I : NginxTree -> Prop).
Context (plan : StoredPlan) (id : string) (now : Z) (record : SnapshotRecord) (snap : A).

(** Operation [id] executes [plan], is in [stage], has room for [n] more
    events and its snapshot [snap] on disk. *)
Definition staged (n : Z) (stage : OperationStage) (w : World) : Prop :=
  I (w_nginx w) /\ snapshot_stored record snap w /\
  exists op, live n now id op w /\ o_stage op = stage /\ o_plan op = plan /\ o_snapshot op = Some record.

Lemma staged_host n stage w w' :
  w_store w' = w_store w -> w_snapshots w' = w_snapshots w -> I (w_nginx w') ->
  staged n stage w -> staged n stage w'.
Proof.
  intros Hs Hsn HI (_ & [m Hm] & op & Hl & Hop). split_and!; [done|exists m; by rewrite Hsn|].
  exists op. split; [by eapply live_store|done].
Qed.

Lemma staged_machine n stage m w : staged n stage w -> staged n stage (with_host m w).
Proof. intros Hst. eapply staged_host; [..|exact Hst]; try done. by destruct Hst. Qed.

Lemma staged_le n n' stage w : n' <= n -> staged n stage w -> staged n' stage w.
Proof.
  intros Hn (HI & Hs & op & Hl & Hop). split_and!; [done|done|]. exists op. split; [by eapply live_le|done].
Qed.

Lemma staged_next n op w w' :
  I (w_nginx w) -> snapshot_stored record snap w -> same_host w w' -> live n now id op w' ->
  o_plan op = plan -> o_snapshot op = Some record -> staged n (o_stage op) w'.
Proof.
  intros HI [m Hm] (Hg & Hsn & _) Hl Hp Hs. split_and!; [by rewrite Hg|exists m; by rewrite Hsn|]. by exists op.
Qed.

(** A durable stage in the middle of an execution, with evidence or without. *)
Lemma staged_record {B} n stage change m (k : StoredOperation -> EM B) Post w :
  1 <= n -> staged n stage w -> stage ∈ t_expected change -> leaves_active change ->
  t_now_ms change = now -> (forall op, o_plan op = plan -> recorded F w id op change m) ->
  (forall op w', o_plan op = plan -> o_snapshot op = Some record -> staged (n - 1) (t_next change) w' ->
                 same_host w w' -> total F I w' (k op) Post) ->
  total F I w (mbind (ledger m) k) Post.
Proof.
  intros Hn (HI & Hs & op & Hl & <- & Hp & Hr) Hin Ha Hnow Hm HK. apply total_bind.
  eapply (total_recorded F I n); try done; [by apply Hm|]. intros w1 Hl1 Hs1. apply HK; [done|done| |done].
  by apply (staged_next _ _ w _ HI Hs Hs1 Hl1).
Qed.

Lemma staged_advance {B} n stage change (k : StoredOperation -> EM B) Post w :
  1 <= n -> staged n stage w -> stage ∈ t_expected change -> leaves_active change ->
  t_now_ms change = now ->
  (forall op w', o_plan op = plan -> o_snapshot op = Some record -> staged (n - 1) (t_next change) w' ->
                 same_host w w' -> total F I w' (k op) Post) ->
  total F I w (mbind (ledger (transition id change)) k) Post.
Proof. intros Hn Hst Hin Ha Hnow. eapply staged_record; try done. intros op _. apply recorded_transition. Qed.

(** The last one. *)
Lemma staged_conclude n stage change Post w :
  1 <= n -> staged n stage w -> stage ∈ t_expected change -> leaves_active change ->
  t_now_ms change = now -> is_terminal (t_next change) = true ->
  (forall op r w', o_plan op = plan -> finished id (transition_op op change) r w' ->
                   same_host w w' -> Post r w') ->
  total F I w (conclude id change) Post.
Proof.
  intros Hn (HI & Hs & op & Hl & <- & Hp & Hr) Hin Ha Hnow Ht HK.
  eapply (total_terminal F I n); try done. intros r w' Hf Hg. by eapply HK.
Qed.

(** The last one, with evidence and a clean-up. *)
Lemma staged_terminal n stage change m cleanup Post w :
  1 <= n -> staged n stage w -> stage ∈ t_expected change -> leaves_active change ->
  t_now_ms change = now -> is_terminal (t_next change) = true ->
  (forall op, o_plan op = plan -> recorded F w id op change m) -> (forall terminal, cleans (cleanup terminal)) ->
  (forall op r w', o_plan op = plan -> finished id (transition_op op change) r w' ->
                   same_host w w' -> Post r w') ->
  total F I w (let! terminal := ledger m in
               let! r := ledger (receipt (o_operation_id terminal)) in
               let! _ := cleanup terminal in mret r) Post.
Proof.
  intros Hn (HI & Hs & op & Hl & <- & Hp & Hr) Hin Ha Hnow Ht Hm Hc HK.
  eapply (total_terminal_with F I n); try done; [by apply Hm|]. intros r w' Hf Hg. by eapply HK.
Qed.

(** The head of every rollback: continue one that had started, or start it. *)
Lemma staged_rolling_with {B} n stage expected code digest m (k : StoredOperation -> EM B) Post w :
  let t := change expected RollingBack code digest None None now in
  2 <= n -> staged n stage w -> stage = RollingBack \/ stage ∈ expected -> leaves_active t ->
  (forall op w', o_plan op = plan -> same_host w w' -> recorded F w' id op t m) ->
  (forall op w', o_plan op = plan -> o_snapshot op = Some record -> staged (n - 1) RollingBack w' ->
                 same_host w w' -> total F I w' (k op) Post) ->
  total F I w
    (let! current := ledger (load_operation id) in
     let! rolling := (if bool_decide (o_stage current = RollingBack) then mret current else ledger m) in
     k rolling) Post.
Proof.
  intros t Hn (HI & Hs & op & Hl & Hst & Hp & Hr) Hin Ha Hm HK. apply total_bind.
  eapply total_load; [done|done|]. intros w1 Hl1 Hs1. pose proof Hs1 as (Hg1 & _).
  pose proof (staged_next _ _ w _ HI Hs Hs1 Hl1 Hp Hr) as Hw1. apply total_bind. case_bool_decide as Hb.
  - apply total_ret. apply HK; try done. rewrite <- Hb. eapply staged_le; [|exact Hw1]. lia.
  - destruct Hw1 as (HI1 & Hsn1 & _).
    eapply (total_recorded F I n _ _ _ t); [done|by apply Hm|lia|done| |done|done|].
    { rewrite Hst in *. by destruct Hin. }
    intros w2 Hl2 Hs2. apply HK; [done|done| |by etrans].
    by apply (staged_next _ _ w1 _ HI1 Hsn1 Hs2 Hl2).
Qed.

Lemma staged_rolling {B} n stage expected code digest (k : StoredOperation -> EM B) Post w :
  2 <= n -> staged n stage w -> stage = RollingBack \/ stage ∈ expected ->
  leaves_active (change expected RollingBack code digest None None now) ->
  (forall op w', o_plan op = plan -> o_snapshot op = Some record -> staged (n - 1) RollingBack w' ->
                 same_host w w' -> total F I w' (k op) Post) ->
  total F I w
    (let! current := ledger (load_operation id) in
     let! rolling := (if bool_decide (o_stage current = RollingBack) then mret current
                      else ledger (transition id (change expected RollingBack code digest None None now))) in
     k rolling) Post.
Proof.
  intros Hn Hst Hin Ha. eapply staged_rolling_with; try done. intros op w' _ _. apply recorded_transition.
Qed.
End Staged.

(** *** Giving up *)

Section Ends.
Context `{EngineExternals}.

(** The end of an execution: the operation [op'] is final, its plan is the
    executed one, the directories satisfy [I]. *)
Definition settled (I : NginxTree -> Prop) (id : string) (plan : StoredPlan)
    (K : OperationStage -> World -> Prop) (r : OperationReceiptView) (w : World) : Prop :=
  exists op, finished id op r w /\ o_plan op = plan /\ I (w_nginx w) /\ K (o_stage op) w.

Lemma recovery_total F (I : NginxTree -> Prop) n now id op reason (K : OperationStage -> World -> Prop) w :
  I (w_nginx w) -> 1 <= n -> live n now id op w -> o_stage op = RollingBack ->
  (forall w', K RecoveryRequired w') ->
  total F I w (recovery_required id reason now) (settled I id (o_plan op) K).
Proof.
  intros HI Hn Hl Hst HK. eapply total_terminal_cleanup; try done.
  { rewrite Hst. left. }
  { expected_solver. }
  intros r w' Hf (Hg & _). eexists. split; [exact Hf|]. split_and!; [done|by rewrite Hg|apply HK].
Qed.
End Ends.
