(* ===== verification/ManagedProofs.v ===== *)
(** * jw-opsd: managed configuration files, proved

    What discovery finds, which entries a replacement may change, and the end
    of the tree walk. *)

From Stdlib Require Import Ascii String.
From S2P Require Import Prelude Crypto Contracts Plans Adapters Ledger LedgerLog LedgerInv LedgerStore.
From S2P Require Import LedgerApi Text Ufw Host Snapshot Nginx ConfigText Diagnostics ManagedConfig.
From S2P Require Import EngineCore EngineLogic HostProofs.

Section Reading.
Context `{EngineExternals}.
Context (paths : OpsPaths).

(** ** Discovery only reads *)

Lemma quiet_check_root root : quiet (check_root paths root).
Proof. unfold check_root. quiet_solver. Qed.
Lemma unrun_check_root root : unrun (check_root paths root).
Proof. unfold check_root. unrun_solver. Qed.

#[local] Hint Resolve quiet_check_root quiet_available : quiet.
#[local] Hint Resolve unrun_check_root : unrun.

Lemma quiet_read_regular a root basename display id :
  quiet (read_regular_managed_config paths a root basename display id).
Proof. unfold read_regular_managed_config, stat_config, read_config_file. quiet_solver. Qed.

Lemma unrun_read_regular a root basename display id :
  unrun (read_regular_managed_config paths a root basename display id).
Proof. unfold read_regular_managed_config, stat_config, read_config_file. unrun_solver. Qed.

#[local] Hint Resolve quiet_read_regular : quiet.
#[local] Hint Resolve unrun_read_regular : unrun.

Section Walk.
Context (a : ManagedConfigAdapter) (root requested prefix : string).

Lemma quiet_visit_file dir name : quiet (visit_file paths a root requested prefix dir name).
Proof. unfold visit_file. quiet_solver. Qed.
Lemma unrun_visit_file dir name : unrun (visit_file paths a root requested prefix dir name).
Proof. unfold visit_file. unrun_solver. Qed.

#[local] Hint Resolve quiet_visit_file : quiet.
#[local] Hint Resolve unrun_visit_file : unrun.

Lemma quiet_visit_entries dir depth entries observed stack :
  quiet (visit_entries paths a root requested prefix dir depth entries observed stack).
Proof. revert observed stack. induction entries as [|[name f] rest IH]; intros; simpl; quiet_solver. Qed.
Lemma unrun_visit_entries dir depth entries observed stack :
  unrun (visit_entries paths a root requested prefix dir depth entries observed stack).
Proof. revert observed stack. induction entries as [|[name f] rest IH]; intros; simpl; unrun_solver. Qed.

#[local] Hint Resolve quiet_visit_entries : quiet.
#[local] Hint Resolve unrun_visit_entries : unrun.

Lemma quiet_walk fuel observed stack : quiet (walk_tree paths a root requested prefix fuel observed stack).
Proof. revert observed stack. induction fuel as [|fuel IH]; intros; simpl; quiet_solver. Qed.
Lemma unrun_walk fuel observed stack : unrun (walk_tree paths a root requested prefix fuel observed stack).
Proof. revert observed stack. induction fuel as [|fuel IH]; intros; simpl; unrun_solver. Qed.
End Walk.

#[local] Hint Resolve quiet_walk : quiet.
#[local] Hint Resolve unrun_walk : unrun.

Lemma quiet_discover_managed id : quiet (discover_managed_config paths id).
Proof.
  unfold discover_managed_config, discover_nginx_managed_config, discover_exact_managed_config,
    discover_directory_managed_config, discover_php_fpm_managed_config, discover_php_fpm_pool_config, tree_of,
    discover_tree_managed_config, scan_directory, require_enabled_link, stat_config, read_config_file.
  quiet_solver.
Qed.

Lemma unrun_discover_managed id : unrun (discover_managed_config paths id).
Proof.
  unfold discover_managed_config, discover_nginx_managed_config, discover_exact_managed_config,
    discover_directory_managed_config, discover_php_fpm_managed_config, discover_php_fpm_pool_config, tree_of,
    discover_tree_managed_config, scan_directory, require_enabled_link, stat_config, read_config_file,
    read_available_content.
  unrun_solver.
Qed.
End Reading.

(** ** What an identifier names *)

Section Locations.
Context `{EngineExternals}.
Context (paths : OpsPaths).

Definition in_dir (root : string) (skip : string -> bool) (id_of : string -> string) (dir name : string)
    : option string :=
  if bool_decide (dir = root) && negb (skip name) then Some (id_of name) else None.

Definition at_path (path basename id dir name : string) : option string :=
  if bool_decide (path_parent path = Some dir) && bool_decide (name = basename) then Some id else None.

Definition in_tree (a : ManagedConfigAdapter) (main prefix dir name : string) : option string :=
  match path_parent main ≫= (fun root => strip_prefix (root +:+ "/") (path_join dir name)) with
  | Some relative =>
      if is_ok (safe_tree_relative_path relative) && negb (secret_tree_resource relative)
      then Some (managed_service_config_resource_id prefix (adapter_id a) relative) else None
  | None => None
  end.

(** The identifier under which an adapter serves a file, if it serves it. *)
Definition location_id (a : ManagedConfigAdapter) : string -> string -> option string :=
  let exact path basename prefix :=
    at_path path basename (managed_service_config_resource_id prefix (adapter_id a) basename) in
  let service root prefix := in_dir root not_conf (managed_service_config_resource_id prefix (adapter_id a)) in
  let php path basename := at_path path basename (php_fpm_config_resource_id (adapter_id a)) in
  match a with
  | AdNginx => in_dir (pa_nginx_available paths) nginx_internal_temporary_name
                 (nginx_config_resource_id NGINX_CONFIG_ADAPTER_ID)
  | AdNginxTree => in_tree a (pa_nginx_main paths) "ngf_"
  | AdNginxMain => exact (pa_nginx_main paths) "nginx.conf"%string "ngm_"%string
  | AdNginxConfD => service (pa_nginx_conf_d paths) "ngd_"%string
  | AdApacheTree => in_tree a (pa_apache_main paths) "apf_"
  | AdApacheMain => exact (pa_apache_main paths) "apache2.conf"%string "apm_"%string
  | AdApachePorts => exact (pa_apache_ports paths) "ports.conf"%string "app_"%string
  | AdApacheConf => service (pa_apache_conf_available paths) "apc_"%string
  | AdApacheSite => service (pa_apache_sites_available paths) "aps_"%string
  | AdPhpFpm83Ini => php (pa_php_fpm_ini paths) "php.ini"%string
  | AdPhpFpm83Global => php (pa_php_fpm_global paths) "php-fpm.conf"%string
  | AdPhpFpm83PoolWww => php (pa_php_fpm_pool_www paths) "www.conf"%string
  | AdPhpFpm83Pool => in_dir (pa_php_fpm_pool_dir paths) not_conf php_fpm_pool_config_resource_id
  end.

(** The file [name] of [dir] is the one [rid] stands for. *)
Definition config_target (rid dir name : string) : bool :=
  match managed_config_adapter rid with
  | Ok a => bool_decide (location_id a dir name = Some rid)
  | Err _ => false
  end.

(** The PHP locations are named as the adapters name them. *)
Definition paths_named : bool :=
  bool_decide (path_file_name (pa_php_fpm_ini paths) = Some "php.ini"%string)
  && bool_decide (path_file_name (pa_php_fpm_global paths) = Some "php-fpm.conf"%string)
  && bool_decide (path_file_name (pa_php_fpm_pool_www paths) = Some "www.conf"%string).

(** ** What discovery finds *)

(** A file the daemon may manage. *)
Definition manageable (owned : bool) (a : ManagedConfigAdapter) (f : AvailableFile) : Prop :=
  validate_available_metadata f owned = Ok tt /\ validate_managed_metadata f owned = Ok tt /\
  slen (af_bytes f) <= maximum_bytes a /\ managed_config_bytes_supported (af_bytes f) = true /\
  (is_tree_adapter a = true -> contains_private_key_marker (af_bytes f) = false).

(** [r] describes the file it names, in a directory the daemon trusts. *)
Record config_found (owned : bool) (t : NginxTree) (rid : string) (r : ManagedConfigResource) : Prop := {
  cf_id : cr_resource_id r = rid;
  cf_adapter : managed_config_adapter rid = Ok (cr_adapter r);
  cf_location : location_id (cr_adapter r) (cr_root r) (cr_basename r) = Some rid;
  cf_root : validate_root (dir_meta paths (cr_root r) t) owned = Ok tt;
  cf_file : exists f, dir_entry paths (cr_root r) (cr_basename r) t = Some f /\
              manageable owned (cr_adapter r) f /\
              r = resource_of (cr_adapter r) rid (cr_basename r) (cr_display_name r) (cr_root r) f;
}.

(** What the reads of a file establish. *)
Lemma read_config_file_inv maximum f w u w' :
  read_config_file maximum f w = (Ok u, w') ->
  validate_available_metadata f (enforce w) = Ok tt /\ validate_managed_metadata f (enforce w) = Ok tt /\
  slen (af_bytes f) <= maximum /\ managed_config_bytes_supported (af_bytes f) = true.
Proof.
  unfold read_config_file. intros Hr. do 3 em_step Hr. destruct a, a0.
  destruct (maximum <? _) eqn:El; [done|]. em_step Hr. destruct (negb _) eqn:Es; [done|].
  apply Z.ltb_ge in El. apply negb_false_iff in Es. by split_and!.
Qed.

Lemma stat_config_inv root basename w f w' :
  stat_config paths root basename w = (Ok f, w') ->
  dir_entry paths root basename (w_nginx w) = Some f /\ exists m, w' = with_host m w.
Proof.
  unfold stat_config. intros Hs. do 2 em_step Hs. unfold ok_or in Hs. simpl in Hs.
  destruct (dir_entry _ _ _ _) as [g|] eqn:E; [|done]. injection Hs as <- <-. split; [done|by eexists].
Qed.

Lemma check_root_inv root w u w' :
  check_root paths root w = (Ok u, w') ->
  validate_root (dir_meta paths root (w_nginx w)) (enforce w) = Ok tt /\ w' = w.
Proof. unfold check_root. destruct u. by injection 1. Qed.

Lemma read_regular_inv a root basename display id w r w' :
  read_regular_managed_config paths a root basename display id w = (Ok r, w') ->
  validate_root (dir_meta paths root (w_nginx w)) (enforce w) = Ok tt /\
  exists f, dir_entry paths root basename (w_nginx w) = Some f /\
    validate_available_metadata f (enforce w) = Ok tt /\ validate_managed_metadata f (enforce w) = Ok tt /\
    slen (af_bytes f) <= maximum_bytes a /\ managed_config_bytes_supported (af_bytes f) = true /\
    r = resource_of a id basename display root f.
Proof.
  unfold read_regular_managed_config. intros Hr. bind_inv Hr. apply check_root_inv in Hm as [Hroot ->].
  bind_inv Hr. apply stat_config_inv in Hm as [Hf [m ->]]. bind_inv Hr. apply read_config_file_inv in Hm as (A & B & C & D).
  injection Hr as <- _. split; [done|]. exists a1. by split_and!.
Qed.

Lemma find_config_inv skip id_of requested entries name :
  find_config skip id_of requested entries = Ok name -> skip name = false /\ id_of name = requested.
Proof.
  induction entries as [|[n f] rest IH]; [done|]. simpl. destruct (safe_basename n) as [b|]; [|done].
  destruct (skip b) eqn:Es; simpl; [done|]. case_bool_decide; simpl; [|done]. intros [= <-]. done.
Qed.

Lemma scan_inv dir skip id_of requested w name w' :
  scan_directory paths dir skip id_of requested w = (Ok name, w') ->
  skip name = false /\ id_of name = requested /\ exists m, w' = with_host m w.
Proof.
  unfold scan_directory. intros Hs. bind_inv Hs. apply check_root_inv in Hm as [_ ->]. do 2 em_step Hs.
  injection Hs as Hf <-. apply find_config_inv in Hf as [A B]. split_and!; [done|done|by eexists].
Qed.

(** The resource of a file, from the facts the discovery functions collect. *)
Lemma found_intro owned t rid a root basename display f :
  managed_config_adapter rid = Ok a -> location_id a root basename = Some rid ->
  validate_root (dir_meta paths root t) owned = Ok tt -> dir_entry paths root basename t = Some f ->
  manageable owned a f -> config_found owned t rid (resource_of a rid basename display root f).
Proof. intros. constructor; try done. by exists f. Qed.

Lemma regular_found a rid root basename display w r w' :
  managed_config_adapter rid = Ok a -> location_id a root basename = Some rid -> is_tree_adapter a = false ->
  read_regular_managed_config paths a root basename display rid w = (Ok r, w') ->
  config_found (enforce w) (w_nginx w) rid r.
Proof.
  intros Ha Hl Ht (Hroot & f & Hf & A & B & C & D & ->)%read_regular_inv. apply found_intro; try done.
  split_and!; try done. by rewrite Ht.
Qed.

Lemma exact_found a path basename display rid prefix w r w' :
  managed_config_adapter rid = Ok a -> is_tree_adapter a = false ->
  (forall dir name, location_id a dir name =
     at_path path basename (managed_service_config_resource_id prefix (adapter_id a) basename) dir name) ->
  discover_exact_managed_config paths a path basename display rid prefix w = (Ok r, w') ->
  config_found (enforce w) (w_nginx w) rid r.
Proof.
  intros Ha Ht Hloc. unfold discover_exact_managed_config. case_bool_decide as Hid; [simpl|done]. intros Hd.
  bind_inv Hd. unfold ok_or, mlift in Hm. destruct (path_parent path) as [root|] eqn:Ep; [|done]. injection Hm as <- <-.
  rewrite <- Hid in Hd. eapply regular_found; try done. rewrite Hloc. unfold at_path.
  by rewrite Ep, !bool_decide_eq_true_2, Hid by done.
Qed.

Lemma require_enabled_quiet available enabled basename : quiet (require_enabled_link paths available enabled basename).
Proof. pose proof quiet_check_root. unfold require_enabled_link. quiet_solver. Qed.

Lemma directory_found a root enabled display rid prefix w r w' :
  managed_config_adapter rid = Ok a -> is_tree_adapter a = false ->
  (forall dir name, location_id a dir name =
     in_dir root not_conf (managed_service_config_resource_id prefix (adapter_id a)) dir name) ->
  discover_directory_managed_config paths a root enabled display rid prefix w = (Ok r, w') ->
  config_found (enforce w) (w_nginx w) rid r.
Proof.
  intros Ha Ht Hloc. unfold discover_directory_managed_config. intros Hd. bind_inv Hd.
  apply scan_inv in Hm as (Hs & Hid & m & ->). bind_inv Hd.
  assert (exists m', w0 = with_host m' (with_host m w)) as [m' ->].
  { destruct enabled; [|exists m; by injection Hm].
    eapply quiet_result; [apply require_enabled_quiet|exact Hm]. }
  apply regular_found in Hd; [exact Hd|done| |done].
  rewrite Hloc. unfold in_dir. by rewrite bool_decide_eq_true_2, Hs, Hid by done.
Qed.

Lemma pool_found rid w r w' :
  managed_config_adapter rid = Ok AdPhpFpm83Pool -> discover_php_fpm_pool_config paths rid w = (Ok r, w') ->
  config_found (enforce w) (w_nginx w) rid r.
Proof.
  intros Ha. unfold discover_php_fpm_pool_config. intros Hd. bind_inv Hd.
  apply scan_inv in Hm as (Hs & Hid & m & ->). apply regular_found in Hd; [exact Hd|done| |done].
  simpl. unfold in_dir. by rewrite bool_decide_eq_true_2, Hs, Hid by done.
Qed.

Lemma php_found a path basename display rid w r w' :
  managed_config_adapter rid = Ok a -> is_tree_adapter a = false -> maximum_bytes a = PHP_FPM_CONFIG_MAX_BYTES ->
  rid = php_fpm_config_resource_id (adapter_id a) -> path_file_name path = Some basename ->
  (forall dir name, location_id a dir name =
     at_path path basename (php_fpm_config_resource_id (adapter_id a)) dir name) ->
  discover_php_fpm_managed_config paths a path basename display w = (Ok r, w') ->
  config_found (enforce w) (w_nginx w) rid r.
Proof.
  intros Ha Ht Hmax Hid Hname Hloc. unfold discover_php_fpm_managed_config. intros Hd. bind_inv Hd.
  unfold ok_or, mlift in Hm. destruct (path_parent path) as [root|] eqn:Ep; [|done]. injection Hm as <- <-.
  unfold mtry in Hd. destruct (check_root paths root w) as [[u|e] w1] eqn:Ec; [|done].
  apply check_root_inv in Ec as [Hroot ->]. simpl in Hd. rewrite Hname in Hd. bind_inv Hd.
  apply stat_config_inv in Hm as [Hf [m ->]]. bind_inv Hd. apply read_config_file_inv in Hm as (A & B & C & D).
  injection Hd as <- _. rewrite <- Hid. apply found_intro; try done.
  - rewrite Hloc. unfold at_path. by rewrite Ep, !bool_decide_eq_true_2, Hid by done.
  - split_and!; try done; [by rewrite Hmax|]. by rewrite Ht.
Qed.

Lemma available_content_inv f w c w' :
  read_available_content f w = (Ok c, w') -> c.1 = af_bytes f /\ c.2 = nginx_management_config (af_bytes f).
Proof.
  unfold read_available_content. destruct (negb _); [done|]. intros Hr. em_step Hr.
  destruct (_ <? _); [done|]. by injection Hr as <- _.
Qed.

Lemma site_root id w site w' :
  discover_site id w = (Ok site, w') -> validate_root (nt_available_root (w_nginx w)) (enforce w) = Ok tt.
Proof. unfold discover_site. intros Hd. do 3 em_step Hd. by destruct a. Qed.

Lemma nginx_found rid w r w' :
  managed_config_adapter rid = Ok AdNginx -> discover_nginx_managed_config paths rid w = (Ok r, w') ->
  config_found (enforce w) (w_nginx w) rid r.
Proof.
  intros Ha. unfold discover_nginx_managed_config. intros Hd. bind_inv Hd.
  apply scan_inv in Hm as (Hs & Hid & m & ->). em_step Hd. bind_inv Hd. unfold ok_or, mlift in Hm. simpl in Hm.
  destruct (find_entry a (nt_available (w_nginx w))) as [f|] eqn:Hf; [|done]. injection Hm as <- <-.
  bind_inv Hd. destruct a0 as [bytes protected]. destruct (available_content_inv _ _ _ _ Hm) as [Eb Ep]. simpl in Eb, Ep. subst bytes protected.
  destruct (quiet_result _ _ _ _ (quiet_available f) Hm) as [m' ->]. do 3 em_step Hd. destruct a0, a1.
  destruct (nginx_management_config _); [done|]. bind_inv Hd. destruct (negb _); [done|].
  destruct (_ <? _) eqn:El; [done|]. destruct (negb _) eqn:Eb in Hd; [done|]. injection Hd as <- _.
  apply Z.ltb_ge in El. apply negb_false_iff in Eb. apply found_intro; try done.
  - simpl. unfold in_dir. by rewrite bool_decide_eq_true_2, Hs, Hid by done.
  - unfold dir_meta. rewrite bool_decide_eq_true_2 by done. by apply site_root in Hm2.
  - unfold dir_entry. by rewrite bool_decide_eq_true_2.
Qed.

Section Tree.
Context (a : ManagedConfigAdapter) (main root rid prefix : string).
Hypothesis Ha : managed_config_adapter rid = Ok a.
Hypothesis Hroot : path_parent main = Some root.
Hypothesis Hloc : forall dir name, location_id a dir name = in_tree a main prefix dir name.

Lemma visit_file_found dir name w r w' :
  visit_file paths a root rid prefix dir name w = (Ok (Some r), w') -> config_found (enforce w) (w_nginx w) rid r.
Proof.
  unfold visit_file. intros Hv. bind_inv Hv. unfold ok_or, mlift in Hm.
  destruct (strip_prefix _ _) as [rel|] eqn:Ep; [|done]. injection Hm as <- <-.
  bind_inv Hv. injection Hm as Hsafe <-. assert (a0 = rel) as ->.
  { unfold safe_tree_relative_path in Hsafe. break_in Hsafe. }
  case_bool_decide as Hid; simpl in Hv; [|done]. destruct (secret_tree_resource rel) eqn:Es; [done|].
  bind_inv Hv. apply read_regular_inv in Hm as (Hr & f & Hf & A & B & C & D & ->).
  destruct (contains_private_key_marker _) eqn:Ek; [done|]. injection Hv as <- _. rewrite Hid.
  apply found_intro; try done.
  - rewrite Hloc. unfold in_tree. rewrite Hroot. simpl. by rewrite Ep, Hsafe, Es, Hid.
Qed.

Lemma visit_entries_found dir depth entries observed stack w r w' :
  visit_entries paths a root rid prefix dir depth entries observed stack w = (Ok (TreeFound r), w') ->
  config_found (enforce w) (w_nginx w) rid r.
Proof.
  revert observed stack w. induction entries as [|[name f] rest IH]; intros observed stack w; simpl; [done|].
  destruct (_ <? _)%nat; [done|]. intros Hv. em_step Hv.
  destruct (is_some _); [by apply IH in Hv|]. destruct (af_is_dir f); [by apply IH in Hv|].
  destruct (negb _); [by apply IH in Hv|]. bind_inv Hv.
  destruct (quiet_result _ _ _ _ (quiet_visit_file paths a root rid prefix dir name) Hm) as [m ->].
  destruct a1 as [r0|]; [|by apply IH in Hv]. injection Hv as <- _. by apply visit_file_found in Hm.
Qed.

Lemma walk_found fuel observed stack w r w' :
  walk_tree paths a root rid prefix fuel observed stack w = (Ok r, w') ->
  config_found (enforce w) (w_nginx w) rid r.
Proof.
  revert observed stack w. induction fuel as [|fuel IH]; intros observed stack w; simpl; [done|].
  destruct stack as [|[dir depth] rest]; [done|]. destruct (_ <? _)%nat; [apply IH|]. intros Hw.
  bind_inv Hw. apply check_root_inv in Hm as [_ ->]. do 2 em_step Hw. bind_inv Hw.
  destruct a2 as [r0|observed' stack'].
  - injection Hw as <- _. by apply visit_entries_found in Hm.
  - eapply quiet_result in Hm as [m ->]; [|apply quiet_visit_entries]. by apply IH in Hw.
Qed.
End Tree.

Lemma tree_found a main rid prefix w r w' :
  managed_config_adapter rid = Ok a -> (forall dir name, location_id a dir name = in_tree a main prefix dir name) ->
  tree_of main (fun root => discover_tree_managed_config paths a root rid prefix) w = (Ok r, w') ->
  config_found (enforce w) (w_nginx w) rid r.
Proof.
  intros Ha Hloc. unfold tree_of, discover_tree_managed_config. intros Hd. bind_inv Hd. unfold ok_or, mlift in Hm.
  destruct (path_parent main) as [root|] eqn:Ep; [|done]. injection Hm as <- <-. bind_inv Hd.
  apply check_root_inv in Hm as [_ ->]. by eapply walk_found.
Qed.

Lemma php_adapter_id rid a :
  managed_config_adapter rid = Ok a ->
  match a with
  | AdPhpFpm83Ini | AdPhpFpm83Global | AdPhpFpm83PoolWww => rid = php_fpm_config_resource_id (adapter_id a)
  | _ => True
  end.
Proof.
  unfold managed_config_adapter. repeat (destruct (starts_with _ _); [by intros [= <-]|]).
  repeat (case_bool_decide; [by intros [= <-]|]). destruct (starts_with _ _); by intros [= <-].
Qed.

(** Discovery is sound: it returns the file its identifier names. *)
Lemma discover_found rid w r w' :
  paths_named = true -> discover_managed_config paths rid w = (Ok r, w') ->
  config_found (enforce w) (w_nginx w) rid r.
Proof.
  unfold paths_named. intros [[Hini Hglobal]%andb_prop Hwww]%andb_prop. bool_prop.
  unfold discover_managed_config. intros Hd. bind_inv Hd. injection Hm as Ha <-.
  pose proof (php_adapter_id _ _ Ha) as Hphp.
  destruct a; first
    [ by eapply nginx_found | by eapply tree_found | by eapply exact_found | by eapply directory_found
    | by eapply pool_found | by eapply php_found; [..|exact Hd] ].
Qed.
End Locations.

(** ** Replacement *)

Section Replacement.
Context `{EngineExternals}.
Context (paths : OpsPaths).

Lemma find_cons other n g l :
  find_entry other ((n, g) :: l) = if bool_decide (n = other) then Some g else find_entry other l.
Proof. unfold find_entry. simpl. by case_bool_decide. Qed.

Lemma find_put name f l other :
  find_entry other (put_file name f l) = if bool_decide (other = name) then Some f else find_entry other l.
Proof.
  induction l as [|[n g] l IH]; cbn [put_file]; [rewrite find_cons; repeat case_bool_decide; congruence|].
  repeat case_bool_decide; rewrite ?find_cons, ?IH; repeat case_bool_decide; congruence.
Qed.

Lemma find_drop name l other :
  find_entry other (drop_file_entry name l) = if bool_decide (other = name) then None else find_entry other l.
Proof.
  unfold drop_file_entry. induction l as [|[n g] l IH]; cbn [List.filter fst]; [by case_bool_decide|].
  repeat case_bool_decide; cbn [negb]; rewrite ?find_cons, ?IH; repeat case_bool_decide; congruence.
Qed.

(** An entry after a put and after a removal. *)
Lemma entry_put dir name f t d n :
  (d <> dir \/ n <> name) -> dir_entry paths d n (put_entry paths dir name f t) = dir_entry paths d n t.
Proof.
  intros Hne. unfold dir_entry, put_entry. repeat case_bool_decide; simplify_eq; simpl; try done.
  - rewrite find_put. case_bool_decide; naive_solver.
  - rewrite lookup_insert_ne; naive_solver.
  - destruct (decide (d = dir)) as [->|].
    + rewrite lookup_alter_eq. destruct (nt_dirs t !! dir); simpl; [|done].
      rewrite find_put. case_bool_decide; naive_solver.
    + by rewrite lookup_alter_ne.
Qed.

Lemma entry_put_eq dir name f t :
  is_some (dir_meta paths dir t) = true -> dir_entry paths dir name (put_entry paths dir name f t) = Some f.
Proof.
  unfold dir_meta, dir_entry, put_entry. repeat case_bool_decide; simpl; intros Hd; try done.
  - rewrite find_put. by case_bool_decide.
  - by rewrite lookup_insert_eq.
  - rewrite lookup_alter_eq. destruct (nt_dirs t !! dir); [|done]. simpl. rewrite find_put. by case_bool_decide.
Qed.

Lemma entry_drop dir name t d n :
  dir_entry paths d n (drop_entry paths dir name t) =
    if bool_decide (d = dir) && bool_decide (n = name) then None else dir_entry paths d n t.
Proof.
  unfold dir_entry, drop_entry. repeat case_bool_decide; simplify_eq; simpl; try done.
  all: try by (rewrite find_drop; case_bool_decide).
  all: rewrite ?lookup_delete_eq, ?lookup_delete_ne by done; try done.
  all: try by (rewrite lookup_alter_eq; destruct (nt_dirs t !! dir); simpl; [rewrite find_drop; by case_bool_decide|]).
  all: by rewrite lookup_alter_ne.
Qed.

Lemma meta_put dir name f t d : dir_meta paths d (put_entry paths dir name f t) = dir_meta paths d t.
Proof.
  unfold dir_meta, put_entry. repeat case_bool_decide; simplify_eq; simpl; try done.
  destruct (decide (d = dir)) as [->|]; [rewrite lookup_alter_eq; by destruct (nt_dirs t !! dir)|by rewrite lookup_alter_ne].
Qed.

Lemma meta_drop dir name t d : dir_meta paths d (drop_entry paths dir name t) = dir_meta paths d t.
Proof.
  unfold dir_meta, drop_entry. repeat case_bool_decide; simplify_eq; simpl; try done.
  destruct (decide (d = dir)) as [->|]; [rewrite lookup_alter_eq; by destruct (nt_dirs t !! dir)|by rewrite lookup_alter_ne].
Qed.

(** The trees agree but for the entries [P]. *)
Record touches (P : string -> string -> Prop) (t t' : NginxTree) : Prop := {
  tc_meta : forall dir, dir_meta paths dir t' = dir_meta paths dir t;
  tc_elsewhere : nt_elsewhere t' = nt_elsewhere t;
  tc_entry : forall dir name, ~ P dir name -> dir_entry paths dir name t' = dir_entry paths dir name t;
}.

#[export] Instance touches_preorder P : PreOrder (touches P).
Proof.
  split; [by constructor|]. intros a b c [M1 E1 F1] [M2 E2 F2]. constructor; intros.
  - by rewrite M2.
  - by rewrite E2.
  - by rewrite F2, F1.
Qed.

Lemma touches_mono (P Q : string -> string -> Prop) t t' :
  (forall d n, P d n -> Q d n) -> touches P t t' -> touches Q t t'.
Proof. intros HPQ [M E F]. constructor; naive_solver. Qed.

Lemma touches_put (P : string -> string -> Prop) dir name f t : P dir name -> touches P t (put_entry paths dir name f t).
Proof.
  intros HP. constructor; intros.
  - apply meta_put.
  - unfold put_entry. by repeat case_bool_decide.
  - apply entry_put. destruct (decide (dir0 = dir)) as [->|]; [|by left]. right. by intros ->.
Qed.

Lemma touches_drop (P : string -> string -> Prop) dir name t : P dir name -> touches P t (drop_entry paths dir name t).
Proof.
  intros HP. constructor; intros.
  - apply meta_drop.
  - unfold drop_entry. by repeat case_bool_decide.
  - rewrite entry_drop. by repeat case_bool_decide; simplify_eq.
Qed.

(** Only entries [P] of the configuration directories change. *)
Definition files_only (P : string -> string -> Prop) (w w' : World) : Prop :=
  w_store w' = w_store w /\ w_snapshots w' = w_snapshots w /\ w_proposals w' = w_proposals w /\
  w_lockdown w' = w_lockdown w /\ runs w' = runs w /\ touches P (w_nginx w) (w_nginx w').

#[export] Instance files_only_preorder P : PreOrder (files_only P).
Proof.
  split; [by intros w|]. intros a b c (A1 & B1 & C1 & D1 & E1 & F1) (A2 & B2 & C2 & D2 & E2 & F2).
  split_and!; try congruence. by etrans.
Qed.

Lemma files_mono (P Q : string -> string -> Prop) w w' :
  (forall d n, P d n -> Q d n) -> files_only P w w' -> files_only Q w w'.
Proof. intros HPQ (A & B & C & D & E & F). split_and!; try done. by eapply touches_mono. Qed.

Lemma files_read {A} P (m : EM A) : quiet m -> unrun m -> keeps (files_only P) m.
Proof. intros Hq Hu w. specialize (Hu w). destruct (Hq w) as [mach E]. rewrite E in *. by split_and!. Qed.

Lemma files_update P f : (forall t, touches P t (f t)) -> keeps (files_only P) (update_tree f).
Proof. intros Hf w. by split_and!; try apply Hf. Qed.

Section Temporary.
Context (root temporary : string).
Let temp (d n : string) : Prop := d = root /\ n = temporary.

Ltac files_leaf :=
  first [ apply files_update; intros; first [by apply touches_put | by apply touches_drop]
        | apply files_read; [solve [quiet_solver]|solve [unrun_solver]] ].

Lemma temporary_step_files c : keeps (files_only temp) (temporary_step paths root temporary c).
Proof. unfold temporary_step. keeps_solver files_leaf. Qed.

Lemma temporary_step_inv c w u w' :
  temporary_step paths root temporary c w = (Ok u, w') -> exists m, w' = with_host m w.
Proof.
  unfold temporary_step, mtry. destruct (syscall c EFilesystem w) as [[[]|e] w1] eqn:Es.
  - intros [= _ <-]. by eapply syscall_inv.
  - destruct (syscall SysTempRemove _ w1) as [[[]|e'] w2]; done.
Qed.

Lemma fill_files content mode uid gid : keeps (files_only temp) (fill_temporary paths root temporary content mode uid gid).
Proof.
  unfold fill_temporary. pose proof temporary_step_files.
  keeps_solver ltac:(first [apply temporary_step_files | files_leaf]).
Qed.

Lemma fill_inv content mode uid gid w u w' :
  fill_temporary paths root temporary content mode uid gid w = (Ok u, w') ->
  is_some (dir_meta paths root (w_nginx w)) = true /\ dir_entry paths root temporary (w_nginx w) = None /\
  dir_entry paths root temporary (w_nginx w') = Some (config_node uid gid mode content).
Proof.
  intros Hf. pose proof (keeps_result _ _ _ _ _ (fill_files content mode uid gid) Hf) as (_ & _ & _ & _ & _ & Ht).
  unfold fill_temporary in Hf. do 2 em_step Hf. bind_inv Hf.
  destruct (is_none _ || is_some _) eqn:Hg; [done|]. injection Hm as <- <-.
  apply orb_false_iff in Hg as [Hd He].
  assert (is_some (dir_meta paths root (w_nginx w)) = true) as Hdir by (by destruct (dir_meta _ _ _)).
  split_and!; [done|by destruct (dir_entry _ _ _ _)|].
  assert (exists t, w_nginx w' = put_entry paths root temporary (config_node uid gid mode content) t) as [t Et].
  { do 8 bind_inv Hf. injection Hf as _ <-. by eexists. }
  rewrite Et in *. apply entry_put_eq. rewrite <- Hdir, <- (tc_meta _ _ _ Ht root), meta_put. done.
Qed.

(** The file a rename leaves under the destination name. *)
Definition replacement (basename content : string) (mode uid gid : Z) (t : NginxTree) : AvailableFile :=
  {| af_openable := true; af_is_file := true; af_is_dir := false; af_link := None; af_nlink := 1;
     af_uid := uid; af_gid := gid; af_mode := mode; af_bytes := content;
     af_canonical := dir_entry paths root basename t ≫= af_canonical |}.

Lemma renamed_spec basename content mode uid gid t0 t :
  basename <> temporary -> touches temp t0 t -> is_some (dir_meta paths root t0) = true ->
  dir_entry paths root temporary t0 = None ->
  dir_entry paths root temporary t = Some (config_node uid gid mode content) ->
  let t' := renamed paths root temporary basename t in
  dir_entry paths root basename t' = Some (replacement basename content mode uid gid t0) /\
  touches (fun d n => d = root /\ n = basename) t0 t'.
Proof.
  intros Hne Ht Hd Hnone Htemp. unfold renamed. rewrite Htemp. simpl.
  rewrite (tc_entry _ _ _ Ht root basename) by (by intros [_ ?]). split.
  - apply entry_put_eq. by rewrite meta_drop, (tc_meta _ _ _ Ht).
  - constructor; [intros dir| |intros dir name Hn; cbv beta in Hn].
    + by rewrite meta_put, meta_drop, (tc_meta _ _ _ Ht).
    + rewrite (tc_elsewhere _ _ _ (touches_put (fun _ _ => True) _ _ _ _ ltac:(done))).
      by rewrite (tc_elsewhere _ _ _ (touches_drop (fun _ _ => True) _ _ _ ltac:(done))), (tc_elsewhere _ _ _ Ht).
    + rewrite entry_put, entry_drop by (destruct (decide (dir = root)); [right; naive_solver|by left]).
      repeat case_bool_decide; simplify_eq; simpl; [done|apply (tc_entry _ _ _ Ht); unfold temp; naive_solver..].
Qed.
End Temporary.

Lemma hex_digits_spec n z acc :
  slen (hex_digits n z acc) = Z.of_nat n + slen acc /\
  (sall is_ascii_hexdigit acc = true -> sall is_ascii_hexdigit (hex_digits n z acc) = true).
Proof.
  revert z acc. induction n as [|n IH]; intros z acc; [by split|]. cbn [hex_digits].
  destruct (IH (Z.shiftr z 4) (String (hex_digit (Z.land z 15)) acc)) as [Hl Ha]. split.
  - rewrite Hl. unfold slen. cbn [String.length]. lia.
  - intros Hacc. apply Ha. cbn [sall]. rewrite Hacc, andb_true_r.
    assert (0 <= Z.land z 15 < 16) as Hn.
    { change 15 with (Z.ones 4). rewrite Z.land_ones by lia. change (2 ^ 4) with 16. apply Z.mod_pos_bound. lia. }
    apply hex_digit_lower in Hn. unfold is_lower_hex in Hn. unfold is_ascii_hexdigit. by rewrite Hn.
Qed.

Lemma touches_renamed root temporary basename t :
  touches (fun _ _ => True) t (renamed paths root temporary basename t).
Proof.
  unfold renamed. destruct (dir_entry _ _ _ _); [|done].
  etrans; [by apply (touches_drop _ root temporary)|by apply touches_put].
Qed.

(** Whatever the name, only the configuration directories change. *)
Lemma atomic_replace_any root basename content mode uid gid :
  keeps (files_only (fun _ _ => True)) (atomic_replace paths root basename content mode uid gid).
Proof.
  unfold atomic_replace. apply keeps_bind; [exact _|apply files_read; [apply quiet_suffix|apply unrun_suffix]|].
  intros suffix. cbv zeta. set (temporary := _ +:+ _).
  apply keeps_bind; [exact _| |intros _; apply keeps_bind; [exact _| |intros _; apply keeps_bind; [exact _| |intros _]]].
  - eapply keeps_weaken; [|apply (fill_files root temporary)]. intros w w'. by apply files_mono.
  - eapply keeps_weaken; [|apply (temporary_step_files root temporary)]. intros w w'. by apply files_mono.
  - apply files_update. apply touches_renamed.
  - apply files_read; [apply quiet_syscall|apply unrun_syscall].
Qed.

(** The names the daemon gives its temporaries are recognised as such. *)
Lemma suffix_temporary w s w' :
  random_suffix w = (Ok s, w') -> nginx_internal_temporary_name (".jw-agent-" +:+ s +:+ ".tmp") = true.
Proof.
  unfold random_suffix. destruct (ask_suffix _) as [[v|] m]; [|done]. intros Hs.
  assert (s = hex_digits 16 v EmptyString) as -> by congruence. unfold nginx_internal_temporary_name. rewrite (proj2 (strip_prefix_Some _ _ _) eq_refl). cbv [base.mbind option_bind].
  rewrite strip_suffix_app. destruct (hex_digits_spec 16 v "") as [Hl Ha]. by rewrite Hl, Ha.
Qed.

(** *** The whole replacement

    Whatever fails, the destination holds its old file or the complete new
    one; when the replacement succeeds it is the new one and nothing else
    changed, when it fails a temporary may be left behind. *)
Lemma atomic_replace_spec root basename content mode uid gid w r w' :
  nginx_internal_temporary_name basename = false ->
  atomic_replace paths root basename content mode uid gid w = (r, w') ->
  let t := w_nginx w in let t' := w_nginx w' in
  let new := replacement root basename content (Z.land mode 4095) uid gid t in
  w_store w' = w_store w /\ w_snapshots w' = w_snapshots w /\ w_proposals w' = w_proposals w /\
  w_lockdown w' = w_lockdown w /\ runs w' = runs w /\
  ((dir_entry paths root basename t' = Some new /\ touches (fun d n => d = root /\ n = basename) t t') \/
   (is_err r = true /\ touches (fun d n => d = root /\ nginx_internal_temporary_name n = true) t t')).
Proof.
  intros Hb Ha t t' new. unfold atomic_replace in Ha.
  assert (forall P, (forall d n, P d n -> d = root /\ nginx_internal_temporary_name n = true) ->
    is_err r = true -> files_only P w w' ->
    w_store w' = w_store w /\ w_snapshots w' = w_snapshots w /\ w_proposals w' = w_proposals w /\
    w_lockdown w' = w_lockdown w /\ runs w' = runs w /\
    ((dir_entry paths root basename t' = Some new /\ touches (fun d n => d = root /\ n = basename) t t') \/
     (is_err r = true /\ touches (fun d n => d = root /\ nginx_internal_temporary_name n = true) t t'))) as Hfail.
  { intros P HP He (A & B & C & D & E & F). split_and!; try done. right. split; [done|by eapply touches_mono]. }
  apply mbind_inv in Ha as [(e & Es & ->)|(suffix & w1 & Es & Ha)];
    pose proof (keeps_result _ _ _ _ _ (files_read (fun _ _ => False) _ quiet_suffix unrun_suffix) Es) as F1;
    [by apply (Hfail (fun _ _ => False))|]. cbv zeta in Ha. pose proof (suffix_temporary _ _ _ Es) as Htemp.
  set (temporary := ".jw-agent-" +:+ suffix +:+ ".tmp") in *. set (temp := fun d n => d = root /\ n = temporary).
  assert (forall d n, temp d n -> d = root /\ nginx_internal_temporary_name n = true) as Hsub by (by intros d n [-> ->]).
  apply (files_mono _ temp) in F1; [|done].
  apply mbind_inv in Ha as [(e & Ef & ->)|([] & w2 & Ef & Ha)];
    pose proof (keeps_result _ _ _ _ _ (fill_files root temporary _ _ _ _) Ef) as F2;
    [eapply (Hfail temp); [done|done|by etrans]|].
  apply mbind_inv in Ha as [(e & Er & ->)|([] & w3 & Er & Ha)];
    pose proof (keeps_result _ _ _ _ _ (temporary_step_files root temporary _) Er) as F3;
    [eapply (Hfail temp); [done|done|etrans; [exact F1|by etrans]]|].
  destruct (fill_inv _ _ _ _ _ _ _ _ _ Ef) as (Hd & Hnone & Hent).
  destruct (quiet_result _ _ _ _ quiet_suffix Es) as [m1 ->]. apply temporary_step_inv in Er as [m3 ->].
  apply mbind_inv in Ha as [(e & Eu & _)|([] & w4 & Eu & Ha)]; [done|]. injection Eu as <-.
  pose proof (unrun_result _ _ _ _ (unrun_syscall _ _) Ha) as Hru.
  destruct (quiet_result _ _ _ _ (quiet_syscall _ _) Ha) as [m4 ->].
  assert (files_only temp w (with_host m3 w2)) as (A & B & C & D & E & F) by (etrans; [exact F1|by etrans]).
  split_and!; try done; [by rewrite Hru, <- E|]. left. apply (renamed_spec root temporary); try done.
  intros ->. congruence.
Qed.
End Replacement.

(** ** Replacing and restoring a managed file *)

Section Managed.
Context `{EngineExternals}.
Context (paths : OpsPaths).

(** What an operation on [rid] may change: its file and the daemon's temporaries. *)
Definition config_change (rid dir name : string) : Prop :=
  nginx_internal_temporary_name name = true \/ config_target paths rid dir name = true.

Lemma split_slash_cons s : exists p ps, split_slash s = p :: ps.
Proof.
  induction s as [|c s [p [ps IH]]]; simpl; [by eauto|]. destruct (byte_is 47 c); [by eauto|]. rewrite IH. by eauto.
Qed.

Lemma split_slash_join a b : split_slash (a +:+ "/" +:+ b) = (split_slash a ++ split_slash b)%list.
Proof.
  induction a as [|c a IH].
  - change ("" +:+ "/" +:+ b) with (String "/" b). simpl. reflexivity.
  - change (String c a +:+ "/" +:+ b) with (String c (a +:+ "/" +:+ b)). cbn [split_slash]. rewrite IH.
    destruct (split_slash_cons a) as (p & ps & ->). by destruct (byte_is 47 c).
Qed.

Lemma temporary_shape name :
  nginx_internal_temporary_name name = true -> no_slash name = true /\ tree_part_ok name = false.
Proof.
  unfold nginx_internal_temporary_name. destruct (strip_prefix ".jw-agent-" name) as [rest|] eqn:Ep; [|done].
  cbv [base.mbind option_bind]. apply strip_prefix_Some in Ep as ->.
  destruct (strip_suffix ".tmp" rest) as [hex|] eqn:Es; [|done]. intros [_ Hx]%andb_prop.
  apply strip_suffix_Some in Es as ->. split; [|done]. unfold no_slash. rewrite !sall_app. apply andb_true_intro.
  split; [done|]. rewrite andb_true_r. eapply sall_impl; [|exact Hx].
  intros c. unfold is_ascii_hexdigit, is_ascii_digit, in_range, byte_is. lia.
Qed.

(** A managed file is never a temporary. *)
Lemma location_not_temporary a dir name rid :
  location_id paths a dir name = Some rid -> nginx_internal_temporary_name name = false.
Proof.
  intros Hl. destruct (nginx_internal_temporary_name name) eqn:Ht; [|done]. exfalso.
  destruct (temporary_shape _ Ht) as [Hns Hpart].
  assert (forall root id_of, in_dir root not_conf id_of dir name <> Some rid) as Hdir.
  { intros root id_of. unfold in_dir, not_conf. rewrite Ht. simpl. by rewrite andb_false_r. }
  assert (forall path basename id, nginx_internal_temporary_name basename = false ->
            at_path path basename id dir name <> Some rid) as Hpath.
  { intros path basename id Hb. unfold at_path. do 2 case_bool_decide; simpl; congruence. }
  assert (forall main prefix, in_tree a main prefix dir name <> Some rid) as Htree.
  { intros main prefix. unfold in_tree. destruct (path_parent main) as [root|]; [|done]. simpl.
    destruct (strip_prefix _ _) as [rel|] eqn:Ep; [|done]. apply strip_prefix_Some in Ep.
    destruct (safe_tree_relative_path rel) as [rel'|] eqn:Es; [|done]. exfalso.
    unfold safe_tree_relative_path in Es. break_in Es. bool_prop. unfold path_join in Ep.
    rewrite sapp_assoc in Ep. apply (f_equal split_slash) in Ep. rewrite !split_slash_join, (split_slash_plain name) in Ep by done.
    destruct (split_slash rel') as [|p ps] eqn:Er using rev_ind; [by destruct (split_slash_cons rel') as (? & ? & ?); congruence|].
    rewrite app_assoc in Ep. apply app_inj_tail in Ep as [_ ->].
    rename select (forallb tree_part_ok _ = true) into Hall. rewrite forallb_app in Hall. simpl in Hall. by rewrite Hpart, !andb_false_r in Hall. }
  destruct a; simpl in Hl; first
    [ by apply Htree in Hl | by apply Hdir in Hl | by apply Hpath in Hl
    | unfold in_dir in Hl; by rewrite Ht, andb_false_r in Hl ].
Qed.

Lemma discover_keeps P id : keeps (files_only paths P) (discover_managed_config paths id).
Proof. apply files_read; [apply quiet_discover_managed|apply unrun_discover_managed]. Qed.

(** The replacement of a file the identifier names. *)
Lemma atomic_replace_files rid root basename content mode uid gid w r w' :
  config_target paths rid root basename = true ->
  atomic_replace paths root basename content mode uid gid w = (r, w') ->
  files_only paths (config_change rid) w w'.
Proof.
  intros Ht Ha. pose proof Ht as Hn. unfold config_target in Hn. destruct (managed_config_adapter rid); [|done].
  bool_prop. apply location_not_temporary in Hn.
  destruct (atomic_replace_spec paths _ _ _ _ _ _ _ _ _ Hn Ha) as (A & B & C & D & E & [[_ F]|[_ F]]);
    split_and!; try done; eapply touches_mono; try exact F; cbv beta.
  - intros d n [-> ->]. by right.
  - intros d n [_ Hx]. by left.
Qed.

Lemma found_target owned t rid r :
  config_found paths owned t rid r -> config_target paths rid (cr_root r) (cr_basename r) = true.
Proof. intros [_ Ha Hl _ _]. unfold config_target. by rewrite Ha, bool_decide_eq_true_2. Qed.

(** A replacement followed by the read-back of both mutators. *)
Lemma replaced_and_read rid root basename content mode uid gid w r w' :
  paths_named paths = true -> config_target paths rid root basename = true ->
  (let! _ := atomic_replace paths root basename content mode uid gid in
   discover_managed_config paths rid) w = (r, w') ->
  files_only paths (config_change rid) w w' /\
  forall res, r = Ok res -> config_found paths (enforce w') (w_nginx w') rid res.
Proof.
  intros Hp Ht Hr. apply mbind_inv in Hr as [(e & Ea & ->)|([] & w1 & Ea & Hd)];
    apply (atomic_replace_files rid) in Ea; try done.
  split; [etrans; [exact Ea|by eapply keeps_result; [apply discover_keeps|]]|]. intros res ->.
  destruct (quiet_result _ _ _ _ (quiet_discover_managed paths rid) Hd) as [m ->]. by apply discover_found in Hd.
Qed.

Lemma replace_managed_spec owned t rid expected content w r w' :
  paths_named paths = true -> config_found paths owned t rid expected ->
  replace_managed_config paths expected content w = (r, w') ->
  files_only paths (config_change rid) w w' /\
  forall res, r = Ok res -> config_found paths (enforce w') (w_nginx w') rid res.
Proof.
  intros Hp Hf Hr. pose proof (found_target _ _ _ _ Hf) as Ht. unfold replace_managed_config in Hr.
  rewrite (cf_id _ _ _ _ _ Hf) in Hr.
  apply mbind_inv in Hr as [(e & Ed & ->)|(cur & w1 & Ed & Hr)];
    pose proof (keeps_result _ _ _ _ _ (discover_keeps (config_change rid) rid) Ed) as F1; [done|].
  destruct (negb _); [by injection Hr as <- <-|]. destruct (_ <? _); [by injection Hr as <- <-|].
  destruct (negb _); [by injection Hr as <- <-|]. apply replaced_and_read in Hr as [F2 Hres]; try done.
  split; [by etrans|done].
Qed.

Lemma restore_managed_spec rid basename content mode uid gid w r w' :
  paths_named paths = true -> restore_managed_config paths rid basename content mode uid gid w = (r, w') ->
  files_only paths (config_change rid) w w' /\
  forall res, r = Ok res -> config_found paths (enforce w') (w_nginx w') rid res.
Proof.
  intros Hp Hr. unfold restore_managed_config in Hr.
  apply mbind_inv in Hr as [(e & Ed & ->)|(cur & w1 & Ed & Hr)];
    pose proof (keeps_result _ _ _ _ _ (discover_keeps (config_change rid) rid) Ed) as F1; [done|].
  destruct (negb _ || _) eqn:Hg; [by injection Hr as <- <-|]. bool_prop.
  apply (discover_found paths rid w cur w1 Hp) in Ed. apply replaced_and_read in Hr as [F2 Hres]; try done.
  - split; [by etrans|done].
  - rename select (cr_basename cur = basename) into Hb. rewrite <- Hb. by eapply found_target.
Qed.
End Managed.

(** ** The end of the tree walk

    [walks] is the loop as the source has it, without a bound on its rounds. *)

Section Termination.
Context `{EngineExternals}.
Context (paths : OpsPaths) (a : ManagedConfigAdapter) (root requested prefix : string).

(** One round: a directory is listed and its entries visited. *)
Definition tree_round (dir : string) (depth observed : nat) (rest : list (string * nat)) : EM TreeScan :=
  let! _ := check_root paths dir in
  let! _ := syscall SysReadConfigDir EFilesystem in
  let! entries := mget (fun w => dir_entries paths dir (w_nginx w)) in
  visit_entries paths a root requested prefix dir depth entries observed rest.

Inductive walks : nat -> list (string * nat) -> World -> oresult ManagedConfigResource -> World -> Prop :=
  | walks_done observed w : walks observed [] w (Err (ERejected "resource_missing")) w
  | walks_deep observed dir depth rest w r w' :
      (MANAGED_SERVICE_CONFIG_MAX_DEPTH < depth)%nat -> walks observed rest w r w' ->
      walks observed ((dir, depth) :: rest) w r w'
  | walks_error observed dir depth rest w e w' :
      (depth <= MANAGED_SERVICE_CONFIG_MAX_DEPTH)%nat -> tree_round dir depth observed rest w = (Err e, w') ->
      walks observed ((dir, depth) :: rest) w (Err e) w'
  | walks_found observed dir depth rest w r w' :
      (depth <= MANAGED_SERVICE_CONFIG_MAX_DEPTH)%nat ->
      tree_round dir depth observed rest w = (Ok (TreeFound r), w') ->
      walks observed ((dir, depth) :: rest) w (Ok r) w'
  | walks_next observed dir depth rest w observed' stack' w1 r w' :
      (depth <= MANAGED_SERVICE_CONFIG_MAX_DEPTH)%nat ->
      tree_round dir depth observed rest w = (Ok (TreeNext observed' stack'), w1) ->
      walks observed' stack' w1 r w' ->
      walks observed ((dir, depth) :: rest) w r w'.

(** What is left to do: the stack, and the entries that may still be seen. *)
Definition walk_measure (observed : nat) (stack : list (string * nat)) : nat :=
  length stack + (MANAGED_SERVICE_CONFIG_MAX_ENTRIES - observed).

Lemma visit_entries_measure dir depth entries observed stack w observed' stack' w' :
  visit_entries paths a root requested prefix dir depth entries observed stack w
    = (Ok (TreeNext observed' stack'), w') ->
  (observed <= MANAGED_SERVICE_CONFIG_MAX_ENTRIES)%nat ->
  (observed' <= MANAGED_SERVICE_CONFIG_MAX_ENTRIES)%nat /\
  (walk_measure observed' stack' <= walk_measure observed stack)%nat.
Proof.
  revert observed stack w. induction entries as [|[name f] rest IH]; intros observed stack w Hv Ho;
    cbn [visit_entries] in Hv; [by injection Hv as <- <- _|].
  destruct (_ <? _)%nat eqn:El; [done|]. apply Nat.ltb_ge in El. em_step Hv.
  assert (forall s w0, length s <= S (length stack) ->
    visit_entries paths a root requested prefix dir depth rest (S observed) s w0 = (Ok (TreeNext observed' stack'), w') ->
    (observed' <= MANAGED_SERVICE_CONFIG_MAX_ENTRIES)%nat /\
    (walk_measure observed' stack' <= walk_measure observed stack)%nat)%nat as Hstep.
  { intros s w0 Hs Hv'. destruct (IH _ _ _ Hv' El) as [A B]. split; [done|]. unfold walk_measure in *. lia. }
  destruct (is_some _); [eapply Hstep; [|exact Hv]; lia|]. destruct (af_is_dir f); [eapply Hstep; [|exact Hv]; simpl; lia|].
  destruct (negb _); [eapply Hstep; [|exact Hv]; lia|]. bind_inv Hv. destruct a1; [done|]. eapply Hstep; [|exact Hv]. lia.
Qed.

Lemma walk_tree_walks fuel observed stack w :
  (observed <= MANAGED_SERVICE_CONFIG_MAX_ENTRIES)%nat -> (walk_measure observed stack < fuel)%nat ->
  walks observed stack w (walk_tree paths a root requested prefix fuel observed stack w).1
    (walk_tree paths a root requested prefix fuel observed stack w).2.
Proof.
  revert observed stack w. induction fuel as [|fuel IH]; intros observed stack w Ho Hf; [lia|].
  destruct stack as [|[dir depth] rest]; [constructor|]. cbn [walk_tree].
  assert (walk_measure observed rest < fuel)%nat as Hrest by (unfold walk_measure in *; simpl in *; lia).
  destruct (_ <? depth)%nat eqn:Ed; [apply walks_deep; [by apply Nat.ltb_lt|by apply IH]|]. apply Nat.ltb_ge in Ed.
  match goal with
  | |- walks _ _ _ (?m w).1 _ =>
      replace (m w) with ((let! scan := tree_round dir depth observed rest in
         match scan with
         | TreeFound resource => mret resource
         | TreeNext o s => walk_tree paths a root requested prefix fuel o s
         end) w)
  end.
  2:{ unfold tree_round, mbind. destruct (check_root _ _ _) as [[]]; [|done]. destruct (syscall _ _ _) as [[]]; done. }
  unfold mbind. destruct (tree_round dir depth observed rest w) as [[[r|o s]|e] w1] eqn:Er.
  - by apply walks_found.
  - unfold tree_round in Er. pose proof Er as Er'. do 3 bind_inv Er'.
    destruct (visit_entries_measure _ _ _ _ _ _ _ _ _ Er' Ho) as [Ho' Hm']. eapply walks_next; [done|exact Er|].
    apply IH; [done|]. lia.
  - by apply walks_error.
Qed.
End Termination.
