(* ===== verification/EngineNginxProofs.v ===== *)
(** * jw-opsd: execution of a site-state operation, proved

    The stages of [execute_nginx] and [rollback] as [total] triples: which
    terminal stage is recorded in which state of the directories. *)

From Stdlib Require Import Ascii String.
From S2P Require Import Prelude Crypto Contracts Plans Adapters Ledger LedgerLog LedgerInv LedgerStore.
From S2P Require Import LedgerApi Text Ufw Host Snapshot Nginx EngineCore EngineNginx.
From S2P Require Import EngineLogic HostProofs.

Section NginxSpec.
Context `{EngineExternals}.
Context (cfg : Config).

(** The call ran program [class] on the tree [t] and it succeeded. *)
Definition ran (class : CommandClass) (t : NginxTree) (c : Call) : Prop :=
  exists ev, c = CallRun class t (Ok ev) /\ c_success ev = true.

(** The last programs run ([rs] is newest first): Nginx accepted the
    configuration of [t], was found active, and in between was reloaded. *)
Definition nginx_checked (t : NginxTree) (rs : list Call) : Prop :=
  exists active config rest, rs = active :: config :: rest /\ ran NginxActive t active /\ ran NginxConfigTest t config.

Definition nginx_reloaded (t : NginxTree) (rs : list Call) : Prop :=
  exists active reload config rest, rs = active :: reload :: config :: rest /\
    ran NginxActive t active /\ ran NginxReload t reload /\ ran NginxConfigTest t config.

Lemma run_ran class w ev w' :
  run class w = (Ok ev, w') -> c_success ev = true ->
  exists c, ran class (w_nginx w) c /\ runs w' = c :: runs w.
Proof. intros Hr Hs. eexists. split; [by exists ev|]. by apply (run_runs _ _ _ _ Hr). Qed.

(** The site-state execution has no fault of its own besides the storage's. *)
Definition never (w : World) : Prop := False.

(** The site is as the snapshot recorded it and Nginx runs with it. *)
Definition restored (snap : NginxLinkSnapshot) (w : World) : Prop :=
  exists site, site_in (w_nginx w) (nl_site_id snap) = Some site /\
    ns_state site = (if nl_enabled snap then Enabled else Disabled) /\
    ns_available_digest site = nl_available_digest snap /\
    ns_enabled_state_digest site = nl_enabled_state_digest snap /\
    nginx_reloaded (w_nginx w) (runs w).

Definition rolled (snap : NginxLinkSnapshot) (stage : OperationStage) (w : World) : Prop :=
  (stage = RolledBack /\ restored snap w) \/ stage = RecoveryRequired.

Lemma recovery_settled (I : NginxTree -> Prop) n now id op reason snap w :
  I (w_nginx w) -> 1 <= n -> live n now id op w -> o_stage op = RollingBack ->
  total never I w (recovery_required id reason now) (settled I id (o_plan op) (rolled snap)).
Proof. intros HI Hn Hl Hst. eapply recovery_total; try done. intros w'. by right. Qed.

(** The branches that give up: the operation is still the live one. *)
Ltac recovery_now :=
  match goal with
  | Hl : live _ _ _ _ _ |- _ =>
      by eapply recovery_settled; [..|eapply live_store; [|exact Hl]; reflexivity|]
  end.

Lemma rollback_verify_total (I : NginxTree -> Prop) n now id op snap basename config reload active w :
  I (w_nginx w) -> 1 <= n -> live n now id op w -> o_stage op = RollingBack ->
  read_enabled (w_nginx w) basename = Ok (nl_enabled snap) ->
  (forall site, site_in (w_nginx w) (nl_site_id snap) = Some site -> ns_basename site = basename) ->
  (c_success config = true -> c_success reload = true -> c_success active = true ->
   nginx_reloaded (w_nginx w) (runs w)) ->
  total never I w (rollback_verify id snap config reload active now) (settled I id (o_plan op) (rolled snap)).
Proof.
  intros HI Hn Hl Hst Hre Hb Hrl. apply total_try_quiet; [apply quiet_discover|].
  intros r mach Hd. pose proof (unrun_result _ _ _ _ (unrun_discover _) Hd) as Hru. cbv beta zeta. destruct (negb _) eqn:Hv; [recovery_now|].
  bool_prop. destruct r as [site|]; [|done]. simpl in *. bool_prop.
  pose proof (discover_site_sound _ _ _ _ Hd) as Hsite.
  assert (restored snap (with_host mach w)) as Hres.
  { destruct (site_in_inv _ _ _ Hsite) as (f & _ & He & _). rewrite (Hb _ Hsite), Hre in He.
    injection He as He. exists site. split_and!; try done; [|rewrite Hru; by apply Hrl].
    rewrite He. by destruct (ns_state site). }
  eapply total_terminal_cleanup; [done|done|by apply live_machine| | |done|done|].
  { rewrite Hst. left. }
  { expected_solver. }
  intros r w' Hf (Hg & _ & _ & Hr). eexists. split; [exact Hf|]. split_and!; [done|by rewrite Hg|].
  left. unfold restored. by rewrite Hg, Hr.
Qed.

Lemma quiet_rollback_command b c : quiet (rollback_command b c).
Proof. unfold rollback_command. quiet_solver. Qed.

Lemma rollback_command_ran b class w ev w' :
  rollback_command b class w = (Ok ev, w') -> c_success ev = true ->
  exists c, ran class (w_nginx w) c /\ runs w' = c :: runs w.
Proof. unfold rollback_command. destruct b; [apply run_ran|]. by intros [= <- _]. Qed.

(** Revalidation and reload after the link was put back. *)
Lemma rollback_reload_total (I : NginxTree -> Prop) n now id op snap basename w :
  I (w_nginx w) -> 1 <= n -> live n now id op w -> o_stage op = RollingBack ->
  read_enabled (w_nginx w) basename = Ok (nl_enabled snap) ->
  (forall site, site_in (w_nginx w) (nl_site_id snap) = Some site -> ns_basename site = basename) ->
  total never I w
    (try! config := run NginxConfigTest in
     match config with
     | Err error => recovery_required id (error_code error) now
     | Ok config =>
         try! reload := rollback_command (c_success config) NginxReload in
         match reload with
         | Err error => recovery_required id (error_code error) now
         | Ok reload =>
             try! active := rollback_command (c_success reload) NginxActive in
             match active with
             | Err error => recovery_required id (error_code error) now
             | Ok active => rollback_verify id snap config reload active now
             end
         end
     end)
    (settled I id (o_plan op) (rolled snap)).
Proof.
  intros HI Hn Hl Hst Hre Hb. apply total_try_quiet; [apply quiet_run|].
  intros [config|e] m1 Hc; [|recovery_now].
  apply total_try_quiet; [apply quiet_rollback_command|].
  intros [reload|e] m2 Hr; [|recovery_now].
  apply total_try_quiet; [apply quiet_rollback_command|].
  intros [active|e] m3 Ha; [|recovery_now].
  eapply rollback_verify_total; try done; [by eapply live_store; [|exact Hl]|]. intros Oc Or Oa.
  destruct (run_ran _ _ _ _ Hc Oc) as (c1 & R1 & E1).
  destruct (rollback_command_ran _ _ _ _ _ Hr Or) as (c2 & R2 & E2).
  destruct (rollback_command_ran _ _ _ _ _ Ha Oa) as (c3 & R3 & E3).
  exists c3, c2, c1, (runs w). split_and!; [congruence|done..].
Qed.

Lemma rollback_restore_total (I : NginxTree -> Prop) n now id op snap record w :
  I (w_nginx w) ->
  (forall site t, site_in (w_nginx w) (nl_site_id snap) = Some site ->
                  tree_frame (ns_basename site) (w_nginx w) t -> I t) ->
  1 <= n -> live n now id op w -> o_stage op = RollingBack -> snapshot_stored record snap w ->
  total never I w (rollback_restore id record now) (settled I id (o_plan op) (rolled snap)).
Proof.
  intros HI HF Hn Hl Hst Hs. apply total_try_quiet; [unfold read_nginx_snapshot; quiet_solver|].
  intros [s|e] m1 Hr; [|recovery_now].
  apply (read_stored _ _ _ _ _ _ Hs) in Hr as ->.
  apply total_try_quiet; [apply quiet_discover|].
  intros [cur|e] m2 Hd; [|recovery_now].
  apply discover_site_sound in Hd. simpl in Hd. apply total_try. intros r w1 He.
  pose proof (set_enabled_frame cur (nl_enabled snap) (with_host m2 (with_host m1 w)))
    as (Hf & Hw & _ & _). rewrite He in Hf, Hw. simpl in Hf, Hw.
  assert (I (w_nginx w1)) as HI1 by (by eapply HF).
  assert (live n now id op w1) as Hl1 by (by eapply (live_store _ _ _ _ w)).
  destruct r as [[]|e]; simpl; [|by eapply recovery_settled].
  eapply rollback_reload_total; [done|done|done|done|by eapply set_enabled_reads|].
  intros site Hsite. eapply site_in_frame; [exact Hf|exact Hd|exact Hsite].
Qed.

(** Rollback from any in-flight stage, as after a failed step or a restart. *)
Definition in_flight : list OperationStage := [Applying; Validating; Reloading; Verifying; RollingBack].

Lemma rollback_total (I : NginxTree -> Prop) n now id plan snap record stage cause digest w :
  (forall t site t', I t -> site_in t (nl_site_id snap) = Some site ->
                     tree_frame (ns_basename site) t t' -> I t') ->
  2 <= n -> staged I plan id now record snap n stage w -> stage ∈ in_flight ->
  total never I w (rollback id cause digest now) (settled I id plan (rolled snap)).
Proof.
  intros HF Hn Hst Hin. eapply (staged_rolling (A := NginxLinkSnapshot)); [done|exact Hst|right; exact Hin|expected_solver|].
  intros op w' Hp Hr (HI & Hs & op' & Hl & Hst' & Hp' & Hr') _. rewrite Hr, <- Hp'.
  eapply (rollback_restore_total I (n - 1)); try done; [|lia]. intros site t Hsin Hf. by eapply HF.
Qed.

(** ** Execution *)

(** What the terminal stage says about the world [w] it was recorded in, given
    the plan and the directories [t0] the execution started from. *)
Definition nginx_outcome (plan : StoredPlan) (t0 : NginxTree) (stage : OperationStage) (w : World) : Prop :=
  match stage with
  | Succeeded => exists site, site_in (w_nginx w) (p_site_id plan) = Some site /\
      ns_state site = p_target_state plan /\ ns_available_digest site = p_available_digest plan /\
      (if bool_decide (p_current_state plan = p_target_state plan)
       then w_nginx w = t0 /\ nginx_checked (w_nginx w) (runs w)
       else nginx_reloaded (w_nginx w) (runs w))
  | RolledBack => exists site, site_in (w_nginx w) (p_site_id plan) = Some site /\
      ns_state site = p_current_state plan /\ ns_available_digest site = p_available_digest plan /\
      ns_enabled_state_digest site = p_enabled_state_digest plan /\ nginx_reloaded (w_nginx w) (runs w)
  | CancelledBeforeApply => w_nginx w = t0
  | RecoveryRequired => True
  | _ => False
  end.

(** It depends on the directories and the programs run only. *)
Lemma nginx_outcome_same plan t0 stage w w' :
  same_host w w' -> nginx_outcome plan t0 stage w -> nginx_outcome plan t0 stage w'.
Proof. intros (Hg & _ & _ & Hr). unfold nginx_outcome. by rewrite Hg, Hr. Qed.

Section Running.
Context (plan : StoredPlan) (t0 : NginxTree) (pre : NginxSite) (id : string) (now : Z)
        (record : SnapshotRecord).
Hypothesis Hsite : site_in t0 (p_site_id plan) = Some pre.
Hypothesis Hstate : ns_state pre = p_current_state plan.
Hypothesis Havail : ns_available_digest pre = p_available_digest plan.
Hypothesis Henab : ns_enabled_state_digest pre = p_enabled_state_digest plan.

Let I := tree_frame (ns_basename pre) t0.
Let done_ := settled I id plan (nginx_outcome plan t0).

Let running := staged I plan id now record (link_snapshot pre).

Lemma frame_closed t site t' :
  I t -> site_in t (nl_site_id (link_snapshot pre)) = Some site ->
  tree_frame (ns_basename site) t t' -> I t'.
Proof.
  destruct (site_in_inv _ _ _ Hsite) as (_ & _ & _ & _ & _ & Hid). simpl. rewrite Hid. intros HI Hs Hf.
  destruct (site_in_frame _ _ _ _ _ _ HI Hsite Hs) as [Hb _]. rewrite Hb in Hf. unfold I. by etrans.
Qed.

Lemma rollback_running n stage cause digest w :
  2 <= n -> running n stage w -> stage ∈ in_flight -> total never I w (rollback id cause digest now) done_.
Proof.
  intros Hn Hrun Hin. destruct (site_in_inv _ _ _ Hsite) as (_ & _ & _ & _ & _ & Hid).
  eapply (total_weaken never I I); [done| |eapply rollback_total; [apply frame_closed|exact Hn|exact Hrun|done]].
  intros r w' (op' & Hf & Hp' & HI' & HK). exists op'. split_and!; [done|congruence|done|].
  destruct HK as [[-> (site & Hin' & Hst & Ha & He & Hrl)]| ->]; [|done].
  exists site. simpl in *. rewrite <- Hid. split_and!; try done; try congruence.
  rewrite Hst, <- Hstate. by destruct (ns_state pre).
Qed.

Lemma terminate n stage change w :
  1 <= n -> running n stage w -> stage ∈ t_expected change -> leaves_active change ->
  t_now_ms change = now -> is_terminal (t_next change) = true ->
  nginx_outcome plan t0 (t_next change) w -> total never I w (conclude id change) done_.
Proof.
  intros Hn Hrun Hin Ha Hnow Ht Hout. pose proof Hrun as (HI & _).
  eapply (staged_conclude (A := NginxLinkSnapshot)); try done. intros op r w' Hp Hf Hg. eexists. split; [exact Hf|].
  cbn [transition_op o_plan o_stage]. split_and!; [done|by rewrite (proj1 Hg)|by eapply nginx_outcome_same].
Qed.

Lemma verify_nginx_total n snapshotted w :
  2 <= n -> running n Verifying w -> o_operation_id snapshotted = id -> o_plan snapshotted = plan ->
  p_current_state plan <> p_target_state plan ->
  (exists reload config rest, runs w = reload :: config :: rest /\
     ran NginxReload (w_nginx w) reload /\ ran NginxConfigTest (w_nginx w) config) ->
  total never I w (verify_nginx snapshotted now) done_.
Proof.
  intros Hn Hrun Hid Hp Hne (reload & config & rest & Hrs & Hrel & Hcfg). unfold verify_nginx. rewrite Hid, Hp.
  assert (Verifying ∈ in_flight) as Hin by (unfold in_flight; set_solver).
  apply total_try_quiet; [apply quiet_discover|].
  intros [after|e] m1 Hd; [|by eapply rollback_running; [..|apply (staged_machine (A := NginxLinkSnapshot))|]].
  pose proof (unrun_result _ _ _ _ (unrun_discover _) Hd) as Hru.
  apply discover_site_sound in Hd. apply total_try_quiet; [apply quiet_run|].
  intros [active|e] m2 Ha; [|by eapply rollback_running; [..|do 2 apply (staged_machine (A := NginxLinkSnapshot))|]].
  destruct (_ || _) eqn:Hv; [by eapply rollback_running; [..|do 2 apply (staged_machine (A := NginxLinkSnapshot))|]|]. bool_prop.
  eapply (terminate n); [lia|by do 2 apply (staged_machine (A := NginxLinkSnapshot))|left|expected_solver|done|done|].
  destruct (run_ran _ _ _ _ Ha ltac:(assumption)) as (c3 & R3 & E3).
  exists after. split_and!; try done. rewrite bool_decide_eq_false_2 by done.
  exists c3, reload, config, rest. split_and!; [congruence|done..].
Qed.

Lemma validate_and_reload_total n snapshotted w :
  4 <= n -> running n Validating w -> o_operation_id snapshotted = id -> o_plan snapshotted = plan ->
  p_current_state plan <> p_target_state plan ->
  total never I w (validate_and_reload snapshotted now) done_.
Proof.
  intros Hn Hrun Hid Hp Hne. unfold validate_and_reload. rewrite Hid.
  apply total_try_quiet; [apply quiet_run|].
  intros [config|e] m1 Hc; [|eapply (rollback_running n); [lia|by apply (staged_machine (A := NginxLinkSnapshot))|set_solver]].
  destruct (negb _) eqn:Hok; [eapply (rollback_running n); [lia|by apply (staged_machine (A := NginxLinkSnapshot))|set_solver]|].
  bool_prop. destruct (run_ran _ _ _ _ Hc Hok) as (c1 & R1 & E1).
  eapply (staged_advance (A := NginxLinkSnapshot) _ _ _ _ _ _ _ n); [lia|by apply (staged_machine (A := NginxLinkSnapshot))|left|expected_solver|done|].
  intros _ w1 _ _ Hrun1 (Hg1 & _ & _ & Hr1). simpl in Hg1. apply total_try_quiet; [apply quiet_run|].
  intros [reload|e] m2 Hr; [|eapply (rollback_running (n - 1)); [lia|by apply (staged_machine (A := NginxLinkSnapshot))|set_solver]].
  destruct (negb _) eqn:Hok'; [eapply (rollback_running (n - 1)); [lia|by apply (staged_machine (A := NginxLinkSnapshot))|set_solver]|].
  bool_prop. destruct (run_ran _ _ _ _ Hr Hok') as (c2 & R2 & E2).
  eapply (staged_advance (A := NginxLinkSnapshot) _ _ _ _ _ _ _ (n - 1)); [lia|by apply (staged_machine (A := NginxLinkSnapshot))|left|expected_solver|done|].
  intros _ w2 _ _ Hrun2 (Hg2 & _ & _ & Hr2). simpl in Hg2. eapply (verify_nginx_total (n - 1 - 1)); try done; [lia|].
  exists c2, c1, (runs w). rewrite Hg2. split_and!; [congruence|done|by rewrite Hg1].
Qed.

Lemma apply_nginx_total n snapshotted w :
  6 <= n -> running n Snapshotted w -> o_operation_id snapshotted = id -> o_plan snapshotted = plan ->
  p_current_state plan <> p_target_state plan ->
  total never I w (apply_nginx pre snapshotted now) done_.
Proof.
  intros Hn Hrun Hid Hp Hne. unfold apply_nginx. rewrite Hid.
  eapply (staged_advance (A := NginxLinkSnapshot) _ _ _ _ _ _ _ n); [lia|done|left|expected_solver|done|]. intros _ w1 _ _ Hrun1 _.
  apply total_try. intros r w2 He.
  set (b := bool_decide _) in He. destruct (set_enabled_frame pre b w1) as (Hf & Hw & Hsn & _).
  rewrite He in Hf, Hw, Hsn. simpl in Hf, Hw, Hsn.
  assert (running (n - 1) Applying w2) as Hrun2.
  { eapply (staged_host (A := NginxLinkSnapshot)); [exact Hw|exact Hsn| |exact Hrun1]. destruct Hrun1 as (HI & _). unfold I in *. by etrans. }
  destruct r as [[]|e]; [|eapply (rollback_running (n - 1)); [lia|done|set_solver]].
  eapply (staged_advance (A := NginxLinkSnapshot) _ _ _ _ _ _ _ (n - 1)); [lia|done|left|expected_solver|done|]. intros _ w3 _ _ Hrun3 _.
  eapply (validate_and_reload_total (n - 1 - 1)); try done. lia.
Qed.

(** Nothing to change: validate the running configuration only. *)
Lemma finish_noop_total n snapshotted w :
  2 <= n -> running n Snapshotted w -> o_operation_id snapshotted = id -> o_plan snapshotted = plan ->
  w_nginx w = t0 -> p_current_state plan = p_target_state plan ->
  total never I w (finish_noop snapshotted now) done_.
Proof.
  intros Hn Hrun Hid Hp Ht Hsame. unfold finish_noop, cancel_noop. rewrite Hid.
  eapply (staged_advance (A := NginxLinkSnapshot) _ _ _ _ _ _ _ n); [lia|done|left|expected_solver|done|]. intros _ w1 _ _ Hrun1 (Hg1 & _ & _ & Hr1).
  assert (forall w2 code digest, running (n - 1) Verifying w2 -> w_nginx w2 = t0 ->
    total never I w2 (conclude id (change [Verifying] CancelledBeforeApply code digest None None now)) done_)
    as Hcancel.
  { intros w2 code digest Hrun2 Hg2. eapply (terminate (n - 1)); [lia|done|left|expected_solver|done|done|done]. }
  apply total_try_quiet; [apply quiet_run|].
  intros [config|e] m1 Hc; [|apply Hcancel; [by apply (staged_machine (A := NginxLinkSnapshot))|by simpl; congruence]].
  apply total_try_quiet; [apply quiet_run|].
  intros [active|e] m2 Ha; [|apply Hcancel; [by do 2 apply (staged_machine (A := NginxLinkSnapshot))|by simpl; congruence]].
  destruct (_ || _) eqn:Hv; [apply Hcancel; [by do 2 apply (staged_machine (A := NginxLinkSnapshot))|by simpl; congruence]|]. bool_prop.
  eapply (terminate (n - 1)); [lia|by do 2 apply (staged_machine (A := NginxLinkSnapshot))|left|expected_solver|done|done|].
  destruct (run_ran _ _ _ _ Hc ltac:(assumption)) as (c1 & R1 & E1).
  destruct (run_ran _ _ _ _ Ha ltac:(assumption)) as (c2 & R2 & E2).
  exists pre. cbn [w_nginx with_host] in *. rewrite bool_decide_eq_true_2 by done.
  split_and!; [by rewrite Hg1, Ht|congruence|done|congruence|].
  exists c2, c1, (runs w1). by split_and!; [congruence|..].
Qed.
End Running.

(** Nothing changed, or the link of the planned site alone, which is not a
    protected one. *)
Definition planned_link_only (plan : StoredPlan) (t0 t : NginxTree) : Prop :=
  t = t0 \/ exists site, site_in t0 (p_site_id plan) = Some site /\ ns_protected site = false /\
                         tree_frame (ns_basename site) t0 t.

Lemma validate_precondition_ok op w site w' :
  validate_precondition op w = (Ok site, w') ->
  site_in (w_nginx w) (p_site_id (o_plan op)) = Some site /\ ns_protected site = false /\
  ns_available_digest site = p_available_digest (o_plan op) /\
  ns_enabled_state_digest site = p_enabled_state_digest (o_plan op) /\
  ns_state site = p_current_state (o_plan op) /\ exists m, w' = with_host m w.
Proof.
  unfold validate_precondition. intros Hv. bind_inv Hv.
  destruct (quiet_result _ _ _ _ (quiet_discover _) Hm) as [m ->]. apply discover_site_sound in Hm.
  destruct (ns_protected a) eqn:Hp; [done|]. destruct (_ || _) eqn:Hc; [done|]. injection Hv as <- <-.
  bool_prop. split_and!; try done. by eexists.
Qed.

Lemma quiet_precondition op : quiet (validate_precondition op).
Proof. unfold validate_precondition. quiet_solver. Qed.

Lemma cancel_approved_total (J : NginxTree -> Prop) n now id op error t0 w :
  J (w_nginx w) -> 1 <= n -> live n now id op w -> o_stage op = Approved -> w_nginx w = t0 ->
  total never J w (cancel_approved op error now)
    (settled J id (o_plan op) (nginx_outcome (o_plan op) t0)).
Proof.
  intros HJ Hn Hl Hst Ht. unfold cancel_approved. rewrite (live_id _ _ _ _ _ Hl).
  eapply (total_terminal never J n); try done; [rewrite Hst; left|expected_solver|].
  intros r w' Hf Hg. eexists. split; [exact Hf|]. split_and!; [done|by rewrite (proj1 Hg)|by eapply nginx_outcome_same].
Qed.

Lemma execute_nginx_total n now id op w :
  7 <= n -> live n now id op w -> o_stage op = Approved ->
  let plan := o_plan op in let t0 := w_nginx w in
  total never (planned_link_only plan t0) w (execute_nginx cfg op now)
    (settled (planned_link_only plan t0) id plan (nginx_outcome plan t0)).
Proof.
  intros Hn Hl Hst plan t0. unfold execute_nginx. apply total_try_quiet; [apply quiet_precondition|].
  intros [pre|e] m1 Hv; [|eapply (cancel_approved_total _ n); [by left|lia|by apply live_machine|done|done]].
  apply validate_precondition_ok in Hv as (Hsite & Hprot & Ha & He & Hs & _).
  apply total_try. intros r w1 Hw. rewrite (live_id _ _ _ _ _ Hl) in *.
  destruct (write_snapshot_keeps cfg id "nginx-link.json" (to_json (link_snapshot pre)) (with_host m1 w))
    as (Hst1 & Hg1 & _).
  change (write_snapshot_bytes cfg id "nginx-link.json" (to_json (link_snapshot pre)))
    with (write_nginx_snapshot cfg id (link_snapshot pre)) in Hst1, Hg1.
  rewrite Hw in Hst1, Hg1. simpl in Hst1, Hg1.
  assert (live n now id op w1) as Hl1 by (by eapply live_store).
  destruct r as [record|e].
  2:{ eapply (cancel_approved_total _ n); [by left|lia|done|done|done]. }
  apply write_snapshot_written, written_stored in Hw.
  set (I := tree_frame (ns_basename pre) t0).
  eapply (total_weaken never I _ _ _ (settled I id plan (nginx_outcome plan t0)));
    [| |apply total_bind; eapply (total_attach never I n now id op record)];
    [..|by rewrite Hg1|lia|done|done|].
  - intros t Ht. right. by exists pre.
  - intros r w' (op' & Hf & Hp & HI & HK). exists op'. split_and!; [done|done| |done]. right. by exists pre.
  - intros w2 Hl2 (Hg2 & Hsn2 & _). cbn [attach_op o_plan].
    assert (staged I plan id now record (link_snapshot pre) (n - 1) Snapshotted w2) as Hrun.
    { split_and!; [by rewrite Hg2, Hg1| |]; [destruct Hw as [m Hm]; exists m; by rewrite Hsn2|].
      by eexists. }
    fold plan. destruct (bool_decide _) eqn:Hnoop.
    + bool_prop. eapply finish_noop_total with (n := n - 1); first [done|lia|by eapply live_id|by rewrite Hg2, Hg1].
    + bool_prop. eapply apply_nginx_total with (n := n - 1); first [done|lia|by eapply live_id].
Qed.
End NginxSpec.
