(* ===== verification/CertProofs.v ===== *)
(** * jw-opsd: certificates and the management site, proved

    What reading the inventory leaves alone, what [discover_protected_config]
    finds, and what a replacement of the management site's file changes. *)

From Stdlib Require Import Ascii String.
From S2P Require Import Prelude Crypto Contracts Plans CertContracts Adapters Ledger LedgerLog LedgerInv LedgerStore.
From S2P Require Import LedgerApi Text Ufw Host Snapshot Nginx ConfigText Diagnostics ManagedConfig.
From S2P Require Import Certificate EngineCore EngineNginx EngineCert EngineLogic HostProofs ManagedProofs.

(** ** Looking without changing

    The inventory opens the ledger, which may complete a checkpoint: the rows
    and the log stay, only the bookkeeping of the store moves. *)

Definition same_rows (db db' : Db) : Prop :=
  plans db' = plans db /\ operations db' = operations db /\ ledger_events db' = ledger_events db.

Section Observe.
Context `{EngineExternals}.

Definition observes (w w' : World) : Prop :=
  w_nginx w' = w_nginx w /\ w_snapshots w' = w_snapshots w /\ w_proposals w' = w_proposals w /\
  w_lockdown w' = w_lockdown w /\ rtc store_step (w_store w) (w_store w') /\
  same_rows (st_db (w_store w)) (st_db (w_store w')).

#[export] Instance observes_preorder : PreOrder observes.
Proof.
  split; [by intros w; split_and!|].
  intros a b c (A1 & B1 & C1 & D1 & E1 & F1 & G1 & H1) (A2 & B2 & C2 & D2 & E2 & F2 & G2 & H2).
  repeat split; try congruence. by etrans.
Qed.

Lemma open_rows st : same_rows (st_db st) (st_db (open st).2).
Proof.
  assert (forall A (m : LM A) (k : A -> LM unit) st0, env_only m ->
    (forall a st1, st_db st1 = st_db st0 -> same_rows (st_db st0) (st_db (k a st1).2)) ->
    same_rows (st_db st0) (st_db (mbind m k st0).2)) as Hb.
  { intros A m k st0 Hm Hk. unfold mbind. destruct (Hm st0) as [E _]. destruct (m st0) as [[a|e] st1].
    - by apply Hk.
    - simpl in *. by rewrite E. }
  unfold open. apply Hb; [apply env_only_prepare|]. intros _ st1 <-.
  apply Hb; [apply env_only_connection|]. intros _ st2 <-. apply Hb; [apply env_only_migrate|]. intros _ st3 <-.
  apply Hb; [apply env_only_secure|]. intros _ st4 <-. apply Hb; [done|]. intros _ st5 <-.
  destruct (complete_rows st5) as (A & B & _ & _ & C & _). by split_and!.
Qed.

Lemma observes_quiet {A} (m : EM A) : quiet m -> keeps observes m.
Proof. apply keeps_quiet. intros mach w. by split_and!. Qed.

Lemma observes_open : keeps observes (ledger open).
Proof.
  intros w. unfold ledger. destruct (ask_sys _ _) as [ok h]. pose proof (open_rows (set_io ok (w_store w))) as Hr.
  pose proof (steps_open (set_io ok (w_store w))) as Hs. destruct (open _) as [r st']. simpl in *.
  split_and!; try done; try apply Hr. eapply rtc_l; [apply set_io_step|exact Hs].
Qed.

Lemma live_observes n now id op w w' : observes w w' -> live n now id op w -> live n now id op w'.
Proof.
  intros (_ & _ & _ & _ & Hs & Hp & Ho & He) [Hi Hop Hr Ht Hn]. constructor.
  - by eapply store_steps_inv.
  - by rewrite (load_operation_ext _ _ _ Hp Ho).
  - by rewrite He.
  - unfold times_ok. by rewrite He.
  - done.
Qed.

Lemma staged_observes {A} `{Json A} (I : NginxTree -> Prop) plan id now record (snap : A) n stage w w' :
  observes w w' -> staged I plan id now record snap n stage w -> staged I plan id now record snap n stage w'.
Proof.
  intros Hob (HI & [m Hm] & op & Hl & Hop). pose proof Hob as (Hg & Hsn & _).
  split_and!; [by rewrite Hg|exists m; by rewrite Hsn|]. exists op. split; [by eapply live_observes|done].
Qed.

(** ** The certificate handlers look only *)

Context (paths : OpsPaths).

Lemma quiet_stat path : quiet (stat_cert path).
Proof. unfold stat_cert, certificates_now. quiet_solver. Qed.
Lemma quiet_canonicalize path : quiet (canonicalize path).
Proof. unfold canonicalize, certificates_now. quiet_solver. Qed.
#[local] Hint Resolve quiet_stat quiet_canonicalize : quiet.

Lemma quiet_directory path : quiet (validate_directory path).
Proof. unfold validate_directory. quiet_solver. Qed.
Lemma quiet_target domain path private : quiet (validate_lineage_target paths domain path private).
Proof. unfold validate_lineage_target. quiet_solver. Qed.
#[local] Hint Resolve quiet_directory quiet_target : quiet.

Lemma quiet_lineage domain : quiet (inspect_lineage paths domain).
Proof.
  unfold inspect_lineage, validate_regular_file, read_renewal, inspect_x509, certificates_now. quiet_solver.
Qed.
#[local] Hint Resolve quiet_lineage : quiet.

Lemma quiet_lineages domains : quiet (inspect_lineages paths domains).
Proof. induction domains as [|d ds IH]; simpl; quiet_solver. Qed.
#[local] Hint Resolve quiet_lineages : quiet.

Lemma quiet_certificates now : quiet (certificate_inventory paths now).
Proof. unfold certificate_inventory, probe, discover_certificates, certificates_now. quiet_solver. Qed.

Lemma quiet_issue_site site digest domains : quiet (validate_issue_site paths site digest domains).
Proof. unfold validate_issue_site, read_available_content. quiet_solver. Qed.

Lemma quiet_protected sid : quiet (discover_protected_config paths sid).
Proof. unfold discover_protected_config, read_available_content. quiet_solver. Qed.
Lemma unrun_protected sid : unrun (discover_protected_config paths sid).
Proof. unfold discover_protected_config, read_available_content. unrun_solver. Qed.

Lemma quiet_attachment domain site digest : quiet (prepare_tls_attachment paths domain site digest).
Proof. pose proof quiet_protected. unfold prepare_tls_attachment. quiet_solver. Qed.

Lemma quiet_certbot command now : quiet (certbot_run command now).
Proof. unfold certbot_run. quiet_solver. Qed.

Lemma quiet_healthy : quiet require_nginx_healthy.
Proof. unfold require_nginx_healthy. quiet_solver. Qed.
End Observe.

#[export] Hint Resolve quiet_directory quiet_certificates quiet_issue_site quiet_protected quiet_attachment
  quiet_certbot quiet_healthy : quiet.
#[export] Hint Resolve unrun_protected : unrun.

Section Inventory.
Context `{EngineExternals}.
Context (cfg : Config).

Lemma observes_inventory now : keeps observes (engine_certificate_inventory cfg now).
Proof.
  unfold engine_certificate_inventory.
  apply keeps_bind; [exact _|by apply observes_quiet, quiet_certificates|]. intros inventory.
  apply keeps_bind; [exact _|apply observes_quiet; quiet_solver|]. intros locked.
  destruct (_ || _); [apply observes_quiet; quiet_solver|].
  apply keeps_try; [exact _|apply observes_open|]. intros r. apply observes_quiet. quiet_solver.
Qed.

Lemma inventory_observes now w r w' : engine_certificate_inventory cfg now w = (r, w') -> observes w w'.
Proof. intros E. by eapply keeps_result; [apply observes_inventory|]. Qed.
End Inventory.

(** ** Programs and exchanges *)

Section Runs.
Context `{EngineExternals}.
Context (cfg : Config).
Let paths := cf_paths cfg.

Lemma unrun_stat path : unrun (stat_cert path).
Proof. unfold stat_cert, certificates_now. unrun_solver. Qed.
Lemma unrun_canonicalize path : unrun (canonicalize path).
Proof. unfold canonicalize, certificates_now. unrun_solver. Qed.
#[local] Hint Resolve unrun_stat unrun_canonicalize : unrun.
Lemma unrun_directory path : unrun (validate_directory path).
Proof. unfold validate_directory. unrun_solver. Qed.
Lemma unrun_target domain path private : unrun (validate_lineage_target paths domain path private).
Proof. unfold validate_lineage_target. unrun_solver. Qed.
#[local] Hint Resolve unrun_directory unrun_target : unrun.

Lemma unrun_lineage domain : unrun (inspect_lineage paths domain).
Proof.
  unfold inspect_lineage, validate_regular_file, read_renewal, inspect_x509, certificates_now. unrun_solver.
Qed.
#[local] Hint Resolve unrun_lineage : unrun.
Lemma unrun_lineages domains : unrun (inspect_lineages paths domains).
Proof. induction domains as [|d ds IH]; simpl; unrun_solver. Qed.
#[local] Hint Resolve unrun_lineages : unrun.
Lemma unrun_certificates : unrun (discover_certificates paths).
Proof. unfold discover_certificates, certificates_now. unrun_solver. Qed.

Lemma unrun_attachment domain site digest : unrun (prepare_tls_attachment paths domain site digest).
Proof. pose proof unrun_protected. unfold prepare_tls_attachment. unrun_solver. Qed.
Lemma unrun_issue_site site digest domains : unrun (validate_issue_site paths site digest domains).
Proof. unfold validate_issue_site, read_available_content. unrun_solver. Qed.

(** The inventory asks for the timer twice and runs nothing else. *)
Definition timer_checked (enabled active : bool) (t : NginxTree) (before after : list Call) : Prop :=
  exists e a, after = CallRun CertbotTimerActive t a :: CallRun CertbotTimerEnabled t e :: before /\
    is_ok_and e c_success = enabled /\ is_ok_and a c_success = active.

Lemma certificate_inventory_runs now w r w' :
  certificate_inventory paths now w = (r, w') ->
  exists enabled active, timer_checked enabled active (w_nginx w) (runs w) (runs w') /\
    forall inv, r = Ok inv -> iv_timer_enabled inv = enabled /\ iv_timer_active inv = active.
Proof.
  unfold certificate_inventory, probe, mbind, mtry, mget, mret.
  destruct (run CertbotTimerEnabled w) as [e w1] eqn:E1. destruct (run CertbotTimerActive w1) as [a w2] eqn:E2.
  destruct (run_runs _ _ _ _ E1) as [R1 _]. destruct (run_runs _ _ _ _ E2) as [R2 _].
  destruct (quiet_result _ _ _ _ (quiet_run _) E1) as [h ->]. simpl in R2. rewrite R1 in R2.
  pose proof (unrun_certificates w2) as Hu. destruct (discover_certificates paths w2) as [[[cs ps]|err] w3]; simpl in Hu.
  2:{ intros [= <- <-]. exists (is_ok_and e c_success), (is_ok_and a c_success). split; [|done].
      exists e, a. by rewrite Hu. }
  intros Hr. exists (is_ok_and e c_success), (is_ok_and a c_success). cbn [fst] in Hr.
  unfold mlift in Hr. destruct (format_time now) as [t|err]; injection Hr as <- <-;
    (split; [exists e, a; by rewrite Hu|]); [|done]. by intros inv [= <-].
Qed.

Lemma certificates_listed_runs now w r w' :
  engine_certificate_inventory cfg now w = (r, w') ->
  exists enabled active, timer_checked enabled active (w_nginx w) (runs w) (runs w') /\
    forall inv, r = Ok inv -> iv_timer_enabled inv = enabled /\ iv_timer_active inv = active.
Proof.
  unfold engine_certificate_inventory. intros Hi.
  apply mbind_inv in Hi as [(e & Hc & ->)|(inv & w1 & Hc & Hi)]; apply certificate_inventory_runs in Hc as (en & ac & Hr & Hf);
    exists en, ac; [by split|]. specialize (Hf inv eq_refl).
  apply mbind_inv in Hi as [(e & Hc & _)|(locked & w2 & Hc & Hi)]; [done|]. injection Hc as <- <-.
  destruct (_ || _); [injection Hi as <- <-; split; [done|by intros ? [= <-]]|].
  unfold mtry in Hi. pose proof (unrun_ledger open w1) as Hu. destruct (ledger open w1) as [o w2]. simpl in Hu.
  destruct (is_err o); injection Hi as <- <-; rewrite Hu; (split; [done|by intros ? [= <-]]).
Qed.

(** A command the certificate daemon completed. *)
Definition certd_completed (command : CertbotCommand) (evidence : CertbotCommandEvidence) (c : Call) : Prop :=
  exists request response, c = CallCertd request (Some response) /\ cq_command request = command /\
    command_validate command = Ok tt /\ cs_request_id response = cq_request_id request /\
    cs_result response = CertCompleted evidence.

Lemma certbot_run_ok command now w evidence w' :
  certbot_run command now w = (Ok evidence, w') ->
  exists c, runs w' = c :: runs w /\ certd_completed command evidence c /\ validate_evidence command evidence = Ok tt.
Proof.
  unfold certbot_run. intros Hr. bind_inv Hr. pose proof (unrun_result _ _ _ _ unrun_identifier Hm) as Hu.
  destruct (quiet_result _ _ _ _ quiet_identifier Hm) as [h ->]. cbv zeta in Hr. bind_inv Hr.
  unfold mlift, map_err in Hm0. destruct (command_request_validate _ _) as [[]|] eqn:Hv; [|done].
  injection Hm0 as <- <-. bind_inv Hr. unfold exchange_certd, ask_certd in Hm0.
  destruct (certd_exchange _ _) as [[response|] m] eqn:Ex; [|done]. injection Hm0 as <- <-.
  destruct (_ || _) eqn:Hid; [done|]. bool_prop. destruct (cs_result response) as [ev|code] eqn:Ers; [|done].
  bind_inv Hr. unfold mlift in Hm0. destruct (validate_evidence command ev) as [[]|] eqn:Hev; [|done].
  injection Hm0 as <- <-. injection Hr as <- <-.
  eexists. split; [|split; [|exact Hev]]; [rewrite <- Hu; reflexivity|].
  exists {| cq_protocol_version := IPC_PROTOCOL_VERSION; cq_request_id := a;
            cq_deadline_unix_ms := sat_add now CERTBOT_TIMEOUT_MS; cq_command := command |}, response.
  split_and!; try done. unfold command_request_validate in Hv. cbn [cq_command] in Hv.
  break_in Hv.
Qed.
End Runs.

(** ** The management site's file *)

Section Protected.
Context `{EngineExternals}.
Context (paths : OpsPaths).

Lemma find_site_inv requested entries basename f :
  find_site requested entries = Ok (basename, f) ->
  nginx_internal_temporary_name basename = false /\ nginx_site_id NGINX_LAYOUT_ID basename = requested.
Proof.
  induction entries as [|[name g] rest IH]; [done|]. simpl. destruct (safe_basename name) as [b|]; [|done].
  simpl. destruct (nginx_internal_temporary_name b) eqn:Et; [done|]. case_bool_decide as Hid; simpl; [|done].
  by intros [= <- <-].
Qed.

(** The file [sid] stands for. *)
Definition site_target (sid dir name : string) : Prop :=
  dir = pa_nginx_available paths /\ nginx_site_id NGINX_LAYOUT_ID name = sid.

(** An enabled management site, as the daemon reads it from [t]. *)
Record protected_found (owned : bool) (t : NginxTree) (sid : string) (r : ManagedConfigResource) : Prop := {
  pf_id : cr_resource_id r = sid;
  pf_target : site_target sid (cr_root r) (cr_basename r);
  pf_name : nginx_internal_temporary_name (cr_basename r) = false;
  pf_enabled : read_enabled t (cr_basename r) = Ok true;
  pf_file : exists f, dir_entry paths (cr_root r) (cr_basename r) t = Some f /\
              manageable owned AdNginx f /\ nginx_management_config (af_bytes f) = true /\
              r = resource_of AdNginx sid (cr_basename r) (cr_basename r) (cr_root r) f;
}.

Lemma protected_discovered sid w r w' :
  discover_protected_config paths sid w = (Ok r, w') -> protected_found (enforce w) (w_nginx w) sid r.
Proof.
  unfold discover_protected_config. intros Hd. bind_inv Hd. pose proof (discover_site_sound _ _ _ _ Hm) as Hs.
  destruct (quiet_result _ _ _ _ (quiet_discover sid) Hm) as [m ->].
  destruct (site_in_inv _ _ _ Hs) as (f0 & Hf0 & He & _). apply find_site_inv in Hf0 as [Hn Hid].
  destruct (_ || _) eqn:Hst in Hd; [done|]. bool_prop. rename select (ns_state a = Enabled) into Hena.
  rewrite bool_decide_eq_true_2 in He by done.
  assert (ns_site_id a = sid) as Hsid.
  { unfold site_in in Hs. destruct (find_site _ _) as [[b g]|]; [|done]. destruct (read_enabled _ _); [|done].
    by injection Hs as <-. }
  em_step Hd. bind_inv Hd. unfold ok_or, mlift in Hm0. simpl in Hm0.
  destruct (find_entry _ _) as [f|] eqn:Hf; [|done]. injection Hm0 as <- <-.
  bind_inv Hd. destruct a0 as [bytes protected]. destruct (available_content_inv _ _ _ _ Hm0) as [Eb Ep].
  simpl in Eb, Ep. subst bytes protected. destruct (quiet_result _ _ _ _ (quiet_available f) Hm0) as [m' ->].
  do 3 em_step Hd. destruct a0, a1. destruct (_ || _) eqn:Hg in Hd; [done|]. bool_prop.
  destruct (negb _) eqn:Eb in Hd; [done|]. apply negb_false_iff in Eb. injection Hd as <- _.
  constructor; simpl; try done. exists f. split_and!; try done.
  - unfold dir_entry. by rewrite bool_decide_eq_true_2.
  - by rewrite Hsid.
Qed.

(** What an attachment may change: the site's file and the daemon's temporaries. *)
Definition site_change (sid dir name : string) : Prop :=
  nginx_internal_temporary_name name = true \/ site_target sid dir name.

Lemma atomic_replace_site sid root basename content mode uid gid w r w' :
  site_target sid root basename -> nginx_internal_temporary_name basename = false ->
  atomic_replace paths root basename content mode uid gid w = (r, w') -> files_only paths (site_change sid) w w'.
Proof.
  intros Ht Hn Ha.
  destruct (atomic_replace_spec paths _ _ _ _ _ _ _ _ _ Hn Ha) as (A & B & C & D & E & [[_ F]|[_ F]]);
    split_and!; try done; eapply touches_mono; try exact F; cbv beta.
  - intros d n [-> ->]. by right.
  - intros d n [_ Hx]. by left.
Qed.

Lemma protected_keeps P sid : keeps (files_only paths P) (discover_protected_config paths sid).
Proof. apply files_read; [apply quiet_protected|apply unrun_protected]. Qed.

Lemma replace_protected_spec owned t sid expected content w r w' :
  protected_found owned t sid expected -> replace_protected_config paths expected content w = (r, w') ->
  files_only paths (site_change sid) w w' /\
  forall res, r = Ok res -> protected_found (enforce w') (w_nginx w') sid res.
Proof.
  intros Hf Hr. unfold replace_protected_config in Hr. rewrite (pf_id _ _ _ _ Hf) in Hr.
  apply mbind_inv in Hr as [(e & Ed & ->)|(cur & w1 & Ed & Hr)];
    pose proof (keeps_result _ _ _ _ _ (protected_keeps (site_change sid) sid) Ed) as F1; [done|].
  destruct (_ || _); [by injection Hr as <- <-|]. destruct (_ || _); [by injection Hr as <- <-|].
  apply mbind_inv in Hr as [(e & Ea & ->)|([] & w2 & Ea & Hd)];
    apply (atomic_replace_site sid) in Ea; try apply Hf; [split; [by etrans|done]|].
  split; [etrans; [exact F1|etrans; [exact Ea|by eapply keeps_result; [apply protected_keeps|]]]|].
  intros res ->. destruct (quiet_result _ _ _ _ (quiet_protected paths sid) Hd) as [m ->].
  by apply protected_discovered in Hd.
Qed.

Lemma restore_protected_spec sid basename content mode uid gid w r w' :
  restore_protected_config paths sid basename content mode uid gid w = (r, w') ->
  files_only paths (site_change sid) w w' /\
  forall res, r = Ok res -> protected_found (enforce w') (w_nginx w') sid res.
Proof.
  intros Hr. unfold restore_protected_config in Hr.
  apply mbind_inv in Hr as [(e & Ed & ->)|(cur & w1 & Ed & Hr)];
    pose proof (keeps_result _ _ _ _ _ (protected_keeps (site_change sid) sid) Ed) as F1; [done|].
  destruct (_ || _) eqn:Hg; [by injection Hr as <- <-|]. bool_prop. rename select (cr_basename cur = basename) into Hb.
  apply protected_discovered in Ed.
  apply mbind_inv in Hr as [(e & Ea & ->)|([] & w2 & Ea & Hr)];
    apply (atomic_replace_site sid) in Ea; try (rewrite <- Hb; apply Ed); [split; [by etrans|done]|].
  apply mbind_inv in Hr as [(e & Ed2 & ->)|(res0 & w3 & Ed2 & Hr)];
    pose proof (keeps_result _ _ _ _ _ (protected_keeps (site_change sid) sid) Ed2) as F3;
    [split; [etrans; [exact F1|by etrans]|done]|].
  destruct (quiet_result _ _ _ _ (quiet_protected paths sid) Ed2) as [m ->]. apply protected_discovered in Ed2.
  destruct (_ && _); injection Hr as <- <-; (split; [etrans; [exact F1|by etrans]|]); [|done].
  by intros res [= <-].
Qed.
End Protected.
