(* ===== verification/EngineConfigProofs.v ===== *)
(** * jw-opsd: execution of a managed-configuration operation, proved

    The stages of [execute_managed_config] and its rollback as [total]
    triples: which terminal stage is recorded in which state of the
    directories, and after which programs. *)

From Stdlib Require Import Ascii String.
From S2P Require Import Prelude Crypto Contracts Plans Adapters Ledger LedgerLog LedgerInv LedgerStore.
From S2P Require Import LedgerApi Text Ufw Host Snapshot Nginx ConfigText Diagnostics ManagedConfig.
From S2P Require Import EngineCore EngineNginx EngineConfig EngineLogic HostProofs EngineNginxProofs.
From S2P Require Import ManagedProofs.

Section Evidence.
Context `{EngineExternals}.

(** The last program run returned [ev]. *)
Definition last_ran (ev : CommandEvidence) (w : World) : Prop :=
  exists class t, head (runs w) = Some (CallRun class t (Ok ev)).

(** The last program run returned evidence the ledger does not accept. *)
Definition evidence_fault (w : World) : Prop :=
  exists ev, last_ran ev w /\ is_err (command_validate_shape (command_evidence_view ev)) = true.

Lemma last_ran_same ev w w' : same_host w w' -> last_ran ev w -> last_ran ev w'.
Proof. intros (_ & _ & _ & Hr) (class & t & Hh). exists class, t. by rewrite Hr. Qed.

Lemma run_last class w ev w' : run class w = (Ok ev, w') -> last_ran ev w'.
Proof. intros Hr. exists class, (w_nginx w). by rewrite (proj1 (run_runs _ _ _ _ Hr)). Qed.

Lemma command_refused ev w :
  last_ran ev w -> is_err (command_validate_shape (command_evidence_view ev)) = true ->
  forall w', same_host w w' -> evidence_fault w'.
Proof. intros Hl He w' Hs. exists ev. split; [by eapply last_ran_same|done]. Qed.

(** A transition recorded with the evidence of the last program. *)
Lemma recorded_command id op change ev w :
  last_ran ev w -> t_evidence_digest change = command_digest ev ->
  recorded evidence_fault w id op change
    (transition_with_command_evidence id change (command_evidence_view ev)).
Proof.
  intros Hl Hd. unfold transition_with_command_evidence, prepare_command_evidence. rewrite Hd.
  unfold command_digest at 1. rewrite bool_decide_eq_true_2 by done. simpl. rewrite orb_false_r.
  destruct (is_err _) eqn:He; [right; split; [by eexists|by eapply command_refused]|].
  left. exists (t_evidence_digest change), None, (Some (to_json (command_evidence_view ev))).
  split_and!; [|done|by destruct change]. exists (command_digest ev). split; [done|].
  exists (command_evidence_view ev). unfold prepare_command_evidence, command_digest.
  by rewrite He, bool_decide_eq_true_2.
Qed.

Definition diagnostics_ok (diagnostics : list ManagedConfigDiagnosticView) : Prop :=
  Forall (fun d => diagnostic_validate_shape d = Ok tt) diagnostics /\
  Z.of_nat (length diagnostics) <= MANAGED_CONFIG_DIAGNOSTIC_MAX_ENTRIES.

Lemma diagnostics_bounded_ok diagnostics :
  diagnostics_ok diagnostics -> diagnostics <> [] -> diagnostics_bounded diagnostics = true.
Proof.
  intros [Hv Hl] Hne. unfold diagnostics_bounded. rewrite bool_decide_eq_false_2 by done.
  replace (_ <? _) with false by (symmetry; apply Z.ltb_ge; lia). simpl. apply negb_true_iff.
  clear Hl Hne. induction Hv as [|d l Hd _ IH]; [done|]. simpl. by rewrite Hd, IH.
Qed.

Lemma command_digest_valid ev : validate_digest (command_digest ev) = Ok tt.
Proof. apply sha256_digest_valid. Qed.

(** What a rollback may record about its cause. *)
Definition evidence_ok (plan : StoredPlan) (e : RollbackEvidence) (w : World) : Prop :=
  match re_command e with
  | None => re_diagnostics e = []
  | Some command => exists ev, last_ran ev w /\ command = command_evidence_view ev /\
      re_digest e = command_digest ev /\ diagnostics_ok (re_diagnostics e) /\ is_managed_config plan = true
  end.

Lemma evidence_same plan e w w' : same_host w w' -> evidence_ok plan e w -> evidence_ok plan e w'.
Proof.
  intros Hs. unfold evidence_ok. destruct (re_command e) as [c|]; [|done].
  intros (ev & Hl & Hc). exists ev. split; [by eapply last_ran_same|done].
Qed.

Lemma recorded_rollback id op e now w :
  evidence_ok (o_plan op) e w ->
  recorded evidence_fault w id op
    (change [Applying; Validating; Reloading; Verifying; RollingBack] RollingBack (re_cause e) (re_digest e)
       None None now) (rollback_transition id e now).
Proof.
  unfold evidence_ok, rollback_transition. destruct e as [cause digest diagnostics [command|]]; simpl.
  2:{ intros ->. apply recorded_transition. }
  intros (ev & Hl & -> & -> & Hd & Hm). set (t := change _ _ _ _ _ _ _).
  destruct diagnostics as [|d ds]; [by apply recorded_command|].
  unfold transition_with_diagnostics_and_command. rewrite bool_decide_eq_false_2 by done.
  pose proof (diagnostics_bounded_ok _ Hd ltac:(done)) as Hb.
  change (t_evidence_digest t) with (command_digest ev).
  unfold prepare_command_evidence at 1. rewrite bool_decide_eq_true_2 by done. simpl. rewrite orb_false_r.
  destruct (is_err _) eqn:He; [right; split; [by eexists|by eapply command_refused]|]. left.
  destruct (prepare_diagnostics (command_digest ev) (d :: ds)) as [[stored combined]|] eqn:Ep.
  2:{ unfold prepare_diagnostics in Ep. by rewrite Hb, command_digest_valid in Ep. }
  exists combined, (Some stored), (Some (to_json (command_evidence_view ev))).
  split_and!; [|done|done].
  exists (command_digest ev). split; [by exists (d :: ds)|]. exists (command_evidence_view ev).
  unfold prepare_command_evidence, command_digest. by rewrite He, bool_decide_eq_true_2.
Qed.
End Evidence.

(** ** Programs and outcomes *)

Section Outcome.
Context `{EngineExternals}.
Context (cfg : Config).
Let paths := cf_paths cfg.

(** The service's validator accepted the configuration of [t]. *)
Definition tested (a : ManagedConfigAdapter) (t : NginxTree) (c : Call) : Prop :=
  exists ev, c = CallRun (adapter_config_test a) t (Ok ev) /\ managed_config_test_succeeded a ev = true.

(** The last programs run: the validator and, if the service is [live], what
    [runtime] says. *)
Definition validated (a : ManagedConfigAdapter) (live : bool) (runtime : list CommandClass) (t : NginxTree)
    (rs : list Call) : Prop :=
  exists cs config rest, rs = (cs ++ config :: rest)%list /\ tested a t config /\
    Forall2 (fun class c => ran class t c) (if live then runtime else []) cs.

Definition reloaded (a : ManagedConfigAdapter) : list CommandClass := [adapter_active a; adapter_reload a].

(** The file [rid] names, in whatever ownership regime it was read. *)
Definition config_now (t : NginxTree) (rid content metadata : string) (r : ManagedConfigResource) : Prop :=
  (exists owned, config_found paths owned t rid r) /\
  cr_content_digest r = content /\ cr_metadata_digest r = metadata.

(** What the terminal stage says about the world it was recorded in, given
    the plan and the directories [t0] the execution started from. *)
Definition managed_outcome (plan : StoredPlan) (payload : ManagedConfigPlanPayload) (t0 : NginxTree)
    (stage : OperationStage) (w : World) : Prop :=
  let t := w_nginx w in
  match stage with
  | Succeeded => exists r,
      config_now t (p_site_id plan) (mp_proposed_content_digest payload) (p_enabled_state_digest plan) r /\
      (if bool_decide (p_available_digest plan = mp_proposed_content_digest payload)
       then t = t0 /\ validated (cr_adapter r) (bool_decide (mp_service_action payload = SReload))
                        [adapter_active (cr_adapter r)] t (runs w)
       else validated (cr_adapter r) (bool_decide (mp_service_action payload = SReload))
              (reloaded (cr_adapter r)) t (runs w))
  | RolledBack => exists r,
      config_now t (p_site_id plan) (p_available_digest plan) (p_enabled_state_digest plan) r /\
      validated (cr_adapter r) (negb (bool_decide (mp_service_action payload = ValidateOnly)))
        (reloaded (cr_adapter r)) t (runs w)
  | CancelledBeforeApply => t = t0
  | RecoveryRequired => True
  | _ => False
  end.

Lemma managed_outcome_same plan payload t0 stage w w' :
  same_host w w' -> managed_outcome plan payload t0 stage w -> managed_outcome plan payload t0 stage w'.
Proof. intros (Hg & _ & _ & Hr). unfold managed_outcome. by rewrite Hg, Hr. Qed.

Lemma total_run_if {B} (F : World -> Prop) (I : NginxTree -> Prop) b class w
    (k : option (oresult CommandEvidence) -> EM B) Post :
  (forall r m, b = true -> run class w = (r, with_host m w) -> total F I (with_host m w) (k (Some r)) Post) ->
  (b = false -> total F I w (k None) Post) ->
  total F I w (mbind (run_if b class) k) Post.
Proof.
  intros Ht Hf. unfold run_if. destruct b; [|by apply total_bind, total_ret, Hf].
  apply total_bind. apply total_try_quiet; [apply quiet_run|]. intros r m Hr. by apply total_ret, Ht.
Qed.

Lemma config_diagnostics_ok r e changed proposed :
  diagnostics_ok (managed_config_diagnostics paths r e changed proposed).
Proof.
  unfold managed_config_diagnostics. split.
  - apply Forall_forall. intros d Hd%list_elem_of_In%filter_In. destruct Hd as [_ Hd].
    by destruct (diagnostic_validate_shape d) as [[]|].
  - etrans; [apply inj_le, filter_length_le|]. rewrite length_map, length_take.
    unfold MANAGED_CONFIG_DIAGNOSTIC_MAX_ENTRIES. lia.
Qed.

Section Running.
Hypothesis Hpaths : paths_named paths = true.
Context (plan : StoredPlan) (payload : ManagedConfigPlanPayload) (t0 : NginxTree) (owned0 : bool)
        (pre : ManagedConfigResource) (id : string) (now : Z) (record : SnapshotRecord).
Let rid := p_site_id plan.
Hypothesis Hfound : config_found paths owned0 t0 rid pre.
Hypothesis Hpayload : p_managed_config plan = Some payload.
Hypothesis Hmanaged : is_managed_config plan = true.
Hypothesis Hcontent : cr_content_digest pre = p_available_digest plan.
Hypothesis Hmeta : cr_metadata_digest pre = p_enabled_state_digest plan.

Let I := touches paths (config_change paths rid) t0.
Let done_ := settled I id plan (managed_outcome plan payload t0).
Let running := staged I plan id now record (config_snapshot pre).

Lemma adapter_unique t owned r : config_found paths owned t rid r -> cr_adapter r = cr_adapter pre.
Proof. intros [_ Ha _ _ _]. pose proof (cf_adapter _ _ _ _ _ Hfound). congruence. Qed.

Lemma recover n stage reason w :
  1 <= n -> running n stage w -> stage = RollingBack ->
  total evidence_fault I w (recovery_required id reason now) done_.
Proof.
  intros Hn (HI & _ & op & Hl & Hst & <- & _) Hs. eapply recovery_total; try done. congruence.
Qed.

(** From the restored file to [RolledBack]. *)
Lemma conclude_rollback_total n restored config runtime w :
  1 <= n -> running n RollingBack w -> (exists owned, config_found paths owned (w_nginx w) rid restored) ->
  last_ran (default config runtime) w ->
  validated (cr_adapter restored) (negb (bool_decide (mp_service_action payload = ValidateOnly)))
    (reloaded (cr_adapter restored)) (w_nginx w) (runs w) ->
  total evidence_fault I w (conclude_rollback id (config_snapshot pre) restored config runtime now) done_.
Proof.
  intros Hn Hrun Hres Hlast Hval. unfold conclude_rollback. destruct (_ || _ || _) eqn:Hv; [by eapply recover|].
  bool_prop. eapply (staged_terminal (A := ManagedConfigSnapshot) _ _ _ _ _ _ _ n);
    [ | | | | | |intros op _; by apply recorded_command| |]; [done|exact Hrun|left|expected_solver|done|done| |].
  - intros terminal. destruct (p_managed_config (o_plan terminal)); [apply cleans_discard, remove_proposal_keeps|apply cleans_ret].
  - intros op r w' Hp Hf Hg. eexists. split; [exact Hf|]. cbn [transition_op o_plan o_stage change t_next].
    split_and!; [done|rewrite (proj1 Hg); apply Hrun|]. eapply managed_outcome_same; [exact Hg|].
    exists restored. split; [|done]. simpl in *. split_and!; [done|congruence|congruence].
Qed.

(** Reload and activity after the file was put back. *)
Lemma rollback_runtime_total n restored config w :
  1 <= n -> running n RollingBack w -> (exists owned, config_found paths owned (w_nginx w) rid restored) ->
  last_ran config w -> (exists c rest, runs w = c :: rest /\ tested (cr_adapter restored) (w_nginx w) c) ->
  total evidence_fault I w
    (rollback_runtime id (cr_adapter restored) (bool_decide (mp_service_action payload = ValidateOnly)) now
       (fun runtime => conclude_rollback id (config_snapshot pre) restored config runtime now)) done_.
Proof.
  intros Hn Hrun Hres Hlast (c & rest & Hc & Ht). unfold rollback_runtime. destruct (bool_decide _) eqn:Ev.
  - eapply conclude_rollback_total; try done. rewrite Ev. exists [], c, rest. by rewrite Hc.
  - apply total_try_quiet; [apply quiet_run|]. intros reload m1 Hr.
    destruct (is_ok_and reload c_success) eqn:Er; simpl;
      [|by eapply recover; [..|apply (staged_machine (A := ManagedConfigSnapshot))|]].
    destruct reload as [reload|]; [|done]. destruct (run_ran _ _ _ _ Hr Er) as (c1 & R1 & E1).
    apply total_try_quiet; [apply quiet_run|].
    intros [active|e] m2 Ha; [|by eapply recover; [..|do 2 apply (staged_machine (A := ManagedConfigSnapshot))|]].
    destruct (c_success active) eqn:Ea; [|by eapply recover; [..|do 2 apply (staged_machine (A := ManagedConfigSnapshot))|]].
    destruct (run_ran _ _ _ _ Ha Ea) as (c2 & R2 & E2).
    eapply conclude_rollback_total; [done|by do 2 apply (staged_machine (A := ManagedConfigSnapshot))|done| |].
    + by eapply run_last.
    + rewrite Ev. exists [c2; c1], c, rest. split_and!; [simpl; congruence|done|].
      repeat constructor; done.
Qed.

(** The file is restored from the snapshot, validated and the service reloaded. *)
Lemma restore_total n rolling w :
  1 <= n -> running n RollingBack w -> o_plan rolling = plan ->
  total evidence_fault I w (restore_from_snapshot cfg id rolling record now) done_.
Proof.
  intros Hn Hrun Hp. unfold restore_from_snapshot. pose proof Hrun as (HI & Hs & _).
  apply total_try_quiet; [unfold read_managed_config_snapshot; quiet_solver|].
  intros [s|e] m1 Hr; [|by eapply recover; [..|apply (staged_machine (A := ManagedConfigSnapshot))|]].
  apply (read_stored _ _ _ _ _ _ Hs) in Hr as ->. apply total_try. intros r w1 Hr.
  cbn [config_snapshot ms_resource_id ms_basename ms_content ms_mode ms_uid ms_gid] in Hr.
  rewrite (cf_id _ _ _ _ _ Hfound) in Hr. fold paths in Hr.
  destruct (restore_managed_spec paths _ _ _ _ _ _ _ _ _ Hpaths Hr) as [(Hst & Hsn & _ & _ & _ & Htc) Hres].
  assert (running n RollingBack w1) as Hrun1.
  { eapply (staged_host (A := ManagedConfigSnapshot)); [exact Hst|exact Hsn| |by apply (staged_machine (A := ManagedConfigSnapshot))].
    unfold I. etrans; [exact HI|done]. }
  destruct r as [restored|e]; [|by eapply recover].
  specialize (Hres restored eq_refl). apply total_try_quiet; [apply quiet_run|].
  intros [config|e] m2 Hc; [|by eapply recover; [..|apply (staged_machine (A := ManagedConfigSnapshot))|]].
  destruct (managed_config_test_succeeded _ config) eqn:Et; simpl;
    [|by eapply recover; [..|apply (staged_machine (A := ManagedConfigSnapshot))|]].
  rewrite Hp, Hpayload. cbn [is_some_and].
  eapply rollback_runtime_total; [done|by apply (staged_machine (A := ManagedConfigSnapshot))|by eexists|by eapply run_last|].
  destruct (run_runs _ _ _ _ Hc) as [Er _]. eexists _, _. split; [exact Er|]. by exists config.
Qed.

(** Rollback from any in-flight stage. *)
Lemma rollback_managed_total n stage e w :
  2 <= n -> running n stage w -> stage ∈ in_flight -> evidence_ok plan e w ->
  total evidence_fault I w (rollback_managed_config_with_evidence cfg id e now) done_.
Proof.
  intros Hn Hrun Hin He. unfold rollback_managed_config_with_evidence.
  eapply (staged_rolling_with (A := ManagedConfigSnapshot) _ _ _ _ _ _ _ n _ in_flight (re_cause e) (re_digest e));
    [done|exact Hrun|right; exact Hin|unfold in_flight; expected_solver| |].
  - intros op w' Hp Hg. apply recorded_rollback. rewrite Hp. by eapply evidence_same.
  - intros op w' Hp Hr Hrun' _. rewrite Hr. eapply (restore_total (n - 1)); [lia|done|done].
Qed.

Lemma rollback_plain n stage cause digest w :
  2 <= n -> running n stage w -> stage ∈ in_flight ->
  total evidence_fault I w (rollback_managed_config cfg id cause digest now) done_.
Proof. intros Hn Hrun Hin. by eapply rollback_managed_total. Qed.

(** *** Execution *)

Let reloads := bool_decide (mp_service_action payload = SReload).
Let a := cr_adapter pre.

(** The file holds the proposal and the service accepted it. *)
Lemma conclude_managed_total n r command proposal w :
  1 <= n -> running n Verifying w -> (exists owned, config_found paths owned (w_nginx w) rid r) ->
  cr_content_digest r = mp_proposed_content_digest payload -> cr_metadata_digest r = p_enabled_state_digest plan ->
  p_available_digest plan <> mp_proposed_content_digest payload ->
  validated a reloads (reloaded a) (w_nginx w) (runs w) -> last_ran command w ->
  total evidence_fault I w
    (let! succeeded := ledger (transition_with_command_evidence id
          (change [Verifying] Succeeded "config_verified" (command_digest command)
             (Some (mp_proposed_content_digest payload)) None now) (command_evidence_view command)) in
     let! r := ledger (receipt (o_operation_id succeeded)) in
     let! _ := discard (remove_proposal (pr_relative_path proposal)) in mret r) done_.
Proof.
  intros Hn Hrun Hr Hc Hm Hne Hval Hlast.
  eapply (staged_terminal (A := ManagedConfigSnapshot) _ _ _ _ _ _ _ n _ _ _
            (fun _ => discard (remove_proposal (pr_relative_path proposal))));
    [ | | | | | |intros op _; by apply recorded_command| |]; [done|exact Hrun|left|expected_solver|done|done| |].
  - intros _. apply cleans_discard, remove_proposal_keeps.
  - intros op rv w' Hp Hf Hg. eexists. split; [exact Hf|]. cbn [transition_op o_plan o_stage change t_next].
    split_and!; [done|rewrite (proj1 Hg); apply Hrun|]. eapply managed_outcome_same; [exact Hg|].
    exists r. split; [done|]. rewrite bool_decide_eq_false_2 by done. destruct Hr as [owned Hr].
    by rewrite (adapter_unique _ _ _ Hr).
Qed.

(** From [Verifying]. *)
Lemma verify_managed_total n snapshotted proposal config_test vdigest w :
  2 <= n -> running n Verifying w -> o_operation_id snapshotted = id -> o_plan snapshotted = plan ->
  p_available_digest plan <> mp_proposed_content_digest payload ->
  validated a reloads [adapter_reload a] (w_nginx w) (runs w) -> (reloads = false -> last_ran config_test w) ->
  total evidence_fault I w
    (verify_managed cfg payload proposal pre snapshotted now config_test vdigest) done_.
Proof.
  intros Hn Hrun Hid Hp Hne (cs & config & rest & Hrs & Ht & Hcs) Hlast. unfold verify_managed. rewrite Hid, Hp.
  assert (Verifying ∈ in_flight) as Hin by (unfold in_flight; set_solver).
  apply total_try_quiet; [apply quiet_discover_managed|]. intros found m1 Hd.
  pose proof (unrun_result _ _ _ _ (unrun_discover_managed _ _) Hd) as Hru. cbv zeta.
  assert (running n Verifying (with_host m1 w)) as Hrun1 by (by apply (staged_machine (A := ManagedConfigSnapshot))).
  assert (forall r, found = Ok r -> exists owned, config_found paths owned (w_nginx w) rid r) as Hfnd.
  { intros r ->. eexists. by eapply discover_found. }
  clear Hd. apply total_run_if.
  - intros active m2 Hb Ha. fold reloads in Hb. rewrite Hb in Hcs.
    assert (running n Verifying (with_host m2 (with_host m1 w))) as Hrun2
      by (by apply (staged_machine (A := ManagedConfigSnapshot))).
    destruct (is_ok_and found _ && active_ok _) eqn:Hv; simpl.
    + destruct found as [r|]; [|done]. simpl in Hv. destruct active as [active|]; [|by bool_prop]. bool_prop.
      simpl in *. apply total_bind, total_lift.
      eapply (conclude_managed_total n r); try done; [lia|by apply Hfnd| |by eapply run_last].
      destruct (run_ran _ _ _ _ Ha ltac:(assumption)) as (c2 & R2 & E2).
      exists (c2 :: cs), config, rest. split_and!; [simpl; congruence|done|]. rewrite Hb. by constructor.
    + destruct active as [active|e]; [|by eapply rollback_plain].
      eapply rollback_managed_total; try done. exists active. split_and!; try done. by eapply run_last.
  - intros Hb. fold reloads in Hb. specialize (Hlast Hb). rewrite Hb in Hcs.
    destruct (is_ok_and found _ && active_ok _) eqn:Hv; simpl; [|by eapply rollback_plain].
    destruct found as [r|]; [|done]. simpl in Hv. bool_prop. apply total_bind, total_lift.
    assert (last_ran config_test (with_host m1 w)) as Hl1 by (destruct Hlast as (cl & tt & Hh); exists cl, tt; by rewrite Hru).
    eapply (conclude_managed_total n r); try done; [lia|by apply Hfnd|].
    exists cs, config, rest. rewrite Hb. split_and!; [simpl in *; congruence|done|done].
Qed.

(** From [Reloading]. *)
Lemma reload_managed_total n snapshotted proposal config_test w :
  3 <= n -> running n Reloading w -> o_operation_id snapshotted = id -> o_plan snapshotted = plan ->
  p_available_digest plan <> mp_proposed_content_digest payload -> reloads = true ->
  (exists c rest, runs w = c :: rest /\ tested a (w_nginx w) c) ->
  total evidence_fault I w (reload_managed cfg payload proposal pre snapshotted now config_test) done_.
Proof.
  intros Hn Hrun Hid Hp Hne Hb (c & rest & Hc & Ht). unfold reload_managed. rewrite Hid.
  assert (Reloading ∈ in_flight) as Hin by (unfold in_flight; set_solver).
  apply total_try_quiet; [apply quiet_run|]. intros [reload|e] m1 Hr.
  2:{ eapply (rollback_plain n); [lia|by apply (staged_machine (A := ManagedConfigSnapshot))|done]. }
  assert (running n Reloading (with_host m1 w)) as Hrun1 by (by apply (staged_machine (A := ManagedConfigSnapshot))).
  destruct (c_success reload) eqn:Er; simpl.
  2:{ eapply (rollback_managed_total n); [lia|done|done|]. exists reload. split_and!; try done. by eapply run_last. }
  destruct (run_ran _ _ _ _ Hr Er) as (c1 & R1 & E1).
  eapply (staged_record (A := ManagedConfigSnapshot) _ _ _ _ _ _ _ n);
    [ | | | | |intros op _; apply recorded_command; [by eapply run_last|done]|];
    [lia|exact Hrun1|left|expected_solver|done|].
  intros _ w2 _ _ Hrun2 (Hg2 & _ & _ & Hr2). eapply (verify_managed_total (n - 1)); try done; [lia| |congruence].
  exists [c1], c, rest. rewrite Hb, Hr2, Hg2. split_and!; [simpl; congruence|done|]. by repeat constructor.
Qed.

(** From [Validating]. *)
Lemma validate_managed_total n snapshotted proposal proposed w :
  4 <= n -> running n Validating w -> o_operation_id snapshotted = id -> o_plan snapshotted = plan ->
  p_available_digest plan <> mp_proposed_content_digest payload ->
  total evidence_fault I w (validate_managed cfg payload proposal pre proposed snapshotted now) done_.
Proof.
  intros Hn Hrun Hid Hp Hne. unfold validate_managed. rewrite Hid. fold a.
  assert (Validating ∈ in_flight) as Hin by (unfold in_flight; set_solver).
  apply total_try_quiet; [apply quiet_run|]. intros [config|e] m1 Hc.
  2:{ eapply (rollback_plain n); [lia|by apply (staged_machine (A := ManagedConfigSnapshot))|done]. }
  assert (running n Validating (with_host m1 w)) as Hrun1 by (by apply (staged_machine (A := ManagedConfigSnapshot))).
  destruct (managed_config_test_succeeded a config) eqn:Et; simpl.
  2:{ eapply (rollback_managed_total n); [lia|done|done|]. exists config.
      split_and!; try done; [by eapply run_last|apply config_diagnostics_ok..]. }
  destruct (run_runs _ _ _ _ Hc) as [Er _].
  eapply (staged_record (A := ManagedConfigSnapshot) _ _ _ _ _ _ _ n);
    [ | | | | |intros op _; apply recorded_command; [by eapply run_last|done]|];
    [lia|exact Hrun1|left|expected_solver|done|]. cbn [t_next change]. fold reloads.
  intros _ w2 _ _ Hrun2 Hg. pose proof Hg as (Hg2 & _ & _ & Hr2).
  assert (tested a (w_nginx w2) (CallRun (adapter_config_test a) (w_nginx w) (Ok config))) as Ht
    by (rewrite Hg2; by exists config).
  destruct reloads eqn:Hb.
  - eapply (reload_managed_total (n - 1)); try done; [lia|]. eexists _, _. split; [|exact Ht]. rewrite Hr2. exact Er.
  - eapply (verify_managed_total (n - 1)); try done; [lia| |].
    + eexists [], _, _. split_and!; [simpl; rewrite Hr2; exact Er|done|]. rewrite Hb. constructor.
    + intros _. eapply last_ran_same; [exact Hg|by eapply run_last].
Qed.

(** From [Snapshotted]. *)
Lemma apply_managed_total n snapshotted proposal proposed w :
  6 <= n -> running n Snapshotted w -> o_operation_id snapshotted = id -> o_plan snapshotted = plan ->
  p_available_digest plan <> mp_proposed_content_digest payload ->
  total evidence_fault I w (apply_managed cfg payload proposal pre proposed snapshotted now) done_.
Proof.
  intros Hn Hrun Hid Hp Hne. unfold apply_managed. rewrite Hid.
  eapply (staged_advance (A := ManagedConfigSnapshot) _ _ _ _ _ _ _ n); [lia|done|left|expected_solver|done|].
  intros _ w1 _ _ Hrun1 _. apply total_try. intros r w2 Hr. fold paths in Hr.
  destruct (replace_managed_spec paths _ _ _ _ _ _ _ _ Hpaths Hfound Hr) as [(Hst & Hsn & _ & _ & _ & Htc) _].
  assert (running (n - 1) Applying w2) as Hrun2.
  { eapply (staged_host (A := ManagedConfigSnapshot)); [exact Hst|exact Hsn| |exact Hrun1].
    destruct Hrun1 as (HI & _). unfold I in *. by etrans. }
  destruct r as [applied|e]; [|eapply (rollback_plain (n - 1)); [lia|done|unfold in_flight; set_solver]].
  eapply (staged_advance (A := ManagedConfigSnapshot) _ _ _ _ _ _ _ (n - 1)); [lia|done|left|expected_solver|done|].
  intros _ w3 _ _ Hrun3 _. eapply (validate_managed_total (n - 1 - 1)); try done. lia.
Qed.

(** Nothing to change. *)
Lemma finish_managed_total n snapshotted proposal w :
  2 <= n -> running n Snapshotted w -> o_operation_id snapshotted = id -> o_plan snapshotted = plan ->
  w_nginx w = t0 -> p_available_digest plan = mp_proposed_content_digest payload ->
  total evidence_fault I w (finish_managed_noop snapshotted proposal a now) done_.
Proof.
  intros Hn Hrun Hid Hp Ht0 Hsame. unfold finish_managed_noop. rewrite Hid, Hp, Hpayload.
  eapply (staged_advance (A := ManagedConfigSnapshot) _ _ _ _ _ _ _ n); [lia|done|left|expected_solver|done|].
  intros _ w1 _ _ Hrun1 (Hg1 & _). apply total_try_quiet; [apply quiet_run|]. intros config m1 Hc.
  apply total_bind, total_lift. fold reloads.
  assert (forall w2 code digest after cleanup stage, running (n - 1) Verifying w2 -> w_nginx w2 = t0 ->
    cleans cleanup -> is_terminal stage = true -> managed_outcome plan payload t0 stage w2 ->
    total evidence_fault I w2
      (let! terminal := ledger (transition id (change [Verifying] stage code digest after None now)) in
       let! r := ledger (receipt (o_operation_id terminal)) in
       let! _ := cleanup in mret r) done_) as Hend.
  { intros w2 code digest after cleanup stage Hrun2 Hg2 Hcl Hterm Hout.
    eapply (staged_terminal (A := ManagedConfigSnapshot) _ _ _ _ _ _ _ (n - 1) _ _ _ (fun _ => cleanup));
      [ | | | | | |intros op _; apply recorded_transition| |]; [lia|exact Hrun2|left|expected_solver|done|done|done|].
    intros op r w' Hp' Hf Hg. eexists. split; [exact Hf|]. cbn [transition_op o_plan o_stage change t_next].
    split_and!; [done|rewrite (proj1 Hg); apply Hrun2|by eapply managed_outcome_same]. }
  assert (forall w2 cs config rest, w_nginx w2 = t0 -> runs w2 = (cs ++ config :: rest)%list -> tested a t0 config ->
    Forall2 (fun class c => ran class t0 c) (if reloads then [adapter_active a] else []) cs ->
    managed_outcome plan payload t0 Succeeded w2) as Hok.
  { intros w2 cs c rest Hg2 Hr2 Htst Hcs. exists pre. unfold config_now. rewrite Hg2, bool_decide_eq_true_2 by done.
    split_and!; [by exists owned0|congruence|done|done|]. exists cs, c, rest. by split_and!. }
  assert (running (n - 1) Verifying (with_host m1 w1)) as Hrun2 by (by apply (staged_machine (A := ManagedConfigSnapshot))).
  apply total_run_if.
  - intros active m2 Hb Ha.
    assert (running (n - 1) Verifying (with_host m2 (with_host m1 w1))) as Hrun3
      by (by apply (staged_machine (A := ManagedConfigSnapshot))).
    destruct (is_ok_and config _ && active_ok _) eqn:Hv; simpl.
    2:{ apply Hend; [done|simpl; congruence|apply cleans_operation|done|simpl; congruence]. }
    destruct config as [config|]; [|done]. simpl in Hv. destruct active as [active|]; [|by bool_prop]. bool_prop.
    apply total_bind, total_lift. apply Hend; [done|simpl; congruence|apply cleans_discard, remove_proposal_keeps|done|].
    destruct (run_runs _ _ _ _ Hc) as [Er _]. destruct (run_ran _ _ _ _ Ha ltac:(assumption)) as (c2 & R2 & E2).
    eapply (Hok _ [c2]); [simpl; congruence|simpl; rewrite E2, Er; reflexivity|exists config; split; [simpl; congruence|done]|].
    rewrite Hb. repeat constructor. simpl in R2. by rewrite Hg1, Ht0 in R2.
  - intros Hb. destruct (is_ok_and config _ && active_ok _) eqn:Hv; simpl.
    2:{ apply Hend; [done|simpl; congruence|apply cleans_operation|done|simpl; congruence]. }
    destruct config as [config|]; [|done]. simpl in Hv. bool_prop.
    apply total_bind, total_lift. apply Hend; [done|simpl; congruence|apply cleans_discard, remove_proposal_keeps|done|].
    destruct (run_runs _ _ _ _ Hc) as [Er _].
    eapply (Hok _ []); [simpl; congruence|exact Er|exists config; split; [simpl; congruence|done]|]. rewrite Hb. constructor.
Qed.
End Running.

(** ** The whole execution *)

Lemma quiet_preflight op payload : quiet (preflight_managed cfg op payload).
Proof. pose proof quiet_discover_managed. unfold preflight_managed. quiet_solver. Qed.

Lemma preflight_ok op payload w r w' :
  paths_named paths = true -> preflight_managed cfg op payload w = (Ok (inr r), w') ->
  config_found paths (enforce w) (w_nginx w) (p_site_id (o_plan op)) r /\
  cr_content_digest r = p_available_digest (o_plan op) /\ cr_metadata_digest r = p_enabled_state_digest (o_plan op).
Proof.
  intros Hp. unfold preflight_managed, mtry. fold paths.
  destruct (discover_managed_config paths _ w) as [[c|e] w1] eqn:Hd; [|done].
  destruct (stale _ _ _) eqn:Hs; [done|]. unfold stale in Hs. bool_prop. intros Hr.
  assert (r = c) as ->.
  { destruct (bool_decide _); [|by injection Hr]. destruct (run _ w1) as [x w2]. destruct (is_ok_and _ _); by injection Hr. }
  split_and!; [by eapply discover_found|done|done].
Qed.

Lemma cancel_managed_total (J : NginxTree -> Prop) n now id op payload code t0 w :
  J (w_nginx w) -> 1 <= n -> live n now id op w -> o_stage op = Approved -> w_nginx w = t0 ->
  total evidence_fault J w (cancel_managed_before_apply op code now)
    (settled J id (o_plan op) (managed_outcome (o_plan op) payload t0)).
Proof.
  intros HJ Hn Hl Hst Ht. unfold cancel_managed_before_apply. rewrite (live_id _ _ _ _ _ Hl).
  eapply (total_terminal_with _ J n now id op _ _ (fun _ => remove_operation_proposal op));
    [done|apply recorded_transition|done|done|rewrite Hst; left|expected_solver|done|done| |].
  - intros _. apply cleans_operation.
  - intros r w' Hf (Hg & _). eexists. split; [exact Hf|]. split_and!; [done|by rewrite Hg|]. simpl. congruence.
Qed.

Lemma execute_managed_total n now id op payload w :
  paths_named paths = true -> 7 <= n -> live n now id op w -> o_stage op = Approved ->
  is_managed_config (o_plan op) = true -> p_managed_config (o_plan op) = Some payload ->
  let plan := o_plan op in let t0 := w_nginx w in
  let I := touches paths (config_change paths (p_site_id plan)) t0 in
  total evidence_fault I w (execute_managed_config cfg op now)
    (settled I id plan (managed_outcome plan payload t0)).
Proof.
  intros Hpaths Hn Hl Hst Hman Hpay plan t0 I. unfold execute_managed_config. rewrite Hpay.
  assert (I t0) as HI by (unfold I; reflexivity).
  assert (forall w1 code, live n now id op w1 -> w_nginx w1 = t0 ->
    total evidence_fault I w1 (cancel_managed_before_apply op code now)
      (settled I id plan (managed_outcome plan payload t0))) as Hcancel.
  { intros w1 code Hl1 Hg1. eapply (cancel_managed_total I n); try done; [by rewrite Hg1|lia]. }
  apply total_bind, total_lift. apply total_bind. unfold total.
  destruct (preflight_managed cfg op payload w) as [[checked|e] w1] eqn:Hpre.
  2:{ exfalso. revert Hpre. unfold preflight_managed, mtry.
      destruct (discover_managed_config _ _ w) as [[c|e'] w2]; [|done]. destruct (stale _ _ _); [done|].
      destruct (bool_decide _); [|done]. by destruct (run _ w2). }
  destruct (quiet_result _ _ _ _ (quiet_preflight op payload) Hpre) as [m1 ->].
  assert (live n now id op (with_host m1 w)) as Hl1 by (by apply live_machine).
  destruct checked as [code|pre]; [by apply Hcancel|].
  apply preflight_ok in Hpre as (Hfound & Hcont & Hmeta); [|done]. cbv zeta.
  set (proposal := {| pr_relative_path := _; pr_digest := _ |}). apply total_try. intros r w2 Hr.
  destruct (keeps_result _ _ _ _ _ (read_proposal_keeps proposal) Hr) as (Hs2 & Hg2 & Hsn2 & _).
  assert (live n now id op w2) as Hl2 by (by eapply live_store).
  destruct r as [proposed|e]; [|by apply Hcancel]. destruct (negb _); [by apply Hcancel|].
  destruct (validate_managed_config_candidate _ _ _) as [u|e]; [|by apply Hcancel].
  apply total_try. intros r w3 Hw. rewrite (live_id _ _ _ _ _ Hl) in *.
  destruct (write_snapshot_keeps cfg id "managed-config.json" (to_json (config_snapshot pre)) w2) as (Hs3 & Hg3 & _).
  change (write_snapshot_bytes cfg id "managed-config.json" (to_json (config_snapshot pre)))
    with (write_managed_config_snapshot cfg id (config_snapshot pre)) in Hs3, Hg3.
  rewrite Hw in Hs3, Hg3. simpl in Hs3, Hg3, Hg2.
  assert (live n now id op w3) as Hl3 by (by eapply live_store).
  assert (w_nginx w3 = t0) as Ht3 by (by rewrite Hg3, Hg2).
  destruct r as [record|e]; [|by apply Hcancel]. apply write_snapshot_written, written_stored in Hw.
  apply total_bind. eapply (total_attach _ I n now id op record); [by rewrite Ht3|lia|done|done|].
  intros w4 Hl4 (Hg4 & Hsn4 & _). cbn [attach_op o_plan].
  assert (staged I plan id now record (config_snapshot pre) (n - 1) Snapshotted w4) as Hrun.
  { split_and!; [by rewrite Hg4, Ht3| |]; [destruct Hw as [m Hm]; exists m; by rewrite Hsn4|]. by eexists. }
  destruct (bool_decide _) eqn:Hnoop; bool_prop.
  - eapply (finish_managed_total plan payload t0 (enforce w) pre id now record Hfound Hpay Hman Hcont Hmeta (n - 1));
      first [done|lia|by eapply live_id|by rewrite Hg4, Ht3|unfold plan; congruence].
  - eapply (apply_managed_total Hpaths plan payload t0 (enforce w) pre id now record Hfound Hpay Hman Hcont Hmeta (n - 1));
      first [done|lia|by eapply live_id|unfold plan; congruence].
Qed.
End Outcome.
