(* ===== verification/EngineCertProofs.v ===== *)
(** * jw-opsd: execution of certificate operations, proved

    The attachment of a certificate to the management site, its rollback, the
    certificate issue and the renewal test as [total] triples. *)

From Stdlib Require Import Ascii String.
From S2P Require Import Prelude Crypto Contracts Plans CertContracts Adapters Ledger LedgerLog LedgerInv LedgerStore.
From S2P Require Import LedgerApi Text Ufw Host Snapshot Nginx ConfigText Diagnostics ManagedConfig.
From S2P Require Import Certificate EngineCore EngineNginx EngineCert EngineLogic HostProofs.
From S2P Require Import EngineNginxProofs ManagedProofs CertProofs.

(** Between two ledger calls: a read. *)
Ltac mach := apply (staged_machine (A := ManagedConfigSnapshot)).

Section Outcome.
Context `{EngineExternals}.
Context (cfg : Config).
Let paths := cf_paths cfg.

(** The management site, in whatever ownership regime it was read. *)
Definition site_now (t : NginxTree) (sid content metadata : string) : Prop :=
  exists owned r, protected_found paths owned t sid r /\
    cr_content_digest r = content /\ cr_metadata_digest r = metadata.

(** The last programs: Nginx is active, the timer is enabled and active, and
    the certificate daemon saw the planned certificate on the wire. *)
Definition tls_seen (payload : CertbotAttachPlanPayload) (t : NginxTree) (rs rest : list Call) : Prop :=
  exists tls ta te active evidence, rs = tls :: ta :: te :: active :: rest /\
    certd_completed (VerifyLocalTls (ap_primary_domain payload) (ap_certificate_fingerprint payload)) evidence tls /\
    cb_success evidence = true /\ ran CertbotTimerActive t ta /\ ran CertbotTimerEnabled t te /\
    ran NginxActive t active.

Definition attach_outcome (payload : CertbotAttachPlanPayload) (t0 : NginxTree) (stage : OperationStage) (w : World)
    : Prop :=
  let t := w_nginx w in
  match stage with
  | Succeeded =>
      site_now t (ap_site_id payload) (ap_proposed_content_digest payload) (ap_metadata_digest payload) /\
      exists rest, tls_seen payload t (runs w) rest /\
        (ap_site_digest payload = ap_proposed_content_digest payload /\ t = t0 \/
         exists reload test more, rest = reload :: test :: more /\ ran NginxReload t reload /\ ran NginxConfigTest t test)
  | RolledBack =>
      site_now t (ap_site_id payload) (ap_site_digest payload) (ap_metadata_digest payload) /\
      exists active reload test rest, runs w = active :: reload :: test :: rest /\
        ran NginxActive t active /\ ran NginxReload t reload /\ ran NginxConfigTest t test
  | CancelledBeforeApply => t = t0
  | RecoveryRequired => True
  | _ => False
  end.

Lemma attach_outcome_same payload t0 stage w w' :
  same_host w w' -> attach_outcome payload t0 stage w -> attach_outcome payload t0 stage w'.
Proof. intros (Hg & _ & _ & Hr). unfold attach_outcome. by rewrite Hg, Hr. Qed.

Section Running.
Context (plan : StoredPlan) (payload : CertbotAttachPlanPayload) (t0 : NginxTree) (owned0 : bool)
        (pre : ManagedConfigResource) (id : string) (now : Z) (record : SnapshotRecord).
Let sid := ap_site_id payload.
Hypothesis Hfound : protected_found paths owned0 t0 sid pre.
Hypothesis Hcontent : cr_content_digest pre = ap_site_digest payload.
Hypothesis Hmeta : cr_metadata_digest pre = ap_metadata_digest payload.

Let I := touches paths (site_change paths sid) t0.
Let done_ := settled I id plan (attach_outcome payload t0).
Let running := staged I plan id now record (protected_snapshot pre).

Lemma attach_recover n reason w :
  1 <= n -> running n RollingBack w -> total never I w (recovery_required id reason now) done_.
Proof. intros Hn (HI & _ & op & Hl & Hst & <- & _). by eapply recovery_total. Qed.

(** A terminal stage reached by [conclude]. *)
Lemma attach_conclude n stage change w :
  1 <= n -> running n stage w -> stage ∈ t_expected change -> leaves_active change -> t_now_ms change = now ->
  is_terminal (t_next change) = true -> attach_outcome payload t0 (t_next change) w ->
  total never I w (conclude id change) done_.
Proof.
  intros Hn Hrun Hin Ha Hnow Ht Hout.
  eapply (staged_conclude (A := ManagedConfigSnapshot) _ _ _ _ _ _ _ n); try done.
  intros op r w' Hp Hf Hg. eexists. split; [exact Hf|]. cbn [transition_op o_plan o_stage].
  split_and!; [done|rewrite (proj1 Hg); apply Hrun|]. by eapply attach_outcome_same.
Qed.

(** The file is put back, validated and Nginx reloaded. *)
Lemma restore_attached_total n w :
  1 <= n -> running n RollingBack w -> total never I w (restore_attached cfg id record now) done_.
Proof.
  intros Hn Hrun. unfold restore_attached. pose proof Hrun as (HI & Hs & _).
  apply total_try_quiet; [unfold read_managed_config_snapshot; quiet_solver|].
  intros [s|e] m1 Hr; [|by eapply (attach_recover n); [|mach]].
  apply (read_stored _ _ _ _ _ _ Hs) in Hr as ->. apply total_try. intros r w1 Hr.
  cbn [protected_snapshot ms_resource_id ms_basename ms_content ms_mode ms_uid ms_gid] in Hr.
  rewrite (pf_id _ _ _ _ _ Hfound) in Hr. fold paths in Hr.
  destruct (restore_protected_spec paths _ _ _ _ _ _ _ _ _ Hr) as [(Hst & Hsn & _ & _ & _ & Htc) Hres].
  assert (running n RollingBack w1) as Hrun1.
  { eapply (staged_host (A := ManagedConfigSnapshot)); [exact Hst|exact Hsn| |by mach]. unfold I. by etrans. }
  destruct r as [restored|e]; [|by eapply (attach_recover n)]. specialize (Hres restored eq_refl).
  apply total_try_quiet; [apply quiet_run|]. intros config m2 Hc.
  apply total_try_quiet; [apply quiet_run|]. intros reload m3 Hrl.
  apply total_try_quiet; [apply quiet_run|]. intros active m4 Ha.
  destruct (negb _) eqn:Hv; [by eapply (attach_recover n); [|do 3 mach]|]. bool_prop.
  destruct active as [active|]; [|done]. destruct reload as [reload|]; [|done]. destruct config as [config|]; [|done].
  apply total_bind, total_lift. eapply (attach_conclude n RollingBack); [done|by do 3 mach|left|expected_solver|done|done|].
  destruct (run_ran _ _ _ _ Hc ltac:(done)) as (c1 & R1 & E1). destruct (run_ran _ _ _ _ Hrl ltac:(done)) as (c2 & R2 & E2).
  destruct (run_ran _ _ _ _ Ha ltac:(done)) as (c3 & R3 & E3). split.
  - exists (enforce w1), restored. simpl in *. split_and!; [done|congruence|congruence].
  - exists c3, c2, c1, (runs w1). rewrite E3, E2, E1. by split_and!.
Qed.

Lemma rollback_attach_total n stage cause digest w :
  2 <= n -> running n stage w -> stage ∈ in_flight ->
  total never I w (rollback_certbot_attach cfg id cause digest now) done_.
Proof.
  intros Hn Hrun Hin. unfold rollback_certbot_attach.
  eapply (staged_rolling (A := ManagedConfigSnapshot) _ _ _ _ _ _ _ n _ in_flight);
    [done|exact Hrun|right; exact Hin|unfold in_flight; expected_solver|].
  intros op w' _ Hr Hrun' _. rewrite Hr. eapply (restore_attached_total (n - 1)); [lia|done].
Qed.

(** *** Execution *)

Lemma ran_probe class t r : is_ok_and r c_success = true -> ran class t (CallRun class t r).
Proof. destruct r as [ev|]; [|done]. intros Hs. by exists ev. Qed.

(** What came before the verification: the reload, unless nothing had to change. *)
Definition reloaded_or_same (t : NginxTree) (rs : list Call) : Prop :=
  ap_site_digest payload = ap_proposed_content_digest payload /\ t = t0 \/
  exists reload test more, rs = reload :: test :: more /\ ran NginxReload t reload /\ ran NginxConfigTest t test.

(** From [Verifying]. *)
Lemma verify_attach_total n w :
  2 <= n -> running n Verifying w -> reloaded_or_same (w_nginx w) (runs w) ->
  total never I w (verify_certbot_attach cfg id payload now) done_.
Proof.
  intros Hn Hrun Hbefore. unfold verify_certbot_attach. fold paths.
  assert (Verifying ∈ in_flight) as Hin by (unfold in_flight; set_solver).
  apply total_try_quiet; [apply quiet_protected|]. intros config m1 Hd.
  pose proof (unrun_result _ _ _ _ (unrun_protected _ _) Hd) as Hr1.
  apply total_try_quiet; [apply quiet_run|]. intros active m2 Ha. destruct (run_runs _ _ _ _ Ha) as [Hr2 _].
  apply total_try. intros inventory w3 Hi. pose proof (inventory_observes _ _ _ _ _ Hi) as Hob.
  destruct (certificates_listed_runs _ _ _ _ _ Hi) as (en & ac & (te & ta & Hr3 & He & Hac) & Hflags).
  assert (running n Verifying w3) as Hrun3 by (eapply staged_observes; [exact Hob|by do 2 mach]).
  apply total_try_quiet; [apply quiet_certbot|]. intros tls m4 Ht.
  destruct (negb _) eqn:Hv; [eapply (rollback_attach_total n); [done|by mach|done]|]. bool_prop.
  destruct config as [config|]; [|done]. destruct active as [active|]; [|done].
  destruct inventory as [inventory|]; [|done]. destruct tls as [tls|]; [|done]. simpl in *. bool_prop.
  apply total_bind, total_lift. eapply (attach_conclude n Verifying); [lia|by mach|left|expected_solver|done|done|].
  destruct (certbot_run_ok _ _ _ _ _ Ht) as (c & Hr4 & Hc & _). apply protected_discovered in Hd.
  destruct (Hflags inventory eq_refl) as [F1 F2]. pose proof Hob as (Hg & _). simpl in Hg.
  rename select (attached_inventory _ _ = true) into Hatt. unfold attached_inventory in Hatt. bool_prop.
  split; [exists (enforce w), config; simpl; rewrite Hg; by split_and!|].
  exists (runs w). split.
  - exists c, (CallRun CertbotTimerActive (w_nginx w) ta), (CallRun CertbotTimerEnabled (w_nginx w) te),
      (CallRun NginxActive (w_nginx w) (Ok active)), tls. simpl in *. rewrite Hr4, Hr3, Hr2, Hr1, Hg.
    split_and!; try done; try (apply ran_probe; congruence). by exists active.
  - simpl. rewrite Hg. exact Hbefore.
Qed.

(** From [Reloading]. *)
Lemma reload_attach_total n w :
  3 <= n -> running n Reloading w -> (exists test more, runs w = test :: more /\ ran NginxConfigTest (w_nginx w) test) ->
  total never I w (reload_attached cfg id payload now) done_.
Proof.
  intros Hn Hrun (test & more & Hrs & Htest). unfold reload_attached.
  assert (Reloading ∈ in_flight) as Hin by (unfold in_flight; set_solver).
  apply total_try_quiet; [apply quiet_run|].
  intros [reload|e] m1 Hr; [|eapply (rollback_attach_total n); [lia|by mach|done]].
  destruct (negb _) eqn:Hs; [eapply (rollback_attach_total n); [lia|by mach|done]|]. bool_prop.
  destruct (run_ran _ _ _ _ Hr Hs) as (c & Hc & Hruns).
  eapply (staged_advance (A := ManagedConfigSnapshot) _ _ _ _ _ _ _ n); [lia|by mach|left|expected_solver|done|].
  intros _ w1 _ _ Hrun1 (Hg1 & _ & _ & Hr1). eapply (verify_attach_total (n - 1)); [lia|done|]. right.
  exists c, test, more. rewrite Hr1, Hruns, Hrs, Hg1. by split_and!.
Qed.

(** From [Validating]. *)
Lemma validate_attach_total n w :
  4 <= n -> running n Validating w -> total never I w (validate_attached cfg id payload now) done_.
Proof.
  intros Hn Hrun. unfold validate_attached.
  assert (Validating ∈ in_flight) as Hin by (unfold in_flight; set_solver).
  apply total_try_quiet; [apply quiet_run|].
  intros [test|e] m1 Hr; [|eapply (rollback_attach_total n); [lia|by mach|done]].
  destruct (negb _) eqn:Hs; [eapply (rollback_attach_total n); [lia|by mach|done]|]. bool_prop.
  destruct (run_ran _ _ _ _ Hr Hs) as (c & Hc & Hruns).
  eapply (staged_advance (A := ManagedConfigSnapshot) _ _ _ _ _ _ _ n); [lia|by mach|left|expected_solver|done|].
  intros _ w1 _ _ Hrun1 (Hg1 & _ & _ & Hr1). eapply (reload_attach_total (n - 1)); [lia|done|].
  exists c, (runs w). rewrite Hr1, Hruns, Hg1. by split_and!.
Qed.

(** From [Snapshotted]. *)
Lemma apply_attach_total n attachment w :
  6 <= n -> running n Snapshotted w -> ta_config attachment = pre ->
  total never I w (apply_attached cfg id payload attachment record now) done_.
Proof.
  intros Hn Hrun Hpre. unfold apply_attached. rewrite Hpre. fold paths.
  assert (Applying ∈ in_flight) as Hin by (unfold in_flight; set_solver).
  eapply (staged_advance (A := ManagedConfigSnapshot) _ _ _ _ _ _ _ n); [lia|done|left|expected_solver|done|].
  intros _ w1 _ _ Hrun1 _. apply total_try. intros applied w2 Hr.
  destruct (replace_protected_spec paths _ _ _ _ _ _ _ _ Hfound Hr) as [(Hst & Hsn & _ & _ & _ & Htc) _].
  assert (running (n - 1) Applying w2) as Hrun2.
  { eapply (staged_host (A := ManagedConfigSnapshot)); [exact Hst|exact Hsn| |exact Hrun1].
    unfold I. etrans; [apply Hrun1|exact Htc]. }
  destruct applied as [applied|e]; [|eapply (rollback_attach_total (n - 1)); [lia|done|done]].
  destruct (negb _); [eapply (rollback_attach_total (n - 1)); [lia|done|done]|].
  eapply (staged_advance (A := ManagedConfigSnapshot) _ _ _ _ _ _ _ (n - 1)); [lia|exact Hrun2|left|expected_solver|done|].
  intros _ w3 _ _ Hrun3 _. eapply (validate_attach_total (n - 1 - 1)); [lia|done].
Qed.
End Running.

Lemma cancel_certbot_total (F : World -> Prop) (J : NginxTree -> Prop) (K : OperationStage -> World -> Prop) n now id op code w :
  J (w_nginx w) -> 1 <= n -> live n now id op w -> o_stage op = Approved ->
  (forall w', w_nginx w' = w_nginx w -> K CancelledBeforeApply w') ->
  total F J w (cancel_certbot_before_apply op code now) (settled J id (o_plan op) K).
Proof.
  intros HJ Hn Hl Hst HK. unfold cancel_certbot_before_apply. rewrite (live_id _ _ _ _ _ Hl).
  eapply (total_terminal_cleanup _ J n); try done; [rewrite Hst; left|expected_solver|].
  intros r w' Hf (Hg & _). eexists. split; [exact Hf|]. split_and!; [done|by rewrite Hg|by apply HK].
Qed.

Lemma attachment_found domain sid digest w a w' :
  prepare_tls_attachment paths domain sid digest w = (Ok a, w') ->
  protected_found paths (enforce w) (w_nginx w) sid (ta_config a) /\ cr_content_digest (ta_config a) = digest.
Proof.
  unfold prepare_tls_attachment. intros Hp. bind_inv Hp. injection Hm as _ <-. bind_inv Hp.
  apply protected_discovered in Hm. destruct (negb _) eqn:Hd; [done|]. bool_prop. destruct (negb _); [done|].
  cbv zeta in Hp. destruct (_ || _); [done|]. bind_inv Hp. destruct a2. injection Hp as <- _. by split.
Qed.

Lemma execute_attach_total n now id op payload w :
  7 <= n -> live n now id op w -> o_stage op = Approved -> p_certbot_attach (o_plan op) = Some payload ->
  let t0 := w_nginx w in let I := touches paths (site_change paths (ap_site_id payload)) t0 in
  total never I w (execute_certbot_attach cfg op now) (settled I id (o_plan op) (attach_outcome payload t0)).
Proof.
  intros Hn Hl Hst Hpay t0 I. unfold execute_certbot_attach. rewrite Hpay, (live_id _ _ _ _ _ Hl).
  assert (forall w1 code, live n now id op w1 -> w_nginx w1 = t0 ->
    total never I w1 (cancel_certbot_before_apply op code now)
      (settled I id (o_plan op) (attach_outcome payload t0))) as Hcancel.
  { intros w1 code Hl1 Hg1. eapply (cancel_certbot_total _ _ _ n); try done; [by rewrite Hg1; unfold I|lia|].
    intros w2 Hg2. simpl. congruence. }
  apply total_bind, total_lift. apply total_try. intros found w1 Hi.
  pose proof (inventory_observes _ _ _ _ _ Hi) as Hob. pose proof (live_observes _ _ _ _ _ _ Hob Hl) as Hl1.
  pose proof Hob as (Hg1 & _). destruct found as [inventory|e]; [|by apply Hcancel].
  destruct (negb _); [by apply Hcancel|].
  apply total_try_quiet; [apply quiet_attachment|]. intros [attachment|e] m2 Hp; [|by apply Hcancel; [apply live_machine|]].
  apply attachment_found in Hp as [Hfound Hcont]. rewrite Hg1 in Hfound. cbv zeta.
  destruct (negb _) eqn:Hpre; [by apply Hcancel; [apply live_machine|]|]. bool_prop.
  apply total_try. intros r w3 Hw.
  destruct (write_snapshot_keeps cfg id "managed-config.json" (to_json (protected_snapshot (ta_config attachment)))
              (with_host m2 w1)) as (Hs3 & Hg3 & _).
  change (write_snapshot_bytes cfg id "managed-config.json" (to_json (protected_snapshot (ta_config attachment))))
    with (write_managed_config_snapshot cfg id (protected_snapshot (ta_config attachment))) in Hs3, Hg3.
  rewrite Hw in Hs3, Hg3. simpl in Hs3, Hg3.
  assert (live n now id op w3) as Hl3 by (by eapply live_store).
  assert (w_nginx w3 = t0) as Ht3 by (by rewrite Hg3).
  destruct r as [record|e]; [|by apply Hcancel]. apply write_snapshot_written, written_stored in Hw.
  apply total_bind. eapply (total_attach _ I n now id op record); [by rewrite Ht3; unfold I|lia|done|done|].
  intros w4 Hl4 (Hg4 & Hsn4 & _).
  assert (staged I (o_plan op) id now record (protected_snapshot (ta_config attachment)) (n - 1) Snapshotted w4) as Hrun.
  { split_and!; [by rewrite Hg4, Ht3; unfold I| |]; [destruct Hw as [m Hm]; exists m; by rewrite Hsn4|]. by eexists. }
  destruct (bool_decide _) eqn:Hsame; bool_prop.
  - eapply (staged_advance (A := ManagedConfigSnapshot) _ _ _ _ _ _ _ (n - 1)); [lia|done|left|expected_solver|done|].
    intros _ w5 _ _ Hrun5 (Hg5 & _). eapply (verify_attach_total (o_plan op) payload t0 _ _ id now record Hfound);
      [done|done| |exact Hrun5|left]; [lia|]. split; [congruence|by rewrite Hg5, Hg4].
  - eapply (apply_attach_total (o_plan op) payload t0 _ _ id now record Hfound); [done|done| |exact Hrun|done]. lia.
Qed.
End Outcome.

(** ** Issue and renewal test *)

Section Certbot.
Context `{EngineExternals}.
Context (cfg : Config).
Let paths := cf_paths cfg.

Definition is_certd (c : Call) : bool := match c with CallCertd _ _ => true | _ => false end.
Definition certd_calls (w : World) : list Call := List.filter is_certd (runs w).

Lemma certd_inventory now w r w' :
  engine_certificate_inventory cfg now w = (r, w') -> certd_calls w' = certd_calls w.
Proof. intros (en & ac & (e & a & Hr & _) & _)%certificates_listed_runs. unfold certd_calls. by rewrite Hr. Qed.

Lemma certd_unrun {A} (m : EM A) w r w' : unrun m -> m w = (r, w') -> certd_calls w' = certd_calls w.
Proof. intros Hu Hm. unfold certd_calls. by rewrite (unrun_result _ _ _ _ Hu Hm). Qed.

Lemma certd_same w w' : same_host w w' -> certd_calls w' = certd_calls w.
Proof. intros (_ & _ & _ & Hr). unfold certd_calls. by rewrite Hr. Qed.

(** At most the one exchange. *)
Definition exchanged (command : CertbotCommand) (before after : list Call) : Prop :=
  after = before \/ exists request response, after = CallCertd request response :: before /\ cq_command request = command.

Lemma certbot_run_exchanged command now w r w' :
  certbot_run command now w = (r, w') -> exchanged command (certd_calls w) (certd_calls w').
Proof.
  unfold certbot_run. intros Hr.
  apply mbind_inv in Hr as [(e & Hm & ->)|(rid & w1 & Hm & Hr)]; pose proof (certd_unrun _ _ _ _ unrun_identifier Hm) as Hu;
    [by left|]. rewrite <- Hu. clear Hm Hu. cbv zeta in Hr.
  apply mbind_inv in Hr as [(e & Hm & ->)|([] & w2 & Hm & Hr)]; injection Hm as _ <-; [by left|].
  set (request := {| cq_protocol_version := _ |}) in Hr.
  assert (forall x w2, exchange_certd request w1 = (x, w2) -> exchanged command (certd_calls w1) (certd_calls w2)) as He.
  { unfold exchange_certd, ask_certd. intros x w2 Hx. destruct (certd_exchange _ _) as [resp m].
    right. exists request, resp. split; [|done]. by destruct resp; injection Hx as _ <-. }
  apply mbind_inv in Hr as [(e & Hm & ->)|(resp & w2 & Hm & Hr)]; apply He in Hm; [done|].
  destruct (_ || _); [by injection Hr as _ <-|]. destruct (cs_result resp); [|by injection Hr as _ <-].
  apply mbind_inv in Hr as [(e & Hx & ->)|([] & w3 & Hx & Hr)]; injection Hx as _ <-; [done|by injection Hr as _ <-].
Qed.

(** The inventory was too long for its count, the only error that propagates. *)
Definition count_fault (w : World) : Prop :=
  exists now w0 inventory, engine_certificate_inventory cfg now w0 = (Ok inventory, w) /\
    u32_max < Z.of_nat (length (iv_certificates inventory)).

(** The last inventory read. *)
Definition read_back (inventory : CertificateInventoryView) (w : World) : Prop :=
  exists now w1 w2, engine_certificate_inventory cfg now w1 = (Ok inventory, w2) /\ same_host w2 w.

Section Running.
Context (op : StoredOperation) (id : string) (now : Z) (w0 : World).
Context (command : CertbotCommand) (codes : CertCodes) (verdict : CertificateInventoryView -> CertVerdict).

(** What the terminal stage of a run says. *)
Definition certbot_outcome (stage : OperationStage) (w : World) : Prop :=
  match stage with
  | CancelledBeforeApply => certd_calls w = certd_calls w0
  | Rejected => exchanged command (certd_calls w0) (certd_calls w)
  | Succeeded => exists c evidence inventory v,
      certd_calls w = c :: certd_calls w0 /\ certd_completed command evidence c /\ cb_success evidence = true /\
      read_back inventory w /\ verdict inventory = inr v
  | _ => False
  end.

Lemma certbot_outcome_same stage w w' : same_host w w' -> certbot_outcome stage w -> certbot_outcome stage w'.
Proof.
  intros Hs. unfold certbot_outcome. rewrite (certd_same _ _ Hs). destruct stage; try done.
  intros (c & ev & inv & v & A & B & C & (n & w1 & w2 & D & E) & F). exists c, ev, inv, v. split_and!; try done.
  exists n, w1, w2. split; [done|by etrans].
Qed.

Let I : NginxTree -> Prop := fun t => t = w_nginx w0.
Let done_ := settled I id (o_plan op) certbot_outcome.

(** The operation in the stages of the run. *)
Definition in_run (n : Z) (stage : OperationStage) (w : World) : Prop :=
  I (w_nginx w) /\ exists cur, live n now id cur w /\ o_stage cur = stage /\ o_plan cur = o_plan op.

Lemma in_run_observes n stage w w' : observes w w' -> in_run n stage w -> in_run n stage w'.
Proof.
  intros Hob (HI & cur & Hl & Hc). pose proof Hob as (Hg & _). split; [unfold I in *; congruence|].
  exists cur. split; [by eapply live_observes|done].
Qed.

Lemma run_advance {B} n change (k : StoredOperation -> EM B) Post stage w :
  1 <= n -> in_run n stage w -> stage ∈ t_expected change -> leaves_active change -> t_now_ms change = now ->
  (forall cur w', in_run (n - 1) (t_next change) w' -> same_host w w' -> total count_fault I w' (k cur) Post) ->
  total count_fault I w (mbind (ledger (transition id change)) k) Post.
Proof.
  intros Hn (HI & cur & Hl & <- & Hp) Hin Ha Hnow Hk. apply total_bind. eapply (total_transition _ _ n); try done.
  intros w1 Hl1 Hs1. apply Hk; [|done]. split; [unfold I in *; rewrite (proj1 Hs1); done|]. by eexists.
Qed.

(** A terminal stage, its receipt and the clean-up. *)
Lemma run_conclude n change stage w :
  1 <= n -> in_run n stage w -> stage ∈ t_expected change -> leaves_active change -> t_now_ms change = now ->
  is_terminal (t_next change) = true -> certbot_outcome (t_next change) w ->
  total count_fault I w
    (let! terminal := ledger (transition id change) in
     let! r := ledger (receipt (o_operation_id terminal)) in
     let! _ := remove_operation_proposal terminal in mret r) done_.
Proof.
  intros Hn (HI & cur & Hl & <- & Hp) Hin Ha Hnow Ht Hout. eapply (total_terminal_cleanup _ _ n); try done.
  intros r w' Hf Hg. eexists. split; [exact Hf|]. cbn [transition_op o_plan o_stage].
  split_and!; [done|rewrite (proj1 Hg); done|by eapply certbot_outcome_same].
Qed.

Lemma conclude_certbot_total n c evidence w :
  1 <= n -> in_run n Validating w -> certd_calls w = c :: certd_calls w0 -> certd_completed command evidence c ->
  cb_success evidence = true ->
  total count_fault I w (conclude_certbot cfg id (cc_unreadable codes) verdict now) done_.
Proof.
  intros Hn Hrun Hc Hcmp Hs. unfold conclude_certbot. apply total_try. intros r w1 Hi.
  pose proof (in_run_observes _ _ _ _ (inventory_observes _ _ _ _ _ Hi) Hrun) as Hrun1.
  assert (certd_calls w1 = c :: certd_calls w0) as Hc1 by (by rewrite (certd_inventory _ _ _ _ Hi)).
  assert (exchanged command (certd_calls w0) (certd_calls w1)) as Hex.
  { right. destruct Hcmp as (q & resp & -> & <- & _). by exists q, (Some resp). }
  destruct r as [inventory|e]; [|eapply run_conclude; try done; [left|expected_solver]].
  destruct (verdict inventory) as [[reason ev]|[code ev]] eqn:Hv;
    [eapply run_conclude; try done; [left|expected_solver]|].
  eapply run_conclude; try done; [left|expected_solver|].
  exists c, evidence, inventory, (code, ev). split_and!; try done. by exists now, w, w1.
Qed.

Lemma run_certbot_total n record w :
  3 <= n -> in_run n Snapshotted w -> certd_calls w = certd_calls w0 ->
  total count_fault I w (run_certbot cfg id record command codes verdict now) done_.
Proof.
  intros Hn Hrun Hc. unfold run_certbot. eapply (run_advance n); [lia|done|left|expected_solver|done|].
  intros _ w1 Hrun1 Hs1. rewrite <- (certd_same _ _ Hs1) in Hc. apply total_try_quiet; [apply quiet_certbot|].
  intros ran m2 Hr. pose proof (certbot_run_exchanged _ _ _ _ _ Hr) as Hex. rewrite Hc in Hex.
  assert (in_run (n - 1) Applying (with_host m2 w1)) as Hrun2 by (eapply in_run_observes; [|exact Hrun1]; by split_and!).
  destruct ran as [evidence|e]; [|eapply (run_conclude (n - 1)); try done; [lia|left|expected_solver]].
  destruct (certbot_run_ok _ _ _ _ _ Hr) as (c & Hruns & Hcmp & _).
  assert (certd_calls (with_host m2 w1) = c :: certd_calls w0) as Hc2.
  { unfold certd_calls at 1. rewrite Hruns. destruct Hcmp as (q & resp & -> & _). simpl. by rewrite <- Hc. }
  cbv zeta. eapply (run_advance (n - 1)); [lia|done|left|expected_solver|done|].
  intros _ w3 Hrun3 Hs3. rewrite <- (certd_same _ _ Hs3) in Hc2, Hex. destruct (negb _) eqn:Hok.
  - eapply (run_conclude (n - 1 - 1)); try done; [lia|left|expected_solver].
  - bool_prop. eapply (conclude_certbot_total (n - 1 - 1)); try done. lia.
Qed.

Lemma snapshot_and_run_total n digest w :
  4 <= n -> live n now id op w -> o_stage op = Approved -> w_nginx w = w_nginx w0 -> certd_calls w = certd_calls w0 ->
  total count_fault I w (snapshot_and_run cfg op digest command codes verdict now) done_.
Proof.
  intros Hn Hl Hst Hg Hc. unfold snapshot_and_run. rewrite (live_id _ _ _ _ _ Hl).
  assert (forall w1 code, live n now id op w1 -> w_nginx w1 = w_nginx w0 -> certd_calls w1 = certd_calls w0 ->
    total count_fault I w1 (cancel_certbot_before_apply op code now) done_) as Hcancel.
  { intros w1 code Hl1 Hg1 Hc1. unfold cancel_certbot_before_apply. rewrite (live_id _ _ _ _ _ Hl1).
    eapply (run_conclude n _ Approved); try done; [lia|by split; [|exists op]|left|expected_solver]. }
  apply total_try. intros found w1 Hi. pose proof (inventory_observes _ _ _ _ _ Hi) as Hob.
  pose proof (live_observes _ _ _ _ _ _ Hob Hl) as Hl1. pose proof Hob as (Hg1 & _).
  assert (certd_calls w1 = certd_calls w0) as Hc1 by (by rewrite (certd_inventory _ _ _ _ Hi)).
  destruct found as [inventory|e]; [|apply Hcancel; congruence || done].
  destruct (_ || _); [apply Hcancel; congruence || done|].
  apply total_bind. unfold certificate_count. cbv zeta. destruct (_ <=? _) eqn:El.
  2:{ apply Z.leb_gt in El. split; [|unfold I; congruence]. right. by exists now, w, inventory. }
  apply total_lift. set (count := Z.of_nat _). apply total_try. intros r w3 Hw.
  set (snap := inventory_snapshot inventory count) in Hw.
  destruct (write_snapshot_keeps cfg id "certificate-inventory.json" (to_json snap) w1) as (Hs3 & Hg3 & _).
  change (write_snapshot_bytes cfg id "certificate-inventory.json" (to_json snap))
    with (write_certificate_inventory_snapshot cfg id snap) in Hs3, Hg3. rewrite Hw in Hs3, Hg3. simpl in Hs3, Hg3.
  pose proof (certd_unrun _ _ _ _ (unrun_write_snapshot cfg _ _ _) Hw) as Hc3.
  assert (live n now id op w3) as Hl3 by (by eapply live_store).
  destruct r as [record|e]; [|apply Hcancel; congruence || done]. apply total_bind.
  eapply (total_attach _ I n now id op record); [unfold I; congruence|lia|done|done|].
  intros w4 Hl4 Hs4. eapply (run_certbot_total (n - 1)); [lia| |rewrite (certd_same _ _ Hs4); congruence].
  split; [unfold I; rewrite (proj1 Hs4); congruence|]. by eexists.
Qed.
End Running.

(** *** The staging gate *)

(** A staging issue with the same evidence succeeded at or after [since]. *)
Definition staged_before (db : Db) (key : string) (since : Z) : Prop :=
  exists id row op payload, operations db !! id = Some row /\ load_operation_from db id = Ok op /\
    o_stage op = Succeeded /\ p_operation_type (o_plan op) = CERTBOT_ISSUE_OPERATION /\
    since <= or_updated_at_ms row /\ p_certbot_issue (o_plan op) = Some payload /\
    ip_environment payload = Staging /\ ip_staging_evidence_key payload = key.

Lemma elem_of_staging_rows db since encoded :
  encoded ∈ staging_rows db since ->
  exists id row prow, operations db !! id = Some row /\ plans db !! or_plan_id row = Some prow /\
    pr_operation_type prow = CERTBOT_ISSUE_OPERATION /\ or_stage row = stage_storage_value Succeeded /\
    since <= or_updated_at_ms row /\ encoded = pr_certificate_issue_payload_json prow.
Proof.
  unfold staging_rows. intros ([t e] & -> & Hin)%list_elem_of_fmap. rewrite elem_of_isort in Hin.
  apply list_elem_of_omap in Hin as ([id row] & Hin & Hs). apply elem_of_map_to_list in Hin. simpl in Hs.
  destruct (plans db !! or_plan_id row) as [prow|] eqn:Ep; [|done]. destruct (_ && _ && _) eqn:Hg; [|done].
  bool_prop. injection Hs as _ <-. exists id, row, prow. by split_and!.
Qed.

Lemma staging_match_sound key rows :
  (forall encoded, encoded ∈ rows -> exists payload : option CertbotIssuePlanPayload, encoded = to_json payload) ->
  exists b, staging_match key rows = Ok b /\
    (b = true -> exists payload, to_json (Some payload) ∈ rows /\ ip_environment payload = Staging /\
                                 ip_staging_evidence_key payload = key).
Proof.
  induction rows as [|encoded rest IH]; intros Hr; [by exists false|]. simpl.
  destruct (Hr encoded ltac:(left)) as [payload ->]. rewrite from_to_json. simpl.
  destruct (is_some_and payload _) eqn:Hp.
  - exists true. split; [done|]. intros _. destruct payload as [v|]; [|done]. simpl in Hp. bool_prop.
    exists v. split_and!; [left|done|done].
  - destruct IH as (b & -> & Hb); [intros e He; apply Hr; by right|]. exists b. split; [done|].
    intros (v & Hin & Hv)%Hb. exists v. split; [by right|done].
Qed.

Lemma staging_evidence_total (F : World -> Prop) (I : NginxTree -> Prop) key since w (Post : bool -> World -> Prop) :
  I (w_nginx w) -> store_inv (w_store w) ->
  (forall b w', (b = true -> staged_before (st_db (w_store w)) key since) ->
                observes w w' -> same_host w w' -> Post b w') ->
  total F I w (ledger (has_recent_staging_evidence key since)) Post.
Proof.
  intros HI Hinv HP. apply total_ledger; [done|]. intros ok. unfold has_recent_staging_evidence, read_db. simpl.
  set (db := st_db (w_store w)).
  destruct (staging_match_sound key (staging_rows db since)) as (b & -> & Hb).
  { intros e (id & row & prow & _ & Hp & _ & _ & _ & ->)%elem_of_staging_rows.
    destruct (ri_plans _ _ _ _ (si_rows _ Hinv) _ _ Hp) as (p & -> & _). by eexists. }
  intros h Hh. apply HP.
  - intros (payload & Hin & Henv & Hkey)%Hb.
    apply elem_of_staging_rows in Hin as (id & row & prow & Hrow & Hp & Ht & Hs & Hu & He).
    destruct (load_operation_from_ok _ _ _ (si_rows _ Hinv) Hrow) as (op & Hop & _ & Hplan & _ & _ & Hstage).
    unfold db in *. assert (prow = plan_row (o_plan op)) as -> by congruence. simpl in Ht, He. exists id, row, op, payload.
    split_and!; try done.
    + rewrite Hs in Hstage. by destruct (o_stage op).
    + by apply to_json_inj in He.
  - split_and!; try done. apply rtc_once, set_io_step.
  - done.
Qed.

(** *** The two executions *)

Definition renew_outcome (w0 : World) : OperationStage -> World -> Prop :=
  certbot_outcome w0 RenewDryRun renew_verdict.

Lemma execute_renew_total n now id op payload w :
  4 <= n -> live n now id op w -> o_stage op = Approved -> p_certbot_renew (o_plan op) = Some payload ->
  let I := fun t => t = w_nginx w in
  total count_fault I w (execute_certbot_renew_test cfg op now) (settled I id (o_plan op) (renew_outcome w)).
Proof.
  intros Hn Hl Hst Hp I. unfold execute_certbot_renew_test. rewrite Hp. apply total_bind, total_lift.
  by eapply (snapshot_and_run_total op id now w).
Qed.

Definition issue_command (payload : CertbotIssuePlanPayload) (email : string) : CertbotCommand :=
  Issue (ip_primary_domain payload) (ip_domains payload) email (ip_environment payload) true.

(** The exchange, if any, issues what the payload says with the e-mail address
    of the plan's proposal; a production one follows a recent staging one. *)
Definition issue_outcome (payload : CertbotIssuePlanPayload) (w0 : World) (stage : OperationStage) (w : World)
    : Prop :=
  (exists email, sha256_digest email = ip_account_email_proposal_digest payload /\
     certbot_outcome w0 (issue_command payload email) (issue_verdict payload) stage w) \/
  stage = CancelledBeforeApply /\ certd_calls w = certd_calls w0.

Definition issue_gate (payload : CertbotIssuePlanPayload) (now : Z) (w0 : World) (stage : OperationStage) : Prop :=
  ip_environment payload = Production -> stage <> CancelledBeforeApply ->
  staged_before (st_db (w_store w0)) (ip_staging_evidence_key payload) (sat_sub now CERTBOT_STAGING_EVIDENCE_TTL_MS).

Lemma settled_mono (I : NginxTree -> Prop) id plan (K K' : OperationStage -> World -> Prop) r w :
  (forall stage, K stage w -> K' stage w) -> settled I id plan K r w -> settled I id plan K' r w.
Proof. intros HK (op & Hf & Hp & HI & Hk). exists op. split_and!; auto. Qed.

Lemma read_proposal_digest record content w w' :
  read_proposal record w = (Ok content, w') -> sha256_digest content = pr_digest record.
Proof.
  unfold read_proposal. cbv zeta. intros Hr. do 3 bind_inv Hr. em_step Hr.
  destruct (sd_files _ !! _) as [[m bytes]|]; [|done]. destruct (_ || _); [done|]. em_step Hr.
  destruct (_ || _); [done|]. em_step Hr. destruct (_ || _) eqn:Hd; [done|]. bool_prop. by injection Hr as <- _.
Qed.

Lemma execute_issue_total n now id op payload w :
  4 <= n -> live n now id op w -> o_stage op = Approved -> p_certbot_issue (o_plan op) = Some payload ->
  let I := fun t => t = w_nginx w in
  total count_fault I w (execute_certbot_issue cfg op now)
    (settled I id (o_plan op) (fun stage w' => issue_outcome payload w stage w' /\ issue_gate payload now w stage)).
Proof.
  intros Hn Hl Hst Hp I. unfold execute_certbot_issue. rewrite Hp. apply total_bind, total_lift.
  assert (forall w1 code, live n now id op w1 -> w_nginx w1 = w_nginx w -> runs w1 = runs w ->
    total count_fault I w1 (cancel_certbot_before_apply op code now)
      (settled I id (o_plan op) (fun stage w' => issue_outcome payload w stage w' /\ issue_gate payload now w stage)))
    as Hcancel.
  { intros w1 code Hl1 Hg1 Hr1. unfold cancel_certbot_before_apply. rewrite (live_id _ _ _ _ _ Hl1).
    eapply (total_terminal_cleanup _ I n); try done; [lia|rewrite Hst; left|expected_solver|].
    intros r w2 Hf (Hg2 & _ & _ & Hr2). eexists. split; [exact Hf|]. cbn [transition_op o_plan o_stage change t_next].
    split_and!; [done|unfold I; congruence|right|by intros _ []]. split; [done|]. unfold certd_calls. congruence. }
  apply total_try. intros email w1 He. destruct (keeps_result _ _ _ _ _ (read_proposal_keeps _) He) as (Hs1 & Hh1).
  pose proof Hh1 as (Hg1 & _ & _ & Hr1). assert (live n now id op w1) as Hl1 by (by eapply live_store).
  destruct email as [email|e]; [|by apply Hcancel]. apply read_proposal_digest in He. simpl in He.
  apply total_bind.
  assert (forall staged w2, (ip_environment payload = Production -> staged = true ->
      staged_before (st_db (w_store w)) (ip_staging_evidence_key payload) (sat_sub now CERTBOT_STAGING_EVIDENCE_TTL_MS)) ->
    observes w1 w2 -> same_host w1 w2 ->
    total count_fault I w2
      (if negb staged then cancel_certbot_before_apply op "staging_required" now
       else
         try! site := validate_issue_site paths (ip_site_id payload) (ip_site_digest payload) (ip_domains payload) in
         if is_err site then cancel_certbot_before_apply op "precondition_changed" now
         else snapshot_and_run cfg op (ip_inventory_digest payload) (issue_command payload email)
                (issue_codes (ip_environment payload)) (issue_verdict payload) now)
      (settled I id (o_plan op) (fun stage w' => issue_outcome payload w stage w' /\ issue_gate payload now w stage)))
    as Hgo.
  { intros staged w2 Hgate Hob (Hg2 & _ & _ & Hr2). pose proof (live_observes _ _ _ _ _ _ Hob Hl1) as Hl2.
    destruct staged; simpl; [|apply Hcancel; congruence || done].
    apply total_try_quiet; [apply quiet_issue_site|]. intros site m3 Hsite.
    pose proof (unrun_result _ _ _ _ (unrun_issue_site cfg _ _ _) Hsite) as Hr3.
    assert (live n now id op (with_host m3 w2)) as Hl3 by (by apply live_machine).
    destruct (is_err site); [apply Hcancel; simpl in *; congruence || done|].
    eapply total_mono; [eapply (snapshot_and_run_total op id now w); try done;
      [simpl; congruence|unfold certd_calls; simpl in *; congruence]|].
    intros r w4. apply settled_mono. intros stage Hk. split; [left; by exists email|]. intros Hprod _. by apply Hgate. }
  case_bool_decide as Henv.
  - apply staging_evidence_total; [unfold I; congruence|apply Hl1|].
    intros b w2 Hb Hob Hs. apply Hgo; [|done|done]. intros _ Hbt. rewrite <- Hs1. by apply Hb.
  - apply total_ret. by apply Hgo.
Qed.
End Certbot.
