(* ===== verification/EngineServiceProofs.v ===== *)
(** * jw-opsd: execution of a service lifecycle operation, proved *)

From Stdlib Require Import Ascii String.
From S2P Require Import Prelude Crypto Contracts Plans Adapters Ledger LedgerLog LedgerInv LedgerStore.
From S2P Require Import LedgerApi Text Ufw Host Snapshot Nginx EngineCore EngineNginx.
From S2P Require Import EngineService EngineLogic HostProofs.

Section ServiceSpec.
Context `{EngineExternals}.
Context (cfg : Config).

(** The faults [execute_service_control] propagates instead of concluding:
    in the world it leaves, the last call was a program that could not be
    run, or the read of the service snapshot that has just failed. *)
Definition runner_fault (w : World) : Prop :=
  (exists c t e, head (calls w) = Some (CallRun c t (Err e))) \/
  (exists e, head (calls w) = Some (CallEdge (Err e))).

Definition snapshot_fault (w : World) : Prop :=
  exists record w0 e, read_service_state_snapshot record w0 = (Err e, w).

Definition service_fault (w : World) : Prop := runner_fault w \/ snapshot_fault w.

(** The last two programs run: [command] succeeded, then [is-active] answered
    [b] for the service. *)
Definition settled_active (service : RegisteredService) (command : CommandClass) (b : bool) (w : World) : Prop :=
  exists t active effect rest,
    runs w = CallRun (active_command service) t (Ok active) :: CallRun command t (Ok effect) :: rest /\
    c_success active = b /\ c_success effect = true.

Definition service_outcome (service : RegisteredService) (action : ManagedServiceAction)
    (op : StoredOperation) (w : World) : Prop :=
  let before := bool_decide (p_current_state (o_plan op) = Enabled) in
  match o_stage op with
  | Succeeded => settled_active service (action_command service action) (expected_active action) w /\
      o_after_digest op = service_state_digest (unit_name service) (expected_active action)
  | RolledBack => settled_active service (restore_command service before) before w /\
      o_after_digest op = service_state_digest (unit_name service) before
  | CancelledBeforeApply | RecoveryRequired => True
  | _ => False
  end.

Definition service_done (t0 : NginxTree) (id : string) (plan : StoredPlan) (service : RegisteredService)
    (action : ManagedServiceAction) (r : OperationReceiptView) (w : World) : Prop :=
  exists op, finished id op r w /\ o_plan op = plan /\ w_nginx w = t0 /\ service_outcome service action op w.

Lemma run_err c w e w' : run c w = (Err e, w') -> service_fault w'.
Proof. intros (_ & Hc)%run_runs. left. left. rewrite Hc. by do 3 eexists. Qed.

(** The snapshot an execution takes. *)
Definition service_snapshot (plan : StoredPlan) (service : RegisteredService) (active : bool) : ServiceStateSnapshot :=
  {| ss_schema_version := 1; ss_service_id := p_site_id plan; ss_unit_name := unit_name service;
     ss_active := active; ss_state_digest := service_state_digest (unit_name service) active |}.

Section Running.
Context (plan : StoredPlan) (t0 : NginxTree) (id : string) (now : Z) (record : SnapshotRecord)
        (service : RegisteredService) (action : ManagedServiceAction).
Let prior : bool := bool_decide (p_current_state plan = Enabled).
Hypothesis Hservice : registered_service (p_site_id plan) = Ok service.

Let I : NginxTree -> Prop := fun t => t = t0.
Let post := service_done t0 id plan service action.

Let in_service := staged I plan id now record (service_snapshot plan service prior).

Lemma service_terminate n stage change w :
  1 <= n -> in_service n stage w -> stage ∈ t_expected change -> leaves_active change ->
  t_now_ms change = now -> is_terminal (t_next change) = true ->
  (forall op w', o_plan op = plan -> runs w' = runs w ->
                 service_outcome service action (transition_op op change) w') ->
  total service_fault I w (conclude id change) post.
Proof.
  intros Hn Hin He Ha Hnow Ht Hout. pose proof Hin as (HI & _).
  eapply (staged_conclude (A := ServiceStateSnapshot)); try done. intros op r w' Hp Hf Hg.
  eexists. split; [exact Hf|]. split_and!; [done|rewrite (proj1 Hg); exact HI|apply Hout; [done|apply Hg]].
Qed.

Lemma quiet_restore s b : quiet (restore_service s b).
Proof. unfold restore_service, is_active_equals. quiet_solver. Qed.

Lemma restore_seen s b w w' :
  restore_service s b w = (Ok true, w') -> settled_active s (restore_command s b) b w'.
Proof.
  unfold restore_service, mtry. destruct (run (restore_command s b) w) as [r w1] eqn:E0.
  destruct (is_ok_and r c_success) eqn:Hok; [|done]. unfold is_active_equals, mtry, mret.
  destruct (run (active_command s) w1) as [[ev|e] w2] eqn:E; [|done]. simpl. intros [= Hb <-].
  apply Bool.eqb_prop in Hb. destruct r as [ev0|]; [|done].
  destruct (run_runs _ _ _ _ E) as [R2 _]. destruct (run_runs _ _ _ _ E0) as [R1 _].
  exists (w_nginx w), ev, ev0, (runs w). split_and!; [|done|done]. rewrite R2, R1. f_equal. f_equal.
  by destruct (quiet_result _ _ _ _ (quiet_run _) E0) as [h ->].
Qed.

Lemma restore_ok s b w r w' : restore_service s b w = (r, w') -> exists v, r = Ok v.
Proof.
  unfold restore_service, mtry. destruct (run (restore_command s b) w) as [r0 w1].
  destruct (is_ok_and r0 c_success); [|intros [= <- _]; by eexists].
  unfold is_active_equals, mtry, mret. destruct (run (active_command s) w1). intros [= <- _]. by eexists.
Qed.

Lemma restore_state_total n op w :
  1 <= n -> in_service n RollingBack w -> o_snapshot op = Some record ->
  total service_fault I w (restore_service_state id op now) post.
Proof.
  intros Hn Hin Hr. pose proof Hin as (HI & Hs & _). unfold restore_service_state. rewrite Hr.
  apply total_bind_quiet; [quiet_solver|done|done|]. intros rec m1 [= <-].
  apply total_bind_quiet; [unfold read_service_state_snapshot; quiet_solver|done| |].
  { intros e w' E. right. by eexists _, _, _. }
  intros s m2 Hread. apply (read_stored _ _ _ _ (with_host m1 w) _ Hs) in Hread as ->.
  cbn [service_snapshot ss_service_id].
  rewrite Hservice. apply total_bind_quiet; [quiet_solver|done|done|]. intros ? m3 [= <-]. simpl.
  rewrite !bool_decide_eq_true_2 by done. simpl.
  apply total_bind_quiet; [apply quiet_restore|done| |].
  { intros e w' E. by apply restore_ok in E as [v E]. }
  intros v m4 Hv. cbv zeta.
  eapply (service_terminate n); [lia|by do 4 apply (staged_machine (A := ServiceStateSnapshot))|left|expected_solver|done|by destruct v|].
  intros op0 w' Hp0 Hr'. unfold service_outcome. cbn [transition_op o_stage o_plan o_after_digest change t_next t_after_digest default].
  destruct v; [|done]. rewrite Hp0. fold prior. split; [|done]. unfold settled_active. rewrite Hr'.
  by eapply restore_seen.
Qed.

Lemma rollback_service_total n stage code digest w :
  2 <= n -> in_service n stage w -> stage ∈ [Applying; Verifying; RollingBack] ->
  total service_fault I w (rollback_service_control id code digest now) post.
Proof.
  intros Hn Hin Hst. eapply (staged_rolling (A := ServiceStateSnapshot)); [done|exact Hin| |expected_solver|].
  { destruct (decide (stage = RollingBack)); [by left|right; set_solver]. }
  intros op w' _ Hr Hw _. eapply (restore_state_total (n - 1)); [lia|done|done].
Qed.

Lemma verify_service_total n op w :
  2 <= n -> in_service n Verifying w -> o_operation_id op = id ->
  (exists ev rest, runs w = CallRun (action_command service action) t0 (Ok ev) :: rest /\ c_success ev = true) ->
  total service_fault I w (verify_service op service action now) post.
Proof.
  intros Hn Hin Hid (ev0 & rest & Hrs & Hok). unfold verify_service. rewrite Hid. pose proof Hin as (HI & _).
  apply total_bind_quiet; [apply quiet_run|done|intros; by eapply run_err|].
  intros ev m1 Hrun. destruct (negb _) eqn:Hv.
  - eapply (rollback_service_total n); [lia|by apply (staged_machine (A := ServiceStateSnapshot))|set_solver].
  - bool_prop. apply Bool.eqb_prop in Hv.
    eapply (service_terminate n); [lia|by apply (staged_machine (A := ServiceStateSnapshot))|left|expected_solver|done|done|].
    intros op0 w' Hp0 Hr'. unfold service_outcome. cbn [transition_op o_stage o_after_digest change t_next t_after_digest default].
    rewrite <- Hv. split; [|done]. exists t0, ev, ev0, rest. split_and!; [|done|done].
    rewrite Hr'. destruct (run_runs _ _ _ _ Hrun) as [-> _]. by rewrite Hrs, HI.
Qed.

Lemma apply_service_total n op snapshotted w :
  4 <= n -> in_service n Snapshotted w -> o_operation_id op = id -> o_operation_id snapshotted = id ->
  total service_fault I w (apply_service op snapshotted service action now) post.
Proof.
  intros Hn Hin Hid Hid'. unfold apply_service. rewrite Hid, Hid'.
  eapply (staged_advance (A := ServiceStateSnapshot) _ _ _ _ _ _ _ n); [lia|done|left|expected_solver|done|]. intros _ w1 _ _ Hin1 (Hg1 & _). simpl in Hin1.
  assert (Applying ∈ [Applying; Verifying; RollingBack]) as Hap by left.
  apply total_try_quiet; [apply quiet_run|].
  intros [ev|e] m1 Hrun; [|eapply (rollback_service_total (n - 1)); [lia|by apply (staged_machine (A := ServiceStateSnapshot))|done]].
  destruct (negb _) eqn:Hok; [eapply (rollback_service_total (n - 1)); [lia|by apply (staged_machine (A := ServiceStateSnapshot))|done]|].
  bool_prop. destruct (run_runs _ _ _ _ Hrun) as [R1 _].
  eapply (staged_advance (A := ServiceStateSnapshot) _ _ _ _ _ _ _ (n - 1)); [lia|by apply (staged_machine (A := ServiceStateSnapshot))|left|expected_solver|done|].
  intros _ w2 _ _ Hin2 (_ & _ & _ & Hr2). eapply (verify_service_total (n - 1 - 1)); [lia|done|done|].
  exists ev, (runs w1). split; [|done]. rewrite Hr2, R1. pose proof Hin as (HI & _). by rewrite Hg1, HI.
Qed.
End Running.

Lemma cancel_service_total n now id op code digest service action t0 w :
  1 <= n -> live n now id op w -> o_stage op = Approved -> w_nginx w = t0 ->
  total service_fault (fun t => t = t0) w (cancel_service op code digest now)
    (service_done t0 id (o_plan op) service action).
Proof.
  intros Hn Hl Hst Ht. unfold cancel_service. rewrite (live_id _ _ _ _ _ Hl).
  eapply (total_terminal _ _ n); try done; [rewrite Hst; left|expected_solver|].
  intros r w' Hf (Hg & _). eexists. split; [exact Hf|]. split_and!; [done|congruence|done].
Qed.

Lemma quiet_ingress s a : quiet (ingress_kept s a).
Proof. unfold ingress_kept. quiet_solver. Qed.

Lemma ingress_err s a w e w' : ingress_kept s a w = (Err e, w') -> service_fault w'.
Proof.
  unfold ingress_kept. destruct (_ && _); [|done]. intros (_ & Hc)%edge_runs. left. right. rewrite Hc. by eexists.
Qed.

Lemma execute_service_total n now id op service action w :
  5 <= n -> live n now id op w -> o_stage op = Approved ->
  registered_service (p_site_id (o_plan op)) = Ok service ->
  service_action_from_digest (p_available_digest (o_plan op)) = Ok action ->
  total service_fault (fun t => t = w_nginx w) w (execute_service_control cfg op now)
    (service_done (w_nginx w) id (o_plan op) service action).
Proof.
  intros Hn Hl Hst Hsv Hac. unfold execute_service_control. rewrite Hsv, Hac.
  apply total_bind_quiet; [quiet_solver|done|done|]. intros ? m1 [= <-].
  apply total_bind_quiet; [quiet_solver|done|done|]. intros ? m2 [= <-].
  apply total_bind_quiet; [apply quiet_ingress|done|intros; by eapply ingress_err|]. intros kept m3 _.
  destruct (negb kept); [by eapply (cancel_service_total n); [lia|eapply live_store; [|exact Hl]|..]|].
  apply total_bind_quiet; [apply quiet_run|done|intros; by eapply run_err|]. intros ev m4 _.
  destruct (_ || _) eqn:Hpre; [by eapply (cancel_service_total n); [lia|eapply live_store; [|exact Hl]|..]|].
  bool_prop. rename select (Bool.eqb _ _ = true) into Hact. apply Bool.eqb_prop in Hact.
  apply total_try. intros r w1 Hw. cbn zeta in Hw. rewrite (live_id _ _ _ _ _ Hl), Hact in Hw.
  set (snap := {| ss_schema_version := 1 |}) in Hw.
  pose proof (write_snapshot_keeps cfg id "service-state.json" (to_json snap)) as Hk.
  match type of Hw with _ ?w0 = _ => specialize (Hk w0) end.
  unfold write_service_state_snapshot in Hw. rewrite Hw in Hk. destruct Hk as (Hst1 & Hg1 & _). simpl in Hst1, Hg1.
  assert (live n now id op w1) as Hl1 by (by eapply live_store).
  destruct r as [record|e]; [|by eapply (cancel_service_total n); [lia|done|done|done]].
  apply write_snapshot_written, written_stored in Hw as [m Hm]. rewrite (live_id _ _ _ _ _ Hl).
  apply total_bind. eapply (total_attach _ _ n now id op record); [done|lia|done|done|].
  intros w2 Hl2 (Hg2 & Hsn2 & _).
  eapply apply_service_total with (n := n - 1) (record := record);
    [done|lia| |by eapply live_id|by eapply live_id].
  split_and!; [congruence|exists m; by rewrite Hsn2|]. by eexists.
Qed.
End ServiceSpec.
