(* ===== verification/EngineUfwProofs.v ===== *)
(** * jw-opsd: execution of a UFW rule operation and the rule arithmetic, proved *)

From Stdlib Require Import Ascii String Sorting.Sorted.
From S2P Require Import Prelude Crypto Contracts Plans Adapters Ledger LedgerLog LedgerInv LedgerStore.
From S2P Require Import LedgerApi Text Ufw Host Snapshot Nginx EngineCore EngineNginx.
From S2P Require Import EngineService EngineUfw EngineLogic HostProofs.

Section UfwSpec.
Context `{EngineExternals}.
Context (cfg : Config).

(** The view an inventory returned right after the programs [rs] (newest
    first): the parse of the last status output, or that of a machine without
    UFW. *)
Definition shows (view : UfwView) (rs : list Call) : Prop :=
  (exists ev at_ rest, rs = CallUfw UStatus (Ok ev) :: rest /\ view = parse_ufw_status ev at_) \/
  (exists at_, view = ufw_not_installed_view at_).

(** The faults [execute_ufw_rule] propagates: in the world it leaves, the last
    call was a UFW program that could not be run, or the read of the snapshot
    has just failed, or the rule no longer resolves in the inventory just read. *)
Definition ufw_fault (payload : UfwPlanPayload) (w : World) : Prop :=
  (exists c e, head (calls w) = Some (CallUfw c (Err e))) \/
  (exists record w0 e, read_ufw_snapshot record w0 = (Err e, w)) \/
  (exists view e, shows view (runs w) /\ validate_resolved_rule payload view = Err e).

Lemma quiet_inventory now : quiet (ufw_inventory now).
Proof. unfold ufw_inventory, observe_ufw. quiet_solver. Qed.

Lemma inventory_shows now w view w' : ufw_inventory now w = (Ok view, w') -> shows view (runs w').
Proof.
  unfold ufw_inventory. intros Hi. do 2 em_step Hi. destruct (enforce w && _) eqn:Em.
  - injection Hi as <- _. right. by eexists.
  - unfold observe_ufw in Hi. bind_inv Hi. injection Hi as <- <-. apply run_ufw_runs in Hm0 as [Hr _].
    left. by do 3 eexists.
Qed.

(** An inventory runs at most one program. *)
Lemma inventory_runs now w r w' :
  ufw_inventory now w = (r, w') -> runs w' = runs w \/ exists a, runs w' = CallUfw UStatus a :: runs w.
Proof.
  unfold ufw_inventory, mbind, mlift, mget. destruct (format_time now); [|intros [= _ <-]; by left]. simpl.
  destruct (_ && _); [intros [= _ <-]; by left|]. unfold observe_ufw, mbind.
  destruct (run_ufw UStatus w) as [[ev|e] w1] eqn:E; apply run_ufw_runs in E as [Hr _]; intros [= _ <-]; right; by eexists.
Qed.

Lemma inventory_err now w e w' payload :
  is_some (rfc3339 now) = true -> ufw_inventory now w = (Err e, w') -> ufw_fault payload w'.
Proof.
  intros Hn. unfold ufw_inventory, mbind, mlift, format_time, mget. destruct (rfc3339 now); [|done]. simpl.
  destruct (_ && _); [done|]. unfold observe_ufw, mbind.
  destruct (run_ufw UStatus w) as [[ev|e'] w1] eqn:E; [done|]. intros [= _ <-].
  apply run_ufw_runs in E as [_ Hc]. left. rewrite Hc. by do 2 eexists.
Qed.

(** The terminal stage, given the world [w0] and the time the execution
    started at. *)
Definition ufw_outcome (payload : UfwPlanPayload) (w0 : World) (now : Z) (op : StoredOperation) (w : World) : Prop :=
  match o_stage op with
  | Succeeded => exists view, shows view (runs w) /\ effect_verified payload view = true /\
      o_after_digest op = uw_state_digest view
  | RolledBack => exists before w1 after rs,
      ufw_inventory now w0 = (Ok before, w1) /\ uw_state_digest before = p_enabled_state_digest (o_plan op) /\
      (runs w = rs \/ exists a, runs w = CallUfw UStatus a :: rs) /\ shows after rs /\
      rollback_verified payload after (rules_with_id (us_rule_id (up_rule payload)) (uw_rules before)) = true
  | CancelledBeforeApply | RecoveryRequired => True
  | _ => False
  end.

Definition ufw_done (w0 : World) (now : Z) (id : string) (plan : StoredPlan) (payload : UfwPlanPayload)
    (r : OperationReceiptView) (w : World) : Prop :=
  exists op, finished id op r w /\ o_plan op = plan /\ w_nginx w = w_nginx w0 /\ ufw_outcome payload w0 now op w.

(** The snapshot an execution takes. *)
Definition ufw_snapshot (before : UfwView) : UfwSnapshot :=
  {| uf_schema_version := 1; uf_state_digest := uw_state_digest before; uf_rules := uw_rules before |}.

Lemma quiet_delete_each seqs : quiet (delete_each seqs).
Proof. induction seqs as [|s seqs IH]; cbn [delete_each]; quiet_solver. Qed.

Lemma quiet_delete_sequences seqs : quiet (delete_sequences seqs).
Proof. apply quiet_bind; [apply quiet_delete_each|quiet_solver]. Qed.

Lemma quiet_apply_payload payload : quiet (apply_payload payload).
Proof. unfold apply_payload. destruct (up_requested_mutation payload); [quiet_solver..|apply quiet_delete_sequences]. Qed.

Lemma quiet_restore_effect payload original : quiet (restore_product_effect payload original).
Proof.
  unfold restore_product_effect. apply quiet_bind; [apply quiet_run_ufw|]. intros ev. apply quiet_bind.
  - destruct (bool_decide _); [apply quiet_ret|apply quiet_delete_sequences].
  - intros _. quiet_solver.
Qed.

Lemma quiet_restore_verify payload original now : quiet (restore_and_verify payload original now).
Proof.
  apply quiet_try; [|quiet_solver].
  apply quiet_bind; [apply quiet_restore_effect|intros; apply quiet_inventory].
Qed.

Lemma restore_verify_shows payload original now w v w' :
  restore_and_verify payload original now w = (Ok v, w') -> v = true ->
  exists view, shows view (runs w') /\ rollback_verified payload view original = true.
Proof.
  unfold restore_and_verify, mtry. destruct (mbind _ _ w) as [[view|e] w1] eqn:E; [|by intros [= <- _]].
  apply mbind_inv_ok in E as (? & w2 & _ & Hi). intros [= <- <-] Hv. exists view. by split; [eapply inventory_shows|].
Qed.

Lemma restore_verify_ok payload original now w r w' :
  restore_and_verify payload original now w = (r, w') -> exists v, r = Ok v.
Proof. unfold restore_and_verify, mtry, mret. destruct (mbind _ _ w). intros [= <- _]. by eexists. Qed.

Section Running.
Context (plan : StoredPlan) (w0 w1 : World) (id : string) (now : Z) (record : SnapshotRecord)
        (payload : UfwPlanPayload) (before : UfwView).
Hypothesis Hpayload : p_ufw_rule plan = Some payload.
Hypothesis Hseen : ufw_inventory now w0 = (Ok before, w1).
Hypothesis Hdigest : uw_state_digest before = p_enabled_state_digest plan.

Let I : NginxTree -> Prop := fun t => t = w_nginx w0.
Let post := ufw_done w0 now id plan payload.
Let in_ufw := staged I plan id now record (ufw_snapshot before).

Lemma ufw_terminate n stage change w :
  1 <= n -> in_ufw n stage w -> stage ∈ t_expected change -> leaves_active change ->
  t_now_ms change = now -> is_terminal (t_next change) = true ->
  (forall op w', o_plan op = plan -> runs w' = runs w -> ufw_outcome payload w0 now (transition_op op change) w') ->
  total (ufw_fault payload) I w (conclude id change) post.
Proof.
  intros Hn Hin He Ha Hnow Ht Hout. pose proof Hin as (HI & _).
  eapply (staged_conclude (A := UfwSnapshot)); try done. intros op r w' Hp Hf Hg.
  eexists. split; [exact Hf|]. split_and!; [done|rewrite (proj1 Hg); exact HI|apply Hout; [done|apply Hg]].
Qed.

Lemma restore_ufw_total n op w :
  1 <= n -> in_ufw n RollingBack w -> o_plan op = plan -> o_snapshot op = Some record ->
  total (ufw_fault payload) I w (restore_ufw_state id op now) post.
Proof.
  intros Hn Hin Hp Hr. pose proof Hin as (HI & Hs & _). unfold restore_ufw_state. rewrite Hp, Hpayload, Hr.
  apply total_bind_quiet; [quiet_solver|done|done|]. intros ? m0 [= <-].
  apply total_bind_quiet; [quiet_solver|done|done|]. intros rec m1 [= <-].
  apply total_bind_quiet; [unfold read_ufw_snapshot; quiet_solver|done| |].
  { intros e w' E. right. left. by eexists _, _, _. }
  intros s m2 Hread. apply (read_stored _ _ _ _ (with_host m1 (with_host m0 w)) _ Hs) in Hread as ->.
  cbn [ufw_snapshot uf_rules]. apply total_bind_quiet; [apply quiet_restore_verify|done| |].
  { intros e w' E. by apply restore_verify_ok in E as [v E]. }
  intros v m3 Hv. apply total_try_quiet; [apply quiet_inventory|]. intros rb m4 Hrb. cbv zeta.
  eapply (ufw_terminate n);
    [lia|by do 5 apply (staged_machine (A := UfwSnapshot))|left|expected_solver|done|by destruct v|].
  intros op0 w' Hp0 Hr'. unfold ufw_outcome. cbn [transition_op o_stage o_plan change t_next].
  destruct v; [|done]. destruct (restore_verify_shows _ _ _ _ _ _ Hv eq_refl) as (view & Hview & Hok).
  exists before, w1, view. eexists. rewrite Hp0, Hr'. split_and!; [done|done|by eapply inventory_runs|done|done].
Qed.

Lemma rollback_ufw_total n stage code digest w :
  2 <= n -> in_ufw n stage w -> stage ∈ [Applying; Verifying; Validating; Reloading; RollingBack] ->
  total (ufw_fault payload) I w (rollback_ufw_rule id code digest now) post.
Proof.
  intros Hn Hin Hst. eapply (staged_rolling (A := UfwSnapshot)); [done|exact Hin| |expected_solver|].
  { destruct (decide (stage = RollingBack)); [by left|right; set_solver]. }
  intros op w' Hp Hr Hw _. eapply (restore_ufw_total (n - 1)); [lia|done|done|done].
Qed.

Lemma verify_ufw_total n w :
  2 <= n -> in_ufw n Verifying w -> is_some (rfc3339 now) = true ->
  total (ufw_fault payload) I w (verify_ufw id payload now) post.
Proof.
  intros Hn Hin Hnow. pose proof Hin as (HI & _). unfold verify_ufw.
  apply total_bind_quiet; [apply quiet_inventory|done|intros; by eapply inventory_err|].
  intros after m1 Hi. destruct (negb _) eqn:Hv.
  - eapply (rollback_ufw_total n); [lia|by apply (staged_machine (A := UfwSnapshot))|set_solver].
  - bool_prop. eapply (ufw_terminate n);
      [lia|by apply (staged_machine (A := UfwSnapshot))|left|expected_solver|done|done|].
    intros op0 w' Hp0 Hr'. exists after. rewrite Hr'. split_and!; [by eapply inventory_shows|done|done].
Qed.
End Running.

Lemma ufw_cancel_total n now id op code digest payload w0 w :
  1 <= n -> live n now id op w -> o_stage op = Approved -> w_nginx w = w_nginx w0 ->
  total (ufw_fault payload) (fun t => t = w_nginx w0) w
    (conclude id (change [Approved] CancelledBeforeApply code digest None None now))
    (ufw_done w0 now id (o_plan op) payload).
Proof.
  intros Hn Hl Hst Ht. eapply (total_terminal _ _ n); try done; [rewrite Hst; left|expected_solver|].
  intros r w' Hf (Hg & _). eexists. split; [exact Hf|]. split_and!; [done|congruence|done].
Qed.

Lemma execute_ufw_total n now id op payload w :
  5 <= n -> live n now id op w -> o_stage op = Approved -> p_ufw_rule (o_plan op) = Some payload ->
  total (ufw_fault payload) (fun t => t = w_nginx w) w (execute_ufw_rule cfg op now)
    (ufw_done w now id (o_plan op) payload).
Proof.
  intros Hn Hl Hst Hpay. unfold execute_ufw_rule. rewrite Hpay, (live_id _ _ _ _ _ Hl).
  pose proof (lv_now _ _ _ _ _ Hl) as Hnow.
  apply total_bind, total_lift.
  apply total_bind_quiet; [apply quiet_inventory|done|intros; by eapply inventory_err|]. intros before m2 Hi.
  pose proof (inventory_shows _ _ _ _ Hi) as Hshow.
  destruct (_ || _) eqn:Hpre; [by eapply (ufw_cancel_total n); [lia|eapply live_store; [|exact Hl]|..]|].
  bool_prop. apply total_bind_quiet; [quiet_solver|done| |].
  { intros e w' [= E <-]. right. right. by eexists _, _. }
  intros _ m3 _. apply total_try. intros r w1 Hw. fold (ufw_snapshot before) in Hw.
  pose proof (write_snapshot_keeps cfg id "ufw-rules.json" (to_json (ufw_snapshot before))) as Hk.
  match type of Hw with _ ?w0 = _ => specialize (Hk w0) end.
  unfold write_ufw_snapshot in Hw. rewrite Hw in Hk. destruct Hk as (Hst1 & Hg1 & _). simpl in Hst1, Hg1.
  assert (live n now id op w1) as Hl1 by (by eapply live_store).
  destruct r as [record|e]; [|by eapply (ufw_cancel_total n); [lia|done|done|done]].
  apply write_snapshot_written, written_stored in Hw.
  apply total_bind. eapply (total_attach _ _ n now id op record); [done|lia|done|done|].
  intros w2 Hl2 Hs2.
  assert (staged (fun t => t = w_nginx w) (o_plan op) id now record (ufw_snapshot before) (n - 1) Snapshotted w2)
    as Hin2 by (by apply (staged_next _ _ _ _ _ _ _ (attach_op op record) w1 _ Hg1 Hw Hs2 Hl2)).
  eapply (staged_advance (A := UfwSnapshot) _ _ _ _ _ _ _ (n - 1)); [lia|done|left|expected_solver|done|].
  intros _ w3 _ _ Hin3 _. apply total_try_quiet; [apply quiet_apply_payload|]. intros [d|e] m4 _.
  - eapply (staged_advance (A := UfwSnapshot) _ _ _ _ _ _ _ (n - 1 - 1));
      [lia|by apply (staged_machine (A := UfwSnapshot))|left|expected_solver|done|].
    intros _ w4 _ _ Hin4 _. by eapply verify_ufw_total with (n := n - 1 - 1 - 1); first [done|lia|exact Hin4].
  - eapply rollback_ufw_total with (n := n - 1 - 1);
      first [done|lia|by apply (staged_machine (A := UfwSnapshot))|set_solver].
Qed.
End UfwSpec.

(** ** jw-opsd: deleting and resolving firewall rules, proved

    Deleting by number in descending order removes exactly the rules of the
    id; what planning resolves, execution accepts. *)

(** *** Positions *)

Section Positions.
Context {R : Type}.

(** The elements whose position, counted from [i], is not listed. *)
Fixpoint keep (i : Z) (seqs : list Z) (l : list R) : list R :=
  match l with
  | [] => []
  | x :: l' => if bool_decide (i ∈ seqs) then keep (i + 1) seqs l' else x :: keep (i + 1) seqs l'
  end.

Lemma keep_app i seqs a b :
  keep i seqs (a ++ b) = keep i seqs a ++ keep (i + Z.of_nat (length a)) seqs b.
Proof.
  revert i. induction a as [|x a IH]; intros i; simpl; [by rewrite Z.add_0_r|].
  rewrite IH. replace (i + 1 + Z.of_nat (length a)) with (i + Z.of_nat (S (length a))) by lia.
  by case_bool_decide.
Qed.

Lemma keep_ext i s1 s2 l :
  (forall j, i <= j < i + Z.of_nat (length l) -> j ∈ s1 <-> j ∈ s2) -> keep i s1 l = keep i s2 l.
Proof.
  revert i. induction l as [|x l IH]; intros i Hs; [done|]. cbn [keep length] in *.
  rewrite (bool_decide_ext (i ∈ s1) (i ∈ s2)) by (apply Hs; lia).
  rewrite (IH (i + 1)); [done|]. intros j Hj. apply Hs. lia.
Qed.

Lemma keep_nil i l : keep i [] l = l.
Proof.
  revert i. induction l as [|x l IH]; intros i; [done|]. cbn [keep].
  rewrite bool_decide_eq_false_2 by apply not_elem_of_nil. by rewrite IH.
Qed.

(** Removing the highest listed position leaves the lower ones in place. *)
Lemma keep_remove s seqs l :
  1 <= s <= Z.of_nat (length l) -> Forall (fun x => x < s) seqs ->
  keep 1 seqs (remove_at s l) = keep 1 (s :: seqs) l.
Proof.
  intros Hs Hlt. unfold remove_at. rewrite Forall_forall in Hlt.
  destruct (lookup_lt_is_Some_2 l (Z.to_nat (s - 1))) as [x Hx]; [lia|].
  replace (drop (Z.to_nat s) l) with (drop (S (Z.to_nat (s - 1))) l) by (f_equal; lia).
  rewrite <- (take_drop_middle l _ x Hx) at 3.
  set (a := take (Z.to_nat (s - 1)) l). set (b := drop (S (Z.to_nat (s - 1))) l).
  assert (length a = Z.to_nat (s - 1)) as Ha by (unfold a; rewrite length_take; lia).
  rewrite !keep_app, Ha. cbn [keep].
  replace (1 + Z.of_nat (Z.to_nat (s - 1))) with s by lia.
  rewrite bool_decide_eq_true_2 by left. f_equal.
  - apply keep_ext. intros j Hj. rewrite elem_of_cons. split; [by right|]. intros [->|]; [lia|done].
  - rewrite (keep_ext s seqs []), (keep_ext (s + 1) (s :: seqs) []), !keep_nil; [done| |].
    + intros j Hj. rewrite elem_of_cons, elem_of_nil. split; [|done]. intros [->|Hin]; [lia|]. apply Hlt in Hin. lia.
    + intros j Hj. rewrite elem_of_nil. split; [|done]. intros Hin. apply Hlt in Hin. lia.
Qed.
End Positions.

(** *** Sorting *)

Definition descending (l : list Z) : Prop := StronglySorted (fun a b => b < a) l.

Lemma insert_descending x l :
  x ∉ l -> descending l -> descending (insert_sorted (fun a b => b <=? a) x l).
Proof.
  intros Hx Hs. induction Hs as [|y l Hs IH Hall]; cbn [insert_sorted].
  { constructor; [constructor|by apply Forall_nil]. }
  rewrite not_elem_of_cons in Hx. destruct Hx as [Hne Hx]. destruct (y <=? x) eqn:E.
  - apply Z.leb_le in E. constructor; [by constructor|]. apply Forall_cons. split; [lia|].
    eapply Forall_impl; [exact Hall|]. simpl. lia.
  - apply Z.leb_gt in E. constructor; [by apply IH|]. rewrite insert_sorted_perm. apply Forall_cons. by split.
Qed.

Lemma sort_descending_ok l : NoDup l -> descending (sort_descending l).
Proof.
  intros Hnd. induction Hnd as [|x l Hx Hnd IH]; [constructor|]. unfold sort_descending in *. cbn [isort].
  apply insert_descending; [by rewrite elem_of_isort|done].
Qed.

(** *** Deleting by number *)

Section Delete.
Context `{EngineExternals}.
Context {R : Type} (listing : Machine -> list R).

(** [ufw delete n] removes the [n]-th rule of the listing. *)
Definition deletes_by_number : Prop :=
  forall n m ev m', runner_run_ufw (UDeleteAt n) m = (Ok ev, m') -> c_success ev = true ->
    listing m' = remove_at n (listing m).

Lemma length_remove_at {A} n (l : list A) :
  1 <= n <= Z.of_nat (length l) -> Z.of_nat (length (remove_at n l)) = Z.of_nat (length l) - 1.
Proof. intros Hn. unfold remove_at. rewrite length_app, length_take, length_drop. lia. Qed.

Lemma delete_each_keeps seqs w ds w' :
  deletes_by_number -> descending seqs ->
  Forall (fun s => 1 <= s <= Z.of_nat (length (listing (h_machine (w_host w))))) seqs ->
  delete_each seqs w = (Ok ds, w') ->
  listing (h_machine (w_host w')) = keep 1 seqs (listing (h_machine (w_host w))).
Proof.
  intros Hdel. revert w ds. induction seqs as [|s seqs IH]; intros w ds Hd Hr Hrun; cbn [delete_each] in Hrun.
  { injection Hrun as _ <-. by rewrite keep_nil. }
  apply Forall_cons in Hr as [Hs Hr]. inversion_clear Hd as [|? ? Hd' Hlt].
  bind_inv Hrun. unfold run_ufw, ask_ufw in Hm. destruct (runner_run_ufw _ _) as [r m] eqn:E. injection Hm as -> <-.
  destruct (negb (c_success a)) eqn:Hok; [done|]. bool_prop. bind_inv Hrun. injection Hrun as _ <-.
  pose proof (Hdel _ _ _ _ E Hok) as Hl. erewrite (IH _ a0); [|done| |done].
  - simpl. rewrite Hl. by apply keep_remove.
  - simpl. rewrite Hl, length_remove_at by done. rewrite Forall_forall in *. intros x Hx.
    specialize (Hr x Hx). specialize (Hlt x Hx). simpl in Hlt. lia.
Qed.
End Delete.

(** *** The listing and its numbered view *)

Section Listing.
Context {R : Type} (render : Z -> R -> UfwRuleView) (rid : R -> option string).
Hypothesis render_sequence : forall n r, uv_sequence (render n r) = n.
Hypothesis render_id : forall n r, uv_rule_id (render n r) = rid r.

Fixpoint numbered (i : Z) (l : list R) : list UfwRuleView :=
  match l with
  | [] => []
  | r :: rest => render i r :: numbered (i + 1) rest
  end.

Definition positions (rule_id : string) (i : Z) (l : list R) : list Z :=
  map uv_sequence (rules_with_id rule_id (numbered i l)).

Lemma positions_cons id i r l :
  positions id i (r :: l) =
  (if bool_decide (rid r = Some id) then [i] else []) ++ positions id (i + 1) l.
Proof.
  unfold positions, rules_with_id. cbn [numbered List.filter]. unfold has_rule_id at 1.
  rewrite render_id. case_bool_decide; cbn [map app]; by rewrite ?render_sequence.
Qed.

Lemma positions_range id i l :
  Forall (fun s => i <= s < i + Z.of_nat (length l)) (positions id i l).
Proof.
  revert i. induction l as [|r l IH]; intros i; [by apply Forall_nil|]. rewrite positions_cons.
  apply Forall_app. split.
  - case_bool_decide; [|by apply Forall_nil]. apply Forall_singleton. simpl. lia.
  - eapply Forall_impl; [apply IH|]. simpl. lia.
Qed.

Lemma positions_nodup id i l : NoDup (positions id i l).
Proof.
  revert i. induction l as [|r l IH]; intros i; [constructor|]. rewrite positions_cons.
  case_bool_decide; [|apply IH]. constructor; [|apply IH]. intros Hin.
  pose proof (positions_range id (i + 1) l) as Hr. rewrite Forall_forall in Hr. specialize (Hr _ Hin). simpl in Hr. lia.
Qed.

Lemma keep_positions id i l seqs :
  (forall j, i <= j < i + Z.of_nat (length l) -> j ∈ seqs <-> j ∈ positions id i l) ->
  keep i seqs l = filter (fun r => rid r <> Some id) l.
Proof.
  revert i. induction l as [|r l IH]; intros i Hs; [done|]. cbn [keep].
  assert (i ∈ seqs <-> rid r = Some id) as Hi.
  { rewrite Hs by (simpl; lia). rewrite positions_cons, elem_of_app. split.
    - intros [Hin|Hin]; [by case_bool_decide; [|apply elem_of_nil in Hin]|].
      pose proof (positions_range id (i + 1) l) as Hr. rewrite Forall_forall in Hr. specialize (Hr _ Hin). simpl in Hr. lia.
    - intros ->. left. rewrite bool_decide_eq_true_2 by done. left. }
  rewrite (bool_decide_ext (i ∈ seqs) (rid r = Some id)) by done. rewrite (IH (i + 1)).
  - case_bool_decide; [rewrite filter_cons_False|rewrite filter_cons_True]; naive_solver.
  - intros j Hj. rewrite Hs by (simpl; lia). rewrite positions_cons, elem_of_app. split; [|by right].
    intros [Hin|Hin]; [|done]. case_bool_decide; [apply list_elem_of_singleton in Hin; lia|by apply elem_of_nil in Hin].
Qed.
End Listing.

(** *** Resolution *)

Lemma existsb_false {A} (p : A -> bool) l : existsb p l = false -> Forall (fun x => p x = false) l.
Proof.
  induction l as [|x l IH]; cbn [existsb]; [intros _; by apply Forall_nil|].
  intros [Hx Hl]%orb_false_iff. apply Forall_cons. auto.
Qed.

Lemma forall_existsb_false {A} (p : A -> bool) l : Forall (fun x => p x = false) l -> existsb p l = false.
Proof. induction 1 as [|x l Hx _ IH]; [done|]. cbn [existsb]. by rewrite Hx, IH. Qed.

Lemma rules_with_id_elem id r rules :
  r ∈ rules_with_id id rules -> r ∈ rules /\ uv_rule_id r = Some id.
Proof.
  unfold rules_with_id, has_rule_id. intros [Hin Hp]%list_elem_of_In%filter_In. bool_prop.
  split; [by apply list_elem_of_In|done].
Qed.

(** Deletion resolves to the common identity of the rules with the id. *)
Lemma resolve_delete_ok rule_id inventory rule seqs :
  resolve_delete rule_id inventory = Ok (rule, seqs) ->
  let matches := rules_with_id rule_id (uw_rules inventory) in
  us_rule_id rule = rule_id /\
  Forall (fun r => uv_owned r = true /\ uv_protected r = false) matches /\
  seqs ≡ₚ map uv_sequence matches /\
  exists first, first ∈ matches /\ uv_action first = mutation_as_str (us_mutation rule) /\
    us_source rule = normalized_source (uv_source first) /\
    uv_protocol first = Some (us_protocol rule) /\ uv_port first = Some (us_port rule) /\
    Forall (fun r => same_identity first r = true) matches.
Proof.
  unfold resolve_delete, ok_or. intros Hr. set (matches := rules_with_id _ _) in *.
  destruct (head matches) as [first|] eqn:Hfirst; [|done].
  destruct (existsb _ matches) eqn:Hown; [done|]. destruct (existsb uv_protected matches) eqn:Hprot; [done|].
  destruct (if bool_decide (uv_action first = "allow"%string) then _ else _) as [mut|] eqn:Hmut; [|done].
  destruct (uv_protocol first) as [pr|] eqn:Hpr; [|done]. destruct (uv_port first) as [po|] eqn:Hpo; [|done].
  destruct (existsb (fun r => negb (same_identity first r)) matches) eqn:Hsame; [done|]. injection Hr as <- <-.
  apply existsb_false in Hown, Hprot, Hsame. rewrite Forall_forall in Hown, Hprot, Hsame.
  split_and!; [done| |apply isort_perm|].
  - apply Forall_forall. intros r Hin. specialize (Hown r Hin). specialize (Hprot r Hin). simpl in *.
    by apply negb_false_iff in Hown.
  - exists first. split_and!; try done.
    + destruct matches; [done|]. simpl in Hfirst. simplify_eq. left.
    + simpl. destruct (bool_decide (uv_action first = "allow"%string)) eqn:E; bool_prop; simplify_eq; [done|].
      destruct (bool_decide (uv_action first = "deny"%string)) eqn:E2; bool_prop; by simplify_eq.
    + apply Forall_forall. intros r Hin. specialize (Hsame r Hin). simpl in Hsame. by apply negb_false_iff in Hsame.
Qed.

Lemma eq_ignore_case_mutation m : eq_ignore_ascii_case (mutation_as_str m) (mutation_as_str m) = true.
Proof. by destruct m. Qed.

Lemma resolve_delete_matches rule_id inventory rule seqs r :
  resolve_delete rule_id inventory = Ok (rule, seqs) ->
  normalized_source (normalized_source (uv_source r)) = normalized_source (uv_source r) ->
  r ∈ rules_with_id rule_id (uw_rules inventory) ->
  rule_matches_spec r rule = true /\ uv_protected r = false.
Proof.
  intros Hr Hn Hin. destruct (resolve_delete_ok _ _ _ _ Hr) as
    (Hid & Hall & _ & first & Hf & Hact & Hsrc & Hpr & Hpo & Hsame).
  rewrite Forall_forall in Hall, Hsame. destruct (Hall r Hin) as [Hown Hprot]. specialize (Hsame r Hin).
  destruct (rules_with_id_elem _ _ _ Hin) as [_ Hrid]. simpl in Hsame. unfold same_identity in Hsame. bool_prop.
  split; [|done]. unfold rule_matches_spec, has_rule_id.
  rewrite Hown, Hrid, Hid. repeat match goal with Heq : _ r = _ first |- _ => rewrite Heq end.
  rewrite Hpr, Hpo, Hact, eq_ignore_case_mutation, !bool_decide_eq_true_2; try done.
  rewrite Hsrc. congruence.
Qed.

Lemma resolve_delete_validates rule_id inventory rule seqs :
  Forall (fun r => normalized_source (normalized_source (uv_source r)) = normalized_source (uv_source r))
    (uw_rules inventory) ->
  resolve_delete rule_id inventory = Ok (rule, seqs) ->
  (if negb (length (rules_with_id (us_rule_id rule) (uw_rules inventory)) =? length seqs)%nat
      || existsb (fun r => negb (rule_matches_spec r rule) || uv_protected r)
           (rules_with_id (us_rule_id rule) (uw_rules inventory))
   then Err (ERejected "precondition_changed") else Ok tt) = (Ok tt : oresult unit).
Proof.
  intros Hn Hr. destruct (resolve_delete_ok _ _ _ _ Hr) as (-> & _ & Hperm & _).
  rewrite Hperm, length_map, Nat.eqb_refl. simpl. rewrite forall_existsb_false; [done|].
  apply Forall_forall. intros r Hin. destruct (rules_with_id_elem _ _ _ Hin) as [Hrin _].
  rewrite Forall_forall in Hn. by destruct (resolve_delete_matches _ _ _ _ r Hr (Hn r Hrin) Hin) as [-> ->].
Qed.

Section Requests.
Context `{EngineExternals}.

Lemma resolve_add_ok request inventory rule seqs :
  resolve_rule request inventory = Ok (rule, seqs) -> ur_mutation request <> UDelete ->
  us_mutation rule = ur_mutation request /\ seqs = [] /\
  matching_owned_rule inventory (us_rule_id rule) = None /\
  ur_protocol request = Some (us_protocol rule) /\ ur_port request = Some (us_port rule).
Proof.
  unfold resolve_rule, ok_or. intros Hr Hm.
  destruct (ur_mutation request); [| |done]; destruct (generated_rule_id request) as [rid|]; try done;
    destruct (matching_owned_rule inventory rid) eqn:Emo; try done; simpl in Hr;
    destruct (ur_protocol request); try done; destruct (ur_port request); try done; by simplify_eq.
Qed.

Lemma deny_unprotected request port :
  ufw_request_validate request = Ok tt -> ur_mutation request = UDeny -> ur_protocol request = Some Tcp ->
  ur_port request = Some port -> ufw_protected_tcp_port port = false.
Proof.
  intros Hv Hm Hp Hpo. unfold ufw_request_validate, ok_or in Hv. rewrite Hm, Hp, Hpo in Hv.
  destruct (_ =? _); [|done]. destruct (bool_decide _); [|done].
  destruct (validate_digest _); [|done]. destruct (validate_ascii_range _ _ _ _); [|done].
  destruct (0 <? port); [|done]. destruct (is_some _); [done|].
  destruct (match ur_source request with Some _ => _ | None => _ end); [|done].
  by destruct (ufw_protected_tcp_port port).
Qed.
End Requests.
