(* ===== verification/StartProofs.v ===== *)
(** * jw-opsd: start-up, proved

    [recover_operation] from whatever a crash left: the operation ends, the
    rows of the other operations stay, or the start-up stops with one of the
    faults named here.  An operation recorded as rolled back is, when this is
    recorded, put back as the snapshot on disk has it; one that is cancelled
    left the host alone.  Nothing is assumed about the snapshots on disk. *)

From Stdlib Require Import Ascii String.
From S2P Require Import Prelude Crypto Contracts Plans CertContracts Adapters Ledger LedgerLog LedgerInv LedgerStore.
From S2P Require Import LedgerApi Text Ufw Host Snapshot Nginx ConfigText Diagnostics ManagedConfig.
From S2P Require Import Certificate EngineCore EngineNginx EngineConfig EngineCert EngineService EngineUfw EngineMain.
From S2P Require Import EngineLogic HostProofs ManagedProofs EngineNginxProofs EngineConfigProofs.
From S2P Require Import EngineServiceProofs EngineUfwProofs CertProofs EngineCertProofs LedgerProps.

(** ** Actions beside the ledger *)

Section Kept.
Context `{EngineExternals}.
Context (cfg : Config).

Definition kept (w w' : World) : Prop := w_store w' = w_store w /\ w_snapshots w' = w_snapshots w.

#[export] Instance kept_preorder : PreOrder kept.
Proof. split; [done|]. intros a b c [A1 B1] [A2 B2]. split; congruence. Qed.

Lemma kept_quiet {A} (m : EM A) : quiet m -> keeps kept m.
Proof. by apply keeps_quiet. Qed.

Lemma kept_files {A} P (m : EM A) : keeps (files_only (cf_paths cfg) P) m -> keeps kept m.
Proof. apply keeps_weaken. by intros w w' (Hs & Hn & _). Qed.

Lemma kept_set_enabled site b : keeps kept (set_enabled site b).
Proof. intros w. by destruct (set_enabled_frame site b w) as (_ & Hs & Hn & _). Qed.

Lemma kept_atomic root basename content mode uid gid :
  keeps kept (atomic_replace (cf_paths cfg) root basename content mode uid gid).
Proof. apply (kept_files (fun _ _ => True)), atomic_replace_any. Qed.

Lemma kept_restore_managed rid basename content mode uid gid :
  keeps kept (restore_managed_config (cf_paths cfg) rid basename content mode uid gid).
Proof.
  unfold restore_managed_config.
  apply keeps_bind; [exact _|apply kept_quiet, quiet_discover_managed|]. intros current.
  destruct (_ || _); [apply kept_quiet; quiet_solver|]. apply keeps_bind; [exact _|apply kept_atomic|].
  intros _. apply kept_quiet, quiet_discover_managed.
Qed.

Lemma kept_restore_protected sid basename content mode uid gid :
  keeps kept (restore_protected_config (cf_paths cfg) sid basename content mode uid gid).
Proof.
  unfold restore_protected_config.
  apply keeps_bind; [exact _|apply kept_quiet, quiet_protected|]. intros current.
  destruct (_ || _); [apply kept_quiet; quiet_solver|]. apply keeps_bind; [exact _|apply kept_atomic|].
  intros _. apply keeps_bind; [exact _|apply kept_quiet, quiet_protected|]. intros restored.
  destruct (_ && _); apply kept_quiet; quiet_solver.
Qed.

(** ** One operation *)

Section One.
Context (F : World -> Prop) (st0 : Store) (id : string) (now : Z) (plan : StoredPlan) (snap : option SnapshotRecord).

Definition going (n : Z) (stage : OperationStage) (w : World) : Prop :=
  others id st0 (w_store w) /\
  exists op, live n now id op w /\ o_stage op = stage /\ o_plan op = plan /\ o_snapshot op = snap.

(** It ended, and what its stage says is so. *)
Definition closed (n : Z) (truth : OperationStage -> World -> Prop) (w : World) : Prop :=
  exists stage, truth stage w /\ going n stage w.

Lemma going_kept n stage w w' : kept w w' -> going n stage w -> going n stage w'.
Proof.
  intros [Hk _] (Ho & op & Hl & Hop). split; [by rewrite Hk|]. exists op. split; [by eapply live_store|done].
Qed.

Lemma going_le n n' stage w : n' <= n -> going n stage w -> going n' stage w.
Proof. intros Hn (Ho & op & Hl & Hop). split; [done|]. exists op. split; [by eapply live_le|done]. Qed.

Let any : NginxTree -> Prop := fun _ => True.

Lemma go_try {A B} n stage (m : EM A) (k : oresult A -> EM B) Post w :
  keeps kept m -> going n stage w ->
  (forall r w', m w = (r, w') -> kept w w' -> going n stage w' -> total F any w' (k r) Post) ->
  total F any w (mtry m k) Post.
Proof.
  intros Hm Hg Hk. apply total_try. intros r w' E. pose proof (keeps_result _ _ _ _ _ Hm E) as Hkept.
  apply Hk; [done|done|]. by eapply going_kept.
Qed.

Lemma going_machine n stage mach w : going n stage w -> going n stage (with_host mach w).
Proof. by apply going_kept. Qed.

Lemma go_quiet {A B} n stage (m : EM A) (k : oresult A -> EM B) Post w :
  quiet m -> going n stage w ->
  (forall r mach, m w = (r, with_host mach w) -> going n stage (with_host mach w) ->
     total F any (with_host mach w) (k r) Post) ->
  total F any w (mtry m k) Post.
Proof. intros Hm Hg Hk. apply total_try_quiet; [done|]. intros r mach E. apply Hk; [done|by apply going_machine]. Qed.

(** A read whose error stops the start-up. *)
Lemma go_bind {A B} n stage (m : EM A) (k : A -> EM B) Post w :
  quiet m -> going n stage w -> (forall e mach, m w = (Err e, with_host mach w) -> F (with_host mach w)) ->
  (forall a mach, m w = (Ok a, with_host mach w) -> going n stage (with_host mach w) ->
     total F any (with_host mach w) (k a) Post) ->
  total F any w (mbind m k) Post.
Proof.
  intros Hm Hg He Hk. unfold total, mbind. destruct (m w) as [r w'] eqn:E.
  destruct (quiet_result _ _ _ _ Hm E) as [mach ->]. destruct r as [a|e].
  - apply Hk; [done|by apply going_machine].
  - split; [right; by eapply He|done].
Qed.

(** A value that must be there. *)
Lemma go_require {A B} n stage (o : option A) e (k : A -> EM B) Post w :
  going n stage w -> (o = None -> F w) -> (forall a, o = Some a -> total F any w (k a) Post) ->
  total F any w (mbind (mlift (ok_or o e)) k) Post.
Proof.
  intros Hg Hnone Hk. destruct o as [a|]; [apply total_bind, total_lift; by apply Hk|]. split; [right; by apply Hnone|done].
Qed.

Lemma going_next n op w w' :
  others id st0 (w_store w) -> others id (w_store w) (w_store w') -> live n now id op w' ->
  o_plan op = plan -> o_snapshot op = snap -> going n (o_stage op) w'.
Proof.
  intros Ho Ho' Hl Hp Hs. split; [intros i Hi; by rewrite (Ho' i Hi), (Ho i Hi)|]. by exists op.
Qed.

Lemma go_record n change m stage w (Post : StoredOperation -> World -> Prop) :
  1 <= n -> going n stage w -> stage ∈ t_expected change -> leaves_active change -> t_now_ms change = now ->
  (forall op, o_plan op = plan -> recorded F w id op change m) ->
  (forall op w', o_operation_id op = id -> o_plan op = plan -> o_snapshot op = snap -> o_stage op = t_next change ->
                 going (n - 1) (t_next change) w' -> same_host w w' -> Post op w') ->
  total F any w (ledger m) Post.
Proof.
  intros Hn (Ho & op & Hl & <- & Hp & Hs) Hin Ha Hnow Hm HP.
  eapply (total_recorded_frame F any n now id op change); try done; [by apply Hm|].
  intros w' Hl' Hh Ho'. apply HP; try done; [by eapply live_id|].
  by apply (going_next _ (transition_op op change) w).
Qed.

Lemma going_receipt n stage w :
  going n stage w ->
  total F any w (ledger (receipt id)) (fun _ w' => going n stage w' /\ same_host w w').
Proof.
  intros (Ho & op & Hl & Hop). apply total_ledger; [done|]. intros ok. pose proof Hl as [Hinv Hld Hr Ht Hnow].
  destruct (receipt_total (set_io ok (w_store w)) id op) as (r & -> & _); [by apply store_inv_io|done|done|].
  intros h Hh. split; [|done]. split; [done|]. exists op. split; [|done].
  constructor; try done. simpl. by apply store_inv_io.
Qed.

Lemma going_same n stage w w' : w_store w' = w_store w -> going n stage w -> going n stage w'.
Proof. intros Hs (Ho & op & Hl & Hop). split; [by rewrite Hs|]. exists op. split; [by eapply live_store|done]. Qed.

(** A terminal stage, its receipt and a clean-up. *)
Lemma go_terminal n change m cleanup stage (truth : OperationStage -> World -> Prop) w :
  1 <= n -> going n stage w -> stage ∈ t_expected change -> leaves_active change -> t_now_ms change = now ->
  (forall op, o_plan op = plan -> recorded F w id op change m) -> (forall op, cleans (cleanup op)) ->
  (forall w', same_host w w' -> truth (t_next change) w') ->
  total F any w (let! terminal := ledger m in
                 let! r := ledger (receipt (o_operation_id terminal)) in
                 let! _ := cleanup terminal in mret r) (fun _ => closed (n - 1) truth).
Proof.
  intros Hn Hg Hin Ha Hnow Hm Hc Ht. apply total_bind. eapply go_record; try done.
  intros op w1 Hid _ _ _ Hg1 Hs1. apply total_bind. rewrite Hid.
  eapply total_mono; [by eapply going_receipt|]. intros r w2 [Hg2 Hs2]. apply total_bind.
  destruct (Hc op w2) as (w3 & E3 & Hs3 & Hh3). unfold total. rewrite E3. simpl.
  exists (t_next change). split; [apply Ht; etrans; [exact Hs1|by etrans]|by eapply going_same].
Qed.

Lemma go_conclude n change stage (truth : OperationStage -> World -> Prop) w :
  1 <= n -> going n stage w -> stage ∈ t_expected change -> leaves_active change -> t_now_ms change = now ->
  (forall w', same_host w w' -> truth (t_next change) w') ->
  total F any w (conclude id change) (fun _ => closed (n - 1) truth).
Proof.
  intros Hn Hg Hin Ha Hnow Ht. unfold conclude. apply total_bind. eapply go_record; try done.
  { intros op _. apply recorded_transition. }
  intros op w1 Hid _ _ _ Hg1 Hs1. rewrite Hid. eapply total_mono; [by eapply going_receipt|].
  intros r w2 [Hg2 Hs2]. exists (t_next change). split; [apply Ht; by etrans|done].
Qed.

Lemma go_finish n change stage (truth : OperationStage -> World -> Prop) w :
  1 <= n -> going n stage w -> stage ∈ t_expected change -> leaves_active change -> t_now_ms change = now ->
  (forall w', same_host w w' -> truth (t_next change) w') ->
  total F any w (let! terminal := ledger (transition id change) in
                 let! r := ledger (receipt (o_operation_id terminal)) in
                 let! _ := remove_operation_proposal terminal in mret r) (fun _ => closed (n - 1) truth).
Proof.
  intros Hn Hg Hin Ha Hnow Ht. eapply (go_terminal n change _ remove_operation_proposal); try done.
  - intros op _. apply recorded_transition.
  - apply cleans_operation.
Qed.

Lemma go_recovery n reason (truth : OperationStage -> World -> Prop) w :
  1 <= n -> going n RollingBack w -> (forall w', truth RecoveryRequired w') ->
  total F any w (recovery_required id reason now) (fun _ => closed (n - 1) truth).
Proof. intros Hn Hg Ht. eapply go_finish; [done|exact Hg|left|expected_solver|done|]. intros w' _. apply Ht. Qed.

(** The head of every rollback. *)
Lemma go_rolling {B} n stage expected code digest m (k : StoredOperation -> EM B) Post w :
  let t := change expected RollingBack code digest None None now in
  2 <= n -> going n stage w -> stage = RollingBack \/ stage ∈ expected -> leaves_active t ->
  (forall w1 op, o_plan op = plan -> recorded F w1 id op t m) ->
  (forall op w', o_plan op = plan -> o_snapshot op = snap -> going (n - 1) RollingBack w' -> total F any w' (k op) Post) ->
  total F any w
    (let! current := ledger (load_operation id) in
     let! rolling := (if bool_decide (o_stage current = RollingBack) then mret current else ledger m) in
     k rolling) Post.
Proof.
  intros t Hn Hg Hin Ha Hm HK. pose proof Hg as (Ho & op & Hl & Hst & Hp & Hs). apply total_bind.
  apply total_ledger; [done|]. intros ok. unfold load_operation, read_db. simpl. rewrite (lv_op _ _ _ _ _ Hl).
  intros h Hh. set (w1 := with_store _ _).
  assert (going n stage w1) as Hg1.
  { split; [done|]. exists op. split; [|done]. destruct Hl. constructor; try done. simpl. by apply store_inv_io. }
  apply total_bind. case_bool_decide as Hb.
  - apply total_ret. apply HK; [done|done|]. rewrite <- Hb, Hst. eapply going_le; [|exact Hg1]. lia.
  - eapply (go_record n t); [lia|exact Hg1| |done|done|by apply Hm|].
    { rewrite Hst in Hb. by destruct Hin. }
    intros op' w2 _ Hp' Hs' _ Hg2 _. by apply HK.
Qed.
End One.
End Kept.

(** ** The families *)

Section Families.
Context `{EngineExternals}.
Context (cfg : Config).

(** What a snapshot of the operation holds, read from the directory as it is. *)
Definition saved {A} (read : SnapshotRecord -> EM A) (op : StoredOperation) (s : A) (w : World) : Prop :=
  exists record w0 w1, o_snapshot op = Some record /\ w_snapshots w0 = w_snapshots w /\ read record w0 = (Ok s, w1).

Lemma saved_same {A} (read : SnapshotRecord -> EM A) op s w w' :
  w_snapshots w' = w_snapshots w -> saved read op s w -> saved read op s w'.
Proof. intros Hs (record & w0 & w1 & Hr & H0 & Hread). exists record, w0, w1. by rewrite Hs. Qed.

Definition validates_only (plan : StoredPlan) : bool :=
  is_some_and (p_managed_config plan) (fun payload => bool_decide (mp_service_action payload = ValidateOnly)).

(** The operation's subject is as its snapshot has it, and the programs that
    make it effective have just succeeded: Nginx accepted, reloaded and active
    with the link or the management site; the configuration file accepted and
    its service reloaded and active, unless the operation only validates; the
    unit started or stopped and found so; the firewall rules listed again. *)
Definition put_back (op : StoredOperation) (w : World) : Prop :=
  let plan := o_plan op in
  let t := w_nginx w in
  if is_type plan CERTBOT_RENEW_TEST_OPERATION || is_type plan CERTBOT_ISSUE_OPERATION then False
  else if is_type plan CERTBOT_ATTACH_OPERATION then
    exists s, saved read_managed_config_snapshot op s w /\
      site_now cfg t (ms_resource_id s) (ms_content_digest s) (ms_metadata_digest s) /\ nginx_reloaded t (runs w)
  else if is_type plan MANAGED_CONFIG_OPERATION || is_type plan MANAGED_CONFIG_RESTORE_OPERATION then
    exists s r, saved read_managed_config_snapshot op s w /\
      config_now cfg t (ms_resource_id s) (ms_content_digest s) (ms_metadata_digest s) r /\
      validated (cr_adapter r) (negb (validates_only plan)) (reloaded (cr_adapter r)) t (runs w)
  else if is_type plan SERVICE_CONTROL_OPERATION then
    exists s service, saved read_service_state_snapshot op s w /\ registered_service (ss_service_id s) = Ok service /\
      settled_active service (restore_command service (ss_active s)) (ss_active s) w
  else if is_type plan UFW_RULE_OPERATION then
    exists payload s view rs, p_ufw_rule plan = Some payload /\ saved read_ufw_snapshot op s w /\
      (runs w = rs \/ exists a, runs w = CallUfw UStatus a :: rs) /\ shows view rs /\
      rollback_verified payload view (rules_with_id (us_rule_id (up_rule payload)) (uf_rules s)) = true
  else exists s, saved read_nginx_snapshot op s w /\ EngineNginxProofs.restored s w.

(** It depends on the host only. *)
Lemma put_back_same op w w' : same_host w w' -> put_back op w -> put_back op w'.
Proof.
  intros (Hg & Hs & _ & Hr). unfold put_back. rewrite Hg, Hr.
  destruct (_ || _); [done|]. destruct (is_type _ CERTBOT_ATTACH_OPERATION).
  { intros (s & Hsv & Hrest). exists s. split; [by eapply saved_same|done]. }
  destruct (_ || _).
  { intros (s & r & Hsv & Hrest). exists s, r. split; [by eapply saved_same|done]. }
  destruct (is_type _ SERVICE_CONTROL_OPERATION).
  { intros (s & service & Hsv & Hreg & Hset). exists s, service. split; [by eapply saved_same|]. split; [done|].
    unfold settled_active in *. by rewrite Hr. }
  destruct (is_type _ UFW_RULE_OPERATION).
  { intros (payload & s & view & rs & Hp & Hsv & Hrest). exists payload, s, view, rs. split; [done|].
    split; [by eapply saved_same|done]. }
  intros (s & Hsv & Hrest). exists s. split; [by eapply saved_same|]. unfold EngineNginxProofs.restored in *. by rewrite Hg, Hr.
Qed.

(** A rolled-back operation is put back; of one left for manual recovery
    nothing is said. *)
Definition undone (op : StoredOperation) (stage : OperationStage) (w : World) : Prop :=
  stage = RecoveryRequired \/ stage = RolledBack /\ put_back op w.

(** The operation's snapshot is missing, could not be read, or is not one the
    rollback accepts. *)
Definition unusable {A} (read : SnapshotRecord -> EM A) (accepted : A -> bool) (op : StoredOperation) (w : World) : Prop :=
  o_snapshot op = None \/
  exists record w0 r, o_snapshot op = Some record /\ read record w0 = (r, w) /\ is_ok_and r accepted = false.

Definition service_accepted (s : ServiceStateSnapshot) : bool :=
  match registered_service (ss_service_id s) with
  | Ok service => bool_decide (ss_unit_name s = unit_name service)
                  && bool_decide (ss_state_digest s = service_state_digest (unit_name service) (ss_active s))
  | Err _ => false
  end.

(** The families whose recovery stops on such a snapshot. *)
Definition family_fault (op : StoredOperation) (w : World) : Prop :=
  let plan := o_plan op in
  if is_type plan CERTBOT_RENEW_TEST_OPERATION || is_type plan CERTBOT_ISSUE_OPERATION
  then unusable read_certificate_inventory_snapshot (fun _ => true) op w
  else if is_type plan SERVICE_CONTROL_OPERATION then unusable read_service_state_snapshot service_accepted op w
  else if is_type plan UFW_RULE_OPERATION
  then p_ufw_rule plan = None \/ unusable read_ufw_snapshot (fun _ => true) op w
  else False.

Definition start_fault (ops : list StoredOperation) (w : World) : Prop :=
  evidence_fault w \/ exists op, op ∈ ops /\ family_fault op w.

Context (ops : list StoredOperation).
Let F := start_fault ops.
Let any : NginxTree -> Prop := fun _ => True.

Lemma recorded_mono (G G' : World -> Prop) w id op change m :
  (forall w', G w' -> G' w') -> recorded G w id op change m -> recorded G' w id op change m.
Proof. intros HG [Hm|[Hm He]]; [by left|right; auto]. Qed.

Section One.
Context (st0 : Store) (op : StoredOperation) (now : Z).
Hypothesis Hop : op ∈ ops.
Let id := o_operation_id op.
Let plan := o_plan op.
Let snap := o_snapshot op.
Let go := going st0 id now plan snap.
Let ended n := fun (_ : OperationReceiptView) => closed st0 id now plan snap n (undone op).

Ltac recov := eapply go_recovery; [lia|eassumption|by left].
Ltac quiet_read := first [apply quiet_run | apply quiet_protected | apply quiet_rollback_command | solve [quiet_solver]].
Ltac kept_read := apply kept_quiet; first [apply quiet_run | apply quiet_protected | solve [quiet_solver]].

(** Nginx was tested, reloaded and found active with the link as it is. *)
Lemma verify_ends n s basename config reload active w :
  (forall w', saved read_nginx_snapshot op s w' -> EngineNginxProofs.restored s w' -> put_back op w') ->
  1 <= n -> go n RollingBack w -> saved read_nginx_snapshot op s w ->
  read_enabled (w_nginx w) basename = Ok (nl_enabled s) ->
  (forall site, site_in (w_nginx w) (nl_site_id s) = Some site -> ns_basename site = basename) ->
  (c_success config = true -> c_success reload = true -> c_success active = true -> nginx_reloaded (w_nginx w) (runs w)) ->
  total F any w (rollback_verify id s config reload active now) (ended (n - 1)).
Proof.
  intros Hput Hn Hg Hsv Hre Hb Hrl. unfold rollback_verify. eapply go_quiet; [apply quiet_discover|exact Hg|].
  intros r mach Hd Hg1. pose proof (unrun_result _ _ _ _ (unrun_discover _) Hd) as Hru. cbv zeta.
  destruct (negb _) eqn:Hv; [recov|]. bool_prop. destruct r as [site|]; [|done].
  rename select (is_ok_and (Ok site) _ = true) into Hok. cbn [is_ok_and] in Hok. bool_prop.
  pose proof (discover_site_sound _ _ _ _ Hd) as Hsite.
  assert (EngineNginxProofs.restored s (with_host mach w)) as Hres.
  { destruct (site_in_inv _ _ _ Hsite) as (f & _ & He & _). rewrite (Hb _ Hsite), Hre in He.
    injection He as He. exists site. split_and!; try done; [|rewrite Hru; by apply Hrl].
    rewrite He. by destruct (ns_state site). }
  eapply go_finish; [lia|exact Hg1|left|expected_solver|done|]. intros w' Hw'. right. split; [done|].
  eapply put_back_same; [exact Hw'|]. by apply Hput.
Qed.

Lemma rollback_ends n stage cause digest w :
  (forall s w', saved read_nginx_snapshot op s w' -> EngineNginxProofs.restored s w' -> put_back op w') ->
  2 <= n -> go n stage w -> stage ∈ in_flight ->
  total F any w (rollback id cause digest now) (ended (n - 1 - 1)).
Proof.
  intros Hput Hn Hg Hin. unfold rollback.
  eapply (go_rolling F st0 id now plan snap n _ in_flight); [done|done|by right|unfold in_flight; expected_solver| |].
  { intros. apply recorded_transition. }
  intros rolling w1 _ Hs Hg1. destruct (o_snapshot rolling) as [record|]; [|recov]. unfold rollback_restore.
  eapply go_quiet; [unfold read_nginx_snapshot; quiet_read|done|]. intros [s|e] m2 Hr Hg2; [|recov].
  eapply go_quiet; [quiet_read|done|]. intros [site|e] m3 Hd Hg3; [|recov]. apply discover_site_sound in Hd.
  eapply go_try; [apply kept_set_enabled|done|]. intros [[]|e] w4 He [_ Hk4] Hg4; simpl; [|recov].
  pose proof (set_enabled_frame site (nl_enabled s) (with_host m3 (with_host m2 w1))) as (Hf & _). rewrite He in Hf.
  eapply go_quiet; [quiet_read|done|]. intros [config|e] m5 Hc Hg5; [|recov].
  eapply go_quiet; [quiet_read|done|]. intros [reload|e] m6 Hl Hg6; [|recov].
  eapply go_quiet; [quiet_read|done|]. intros [active|e] m7 Ha Hg7; [|recov].
  eapply (verify_ends (n - 1) s (ns_basename site)); [by apply Hput|lia|exact Hg7| |exact (set_enabled_reads _ _ _ _ He)| |].
  - by exists record, w1, (with_host m2 w1).
  - intros site' Hsite. eapply site_in_frame; [exact Hf|exact Hd|exact Hsite].
  - intros Oc Or Oa. destruct (run_ran _ _ _ _ Hc Oc) as (c1 & R1 & E1).
    destruct (rollback_command_ran _ _ _ _ _ Hl Or) as (c2 & R2 & E2).
    destruct (rollback_command_ran _ _ _ _ _ Ha Oa) as (c3 & R3 & E3).
    exists c3, c2, c1, (runs w4). split_and!; [congruence|done..].
Qed.

Lemma rollback_attach_ends n stage cause digest w :
  (forall s w', saved read_managed_config_snapshot op s w' ->
     site_now cfg (w_nginx w') (ms_resource_id s) (ms_content_digest s) (ms_metadata_digest s) ->
     nginx_reloaded (w_nginx w') (runs w') -> put_back op w') ->
  2 <= n -> go n stage w -> stage ∈ in_flight ->
  total F any w (rollback_certbot_attach cfg id cause digest now) (ended (n - 1 - 1)).
Proof.
  intros Hput Hn Hg Hin. unfold rollback_certbot_attach.
  eapply (go_rolling F st0 id now plan snap n _ in_flight); [done|done|by right|unfold in_flight; expected_solver| |].
  { intros. apply recorded_transition. }
  intros rolling w1 _ Hs Hg1. destruct (o_snapshot rolling) as [record|]; [|recov]. unfold restore_attached.
  eapply go_quiet; [unfold read_managed_config_snapshot; quiet_read|done|]. intros [s|e] m2 Hr Hg2; [|recov].
  eapply go_try; [apply kept_restore_protected|done|]. intros [restored|e] w3 He [_ Hk3] Hg3; [|recov].
  destruct (restore_protected_spec _ _ _ _ _ _ _ _ _ _ He) as [_ Hfound]. specialize (Hfound _ eq_refl).
  eapply go_quiet; [quiet_read|done|]. intros config m4 Hc Hg4.
  eapply go_quiet; [quiet_read|done|]. intros reload m5 Hl Hg5.
  eapply go_quiet; [quiet_read|done|]. intros active m6 Ha Hg6.
  destruct (negb _) eqn:Hv; [recov|]. bool_prop.
  destruct active as [active|]; [|done]. destruct reload as [reload|]; [|done]. destruct config as [config|]; [|done].
  apply total_bind, total_lift. eapply go_conclude; [lia|exact Hg6|left|expected_solver|done|].
  intros w' Hw'. right. split; [done|]. eapply put_back_same; [exact Hw'|].
  destruct (run_ran _ _ _ _ Hc ltac:(done)) as (c1 & R1 & E1). destruct (run_ran _ _ _ _ Hl ltac:(done)) as (c2 & R2 & E2).
  destruct (run_ran _ _ _ _ Ha ltac:(done)) as (c3 & R3 & E3). apply (Hput s).
  - by exists record, w1, (with_host m2 w1).
  - by exists (enforce w3), restored.
  - exists c3, c2, c1, (runs w3). rewrite E3, E2, E1. by split_and!.
Qed.

Lemma rollback_service_ends n stage cause digest w :
  is_type plan SERVICE_CONTROL_OPERATION = true ->
  (forall s service w', saved read_service_state_snapshot op s w' -> registered_service (ss_service_id s) = Ok service ->
     settled_active service (restore_command service (ss_active s)) (ss_active s) w' -> put_back op w') ->
  2 <= n -> go n stage w -> stage ∈ [Applying; Verifying; RollingBack] ->
  total F any w (rollback_service_control id cause digest now) (ended (n - 1 - 1)).
Proof.
  intros Ht Hput Hn Hg Hin. unfold rollback_service_control.
  assert (forall w', unusable read_service_state_snapshot service_accepted op w' -> F w') as HF.
  { intros w' Hu. right. exists op. split; [done|]. unfold family_fault, is_type in *. fold plan. bool_prop.
    by rewrite Ht. }
  eapply (go_rolling F st0 id now plan snap n _ [Applying; Verifying]); [done|done| |expected_solver| |].
  { destruct (decide (stage = RollingBack)); [by left|right; set_solver]. }
  { intros. apply recorded_transition. }
  intros rolling w1 _ Hs1 Hg1. unfold restore_service_state. rewrite Hs1.
  eapply go_require; [exact Hg1|intros Hs; apply HF; by left|]. intros record Hs.
  eapply go_bind; [unfold read_service_state_snapshot; quiet_read|exact Hg1| |].
  { intros e w' He. apply HF. right. by exists record, w1, (Err e). }
  intros s m2 Hr Hg2. assert (service_accepted s = false -> F (with_host m2 w1)) as Hbad.
  { intros Hb. apply HF. right. by exists record, w1, (Ok s). }
  unfold service_accepted in Hbad.
  destruct (registered_service (ss_service_id s)) as [service|e] eqn:Hreg; [|by split; [right; apply Hbad|]].
  apply total_bind, total_lift.
  destruct (bool_decide (ss_unit_name s = _)); simpl; [|by split; [right; apply Hbad|]].
  destruct (bool_decide (ss_state_digest s = _)); simpl; [|by split; [right; apply Hbad|]].
  eapply go_bind; [apply quiet_restore|exact Hg2| |].
  { intros e w' He. apply restore_ok in He as [v He]. done. }
  intros v m3 Hv Hg3. cbv zeta. eapply go_conclude; [lia|exact Hg3|left|expected_solver|done|].
  intros w' Hw'. destruct v; [right|by left]. split; [done|]. eapply put_back_same; [exact Hw'|].
  eapply (Hput s service); [by exists record, w1, (with_host m2 w1)|exact Hreg|by eapply restore_seen].
Qed.

Lemma rollback_ufw_ends n stage cause digest w :
  is_type plan UFW_RULE_OPERATION = true ->
  (forall payload s view rs w', p_ufw_rule plan = Some payload -> saved read_ufw_snapshot op s w' ->
     (runs w' = rs \/ exists a, runs w' = CallUfw UStatus a :: rs) -> shows view rs ->
     rollback_verified payload view (rules_with_id (us_rule_id (up_rule payload)) (uf_rules s)) = true -> put_back op w') ->
  2 <= n -> go n stage w -> stage ∈ in_flight ->
  total F any w (rollback_ufw_rule id cause digest now) (ended (n - 1 - 1)).
Proof.
  intros Ht Hput Hn Hg Hin. unfold rollback_ufw_rule.
  assert (forall w', (p_ufw_rule plan = None \/ unusable read_ufw_snapshot (fun _ => true) op w') -> F w') as HF.
  { intros w' Hu. right. exists op. split; [done|]. unfold family_fault, is_type in *. fold plan. bool_prop.
    by rewrite Ht. }
  eapply (go_rolling F st0 id now plan snap n _ [Applying; Verifying; Validating; Reloading]);
    [done|done| |expected_solver| |].
  { destruct (decide (stage = RollingBack)); [by left|right; unfold in_flight in *; set_solver]. }
  { intros. apply recorded_transition. }
  intros rolling w1 Hp1 Hs1 Hg1. unfold restore_ufw_state. rewrite Hp1, Hs1.
  eapply go_require; [exact Hg1|intros Hs; apply HF; by left|]. intros payload Hpay.
  eapply go_require; [exact Hg1|intros Hs; apply HF; right; by left|]. intros record Hs.
  eapply go_bind; [unfold read_ufw_snapshot; quiet_read|exact Hg1| |].
  { intros e w' He. apply HF. right. right. by exists record, w1, (Err e). }
  intros s m2 Hr Hg2. cbv zeta. eapply go_bind; [apply quiet_restore_verify|exact Hg2| |].
  { intros e w' He. by apply restore_verify_ok in He as [v He]. }
  intros v m3 Hv Hg3. eapply go_quiet; [apply quiet_inventory|done|]. intros r m4 Hi Hg4.
  eapply go_conclude; [lia|exact Hg4|left|expected_solver|done|].
  intros w' Hw'. destruct v; [right|by left]. split; [done|]. eapply put_back_same; [exact Hw'|].
  destruct (restore_verify_shows _ _ _ _ _ _ Hv eq_refl) as (view & Hview & Hok).
  eapply (Hput payload s view); [done|by exists record, w1, (with_host m2 w1)|by eapply inventory_runs|exact Hview|exact Hok].
Qed.

(** The evidence recorded at the end of a configuration rollback. *)
Lemma conclude_rollback_ends n s restored config runtime w :
  1 <= n -> go n RollingBack w -> last_ran (default config runtime) w ->
  (cr_content_digest restored = ms_content_digest s -> cr_metadata_digest restored = ms_metadata_digest s -> put_back op w) ->
  total F any w (conclude_rollback id s restored config runtime now) (ended (n - 1)).
Proof.
  intros Hn Hg Hlast Hput. unfold conclude_rollback. destruct (_ || _ || _) eqn:Hv; [recov|]. bool_prop. cbv zeta.
  set (t := change _ _ _ _ _ _ _).
  eapply (go_terminal F st0 id now plan snap n t _
    (fun terminal => match p_managed_config (o_plan terminal) with
                     | Some payload => discard (remove_proposal (mp_proposal_relative_path payload))
                     | None => mret tt
                     end)); [done|exact Hg|left|subst t; expected_solver|done| | |].
  - intros o _. eapply recorded_mono; [|by apply recorded_command]. intros w' Hf. by left.
  - intros o. destruct (p_managed_config _); [apply cleans_discard, remove_proposal_keeps|apply cleans_ret].
  - intros w' Hw'. right. split; [done|]. eapply put_back_same; [exact Hw'|]. by apply Hput.
Qed.

(** Reload and activity after the file was put back. *)
Lemma rollback_runtime_ends n s restored config validate_only w :
  1 <= n -> go n RollingBack w -> last_ran config w ->
  (exists c rest, runs w = c :: rest /\ tested (cr_adapter restored) (w_nginx w) c) ->
  (forall w', w_nginx w' = w_nginx w -> w_snapshots w' = w_snapshots w ->
     validated (cr_adapter restored) (negb validate_only) (reloaded (cr_adapter restored)) (w_nginx w) (runs w') ->
     cr_content_digest restored = ms_content_digest s -> cr_metadata_digest restored = ms_metadata_digest s -> put_back op w') ->
  total F any w (rollback_runtime id (cr_adapter restored) validate_only now (fun runtime =>
    conclude_rollback id s restored config runtime now)) (ended (n - 1)).
Proof.
  intros Hn Hg Hlast (c & rest & Hc & Ht) Hput. unfold rollback_runtime. destruct validate_only.
  - eapply conclude_rollback_ends; [done|exact Hg|exact Hlast|]. apply Hput; [done|done|]. exists [], c, rest. by rewrite Hc.
  - eapply go_quiet; [quiet_read|exact Hg|]. intros [reload|e] m1 Hr Hg1; simpl; [|recov].
    destruct (c_success reload) eqn:Er; simpl; [|recov]. destruct (run_ran _ _ _ _ Hr Er) as (c1 & R1 & E1).
    eapply go_quiet; [quiet_read|exact Hg1|]. intros [active|e] m2 Ha Hg2; [|recov].
    destruct (c_success active) eqn:Ea; [|recov]. destruct (run_ran _ _ _ _ Ha Ea) as (c2 & R2 & E2).
    eapply conclude_rollback_ends; [done|exact Hg2|by eapply run_last|]. apply Hput; [done|done|].
    exists [c2; c1], c, rest. split_and!; [simpl; congruence|done|]. repeat constructor; done.
Qed.

Lemma rollback_managed_ends n stage cause digest w :
  paths_named (cf_paths cfg) = true ->
  (forall s r w', saved read_managed_config_snapshot op s w' ->
     config_now cfg (w_nginx w') (ms_resource_id s) (ms_content_digest s) (ms_metadata_digest s) r ->
     validated (cr_adapter r) (negb (validates_only plan)) (reloaded (cr_adapter r)) (w_nginx w') (runs w') ->
     put_back op w') ->
  2 <= n -> go n stage w -> stage ∈ in_flight ->
  total F any w (rollback_managed_config cfg id cause digest now) (ended (n - 1 - 1)).
Proof.
  intros Hnamed Hput Hn Hg Hin. unfold rollback_managed_config, rollback_managed_config_with_evidence.
  eapply (go_rolling F st0 id now plan snap n _ in_flight cause digest);
    [done|done|by right|unfold in_flight; expected_solver| |].
  { intros w1 o _. apply (recorded_transition F w1 id o). }
  intros rolling w1 Hp Hs Hg1. destruct (o_snapshot rolling) as [record|]; [|recov]. unfold restore_from_snapshot. rewrite Hp.
  eapply go_quiet; [unfold read_managed_config_snapshot; quiet_read|done|]. intros [s|e] m2 Hr Hg2; [|recov].
  eapply go_try; [apply kept_restore_managed|done|]. intros [restored|e] w3 He [_ Hk3] Hg3; [|recov].
  destruct (restore_managed_spec _ _ _ _ _ _ _ _ _ _ Hnamed He) as [_ Hfound]. specialize (Hfound _ eq_refl).
  eapply go_quiet; [quiet_read|done|]. intros [config|e] m4 Hc Hg4; [|recov].
  destruct (managed_config_test_succeeded _ config) eqn:Et; simpl; [|recov].
  eapply (rollback_runtime_ends (n - 1)); [lia|exact Hg4|by eapply run_last| |].
  - destruct (run_runs _ _ _ _ Hc) as [Er _]. eexists _, _. split; [exact Er|]. by exists config.
  - intros w' Hgw Hsw Hval Hcd Hmd. apply (Hput s restored).
    + exists record, w1, (with_host m2 w1). split; [done|]. split; [|done]. rewrite Hsw. symmetry. exact Hk3.
    + rewrite Hgw. split; [by exists (enforce w3)|done].
    + by rewrite Hgw.
Qed.

(** Without a receipt: a terminal stage and its clean-up. *)
Lemma close_transition n change stage (truth : OperationStage -> World -> Prop) w :
  1 <= n -> go n stage w -> stage ∈ t_expected change -> leaves_active change -> t_now_ms change = now ->
  is_terminal (t_next change) = true -> (forall w', same_host w w' -> truth (t_next change) w') ->
  total F any w (let! terminal := ledger (transition id change) in
                 if negb (is_terminal (o_stage terminal)) then mfail EForensicLockdown
                 else remove_operation_proposal terminal)
    (fun _ => closed st0 id now plan snap (n - 1) truth).
Proof.
  intros Hn Hg Hin Ha Hnow Ht Htruth. apply total_bind. eapply go_record; try done.
  { intros o _. apply recorded_transition. }
  intros o w1 _ _ _ -> Hg1 Hs1. rewrite Ht. simpl.
  destruct (remove_operation_proposal_ok o w1) as (w2 & E2 & Hs2 & Hh2). unfold total. rewrite E2.
  exists (t_next change). split; [apply Htruth; by etrans|by eapply going_same].
Qed.

Lemma recover_certbot_ends n stage w :
  is_type plan CERTBOT_RENEW_TEST_OPERATION || is_type plan CERTBOT_ISSUE_OPERATION = true ->
  o_stage op = stage -> is_terminal stage = false ->
  1 <= n -> go n stage w ->
  total F any w (recover_certbot op now) (fun _ => closed st0 id now plan snap (n - 1) (undone op)).
Proof.
  intros Ht Hst Hact Hn Hg. unfold recover_certbot. fold id plan snap.
  assert (forall w', unusable read_certificate_inventory_snapshot (fun _ => true) op w' -> F w') as HF.
  { intros w' Hu. right. exists op. split; [done|]. unfold family_fault. fold plan. by rewrite Ht. }
  eapply go_require; [exact Hg|intros Hs; apply HF; by left|]. intros record Hs.
  eapply go_bind; [unfold read_certificate_inventory_snapshot; quiet_read|exact Hg| |].
  { intros e w' He. apply HF. right. by exists record, w, (Err e). }
  intros s m1 _ Hg1. set (t := change _ _ _ _ _ _ _). apply total_bind.
  eapply (go_record F st0 id now plan snap n t); [done|exact Hg1|subst t; rewrite Hst; left| |done| |].
  { intros x Hx. subst t. simpl in Hx. apply list_elem_of_singleton in Hx. congruence. }
  { intros o _. apply recorded_transition. }
  intros o w2 _ _ _ _ Hg2 _. destruct (remove_operation_proposal_ok o w2) as (w3 & E3 & Hs3 & _).
  unfold total. rewrite E3. exists RecoveryRequired. split; [by left|by eapply going_same].
Qed.

(** ** One operation, any family *)

(** The stages its execution goes through. *)
Definition resumable : bool :=
  negb (bool_decide (o_stage op = Planned)) &&
  negb (is_type plan SERVICE_CONTROL_OPERATION
        && (bool_decide (o_stage op = Validating) || bool_decide (o_stage op = Reloading))).

(** Where start-up leaves an operation. *)
Definition recovered (before after : OperationStage) : Prop :=
  match before with
  | Approved | Snapshotted => after = CancelledBeforeApply
  | Applying | Validating | Reloading | Verifying | RollingBack => after = RolledBack \/ after = RecoveryRequired
  | _ => after = before
  end.

(** What the stage says of the worlds it was recovered from and to. *)
Definition truthful (after : OperationStage) (w w' : World) : Prop :=
  match after with
  | CancelledBeforeApply => same_host w w'
  | RolledBack => put_back op w'
  | _ => True
  end.

Lemma closed_undone n n' w0 w :
  n' <= n -> closed st0 id now plan snap n (undone op) w ->
  exists s, (s = RolledBack \/ s = RecoveryRequired) /\ truthful s w0 w /\ going st0 id now plan snap n' s w.
Proof.
  intros Hn (s & Hu & Hg). exists s. split_and!; [by destruct Hu as [->|[-> _]]; auto| |by eapply going_le].
  by destruct Hu as [->|[-> Hp]].
Qed.

Lemma recover_in_flight_ends n w :
  paths_named (cf_paths cfg) = true ->
  2 <= n -> go n (o_stage op) w -> o_stage op ∈ in_flight -> resumable = true ->
  total F any w (recover_in_flight cfg op now) (fun _ => closed st0 id now plan snap (n - 2) (undone op)).
Proof.
  intros Hnamed Hn Hg Hin Hres. unfold recover_in_flight. cbv zeta. fold id plan.
  assert (forall w' m, n - 2 <= m -> closed st0 id now plan snap m (undone op) w' ->
    closed st0 id now plan snap (n - 2) (undone op) w') as Hle.
  { intros w' m Hm (s & Hs & Hgo). exists s. split; [done|]. by eapply going_le. }
  assert (is_terminal (o_stage op) = false) as Hact.
  { unfold in_flight in Hin. rewrite !elem_of_cons, elem_of_nil in Hin. by destruct_or? Hin; rewrite Hin. }
  destruct (_ || _) eqn:Ecert.
  { eapply total_mono; [eapply (recover_certbot_ends n); try done; lia|]. intros u w'. apply (Hle _ (n - 1)); lia. }
  apply total_bind.
  assert (forall m, total F any w m (ended (n - 1 - 1)) -> total F any w m (fun _ w' =>
    total F any w' (mret tt) (fun _ => closed st0 id now plan snap (n - 2) (undone op)))) as Hfin.
  { intros m Hm. eapply total_mono; [exact Hm|]. intros r w' Hc. apply total_ret. eapply Hle; [|exact Hc]; lia. }
  destruct (is_type plan CERTBOT_ATTACH_OPERATION) eqn:Eatt.
  { eapply Hfin, rollback_attach_ends; try done. intros s w' H1 H2 H3. unfold put_back. fold plan. rewrite Ecert, Eatt. eauto. }
  destruct (is_type plan MANAGED_CONFIG_OPERATION || _) eqn:Eman.
  { eapply Hfin, rollback_managed_ends; try done. intros s r w' H1 H2 H3. unfold put_back. fold plan. rewrite Ecert, Eatt, Eman. eauto. }
  destruct (is_type plan SERVICE_CONTROL_OPERATION) eqn:Es.
  { eapply Hfin, rollback_service_ends; try done.
    - intros s service w' H1 H2 H3. unfold put_back. fold plan. rewrite Ecert, Eatt, Eman, Es. eauto.
    - revert Hres Hin. unfold resumable, in_flight. rewrite Es. destruct (o_stage op); try done; intros _ Hin; set_solver. }
  destruct (is_type plan UFW_RULE_OPERATION) eqn:Eu.
  { eapply Hfin, rollback_ufw_ends; try done. intros payload s view rs w' H1 H2 H3 H4 H5. unfold put_back. fold plan.
    rewrite Ecert, Eatt, Eman, Es, Eu. by exists payload, s, view, rs. }
  eapply Hfin, rollback_ends; try done. intros s w' H1 H2. unfold put_back. fold plan. rewrite Ecert, Eatt, Eman, Es, Eu. eauto.
Qed.

Lemma recover_operation_ends n w :
  paths_named (cf_paths cfg) = true ->
  2 <= n -> go n (o_stage op) w -> is_terminal (o_stage op) = false -> resumable = true ->
  total F any w (recover_operation cfg op now)
    (fun _ w' => exists s, recovered (o_stage op) s /\ truthful s w w' /\ going st0 id now plan snap (n - 2) s w').
Proof.
  intros Hnamed Hn Hg Hact Hres. unfold recover_operation.
  assert (o_stage op ∈ in_flight -> (forall s, s = RolledBack \/ s = RecoveryRequired -> recovered (o_stage op) s) ->
    total F any w (recover_in_flight cfg op now)
      (fun _ w' => exists s, recovered (o_stage op) s /\ truthful s w w' /\ going st0 id now plan snap (n - 2) s w')) as Hflight.
  { intros Hin Hr. eapply total_mono; [by eapply recover_in_flight_ends|]. intros u w' Hc.
    destruct (closed_undone (n - 2) (n - 2) w w' ltac:(lia) Hc) as (s & Hs & Ht & Hgo). exists s. auto. }
  assert (forall s, o_stage op = s -> s = Approved \/ s = Snapshotted -> recovered (o_stage op) CancelledBeforeApply ->
    total F any w (recover_before_apply op now)
      (fun _ w' => exists s, recovered (o_stage op) s /\ truthful s w w' /\ going st0 id now plan snap (n - 2) s w')) as Hbefore.
  { intros s Hs Hor Hrec. eapply total_mono.
    - unfold recover_before_apply. fold id.
      eapply (close_transition n _ (o_stage op) (fun s w' => s = CancelledBeforeApply /\ same_host w w'));
        [lia|exact Hg|left| |done|done|done].
      intros x Hx. simpl in Hx. apply list_elem_of_singleton in Hx. congruence.
    - intros u w' (x & [-> Hsame] & Hgo). exists CancelledBeforeApply. split_and!; [done|done|]. eapply going_le; [|exact Hgo]. lia. }
  destruct (o_stage op) eqn:Hst; try done;
    first [ eapply Hbefore; [done|by (left + right)|done]
          | apply Hflight; [unfold in_flight; set_solver|done]
          | unfold resumable in Hres; by rewrite Hst in Hres ].
Qed.
End One.

(** ** The whole loop *)

(** The daemon can work: the log has room for [n] events. *)
Record ready (n now : Z) (w : World) : Prop := {
  rd_inv : store_inv (w_store w);
  rd_room : Z.of_nat (length (ledger_events (st_db (w_store w)))) + n <= i64_max;
  rd_times : times_ok (st_db (w_store w));
  rd_now : is_some (rfc3339 now) = true;
}.

Lemma ready_live n now id op w :
  ready n now w -> load_operation_from (st_db (w_store w)) id = Ok op -> live n now id op w.
Proof. by intros [] Hl. Qed.

Lemma live_ready n now id op w : live n now id op w -> ready n now w.
Proof. by intros []. Qed.

(** The unfinished operations ended one after the other, from [w] on, as the
    ledger of [final] has them. *)
Inductive restarts (now : Z) (final : World) : list StoredOperation -> World -> Prop :=
  | restarts_done w : same_host w final -> restarts now final [] w
  | restarts_next op rest w w1 op' :
      recover_operation cfg op now w = (Ok tt, w1) ->
      load_operation_from (st_db (w_store final)) (o_operation_id op) = Ok op' ->
      o_plan op' = o_plan op -> recovered (o_stage op) (o_stage op') -> truthful op (o_stage op') w w1 ->
      restarts now final rest w1 -> restarts now final (op :: rest) w.

Lemma restarts_ended now final todo w op :
  restarts now final todo w -> op ∈ todo ->
  exists op', load_operation_from (st_db (w_store final)) (o_operation_id op) = Ok op' /\
    o_plan op' = o_plan op /\ recovered (o_stage op) (o_stage op').
Proof.
  induction 1 as [|op1 rest w w1 op' _ Hl Hp Hr _ _ IH]; [by intros ?%elem_of_nil|].
  intros [->|Hin]%elem_of_cons; [by exists op'|by apply IH].
Qed.

Lemma total_run {A} (G : World -> Prop) (I : NginxTree -> Prop) w (m : EM A) (Post : A -> World -> Prop) :
  total G I w m Post -> total G I w m (fun a w' => m w = (Ok a, w') /\ Post a w').
Proof. unfold total. by destruct (m w) as [[]]. Qed.

Lemma recover_operations_total now todo n w :
  paths_named (cf_paths cfg) = true ->
  (forall op, op ∈ todo -> op ∈ ops /\ is_terminal (o_stage op) = false /\ resumable op = true /\
     load_operation_from (st_db (w_store w)) (o_operation_id op) = Ok op) ->
  NoDup (map o_operation_id todo) -> 2 * Z.of_nat (length todo) <= n -> ready n now w ->
  total F any w (recover_operations cfg todo now) (fun _ w' =>
    ready 0 now w' /\
    (forall final, st_db (w_store final) = st_db (w_store w') -> same_host w' final -> restarts now final todo w) /\
    forall i, i ∉ map o_operation_id todo ->
      load_operation_from (st_db (w_store w')) i = load_operation_from (st_db (w_store w)) i).
Proof.
  intros Hnamed. revert n w. induction todo as [|op rest IH]; intros n w Hall Hnd Hn Hr.
  - apply total_ret. split_and!; [| |done]; [destruct Hr; constructor; try done; simpl in Hn; lia|].
    intros final _ Hf. by constructor.
  - simpl in *. apply NoDup_cons in Hnd as [Hnot Hnd]. apply total_bind.
    destruct (Hall op ltac:(left)) as (Hin & Hact & Hres & Hl).
    eapply total_mono.
    { apply total_run. eapply (recover_operation_ends (w_store w) op now Hin n); [done|lia| |done|done].
      split; [done|]. exists op. split; [by apply ready_live|done]. }
    intros [] w1 (Hrun & s & Hrec & Htrue & Hoth & op1 & Hl1 & Hst1 & Hp1 & _).
    eapply total_mono; [apply (IH (n - 2) w1)|].
    + intros op2 H2. destruct (Hall op2 ltac:(by right)) as (A & B & C & D). split_and!; try done.
      rewrite Hoth; [done|]. intros Heq. apply Hnot. rewrite <- Heq. by apply list_elem_of_fmap_2.
    + done.
    + lia.
    + by eapply live_ready.
    + intros u' w2 (Hr2 & Hdone & Hrest). split_and!; [done| |].
      * intros final Hdb Hf. eapply (restarts_next now final op rest w w1 op1); [done| |done|congruence|congruence|by apply Hdone].
        rewrite Hdb, Hrest by done. by apply lv_op in Hl1.
      * intros i [Hi Hi2]%not_elem_of_cons. rewrite Hrest, Hoth by done. done.
Qed.
End Families.

(** ** Start-up *)

Section Start.
Context `{EngineExternals}.
Context (cfg : Config).
Let paths := cf_paths cfg.

Definition temporaries (dir name : string) : Prop := nginx_internal_temporary_name name = true.

Lemma cleanup_entries_files root entries removed :
  keeps (files_only paths temporaries) (cleanup_entries paths root entries removed).
Proof.
  revert removed. induction entries as [|[name f] rest IH]; intros removed; simpl;
    [by apply files_read; [apply quiet_ret|intros w]|].
  destruct (_ || _) eqn:Hn; [apply IH|]. bool_prop.
  apply keeps_bind; [exact _|apply files_read; [apply quiet_syscall|apply unrun_syscall]|]. intros _.
  destruct (_ || _); [by apply files_read; [apply quiet_fail|intros w]|].
  apply keeps_bind; [exact _|by apply files_read; [apply quiet_get|intros w]|]. intros owned.
  destruct (_ || _); [by apply files_read; [apply quiet_fail|intros w]|].
  apply keeps_bind; [exact _|apply files_read; [apply quiet_syscall|apply unrun_syscall]|]. intros _.
  apply keeps_bind; [exact _|apply files_update; intros t; by apply touches_drop|]. intros _. apply IH.
Qed.

Lemma cleanup_root_files root : keeps (files_only paths temporaries) (cleanup_temporaries_in_root paths root).
Proof.
  unfold cleanup_temporaries_in_root.
  keeps_solver ltac:(first [apply cleanup_entries_files
    | apply files_read; [solve [unfold check_root; auto with quiet]|solve [unfold check_root; auto with unrun]]]).
Qed.

(** The clean-up removes temporaries of interrupted replacements and nothing else. *)
Lemma cleanup_files : keeps (files_only paths temporaries) (cleanup_internal_temporaries paths).
Proof.
  unfold cleanup_internal_temporaries, cleanup_parent_temporaries.
  keeps_solver ltac:(first [apply cleanup_root_files
    | apply files_read; [solve [auto with quiet]|solve [auto with unrun]]]).
Qed.

Lemma incomplete_nodup db : NoDup (incomplete_ids db).
Proof.
  unfold incomplete_ids. rewrite isort_perm, map_map. simpl.
  assert (NoDup (map fst (map_to_list (operations db)))) as Hnd by apply NoDup_fst_map_to_list.
  induction (map_to_list (operations db)) as [|[k row] l IH]; simpl in *; [constructor|].
  apply NoDup_cons in Hnd as [Hk Hnd]. destruct (negb _); simpl; [|by apply IH].
  constructor; [|by apply IH]. intros Hin. apply Hk. apply list_elem_of_In, in_map_iff in Hin as ([k' r'] & <- & Hf).
  apply filter_In in Hf as [Hf _]. apply list_elem_of_In, in_map_iff. by exists (k', r').
Qed.

Lemma load_all_ids db keys ops :
  load_all (load_operation_from db) keys = Ok ops -> map o_operation_id ops = keys.
Proof.
  revert ops. induction keys as [|k keys IH]; intros ops; simpl; [by intros [= <-]|].
  destruct (load_operation_from db k) as [op|] eqn:E; [|done]. simpl.
  destruct (load_all _ keys) as [rest|]; [|done]. intros [= <-]. simpl. f_equal; [by eapply load_operation_from_id|by apply IH].
Qed.

Lemma incomplete_spec st :
  store_inv st -> exists ops, incomplete_operations st = (Ok ops, st) /\ NoDup (map o_operation_id ops) /\
    (forall op, op ∈ ops -> load_operation_from (st_db st) (o_operation_id op) = Ok op /\ is_terminal (o_stage op) = false) /\
    (forall id op, load_operation_from (st_db st) id = Ok op -> is_terminal (o_stage op) = false -> op ∈ ops).
Proof.
  intros Hinv. unfold incomplete_operations, read_db.
  destruct (load_all_ok (load_operation_from (st_db st)) (incomplete_ids (st_db st))) as (ops & E & Hops).
  { intros k (row & Hrow & _)%elem_of_incomplete_ids.
    destruct (load_operation_from_ok _ _ _ (si_rows _ Hinv) Hrow) as (op & -> & _). done. }
  rewrite E. exists ops. split_and!; [done|by rewrite (load_all_ids _ _ _ E); apply incomplete_nodup| |].
  - intros op (id & (row & Hrow & Ht)%elem_of_incomplete_ids & Hl)%Hops.
    rewrite (load_operation_from_id _ _ _ Hl). split; [done|].
    destruct (load_operation_from_inv _ _ _ (si_rows _ Hinv) Hl) as (row' & Hrow' & _ & _ & _ & _ & Hst).
    rewrite <- terminal_value_stage, <- Hst. congruence.
  - intros id op Hl Ht. apply Hops. exists id. split; [|done]. apply elem_of_incomplete_ids.
    destruct (load_operation_from_inv _ _ _ (si_rows _ Hinv) Hl) as (row' & Hrow' & _ & _ & _ & _ & Hst).
    exists row'. split; [done|]. by rewrite Hst, terminal_value_stage.
Qed.

Lemma remove_plan_cleans plan : cleans (remove_plan_proposal plan).
Proof.
  intros w. destruct (remove_operation_proposal_ok {| o_operation_id := EmptyString; o_plan := plan; o_stage := Planned;
    o_before_digest := EmptyString; o_after_digest := EmptyString; o_rollback_result := None; o_snapshot := None |} w)
    as (w' & E & Hs & Hh). by exists w'.
Qed.

Lemma remove_proposals_cleans plans : cleans (remove_proposals plans).
Proof.
  induction plans as [|plan plans IH]; simpl; [apply cleans_ret|]. intros w.
  destruct (remove_plan_cleans plan w) as (w1 & E1 & H1). destruct (IH w1) as (w2 & E2 & H2).
  exists w2. unfold mbind. rewrite E1. split; [done|by etrans].
Qed.

(** Expired proposals are removed, whatever the file system says. *)
Lemma remove_expired_ok now w :
  store_inv (w_store w) -> exists w', remove_expired_proposals now w = (Ok tt, w') /\
    st_db (w_store w') = st_db (w_store w) /\ same_host w w'.
Proof.
  intros Hinv. unfold remove_expired_proposals, mbind, ledger. destruct (ask_sys _ _) as [ok h] eqn:Eask.
  unfold expired_unexecuted_proposal_plans, read_db. simpl.
  destruct (load_all_ok (load_plan_from (st_db (w_store w))) (expired_unexecuted_ids (st_db (w_store w)) now)) as (ps & -> & _).
  { unfold expired_unexecuted_ids. intros k ([t id] & -> & Hin)%list_elem_of_fmap.
    rewrite elem_of_isort, list_elem_of_fmap in Hin. destruct Hin as ([id' row] & [= -> ->] & Hin).
    apply list_elem_of_In, filter_In in Hin as [Hin _]. apply list_elem_of_In, elem_of_map_to_list in Hin. simpl.
    by destruct (load_plan_from_ok _ _ _ (si_rows _ Hinv) Hin) as (p & -> & _). }
  set (w1 := with_store _ _). destruct (remove_proposals_cleans ps w1) as (w2 & E & Hs & Hh). exists w2.
  rewrite E, Hs. split_and!; [done|done|]. etrans; [|exact Hh]. split_and!; try done. by apply (ask_sys_runs _ _ _ _ Eask).
Qed.

(** The operations a start finds unfinished. *)
Definition unfinished (w : World) : list StoredOperation :=
  match load_all (load_operation_from (st_db (w_store w))) (incomplete_ids (st_db (w_store w))) with
  | Ok ops => ops
  | Err _ => []
  end.

(** What a completed start leaves of the operations of [w]: the final ones as
    they were, the others ended. *)
Definition all_ended (w w' : World) : Prop :=
  forall id,
    match load_operation_from (st_db (w_store w)) id with
    | Err e => load_operation_from (st_db (w_store w')) id = Err e
    | Ok op => exists op', load_operation_from (st_db (w_store w')) id = Ok op' /\
        is_terminal (o_stage op') = true /\
        (if is_terminal (o_stage op) then op' = op
         else o_plan op' = o_plan op /\ recovered (o_stage op) (o_stage op'))
    end.

Lemma recovered_terminal before after :
  is_terminal before = false -> before <> Planned -> recovered before after -> is_terminal after = true.
Proof.
  intros Ha Hp Hr. unfold recovered in Hr. destruct before; try done; subst; try done; by destruct Hr as [->| ->].
Qed.

Lemma recovery_loop_ends n now w :
  paths_named paths = true ->
  ready n now w -> 2 * Z.of_nat (length (unfinished w)) <= n ->
  (forall op, op ∈ unfinished w -> resumable op = true) ->
  total (start_fault (unfinished w)) (fun _ => True) w
    (let! operations := ledger incomplete_operations in
     let! _ := recover_operations cfg operations now in
     remove_expired_proposals now)
    (fun _ w' => all_ended w w' /\ exists w1, same_host w w1 /\ restarts cfg now w' (unfinished w) w1).
Proof.
  intros Hnamed Hr Hn Hres. destruct (incomplete_spec (w_store w) (rd_inv _ _ _ Hr)) as (ops & E & Hnd & Hops & Hall).
  assert (unfinished w = ops) as Hun.
  { unfold unfinished. unfold incomplete_operations, read_db in E. injection E as E. by rewrite E. }
  rewrite Hun in *. apply total_bind. apply total_ledger; [done|]. intros ok.
  unfold incomplete_operations, read_db in *. simpl. injection E as ->. intros h Hh. set (w1 := with_store _ _).
  assert (ready n now w1) as Hr1.
  { destruct Hr. constructor; try done. simpl. by apply store_inv_io. }
  apply total_bind. eapply total_mono; [apply (recover_operations_total cfg ops now ops n w1)|]; [done| |done|done|done|].
  { intros op Hop. destruct (Hops op Hop) as [Hl Ht]. by split_and!; auto. }
  intros u w2 (Hr2 & Hdone & Hrest). destruct (remove_expired_ok now w2 (rd_inv _ _ _ Hr2)) as (w3 & E3 & Hdb & Hh3).
  unfold total. rewrite E3. specialize (Hdone w3 Hdb Hh3). split; [|by exists w1].
  intros id. destruct (load_operation_from (st_db (w_store w)) id) as [op|e] eqn:Hl.
  - pose proof (load_operation_from_id _ _ _ Hl) as Hid. destruct (is_terminal (o_stage op)) eqn:Ht.
    + exists op. rewrite Hdb, Hrest; [done|]. intros (op2 & Heq & H2)%list_elem_of_fmap.
      destruct (Hops op2 H2) as [Hl2 Ht2]. rewrite <- Heq in Hl2. congruence.
    + pose proof (Hall id op Hl Ht) as Hin. destruct (restarts_ended _ _ _ _ _ _ Hdone Hin) as (op' & Hl' & Hp' & Hrec).
      rewrite Hid in Hl'. exists op'. split_and!; try done. eapply recovered_terminal; [exact Ht| |exact Hrec].
      specialize (Hres op Hin). unfold resumable in Hres. by bool_prop.
  - rewrite Hdb, Hrest; [done|]. intros (op2 & Heq & H2)%list_elem_of_fmap. destruct (Hops op2 H2) as [Hl2 _].
    rewrite <- Heq in Hl2. congruence.
Qed.

Definition cleanup_fault (w : World) : Prop :=
  exists w0 e, cleanup_internal_temporaries paths w0 = (Err e, w).
Definition open_fault (w : World) : Prop :=
  exists w0 e, ledger open w0 = (Err e, w) /\ e <> EForensicLockdown.

(** The start got as far as opening the ledger: of the host, only temporaries
    of interrupted replacements are gone. *)
Definition cleaned (w w' : World) : Prop :=
  w_snapshots w' = w_snapshots w /\ runs w' = runs w /\ touches paths temporaries (w_nginx w) (w_nginx w').

(** The ledger could not be trusted: nothing is recovered, and the daemon
    answers no request that writes. *)
Definition locked_down (w w' : World) : Prop :=
  exists w1 w2, cleaned w w1 /\ ledger open w1 = (Err EForensicLockdown, w2) /\ w' = with_lockdown true w2.

(** Every stored operation is final, and those left unfinished were ended one
    after the other, each with a stage that is so. *)
Definition restarted (now : Z) (w w' : World) : Prop :=
  all_ended w w' /\ exists w1, cleaned w w1 /\ restarts cfg now w' (unfinished w) w1.

Lemma initialize_ends n now w :
  paths_named paths = true ->
  ready n now w -> 2 * Z.of_nat (length (unfinished w)) <= n ->
  (forall op, op ∈ unfinished w -> resumable op = true) ->
  match initialize cfg now w with
  | (Ok _, w') => locked_down w w' \/ restarted now w w'
  | (Err _, w') => cleanup_fault w' \/ open_fault w' \/ storage_fault w' \/ start_fault (unfinished w) w'
  end.
Proof.
  intros Hnamed Hr Hn Hres. unfold initialize. fold paths. unfold mbind at 1.
  destruct (cleanup_internal_temporaries paths w) as [[u|e] w1] eqn:Ec; [|left; by exists w, e].
  pose proof (keeps_result _ _ _ _ _ cleanup_files Ec) as (Hs1 & Hsn1 & _ & _ & Hr1 & Ht1). unfold mtry.
  assert (cleaned w w1) as Hclean by done.
  destruct (ledger open w1) as [r w2] eqn:Eo. pose proof (unrun_result _ _ _ _ (unrun_ledger open) Eo) as Hru.
  pose proof (keeps_result _ _ _ _ _ observes_open Eo) as (Hg & Hsn & _ & _ & Hst & Hp & Ho & He). rewrite Hs1 in *.
  assert (forall id, load_operation_from (st_db (w_store w2)) id = load_operation_from (st_db (w_store w)) id) as Hload
    by (intros id; by apply load_operation_ext).
  assert (unfinished w2 = unfinished w) as Hun.
  { unfold unfinished, incomplete_ids. rewrite Ho.
    assert (forall keys, load_all (load_operation_from (st_db (w_store w2))) keys = load_all (load_operation_from (st_db (w_store w))) keys) as Hk.
    { induction keys as [|k keys IH]; simpl; [done|]. by rewrite Hload, IH. }
    by rewrite Hk. }
  destruct r as [u2|e]; [|destruct e; first [left; by exists w1, w2 | right; left; eexists w1, _; split; [exact Eo|done]]].
  assert (ready n now w2) as Hr2.
  { destruct Hr as [Hi Hroom Ht Hnow]. constructor; [by eapply store_steps_inv|by rewrite He|unfold times_ok; by rewrite He|done]. }
  pose proof (recovery_loop_ends n now w2 Hnamed Hr2) as Hloop. rewrite Hun in Hloop. specialize (Hloop Hn Hres).
  unfold total in Hloop. destruct (mbind _ _ w2) as [[u3|e] w3].
  - right. destruct Hloop as [Hend (w4 & (Hg4 & Hsn4 & _ & Hr4) & Hrs)]. split.
    + intros id. specialize (Hend id). by rewrite Hload in Hend.
    + exists w4. split; [|done]. unfold cleaned. rewrite Hg4, Hsn4, Hr4, Hg, Hsn, Hru. by destruct Hclean as (-> & -> & ?).
  - destruct Hloop as [[Hf|Hf] _]; auto.
Qed.
End Start.
