(* ===== verification/EngineSteps.v ===== *)
(** * jw-opsd: handlers only take ledger steps

    Whatever the commands, system calls and the entropy source answer, a
    handler moves the ledger along [store_step] and never clears the lockdown
    flag.  So every guarantee of the ledger holds after any sequence of
    requests. *)

From Stdlib Require Import Ascii String.
From S2P Require Import Prelude Crypto Contracts Plans CertContracts Adapters Ledger LedgerLog LedgerInv LedgerStore.
From S2P Require Import LedgerApi Text Ufw Host Snapshot Nginx ConfigText Diagnostics ManagedConfig.
From S2P Require Import Certificate EngineCore EngineNginx EngineConfig EngineCert EngineService EngineUfw EngineMain.
From S2P Require Import EngineLogic HostProofs.
From S2P Require Import EngineNginxProofs EngineUfwProofs EngineServiceProofs ManagedProofs EngineConfigProofs.
From S2P Require Import CertProofs StartProofs.

Section Steps.
Context `{EngineExternals}.
Context (cfg : Config).

(** The ledger moved by its own steps; lockdown, once set, stays. *)
Definition ledger_only (w w' : World) : Prop :=
  rtc store_step (w_store w) (w_store w') /\ (w_lockdown w = true -> w_lockdown w' = true).

#[export] Instance ledger_only_preorder : PreOrder ledger_only.
Proof.
  split; [by split|]. intros a b c [S1 L1] [S2 L2]. split; [by etrans|auto].
Qed.

Definition esteps {A} (m : EM A) : Prop := keeps ledger_only m.

Lemma es_quiet {A} (m : EM A) : quiet m -> esteps m.
Proof. by apply keeps_quiet. Qed.

Lemma es_bind {A B} (m : EM A) (k : A -> EM B) : esteps m -> (forall a, esteps (k a)) -> esteps (mbind m k).
Proof. apply keeps_bind, _. Qed.

Lemma es_try {A B} (m : EM A) (k : oresult A -> EM B) :
  esteps m -> (forall r, esteps (k r)) -> esteps (mtry m k).
Proof.
  intros Hm Hk w. unfold mtry. specialize (Hm w). destruct (m w) as [r w']. etrans; [exact Hm|apply Hk].
Qed.

Lemma es_ledger {A} (m : LM A) : steps m -> esteps (ledger m).
Proof.
  intros Hm w. unfold ledger. destruct (ask_sys _ _) as [ok mach]. specialize (Hm (set_io ok (w_store w))).
  destruct (m _) as [r st']. split; [|done]. eapply rtc_l; [apply set_io_step|exact Hm].
Qed.

Lemma es_transition id change : leaves_active change -> esteps (ledger (transition id change)).
Proof. intros Ha. by apply es_ledger, steps_transition. Qed.

Lemma es_read {A} (f : Db -> oresult A) : esteps (ledger (read_db f)).
Proof. apply es_ledger, steps_read. Qed.

Lemma es_receipt id : esteps (ledger (receipt id)).
Proof. apply es_read. Qed.
Lemma es_load id : esteps (ledger (load_operation id)).
Proof. apply es_read. Qed.
Lemma es_load_plan id : esteps (ledger (load_plan id)).
Proof. apply es_read. Qed.

Lemma es_attach id record now : esteps (ledger (attach_snapshot id record now)).
Proof. apply es_ledger, steps_attach. Qed.

Lemma es_open : esteps open_ledger.
Proof.
  unfold open_ledger. apply es_try; [apply es_ledger, steps_open|].
  intros [u|[]]; try solve [apply es_quiet; quiet_solver].
  apply es_bind; [by intros w|]. intros _. apply es_quiet. quiet_solver.
Qed.

Lemma es_snapshot id filename bytes : esteps (write_snapshot_bytes cfg id filename bytes).
Proof.
  intros w. destruct (write_snapshot_keeps cfg id filename bytes w) as (Hs & _ & Hl).
  split; [by rewrite Hs|by rewrite Hl].
Qed.

Lemma es_set_enabled site b : esteps (set_enabled site b).
Proof. intros w. destruct (set_enabled_frame site b w) as (_ & Hs & _ & Hl). split; [by rewrite Hs|by rewrite Hl]. Qed.

Lemma es_remove_operation op : esteps (remove_operation_proposal op).
Proof.
  intros w. destruct (remove_operation_proposal_ok op w) as (w' & -> & Hs & _ & _ & Hl & _).
  split; simpl; [by rewrite Hs|by rewrite Hl].
Qed.

Lemma es_cleans m : cleans m -> esteps m.
Proof. intros Hm w. destruct (Hm w) as (w' & -> & Hs & _ & _ & Hl & _). split; simpl; [by rewrite Hs|by rewrite Hl]. Qed.

Lemma es_discard_proposal p : esteps (discard (remove_proposal p)).
Proof. apply es_cleans, cleans_discard, remove_proposal_keeps. Qed.

Lemma es_proposals {A} (m : EM A) : keeps proposals_only m -> esteps m.
Proof. intros Hm w. destruct (Hm w) as (Hs & _ & _ & Hl & _). split; [by rewrite Hs|by rewrite Hl]. Qed.

Lemma es_write_proposal id content : esteps (write_proposal cfg id content).
Proof. apply es_proposals, write_proposal_keeps. Qed.
Lemma es_read_proposal r : esteps (read_proposal r).
Proof. apply es_proposals, read_proposal_keeps. Qed.

Lemma es_command id change command :
  leaves_active change -> esteps (ledger (transition_with_command_evidence id change command)).
Proof. intros Ha. by apply es_ledger, steps_command. Qed.

Lemma es_rollback_transition id e now : esteps (ledger (rollback_transition id e now)).
Proof.
  apply es_ledger. unfold rollback_transition. cbv zeta. set (t := change _ _ _ _ _ _ _).
  assert (leaves_active t) as Ha by (subst t; expected_solver).
  destruct (re_diagnostics e), (re_command e);
    auto using steps_transition, steps_command, steps_diagnostics, steps_diagnostics_command.
Qed.

Lemma es_conclude id change : leaves_active change -> esteps (conclude id change).
Proof. intros Ha. apply es_bind; [by apply es_transition|]. intros op. apply es_read. Qed.

End Steps.

Create HintDb esteps.
#[export] Hint Resolve es_receipt es_load es_load_plan es_attach es_open es_snapshot es_set_enabled es_remove_operation
  es_discard_proposal es_write_proposal es_read_proposal es_rollback_transition
  quiet_discover quiet_precondition quiet_rollback_command quiet_inventory quiet_apply_payload
  quiet_restore_verify quiet_restore quiet_ingress : esteps.

Ltac es_solver :=
  repeat first
    [ solve [auto with esteps]
    | progress cbv beta zeta
    | solve [apply es_transition; expected_solver]
    | solve [apply es_conclude; expected_solver]
    | solve [apply es_command; expected_solver]
    | solve [apply es_quiet; auto with esteps quiet]
    | apply es_bind; [|intros]
    | apply es_try; [|intros]
    | match goal with
      | |- esteps (if ?b then _ else _) => destruct b
      | |- esteps (match ?x with _ => _ end) => destruct x
      end
    | solve [apply es_quiet; quiet_solver] ].

Section Handlers.
Context `{EngineExternals}.
Context (cfg : Config).

Lemma es_recovery id reason now : esteps (recovery_required id reason now).
Proof. unfold recovery_required. es_solver. Qed.

Lemma es_rollback_verify id snap c r a now : esteps (rollback_verify id snap c r a now).
Proof. unfold rollback_verify. pose proof es_recovery. es_solver. Qed.

Lemma es_rollback id cause digest now : esteps (rollback id cause digest now).
Proof.
  unfold rollback, rollback_restore, read_nginx_snapshot. pose proof es_recovery. pose proof es_rollback_verify.
  es_solver.
Qed.

Lemma es_execute_nginx op now : esteps (execute_nginx cfg op now).
Proof.
  unfold execute_nginx, cancel_approved, write_nginx_snapshot, finish_noop, cancel_noop, apply_nginx,
    validate_and_reload, verify_nginx. pose proof es_rollback. es_solver.
Qed.

Lemma es_rollback_service id code digest now : esteps (rollback_service_control id code digest now).
Proof.
  unfold rollback_service_control, restore_service_state, read_service_state_snapshot. es_solver.
Qed.

Lemma es_execute_service op now : esteps (execute_service_control cfg op now).
Proof.
  unfold execute_service_control, cancel_service, write_service_state_snapshot, apply_service, verify_service.
  pose proof es_rollback_service. es_solver.
Qed.

Lemma es_rollback_ufw id code digest now : esteps (rollback_ufw_rule id code digest now).
Proof. unfold rollback_ufw_rule, restore_ufw_state, read_ufw_snapshot. es_solver. Qed.

Lemma es_execute_ufw op now : esteps (execute_ufw_rule cfg op now).
Proof.
  unfold execute_ufw_rule, write_ufw_snapshot, verify_ufw. pose proof es_rollback_ufw. es_solver.
Qed.

(** *** Managed configuration *)

Lemma es_files {A} P (m : EM A) : keeps (files_only (cf_paths cfg) P) m -> esteps m.
Proof. intros Hm w. destruct (Hm w) as (Hs & _ & _ & Hl & _). split; [by rewrite Hs|by rewrite Hl]. Qed.

Lemma es_atomic root basename content mode uid gid :
  esteps (atomic_replace (cf_paths cfg) root basename content mode uid gid).
Proof. apply (es_files (fun _ _ => True)), atomic_replace_any. Qed.

Lemma es_discover_managed id : esteps (discover_managed_config (cf_paths cfg) id).
Proof. apply es_quiet, quiet_discover_managed. Qed.

Lemma es_replace expected content : esteps (replace_managed_config (cf_paths cfg) expected content).
Proof. unfold replace_managed_config. pose proof es_atomic. pose proof es_discover_managed. es_solver. Qed.

Lemma es_restore id basename content mode uid gid :
  esteps (restore_managed_config (cf_paths cfg) id basename content mode uid gid).
Proof. unfold restore_managed_config. pose proof es_atomic. pose proof es_discover_managed. es_solver. Qed.

Lemma es_rollback_managed id e now : esteps (rollback_managed_config_with_evidence cfg id e now).
Proof.
  unfold rollback_managed_config_with_evidence, restore_from_snapshot, rollback_runtime, conclude_rollback,
    read_managed_config_snapshot. pose proof es_recovery. pose proof es_restore. es_solver.
Qed.

Lemma es_execute_managed op now : esteps (execute_managed_config cfg op now).
Proof.
  unfold execute_managed_config, cancel_managed_before_apply, write_managed_config_snapshot, finish_managed_noop,
    apply_managed, validate_managed, reload_managed, verify_managed, run_if, rollback_managed_config.
  pose proof es_rollback_managed. pose proof es_replace. pose proof es_discover_managed.
  pose proof (quiet_preflight cfg). es_solver.
Qed.

(** A fresh identifier is never empty. *)
Lemma es_random {A} prefix (k : string -> EM A) :
  (forall suffix, esteps (k (prefix +:+ "_" +:+ suffix))) -> esteps (mbind (random_id prefix) k).
Proof.
  intros Hk w. unfold mbind, random_id. destruct (ask_random _) as [[b|] m]; simpl; [|by split].
  etrans; [|apply Hk]. by split.
Qed.

Lemma es_approve type_ok actor plan_id hash key now : esteps (approve_plan type_ok actor plan_id hash key now).
Proof.
  unfold approve_plan. apply es_bind; [apply es_open|]. intros _. apply es_bind; [apply es_load_plan|].
  intros plan. destruct (negb _); [apply es_quiet; quiet_solver|]. apply es_random. intros suffix.
  apply es_bind; [by apply es_ledger, steps_begin|]. intros op. apply es_receipt.
Qed.

Definition actor_ok (actor : Subject) : Prop := 0 <= uid actor <= u32_max.

Lemma es_create plan : plan_ok plan -> esteps (ledger (create_or_reuse_plan plan)).
Proof. intros Hp. by apply es_ledger, steps_create. Qed.

Lemma es_plan_nginx actor request now : actor_ok actor -> esteps (plan_nginx cfg actor request now).
Proof. intros Ha. unfold plan_nginx. es_solver; by apply es_create. Qed.

Lemma es_plan_service actor request now : actor_ok actor -> esteps (plan_service_control cfg actor request now).
Proof. intros Ha. unfold plan_service_control. es_solver; by apply es_create. Qed.

Lemma es_plan_ufw actor request now : actor_ok actor -> esteps (plan_ufw_rule cfg actor request now).
Proof.
  intros Ha. unfold plan_ufw_rule, ufw_plan_hash. cbn [ufw_plan p_ufw_rule ok_or]. es_solver; by apply es_create.
Qed.

Lemma es_remove_plan plan : esteps (remove_plan_proposal plan).
Proof. unfold remove_plan_proposal. es_solver. Qed.

Lemma es_remove_expired now : esteps (remove_expired_proposals now).
Proof.
  unfold remove_expired_proposals. apply es_bind; [apply es_read|]. intros plans.
  induction plans as [|plan plans IH]; simpl; [apply es_quiet; quiet_solver|].
  apply es_bind; [apply es_remove_plan|done].
Qed.

Lemma es_plan_managed actor request now : actor_ok actor -> esteps (plan_managed_config cfg actor request now).
Proof.
  intros Ha. unfold plan_managed_config. pose proof es_discover_managed. pose proof es_remove_expired.
  es_solver; by apply es_create.
Qed.

Lemma es_plan_restore actor request now :
  actor_ok actor -> esteps (plan_managed_config_restore cfg actor request now).
Proof.
  intros Ha. unfold plan_managed_config_restore, read_managed_config_snapshot. pose proof es_discover_managed.
  es_solver; by apply es_create.
Qed.

Lemma es_approve_managed actor plan_id hash key intent now :
  esteps (approve_managed_config actor plan_id hash key intent now).
Proof.
  unfold approve_managed_config. apply es_bind; [apply es_quiet; quiet_solver|]. intros _.
  apply es_bind; [apply es_open|]. intros _. apply es_bind; [apply es_load_plan|].
  intros plan. destruct (negb _); [apply es_quiet; quiet_solver|]. apply es_random. intros suffix.
  apply es_try; [by apply es_ledger, steps_begin|]. pose proof es_remove_plan. intros r. es_solver.
Qed.

(** Planning writes nothing but the ledger and the lockdown flag. *)
Definition host_kept (w w' : World) : Prop := w_nginx w' = w_nginx w /\ w_snapshots w' = w_snapshots w.

#[export] Instance host_kept_preorder : PreOrder host_kept.
Proof. split; [by intros w|]. intros a b c [A1 B1] [A2 B2]. split; congruence. Qed.

Lemma hk_quiet {A} (m : EM A) : quiet m -> keeps host_kept m.
Proof. by apply keeps_quiet. Qed.

Lemma hk_ledger {A} (m : LM A) : keeps host_kept (ledger m).
Proof. intros w. unfold ledger. destruct (ask_sys _ _). by destruct (m _). Qed.

Lemma hk_open : keeps host_kept open_ledger.
Proof.
  intros w. unfold open_ledger, mtry. pose proof (hk_ledger open w) as Hk.
  destruct (ledger open w) as [[u|[]] w1]; exact Hk.
Qed.

Lemma plan_nginx_host actor request now : keeps host_kept (plan_nginx cfg actor request now).
Proof.
  unfold plan_nginx.
  repeat first [apply hk_ledger | apply hk_open | apply hk_quiet; solve [auto with esteps quiet]
    | apply keeps_bind; [exact _| |intros]
    | match goal with
      | |- keeps _ (if ?b then _ else _) => destruct b
      end
    | progress cbv beta zeta ].
Qed.

Lemma es_receipt_request actor id : esteps (operation_receipt actor id).
Proof. unfold operation_receipt. es_solver. Qed.

Lemma es_capabilities : esteps capabilities.
Proof.
  unfold capabilities. apply es_bind; [apply es_quiet; quiet_solver|]. intros locked.
  destruct locked; [apply es_quiet; quiet_solver|]. apply es_try; [apply es_ledger, steps_open|].
  intros [u|[]]; try solve [apply es_quiet; quiet_solver].
  apply es_bind; [by intros w|]. intros _. apply es_quiet. quiet_solver.
Qed.
(** *** Certificates *)

Lemma es_observes {A} (m : EM A) : keeps observes m -> esteps m.
Proof. intros Hm w. destruct (Hm w) as (_ & _ & _ & Hl & Hs & _). split; [exact Hs|by rewrite Hl]. Qed.

Lemma es_inventory now : esteps (engine_certificate_inventory cfg now).
Proof. apply es_observes, observes_inventory. Qed.

Lemma es_staging key since : esteps (ledger (has_recent_staging_evidence key since)).
Proof. apply es_read. Qed.

Lemma es_protected sid : esteps (discover_protected_config (cf_paths cfg) sid).
Proof. apply es_quiet, quiet_protected. Qed.
Lemma es_replace_protected expected content : esteps (replace_protected_config (cf_paths cfg) expected content).
Proof. unfold replace_protected_config. pose proof es_atomic. pose proof es_protected. es_solver. Qed.
Lemma es_restore_protected sid basename content mode uid gid :
  esteps (restore_protected_config (cf_paths cfg) sid basename content mode uid gid).
Proof. unfold restore_protected_config. pose proof es_atomic. pose proof es_protected. es_solver. Qed.

Lemma es_attachment domain site digest : esteps (prepare_tls_attachment (cf_paths cfg) domain site digest).
Proof. apply es_quiet, quiet_attachment. Qed.
Lemma es_issue_site site digest domains : esteps (validate_issue_site (cf_paths cfg) site digest domains).
Proof. apply es_quiet, quiet_issue_site. Qed.
Lemma es_certbot command now : esteps (certbot_run command now).
Proof. apply es_quiet, quiet_certbot. Qed.

Lemma es_rollback_attach id cause digest now : esteps (rollback_certbot_attach cfg id cause digest now).
Proof.
  unfold rollback_certbot_attach, restore_attached, read_managed_config_snapshot. pose proof es_recovery.
  pose proof es_restore_protected. es_solver.
Qed.

Lemma es_verify_attach id payload now : esteps (verify_certbot_attach cfg id payload now).
Proof.
  unfold verify_certbot_attach. pose proof es_rollback_attach. pose proof es_inventory. pose proof es_protected.
  pose proof es_certbot. es_solver.
Qed.

Lemma es_execute_attach op now : esteps (execute_certbot_attach cfg op now).
Proof.
  unfold execute_certbot_attach, cancel_certbot_before_apply, write_managed_config_snapshot, apply_attached,
    validate_attached, reload_attached.
  pose proof es_rollback_attach. pose proof es_verify_attach. pose proof es_inventory. pose proof es_attachment.
  pose proof es_replace_protected. es_solver.
Qed.

Lemma es_reject_certbot id stage reason digest now :
  is_terminal stage = false -> esteps (reject_certbot_execution id stage reason digest now).
Proof.
  intros Hs. unfold reject_certbot_execution. apply es_bind; [|intros; es_solver].
  apply es_transition. intros s Hin. simpl in Hin. apply list_elem_of_singleton in Hin. congruence.
Qed.

Lemma es_snapshot_and_run op digest command codes verdict now :
  esteps (snapshot_and_run cfg op digest command codes verdict now).
Proof.
  unfold snapshot_and_run, cancel_certbot_before_apply, write_certificate_inventory_snapshot, run_certbot, conclude_certbot.
  pose proof es_inventory. pose proof es_certbot. es_solver; by apply es_reject_certbot.
Qed.

Lemma es_execute_renew op now : esteps (execute_certbot_renew_test cfg op now).
Proof. unfold execute_certbot_renew_test. pose proof es_snapshot_and_run. es_solver. Qed.

Lemma es_execute_issue op now : esteps (execute_certbot_issue cfg op now).
Proof.
  unfold execute_certbot_issue, cancel_certbot_before_apply. pose proof es_snapshot_and_run. pose proof es_staging.
  pose proof es_issue_site. es_solver.
Qed.

Lemma es_plan_renew actor request now : actor_ok actor -> esteps (plan_certbot_renew_test cfg actor request now).
Proof. intros Ha. unfold plan_certbot_renew_test. pose proof es_inventory. es_solver; by apply es_create. Qed.

Lemma es_plan_attach actor request now : actor_ok actor -> esteps (plan_certbot_attach cfg actor request now).
Proof.
  intros Ha. unfold plan_certbot_attach. pose proof es_inventory. pose proof es_attachment.
  pose proof quiet_healthy. es_solver; by apply es_create.
Qed.

Lemma es_plan_issue actor request now : actor_ok actor -> esteps (plan_certbot_issue cfg actor request now).
Proof.
  intros Ha. unfold plan_certbot_issue, validate_issue_preconditions, store_issue_plan. pose proof es_inventory.
  pose proof es_issue_site. pose proof es_staging. pose proof es_remove_expired. pose proof quiet_healthy.
  es_solver; by apply es_create.
Qed.

Lemma es_approve_issue actor plan_id hash key external deferred now :
  esteps (approve_certbot_issue actor plan_id hash key external deferred now).
Proof.
  unfold approve_certbot_issue. do 2 (destruct (negb _); [apply es_quiet; quiet_solver|]).
  apply es_bind; [apply es_open|]. intros _. apply es_bind; [apply es_load_plan|].
  intros plan. destruct (negb _); [apply es_quiet; quiet_solver|].
  apply es_bind; [apply es_quiet; quiet_solver|]. intros payload. destruct (_ <? _); [apply es_quiet; quiet_solver|].
  apply es_random. intros suffix. apply es_bind; [by apply es_ledger, steps_begin|]. intros op. apply es_receipt.
Qed.

(** *** Requests and start-up *)

Lemma es_execute_operation actor id now : esteps (execute_operation cfg actor id now).
Proof.
  unfold execute_operation. pose proof es_execute_issue. pose proof es_execute_renew. pose proof es_execute_attach.
  pose proof es_execute_managed. pose proof es_execute_service. pose proof es_execute_ufw. pose proof es_execute_nginx.
  es_solver.
Qed.

(** A transition out of the stage the operation was loaded in. *)
Lemma es_leave op next code digest after result now id :
  is_terminal (o_stage op) = false ->
  esteps (ledger (transition id (change [o_stage op] next code digest after result now))).
Proof.
  intros Hs. apply es_transition. intros s Hin. simpl in Hin. apply list_elem_of_singleton in Hin. congruence.
Qed.

Lemma es_recover_operation op now : esteps (recover_operation cfg op now).
Proof.
  assert (is_terminal (o_stage op) = false -> esteps (recover_before_apply op now)) as Hbefore.
  { intros Ht. apply es_bind; [by apply es_leave|]. intros terminal. es_solver. }
  assert (is_terminal (o_stage op) = false -> esteps (recover_in_flight cfg op now)) as Hflight.
  { intros Ht. unfold recover_in_flight, rollback_managed_config. cbv zeta. destruct (_ || _).
    - unfold recover_certbot, read_certificate_inventory_snapshot. pose proof (es_leave op) as Hleave.
      es_solver.
    - pose proof es_rollback_attach. pose proof es_rollback_managed. pose proof es_rollback_service.
      pose proof es_rollback_ufw. pose proof es_rollback. es_solver. }
  unfold recover_operation. destruct (o_stage op); auto; apply es_quiet; quiet_solver.
Qed.

Lemma es_initialize now : esteps (initialize cfg now).
Proof.
  unfold initialize. apply es_bind; [apply (es_files temporaries), cleanup_files|]. intros _.
  apply es_try; [apply es_ledger, steps_open|]. intros [u|[]]; try solve [apply es_quiet; quiet_solver].
  - apply es_bind; [apply es_read|]. intros ops. apply es_bind; [|intros; apply es_remove_expired].
    induction ops as [|op ops IH]; simpl; [apply es_quiet; quiet_solver|].
    apply es_bind; [apply es_recover_operation|done].
  - by intros w.
Qed.

(** The actor of a planning request is a system user. *)
Definition body_ok (body : OpsRequestBody) : Prop :=
  match body with
  | PlanCertbotIssue actor _ | PlanCertbotRenewTest actor _ | PlanCertbotAttach actor _ | PlanNginxSiteState actor _
  | PlanManagedConfig actor _ | PlanManagedConfigRestore actor _ | PlanServiceControl actor _ | PlanUfwRule actor _ =>
      actor_ok actor
  | _ => True
  end.

Lemma es_respond {A} (f : A -> OpsResponseBody) (m : EM A) : esteps m -> esteps (respond f m).
Proof. intros Hm. apply es_bind; [done|]. intros a. apply es_quiet. quiet_solver. Qed.

Lemma es_writing actor m : esteps m -> esteps (writing actor m).
Proof.
  intros Hm. apply es_bind; [|intros _; apply es_bind; [apply es_quiet; quiet_solver|done]].
  intros w. unfold require_write_available. by destruct (w_lockdown w).
Qed.

Lemma es_handle body now : body_ok body -> esteps (handle_body cfg body now).
Proof.
  intros Hb. destruct body; simpl in Hb |- *; try (apply es_writing); try (apply es_respond).
  - apply es_capabilities.
  - apply es_inventory.
  - by apply es_plan_issue.
  - apply es_approve_issue.
  - by apply es_plan_renew.
  - by apply es_plan_attach.
  - unfold approve_certbot_attach. do 2 (destruct (negb _); [apply es_quiet; quiet_solver|]). apply es_approve.
  - unfold approve_certbot_renew_test. destruct (negb _); [apply es_quiet; quiet_solver|]. apply es_approve.
  - apply es_bind; [apply es_quiet; quiet_solver|]. intros _. apply es_respond. unfold read_managed_config.
    apply es_bind; [apply es_discover_managed|]. intros r. apply es_quiet. quiet_solver.
  - by apply es_plan_nginx.
  - apply es_approve.
  - by apply es_plan_managed.
  - by apply es_plan_restore.
  - apply es_approve_managed.
  - by apply es_plan_service.
  - destruct (negb _); [apply es_quiet; quiet_solver|]. apply es_respond, es_approve.
  - apply es_quiet, quiet_inventory.
  - by apply es_plan_ufw.
  - destruct (negb _); [apply es_quiet; quiet_solver|]. apply es_respond, es_approve.
  - apply es_execute_operation.
  - apply es_receipt_request.
  - apply es_bind; [apply es_open|]. intros _. apply es_respond, es_read.
Qed.

Lemma response_steps poisoned request now w :
  body_ok (oq_body request) -> ledger_only w (response_for cfg poisoned request now w).2.
Proof.
  intros Hb. unfold response_for. destruct poisoned; [done|]. destruct (ops_request_validate _ _); [|done].
  pose proof (es_handle (oq_body request) now Hb w) as He. by destruct (handle_body cfg _ now w).
Qed.
End Handlers.

(** ** Requests as steps of the daemon

    The handlers modelled so far, and the rest of the machine changing on its
    own between them. *)
Section Requests.
Context `{EngineExternals}.
Context (cfg : Config).

Inductive engine_step : World -> World -> Prop :=
  | req_plan_nginx actor request now w : actor_ok actor -> engine_step w (plan_nginx cfg actor request now w).2
  | req_plan_service actor request now w :
      actor_ok actor -> engine_step w (plan_service_control cfg actor request now w).2
  | req_plan_ufw actor request now w : actor_ok actor -> engine_step w (plan_ufw_rule cfg actor request now w).2
  | req_approve_nginx actor plan_id hash key now w :
      engine_step w (approve_nginx actor plan_id hash key now w).2
  | req_approve_service actor plan_id hash key now w :
      engine_step w (approve_service_control actor plan_id hash key now w).2
  | req_approve_ufw actor plan_id hash key now w :
      engine_step w (approve_ufw_rule actor plan_id hash key now w).2
  | req_execute_nginx op now w : engine_step w (execute_nginx cfg op now w).2
  | req_execute_service op now w : engine_step w (execute_service_control cfg op now w).2
  | req_execute_ufw op now w : engine_step w (execute_ufw_rule cfg op now w).2
  | req_read_managed id w : engine_step w (read_managed_config cfg id w).2
  | req_plan_managed actor request now w : actor_ok actor -> engine_step w (plan_managed_config cfg actor request now w).2
  | req_plan_restore actor request now w :
      actor_ok actor -> engine_step w (plan_managed_config_restore cfg actor request now w).2
  | req_approve_managed actor plan_id hash key intent now w :
      engine_step w (approve_managed_config actor plan_id hash key intent now w).2
  | req_execute_managed op now w : engine_step w (execute_managed_config cfg op now w).2
  | req_rollback_managed id cause digest now w : engine_step w (rollback_managed_config cfg id cause digest now w).2
  | req_rollback_nginx id cause digest now w : engine_step w (rollback id cause digest now w).2
  | req_rollback_service id cause digest now w : engine_step w (rollback_service_control id cause digest now w).2
  | req_rollback_ufw id cause digest now w : engine_step w (rollback_ufw_rule id cause digest now w).2
  | req_observe_ufw now w : engine_step w (ufw_inventory now w).2
  | req_receipt actor id w : engine_step w (operation_receipt actor id w).2
  | req_capabilities w : engine_step w (capabilities w).2
  | req_response poisoned request now w :
      body_ok (oq_body request) -> engine_step w (response_for cfg poisoned request now w).2
  | req_initialize now w : engine_step w (initialize cfg now w).2
  | req_environment m w : engine_step w (with_machine m w).

Lemma engine_step_ledger w w' : engine_step w w' -> ledger_only w w'.
Proof.
  intros Hs. destruct Hs.
  - by apply es_plan_nginx.
  - by apply es_plan_service.
  - by apply es_plan_ufw.
  - apply es_approve.
  - apply es_approve.
  - apply es_approve.
  - apply es_execute_nginx.
  - apply es_execute_service.
  - apply es_execute_ufw.
  - unfold read_managed_config. apply es_bind; [apply es_discover_managed|]. intros r. apply es_quiet. quiet_solver.
  - by apply es_plan_managed.
  - by apply es_plan_restore.
  - apply es_approve_managed.
  - apply es_execute_managed.
  - apply es_rollback_managed.
  - apply es_rollback.
  - apply es_rollback_service.
  - apply es_rollback_ufw.
  - apply es_quiet, quiet_inventory.
  - apply es_receipt_request.
  - apply es_capabilities.
  - by apply response_steps.
  - apply es_initialize.
  - by split.
Qed.

Lemma engine_steps_ledger w w' : rtc engine_step w w' -> ledger_only w w'.
Proof. induction 1 as [|a b c Hab _ IH]; [done|]. etrans; [by apply engine_step_ledger|done]. Qed.
End Requests.
