(* ===== verification/EngineProps.v ===== *)
(** * jw-opsd: properties of the operation engine

    What an execution, a rollback and a request promise, for every answer of
    the commands, the file system, the entropy source and the ledger. *)

From Stdlib Require Import Ascii String Sorting.Sorted.
From S2P Require Import Prelude Crypto Contracts Plans Adapters Ledger LedgerLog LedgerInv LedgerStore.
From S2P Require Import LedgerApi LedgerProps Text Ufw Host Snapshot Nginx.
From S2P Require Import EngineCore EngineNginx EngineService EngineUfw EngineLogic HostProofs.
From S2P Require Import EngineNginxProofs EngineServiceProofs EngineUfwProofs EngineSteps.

Section Props.
Context `{EngineExternals}.
Context (cfg : Config).

(** C13: a site-state execution always concludes.  Whatever the commands and
    the file system do, [execute_operation] of an approved Nginx operation
    returns a receipt of a terminal stage whose locks are released; the only
    error is a ledger write that failed as the last call made.  [Succeeded]
    means the target link state and the planned content, and that the last
    programs run were the configuration test, the reload and the activity
    check, all successful on the final directories (no reload if nothing had
    to change); [RolledBack] the same for the previous link state and content;
    [CancelledBeforeApply] untouched directories. *)
Theorem execute_nginx_outcome now id op w :
  live 7 now id op w -> o_stage op = Approved ->
  match execute_nginx cfg op now w with
  | (Ok r, w') => exists op', finished id op' r w' /\ o_plan op' = o_plan op /\
                    nginx_outcome (o_plan op) (w_nginx w) (o_stage op') w'
  | (Err _, w') => storage_fault w'
  end.
Proof.
  intros Hl Hst. pose proof (execute_nginx_total cfg 7 now id op w ltac:(lia) Hl Hst) as Ht. unfold total in Ht.
  destruct (execute_nginx cfg op now w) as [[r|e] w']; [|by destruct Ht as [[|] _]].
  destruct Ht as (op' & Hf & Hp & _ & Hk). by eauto.
Qed.

(** An execution touches one link.  In every case, storage failures
    included, the only entry of the Nginx directories an execution may change
    is the enabled link of the planned site, and never that of a protected
    (management) site. *)
Theorem execute_nginx_touches_planned_link now id op w :
  live 7 now id op w -> o_stage op = Approved ->
  planned_link_only (o_plan op) (w_nginx w) (w_nginx (execute_nginx cfg op now w).2).
Proof.
  intros Hl Hst. pose proof (execute_nginx_total cfg 7 now id op w ltac:(lia) Hl Hst) as Ht. unfold total in Ht.
  destruct (execute_nginx cfg op now w) as [[r|e] w']; [|by destruct Ht].
  destruct Ht as (op' & _ & _ & HI & _). done.
Qed.

(** Rollback of an interrupted site-state operation.  From any in-flight
    stage (as found after a restart), with its snapshot on disk, [rollback]
    ends in [RolledBack], the site then being exactly as the snapshot recorded
    it with Nginx validated, reloaded and active, or in [RecoveryRequired];
    it releases the locks and changes no other link. *)
Theorem nginx_rollback_restores now id op record snap cause digest w :
  live 2 now id op w -> o_stage op ∈ in_flight -> o_snapshot op = Some record ->
  snapshot_stored record snap w ->
  match rollback id cause digest now w with
  | (Ok r, w') => exists op', finished id op' r w' /\ rolled snap (o_stage op') w' /\
      (w_nginx w' = w_nginx w \/ exists site, site_in (w_nginx w) (nl_site_id snap) = Some site /\
                                   tree_frame (ns_basename site) (w_nginx w) (w_nginx w'))
  | (Err _, w') => storage_fault w'
  end.
Proof.
  intros Hl Hin Hr Hs.
  set (I := fun t => t = w_nginx w \/ exists site, site_in (w_nginx w) (nl_site_id snap) = Some site /\
                       tree_frame (ns_basename site) (w_nginx w) t).
  assert (total never I w (rollback id cause digest now) (settled I id (o_plan op) (rolled snap))) as Ht.
  { eapply (rollback_total I 2 now id (o_plan op) snap record (o_stage op)); [|lia| |done].
    - intros t site t' [->|(s0 & Hs0 & Hf)] Hsite Hf'; right; [by eauto|]. exists s0. split; [done|].
      destruct (site_in_frame _ _ _ _ _ _ Hf Hs0 Hsite) as [Hb _]. rewrite Hb in Hf'. by etrans.
    - split_and!; [by left|done|by exists op]. }
  unfold total in Ht. destruct (rollback id cause digest now w) as [[r|e] w']; [|by destruct Ht as [[|] _]].
  destruct Ht as (op' & Hf & _ & HI & Hk). by eauto.
Qed.

(** A service execution that returns has concluded truthfully.  A
    returned receipt is of a terminal stage; [Succeeded] means that the last
    programs run were the requested action, which succeeded, and [is-active],
    which answered what the action promises, and that the receipt records that
    state; [RolledBack] the same with the restoring action and the state before
    the plan.  The Nginx directories are untouched.  An error means that the
    last call made was a failed ledger write or a program that could not be
    run, or that the snapshot could not be read. *)
Theorem execute_service_outcome now id op service action w :
  live 5 now id op w -> o_stage op = Approved ->
  registered_service (p_site_id (o_plan op)) = Ok service ->
  service_action_from_digest (p_available_digest (o_plan op)) = Ok action ->
  match execute_service_control cfg op now w with
  | (Ok r, w') => service_done (w_nginx w) id (o_plan op) service action r w'
  | (Err _, w') => storage_fault w' \/ service_fault w'
  end.
Proof.
  intros Hl Hst Hs Ha. pose proof (execute_service_total cfg 5 now id op service action w ltac:(lia) Hl Hst Hs Ha) as Ht.
  unfold total in Ht. by destruct (execute_service_control cfg op now w) as [[r|e] w']; [|destruct Ht].
Qed.

(** A verification that cannot run strands the operation.  If the
    [is-active] program cannot be run after the action, the handler returns
    the error with the operation still in stage [Verifying]; from then on
    every new approval for the same resource is refused as busy. *)
Theorem service_verification_strands n now id op service action e m w :
  live n now id op w -> o_stage op = Verifying -> o_operation_id op = id ->
  runner_run (active_command service) (w_nginx w) (h_machine (w_host w)) = (Err e, m) ->
  exists w', verify_service op service action now w = (Err e, w') /\
    load_operation_from (st_db (w_store w')) id = Ok op /\ is_terminal (o_stage op) = false /\
    forall new_id plan_id plan later,
      load_plan_from (st_db (w_store w')) plan_id = Ok plan ->
      p_resource_key plan = p_resource_key (o_plan op) ->
      operation_of_plan (st_db (w_store w')) plan_id = None ->
      operations (st_db (w_store w')) !! new_id = None -> later < p_expires_at_ms plan ->
      begin_operation new_id plan_id (p_plan_hash plan) (p_idempotency_key plan) (p_actor plan) later (w_store w')
      = (Err (ERejected "resource_busy"), w_store w').
Proof.
  intros Hl Hst Hid Hrun. eexists (with_host _ w). split_and!.
  - unfold verify_service, mbind, run, ask_run. by rewrite Hrun.
  - apply Hl.
  - by rewrite Hst.
  - intros new_id plan_id plan later Hp Hkey Hnone Hfresh Hlater. simpl in *.
    pose proof (lv_inv _ _ _ _ _ Hl) as Hinv. pose proof (si_rows _ Hinv) as Hrows.
    destruct (load_operation_from_inv _ _ _ Hrows (lv_op _ _ _ _ _ Hl)) as (row & Hrow & _ & Hprow & Hok & _ & Hs).
    destruct (ri_held _ _ _ _ Hrows id row (o_plan op) Hrow) as [Hlock _]; [by rewrite Hs, Hst|done|done|].
    unfold begin_operation, mbind, transact, begin_operation_tx. rewrite Hp, !bool_decide_eq_true_2 by done. simpl.
    replace (p_expires_at_ms plan <=? later) with false by (symmetry; apply Z.leb_gt; lia).
    rewrite Hnone. unfold insert_row at 1, ok_or. rewrite Hfresh. unfold insert_lock, insert_row. db_simpl.
    rewrite Hkey. by destruct (resource_locks (st_db (w_store w)) !! p_resource_key (o_plan op)).
Qed.

(** A firewall execution that returns has concluded truthfully.
    [Succeeded] means that the last program run was the status query and shows
    the requested effect (the rule present exactly as specified, or gone), the
    receipt recording its digest; [RolledBack] that the last or last but one
    was a status query showing the rule as in the inventory the execution
    started from, whose digest is the approved one.  The Nginx directories are
    untouched. *)
Theorem execute_ufw_outcome now id op payload w :
  live 5 now id op w -> o_stage op = Approved -> p_ufw_rule (o_plan op) = Some payload ->
  match execute_ufw_rule cfg op now w with
  | (Ok r, w') => ufw_done w now id (o_plan op) payload r w'
  | (Err _, w') => storage_fault w' \/ ufw_fault payload w'
  end.
Proof.
  intros Hl Hst Hp. pose proof (execute_ufw_total cfg 5 now id op payload w ltac:(lia) Hl Hst Hp) as Ht.
  unfold total in Ht. by destruct (execute_ufw_rule cfg op now w) as [[r|e] w']; [|destruct Ht].
Qed.

(** C19: deletion removes exactly the product's rules.  On a firewall whose
    [delete n] removes the [n]-th rule of its listing, deleting the numbers
    under which an inventory shows a rule id, in the order the engine uses,
    leaves the listing without the rules of that id and otherwise unchanged. *)
Theorem ufw_delete_exact {R} (listing : Machine -> list R) (render : Z -> R -> UfwRuleView)
    (rid : R -> option string) (rule_id : string) w d w' :
  (forall n r, uv_sequence (render n r) = n) -> (forall n r, uv_rule_id (render n r) = rid r) ->
  deletes_by_number listing ->
  delete_sequences (sort_descending (map uv_sequence
    (rules_with_id rule_id (numbered render 1 (listing (h_machine (w_host w))))))) w = (Ok d, w') ->
  listing (h_machine (w_host w')) = filter (fun r => rid r <> Some rule_id) (listing (h_machine (w_host w))).
Proof.
  intros Hseq Hid Hdel Hrun. fold (positions render rule_id 1 (listing (h_machine (w_host w)))) in Hrun.
  set (l := listing (h_machine (w_host w))) in *. unfold delete_sequences in Hrun. bind_inv Hrun. injection Hrun as _ <-.
  assert (forall x, x ∈ sort_descending (positions render rule_id 1 l) <-> x ∈ positions render rule_id 1 l) as Hin
    by (intros x; apply elem_of_isort).
  rewrite (delete_each_keeps listing (sort_descending (positions render rule_id 1 l)) w a w0 Hdel); [| | |done].
  - apply (keep_positions render rid Hseq Hid rule_id). by intros j _.
  - apply sort_descending_ok. by apply (positions_nodup render rid).
  - apply Forall_forall. intros x Hx%Hin. pose proof (positions_range render rid Hseq Hid rule_id 1 l) as Hr.
    rewrite Forall_forall in Hr. specialize (Hr x Hx). simpl in Hr. fold l. lia.
Qed.

(** C20: planning protects foreign and management rules.  A valid request
    that resolves never denies a protected TCP port, never deletes a rule the
    product does not own or that is protected, names exactly the numbers of
    the rules it deletes, and never adds an id that is already present. *)
Theorem ufw_resolution_safe request inventory rule seqs :
  ufw_request_validate request = Ok tt -> resolve_rule request inventory = Ok (rule, seqs) ->
  match ur_mutation request with
  | UDelete =>
      Forall (fun r => uv_owned r = true /\ uv_protected r = false)
        (rules_with_id (us_rule_id rule) (uw_rules inventory)) /\
      seqs ≡ₚ map uv_sequence (rules_with_id (us_rule_id rule) (uw_rules inventory)) /\
      ur_rule_id request = Some (us_rule_id rule)
  | mutation =>
      us_mutation rule = mutation /\ seqs = [] /\
      matching_owned_rule inventory (us_rule_id rule) = None /\
      (mutation = UDeny -> us_protocol rule = Tcp -> ufw_protected_tcp_port (us_port rule) = false)
  end.
Proof.
  intros Hv Hr. destruct (ur_mutation request) eqn:Hm.
  1,2: destruct (resolve_add_ok _ _ _ _ Hr ltac:(by rewrite Hm)) as (Hmut & -> & Hno & Hpr & Hpo);
    rewrite Hm in Hmut; split_and!; try done; intros _ Htcp; rewrite Htcp in Hpr; by eapply deny_unprotected.
  unfold resolve_rule, ok_or in Hr. rewrite Hm in Hr. destruct (ur_rule_id request) as [rid|] eqn:Hrid; [|done].
  destruct (resolve_delete_ok _ _ _ _ Hr) as (-> & Hall & Hperm & _). by split_and!.
Qed.

(** What planning resolved, execution accepts.  On the inventory a rule
    was resolved against, the check before execution passes, provided source
    normalisation is stable on the listed rules. *)
Theorem ufw_resolved_validates request inventory rule seqs :
  resolve_rule request inventory = Ok (rule, seqs) ->
  Forall (fun r => normalized_source (normalized_source (uv_source r)) = normalized_source (uv_source r))
    (uw_rules inventory) ->
  validate_resolved_rule {| up_requested_mutation := ur_mutation request; up_rule := rule;
                            up_delete_sequences := seqs |} inventory = Ok tt.
Proof.
  intros Hr Hn. unfold validate_resolved_rule. simpl. destruct (ur_mutation request) eqn:Hm.
  1,2: by destruct (resolve_add_ok _ _ _ _ Hr ltac:(by rewrite Hm)) as (_ & _ & -> & _).
  unfold resolve_rule, ok_or in Hr. rewrite Hm in Hr. destruct (ur_rule_id request) as [rid|]; [|done].
  by apply resolve_delete_validates in Hr.
Qed.

(** C22: requests refine the ledger.  After any sequence of requests, with
    any answers of the machine in between, the ledger is one the store can
    reach (so every ledger property holds of it), its history extends the old
    one, and a lockdown has not been lifted. *)
Theorem engine_preserves_ledger w w' :
  reachable (w_store w) -> rtc (engine_step cfg) w w' ->
  reachable (w_store w') /\ db_le (st_db (w_store w)) (st_db (w_store w')) /\
  (w_lockdown w = true -> w_lockdown w' = true).
Proof.
  intros Hr Hs. destruct (engine_steps_ledger cfg _ _ Hs) as [Hst Hlock]. split_and!; [|  |done].
  - by eapply reachable_step.
  - apply store_steps_le; [by apply reachable_inv|done].
Qed.

(** C7: terminal stages are final.  Whatever requests follow, executions,
    rollbacks and restarts of the same operation included, and whatever the
    machine answers, an operation in a terminal stage keeps its record, owns no
    resource lock, and nothing more is recorded about it: its events are those
    it had.  (The ledger itself would accept a transition that expects a
    terminal stage; no request makes one.) *)
Theorem terminal_is_final w w' id op :
  reachable (w_store w) -> load_operation_from (st_db (w_store w)) id = Ok op -> is_terminal (o_stage op) = true ->
  rtc (engine_step cfg) w w' ->
  load_operation_from (st_db (w_store w')) id = Ok op /\
  (forall key l, resource_locks (st_db (w_store w')) !! key = Some l -> lr_operation_id l <> id) /\
  events_of (st_db (w_store w')) id = events_of (st_db (w_store w)) id.
Proof.
  intros Hr Hl Ht Hs%engine_steps_ledger. destruct Hs as [Hst _]. pose proof (reachable_inv _ Hr) as I.
  destruct (load_operation_from_inv _ _ _ (si_rows _ I) Hl) as (row & Hrow & _ & Hp & Hok & _ & Hstage).
  assert (terminal_value (or_stage row) = true) as Htv by (by rewrite Hstage, terminal_value_stage).
  pose proof (store_steps_inv _ _ I Hst) as I'. destruct (store_steps_le _ _ I Hst) as [_ Hpl _ Hops Hclosed].
  destruct (Hops _ _ Hrow) as (row' & Hrow' & _ & _ & _ & Hfix). specialize (Hfix Htv) as ->. split_and!.
  - rewrite <- Hl. unfold load_operation_from, load_plan_from. by rewrite Hrow, Hrow', Hp, (lookup_weaken _ _ _ _ Hp Hpl).
  - intros key l Hk <-. destruct (ri_locks _ _ _ _ (si_rows _ I') _ _ Hk) as (r & Hr' & Hrt). congruence.
  - by eapply Hclosed.
Qed.

(** Forensic lockdown is final for the process.  Once opening the ledger
    has reported it, then after any further requests every write request is
    refused and no operation is advertised. *)
Theorem lockdown_is_final w w1 w2 :
  open_ledger w = (Err EForensicLockdown, w1) -> rtc (engine_step cfg) w1 w2 ->
  require_write_available w2 = (Err EForensicLockdown, w2) /\ capabilities w2 = (Ok no_capability, w2).
Proof.
  intros Ho Hs. assert (w_lockdown w2 = true) as Hl.
  { apply (engine_steps_ledger cfg _ _ Hs). unfold open_ledger, mtry in Ho.
    destruct (ledger open w) as [[u|[]] w']; try discriminate Ho. injection Ho as <-. done. }
  unfold require_write_available, capabilities, mbind, mget. by rewrite Hl.
Qed.

(** A real directory of the snapshots: no link, no access for others, root's
    where that is enforced. *)
Definition private_place (owned : bool) (d : option NodeMeta) : Prop :=
  exists m, d = Some m /\ nm_is_dir m = true /\ nm_is_symlink m = false /\ nm_private m = true /\
    (owned = true -> nm_uid m = 0).

(** A file of its own, held to the same, with a single name. *)
Definition private_file (owned : bool) (m : NodeMeta) : Prop :=
  nm_is_file m = true /\ nm_is_symlink m = false /\ nm_nlink m = 1 /\ nm_private m = true /\ (owned = true -> nm_uid m = 0).

Lemma private_directory_spec d owned : validate_private_directory d owned = Ok tt <-> private_place owned d.
Proof.
  unfold validate_private_directory, private_place. destruct d as [m|]; [|split; [done|by intros (? & ? & _)]]. split.
  - destruct (negb _ || _) eqn:E1; [done|]. destruct (_ && _ || _) eqn:E2; [done|]. intros _. exists m.
    destruct (nm_is_dir m), (nm_is_symlink m), (nm_private m), owned; try done; simpl in E2; split_and!; try done.
    all: rewrite ?orb_true_r in E2; try done. rewrite orb_false_r in E2. apply negb_false_iff, Z.eqb_eq in E2. done.
  - intros (? & [= <-] & -> & -> & -> & Ho). destruct owned; [|done]. by rewrite Ho.
Qed.

Lemma read_snapshot_exact record n w b r w' :
  read_snapshot_bytes record n w = (r, w') ->
  (r = Ok b <->
     relative_path_ok (sn_relative_path record) = true /\
     private_place (enforce w) (sd_root (w_snapshots w)) /\
     private_place (enforce w) (match parent_of (sn_relative_path record) with
                                | Some d => sd_dirs (w_snapshots w) !! d
                                | None => sd_root (w_snapshots w)
                                end) /\
     (exists m, sd_files (w_snapshots w) !! sn_relative_path record = Some (m, b) /\ private_file (enforce w) m) /\
     slen b <= n /\ (ask_sys (SysPrivate SnapshotRoot PRead) (w_host w)).1 = true /\ sha256_digest b = sn_digest record) /\
  exists h, w' = with_host h w.
Proof.
  rewrite <- !private_directory_spec. unfold read_snapshot_bytes, mbind, mget.
  assert (exists h, w = with_host h w) as Hsame by (exists (w_host w); by destruct w).
  destruct (relative_path_ok _); cbn [negb]; [|cbn; intros [= <- <-]; split; [split; [done|by intros [? _]]|done]].
  destruct (validate_private_directory (sd_root _) _) as [[]|] eqn:E1.
  2:{ cbn; intros [= <- <-]. split; [split; [done|by intros (_ & ? & _)]|done]. }
  cbv beta iota. set (parent := match parent_of _ with Some d => sd_dirs _ !! d | None => _ end).
  destruct (validate_private_directory parent _) as [[]|] eqn:E2.
  2:{ cbn; intros [= <- <-]. split; [split; [done|by intros (_ & _ & ? & _)]|done]. }
  destruct (sd_files _ !! _) as [[m bytes]|] eqn:Ef.
  2:{ cbn; intros [= <- <-]. split; [split; [done|by intros (_ & _ & _ & (? & ? & _) & _)]|done]. }
  destruct (negb _ || _ || _) eqn:E3.
  { cbn; intros [= <- <-]. split; [split; [done|]|done]. intros (_ & _ & _ & (? & [= <- <-] & Hf & Hs & _) & Hl & _).
    rewrite Hf, Hs in E3. simpl in E3. bool_prop. lia. }
  destruct (negb _ || _ || negb _) eqn:E4.
  { cbn; intros [= <- <-]. split; [split; [done|]|done].
    intros (_ & _ & _ & (? & [= <- <-] & _ & _ & Hk & Hp & Ho) & _). rewrite Hk, Hp in E4.
    destruct (enforce w); [by rewrite Ho in E4|done]. }
  unfold private_call, syscall. destruct (ask_sys _ _) as [[] h].
  2:{ cbn; intros [= <- <-]. split; [split; [done|by intros (_ & _ & _ & _ & _ & ? & _)]|by exists h]. }
  case_bool_decide as Hd; cbn; intros [= <- <-]; (split; [|by exists h]); (split; [try done|]).
  - intros [= <-]. split_and!; try done; [|bool_prop; lia]. exists m. split; [done|]. unfold private_file.
    destruct (nm_is_file m), (nm_is_symlink m), (nm_private m), (enforce w); try done; bool_prop; try done;
      simpl in *; split_and!; try done; bool_prop; try lia.
  - by intros (_ & _ & _ & (? & [= _ <-] & _) & _).
  - intros (_ & _ & _ & (? & [= _ <-] & _) & _ & _ & ?). done.
Qed.

(** C24: a snapshot is read back as it was written or not at all.  While the
    snapshot directory is untouched, the bytes come back unless the read itself
    fails, and then as a file-system error.  Whatever has happened to the
    directory since, under any limit and in any state of the daemon, a read
    returns bytes exactly when the two directories and the file are real, of
    nobody else's access, root's where that is enforced and of a single name,
    the file is within the limit and it has the digest of the bytes written:
    other content is returned only for a collision of the digest.  A read
    changes nothing. *)
Theorem snapshot_roundtrip id filename bytes record n w w1 :
  write_snapshot_bytes cfg id filename bytes w = (Ok record, w1) ->
  plain_name id -> plain_name filename -> slen bytes <= n -> (enforce w1 = true -> st_euid (w_store w1) = 0) ->
  (forall w2, w_snapshots w2 = w_snapshots w1 -> st_euid (w_store w2) = st_euid (w_store w1) -> enforce w2 = enforce w1 ->
     read_snapshot_bytes record n w2 =
       let (ok, m) := ask_sys (SysPrivate SnapshotRoot PRead) (w_host w2) in
       ((if ok then Ok bytes else Err EFilesystem), with_host m w2)) /\
  (forall w2 limit b,
     let (r, w2') := read_snapshot_bytes record limit w2 in
     (r = Ok b <->
        private_place (enforce w2) (sd_root (w_snapshots w2)) /\
        private_place (enforce w2) (sd_dirs (w_snapshots w2) !! id) /\
        (exists m, sd_files (w_snapshots w2) !! (id +:+ "/" +:+ filename) = Some (m, b) /\ private_file (enforce w2) m) /\
        slen b <= limit /\ (ask_sys (SysPrivate SnapshotRoot PRead) (w_host w2)).1 = true /\
        sha256_digest b = sha256_digest bytes) /\
     exists h, w2' = with_host h w2).
Proof.
  intros Hw Hid Hf Hn Ho. apply write_snapshot_written in Hw. split.
  - intros w2 Hs Hu He. apply (read_written id filename); try done; [|by rewrite He, Hu].
    unfold written, own_node in *. by rewrite Hs, He, Hu.
  - intros w2 limit b. destruct Hw as (-> & _). destruct (read_snapshot_bytes _ _ _) as [r w2'] eqn:Hr.
    apply (read_snapshot_exact _ _ _ b) in Hr. cbn [sn_relative_path sn_digest] in Hr.
    destruct (snapshot_path_ok id filename Hid Hf) as [Hp Hpar]. rewrite Hp, Hpar in Hr. destruct Hr as [-> Hh].
    split; [|done]. split; [by intros [_ ?]|by split].
Qed.

(** Switching a site.  [set_enabled] succeeds only with the requested
    state read back from the directories, and whatever it returns it has
    changed no other entry, neither the ledger nor the snapshots. *)
Theorem set_enabled_exact site enabled w r w' :
  set_enabled site enabled w = (r, w') ->
  (r = Ok tt -> read_enabled (w_nginx w') (ns_basename site) = Ok enabled) /\
  tree_frame (ns_basename site) (w_nginx w) (w_nginx w') /\
  w_store w' = w_store w /\ w_snapshots w' = w_snapshots w.
Proof.
  intros He. pose proof (set_enabled_frame site enabled w) as (Hf & Hs & Hn & _). rewrite He in Hf, Hs, Hn.
  split_and!; try done. intros ->. by eapply set_enabled_reads.
Qed.

(** Planning a site change checks what the operator saw.  A plan is only
    returned for a valid request on an existing, unprotected site whose
    content and link digests are the ones in the request; planning changes no
    file outside the ledger. *)
Theorem plan_nginx_checked actor request now view w w' :
  plan_nginx cfg actor request now w = (Ok view, w') ->
  nginx_request_validate request = Ok tt /\
  (exists site, site_in (w_nginx w) (nr_site_id request) = Some site /\ ns_protected site = false /\
     ns_available_digest site = nr_expected_available_digest request /\
     ns_enabled_state_digest site = nr_expected_enabled_state_digest request) /\
  w_nginx w' = w_nginx w /\ w_snapshots w' = w_snapshots w.
Proof.
  intros Hp. pose proof (plan_nginx_host cfg actor request now w) as Hh. rewrite Hp in Hh.
  unfold plan_nginx in Hp. bind_inv Hp. unfold mlift, map_err in Hm. injection Hm as Hv <-.
  destruct (nginx_request_validate request) as [[]|]; [|done]. split; [done|]. split; [|done].
  bind_inv Hp. apply discover_site_sound in Hm. destruct (ns_protected a0) eqn:Hpr; [done|].
  destruct (_ || _) eqn:Hd; [done|]. bool_prop. by eauto 10.
Qed.
End Props.
