(* ===== verification/CertProps.v ===== *)
(** * jw-opsd: the certificate operations and start-up, theorems

    The rewriting of the management site's TLS directives, the outcomes of the
    certificate operations, the guards of the request dispatcher, and what a
    start of the daemon leaves of the operations of its predecessor. *)

From Stdlib Require Import Ascii String.
From S2P Require Import Prelude Crypto Contracts Plans CertContracts Adapters Ledger LedgerLog LedgerInv LedgerStore.
From S2P Require Import LedgerApi Text Ufw Host Snapshot Nginx ConfigText Diagnostics ManagedConfig.
From S2P Require Import Certificate EngineCore EngineNginx EngineConfig EngineCert EngineService EngineUfw EngineMain.
From S2P Require Import EngineLogic HostProofs ManagedProofs EngineNginxProofs EngineConfigProofs.
From S2P Require Import EngineUfwProofs CertProofs EngineCertProofs StartProofs.

(** ** The TLS directives *)

Definition tls_text (line : list char * bool) : string :=
  text line.1 +:+ (if line.2 then s1 (chr 10) else EmptyString).

Definition certificate_value (line : list char * bool) : option string :=
  directive_value (trim line.1) "ssl_certificate".
Definition is_certificate_line (line : list char * bool) : bool := is_some (certificate_value line).
Definition is_key_line (line : list char * bool) : bool :=
  negb (is_certificate_line line) && is_some (directive_value (trim line.1) "ssl_certificate_key").
Definition is_tls_line (line : list char * bool) : bool := is_certificate_line line || is_key_line line.

(** The directive [name value;] in the place of a line. *)
Definition directive_line (name value : string) (line : list char * bool) : string :=
  text (indentation line.1) +:+ name +:+ value +:+ ";" +:+ (if line.2 then s1 (chr 10) else EmptyString).

(** The one value of a list. *)
Lemma one_value {A B} (f : A -> option B) before a after v :
  f a = Some v -> Forall (fun x => is_some (f x) = false) before -> Forall (fun x => is_some (f x) = false) after ->
  omap f (before ++ a :: after) = [v].
Proof.
  assert (forall k, Forall (fun x => is_some (f x) = false) k -> omap f k = []) as Hz.
  { intros k Hk. induction Hk as [|x k Hx _ IH]; [done|]. simpl. by destruct (f x). }
  intros Ha Hb Hc. rewrite omap_app, (Hz _ Hb). simpl. rewrite Ha. f_equal. by apply Hz.
Qed.

#[local] Opaque directive_value.

Section Tls.
Context (fullchain private_key : string).

Definition tls_rewritten (line : list char * bool) : string :=
  if is_certificate_line line then directive_line "ssl_certificate " fullchain line
  else if is_key_line line then directive_line "ssl_certificate_key " private_key line
  else tls_text line.

Definition count (p : list char * bool -> bool) (ls : list (list char * bool)) : Z :=
  Z.of_nat (length (List.filter p ls)).

Lemma count_cons p line ls : count p (line :: ls) = (if p line then 1 else 0) + count p ls.
Proof. unfold count. simpl. destruct (p line); simpl; lia. Qed.

Lemma tls_step s line :
  tls_line fullchain private_key s line =
  {| ts_certificates := if is_certificate_line line then Z.min 255 (ts_certificates s + 1) else ts_certificates s;
     ts_private_keys := if is_key_line line then Z.min 255 (ts_private_keys s + 1) else ts_private_keys s;
     ts_current := match certificate_value line with Some v => Some (mask_path v) | None => ts_current s end;
     ts_output := ts_output s +:+ tls_rewritten line |}.
Proof.
  destruct line as [bare newline]. unfold tls_rewritten, is_key_line, is_certificate_line, certificate_value, tls_line.
  cbn [fst snd]. destruct (directive_value (trim bare) "ssl_certificate") as [v|]; [done|]. simpl.
  by destruct (is_some _).
Qed.

(** The scan as a map over the lines. *)
Lemma tls_scan ls s :
  ts_certificates s <= 255 -> ts_private_keys s <= 255 ->
  let s' := fold_left (tls_line fullchain private_key) ls s in
  ts_output s' = ts_output s +:+ sconcat (map tls_rewritten ls) /\
  ts_certificates s' = Z.min 255 (ts_certificates s + count is_certificate_line ls) /\
  ts_private_keys s' = Z.min 255 (ts_private_keys s + count is_key_line ls) /\
  ts_current s' = match last (omap certificate_value ls) with
                  | Some v => Some (mask_path v)
                  | None => ts_current s
                  end.
Proof.
  revert s. induction ls as [|line ls IH]; intros s Hc Hk.
  - simpl. rewrite sapp_nil_r. unfold count. simpl. split_and!; try done; lia.
  - cbn [fold_left map]. rewrite !count_cons, sconcat_cons, tls_step.
    set (s1 := {| ts_certificates := _ |}). destruct (IH s1) as (A & B & C & D).
    + simpl. destruct (is_certificate_line line); lia.
    + simpl. destruct (is_key_line line); lia.
    + cbv zeta in *. rewrite A, B, C, D. simpl. rewrite sapp_assoc. split_and!; [done| | |].
      * destruct (is_certificate_line line); unfold count; lia.
      * destruct (is_key_line line); unfold count; lia.
      * destruct (certificate_value line) as [v|]; [rewrite last_cons|done].
        by destruct (last _).
Qed.

Lemma count_app p k l : count p (k ++ l) = count p k + count p l.
Proof. unfold count. rewrite List.filter_app, length_app. lia. Qed.

Lemma count_zero p k : count p k = 0 <-> Forall (fun l => p l = false) k.
Proof.
  induction k as [|x k IH]; [by split|]. rewrite count_cons, Forall_cons, <- IH. unfold count.
  destruct (p x); split; intros Hx; [lia|by destruct Hx|split; [done|lia]|destruct Hx; lia].
Qed.

(** One line satisfies [p]: where it is. *)
Lemma count_one p ls :
  count p ls = 1 -> exists before line after, ls = before ++ line :: after /\ p line = true /\
    Forall (fun l => p l = false) before /\ Forall (fun l => p l = false) after.
Proof.
  induction ls as [|x ls IH]; [done|]. rewrite count_cons. destruct (p x) eqn:Hp; intros Hc.
  - exists [], x, ls. split_and!; [done|done|constructor|]. apply count_zero. unfold count in *. lia.
  - destruct IH as (b & l & a & -> & Hl & Hb & Ha); [lia|]. exists (x :: b), l, a. split_and!; try done. by constructor.
Qed.

Definition tls_lines (ls : list (list char * bool)) : string := sconcat (map tls_text ls).

Lemma rewritten_same l : is_tls_line l = false -> tls_rewritten l = tls_text l.
Proof. unfold tls_rewritten, is_tls_line. destruct (is_certificate_line l); [done|]. by destruct (is_key_line l). Qed.

Lemma rewritten_plain ls :
  Forall (fun l => is_tls_line l = false) ls -> sconcat (map tls_rewritten ls) = tls_lines ls.
Proof.
  intros Hls. unfold tls_lines. apply (f_equal sconcat). apply map_ext_in. intros l Hl.
  apply rewritten_same. rewrite Forall_forall in Hls. by apply Hls, list_elem_of_In.
Qed.

Lemma concat_lines_app a b : sconcat (a ++ b) = sconcat a +:+ sconcat b.
Proof. induction a as [|x a IH]; [done|]. simpl. by rewrite !sconcat_cons, IH, sapp_assoc. Qed.

Lemma split_inclusive_text cs : tls_lines (split_inclusive cs) = text cs.
Proof.
  unfold tls_lines, text. induction cs as [|c cs IH]; [done|]. rewrite sconcat_cons, <- IH. simpl.
  unfold is_newline. case_bool_decide as Hn.
  - simpl. rewrite sconcat_cons. by subst c.
  - destruct (split_inclusive cs) as [|[line newline] more]; simpl; rewrite !sconcat_cons; unfold tls_text; simpl;
      unfold text; rewrite ?sconcat_cons; rewrite ?sapp_assoc; done.
Qed.

Lemma key_not_certificate l : is_key_line l = true -> is_certificate_line l = false.
Proof. unfold is_key_line. intros Hk. by bool_prop. Qed.

(** The shape of a site whose directives can be replaced. *)
Definition tls_site (ls : list (list char * bool)) (value proposed : string) : Prop :=
  exists before a between b after,
    ls = before ++ a :: between ++ b :: after /\
    Forall (fun l => is_tls_line l = false) (before ++ between ++ after) /\
    (certificate_value a = Some value /\ is_key_line b = true \/ is_key_line a = true /\ certificate_value b = Some value) /\
    proposed = tls_lines before +:+ tls_rewritten a +:+ tls_lines between +:+ tls_rewritten b +:+ tls_lines after.

Lemma tls_site_counts ls value proposed :
  tls_site ls value proposed ->
  count is_certificate_line ls = 1 /\ count is_key_line ls = 1 /\ omap certificate_value ls = [value] /\
  sconcat (map tls_rewritten ls) = proposed.
Proof.
  intros (before & a & between & b & after & -> & Hp & Hab & ->).
  apply Forall_app in Hp as [H1 [H2 H3]%Forall_app].
  assert (forall k, Forall (fun l => is_tls_line l = false) k -> count is_certificate_line k = 0 /\ count is_key_line k = 0) as Hz.
  { intros k Hk. split; apply count_zero; eapply Forall_impl; try exact Hk; intros l Hl;
      unfold is_tls_line in Hl; apply orb_false_iff in Hl as [? ?]; assumption. }
  destruct (Hz _ H1) as [C1 K1], (Hz _ H2) as [C2 K2], (Hz _ H3) as [C3 K3].
  assert (sconcat (map tls_rewritten (before ++ a :: between ++ b :: after))
    = tls_lines before +:+ tls_rewritten a +:+ tls_lines between +:+ tls_rewritten b +:+ tls_lines after) as Hout.
  { rewrite map_app, concat_lines_app, map_cons, sconcat_cons, map_app, concat_lines_app, map_cons, sconcat_cons.
    by rewrite !rewritten_plain. }
  rewrite !count_app, !count_cons, !count_app, !count_cons, C1, C2, C3, K1, K2, K3.
  assert (forall l v, certificate_value l = Some v -> is_certificate_line l = true /\ is_key_line l = false) as Hcert.
  { intros l v Hv. unfold is_key_line, is_certificate_line. by rewrite Hv. }
  destruct Hab as [[Ha Hb]|[Ha Hb]].
  - destruct (Hcert _ _ Ha) as [-> ->]. rewrite Hb, (key_not_certificate _ Hb). split_and!; try lia; [|exact Hout].
    apply (one_value certificate_value); [exact Ha|apply (count_zero is_certificate_line); exact C1|].
    apply (count_zero is_certificate_line). rewrite count_app, count_cons, C2, C3, (key_not_certificate _ Hb). lia.
  - destruct (Hcert _ _ Hb) as [-> ->]. rewrite Ha, (key_not_certificate _ Ha). split_and!; try lia; [|exact Hout].
    change (before ++ a :: between ++ b :: after)%list with (before ++ (a :: between) ++ b :: after)%list.
    rewrite app_assoc. apply (one_value certificate_value); [exact Hb| |apply (count_zero is_certificate_line); exact C3].
    apply (count_zero is_certificate_line). rewrite count_app, count_cons, C1, C2, (key_not_certificate _ Ha). lia.
Qed.

Lemma counts_tls_site ls :
  count is_certificate_line ls = 1 -> count is_key_line ls = 1 -> exists value proposed, tls_site ls value proposed.
Proof.
  intros (before & c & after & -> & Hc & Hb & Ha)%count_one Hk.
  unfold is_certificate_line in Hc. destruct (certificate_value c) as [v|] eqn:Hv; [|done].
  assert (is_key_line c = false) as Hkc by (unfold is_key_line, is_certificate_line; by rewrite Hv).
  rewrite count_app, count_cons, Hkc in Hk.
  assert (forall k, Forall (fun l => is_certificate_line l = false) k -> Forall (fun l => is_key_line l = false) k ->
    Forall (fun l => is_tls_line l = false) k) as Hplain.
  { intros k H1 H2. apply Forall_forall. intros l Hl. rewrite Forall_forall in H1, H2.
    unfold is_tls_line. by rewrite H1, H2. }
  destruct (decide (count is_key_line before = 0)) as [Hz|Hz].
  - assert (count is_key_line after = 1) as (b & k & a & -> & Hkk & Hkb & Hka)%count_one by lia.
    apply Forall_app in Ha as [Ha1 [Ha2 Ha3]%Forall_cons]. apply count_zero in Hz.
    eexists v, _. exists before, c, b, k, a. split_and!; [done| |by left|reflexivity]. rewrite !Forall_app. split_and!; auto.
  - assert (count is_key_line before = 1) as (b & k & a & -> & Hkk & Hkb & Hka)%count_one by (unfold count in *; lia).
    assert (count is_key_line after = 0) as Hz'.
    { assert (count is_key_line (b ++ k :: a) = 1) as Heq.
      { apply count_zero in Hkb, Hka. rewrite count_app, count_cons, Hkk, Hkb, Hka. lia. }
      rewrite Heq in Hk. unfold count in *. lia. }
    apply count_zero in Hz'. apply Forall_app in Hb as [Hb1 [Hb2 Hb3]%Forall_cons].
    eexists v, _. exists b, k, a, c, after. split_and!; [by rewrite <- app_assoc| |by right|reflexivity]. rewrite !Forall_app. split_and!; auto.
Qed.

(** C32: attaching a certificate rewrites exactly two lines.
    [replace_tls_directives] succeeds exactly on a site with one
    [ssl_certificate] and one [ssl_certificate_key] directive; the proposed
    text is then the site's, line for line, with the values of these two
    directives replaced and nothing else changed, and the reported path is the
    masked value of the old certificate directive. *)
Theorem tls_directives_exact content proposed current :
  replace_tls_directives content fullchain private_key = Ok (proposed, current) <->
  exists value, current = mask_path value /\ tls_site (split_inclusive (chars content)) value proposed /\
    tls_lines (split_inclusive (chars content)) = text (chars content).
Proof.
  unfold replace_tls_directives. set (ls := split_inclusive (chars content)). set (s0 := {| ts_certificates := 0 |}).
  destruct (tls_scan ls s0) as (Ho & Hc & Hk & Hcur); [done|done|]. cbv zeta in *. rewrite Hc, Hk, Hcur, Ho. simpl.
  split.
  - destruct (_ || _) eqn:Hn; [done|]. bool_prop.
    destruct (counts_tls_site ls) as (value & p & Hs); [lia|lia|].
    destruct (tls_site_counts _ _ _ Hs) as (_ & _ & Hv & Hp). rewrite Hv, Hp. simpl. intros [= <- <-].
    exists value. split_and!; [done|done|apply split_inclusive_text].
  - intros (value & -> & Hs & _). destruct (tls_site_counts _ _ _ Hs) as (-> & -> & Hv & Hp). simpl. by rewrite Hv, Hp.
Qed.
End Tls.

Section Props.
Context `{EngineExternals}.
Context (cfg : Config).
Let paths := cf_paths cfg.

(** C14: attaching a certificate always concludes, truthfully and on the
    management site only.  Executing an approved attachment returns a receipt
    of a terminal stage whose locks are released; the only error is a failed
    ledger write.  [Succeeded] means that the enabled management site holds
    the approved text with the approved metadata, that the last calls were a
    successful activity check of Nginx, of the renewal timer (enabled and
    active) and a completed TLS probe of the planned certificate by the
    certificate daemon, and that before them Nginx was reloaded after a
    successful test of exactly these directories (unless nothing had to
    change); [RolledBack] the same for the text before; [CancelledBeforeApply]
    untouched directories.  No entry differs but the site's file and the
    daemon's own temporaries, errors included. *)
Theorem execute_attach_outcome now id op payload w :
  live 7 now id op w -> o_stage op = Approved -> p_certbot_attach (o_plan op) = Some payload ->
  let touched w' := touches paths (site_change paths (ap_site_id payload)) (w_nginx w) (w_nginx w') in
  match execute_certbot_attach cfg op now w with
  | (Ok r, w') => touched w' /\ exists op', finished id op' r w' /\ o_plan op' = o_plan op /\
                    attach_outcome cfg payload (w_nginx w) (o_stage op') w'
  | (Err _, w') => touched w' /\ storage_fault w'
  end.
Proof.
  intros Hl Hst Hpay touched.
  pose proof (execute_attach_total cfg 7 now id op payload w ltac:(lia) Hl Hst Hpay) as Ht.
  cbv zeta in Ht. unfold total in Ht. destruct (execute_certbot_attach cfg op now w) as [[r|e] w'].
  - destruct Ht as (op' & Hf & Hpl & HI & HK). by eauto.
  - by destruct Ht as [[?|[]] ?].
Qed.

(** C15: a certificate is requested at most once, and in production only
    after a recent staging run.  Executing an approved issue returns a receipt
    of a terminal stage; the only errors are a failed ledger write and an
    inventory too long for its count.  The directories of Nginx are untouched.
    [CancelledBeforeApply]: the certificate daemon was not called.  [Rejected]:
    it was called at most once, with the command of the plan and the e-mail
    address whose digest the plan recorded.  [Succeeded]: exactly once, the
    command completed successfully and the inventory read afterwards satisfies
    the plan's verdict.  If the plan is for production and the operation was
    not cancelled, the ledger held a succeeded staging issue with the same
    evidence key, at most a day old. *)
Theorem execute_issue_outcome now id op payload w :
  live 4 now id op w -> o_stage op = Approved -> p_certbot_issue (o_plan op) = Some payload ->
  match execute_certbot_issue cfg op now w with
  | (Ok r, w') => w_nginx w' = w_nginx w /\ exists op', finished id op' r w' /\ o_plan op' = o_plan op /\
                    issue_outcome cfg payload w (o_stage op') w' /\ issue_gate payload now w (o_stage op')
  | (Err _, w') => w_nginx w' = w_nginx w /\ (storage_fault w' \/ count_fault cfg w')
  end.
Proof.
  intros Hl Hst Hpay.
  pose proof (execute_issue_total cfg 4 now id op payload w ltac:(lia) Hl Hst Hpay) as Ht.
  cbv zeta in Ht. unfold total in Ht. destruct (execute_certbot_issue cfg op now w) as [[r|e] w']; [|by destruct Ht].
  destruct Ht as (op' & Hf & Hpl & HI & HK & Hg). by eauto 8.
Qed.

(** The renewal test, with the same guarantees. *)
Theorem execute_renew_outcome now id op payload w :
  live 4 now id op w -> o_stage op = Approved -> p_certbot_renew (o_plan op) = Some payload ->
  match execute_certbot_renew_test cfg op now w with
  | (Ok r, w') => w_nginx w' = w_nginx w /\ exists op', finished id op' r w' /\ o_plan op' = o_plan op /\
                    renew_outcome cfg w (o_stage op') w'
  | (Err _, w') => w_nginx w' = w_nginx w /\ (storage_fault w' \/ count_fault cfg w')
  end.
Proof.
  intros Hl Hst Hpay. pose proof (execute_renew_total cfg 4 now id op payload w ltac:(lia) Hl Hst Hpay) as Ht.
  cbv zeta in Ht. unfold total in Ht. destruct (execute_certbot_renew_test cfg op now w) as [[r|e] w']; [|by destruct Ht].
  destruct Ht as (op' & Hf & Hpl & HI & HK). by eauto.
Qed.


(** ** The dispatcher *)

(** The requests that change something, with their actor. *)
Definition write_actor (body : OpsRequestBody) : option Subject :=
  match body with
  | PlanCertbotIssue actor _ | ApproveCertbotIssue actor _ _ _ _ _ | PlanCertbotRenewTest actor _
  | PlanCertbotAttach actor _ | ApproveCertbotAttach actor _ _ _ _ _ | ApproveCertbotRenewTest actor _ _ _ _
  | PlanNginxSiteState actor _ | ApproveNginxSiteState actor _ _ _ | PlanManagedConfig actor _
  | PlanManagedConfigRestore actor _ | ApproveManagedConfig actor _ _ _ _ | PlanServiceControl actor _
  | ApproveServiceControl actor _ _ _ _ | PlanUfwRule actor _ | ApproveUfwRule actor _ _ _ _
  | ExecuteOperation actor _ => Some actor
  | _ => None
  end.

Definition permitted (request : OpsRequest) (now : Z) (w : World) : bool :=
  is_ok (ops_request_validate request now) && negb (w_lockdown w) &&
  is_some_and (write_actor (oq_body request)) (fun actor => is_ok (require_operator actor)).

(** What reads may change: the ledger's own bookkeeping and the lockdown flag. *)
Definition read_only (w w' : World) : Prop :=
  w_nginx w' = w_nginx w /\ w_snapshots w' = w_snapshots w /\ w_proposals w' = w_proposals w /\
  same_rows (st_db (w_store w)) (st_db (w_store w')).

#[export] Instance read_only_preorder : PreOrder read_only.
Proof.
  split; [by intros w; split_and!|]. intros a b c (A1 & B1 & C1 & D1 & E1 & F1) (A2 & B2 & C2 & D2 & E2 & F2).
  repeat split; congruence.
Qed.

Lemma ro_observes {A} (m : EM A) : keeps observes m -> keeps read_only m.
Proof. apply keeps_weaken. by intros w w' (A1 & B1 & C1 & _ & _ & D1). Qed.
Lemma ro_quiet {A} (m : EM A) : quiet m -> keeps read_only m.
Proof. intros Hq. by apply ro_observes, observes_quiet. Qed.

Lemma ro_ledger_read {A} (f : Db -> oresult A) : keeps read_only (ledger (read_db f)).
Proof. intros w. unfold ledger, read_db. by destruct (ask_sys _ _) as [ok h]. Qed.

Lemma ro_open : keeps read_only open_ledger.
Proof.
  unfold open_ledger. apply keeps_try; [exact _|apply ro_observes, observes_open|].
  intros [u|[]]; try solve [apply ro_quiet; quiet_solver].
  apply keeps_bind; [exact _|by intros w; split_and!|]. intros _. apply ro_quiet. quiet_solver.
Qed.

Lemma ro_capabilities : keeps read_only capabilities.
Proof.
  unfold capabilities. apply keeps_bind; [exact _|apply ro_quiet; quiet_solver|]. intros locked.
  destruct locked; [apply ro_quiet; quiet_solver|]. apply keeps_try; [exact _|apply ro_observes, observes_open|].
  intros [u|[]]; try solve [apply ro_quiet; quiet_solver].
  apply keeps_bind; [exact _|by intros w; split_and!|]. intros _. apply ro_quiet. quiet_solver.
Qed.

Lemma ro_respond {A} (f : A -> OpsResponseBody) (m : EM A) : keeps read_only m -> keeps read_only (respond f m).
Proof. intros Hm. apply keeps_bind; [exact _|done|]. intros a. apply ro_quiet. quiet_solver. Qed.

Lemma read_body_only body now : write_actor body = None -> keeps read_only (handle_body cfg body now).
Proof.
  destruct body; simpl; try done; intros _.
  - apply ro_respond, ro_capabilities.
  - apply ro_respond, ro_observes, observes_inventory.
  - apply keeps_bind; [exact _|apply ro_quiet; quiet_solver|]. intros _. apply ro_respond. unfold read_managed_config.
    apply keeps_bind; [exact _|apply ro_quiet, quiet_discover_managed|]. intros r. apply ro_quiet. quiet_solver.
  - apply ro_respond, ro_quiet, quiet_inventory.
  - apply ro_respond. unfold operation_receipt. apply keeps_bind; [exact _|apply ro_open|]. intros _.
    apply keeps_bind; [exact _|apply ro_ledger_read|]. intros op. destruct (negb _); [apply ro_quiet; quiet_solver|apply ro_ledger_read].
  - apply keeps_bind; [exact _|apply ro_open|]. intros _. apply ro_respond, ro_ledger_read.
Qed.

(** A refused write. *)
Lemma writing_refused actor m w :
  w_lockdown w = true \/ is_ok (require_operator actor) = false ->
  exists e, writing actor m w = (Err e, w).
Proof.
  unfold writing, require_write_available, mbind, mlift. intros [->|Hr]; [by eexists|].
  destruct (w_lockdown w); [by eexists|]. destruct (require_operator actor); [done|]. by eexists.
Qed.

Lemma write_body_refused body now actor w :
  write_actor body = Some actor -> w_lockdown w = true \/ is_ok (require_operator actor) = false ->
  exists e, handle_body cfg body now w = (Err e, w).
Proof. destruct body; simpl; try done; intros [= <-] Hr; by apply writing_refused. Qed.

(** An operation that is not the actor's, or not [Approved], is not executed. *)
Definition executes (body : OpsRequestBody) (w : World) : bool :=
  match body with
  | ExecuteOperation actor id =>
      is_ok_and (load_operation_from (st_db (w_store w)) id) (fun op =>
        bool_decide (p_actor (o_plan op) = actor) && bool_decide (o_stage op = Approved))
  | _ => true
  end.

Lemma execute_operation_once actor id now w :
  executes (ExecuteOperation actor id) w = false -> read_only w (execute_operation cfg actor id now w).2.
Proof.
  intros He. unfold execute_operation, mbind at 1. pose proof (ro_open w) as Ho.
  destruct (open_ledger w) as [[u|e] w1]; [|exact Ho]. simpl in Ho. etrans; [exact Ho|].
  destruct Ho as (_ & _ & _ & Hp & Hops & _). unfold mbind at 1. pose proof (ro_ledger_read (fun db => load_operation_from db id) w1) as Hl.
  unfold load_operation, ledger, read_db in *. destruct (ask_sys SysLedger (w_host w1)) as [ok h]. simpl in *.
  rewrite (load_operation_ext _ _ _ Hp Hops) in *. simpl in He.
  destruct (load_operation_from (st_db (w_store w)) id) as [op|e] eqn:E; [|exact Hl]. simpl in He.
  etrans; [exact Hl|]. case_bool_decide as Ha; simpl in *; [|done].
  replace (is_terminal (o_stage op) || negb (bool_decide (o_stage op = Approved))) with true
    by (rewrite He; by rewrite orb_true_r).
  apply (ro_ledger_read (fun db => receipt_from db (o_operation_id op))).
Qed.

(** C30: only permitted write requests change anything.  Whatever the request,
    the response carries its identifier.  A planning, approval or execution
    request that fails validation (confirmations included), comes from an
    actor without an operator's role, or meets a locked-down daemon or a
    poisoned lock is answered by a rejection and leaves the world as it was;
    every other request, and the execution of an operation that is not the
    actor's own or not [Approved], leaves the directories, the snapshots, the
    proposals and the rows and events of the ledger alone. *)
Theorem requests_guarded poisoned request now w :
  let (response, w') := response_for cfg poisoned request now w in
  os_request_id response = oq_request_id request /\
  (poisoned || negb (permitted request now w) = true -> is_some (write_actor (oq_body request)) = true ->
     w' = w /\ exists code, os_body response = RRejected code) /\
  (write_actor (oq_body request) = None \/ executes (oq_body request) w = false -> read_only w w').
Proof.
  unfold response_for. destruct poisoned; [split_and!; [done|by eauto|done]|].
  unfold permitted. destruct (ops_request_validate request now) as [u|code]; simpl; [|split_and!; [done|by eauto|done]].
  destruct (handle_body cfg (oq_body request) now w) as [r w'] eqn:E. split_and!; [done| |].
  - destruct (write_actor (oq_body request)) as [actor|] eqn:Hw; [|done]. intros Hn _. cbn [is_some_and] in Hn.
    destruct (write_body_refused (oq_body request) now actor w Hw) as [e He].
    { destruct (w_lockdown w); [by left|]. right. by destruct (is_ok (require_operator actor)). }
    rewrite E in He. injection He as -> ->. split; [done|]. by eexists.
  - intros [Hnone|Hex]; [by pose proof (read_body_only _ now Hnone w) as Hro; rewrite E in Hro|].
    destruct (oq_body request) as [| | | | | | | | | | | | | | | | | | |actor id| |]; try done. simpl in E.
    unfold writing, respond, mbind, require_write_available, mlift in E. destruct (w_lockdown w); [by injection E as _ <-|].
    destruct (require_operator actor); [|by injection E as _ <-].
    pose proof (execute_operation_once actor id now w Hex) as Hro.
    destruct (execute_operation cfg actor id now w) as [[v|e] w2]; by injection E as _ <-.
Qed.
End Props.
