(* ===== verification/HostReference.v ===== *)
(** * A reference machine

    A concrete machine for the parameters of [Host.EngineExternals]: registered
    programs that start and stop services, a firewall that is a numbered list
    of rules, system calls that can be made to fail.  Witnesses run the engine
    on it. *)

From Stdlib Require Import Ascii String.
From S2P Require Import Prelude Crypto Contracts Plans CertContracts Adapters Reference Ledger Text Ufw Host Snapshot Nginx ConfigText Diagnostics ManagedConfig Certificate.

(** ** Codecs *)

#[export] Instance codec_ManagedServiceAction : Codec ManagedServiceAction.
Proof. refine (codec_enum [Start; Stop; Restart; Reload] Start _). by intros []. Defined.

#[export] Instance codec_Subject : Codec Subject.
Proof.
  refine (codec_iso (fun r => (uid r, username r, role r))
    (fun '(x0, x1, x2) => {| uid := x0; username := x1; role := x2 |}) _).
  by intros [].
Defined.

#[export] Instance codec_NginxLinkSnapshot : Codec NginxLinkSnapshot.
Proof.
  refine (codec_iso (fun r => (nl_schema_version r, nl_site_id r, nl_basename r, nl_enabled r, nl_available_digest r, nl_enabled_state_digest r))
    (fun '(x0, x1, x2, x3, x4, x5) => {| nl_schema_version := x0; nl_site_id := x1; nl_basename := x2; nl_enabled := x3; nl_available_digest := x4; nl_enabled_state_digest := x5 |}) _).
  by intros [].
Defined.

#[export] Instance codec_ServiceStateSnapshot : Codec ServiceStateSnapshot.
Proof.
  refine (codec_iso (fun r => (ss_schema_version r, ss_service_id r, ss_unit_name r, ss_active r, ss_state_digest r))
    (fun '(x0, x1, x2, x3, x4) => {| ss_schema_version := x0; ss_service_id := x1; ss_unit_name := x2; ss_active := x3; ss_state_digest := x4 |}) _).
  by intros [].
Defined.

#[export] Instance codec_UfwRuleView : Codec UfwRuleView.
Proof.
  refine (codec_iso (fun r => (uv_sequence r, uv_rule_id r, uv_action r, uv_protocol r, uv_port r, uv_source r, uv_destination r, uv_ipv6 r, uv_owned r, uv_protected r, uv_summary r))
    (fun '(x0, x1, x2, x3, x4, x5, x6, x7, x8, x9, x10) => {| uv_sequence := x0; uv_rule_id := x1; uv_action := x2; uv_protocol := x3; uv_port := x4; uv_source := x5; uv_destination := x6; uv_ipv6 := x7; uv_owned := x8; uv_protected := x9; uv_summary := x10 |}) _).
  by intros [].
Defined.

#[export] Instance codec_UfwSnapshot : Codec UfwSnapshot.
Proof.
  refine (codec_iso (fun r => (uf_schema_version r, uf_state_digest r, uf_rules r))
    (fun '(x0, x1, x2) => {| uf_schema_version := x0; uf_state_digest := x1; uf_rules := x2 |}) _).
  by intros [].
Defined.

#[export] Instance codec_NginxSiteStatePlanRequest : Codec NginxSiteStatePlanRequest.
Proof.
  refine (codec_iso (fun r => (nr_schema_version r, nr_operation_type r, nr_site_id r, nr_target_state r, nr_expected_available_digest r, nr_expected_enabled_state_digest r, nr_idempotency_key r))
    (fun '(x0, x1, x2, x3, x4, x5, x6) => {| nr_schema_version := x0; nr_operation_type := x1; nr_site_id := x2; nr_target_state := x3; nr_expected_available_digest := x4; nr_expected_enabled_state_digest := x5; nr_idempotency_key := x6 |}) _).
  by intros [].
Defined.

#[export] Instance codec_ServiceControlPlanRequest : Codec ServiceControlPlanRequest.
Proof.
  refine (codec_iso (fun r => (sr_schema_version r, sr_operation_type r, sr_service_id r, sr_action r, sr_expected_state_digest r, sr_idempotency_key r))
    (fun '(x0, x1, x2, x3, x4, x5) => {| sr_schema_version := x0; sr_operation_type := x1; sr_service_id := x2; sr_action := x3; sr_expected_state_digest := x4; sr_idempotency_key := x5 |}) _).
  by intros [].
Defined.

#[export] Instance codec_UfwRulePlanRequest : Codec UfwRulePlanRequest.
Proof.
  refine (codec_iso (fun r => (ur_schema_version r, ur_operation_type r, ur_mutation r, ur_protocol r, ur_port r, ur_source r, ur_rule_id r, ur_expected_state_digest r, ur_idempotency_key r))
    (fun '(x0, x1, x2, x3, x4, x5, x6, x7, x8) => {| ur_schema_version := x0; ur_operation_type := x1; ur_mutation := x2; ur_protocol := x3; ur_port := x4; ur_source := x5; ur_rule_id := x6; ur_expected_state_digest := x7; ur_idempotency_key := x8 |}) _).
  by intros [].
Defined.

#[export] Instance codec_ManagedConfigSnapshot : Codec ManagedConfigSnapshot.
Proof.
  refine (codec_iso (fun r => (ms_schema_version r, ms_resource_id r, ms_basename r, ms_content r, ms_content_digest r, ms_metadata_digest r, ms_mode r, ms_uid r, ms_gid r))
    (fun '(x0, x1, x2, x3, x4, x5, x6, x7, x8) => {| ms_schema_version := x0; ms_resource_id := x1; ms_basename := x2; ms_content := x3; ms_content_digest := x4; ms_metadata_digest := x5; ms_mode := x6; ms_uid := x7; ms_gid := x8 |}) _).
  by intros [].
Defined.

#[export] Instance codec_ManagedConfigPlanRequest : Codec ManagedConfigPlanRequest.
Proof.
  refine (codec_iso (fun r => (mr_schema_version r, mr_operation_type r, mr_resource_id r, mr_expected_content_digest r, mr_expected_metadata_digest r, mr_proposed_content r, mr_service_action r, mr_idempotency_key r))
    (fun '(x0, x1, x2, x3, x4, x5, x6, x7) => {| mr_schema_version := x0; mr_operation_type := x1; mr_resource_id := x2; mr_expected_content_digest := x3; mr_expected_metadata_digest := x4; mr_proposed_content := x5; mr_service_action := x6; mr_idempotency_key := x7 |}) _).
  by intros [].
Defined.

#[export] Instance codec_ManagedConfigRestorePlanRequest : Codec ManagedConfigRestorePlanRequest.
Proof.
  refine (codec_iso (fun r => (rr_schema_version r, rr_operation_type r, rr_source_operation_id r, rr_expected_content_digest r, rr_expected_metadata_digest r, rr_idempotency_key r))
    (fun '(x0, x1, x2, x3, x4, x5) => {| rr_schema_version := x0; rr_operation_type := x1; rr_source_operation_id := x2; rr_expected_content_digest := x3; rr_expected_metadata_digest := x4; rr_idempotency_key := x5 |}) _).
  by intros [].
Defined.

#[export] Instance codec_ManagedPlanHashMaterial : Codec ManagedPlanHashMaterial.
Proof.
  refine (codec_iso (fun r => (mh_schema_version r, mh_operation_type r, mh_plan_id r, mh_created_at_ms r, mh_expires_at_ms r, mh_actor r, mh_resource_id r, mh_display_name r, mh_current_content_digest r, mh_metadata_digest r, mh_proposed_content_digest r, mh_service_action r, mh_current_bytes r, mh_proposed_bytes r, mh_added_lines r, mh_removed_lines r, mh_diff_summary r, mh_resource_key r, mh_impact r, mh_recovery_path r, mh_assurance r))
    (fun '(x0, x1, x2, x3, x4, x5, x6, x7, x8, x9, x10, x11, x12, x13, x14, x15, x16, x17, x18, x19, x20) => {| mh_schema_version := x0; mh_operation_type := x1; mh_plan_id := x2; mh_created_at_ms := x3; mh_expires_at_ms := x4; mh_actor := x5; mh_resource_id := x6; mh_display_name := x7; mh_current_content_digest := x8; mh_metadata_digest := x9; mh_proposed_content_digest := x10; mh_service_action := x11; mh_current_bytes := x12; mh_proposed_bytes := x13; mh_added_lines := x14; mh_removed_lines := x15; mh_diff_summary := x16; mh_resource_key := x17; mh_impact := x18; mh_recovery_path := x19; mh_assurance := x20 |}) _).
  by intros [].
Defined.

#[export] Instance codec_PlanHashMaterial : Codec PlanHashMaterial.
Proof.
  refine (codec_iso (fun r => (ph_schema_version r, ph_operation_type r, ph_plan_id r, ph_created_at_ms r, ph_expires_at_ms r, ph_actor r, ph_site_id r, ph_display_name r, ph_current_state r, ph_target_state r, ph_available_digest r, ph_enabled_state_digest r, ph_resource_key r, ph_impact r, ph_recovery_path r, ph_assurance r))
    (fun '(x0, x1, x2, x3, x4, x5, x6, x7, x8, x9, x10, x11, x12, x13, x14, x15) => {| ph_schema_version := x0; ph_operation_type := x1; ph_plan_id := x2; ph_created_at_ms := x3; ph_expires_at_ms := x4; ph_actor := x5; ph_site_id := x6; ph_display_name := x7; ph_current_state := x8; ph_target_state := x9; ph_available_digest := x10; ph_enabled_state_digest := x11; ph_resource_key := x12; ph_impact := x13; ph_recovery_path := x14; ph_assurance := x15 |}) _).
  by intros [].
Defined.

#[export] Instance codec_UfwPlanHashMaterial : Codec UfwPlanHashMaterial.
Proof.
  refine (codec_iso (fun r => (uh_schema_version r, uh_operation_type r, uh_plan_id r, uh_created_at_ms r, uh_expires_at_ms r, uh_actor r, uh_expected_state_digest r, uh_resource_key r, uh_payload r, uh_assurance r))
    (fun '(x0, x1, x2, x3, x4, x5, x6, x7, x8, x9) => {| uh_schema_version := x0; uh_operation_type := x1; uh_plan_id := x2; uh_created_at_ms := x3; uh_expires_at_ms := x4; uh_actor := x5; uh_expected_state_digest := x6; uh_resource_key := x7; uh_payload := x8; uh_assurance := x9 |}) _).
  by intros [].
Defined.

#[export] Instance codec_PlanRequestDigest {R} `{Codec R} : Codec (PlanRequestDigest R).
Proof.
  refine (codec_iso (fun r => (rd_operation_type r, rd_actor r, rd_request r))
    (fun '(a, b, c) => {| rd_operation_type := a; rd_actor := b; rd_request := c |}) _).
  by intros [].
Defined.

#[export] Instance codec_CertificateInventorySnapshot : Codec CertificateInventorySnapshot.
Proof.
  refine (codec_iso (fun r => (cx_schema_version r, cx_inventory_digest r, cx_timer_enabled r, cx_timer_active r, cx_certificate_count r))
    (fun '(x0, x1, x2, x3, x4) => {| cx_schema_version := x0; cx_inventory_digest := x1; cx_timer_enabled := x2; cx_timer_active := x3; cx_certificate_count := x4 |}) _).
  by intros [].
Defined.

#[export] Instance codec_CertificateSummaryView : Codec CertificateSummaryView.
Proof.
  refine (codec_iso (fun r => (cy_primary_domain r, cy_sans r, cy_not_after r, cy_fingerprint_sha256 r, cy_certificate_path r, cy_private_key_present r, cy_renewal_config_present r, cy_webroot_managed r))
    (fun '(x0, x1, x2, x3, x4, x5, x6, x7) => {| cy_primary_domain := x0; cy_sans := x1; cy_not_after := x2; cy_fingerprint_sha256 := x3; cy_certificate_path := x4; cy_private_key_present := x5; cy_renewal_config_present := x6; cy_webroot_managed := x7 |}) _).
  by intros [].
Defined.

#[export] Instance codec_InventoryDigest : Codec InventoryDigest.
Proof.
  refine (codec_iso (fun r => (id_certbot_installed r, id_timer_enabled r, id_timer_active r, id_certificates r, id_problems r))
    (fun '(x0, x1, x2, x3, x4) => {| id_certbot_installed := x0; id_timer_enabled := x1; id_timer_active := x2; id_certificates := x3; id_problems := x4 |}) _).
  by intros [].
Defined.

#[export] Instance codec_CertbotStagingEvidenceMaterial : Codec CertbotStagingEvidenceMaterial.
Proof.
  refine (codec_iso (fun r => (se_domains r, se_site_digest r, se_resolved_addresses r))
    (fun '(x0, x1, x2) => {| se_domains := x0; se_site_digest := x1; se_resolved_addresses := x2 |}) _).
  by intros [].
Defined.

#[export] Instance codec_CertbotIssuePlanRequest : Codec CertbotIssuePlanRequest.
Proof.
  refine (codec_iso (fun r => (ci_schema_version r, ci_operation_type r, ci_primary_domain r, ci_alternative_domains r, ci_account_email r, ci_environment r, ci_site_id r, ci_expected_site_digest r, ci_expected_inventory_digest r, ci_tos_agreed r, ci_idempotency_key r))
    (fun '(x0, x1, x2, x3, x4, x5, x6, x7, x8, x9, x10) => {| ci_schema_version := x0; ci_operation_type := x1; ci_primary_domain := x2; ci_alternative_domains := x3; ci_account_email := x4; ci_environment := x5; ci_site_id := x6; ci_expected_site_digest := x7; ci_expected_inventory_digest := x8; ci_tos_agreed := x9; ci_idempotency_key := x10 |}) _).
  by intros [].
Defined.

#[export] Instance codec_CertbotIssuePreflightEvidence : Codec CertbotIssuePreflightEvidence.
Proof.
  refine (codec_iso (fun r => (pf_observed_at_unix_ms r, pf_resolved_addresses r, pf_expected_addresses r, pf_local_port_80_reachable r, pf_local_port_443_reachable r))
    (fun '(x0, x1, x2, x3, x4) => {| pf_observed_at_unix_ms := x0; pf_resolved_addresses := x1; pf_expected_addresses := x2; pf_local_port_80_reachable := x3; pf_local_port_443_reachable := x4 |}) _).
  by intros [].
Defined.

#[export] Instance codec_CertbotIssuePlanInput : Codec CertbotIssuePlanInput.
Proof.
  refine (codec_iso (fun r => (in_request r, in_preflight r))
    (fun '(x0, x1) => {| in_request := x0; in_preflight := x1 |}) _).
  by intros [].
Defined.

#[export] Instance codec_CertbotRenewTestPlanRequest : Codec CertbotRenewTestPlanRequest.
Proof.
  refine (codec_iso (fun r => (rt_schema_version r, rt_operation_type r, rt_expected_inventory_digest r, rt_idempotency_key r))
    (fun '(x0, x1, x2, x3) => {| rt_schema_version := x0; rt_operation_type := x1; rt_expected_inventory_digest := x2; rt_idempotency_key := x3 |}) _).
  by intros [].
Defined.

#[export] Instance codec_CertbotAttachPlanRequest : Codec CertbotAttachPlanRequest.
Proof.
  refine (codec_iso (fun r => (at_schema_version r, at_operation_type r, at_primary_domain r, at_site_id r, at_expected_site_digest r, at_expected_inventory_digest r, at_expected_certificate_fingerprint r, at_idempotency_key r))
    (fun '(x0, x1, x2, x3, x4, x5, x6, x7) => {| at_schema_version := x0; at_operation_type := x1; at_primary_domain := x2; at_site_id := x3; at_expected_site_digest := x4; at_expected_inventory_digest := x5; at_expected_certificate_fingerprint := x6; at_idempotency_key := x7 |}) _).
  by intros [].
Defined.

#[export] Instance codec_CertbotRenewPlanHashMaterial : Codec CertbotRenewPlanHashMaterial.
Proof.
  refine (codec_iso (fun r => (rh_schema_version r, rh_operation_type r, rh_plan_id r, rh_created_at_ms r, rh_expires_at_ms r, rh_actor r, rh_inventory_digest r, rh_timer_enabled r, rh_timer_active r, rh_certificate_count r, rh_resource_key r, rh_assurance r))
    (fun '(x0, x1, x2, x3, x4, x5, x6, x7, x8, x9, x10, x11) => {| rh_schema_version := x0; rh_operation_type := x1; rh_plan_id := x2; rh_created_at_ms := x3; rh_expires_at_ms := x4; rh_actor := x5; rh_inventory_digest := x6; rh_timer_enabled := x7; rh_timer_active := x8; rh_certificate_count := x9; rh_resource_key := x10; rh_assurance := x11 |}) _).
  by intros [].
Defined.

#[export] Instance codec_CertbotIssuePlanHashMaterial : Codec CertbotIssuePlanHashMaterial.
Proof.
  refine (codec_iso (fun r => (ih_schema_version r, ih_operation_type r, ih_plan_id r, ih_created_at_ms r, ih_expires_at_ms r, ih_actor r, ih_primary_domain r, ih_domains r, ih_account_email_digest r, ih_masked_account_email r, ih_environment r, ih_site_id r, ih_site_digest r, ih_inventory_digest r, ih_preflight_observed_at_ms r, ih_resolved_addresses r, ih_local_port_80_reachable r, ih_local_port_443_reachable r, ih_staging_evidence_valid r, ih_staging_evidence_key r, ih_resource_key r, ih_assurance r))
    (fun '(x0, x1, x2, x3, x4, x5, x6, x7, x8, x9, x10, x11, x12, x13, x14, x15, x16, x17, x18, x19, x20, x21) => {| ih_schema_version := x0; ih_operation_type := x1; ih_plan_id := x2; ih_created_at_ms := x3; ih_expires_at_ms := x4; ih_actor := x5; ih_primary_domain := x6; ih_domains := x7; ih_account_email_digest := x8; ih_masked_account_email := x9; ih_environment := x10; ih_site_id := x11; ih_site_digest := x12; ih_inventory_digest := x13; ih_preflight_observed_at_ms := x14; ih_resolved_addresses := x15; ih_local_port_80_reachable := x16; ih_local_port_443_reachable := x17; ih_staging_evidence_valid := x18; ih_staging_evidence_key := x19; ih_resource_key := x20; ih_assurance := x21 |}) _).
  by intros [].
Defined.

#[export] Instance codec_CertbotAttachPlanHashMaterial : Codec CertbotAttachPlanHashMaterial.
Proof.
  refine (codec_iso (fun r => (ah_schema_version r, ah_operation_type r, ah_plan_id r, ah_created_at_ms r, ah_expires_at_ms r, ah_actor r, ah_primary_domain r, ah_site_id r, ah_site_digest r, ah_metadata_digest r, ah_inventory_digest r, ah_certificate_fingerprint r, ah_sans r, ah_not_after r, ah_current_certificate_path r, ah_target_certificate_path r, ah_proposed_content_digest r, ah_timer_enabled r, ah_timer_active r, ah_resource_key r, ah_assurance r))
    (fun '(x0, x1, x2, x3, x4, x5, x6, x7, x8, x9, x10, x11, x12, x13, x14, x15, x16, x17, x18, x19, x20) => {| ah_schema_version := x0; ah_operation_type := x1; ah_plan_id := x2; ah_created_at_ms := x3; ah_expires_at_ms := x4; ah_actor := x5; ah_primary_domain := x6; ah_site_id := x7; ah_site_digest := x8; ah_metadata_digest := x9; ah_inventory_digest := x10; ah_certificate_fingerprint := x11; ah_sans := x12; ah_not_after := x13; ah_current_certificate_path := x14; ah_target_certificate_path := x15; ah_proposed_content_digest := x16; ah_timer_enabled := x17; ah_timer_active := x18; ah_resource_key := x19; ah_assurance := x20 |}) _).
  by intros [].
Defined.

(** ** The machine *)

#[export] Instance PrivateRoot_eq_dec : EqDecision PrivateRoot.
Proof. solve_decision. Defined.
#[export] Instance PrivateCall_eq_dec : EqDecision PrivateCall.
Proof. solve_decision. Defined.
#[export] Instance SystemCall_eq_dec : EqDecision SystemCall.
Proof. solve_decision. Defined.

Record HostMachine := {
  hm_stopped : list RegisteredService;
  hm_broken : list CommandClass;
  hm_missing : list CommandClass;
  hm_denied : list SystemCall;
  hm_rules : list string;
  (** Certbot's directories, what [openssl x509] prints of any certificate,
      and whether the commands of the certificate daemon succeed. *)
  hm_certificates : CertTree;
  hm_x509 : string;
  hm_certd : bool;
  hm_seed : Z;
}.

Definition set_stopped (l : list RegisteredService) (m : HostMachine) : HostMachine :=
  {| hm_stopped := l; hm_broken := hm_broken m; hm_missing := hm_missing m; hm_denied := hm_denied m;
     hm_rules := hm_rules m; hm_certificates := hm_certificates m; hm_x509 := hm_x509 m; hm_certd := hm_certd m;
     hm_seed := hm_seed m |}.
Definition set_rules (l : list string) (m : HostMachine) : HostMachine :=
  {| hm_stopped := hm_stopped m; hm_broken := hm_broken m; hm_missing := hm_missing m;
     hm_denied := hm_denied m; hm_rules := l; hm_certificates := hm_certificates m; hm_x509 := hm_x509 m; hm_certd := hm_certd m;
     hm_seed := hm_seed m |}.

Definition running_service (s : RegisteredService) (m : HostMachine) : bool :=
  negb (bool_decide (s ∈ hm_stopped m)).

(** What a lifecycle program does to its unit. *)
Definition class_effect (class : CommandClass) (m : HostMachine) : HostMachine :=
  let start s := set_stopped (List.filter (fun x => negb (bool_decide (x = s))) (hm_stopped m)) m in
  let stop s := set_stopped (s :: hm_stopped m) m in
  match class with
  | NginxStart | NginxRestart => start SvcNginx
  | NginxStop => stop SvcNginx
  | ApacheStart | ApacheRestart => start SvcApache
  | ApacheStop => stop SvcApache
  | PhpFpm83Start | PhpFpm83Restart => start SvcPhpFpm83
  | PhpFpm83Stop => stop SvcPhpFpm83
  | _ => m
  end.

Definition class_success (class : CommandClass) (m : HostMachine) : bool :=
  negb (bool_decide (class ∈ hm_broken m)) &&
  match class with
  | NginxActive => running_service SvcNginx m
  | ApacheActive => running_service SvcApache m
  | PhpFpm83Active => running_service SvcPhpFpm83 m
  | _ => true
  end.

Definition evidence (class : CommandClass) (success : bool) (output : string) : CommandEvidence :=
  {| c_class := class; c_success := success; c_exit_code := Some (if success then 0 else 1);
     c_timed_out := false;
     c_stdout := @read_bounded sha256_checksum 65536 output;
     c_stderr := @read_bounded sha256_checksum 65536 "" |}.

Definition host_run (class : CommandClass) (m : HostMachine) : oresult CommandEvidence * HostMachine :=
  if bool_decide (class ∈ hm_missing m) then (Err EFilesystem, m)
  else let ok := class_success class m in
       (Ok (evidence class ok ""), if ok then class_effect class m else m).

(** [ufw status numbered] of a rule list. *)
Definition newline : string := String (chr 10) EmptyString.
Fixpoint numbered_lines (n : Z) (rules : list string) : string :=
  match rules with
  | [] => EmptyString
  | r :: rest => "[ " +:+ decimal n +:+ "] " +:+ r +:+ newline +:+ numbered_lines (n + 1) rest
  end.
Definition status_output (rules : list string) : string :=
  "Status: active" +:+ newline +:+ newline +:+ numbered_lines 1 rules.

Definition rule_text (rule : UfwRuleSpec) : string :=
  decimal (us_port rule) +:+ "/" +:+ protocol_as_str (us_protocol rule) +:+ " "
  +:+ (match us_mutation rule with UDeny => "DENY" | _ => "ALLOW" end) +:+ " IN "
  +:+ (if bool_decide (us_source rule = "any"%string) then "Anywhere" else us_source rule)
  +:+ " # " +:+ UFW_COMMENT_PREFIX +:+ us_rule_id rule.

Definition host_ufw (command : UfwCommand) (m : HostMachine) : oresult CommandEvidence * HostMachine :=
  let class := (registered_arguments command).1 in
  if bool_decide (class ∈ hm_missing m) then (Err EFilesystem, m)
  else if bool_decide (class ∈ hm_broken m) then (Ok (evidence class false ""), m)
  else match command with
       | UStatus => (Ok (evidence class true (status_output (hm_rules m))), m)
       | UAdd rule => (Ok (evidence class true ""), set_rules (hm_rules m ++ [rule_text rule]) m)
       | UDeleteAt n => (Ok (evidence class true ""), set_rules (remove_at n (hm_rules m)) m)
       end.

Definition host_random (m : HostMachine) : option string * HostMachine :=
  (Some (pad_bytes 16 (hm_seed m)),
   {| hm_stopped := hm_stopped m; hm_broken := hm_broken m; hm_missing := hm_missing m;
      hm_denied := hm_denied m; hm_rules := hm_rules m; hm_certificates := hm_certificates m; hm_x509 := hm_x509 m; hm_certd := hm_certd m;
     hm_seed := hm_seed m + 1 |}).

Definition host_suffix (m : HostMachine) : option Z * HostMachine := (Some (hm_seed m), (host_random m).2).

Definition host_certd (request : CertbotCommandRequest) (m : HostMachine)
    : option CertbotCommandResponse * HostMachine :=
  (Some {| cs_protocol_version := IPC_PROTOCOL_VERSION; cs_request_id := cq_request_id request;
           cs_result := CertCompleted
             {| cb_command_class := expected_class (cq_command request); cb_success := hm_certd m;
                cb_exit_code := Some (if hm_certd m then 0 else 1); cb_timed_out := false;
                cb_stdout_digest := @sha256_digest sha256_checksum EmptyString; cb_stdout_truncated := false;
                cb_stderr_digest := @sha256_digest sha256_checksum EmptyString; cb_stderr_truncated := false |} |}, m).

Definition host_reference : EngineExternals :=
  {| ee_externals := reference;
     ee_nginx_snapshot := json_of_codec NginxLinkSnapshot;
     ee_service_snapshot := json_of_codec ServiceStateSnapshot;
     ee_ufw_snapshot := json_of_codec UfwSnapshot;
     ee_managed_snapshot := json_of_codec ManagedConfigSnapshot;
     ee_nginx_request := json_of_codec (PlanRequestDigest NginxSiteStatePlanRequest);
     ee_service_request := json_of_codec (PlanRequestDigest ServiceControlPlanRequest);
     ee_ufw_request := json_of_codec (PlanRequestDigest UfwRulePlanRequest);
     ee_managed_request := json_of_codec (PlanRequestDigest ManagedConfigPlanRequest);
     ee_restore_request := json_of_codec (PlanRequestDigest ManagedConfigRestorePlanRequest);
     ee_plan_hash := json_of_codec PlanHashMaterial;
     ee_managed_plan_hash := json_of_codec ManagedPlanHashMaterial;
     ee_ufw_plan_hash := json_of_codec UfwPlanHashMaterial;
     ee_certificate_snapshot := json_of_codec CertificateInventorySnapshot;
     ee_inventory := json_of_codec InventoryDigest;
     ee_staging_evidence := json_of_codec CertbotStagingEvidenceMaterial;
     ee_issue_request := json_of_codec (PlanRequestDigest CertbotIssuePlanInput);
     ee_renew_request := json_of_codec (PlanRequestDigest CertbotRenewTestPlanRequest);
     ee_attach_request := json_of_codec (PlanRequestDigest CertbotAttachPlanRequest);
     ee_renew_plan_hash := json_of_codec CertbotRenewPlanHashMaterial;
     ee_issue_plan_hash := json_of_codec CertbotIssuePlanHashMaterial;
     ee_attach_plan_hash := json_of_codec CertbotAttachPlanHashMaterial;
     Machine := HostMachine;
     sys := fun c m => (negb (bool_decide (c ∈ hm_denied m)), m);
     free_bytes := fun _ => Some (2 ^ 40);
     runner_run := fun class _ m => host_run class m;
     runner_run_ufw := host_ufw;
     runner_edge_ready := fun m => (Ok true, m);
     ufw_installed := fun _ => true;
     certbot_installed := fun _ => true;
     certificate_tree := hm_certificates;
     openssl_x509 := fun _ m => (OpensslExit true (hm_x509 m), m);
     certd_exchange := host_certd;
     random16 := host_random;
     random_u64 := host_suffix;
     new_file_gid := 0;
     new_file_mode := 420;
     ip_addr := fun s => if bool_decide (s = "203.0.113.0"%string) then Some (s, true) else None;
     ip_rank := fun s => if bool_decide (s = "203.0.113.0"%string) then Some 0 else None |}.
