(* ===== verification/EngineWitness.v ===== *)
(** * jw-opsd: the engine on the reference machine

    A site switched on, a service stopped, a firewall rule added and deleted,
    each planned, approved and executed on [HostReference.host_reference]: the
    hypotheses of the engine properties hold there. *)

From Stdlib Require Import Ascii String.
From S2P Require Import Prelude Crypto Contracts Plans Adapters Reference Ledger LedgerLog LedgerInv.
From S2P Require Import LedgerStore LedgerApi LedgerProps Text Ufw Host Snapshot.
From S2P Require Import Nginx EngineCore EngineNginx EngineService EngineUfw EngineLogic HostProofs.
From S2P Require Import EngineNginxProofs EngineServiceProofs EngineUfwProofs EngineSteps.
From S2P Require Import HostReference EngineProps.

Module EngineDemo.
Existing Instance host_reference.

Definition cfg : Config := {| cf_paths := default_paths; cf_plan_ttl_ms := 60000; cf_snapshot_min_free_bytes := 1024 |}.
Definition actor : Subject := {| uid := 1000; username := "operator"; role := Operator |}.
Definition key : string := "key-0000-0000-0001".

Definition own_root : DirMeta :=
  {| dm_resolves := true; dm_is_dir := true; dm_is_symlink := false; dm_uid := 0 |}.

Definition site_file : AvailableFile :=
  {| af_openable := true; af_is_file := true; af_is_dir := false; af_link := None; af_nlink := 1; af_uid := 0;
     af_gid := 0; af_mode := 420;
     af_bytes := "server { listen 80; }"; af_canonical := Some "/etc/nginx/sites-available/example.conf"%string |}.

Definition tree : NginxTree :=
  {| nt_available_root := Some own_root; nt_enabled_root := Some own_root;
     nt_available := [("example.conf"%string, site_file)]; nt_enabled := ∅; nt_elsewhere := ∅;
     nt_dirs := ∅ |}.

Definition machine : HostMachine :=
  {| hm_stopped := []; hm_broken := []; hm_missing := []; hm_denied := [];
     hm_rules := ["22/tcp ALLOW IN Anywhere"%string; "443/tcp ALLOW IN Anywhere"%string]; 
     hm_certificates := {| ct_nodes := ∅; ct_listing := ∅; ct_canonical := ∅ |}; hm_x509 := EmptyString;
     hm_certd := true; hm_seed := 1 |}.

Definition world0 : World :=
  {| w_store := Demo.store0; w_snapshots := {| sd_root := None; sd_dirs := ∅; sd_files := ∅ |};
     w_nginx := tree; w_proposals := {| sd_root := None; sd_dirs := ∅; sd_files := ∅ |}; w_lockdown := false; w_host := {| h_machine := machine; h_calls := [] |} |}.

Definition value {A} (d : A) (r : oresult A) : A := match r with Ok a => a | Err _ => d end.

Lemma result_pair {A B} (d : A) (r : oresult A * B) : is_ok r.1 = true -> r = (Ok (value d r.1), r.2).
Proof. by destruct r as [[a|e] b]. Qed.

Lemma failure_pair {A B} (e : OpsError) (r : oresult A * B) :
  match r.1 with Ok _ => False | Err e' => e' = e end -> r = (Err e, r.2).
Proof. destruct r as [[a|e'] b]; simpl; [done|by intros ->]. Qed.

(** The approved operation of a world, found by its only plan. *)
Definition first_plan (w : World) : string :=
  match map_to_list (plans (st_db (w_store w))) with (id, _) :: _ => id | [] => "" end.
Definition first_operation (w : World) : string :=
  match map_to_list (operations (st_db (w_store w))) with (id, _) :: _ => id | [] => "" end.
Definition plan_of (w : World) : StoredPlan :=
  value Demo.plan (load_plan_from (st_db (w_store w)) (first_plan w)).
Definition operation_of (w : World) : StoredOperation :=
  value Demo.no_operation (load_operation_from (st_db (w_store w)) (first_operation w)).

Lemma world0_reachable : reachable (w_store world0).
Proof. exact Demo.reachable0. Defined.

Lemma steps_reachable w w' :
  reachable (w_store w) -> rtc (engine_step cfg) w w' -> reachable (w_store w').
Proof.
  intros Hr Hs. destruct (engine_steps_ledger cfg _ _ Hs) as [Hst _]. exact (reachable_step _ _ Hr Hst).
Defined.

Lemma times_ok_check db :
  forallb (fun e => is_some (rfc3339 (le_recorded_at_ms e))) (ledger_events db) = true -> times_ok db.
Proof.
  intros Hf e He. rewrite forallb_forall in Hf. apply Hf. by apply list_elem_of_In.
Qed.

Lemma live_check n now id op w :
  reachable (w_store w) -> load_operation_from (st_db (w_store w)) id = Ok op ->
  (Z.of_nat (length (ledger_events (st_db (w_store w)))) + n <=? i64_max) = true ->
  forallb (fun e => is_some (rfc3339 (le_recorded_at_ms e))) (ledger_events (st_db (w_store w))) = true ->
  is_some (rfc3339 now) = true -> live n now id op w.
Proof.
  intros Hr Hl Hn Ht Hnow. constructor; [by apply reachable_inv|done|by apply Z.leb_le|by apply times_ok_check|done].
Qed.

Lemma actor_is_ok : actor_ok actor.
Proof. unfold actor_ok, u32_max. simpl. lia. Defined.

(** ** A site *)

Definition site_request : NginxSiteStatePlanRequest :=
  {| nr_schema_version := 1; nr_operation_type := NGINX_SITE_STATE_OPERATION;
     nr_site_id := nginx_site_id NGINX_LAYOUT_ID "example.conf"; nr_target_state := Enabled;
     nr_expected_available_digest := sha256_digest (af_bytes site_file);
     nr_expected_enabled_state_digest := nginx_enabled_state_digest false;
     nr_idempotency_key := key |}.

Definition site_planned : World := (plan_nginx cfg actor site_request 1000 world0).2.
Definition site_approved : World :=
  (approve_nginx actor (first_plan site_planned) (p_plan_hash (plan_of site_planned)) key 1100 site_planned).2.

Lemma site_planned_steps : rtc (engine_step cfg) world0 site_planned.
Proof. apply rtc_once. apply (req_plan_nginx cfg actor site_request 1000 world0 actor_is_ok). Defined.

Lemma site_approved_steps : rtc (engine_step cfg) world0 site_approved.
Proof. eapply rtc_r; [exact site_planned_steps|]. apply req_approve_nginx. Defined.

Lemma site_approved_reachable : reachable (w_store site_approved).
Proof. exact (steps_reachable _ _ world0_reachable site_approved_steps). Defined.

Definition site_id : string := first_operation site_approved.
Definition site_op : StoredOperation := operation_of site_approved.

Lemma site_live : live 7 1200 site_id site_op site_approved.
Proof. apply live_check; [exact site_approved_reachable|vm_compute; reflexivity..]. Defined.

(** The same operation, stopped right after its link was created. *)
Definition site_before : NginxSite :=
  default {| ns_site_id := ""; ns_basename := ""; ns_available_digest := ""; ns_enabled_state_digest := "";
             ns_state := Disabled; ns_protected := false |} (site_in tree (nr_site_id site_request)).
Definition site_snapshot : NginxLinkSnapshot := link_snapshot site_before.
Definition site_record : SnapshotRecord :=
  {| sn_relative_path := site_id +:+ "/" +:+ "nginx-link.json";
     sn_digest := sha256_digest (to_json site_snapshot) |}.

Definition interrupt : EM unit :=
  let! record := write_nginx_snapshot cfg site_id site_snapshot in
  let! _ := ledger (attach_snapshot site_id record 1150) in
  let! _ := ledger (transition site_id (change [Snapshotted] Applying "apply_started" "" None None 1150)) in
  set_enabled site_before true.

Lemma interrupt_steps : esteps interrupt.
Proof.
  unfold interrupt. apply es_bind; [apply es_snapshot|]. intros record.
  apply es_bind; [apply es_attach|]. intros _. apply es_bind; [apply es_transition; expected_solver|].
  intros _. apply es_set_enabled.
Qed.

Definition site_interrupted : World := (interrupt site_approved).2.

Lemma site_interrupted_reachable : reachable (w_store site_interrupted).
Proof. exact (reachable_step _ _ site_approved_reachable (proj1 (interrupt_steps site_approved))). Defined.

(** ** A service *)

Definition service_request : ServiceControlPlanRequest :=
  {| sr_schema_version := 1; sr_operation_type := SERVICE_CONTROL_OPERATION;
     sr_service_id := service_id (unit_name SvcPhpFpm83); sr_action := Stop;
     sr_expected_state_digest := service_state_digest (unit_name SvcPhpFpm83) true;
     sr_idempotency_key := key |}.

Definition service_planned : World := (plan_service_control cfg actor service_request 1000 world0).2.
Definition service_approved : World :=
  (approve_service_control actor (first_plan service_planned) (p_plan_hash (plan_of service_planned)) key 1100
     service_planned).2.

Lemma service_planned_steps : rtc (engine_step cfg) world0 service_planned.
Proof. apply rtc_once. apply (req_plan_service cfg actor service_request 1000 world0 actor_is_ok). Qed.

Lemma service_approved_steps : rtc (engine_step cfg) world0 service_approved.
Proof. eapply rtc_r; [exact service_planned_steps|]. apply req_approve_service. Qed.

Lemma service_approved_reachable : reachable (w_store service_approved).
Proof. exact (steps_reachable _ _ world0_reachable service_approved_steps). Qed.

Definition svc_id : string := first_operation service_approved.
Definition svc_op : StoredOperation := operation_of service_approved.

(** The action has run, and now [systemctl is-active] cannot be started. *)
Definition to_verifying : EM StoredOperation :=
  let! _ := ledger (transition svc_id (change [Approved] Applying "service_action_started" "" None None 1150)) in
  ledger (transition svc_id (change [Applying] Verifying "service_action_completed" "" None None 1150)).

Lemma to_verifying_steps : esteps to_verifying.
Proof. apply es_bind; [apply es_transition; expected_solver|]. intros _. apply es_transition. expected_solver. Qed.

Definition without_active (m : HostMachine) : HostMachine :=
  {| hm_stopped := hm_stopped m; hm_broken := hm_broken m; hm_missing := [PhpFpm83Active];
     hm_denied := hm_denied m; hm_rules := hm_rules m; hm_certificates := hm_certificates m; hm_x509 := hm_x509 m; hm_certd := hm_certd m;
     hm_seed := hm_seed m |}.

Definition service_ran : World := (to_verifying service_approved).2.

Lemma service_ran_reachable : reachable (w_store service_ran).
Proof. exact (reachable_step _ _ service_approved_reachable (proj1 (to_verifying_steps service_approved))). Qed.

Definition service_verifying : World := with_machine (without_active (h_machine (w_host service_ran))) service_ran.

Lemma reachable_machine m w : reachable (w_store w) -> reachable (w_store (with_machine m w)).
Proof. done. Qed.

Lemma service_verifying_reachable : reachable (w_store service_verifying).
Proof. apply reachable_machine, service_ran_reachable. Qed.

(** ** A firewall rule *)

Definition status_digest (w : World) : string := sha256_digest (status_output (hm_rules (h_machine (w_host w)))).

Definition add_request : UfwRulePlanRequest :=
  {| ur_schema_version := 1; ur_operation_type := UFW_RULE_OPERATION; ur_mutation := UDeny;
     ur_protocol := Some Tcp; ur_port := Some 8080; ur_source := Some "203.0.113.0/24"%string;
     ur_rule_id := None; ur_expected_state_digest := status_digest world0; ur_idempotency_key := key |}.

Definition ufw_planned : World := (plan_ufw_rule cfg actor add_request 1000 world0).2.
Definition ufw_approved : World :=
  (approve_ufw_rule actor (first_plan ufw_planned) (p_plan_hash (plan_of ufw_planned)) key 1100 ufw_planned).2.

Lemma ufw_planned_steps : rtc (engine_step cfg) world0 ufw_planned.
Proof. apply rtc_once. apply (req_plan_ufw cfg actor add_request 1000 world0 actor_is_ok). Qed.

Lemma ufw_approved_steps : rtc (engine_step cfg) world0 ufw_approved.
Proof. eapply rtc_r; [exact ufw_planned_steps|]. apply req_approve_ufw. Qed.

Lemma ufw_approved_reachable : reachable (w_store ufw_approved).
Proof. exact (steps_reachable _ _ world0_reachable ufw_approved_steps). Qed.

Definition ufw_id : string := first_operation ufw_approved.
Definition ufw_op : StoredOperation := operation_of ufw_approved.
Definition no_payload : UfwPlanPayload :=
  {| up_requested_mutation := UDelete;
     up_rule := {| us_mutation := UDelete; us_protocol := Tcp; us_port := 0; us_source := ""; us_rule_id := "" |};
     up_delete_sequences := [] |}.
Definition ufw_payload : UfwPlanPayload := default no_payload (p_ufw_rule (o_plan ufw_op)).

(** The rule twice in the listing, between foreign ones. *)
Definition product_rule : string := rule_text (up_rule ufw_payload).
Definition ufw_listed : World :=
  with_machine (set_rules ["22/tcp ALLOW IN Anywhere"; product_rule; "80/tcp ALLOW IN Anywhere"; product_rule]%string
                  machine) world0.

Definition rule_id_of (r : string) : option string :=
  parse_numbered_rule (from_utf8_lossy ("[ 1] " +:+ r)) ≫= uv_rule_id.
Definition render (n : Z) (r : string) : UfwRuleView :=
  {| uv_sequence := n; uv_rule_id := rule_id_of r; uv_action := ""; uv_protocol := None; uv_port := None;
     uv_source := ""; uv_destination := ""; uv_ipv6 := false; uv_owned := true; uv_protected := false;
     uv_summary := "" |}.

Definition listing : @Machine host_reference -> list string := hm_rules.

Lemma host_deletes : deletes_by_number listing.
Proof.
  intros n m ev m' Hr Hok. change (host_ufw (UDeleteAt n) m = (Ok ev, m')) in Hr. unfold host_ufw in Hr.
  destruct (bool_decide _); [done|]. destruct (bool_decide _) eqn:E in Hr.
  - injection Hr as <- <-. discriminate Hok.
  - by injection Hr as _ <-.
Qed.

Definition listed_inventory : UfwView :=
  value (ufw_not_installed_view "") (ufw_inventory 1000 ufw_listed).1.
Definition delete_request : UfwRulePlanRequest :=
  {| ur_schema_version := 1; ur_operation_type := UFW_RULE_OPERATION; ur_mutation := UDelete;
     ur_protocol := None; ur_port := None; ur_source := None; ur_rule_id := Some (us_rule_id (up_rule ufw_payload));
     ur_expected_state_digest := status_digest ufw_listed; ur_idempotency_key := key |}.
End EngineDemo.

Module EngineWitnesses.
Import EngineDemo.
Existing Instance host_reference.

Definition stage_of {A} (f : A -> OperationStage) (r : oresult A) : option OperationStage :=
  match r with Ok a => Some (f a) | Err _ => None end.

Lemma execute_nginx_outcome_witness :
  stage_of rv_terminal_state (execute_nginx cfg site_op 1200 site_approved).1 = Some Succeeded /\
  match execute_nginx cfg site_op 1200 site_approved with
  | (Ok r, w') => exists op', finished site_id op' r w' /\ o_plan op' = o_plan site_op /\
                    nginx_outcome (o_plan site_op) (w_nginx site_approved) (o_stage op') w'
  | (Err _, w') => storage_fault w'
  end.
Proof.
  split; [vm_compute; reflexivity|].
  apply (execute_nginx_outcome cfg 1200 site_id site_op site_approved site_live). vm_compute. reflexivity.
Defined.

Lemma execute_nginx_touches_planned_link_witness :
  planned_link_only (o_plan site_op) (w_nginx site_approved)
    (w_nginx (execute_nginx cfg site_op 1200 site_approved).2).
Proof.
  apply (execute_nginx_touches_planned_link cfg 1200 site_id site_op site_approved site_live).
  vm_compute. reflexivity.
Defined.

Definition interrupted_op : StoredOperation := operation_of site_interrupted.

Lemma interrupted_live : live 2 1300 site_id interrupted_op site_interrupted.
Proof. apply live_check; [exact site_interrupted_reachable|vm_compute; reflexivity..]. Qed.

Lemma interrupted_stored : snapshot_stored site_record site_snapshot site_interrupted.
Proof. eexists. vm_compute. reflexivity. Qed.

Lemma nginx_rollback_restores_witness :
  stage_of rv_terminal_state (rollback site_id "restart_recovery" "" 1300 site_interrupted).1 = Some RolledBack /\
  match rollback site_id "restart_recovery" "" 1300 site_interrupted with
  | (Ok r, w') => exists op', finished site_id op' r w' /\ rolled site_snapshot (o_stage op') w' /\
      (w_nginx w' = w_nginx site_interrupted \/
       exists site, site_in (w_nginx site_interrupted) (nl_site_id site_snapshot) = Some site /\
                    tree_frame (ns_basename site) (w_nginx site_interrupted) (w_nginx w'))
  | (Err _, w') => storage_fault w'
  end.
Proof.
  split; [vm_compute; reflexivity|].
  apply (nginx_rollback_restores 1300 site_id interrupted_op site_record site_snapshot "restart_recovery" ""
    site_interrupted interrupted_live).
  - apply (bool_decide_unpack _). vm_compute. exact I.
  - vm_compute. reflexivity.
  - exact interrupted_stored.
Defined.

Lemma svc_live : live 5 1200 svc_id svc_op service_approved.
Proof. apply live_check; [exact service_approved_reachable|vm_compute; reflexivity..]. Qed.

Lemma execute_service_outcome_witness :
  stage_of rv_terminal_state (execute_service_control cfg svc_op 1200 service_approved).1 = Some Succeeded /\
  match execute_service_control cfg svc_op 1200 service_approved with
  | (Ok r, w') => service_done (w_nginx service_approved) svc_id (o_plan svc_op) SvcPhpFpm83 Stop r w'
  | (Err _, w') => storage_fault w' \/ service_fault w'
  end.
Proof.
  split; [vm_compute; reflexivity|].
  apply (execute_service_outcome cfg 1200 svc_id svc_op SvcPhpFpm83 Stop service_approved svc_live);
    vm_compute; reflexivity.
Defined.

Definition verifying_op : StoredOperation := operation_of service_verifying.

Lemma verifying_live : live 2 1200 svc_id verifying_op service_verifying.
Proof. apply live_check; [exact service_verifying_reachable|vm_compute; reflexivity..]. Qed.

Lemma service_verification_strands_witness :
  exists w', verify_service verifying_op SvcPhpFpm83 Stop 1200 service_verifying = (Err EFilesystem, w') /\
    load_operation_from (st_db (w_store w')) svc_id = Ok verifying_op /\ is_terminal (o_stage verifying_op) = false /\
    forall new_id plan_id plan later,
      load_plan_from (st_db (w_store w')) plan_id = Ok plan ->
      p_resource_key plan = p_resource_key (o_plan verifying_op) ->
      operation_of_plan (st_db (w_store w')) plan_id = None ->
      operations (st_db (w_store w')) !! new_id = None -> later < p_expires_at_ms plan ->
      begin_operation new_id plan_id (p_plan_hash plan) (p_idempotency_key plan) (p_actor plan) later (w_store w')
      = (Err (ERejected "resource_busy"), w_store w').
Proof.
  apply (service_verification_strands 2 1200 svc_id verifying_op SvcPhpFpm83 Stop EFilesystem
    (h_machine (w_host service_verifying)) service_verifying verifying_live); vm_compute; reflexivity.
Defined.

Lemma ufw_live : live 5 1200 ufw_id ufw_op ufw_approved.
Proof. apply live_check; [exact ufw_approved_reachable|vm_compute; reflexivity..]. Qed.

Lemma execute_ufw_outcome_witness :
  stage_of rv_terminal_state (execute_ufw_rule cfg ufw_op 1200 ufw_approved).1 = Some Succeeded /\
  match execute_ufw_rule cfg ufw_op 1200 ufw_approved with
  | (Ok r, w') => ufw_done ufw_approved 1200 ufw_id (o_plan ufw_op) ufw_payload r w'
  | (Err _, w') => storage_fault w' \/ ufw_fault ufw_payload w'
  end.
Proof.
  split; [vm_compute; reflexivity|].
  apply (execute_ufw_outcome cfg 1200 ufw_id ufw_op ufw_payload ufw_approved ufw_live); vm_compute; reflexivity.
Defined.

Definition deleted : oresult string * World :=
  delete_sequences (sort_descending (map uv_sequence
    (rules_with_id (us_rule_id (up_rule ufw_payload))
       (numbered render 1 (listing (h_machine (w_host ufw_listed))))))) ufw_listed.

Lemma ufw_delete_exact_witness :
  hm_rules (h_machine (w_host deleted.2)) = ["22/tcp ALLOW IN Anywhere"; "80/tcp ALLOW IN Anywhere"]%string /\
  listing (h_machine (w_host deleted.2)) =
  filter (fun r => rule_id_of r <> Some (us_rule_id (up_rule ufw_payload))) (listing (h_machine (w_host ufw_listed))).
Proof.
  split; [vm_compute; reflexivity|].
  apply (ufw_delete_exact listing render rule_id_of (us_rule_id (up_rule ufw_payload))
    ufw_listed (value ""%string deleted.1) deleted.2).
  - reflexivity.
  - reflexivity.
  - exact host_deletes.
  - unfold deleted. eapply (result_pair ""%string (delete_sequences _ _)). vm_compute. reflexivity.
Defined.

Definition resolved : UfwRuleSpec * list Z :=
  value (up_rule no_payload, []) (resolve_rule delete_request listed_inventory).

Lemma ufw_resolution_safe_witness :
  Forall (fun r => uv_owned r = true /\ uv_protected r = false)
    (rules_with_id (us_rule_id resolved.1) (uw_rules listed_inventory)) /\
  resolved.2 ≡ₚ map uv_sequence (rules_with_id (us_rule_id resolved.1) (uw_rules listed_inventory)) /\
  ur_rule_id delete_request = Some (us_rule_id resolved.1).
Proof.
  apply (ufw_resolution_safe delete_request listed_inventory resolved.1 resolved.2); vm_compute; reflexivity.
Defined.

Lemma ufw_resolved_validates_witness :
  validate_resolved_rule {| up_requested_mutation := UDelete; up_rule := resolved.1;
                            up_delete_sequences := resolved.2 |} listed_inventory = Ok tt.
Proof.
  apply (ufw_resolved_validates delete_request listed_inventory resolved.1 resolved.2).
  - vm_compute. reflexivity.
  - vm_compute. repeat constructor.
Defined.

Lemma engine_preserves_ledger_witness :
  reachable (w_store site_approved) /\ db_le (st_db (w_store world0)) (st_db (w_store site_approved)) /\
  (w_lockdown world0 = true -> w_lockdown site_approved = true).
Proof. apply (engine_preserves_ledger cfg world0 site_approved world0_reachable site_approved_steps). Defined.

(** A finished operation, and two requests that try to go on with it. *)
Definition site_done : World := (execute_nginx cfg site_op 1200 site_approved).2.
Definition site_retried : World := (execute_nginx cfg site_op 1400 (rollback site_id "manual" "" 1300 site_done).2).2.

Lemma terminal_is_final_witness :
  o_stage (operation_of site_done) = Succeeded /\
  load_operation_from (st_db (w_store site_retried)) site_id = Ok (operation_of site_done) /\
  (forall k l, resource_locks (st_db (w_store site_retried)) !! k = Some l -> lr_operation_id l <> site_id) /\
  events_of (st_db (w_store site_retried)) site_id = events_of (st_db (w_store site_done)) site_id.
Proof.
  split; [vm_compute; reflexivity|]. apply (terminal_is_final cfg site_done site_retried site_id (operation_of site_done)).
  - apply (steps_reachable site_approved site_done site_approved_reachable). apply rtc_once, req_execute_nginx.
  - vm_compute. reflexivity.
  - vm_compute. reflexivity.
  - eapply rtc_l; [apply req_rollback_nginx|]. apply rtc_once, req_execute_nginx.
Defined.

(** A database that fails its integrity check. *)
Definition damaged : World :=
  with_store {| st_db := empty_db; st_user_version := 0; st_migrations := []; st_integrity := false;
                st_io_ok := true; st_euid := 0; st_enforce_root_ownership := true; st_parent := None;
                st_database_file := None; st_sidecar_files := [None; None]; st_checkpoint := None |} world0.

Lemma lockdown_is_final_witness :
  require_write_available (open_ledger damaged).2 = (Err EForensicLockdown, (open_ledger damaged).2) /\
  capabilities (open_ledger damaged).2 = (Ok no_capability, (open_ledger damaged).2).
Proof.
  apply (lockdown_is_final cfg damaged (open_ledger damaged).2).
  - apply (failure_pair EForensicLockdown (open_ledger damaged)). vm_compute. reflexivity.
  - apply rtc_refl.
Defined.

Definition saved : oresult SnapshotRecord * World :=
  write_snapshot_bytes cfg "op_1" "nginx-link.json" "content" world0.

(** The same file with other bytes. *)
Definition tampered : World :=
  with_private SnapshotRoot
    {| sd_root := sd_root (w_snapshots saved.2); sd_dirs := sd_dirs (w_snapshots saved.2);
       sd_files := (fun f => (f.1, "other"%string)) <$> sd_files (w_snapshots saved.2) |} saved.2.

Lemma snapshot_roundtrip_witness :
  read_snapshot_bytes (value site_record saved.1) 64 saved.2 =
    (let (ok, m) := ask_sys (SysPrivate SnapshotRoot PRead) (w_host saved.2) in
     ((if ok then Ok "content"%string else Err EFilesystem), with_host m saved.2)) /\
  (read_snapshot_bytes (value site_record saved.1) 64 tampered).1 <> Ok "other"%string.
Proof.
  destruct (snapshot_roundtrip cfg "op_1" "nginx-link.json" "content" (value site_record saved.1) 64 world0 saved.2) as [Hback Hread].
  - unfold saved. eapply (result_pair site_record (write_snapshot_bytes _ _ _ _ _)). vm_compute. reflexivity.
  - split; vm_compute; reflexivity.
  - split; vm_compute; reflexivity.
  - vm_compute. discriminate.
  - intros _. vm_compute. reflexivity.
  - split; [by apply Hback|]. specialize (Hread tampered 64 "other"%string).
    destruct (read_snapshot_bytes _ _ tampered) as [r w2]. destruct Hread as [Hr _]. cbn [fst]. rewrite Hr.
    intros (_ & _ & _ & _ & _ & Hd). vm_compute in Hd. discriminate Hd.
Defined.

Definition switched : oresult unit * World := set_enabled site_before true world0.

Lemma set_enabled_exact_witness :
  switched.1 = Ok tt /\
  (switched.1 = Ok tt -> read_enabled (w_nginx switched.2) (ns_basename site_before) = Ok true) /\
  tree_frame (ns_basename site_before) (w_nginx world0) (w_nginx switched.2) /\
  w_store switched.2 = w_store world0 /\ w_snapshots switched.2 = w_snapshots world0.
Proof.
  split; [vm_compute; reflexivity|].
  apply (set_enabled_exact site_before true world0 switched.1 switched.2). apply surjective_pairing.
Defined.

Definition no_view : NginxSiteStatePlanView :=
  {| nv_schema_version := 0; nv_operation_type := ""; nv_plan_id := ""; nv_plan_hash := ""; nv_created_at := "";
     nv_expires_at := ""; nv_actor := actor; nv_site_id := ""; nv_display_name := ""; nv_current_state := Enabled;
     nv_target_state := Enabled; nv_available_digest := ""; nv_enabled_state_digest := ""; nv_impact := [];
     nv_recovery_path := []; nv_assurance := nginx_assurance |}.

Lemma plan_nginx_checked_witness :
  nginx_request_validate site_request = Ok tt /\
  (exists site, site_in (w_nginx world0) (nr_site_id site_request) = Some site /\ ns_protected site = false /\
     ns_available_digest site = nr_expected_available_digest site_request /\
     ns_enabled_state_digest site = nr_expected_enabled_state_digest site_request) /\
  w_nginx site_planned = w_nginx world0 /\ w_snapshots site_planned = w_snapshots world0.
Proof.
  apply (plan_nginx_checked cfg actor site_request 1000
    (value no_view (plan_nginx cfg actor site_request 1000 world0).1) world0 site_planned).
  unfold site_planned. eapply (result_pair no_view (plan_nginx _ _ _ _ _)). vm_compute. reflexivity.
Defined.
End EngineWitnesses.
