(* ===== verification/TextProofs.v ===== *)
(** * jw-opsd: the difference and the diagnostics of a configuration, proved

    The changed region a plan shows is exact and maximal; what the validators'
    output is turned into reveals only fixed texts and locations inside the
    service's configuration tree. *)

From Stdlib Require Import Ascii String.
From S2P Require Import Prelude Crypto Contracts Plans Adapters Ledger Text Ufw Host Snapshot ConfigText.
From S2P Require Import Diagnostics.

(** ** The changed region *)

Section Diff.
Context {A : Type} `{EqDecision A}.

Lemma common_prefix_take (l k : list A) :
  take (common_prefix l k) l = take (common_prefix l k) k /\
  (common_prefix l k <= length l)%nat /\ (common_prefix l k <= length k)%nat.
Proof.
  revert k. induction l as [|x l IH]; intros [|y k]; simpl; try (split_and!; done || lia).
  case_bool_decide; [|split_and!; done || lia]. subst. destruct (IH k) as (E & L & K). simpl.
  split_and!; [by rewrite E|lia..].
Qed.

Lemma common_prefix_max (l k : list A) x y :
  l !! common_prefix l k = Some x -> k !! common_prefix l k = Some y -> x <> y.
Proof.
  revert k. induction l as [|a l IH]; intros [|b k]; simpl; try done.
  case_bool_decide; simpl; [apply IH|]. congruence.
Qed.

(** A list around a region of it. *)
Lemma region_split (l : list A) p k :
  (p + k <= length l)%nat -> l = (take p l ++ changed_region (p, k) l ++ drop (length l - k) l)%list.
Proof.
  intros Hk. unfold changed_region. simpl. rewrite <- (take_drop p l) at 1. f_equal.
  rewrite <- (take_drop (length l - k - p) (drop p l)) at 1. f_equal. rewrite drop_drop. f_equal. lia.
Qed.

Lemma region_length (l : list A) p k :
  (p + k <= length l)%nat -> length (changed_region (p, k) l) = (length l - k - p)%nat.
Proof. intros Hk. unfold changed_region. rewrite length_take, length_drop. simpl. lia. Qed.

Lemma rev_lookup (l : list A) i : (i < length l)%nat -> rev l !! i = l !! (length l - S i)%nat.
Proof. intros Hi. rewrite rev_alt. by apply reverse_lookup. Qed.

(** The bounds: a common prefix, a common suffix that does not overlap it, and
    a difference at both ends of the region. *)
Lemma diff_bounds_spec (before after : list A) p k :
  diff_bounds before after = (p, k) ->
  (p + k <= length before)%nat /\ (p + k <= length after)%nat /\
  take p before = take p after /\
  drop (length before - k) before = drop (length after - k) after /\
  (forall x y, (p + k < length before)%nat -> (p + k < length after)%nat ->
     (before !! p = Some x -> after !! p = Some y -> x <> y) /\
     (before !! (length before - S k)%nat = Some x -> after !! (length after - S k)%nat = Some y -> x <> y)).
Proof.
  unfold diff_bounds. cbv zeta. intros [= <- <-]. set (p := common_prefix before after).
  set (m := Nat.min (length before - p) (length after - p)). unfold common_suffix.
  set (k := common_prefix _ _). destruct (common_prefix_take before after) as (Ep & Lb & La). fold p in Ep, Lb, La.
  destruct (common_prefix_take (take m (rev before)) (take m (rev after))) as (Ek & Kb & Ka). fold k in Ek, Kb, Ka.
  rewrite !length_take, !length_rev in Kb, Ka. assert (k <= m)%nat as Hkm by lia.
  rewrite !take_take, Nat.min_l in Ek by lia. rewrite !firstn_rev in Ek.
  apply (f_equal (@rev A)) in Ek. rewrite !rev_involutive in Ek.
  split_and!; [lia|lia|done|done|]. intros x y Hb Ha. split; [apply common_prefix_max|]. intros Hx Hy.
  assert (k < m)%nat by lia. eapply (common_prefix_max (take m (rev before)) (take m (rev after))); fold k.
  - rewrite lookup_take_lt, rev_lookup by lia. exact Hx.
  - rewrite lookup_take_lt, rev_lookup by lia. exact Hy.
Qed.
End Diff.

(** The difference shown with a plan is exact: the current lines are the
    proposed ones with the added region replaced by the removed one, the
    region could not be smaller, the counts are its sizes up to [u32] and the
    preview shows the first twenty lines of each side. *)
Theorem diff_stats_exact current proposed :
  exists common_before removed added common_after : list (list char),
    lines_of current = (common_before ++ removed ++ common_after)%list /\
    lines_of proposed = (common_before ++ added ++ common_after)%list /\
    (removed <> [] -> added <> [] -> head removed <> head added /\ last removed <> last added) /\
    df_removed_lines (diff_stats current proposed) = Z.min (Z.of_nat (length removed)) u32_max /\
    df_added_lines (diff_stats current proposed) = Z.min (Z.of_nat (length added)) u32_max /\
    df_summary (diff_stats current proposed) =
      (map (fun line => "-" +:+ bounded_line line) (take 20 removed)
       ++ map (fun line => "+" +:+ bounded_line line) (take 20 added)
       ++ (if (20 <? length removed)%nat || (20 <? length added)%nat then ["… diff preview truncated"%string] else []))%list.
Proof.
  unfold diff_stats. set (before := lines_of current). set (after := lines_of proposed).
  destruct (diff_bounds before after) as [p k] eqn:Eb. destruct (diff_bounds_spec _ _ _ _ Eb) as (Hb & Ha & Ep & Es & Hmax).
  pose proof (region_length before p k Hb) as Lb. pose proof (region_length after p k Ha) as La.
  exists (take p before), (changed_region (p, k) before), (changed_region (p, k) after), (drop (length before - k) before).
  split_and!; [by apply region_split|rewrite Ep, Es; by apply region_split| |done|done|].
  - intros Hr Hd.
    assert (p + k < length before)%nat by (destruct (changed_region _ before); [done|simpl in Lb; lia]).
    assert (p + k < length after)%nat by (destruct (changed_region _ after); [done|simpl in La; lia]).
    destruct (lookup_lt_is_Some_2 before p ltac:(lia)) as [x Hx].
    destruct (lookup_lt_is_Some_2 after p ltac:(lia)) as [y Hy].
    destruct (lookup_lt_is_Some_2 before (length before - S k)%nat ltac:(lia)) as [x' Hx'].
    destruct (lookup_lt_is_Some_2 after (length after - S k)%nat ltac:(lia)) as [y' Hy'].
    split.
    + rewrite !head_lookup. unfold changed_region. simpl. rewrite !lookup_take_lt, !lookup_drop, !Nat.add_0_r, Hx, Hy by lia.
      intros [= Heq]. by eapply (proj1 (Hmax x y ltac:(lia) ltac:(lia))).
    + rewrite !last_lookup, Lb, La. unfold changed_region. simpl. rewrite !lookup_take_lt, !lookup_drop by lia.
      replace (p + pred (length before - k - p))%nat with (length before - S k)%nat by lia.
      replace (p + pred (length after - k - p))%nat with (length after - S k)%nat by lia.
      rewrite Hx', Hy'. intros [= Heq]. by eapply (proj2 (Hmax x' y' ltac:(lia) ltac:(lia))).
  - cbn [df_summary]. rewrite <- app_assoc. do 2 f_equal. rewrite length_app, !length_map, !length_take.
    set (r := length _). set (d := length (changed_region _ after)).
    destruct (_ <? _)%nat eqn:E; [apply Nat.ltb_lt in E|apply Nat.ltb_ge in E].
    + replace ((20 <? r)%nat || (20 <? d)%nat) with true; [done|]. symmetry. apply orb_true_iff. rewrite !Nat.ltb_lt. lia.
    + replace ((20 <? r)%nat || (20 <? d)%nat) with false; [done|]. symmetry. apply orb_false_iff. rewrite !Nat.ltb_ge. lia.
Qed.

(** ** Diagnostics *)

(** Every code and every text a diagnostic can carry. *)
Definition diagnostic_codes : list string :=
  ["unknown_directive"; "duplicate_directive"; "unexpected_token"; "listener_conflict"; "invalid_value";
   "unmatched_block"; "syntax_error"; "include_error"; "validator_rejected"; "validator_timeout"]%string.

Definition diagnostic_messages : list string :=
  ["알 수 없는 지시어입니다. 보고된 줄뿐 아니라 앞 변경 줄의 세미콜론(;)·중괄호 누락도 확인하세요.";
   "Nginx 설정에 중복된 지시어가 있습니다.";
   "Nginx가 해석을 중단한 위치입니다. 실제 원인은 앞 변경 줄의 세미콜론(;)·중괄호 누락일 수 있습니다.";
   "Nginx listen 주소 또는 포트가 충돌합니다."; "Nginx 지시어 값이 올바르지 않습니다.";
   "Nginx가 현재 설정을 거부했습니다."; "Nginx 문법 검사가 제한 시간을 초과했습니다.";
   "Apache가 알 수 없는 지시어를 발견했습니다."; "Apache listen 주소 또는 포트가 충돌합니다.";
   "Apache 설정 블록의 시작과 끝이 맞지 않습니다."; "Apache가 현재 설정을 거부했습니다.";
   "Apache 문법 검사가 제한 시간을 초과했습니다."; "PHP-FPM 설정에 문법 오류가 있습니다.";
   "PHP-FPM이 알 수 없는 설정 항목을 발견했습니다."; "PHP-FPM이 포함된 설정 파일을 읽지 못했습니다.";
   "PHP-FPM 설정 값이 올바르지 않습니다."; "PHP-FPM이 현재 설정을 거부했습니다.";
   "PHP-FPM 문법 검사가 제한 시간을 초과했습니다."]%string.

(** A parsed diagnostic carries fixed texts, and a line only with a path. *)
Definition parsed_ok (d : ParsedConfigDiagnostic) : Prop :=
  pd_code d ∈ diagnostic_codes /\ pd_message d ∈ diagnostic_messages /\ pd_column d = None /\
  (pd_path d = None -> pd_line d = None).

Ltac listed := apply (bool_decide_unpack _); vm_compute; exact I.
Ltac by_code f := unfold f; cbv zeta; repeat case_bool_decide; repeat match goal with |- context [if ?b then _ else _] => destruct b end; listed.

Lemma codes_listed line :
  nginx_code line ∈ diagnostic_codes /\ apache_code line ∈ diagnostic_codes /\ php_code line ∈ diagnostic_codes.
Proof. split_and!; [by_code nginx_code|by_code apache_code|by_code php_code]. Qed.

Lemma messages_listed line :
  nginx_message line ∈ diagnostic_messages /\ apache_message line ∈ diagnostic_messages /\
  php_message line ∈ diagnostic_messages.
Proof. split_and!; [by_code nginx_message|by_code apache_message|by_code php_message]. Qed.

Lemma located_ok path line severity code message :
  code ∈ diagnostic_codes -> message ∈ diagnostic_messages -> parsed_ok (located path line severity code message).
Proof. intros Hc Hm. by split_and!. Qed.

Lemma or_generic_ok {A} (f : A -> option ParsedConfigDiagnostic) l failed timed_out code m1 m2 :
  (forall x d, f x = Some d -> parsed_ok d) ->
  code ∈ diagnostic_codes -> m1 ∈ diagnostic_messages -> m2 ∈ diagnostic_messages ->
  Forall parsed_ok (or_generic (omap f l) failed timed_out code m1 m2).
Proof.
  intros Hf Hc H1 H2. unfold or_generic. destruct (_ && _).
  - constructor; [|done]. destruct timed_out; split_and!; try done. listed.
  - apply Forall_forall. intros d (x & _ & Hx)%list_elem_of_omap. by eapply Hf.
Qed.

Lemma parsed_diagnostics_ok a e : Forall parsed_ok (parsed_diagnostics a e).
Proof.
  unfold parsed_diagnostics, parse_nginx_config_diagnostics, parse_apache_config_diagnostics,
    parse_php_fpm_config_diagnostics.
  destruct (adapter_service a); apply or_generic_ok.
  all: try match goal with
           | |- (if ?b then _ else _) ∈ _ => destruct b; listed
           | |- _ ∈ _ => listed
           end.
  - intros x d. unfold nginx_line_diagnostic. destruct (nginx_location _) as [[p n]|]; [|done]. intros [= <-].
    apply located_ok; [apply codes_listed|apply messages_listed].
  - intros x d. unfold apache_line_diagnostic. destruct (apache_location _) as [[p n]|]; [|done]. intros [= <-].
    apply located_ok; [apply codes_listed|apply messages_listed].
  - intros x d. unfold php_line_diagnostic. destruct (php_location _) as [[p n]|]; [|done]. intros [= <-].
    apply located_ok; [apply codes_listed|apply messages_listed].
Qed.

Section Mapping.
Context `{Externals}.
Context (paths : OpsPaths).

Definition masked_roots : list string := ["/etc/nginx/"; "/etc/apache2/"; "/etc/php/8.3/fpm/"]%string.

(** A path shown to the operator: below a service root, of the accepted
    shape, and not one that looks like a secret. *)
Definition shown_path (path : string) : Prop :=
  exists root relative, root ∈ masked_roots /\ path = root +:+ relative /\
    safe_tree_relative_path relative = Ok relative /\ secret_tree_resource relative = false.

Lemma map_reported_shown a reported m :
  map_reported_path paths a reported = Some m -> shown_path (mr_masked_path m).
Proof.
  unfold map_reported_path. destruct (service_root paths a ≫= _) as [pieces|]; [|done].
  destruct (safe_tree_relative_path _) as [relative|] eqn:Es; [|done].
  assert (safe_tree_relative_path relative = Ok relative) as Hs.
  { assert (relative = String.concat "/" pieces) as -> by (unfold safe_tree_relative_path in Es; break_in Es). done. }
  destruct (secret_tree_resource relative) eqn:Ex; [done|].
  assert (forall root, root ∈ masked_roots -> shown_path (root +:+ relative)) as Hshow
    by (intros root Hr; by exists root, relative).
  destruct a; try (intros [= <-]; apply Hshow; listed).
  - case_bool_decide; [|done]. subst. intros [= <-]. apply (Hshow "/etc/php/8.3/fpm/"%string). listed.
  - case_bool_decide; [|done]. subst. intros [= <-]. apply (Hshow "/etc/php/8.3/fpm/"%string). listed.
  - destruct (strip_prefix "pool.d/" relative) as [b|] eqn:Ep; [|done]. destruct (sany _ b); [done|].
    apply strip_prefix_Some in Ep as ->. intros [= <-]. apply (Hshow "/etc/php/8.3/fpm/"%string). listed.
  - destruct (strip_prefix "pool.d/" relative) as [b|] eqn:Ep; [|done]. destruct (sany _ b); [done|].
    apply strip_prefix_Some in Ep as ->. intros [= <-]. apply (Hshow "/etc/php/8.3/fpm/"%string). listed.
Qed.

Lemma map_diagnostic_shown r reported m :
  map_diagnostic_path paths r reported = Some m -> shown_path (mr_masked_path m).
Proof.
  unfold map_diagnostic_path. destruct (selected_resource_path paths r) as [selected|]; [|done]. cbv zeta.
  destruct (map_reported_path _ _ _) as [m0|] eqn:Em; [|done]. apply map_reported_shown in Em.
  intros [= <-]. by destruct (_ || _).
Qed.

Lemma max_of_elem l x : max_of l = Some x -> x ∈ l.
Proof.
  destruct l as [|y l]; [done|]. simpl. intros [= <-]. revert y. induction l as [|z l IH]; intros y; simpl; [left|].
  pose proof (IH (Z.max y z)) as Hin. apply elem_of_cons in Hin as [Heq|Hin]; [|by do 2 right].
  rewrite Heq. destruct (Z.max_spec y z) as [[_ ->]|[_ ->]]; [right; left|left].
Qed.

(** What a diagnostic of a rejected configuration may say. *)
Record confined (r : ManagedConfigResource) (changed : list Z) (v : ManagedConfigDiagnosticView) : Prop := {
  cd_code : dg_code v ∈ diagnostic_codes;
  cd_message : dg_message v ∈ diagnostic_messages;
  cd_path : forall path, dg_masked_path v = Some path -> shown_path path /\ is_some (dg_resource_id v) = true;
  cd_line : is_some (dg_line v) = true -> is_some (dg_masked_path v) = true;
  cd_column : dg_column v = None;
  cd_related : forall line, line ∈ dg_related_changed_lines v \/ line ∈ dg_cause_candidate_lines v ->
                 line ∈ changed /\ dg_resource_id v = Some (cr_resource_id r);
}.

Lemma cause_lines_changed r mapped code reported changed proposed line :
  line ∈ nginx_cause_candidate_lines r mapped code reported changed proposed ->
  line ∈ changed /\ mr_mapped_id <$> mapped = Some (cr_resource_id r).
Proof.
  unfold nginx_cause_candidate_lines. destruct (_ || _ || _) eqn:Hg; [by intros ?%elem_of_nil|].
  apply orb_false_iff in Hg as [_ Hm]. intros Hin. split.
  - destruct (max_of _) as [x|] eqn:Ex; [|by apply elem_of_nil in Hin].
    apply list_elem_of_singleton in Hin as ->. apply max_of_elem in Ex.
    by apply list_elem_of_In, filter_In, proj1, list_elem_of_In in Ex.
  - destruct mapped as [m|]; [|done]. simpl in *. apply negb_false_iff, bool_decide_eq_true in Hm. by rewrite Hm.
Qed.

Lemma diagnostic_view_confined r changed proposed d :
  parsed_ok d -> confined r changed (diagnostic_view paths r changed proposed d).
Proof.
  intros (Hc & Hm & Hcol & Hpl). unfold diagnostic_view.
  set (mapped := pd_path d ≫= map_diagnostic_path paths r). constructor; cbn; try done.
  - intros path Hp. destruct mapped as [m|] eqn:Em; [|done]. injection Hp as <-. split; [|done].
    unfold mapped in Em. destruct (pd_path d); [|done]. by eapply map_diagnostic_shown.
  - destruct mapped as [m|] eqn:Em; [done|]. destruct (pd_path d) as [p|]; [done|]. simpl. by rewrite Hpl.
  - rewrite Hcol. by destruct (_ || _).
  - intros line. destruct (pd_line d) as [n|]; [|by intros [Hx|Hx]; apply elem_of_nil in Hx].
    intros [Hx|Hx]; [|by apply cause_lines_changed in Hx].
    destruct mapped as [m|]; [|by apply elem_of_nil in Hx]. simpl in *.
    destruct (bool_decide (mr_mapped_id m = _)) eqn:E1, (bool_decide (n ∈ changed)) eqn:E2; try by apply elem_of_nil in Hx.
    bool_prop. apply list_elem_of_singleton in Hx as ->. split; [done|congruence].
Qed.
End Mapping.
