(* ===== verification/CertWitness.v ===== *)
(** * jw-opsd: certificates on the reference machine

    A certificate attached to the management site, one issued against the
    staging authority, and a start after a crash, all through the request
    dispatcher on [HostReference.host_reference]. *)

From Stdlib Require Import Ascii String.
From S2P Require Import Prelude Crypto Contracts Plans CertContracts Adapters Reference Ledger LedgerLog LedgerInv.
From S2P Require Import LedgerStore LedgerApi LedgerProps Text Ufw Host Snapshot Nginx.
From S2P Require Import ConfigText Diagnostics ManagedConfig Certificate EngineCore EngineNginx EngineConfig EngineCert.
From S2P Require Import EngineService EngineUfw EngineMain EngineLogic HostProofs ManagedProofs.
From S2P Require Import EngineNginxProofs EngineConfigProofs CertProofs EngineCertProofs EngineServiceProofs.
From S2P Require Import EngineUfwProofs StartProofs EngineSteps HostReference EngineProps CertProps.
From S2P Require Import EngineWitness.

Module CertDemo.
Import EngineDemo.
Existing Instance host_reference.

Definition nl : string := s1 (chr 10).
Definition domain : string := "example.com".

(** ** The machine *)

Definition site_for (names certificate key : string) : string :=
  "server {" +:+ nl +:+ "  server_name " +:+ names +:+ ";" +:+ nl
  +:+ "  " +:+ ACME_CHALLENGE_INCLUDE +:+ nl
  +:+ "  " +:+ NGINX_MANAGEMENT_PROXY_INCLUDE +:+ nl
  +:+ "  ssl_certificate " +:+ certificate +:+ ";" +:+ nl
  +:+ "  ssl_certificate_key " +:+ key +:+ ";" +:+ nl +:+ "}" +:+ nl.

Definition site_text : string -> string -> string := site_for "example.com".
Definition old_text : string := site_text "/etc/ssl/certs/old.pem" "/etc/ssl/private/old.key".
Definition new_text : string :=
  site_text "/etc/letsencrypt/live/example.com/fullchain.pem" "/etc/letsencrypt/live/example.com/privkey.pem".

Definition management_file : AvailableFile :=
  {| af_openable := true; af_is_file := true; af_is_dir := false; af_link := None; af_nlink := 1; af_uid := 0;
     af_gid := 0; af_mode := 420; af_bytes := old_text;
     af_canonical := Some "/etc/nginx/sites-available/jw-agent.conf"%string |}.

Definition management_tree : NginxTree :=
  {| nt_available_root := Some own_root; nt_enabled_root := Some own_root;
     nt_available := [("jw-agent.conf"%string, management_file)];
     nt_enabled := {["jw-agent.conf"%string := EnabledLink "../sites-available/jw-agent.conf"]};
     nt_elsewhere := ∅; nt_dirs := ∅ |}.

Definition dir : CertNode :=
  {| cn_is_dir := true; cn_is_file := false; cn_is_symlink := false; cn_uid := 0; cn_mode := 448; cn_bytes := "" |}.
Definition link : CertNode :=
  {| cn_is_dir := false; cn_is_file := false; cn_is_symlink := true; cn_uid := 0; cn_mode := 511; cn_bytes := "" |}.
Definition node (mode : Z) (bytes : string) : CertNode :=
  {| cn_is_dir := false; cn_is_file := true; cn_is_symlink := false; cn_uid := 0; cn_mode := mode; cn_bytes := bytes |}.

Definition renewal_text : string :=
  "authenticator = webroot" +:+ nl +:+ "webroot_path = /var/lib/jw-agent/acme-webroot" +:+ nl.

Definition certificate_nodes : list (string * CertNode) :=
  [("/etc/letsencrypt/renewal", dir); ("/etc/letsencrypt/renewal/example.com.conf", node 420 renewal_text);
   ("/etc/letsencrypt/live", dir); ("/etc/letsencrypt/archive", dir); ("/etc/letsencrypt/live/example.com", dir);
   ("/etc/letsencrypt/archive/example.com", dir);
   ("/etc/letsencrypt/live/example.com/fullchain.pem", link); ("/etc/letsencrypt/live/example.com/privkey.pem", link);
   ("/etc/letsencrypt/archive/example.com/fullchain1.pem", node 420 "certificate");
   ("/etc/letsencrypt/archive/example.com/privkey1.pem", node 384 "key");
   ("/var/lib/jw-agent/acme-webroot", dir)]%string.

Definition certificates : CertTree :=
  {| ct_nodes := list_to_map certificate_nodes;
     ct_listing := {["/etc/letsencrypt/renewal"%string := ["example.com.conf"%string]]};
     ct_canonical := list_to_map
       [("/etc/letsencrypt/renewal", "/etc/letsencrypt/renewal");
        ("/etc/letsencrypt/archive", "/etc/letsencrypt/archive");
        ("/etc/letsencrypt/archive/example.com", "/etc/letsencrypt/archive/example.com");
        ("/etc/letsencrypt/live/example.com/fullchain.pem", "/etc/letsencrypt/archive/example.com/fullchain1.pem");
        ("/etc/letsencrypt/live/example.com/privkey.pem", "/etc/letsencrypt/archive/example.com/privkey1.pem")]%string |}.

Definition hex32 : string := "abababababababababababababababab".
Definition x509_text : string :=
  "sha256 Fingerprint=" +:+ hex32 +:+ hex32 +:+ nl +:+ "notAfter=Jan  1 00:00:00 2030 GMT" +:+ nl
  +:+ "    DNS:example.com" +:+ nl.

Definition certificate_machine (certd : bool) : HostMachine :=
  {| hm_stopped := []; hm_broken := []; hm_missing := []; hm_denied := []; hm_rules := [];
     hm_certificates := certificates; hm_x509 := x509_text; hm_certd := certd; hm_seed := 1 |}.

Definition certificate_world (certd : bool) : World :=
  with_machine (certificate_machine certd) (with_nginx management_tree world0).

Definition inventory_digest : string :=
  match (engine_certificate_inventory cfg 1000 (certificate_world true)).1 with
  | Ok inventory => iv_inventory_digest inventory
  | Err _ => EmptyString
  end.

Example inventory_lists_the_certificate :
  match (engine_certificate_inventory cfg 1000 (certificate_world true)).1 with
  | Ok inventory => map cy_primary_domain (iv_certificates inventory) = [domain] /\ iv_problems inventory = [] /\
                    map cy_webroot_managed (iv_certificates inventory) = [true]
  | Err _ => False
  end.
Proof. vm_compute. split_and!; reflexivity. Qed.

(** ** Requests *)

Definition request (body : OpsRequestBody) : OpsRequest :=
  {| oq_protocol_version := IPC_PROTOCOL_VERSION; oq_request_id := "request-1"; oq_deadline_unix_ms := 100000;
     oq_body := body |}.
Definition asked (body : OpsRequestBody) (now : Z) (w : World) : World := (response_for cfg false (request body) now w).2.

Lemma asked_reachable body now w : body_ok body -> reachable (w_store w) -> reachable (w_store (asked body now w)).
Proof.
  intros Hb Hr. eapply steps_reachable; [exact Hr|]. by apply rtc_once, (req_response cfg false (request body)).
Defined.

Lemma certificate_reachable certd : reachable (w_store (certificate_world certd)).
Proof. exact world0_reachable. Defined.

Definition management_id : string := nginx_site_id NGINX_LAYOUT_ID "jw-agent.conf".
Definition fingerprint : string := "sha256:" +:+ hex32 +:+ hex32.

(** ** An attachment *)

Definition attach_request : CertbotAttachPlanRequest :=
  {| at_schema_version := 1; at_operation_type := CERTBOT_ATTACH_OPERATION; at_primary_domain := domain;
     at_site_id := management_id; at_expected_site_digest := sha256_digest old_text;
     at_expected_inventory_digest := inventory_digest; at_expected_certificate_fingerprint := fingerprint;
     at_idempotency_key := key |}.

Definition attach_planned (certd : bool) : World := asked (PlanCertbotAttach actor attach_request) 1000 (certificate_world certd).
Definition attach_approved (certd : bool) : World :=
  asked (ApproveCertbotAttach actor (first_plan (attach_planned certd)) (p_plan_hash (plan_of (attach_planned certd)))
           key true true) 1100 (attach_planned certd).
Definition attach_op (certd : bool) : StoredOperation := operation_of (attach_approved certd).

Definition attached (certd : bool) : oresult OperationReceiptView * World :=
  execute_certbot_attach cfg (attach_op certd) 1200 (attach_approved certd).
Definition site_bytes (w : World) : option string :=
  match find_entry "jw-agent.conf" (nt_available (w_nginx w)) with Some f => Some (af_bytes f) | None => None end.

Definition ended (r : oresult OperationReceiptView * World) : option OperationStage :=
  match r.1 with Ok receipt => Some (rv_terminal_state receipt) | Err _ => None end.

(** The certificate daemon confirms the certificate on the wire, or does not. *)
Example attachment_succeeds :
  ended (attached true) = Some Succeeded /\
  site_bytes (attached true).2 = Some new_text.
Proof. split; vm_compute; reflexivity. Qed.

Example attachment_rolled_back :
  ended (attached false) = Some RolledBack /\
  site_bytes (attached false).2 = Some old_text.
Proof. split; vm_compute; reflexivity. Qed.

Lemma attach_reachable certd : reachable (w_store (attach_approved certd)).
Proof.
  exact (asked_reachable (ApproveCertbotAttach actor (first_plan (attach_planned certd))
    (p_plan_hash (plan_of (attach_planned certd))) key true true) 1100 (attach_planned certd) Logic.I
    (asked_reachable (PlanCertbotAttach actor attach_request) 1000 (certificate_world certd) actor_is_ok
       (certificate_reachable certd))).
Defined.

Definition attach_id : string := first_operation (attach_approved true).
Definition no_attach : CertbotAttachPlanPayload :=
  {| ap_primary_domain := ""; ap_site_id := ""; ap_site_digest := ""; ap_metadata_digest := "";
     ap_inventory_digest := ""; ap_certificate_fingerprint := ""; ap_sans := []; ap_not_after := "";
     ap_current_certificate_path := ""; ap_target_certificate_path := ""; ap_proposed_content_digest := "";
     ap_timer_enabled := false; ap_timer_active := false |}.
Definition attach_payload : CertbotAttachPlanPayload := default no_attach (p_certbot_attach (o_plan (attach_op true))).

Lemma attach_live : live 7 1200 attach_id (attach_op true) (attach_approved true).
Proof. apply live_check; [exact (attach_reachable true)|vm_compute; reflexivity..]. Defined.

Lemma execute_attach_outcome_witness :
  let touched w' := touches default_paths (site_change default_paths (ap_site_id attach_payload))
                      (w_nginx (attach_approved true)) (w_nginx w') in
  match execute_certbot_attach cfg (attach_op true) 1200 (attach_approved true) with
  | (Ok r, w') => touched w' /\ exists op', finished attach_id op' r w' /\ o_plan op' = o_plan (attach_op true) /\
                    attach_outcome cfg attach_payload (w_nginx (attach_approved true)) (o_stage op') w'
  | (Err _, w') => touched w' /\ storage_fault w'
  end.
Proof.
  apply (execute_attach_outcome cfg 1200 attach_id (attach_op true) attach_payload (attach_approved true));
    [exact attach_live|vm_compute; reflexivity..].
Defined.

(** ** A staging certificate *)

Definition issue_input : CertbotIssuePlanInput :=
  {| in_request :=
       {| ci_schema_version := 1; ci_operation_type := CERTBOT_ISSUE_OPERATION; ci_primary_domain := domain;
          ci_alternative_domains := []; ci_account_email := "admin@example.com"; ci_environment := Staging;
          ci_site_id := management_id; ci_expected_site_digest := sha256_digest old_text;
          ci_expected_inventory_digest := inventory_digest; ci_tos_agreed := true; ci_idempotency_key := key |};
     in_preflight :=
       {| pf_observed_at_unix_ms := 900; pf_resolved_addresses := ["203.0.113.0"%string];
          pf_expected_addresses := ["203.0.113.0"%string]; pf_local_port_80_reachable := true;
          pf_local_port_443_reachable := true |} |}.

Definition issue_planned : World := asked (PlanCertbotIssue actor issue_input) 1000 (certificate_world true).
Definition issue_approved : World :=
  asked (ApproveCertbotIssue actor (first_plan issue_planned) (p_plan_hash (plan_of issue_planned)) key true true) 1100
    issue_planned.
Definition issue_op : StoredOperation := operation_of issue_approved.
Definition issue_id : string := first_operation issue_approved.
Definition no_issue : CertbotIssuePlanPayload :=
  {| ip_primary_domain := ""; ip_domains := []; ip_account_email_proposal_relative_path := "";
     ip_account_email_proposal_digest := ""; ip_masked_account_email := ""; ip_environment := Production;
     ip_site_id := ""; ip_site_digest := ""; ip_inventory_digest := ""; ip_preflight_observed_at_ms := 0;
     ip_resolved_addresses := []; ip_local_port_80_reachable := false; ip_local_port_443_reachable := false;
     ip_staging_evidence_valid := false; ip_staging_evidence_key := "" |}.
Definition issue_payload : CertbotIssuePlanPayload := default no_issue (p_certbot_issue (o_plan issue_op)).

Example staging_issue_succeeds :
  ended (execute_certbot_issue cfg issue_op 1200 issue_approved) = Some Succeeded.
Proof. vm_compute. reflexivity. Qed.

Lemma issue_reachable : reachable (w_store issue_approved).
Proof.
  exact (asked_reachable (ApproveCertbotIssue actor (first_plan issue_planned)
    (p_plan_hash (plan_of issue_planned)) key true true) 1100 issue_planned Logic.I
    (asked_reachable (PlanCertbotIssue actor issue_input) 1000 (certificate_world true) actor_is_ok
       (certificate_reachable true))).
Defined.

Lemma issue_live : live 4 1200 issue_id issue_op issue_approved.
Proof. apply live_check; [exact issue_reachable|vm_compute; reflexivity..]. Defined.

Lemma execute_issue_outcome_witness :
  match execute_certbot_issue cfg issue_op 1200 issue_approved with
  | (Ok r, w') => w_nginx w' = w_nginx issue_approved /\ exists op', finished issue_id op' r w' /\
                    o_plan op' = o_plan issue_op /\ issue_outcome cfg issue_payload issue_approved (o_stage op') w' /\
                    issue_gate issue_payload 1200 issue_approved (o_stage op')
  | (Err _, w') => w_nginx w' = w_nginx issue_approved /\ (storage_fault w' \/ count_fault cfg w')
  end.
Proof.
  apply (execute_issue_outcome cfg 1200 issue_id issue_op issue_payload issue_approved);
    [exact issue_live|vm_compute; reflexivity..].
Defined.

(** Two names, the alternative one before the primary one in the order of
    texts.  The plan is accepted; the daemon's own check of the command, which
    wants the names in ascending order, then refuses it before the certificate
    daemon is called. *)
Definition two_names_text : string := site_for "example.com a.example.com" "/etc/ssl/certs/old.pem" "/etc/ssl/private/old.key".
Definition two_names_world : World :=
  with_nginx (set_available_entries (fun _ => [("jw-agent.conf"%string,
    {| af_openable := true; af_is_file := true; af_is_dir := false; af_link := None; af_nlink := 1; af_uid := 0;
       af_gid := 0; af_mode := 420; af_bytes := two_names_text;
       af_canonical := Some "/etc/nginx/sites-available/jw-agent.conf"%string |})]) management_tree) (certificate_world true).
Definition two_names_input : CertbotIssuePlanInput :=
  {| in_request :=
       {| ci_schema_version := 1; ci_operation_type := CERTBOT_ISSUE_OPERATION; ci_primary_domain := domain;
          ci_alternative_domains := ["a.example.com"%string]; ci_account_email := "admin@example.com";
          ci_environment := Staging; ci_site_id := management_id; ci_expected_site_digest := sha256_digest two_names_text;
          ci_expected_inventory_digest := inventory_digest; ci_tos_agreed := true; ci_idempotency_key := key |};
     in_preflight := in_preflight issue_input |}.
Definition two_names_planned : World := asked (PlanCertbotIssue actor two_names_input) 1000 two_names_world.
Definition two_names_approved : World :=
  asked (ApproveCertbotIssue actor (first_plan two_names_planned) (p_plan_hash (plan_of two_names_planned)) key true true)
    1100 two_names_planned.
Definition two_names_run : oresult OperationReceiptView * World :=
  execute_certbot_issue cfg (operation_of two_names_approved) 1200 two_names_approved.

Example unordered_names_never_issue :
  ended two_names_run = Some Rejected /\ certd_calls two_names_run.2 = [].
Proof. split; vm_compute; reflexivity. Qed.

(** ** A crash *)

(** A staging issue stopped before the certificate daemon answered, whose
    snapshot was then lost: no start succeeds any more. *)
Definition interrupted_issue : EM StoredOperation :=
  let! record := write_certificate_inventory_snapshot cfg issue_id
                   {| cx_schema_version := 1; cx_inventory_digest := inventory_digest; cx_timer_enabled := true;
                      cx_timer_active := true; cx_certificate_count := 1 |} in
  let! _ := ledger (attach_snapshot issue_id record 1200) in
  ledger (transition issue_id
    (change [Snapshotted] Applying "certbot_staging_dry_run_started" (sn_digest record) None None 1200)).
Definition lost_snapshot : World :=
  let w := (interrupted_issue issue_approved).2 in
  {| w_store := w_store w; w_nginx := w_nginx w; w_snapshots := w_snapshots issue_approved;
     w_proposals := w_proposals w; w_lockdown := w_lockdown w; w_host := w_host w |}.

Example lost_snapshot_stops_start :
  is_ok (initialize cfg 1300 (interrupted_issue issue_approved).2).1 = true /\
  (initialize cfg 1300 lost_snapshot).1 = Err EForensicLockdown /\
  (initialize cfg 1400 (initialize cfg 1300 lost_snapshot).2).1 = Err EForensicLockdown.
Proof. split_and!; vm_compute; reflexivity. Qed.

(** The attachment, stopped right after the site's file was replaced. *)
Definition interrupted : EM ManagedConfigResource :=
  let! attachment := prepare_tls_attachment default_paths domain management_id (sha256_digest old_text) in
  let! record := write_managed_config_snapshot cfg attach_id (protected_snapshot (ta_config attachment)) in
  let! _ := ledger (attach_snapshot attach_id record 1200) in
  let! _ := ledger (transition attach_id
        (change [Snapshotted] Applying "tls_directives_replace_started" (sn_digest record) None None 1200)) in
  replace_protected_config default_paths (ta_config attachment) (ta_proposed_content attachment).

Definition crashed : World := (interrupted (attach_approved true)).2.
Definition restarted_world : World := (initialize cfg 1300 crashed).2.

Example crash_is_undone :
  site_bytes crashed = Some new_text /\ map o_stage (unfinished crashed) = [Applying] /\
  site_bytes restarted_world = Some old_text /\ o_stage (operation_of restarted_world) = RolledBack.
Proof. vm_compute. split_and!; reflexivity. Qed.





End CertDemo.
