(* ===== verification/Bytes.v ===== *)
(** * Byte strings, big-endian integers and UTF-8 validity

    What the wire formats of the daemons use of the Rust standard library:
    slices by length, [to_be_bytes] / [from_be_bytes], [String::from_utf8] and
    [str::split], with the lemmas the codecs share. *)

From Stdlib Require Import Ascii String Sorting.Sorted.
From S2P Require Import Prelude Crypto Text.

(** ** Slices *)

Fixpoint stake (n : nat) (s : string) : string :=
  match n, s with
  | S n', String c s' => String c (stake n' s')
  | _, _ => EmptyString
  end.

Fixpoint sdrop (n : nat) (s : string) : string :=
  match n, s with
  | O, _ => s
  | S n', String _ s' => sdrop n' s'
  | S _, EmptyString => EmptyString
  end.

Lemma stake_sdrop n s : stake n s +:+ sdrop n s = s.
Proof.
  revert s. induction n as [|n IH]; intros [|c s]; try done. cbn [stake sdrop].
  by rewrite sapp_cons, IH.
Qed.

Lemma stake_app n a b : String.length a = n -> stake n (a +:+ b) = a.
Proof.
  revert a. induction n as [|n IH]; intros [|c a]; try done. intros [= Hl].
  rewrite sapp_cons. cbn [stake]. by rewrite IH.
Qed.

Lemma sdrop_app n a b : String.length a = n -> sdrop n (a +:+ b) = b.
Proof.
  revert a. induction n as [|n IH]; intros [|c a]; try done. intros [= Hl].
  rewrite sapp_cons. cbn [sdrop]. by rewrite IH.
Qed.

Lemma length_sapp a b : String.length (a +:+ b) = (String.length a + String.length b)%nat.
Proof. pose proof (slen_app a b) as Hs. unfold slen in Hs. lia. Qed.

Lemma stake_length n s : (n <= String.length s)%nat -> String.length (stake n s) = n.
Proof.
  revert s. induction n as [|n IH]; intros [|c s] Hn; cbn [String.length] in Hn; try (done || lia).
  cbn [stake String.length]. rewrite IH; lia.
Qed.

Lemma sdrop_length n s : String.length (sdrop n s) = (String.length s - n)%nat.
Proof. revert s. induction n as [|n IH]; intros [|c s]; cbn [sdrop String.length]; try lia. by rewrite IH. Qed.

Lemma sdrop_sdrop n m s : sdrop n (sdrop m s) = sdrop (m + n) s.
Proof. revert s. induction m as [|m IH]; intros [|c s]; cbn; try done. by destruct n. Qed.

Lemma slen_zero s : slen s = 0 -> s = EmptyString.
Proof. unfold slen. destruct s; [done|]. cbn [String.length]. lia. Qed.

Lemma slen_cons c s : slen (String c s) = slen s + 1.
Proof. unfold slen. cbn [String.length]. lia. Qed.

Lemma to_nat_slen s : Z.to_nat (slen s) = String.length s.
Proof. unfold slen. lia. Qed.

Create Rewrite HintDb bytes.
#[export] Hint Rewrite sapp_nil_r sapp_assoc sapp_cons slen_app to_nat_slen : bytes.

(** ** Big-endian integers of [n] bytes *)

Fixpoint be_bytes (n : nat) (z : Z) : string :=
  match n with
  | O => EmptyString
  | S n' => String (chr (z / 256 ^ Z.of_nat n' mod 256)) (be_bytes n' z)
  end.

Fixpoint be_value_from (acc : Z) (s : string) : Z :=
  match s with
  | EmptyString => acc
  | String c s' => be_value_from (acc * 256 + code c) s'
  end.

Definition be_value (s : string) : Z := be_value_from 0 s.

(** [u32::to_be_bytes] and [u64::to_be_bytes]. *)
Definition be32 (z : Z) : string := be_bytes 4 z.
Definition be64 (z : Z) : string := be_bytes 8 z.

Lemma be_bytes_length n z : String.length (be_bytes n z) = n.
Proof. induction n as [|n IH]; cbn [be_bytes String.length]; congruence. Qed.

Lemma slen_be32 z : slen (be32 z) = 4.
Proof. unfold slen, be32. by rewrite be_bytes_length. Qed.

Lemma slen_be64 z : slen (be64 z) = 8.
Proof. unfold slen, be64. by rewrite be_bytes_length. Qed.

#[export] Hint Rewrite slen_be32 slen_be64 : bytes.

Lemma be_value_from_bytes n acc z :
  be_value_from acc (be_bytes n z) = acc * 256 ^ Z.of_nat n + z mod 256 ^ Z.of_nat n.
Proof.
  revert acc. induction n as [|n IH]; intros acc; cbn [be_bytes be_value_from].
  { rewrite Z.mod_1_r. lia. }
  rewrite IH, code_chr by (apply Z.mod_pos_bound; lia).
  rewrite Nat2Z.inj_succ, Z.pow_succ_r by lia.
  rewrite (Z.mul_comm 256), Z.rem_mul_r by lia. lia.
Qed.

Lemma be_value_from_acc acc s : be_value_from acc s = acc * 256 ^ slen s + be_value s.
Proof.
  unfold be_value. revert acc. induction s as [|c s IH]; intros acc; cbn [be_value_from].
  { change (slen "") with 0. lia. }
  rewrite (IH (acc * 256 + code c)), (IH (0 * 256 + code c)), slen_cons, Z.pow_add_r by (auto with jw; lia).
  change (256 ^ 1) with 256. lia.
Qed.

Lemma be_value_bound s : 0 <= be_value s < 256 ^ slen s.
Proof.
  unfold be_value. induction s as [|c s IH]; cbn [be_value_from].
  { change (slen "") with 0. lia. }
  rewrite be_value_from_acc, slen_cons, Z.pow_add_r by (auto with jw; lia).
  change (256 ^ 1) with 256. pose proof (code_bounds c). unfold be_value. nia.
Qed.

Lemma be_value_be n z : 0 <= z < 256 ^ Z.of_nat n -> be_value (be_bytes n z) = z.
Proof. intros. unfold be_value. rewrite be_value_from_bytes, Z.mod_small by done. lia. Qed.

Lemma be_value_be32 z : 0 <= z <= u32_max -> be_value (be32 z) = z.
Proof. intros. apply be_value_be. unfold u32_max in *. change (256 ^ Z.of_nat 4) with (2 ^ 32). lia. Qed.

Lemma be_bytes_add n k z w :
  (n <= k)%nat -> 0 <= z -> be_bytes n (w * 256 ^ Z.of_nat k + z) = be_bytes n z.
Proof.
  intros Hk Hz. induction n as [|n IH]; [done|]. cbn [be_bytes]. rewrite IH by lia. f_equal. f_equal.
  replace (w * 256 ^ Z.of_nat k) with (w * 256 ^ (Z.of_nat k - Z.of_nat n - 1) * 256 * 256 ^ Z.of_nat n).
  { rewrite Z.div_add_l by lia. rewrite Z.add_comm. apply Z.mod_add. lia. }
  rewrite <- !Z.mul_assoc. f_equal. rewrite <- Z.pow_succ_r, <- Z.pow_add_r by lia. f_equal. lia.
Qed.

Lemma be_bytes_be_value s : be_bytes (String.length s) (be_value s) = s.
Proof.
  induction s as [|c s IH]; [done|]. unfold be_value. cbn [be_value_from String.length be_bytes].
  rewrite be_value_from_acc. pose proof (be_value_bound s) as Hs. pose proof (code_bounds c).
  f_equal.
  - unfold slen in *. change (0 * 256 + code c) with (code c).
    rewrite Z.div_add_l, (Z.div_small (be_value s)), Z.add_0_r, Z.mod_small, chr_code by lia. done.
  - unfold slen. rewrite be_bytes_add; lia || done.
Qed.

Lemma be32_be_value s : slen s = 4 -> be32 (be_value s) = s.
Proof. intros Hs. rewrite <- (be_bytes_be_value s) at 2. unfold be32, slen in *. f_equal. lia. Qed.

Lemma be64_be_value s : slen s = 8 -> be64 (be_value s) = s.
Proof. intros Hs. rewrite <- (be_bytes_be_value s) at 2. unfold be64, slen in *. f_equal. lia. Qed.

Lemma be_value_u32 s : slen s = 4 -> 0 <= be_value s <= u32_max.
Proof. intros Hs. pose proof (be_value_bound s) as Hb. rewrite Hs in Hb. unfold u32_max. lia. Qed.

(** ** [String::from_utf8] *)

Fixpoint utf8_valid (s : string) : bool :=
  match s with
  | EmptyString => true
  | String a r =>
      if in_range 0 127 a then utf8_valid r
      else match r with
      | EmptyString => false
      | String b r2 =>
          if in_range 194 223 a then cont b && utf8_valid r2
          else match r2 with
          | EmptyString => false
          | String c r3 =>
              if in_range 224 239 a then second3 a b && cont c && utf8_valid r3
              else match r3 with
              | EmptyString => false
              | String d r4 =>
                  in_range 240 244 a && second4 a b && cont c && cont d && utf8_valid r4
              end
          end
      end
  end.

Definition from_utf8 (bytes : string) : option string :=
  if utf8_valid bytes then Some bytes else None.

(** ** [str::split] on an ASCII character, and [rsplit_once] *)

Fixpoint ssplit (sep : ascii) (s : string) : list string :=
  match s with
  | EmptyString => [EmptyString]
  | String c s' =>
      if Ascii.eqb c sep then EmptyString :: ssplit sep s'
      else match ssplit sep s' with
           | piece :: rest => String c piece :: rest
           | [] => [String c EmptyString]
           end
  end.

(** The parts before and after the last [sep]. *)
Fixpoint rsplit_once (sep : ascii) (s : string) : option (string * string) :=
  match s with
  | EmptyString => None
  | String c s' =>
      match rsplit_once sep s' with
      | Some (a, b) => Some (String c a, b)
      | None => if Ascii.eqb c sep then Some (EmptyString, s') else None
      end
  end.

Definition sconcat_with (sep : string) (l : list string) : string := String.concat sep l.

Definition contains_char (c : ascii) (s : string) : bool := sany (Ascii.eqb c) s.

Fixpoint contains (needle s : string) : bool :=
  starts_with needle s ||
  match s with
  | EmptyString => false
  | String _ s' => contains needle s'
  end.

Definition ends_with_char (c : ascii) (s : string) : bool :=
  match srev s with
  | String d _ => Ascii.eqb c d
  | EmptyString => false
  end.

Lemma starts_with_char c s : starts_with (String c "") s = true -> exists r, s = String c r.
Proof.
  unfold starts_with. destruct s as [|d s]; [done|]. cbn [String.prefix].
  destruct (ascii_dec c d) as [->|]; [by exists s|done].
Qed.

(** ** Sorting by a total comparison *)

Definition ordered {A} (le : A -> A -> bool) (l : list A) : Prop := Sorted (fun a b => le a b = true) l.

Lemma isort_ordered {A} (le : A -> A -> bool) l :
  (forall a b, le a b = true \/ le b a = true) -> ordered le (isort le l).
Proof.
  intros Htot. unfold ordered. induction l as [|x l IH]; cbn [isort]; [constructor|].
  induction IH as [|y l' Hl IH Hy]; cbn [insert_sorted]; [by repeat constructor|].
  destruct (le x y) eqn:E; [by repeat constructor|].
  assert (le y x = true) by (destruct (Htot x y); congruence).
  constructor; [done|]. destruct l' as [|z l']; cbn [insert_sorted]; [by constructor|].
  destruct (le x z); constructor; [done|]. by inversion Hy.
Qed.
