(* ===== verification/Loops.v ===== *)
(** * Loops and weakest preconditions of stateful handlers

    [loop] and [while] of the source as bounded iteration with its invariant
    and termination rule, and the predicate transformer [wp] with which the
    protocol clients are verified: a postcondition sees the [Result] and the
    final state, on the error branch too. *)

From S2P Require Import Prelude.

(** ** Iteration

    A step either goes on with a new loop state or breaks with a value.  The
    bound is binary, so that bounds such as 2^32 stay executable. *)
Fixpoint mloop {S E L R} (bound : positive) (step : L -> M S E (L + R)) (l : L) : M S E (L + R) :=
  match bound with
  | xH => step l
  | xO p =>
      let! r := mloop p step l in
      match r with inl l' => mloop p step l' | inr x => mret (inr x) end
  | xI p =>
      let! r := step l in
      match r with
      | inl l' =>
          let! r := mloop p step l' in
          match r with inl l'' => mloop p step l'' | inr x => mret (inr x) end
      | inr x => mret (inr x)
      end
  end.

(** [for x in l { … }] with [?] inside. *)
Fixpoint mfor {S E A} (l : list A) (body : A -> M S E unit) : M S E unit :=
  match l with
  | [] => mret tt
  | x :: l' => let! _ := body x in mfor l' body
  end.

(** ** Weakest preconditions *)

Definition wp {S E A} (m : M S E A) (Q : result E A -> S -> Prop) (s : S) : Prop :=
  Q (m s).1 (m s).2.

Section Rules.
Context {S E : Type}.

Lemma wp_result {A} (m : M S E A) (Q : result E A -> S -> Prop) s r s' :
  wp m Q s -> m s = (r, s') -> Q r s'.
Proof. unfold wp. intros Hw Hm. by rewrite Hm in Hw. Qed.

Lemma wp_mono {A} (m : M S E A) (Q Q' : result E A -> S -> Prop) s :
  wp m Q s -> (forall r s', Q r s' -> Q' r s') -> wp m Q' s.
Proof. unfold wp. eauto. Qed.

Lemma wp_and {A} (m : M S E A) (Q Q' : result E A -> S -> Prop) s :
  wp m Q s -> wp m Q' s -> wp m (fun r s' => Q r s' /\ Q' r s') s.
Proof. unfold wp. eauto. Qed.

Lemma wp_ret {A} (a : A) (Q : result E A -> S -> Prop) s : Q (Ok a) s -> wp (mret a) Q s.
Proof. done. Qed.

Lemma wp_fail {A} e (Q : result E A -> S -> Prop) s : Q (Err e) s -> wp (mfail e) Q s.
Proof. done. Qed.

Lemma wp_lift {A} r (Q : result E A -> S -> Prop) s : Q r s -> wp (mlift r) Q s.
Proof. done. Qed.

Lemma wp_get {A} (f : S -> A) (Q : result E A -> S -> Prop) s : Q (Ok (f s)) s -> wp (mget f) Q s.
Proof. done. Qed.

Lemma wp_upd (f : S -> S) (Q : result E unit -> S -> Prop) s : Q (Ok tt) (f s) -> wp (mupd f) Q s.
Proof. done. Qed.

Lemma wp_bind {A B} (m : M S E A) (k : A -> M S E B) (Q : result E B -> S -> Prop) s :
  wp m (fun r s' => match r with Ok a => wp (k a) Q s' | Err e => Q (Err e) s' end) s ->
  wp (mbind m k) Q s.
Proof. unfold wp, mbind. destruct (m s) as [[a|e] s']; done. Qed.

Lemma wp_try {A B} (m : M S E A) (k : result E A -> M S E B) (Q : result E B -> S -> Prop) s :
  wp m (fun r s' => wp (k r) Q s') s -> wp (mtry m k) Q s.
Proof. unfold wp, mtry. destruct (m s) as [r s']. done. Qed.

(** A sequence whose first part is known to establish [R]. *)
Lemma wp_seq {A B} (m : M S E A) (k : A -> M S E B) (R : result E A -> S -> Prop)
    (Q : result E B -> S -> Prop) s :
  wp m R s ->
  (forall a s', R (Ok a) s' -> wp (k a) Q s') ->
  (forall e s', R (Err e) s' -> Q (Err e) s') ->
  wp (mbind m k) Q s.
Proof. intros Hm Hk He. apply wp_bind. eapply wp_mono; [exact Hm|]. intros [a|e] s' HR; auto. Qed.

Lemma wp_try_seq {A B} (m : M S E A) (k : result E A -> M S E B) (R : result E A -> S -> Prop)
    (Q : result E B -> S -> Prop) s :
  wp m R s -> (forall r s', R r s' -> wp (k r) Q s') -> wp (mtry m k) Q s.
Proof. intros Hm Hk. apply wp_try. eapply wp_mono; [exact Hm|]. auto. Qed.

Lemma wp_for {A} (l : list A) (body : A -> M S E unit) (I : list A -> S -> Prop)
    (X : E -> S -> Prop) s :
  (forall pre x rest s, l = pre ++ x :: rest -> I pre s ->
     wp (body x) (fun r s' => match r with Ok _ => I (pre ++ [x]) s' | Err e => X e s' end) s) ->
  I [] s ->
  wp (mfor l body) (fun r s' => match r with Ok _ => I l s' | Err e => X e s' end) s.
Proof.
  intros Hstep.
  assert (forall rest pre s, l = pre ++ rest -> I pre s ->
    wp (mfor rest body) (fun r s' => match r with Ok _ => I l s' | Err e => X e s' end) s) as Hgen.
  { induction rest as [|x rest IH]; intros pre s0 Hl HI; cbn [mfor].
    { rewrite app_nil_r in Hl. by subst. }
    eapply wp_seq; [by eapply Hstep| |done]. intros [] s' HI'. eapply IH; [|exact HI'].
    by rewrite <- app_assoc. }
  intros HI. by apply (Hgen l []).
Qed.

(** The loop rule: [I] is the invariant, [measure] drops at each round that
    goes on, so that a bound above it is never used up. *)
Section Loop.
Context {L R : Type} (step : L -> M S E (L + R)).
Variable I : L -> S -> Prop.
Variable measure : L -> S -> Z.
Variable Q : result E R -> S -> Prop.
Hypothesis step_ok : forall l s, I l s ->
  wp (step l) (fun r s' => match r with
                           | Ok (inl l') => I l' s' /\ measure l' s' < measure l s
                           | Ok (inr x) => Q (Ok x) s'
                           | Err e => Q (Err e) s'
                           end) s.

Definition loop_post (bound : Z) (r : result E (L + R)) (s' : S) : Prop :=
  match r with
  | Ok (inl l') => I l' s' /\ measure l' s' + 1 <= bound
  | Ok (inr x) => Q (Ok x) s'
  | Err e => Q (Err e) s'
  end.

Lemma loop_twice p p' l s :
  (forall l s, I l s -> wp (mloop p step l) (loop_post (measure l s - Zpos p + 1)) s) ->
  wp (mloop p' step l) (loop_post (measure l s - Zpos p' + 1)) s ->
  wp (let! r := mloop p' step l in
      match r with inl l' => mloop p step l' | inr x => mret (inr x) end)
    (loop_post (measure l s - Zpos p' - Zpos p + 1)) s.
Proof using step_ok.
  intros Hp Hp'. eapply wp_seq; [exact Hp'| |done].
  intros [l'|x] s'; [|done]. cbn. intros [HI' Hm]. eapply wp_mono; [by apply Hp|].
  intros [[l''|x]|e] s''; cbn; [|done|done]. intros [? ?]. split; [done|lia].
Qed.

Lemma loop_rule p l s : I l s -> wp (mloop p step l) (loop_post (measure l s - Zpos p + 1)) s.
Proof using step_ok.
  revert l s. induction p as [p IH|p IH|]; intros l s HI; cbn [mloop].
  - eapply wp_seq; [by apply step_ok| |done].
    intros [l'|x] s'; [|done]. cbn. intros [HI' Hm].
    eapply wp_mono; [apply (loop_twice p p); by auto|].
    intros [[l''|x]|e] s''; cbn; [|done|done]. intros [? ?]. split; [done|lia].
  - eapply wp_mono; [apply (loop_twice p p); by auto|].
    intros [[l''|x]|e] s''; cbn; [|done|done]. intros [? ?]. split; [done|lia].
  - eapply wp_mono; [by apply step_ok|]. intros [[l''|x]|e] s''; cbn; [|done|done].
    intros [? ?]. split; [done|lia].
Qed.

(** With a bound above the measure the loop ends by itself. *)
Lemma loop_ends p l s :
  (forall l s, I l s -> 0 <= measure l s) ->
  I l s -> measure l s < Zpos p ->
  wp (mloop p step l)
     (fun r s' => match r with
                  | Ok (inl _) => False
                  | Ok (inr x) => Q (Ok x) s'
                  | Err e => Q (Err e) s'
                  end) s.
Proof using step_ok.
  intros Hpos HI Hp. eapply wp_mono; [by apply loop_rule|].
  intros [[l'|x]|e] s'; cbn; [|done|done]. intros [HI' Hm]. apply Hpos in HI'. lia.
Qed.
End Loop.
End Rules.

(** Apply the rule of the head construct of a handler. *)
Ltac wp_step :=
  lazymatch goal with
  | |- wp (mbind _ _) _ _ => apply wp_bind
  | |- wp (mtry _ _) _ _ => apply wp_try
  | |- wp (mret _) _ _ => apply wp_ret
  | |- wp (mfail _) _ _ => apply wp_fail
  | |- wp (mlift _) _ _ => apply wp_lift
  | |- wp (mget _) _ _ => apply wp_get
  | |- wp (mupd _) _ _ => apply wp_upd
  end.
Ltac wp_steps := repeat wp_step.
