(* ===== verification/Files.v ===== *)
(** * File contracts: limits, views and path validation (jw-contracts/files.rs),
    and the frames of the sockets (jw-contracts/framing.rs) *)

From Stdlib Require Import Ascii String.
From S2P Require Import Prelude Crypto Text Bytes.

Definition FILE_MAX_PATH_BYTES : Z := 1024.
Definition FILE_MAX_COMPONENT_BYTES : Z := 255.
Definition FILE_MAX_LIST_ENTRIES : Z := 500.
Definition FILE_MAX_TEXT_BYTES : Z := 256 * 1024.
Definition FILE_MAX_DOWNLOAD_BYTES : Z := 8 * 1024 * 1024.
Definition FILE_MAX_UPLOAD_BYTES : Z := 8 * 1024 * 1024.

Inductive FileKind := Directory | Regular | SymbolicLink | OtherKind.

#[export] Instance file_kind_eq_dec : EqDecision FileKind.
Proof. solve_decision. Defined.

Record FileEntryView := {
  fe_name : string;
  fe_path : string;
  fe_kind : FileKind;
  fe_size_bytes : option Z;
  fe_modified_at_unix_seconds : option Z;
  fe_permissions : option Z;
}.

Record FileListView := {
  fl_path : string;
  fl_entries : list FileEntryView;
  fl_truncated : bool;
}.

Record FileStatView := {
  fs_path : string;
  fs_kind : FileKind;
  fs_size_bytes : option Z;
  fs_modified_at_unix_seconds : option Z;
  fs_permissions : option Z;
}.

Record FileTextView := {
  ft_path : string;
  ft_content : string;
  ft_size_bytes : Z;
  ft_digest : string;
  ft_line_ending : string;
}.

Inductive FileUploadTargetState := CreateTarget | ReplaceTarget.

#[export] Instance upload_target_eq_dec : EqDecision FileUploadTargetState.
Proof. solve_decision. Defined.

(** [byte == 0 || byte.is_ascii_control()] *)
Definition forbidden_byte (c : ascii) : bool := (code c =? 0) || is_ascii_control c.

Definition component_invalid (component : string) : bool :=
  bool_decide (component = "")
  || bool_decide (component = ".")
  || bool_decide (component = "..")
  || (FILE_MAX_COMPONENT_BYTES <? slen component)
  || sany forbidden_byte component.

Definition validate_file_path (path : string) : result string unit :=
  if bool_decide (path = "") then Ok tt
  else if starts_with "/" path || (FILE_MAX_PATH_BYTES <? slen path) then Err "path_invalid"
  else if existsb component_invalid (ssplit "/" path) then Err "path_invalid"
  else Ok tt.

Definition is_reserved_upload_name (name : string) : bool := starts_with ".jw-agent-upload-" name.

(** ** Length-prefixed JSON frames between the daemons (jw-contracts/framing.rs)

    Every socket of the system carries frames of a 32-bit big-endian length
    and a JSON payload.  A reader is the byte stream a peer still delivers
    before it closes; [read_exact] on a shorter stream is an I/O error. *)

Definition AUTH_FRAME_MAX_BYTES : Z := 16 * 1024.
Definition OPS_FRAME_MAX_BYTES : Z := 256 * 1024.

Inductive FrameError := FrameEmpty | FrameTooLarge | FrameTruncated | FrameInvalidJson | FrameIo.

#[export] Instance frame_error_eq_dec : EqDecision FrameError.
Proof. solve_decision. Defined.

Section Frames.
Context {T : Type} `{Json T}.

Definition encode_frame (value : T) (maximum : Z) : result FrameError string :=
  let payload := to_json value in
  if bool_decide (payload = ""%string) then Err FrameEmpty
  else if (maximum <? slen payload) || (u32_max <? slen payload) then Err FrameTooLarge
  else Ok (be32 (slen payload) +:+ payload).

Definition decode_frame (frame : string) (maximum : Z) : result FrameError T :=
  if slen frame <? 4 then Err FrameTruncated
  else
    let length := be_value (stake 4 frame) in
    if length =? 0 then Err FrameEmpty
    else if maximum <? length then Err FrameTooLarge
    else
      let payload := sdrop 4 frame in
      if negb (slen payload =? length) then Err FrameTruncated
      else ok_or (from_json payload) FrameInvalidJson.

(** [Read::read_exact] on the incoming stream. *)
Definition read_exact (n : Z) : M string FrameError string := fun stream =>
  if slen stream <? n then (Err FrameIo, ""%string)
  else (Ok (stake (Z.to_nat n) stream), sdrop (Z.to_nat n) stream).

Definition read_frame (maximum : Z) : M string FrameError T :=
  let! prefix := read_exact 4 in
  let length := be_value prefix in
  if length =? 0 then mfail FrameEmpty
  else if maximum <? length then mfail FrameTooLarge
  else
    let! payload := read_exact length in
    mlift (ok_or (from_json payload) FrameInvalidJson).

(** [write_all] and [flush] on a stream that takes everything: the bytes
    appended to it. *)
Definition write_frame (value : T) (maximum : Z) (written : string) : result FrameError string :=
  let? frame := encode_frame value maximum in
  Ok (written +:+ frame).

(** *** Round trips *)

(** [frame] carries [value] under [maximum]. *)
Definition frames (maximum : Z) (value : T) (frame : string) : Prop :=
  exists payload, frame = be32 (slen payload) +:+ payload /\
    1 <= slen payload <= Z.min maximum u32_max /\ from_json payload = Some value.

Lemma encode_frames maximum value frame :
  encode_frame value maximum = Ok frame -> frames maximum value frame.
Proof.
  unfold encode_frame. destruct (bool_decide _) eqn:E0; [done|]. destruct (_ || _) eqn:E; [done|].
  intros [= <-]. bool_prop. exists (to_json value). split; [done|]. split; [|apply from_to_json].
  pose proof (slen_nonneg (to_json value)). destruct (decide (slen (to_json value) = 0)) as [Hz|]; [|lia].
  by apply slen_zero in Hz.
Qed.

Lemma prefix_split payload : 
  slen payload <= u32_max ->
  stake 4 (be32 (slen payload) +:+ payload) = be32 (slen payload) /\
  sdrop 4 (be32 (slen payload) +:+ payload) = payload /\ be_value (be32 (slen payload)) = slen payload.
Proof.
  intros Hl. pose proof (slen_nonneg payload). rewrite stake_app, sdrop_app, be_value_be32 by (apply be_bytes_length || lia).
  done.
Qed.

Lemma decode_frame_iff maximum frame value :
  decode_frame frame maximum = Ok value <-> frames maximum value frame.
Proof.
  split.
  - unfold decode_frame. destruct (_ <? 4) eqn:E4; [done|]. destruct (_ =? 0) eqn:E0; [done|].
    destruct (maximum <? _) eqn:Em; [done|]. destruct (negb _) eqn:El; [done|]. bool_prop.
    unfold ok_or. destruct (from_json _) as [v|] eqn:Ej; [|done]. intros [= ->].
    exists (sdrop 4 frame). assert (slen (stake 4 frame) = 4) as H4.
    { unfold slen in *. rewrite stake_length; lia. }
    pose proof (be_value_u32 _ H4). rewrite El. split; [by rewrite be32_be_value, stake_sdrop|]. split; [lia|done].
  - intros (payload & -> & Hlen & Hj). destruct (prefix_split payload) as (Ht & Hd & Hv); [lia|].
    unfold decode_frame. rewrite Ht, Hd, Hv, slen_app, slen_be32, Hj.
    rewrite (proj2 (Z.ltb_ge _ 4)), (proj2 (Z.eqb_neq _ 0)), (proj2 (Z.ltb_ge maximum _)), Z.eqb_refl by lia. done.
Qed.

Lemma read_exact_app n a b : slen a = n -> read_exact n (a +:+ b) = (Ok a, b).
Proof.
  intros <-. unfold read_exact. rewrite slen_app. pose proof (slen_nonneg b).
  rewrite (proj2 (Z.ltb_ge _ _)), to_nat_slen, stake_app, sdrop_app by lia. done.
Qed.

Lemma read_frame_ok maximum value frame rest :
  frames maximum value frame -> read_frame maximum (frame +:+ rest) = (Ok value, rest).
Proof.
  intros (payload & -> & Hlen & Hj). unfold read_frame, mbind. rewrite sapp_assoc, read_exact_app by apply slen_be32.
  rewrite be_value_be32 by lia.
  rewrite (proj2 (Z.eqb_neq _ 0)), (proj2 (Z.ltb_ge maximum _)) by lia.
  rewrite read_exact_app by done. unfold mlift. by rewrite Hj.
Qed.

(** What a successful read consumed is a frame of its value. *)
Lemma read_frame_sound maximum stream value rest :
  read_frame maximum stream = (Ok value, rest) ->
  exists frame, stream = frame +:+ rest /\ frames maximum value frame.
Proof.
  unfold read_frame, mbind, read_exact. destruct (slen stream <? 4) eqn:E4; [done|].
  destruct (_ =? 0) eqn:E0; [done|]. destruct (maximum <? _) eqn:Em; [done|].
  destruct (slen (sdrop _ stream) <? _) eqn:El; [done|]. bool_prop. unfold mlift, ok_or.
  destruct (from_json _) as [v|] eqn:Ej; [|done]. intros [= -> <-].
  change (Z.to_nat 4) with 4%nat in *. assert (slen (stake 4 stream) = 4) as H4.
  { unfold slen in *. rewrite stake_length; lia. }
  pose proof (be_value_u32 _ H4) as Hu. set (n := be_value (stake 4 stream)) in *.
  set (payload := stake (Z.to_nat n) (sdrop 4 stream)) in *.
  assert (slen payload = n) as Hp by (unfold payload, slen in *; rewrite stake_length; lia).
  exists (be32 n +:+ payload). split.
  - unfold n, payload. by rewrite be32_be_value, sapp_assoc, stake_sdrop, stake_sdrop.
  - exists payload. rewrite Hp. split; [done|]. split; [lia|done].
Qed.

(** Frames written one after the other, and as many reads. *)
Fixpoint write_all_frames (values : list T) (maximum : Z) (written : string) : result FrameError string :=
  match values with
  | [] => Ok written
  | v :: rest => let? written := write_frame v maximum written in write_all_frames rest maximum written
  end.

Fixpoint read_frames (n : nat) (maximum : Z) : M string FrameError (list T) :=
  match n with
  | O => mret []
  | S n' => let! v := read_frame maximum in let! rest := read_frames n' maximum in mret (v :: rest)
  end.

Lemma write_all_frames_app values maximum written stream :
  write_all_frames values maximum written = Ok stream ->
  exists sent, stream = written +:+ sent /\
    forall rest, read_frames (length values) maximum (sent +:+ rest) = (Ok values, rest).
Proof.
  revert written. induction values as [|v values IH]; intros written; cbn [write_all_frames length read_frames].
  { intros [= ->]. exists ""%string. by rewrite sapp_nil_r. }
  unfold write_frame at 1. destruct (encode_frame v maximum) as [frame|] eqn:Ev; [|done].
  intros Hw. destruct (IH _ Hw) as (sent & -> & Hr). exists (frame +:+ sent). rewrite sapp_assoc.
  split; [done|]. intros rest. unfold mbind, mret. rewrite sapp_assoc.
  rewrite (read_frame_ok maximum v) by by apply encode_frames. by rewrite Hr.
Qed.
End Frames.
