(* ===== verification/Sftp.v ===== *)
(** * The SFTP client of the file browser (jw-agentd/src/sftp_protocol.rs)

    The client speaks SFTP version 3 with the [sftp-server] process of the
    logged-in user over its standard streams.  That process is the parameter
    [Peer]: it may answer anything, time out or fail.  The state keeps what
    the Rust struct keeps, and the record of the packets exchanged, which no
    operation reads. *)

From Stdlib Require Import Ascii String.
From S2P Require Import Prelude Crypto Text Bytes Loops Files.

(** ** Constants *)

Definition SFTP_VERSION : Z := 3.
Definition PACKET_MAX_BYTES : Z := 256 * 1024.
Definition READ_CHUNK_BYTES : Z := 32 * 1024.
Definition SSH_FXF_READ : Z := 1.
Definition SSH_FXF_WRITE : Z := 2.
Definition SSH_FXF_CREAT : Z := 8.
Definition SSH_FXF_EXCL : Z := 32.
Definition SSH_FILEXFER_ATTR_SIZE : Z := 1.
Definition SSH_FILEXFER_ATTR_UIDGID : Z := 2.
Definition SSH_FILEXFER_ATTR_PERMISSIONS : Z := 4.
Definition SSH_FILEXFER_ATTR_ACMODTIME : Z := 8.
Definition SSH_FILEXFER_ATTR_EXTENDED : Z := 2147483648.

Definition SSH_FXP_INIT : Z := 1.
Definition SSH_FXP_VERSION : Z := 2.
Definition SSH_FXP_OPEN : Z := 3.
Definition SSH_FXP_CLOSE : Z := 4.
Definition SSH_FXP_READ : Z := 5.
Definition SSH_FXP_WRITE : Z := 6.
Definition SSH_FXP_LSTAT : Z := 7.
Definition SSH_FXP_REMOVE : Z := 13.
Definition SSH_FXP_OPENDIR : Z := 11.
Definition SSH_FXP_READDIR : Z := 12.
Definition SSH_FXP_REALPATH : Z := 16.
Definition SSH_FXP_STAT : Z := 17.
Definition SSH_FXP_STATUS : Z := 101.
Definition SSH_FXP_HANDLE : Z := 102.
Definition SSH_FXP_DATA : Z := 103.
Definition SSH_FXP_NAME : Z := 104.
Definition SSH_FXP_ATTRS : Z := 105.
Definition SSH_FXP_EXTENDED : Z := 200.

Definition EXTENSION_FSYNC : string := "fsync@openssh.com".
Definition EXTENSION_POSIX_RENAME : string := "posix-rename@openssh.com".

Definition SSH_FX_OK : Z := 0.
Definition SSH_FX_EOF : Z := 1.
Definition SSH_FX_NO_SUCH_FILE : Z := 2.
Definition SSH_FX_PERMISSION_DENIED : Z := 3.
Definition SSH_FX_BAD_MESSAGE : Z := 5.
Definition SSH_FX_OP_UNSUPPORTED : Z := 8.


(** ** Parsing of packets *)

Record Cursor := { cu_bytes : string; cu_position : Z }.

(** Methods of [&mut Cursor] that return [Result<_, String>]. *)
Definition CM (A : Type) : Type := M Cursor string A.

Definition cursor_new (bytes : string) : Cursor := {| cu_bytes := bytes; cu_position := 0 |}.

Definition take_bytes (length : Z) : CM string := fun c =>
  let end_ := cu_position c + length in
  if usize_max <? end_ then (Err "sftp_protocol_error", c)
  else if slen (cu_bytes c) <? end_ then (Err "sftp_protocol_error", c)
  else (Ok (stake (Z.to_nat length) (sdrop (Z.to_nat (cu_position c)) (cu_bytes c))),
        {| cu_bytes := cu_bytes c; cu_position := end_ |}).

Definition cursor_u32 : CM Z :=
  let! bytes := take_bytes 4 in mret (be_value bytes).

Definition cursor_u64 : CM Z :=
  let! bytes := take_bytes 8 in mret (be_value bytes).

Definition cursor_bytes : CM string :=
  let! length := cursor_u32 in take_bytes length.

Definition cursor_string : CM string :=
  let! bytes := cursor_bytes in
  mlift (ok_or (from_utf8 bytes) "sftp_non_utf8_name").

Definition cursor_remaining (c : Cursor) : string :=
  sdrop (Z.to_nat (cu_position c)) (cu_bytes c).

Definition cursor_finish : CM unit := fun c =>
  if cu_position c =? slen (cu_bytes c) then (Ok tt, c) else (Err "sftp_protocol_error", c).

(** Run a parser on a payload; the cursor is local to the caller. *)
Definition on_payload {A} (p : CM A) (payload : string) : result string A := (p (cursor_new payload)).1.

Record Attrs := {
  at_size : option Z;
  at_permissions : option Z;
  at_modified : option Z;
}.

Record NameEntry := { ne_filename : string; ne_attrs : Attrs }.

Definition has_flag (flags bit : Z) : bool := negb (Z.land flags bit =? 0).

Definition known_flags : Z :=
  Z.lor (Z.lor (Z.lor (Z.lor SSH_FILEXFER_ATTR_SIZE SSH_FILEXFER_ATTR_UIDGID)
                  SSH_FILEXFER_ATTR_PERMISSIONS) SSH_FILEXFER_ATTR_ACMODTIME)
    SSH_FILEXFER_ATTR_EXTENDED.

(** [for _ in 0..count { p()? }], keeping the results. *)
Fixpoint repeat_parse {A} (count : nat) (p : CM A) : CM (list A) :=
  match count with
  | O => mret []
  | S n => let! x := p in let! rest := repeat_parse n p in mret (x :: rest)
  end.

Definition parse_extended_pair : CM unit :=
  let! _kind := cursor_bytes in
  let! _data := cursor_bytes in
  mret tt.

(** The mask [!known_flags] is the complement on 32 bits. *)
Definition parse_attrs : CM Attrs :=
  let! flags := cursor_u32 in
  if negb (Z.land flags (Z.lxor known_flags u32_max) =? 0) then mfail "sftp_protocol_error"
  else
    let! size := if has_flag flags SSH_FILEXFER_ATTR_SIZE
                 then (let! v := cursor_u64 in mret (Some v)) else mret None in
    let! _ := if has_flag flags SSH_FILEXFER_ATTR_UIDGID
              then (let! _uid := cursor_u32 in let! _gid := cursor_u32 in mret tt) else mret tt in
    let! permissions := if has_flag flags SSH_FILEXFER_ATTR_PERMISSIONS
                        then (let! v := cursor_u32 in mret (Some v)) else mret None in
    let! modified := if has_flag flags SSH_FILEXFER_ATTR_ACMODTIME
                     then (let! _accessed := cursor_u32 in let! v := cursor_u32 in mret (Some v))
                     else mret None in
    let! _ := if has_flag flags SSH_FILEXFER_ATTR_EXTENDED
              then (let! count := cursor_u32 in
                    if 32 <? count then mfail "sftp_protocol_error"
                    else let! _ := repeat_parse (Z.to_nat count) parse_extended_pair in mret tt)
              else mret tt in
    mret {| at_size := size; at_permissions := permissions; at_modified := modified |}.

Definition parse_name_entry : CM NameEntry :=
  let! filename := cursor_string in
  let! _longname := cursor_bytes in
  let! attrs := parse_attrs in
  mret {| ne_filename := filename; ne_attrs := attrs |}.

Definition parse_names_cursor : CM (list NameEntry) :=
  let! count := cursor_u32 in
  if FILE_MAX_LIST_ENTRIES + 2 <? count then mfail "sftp_list_limit_exceeded"
  else
    let! names := repeat_parse (Z.to_nat count) parse_name_entry in
    let! _ := cursor_finish in
    mret names.

Definition parse_names (payload : string) : result string (list NameEntry) :=
  on_payload parse_names_cursor payload.

Record ServerExtensions := { se_fsync : bool; se_posix_rename : bool }.

(** One round of the [while] loop; the loop state is the counter and the
    extensions seen. *)
Definition version_step (l : Z * ServerExtensions) : CM ((Z * ServerExtensions) + ServerExtensions) := fun c =>
  let (extension_count, extensions) := l in
  (if bool_decide (cursor_remaining c = "") then mret (inr extensions)
   else
     if 255 <? extension_count + 1 then mfail "sftp_protocol_error"
     else if 32 <? extension_count + 1 then mfail "sftp_protocol_error"
     else
       let! name := cursor_string in
       let! _data := cursor_bytes in
       mret (inl (extension_count + 1,
                  if bool_decide (name = EXTENSION_FSYNC)
                  then {| se_fsync := true; se_posix_rename := se_posix_rename extensions |}
                  else if bool_decide (name = EXTENSION_POSIX_RENAME)
                  then {| se_fsync := se_fsync extensions; se_posix_rename := true |}
                  else extensions))) c.

Definition LOOP_BOUND : string := "loop_bound".

(** A loop whose bound is used up has no counterpart in the source; that this
    error cannot be returned is proved. *)
Definition bounded {S L R} (bound : positive) (step : L -> M S string (L + R)) (l : L) : M S string R :=
  let! r := mloop bound step l in
  match r with inr x => mret x | inl _ => mfail LOOP_BOUND end.

Definition parse_server_version_cursor : CM ServerExtensions :=
  let! version := cursor_u32 in
  if negb (version =? SFTP_VERSION) then mfail "sftp_version_unsupported"
  else
    let! extensions := bounded 34 version_step (0, {| se_fsync := false; se_posix_rename := false |}) in
    let! _ := cursor_finish in
    mret extensions.

Definition parse_server_version (payload : string) : result string ServerExtensions :=
  on_payload parse_server_version_cursor payload.

Definition parse_status_cursor : CM Z :=
  let! status := cursor_u32 in
  let! _message := cursor_bytes in
  let! _language := cursor_bytes in
  let! _ := cursor_finish in
  mret status.

Definition parse_status (payload : string) : result string Z := on_payload parse_status_cursor payload.

Definition status_error (status : Z) : string :=
  if status =? SSH_FX_NO_SUCH_FILE then "not_found"
  else if status =? SSH_FX_PERMISSION_DENIED then "permission_denied"
  else if status =? SSH_FX_BAD_MESSAGE then "sftp_bad_message"
  else if status =? SSH_FX_OP_UNSUPPORTED then "sftp_operation_unsupported"
  else "sftp_failure".

(** [0o170_000], [0o040_000], [0o100_000] and [0o120_000]. *)
Definition kind (attrs : Attrs) : FileKind :=
  match at_permissions attrs with
  | Some value =>
      let type_bits := Z.land value 61440 in
      if type_bits =? 16384 then Directory
      else if type_bits =? 32768 then Regular
      else if type_bits =? 40960 then SymbolicLink
      else OtherKind
  | None => OtherKind
  end.

(** ** Names *)

Definition validate_canonical_root (root : string) : result string unit :=
  if negb (starts_with "/" root)
     || bool_decide (root = "/")
     || ends_with_char "/" root
     || (FILE_MAX_PATH_BYTES <? slen root)
     || sany forbidden_byte root
  then Err "sftp_home_invalid" else Ok tt.

Definition validate_entry_name (name : string) : result string unit :=
  if bool_decide (name = "")
     || bool_decide (name = ".")
     || bool_decide (name = "..")
     || (FILE_MAX_COMPONENT_BYTES <? slen name)
     || contains_char "/" name
     || sany forbidden_byte name
  then Err "sftp_unsafe_name" else Ok tt.

Definition validate_temporary_suffix (suffix : string) : result string unit :=
  if (slen suffix =? 32) && sall is_lower_hex suffix then Ok tt else Err "upload_temporary_invalid".

(** ** Building of packets *)

Definition push_bytes (output value : string) : result string string :=
  if u32_max <? slen value then Err "sftp_packet_too_large"
  else Ok (output +:+ be32 (slen value) +:+ value).

Definition push_string (output value : string) : result string string := push_bytes output value.

(** ** The peer and the client's state *)

(** Outcome of an awaited stream call: elapsed [OPERATION_TIMEOUT] or an I/O
    error. *)
Inductive IoFault := TimedOut | IoFailed.

(** The [sftp-server] process behind the pipes: what a write, a flush and a
    [read_exact] of a given length do.  A successful [read_exact] fills the
    buffer. *)
Class Peer := {
  peer : Type;
  peer_write_all : string -> peer -> result IoFault unit * peer;
  peer_flush : peer -> result IoFault unit * peer;
  peer_read_exact : Z -> peer -> result IoFault string * peer;
  peer_read_exact_length : forall n p bytes p',
    peer_read_exact n p = (Ok bytes, p') -> 0 <= n -> slen bytes = n;
}.

(** [str::to_lowercase], the Unicode case tables. *)
Class Unicode := { to_lowercase : string -> string }.

Inductive Wire :=
  | Sent (kind : Z) (payload : string)
  | Received (kind : Z) (payload : string).

Section Client.
Context `{PE : Peer} `{SH : Sha256} `{UN : Unicode}.

Record SftpProtocol := {
  sp_peer : peer;
  sp_next_request_id : Z;
  sp_home : string;
  sp_supports_fsync : bool;
  sp_supports_posix_rename : bool;
  sp_wire : list Wire;
}.

Definition SM (A : Type) : Type := M SftpProtocol string A.

Definition with_peer (p : peer) (s : SftpProtocol) : SftpProtocol :=
  {| sp_peer := p; sp_next_request_id := sp_next_request_id s; sp_home := sp_home s;
     sp_supports_fsync := sp_supports_fsync s;
     sp_supports_posix_rename := sp_supports_posix_rename s; sp_wire := sp_wire s |}.

Definition with_next_request_id (id : Z) (s : SftpProtocol) : SftpProtocol :=
  {| sp_peer := sp_peer s; sp_next_request_id := id; sp_home := sp_home s;
     sp_supports_fsync := sp_supports_fsync s;
     sp_supports_posix_rename := sp_supports_posix_rename s; sp_wire := sp_wire s |}.

Definition with_home (home : string) (s : SftpProtocol) : SftpProtocol :=
  {| sp_peer := sp_peer s; sp_next_request_id := sp_next_request_id s; sp_home := home;
     sp_supports_fsync := sp_supports_fsync s;
     sp_supports_posix_rename := sp_supports_posix_rename s; sp_wire := sp_wire s |}.

Definition with_extensions (e : ServerExtensions) (s : SftpProtocol) : SftpProtocol :=
  {| sp_peer := sp_peer s; sp_next_request_id := sp_next_request_id s; sp_home := sp_home s;
     sp_supports_fsync := se_fsync e;
     sp_supports_posix_rename := se_posix_rename e; sp_wire := sp_wire s |}.

(** The record of the exchange, newest first. *)
Definition note (w : Wire) (s : SftpProtocol) : SftpProtocol :=
  {| sp_peer := sp_peer s; sp_next_request_id := sp_next_request_id s; sp_home := sp_home s;
     sp_supports_fsync := sp_supports_fsync s;
     sp_supports_posix_rename := sp_supports_posix_rename s; sp_wire := w :: sp_wire s |}.

(** An awaited stream call under [timeout]. *)
Definition awaited {A} (call : peer -> result IoFault A * peer) (failed : string) : SM A := fun s =>
  match call (sp_peer s) with
  | (Ok a, p) => (Ok a, with_peer p s)
  | (Err TimedOut, p) => (Err "sftp_timeout", with_peer p s)
  | (Err IoFailed, p) => (Err failed, with_peer p s)
  end.

(** ** Packets *)

Record Packet := { pk_kind : Z; pk_payload : string }.

Definition send_packet (kind : Z) (payload : string) : SM unit :=
  let length := slen payload + 1 in
  if u32_max <? length then mfail "sftp_packet_too_large"
  else if PACKET_MAX_BYTES <? length then mfail "sftp_packet_too_large"
  else
    let packet := be32 length +:+ String (chr kind) payload in
    let! _ := mupd (note (Sent kind payload)) in
    let! _ := awaited (peer_write_all packet) "sftp_write_failed" in
    awaited peer_flush "sftp_write_failed".

Definition read_packet : SM Packet :=
  let! length_bytes := awaited (peer_read_exact 4) "sftp_read_failed" in
  let length := be_value length_bytes in
  if negb ((1 <=? length) && (length <=? PACKET_MAX_BYTES)) then mfail "sftp_packet_too_large"
  else
    let! bytes := awaited (peer_read_exact length) "sftp_read_failed" in
    match bytes with
    | String c payload =>
        let! _ := mupd (note (Received (code c) payload)) in
        mret {| pk_kind := code c; pk_payload := payload |}
    | EmptyString => mfail "sftp_read_failed" (* [bytes] has [length >= 1] bytes *)
    end.

Definition request_id : SM Z :=
  let! id := mget sp_next_request_id in
  if u32_max <? id + 1 then mfail "sftp_request_id_exhausted"
  else let! _ := mupd (with_next_request_id (id + 1)) in mret id.

Definition response (expected_id : Z) : SM Packet :=
  let! packet := read_packet in
  match cursor_u32 (cursor_new (pk_payload packet)) with
  | (Ok id, cursor) =>
      if negb (id =? expected_id) then mfail "sftp_protocol_error"
      else mret {| pk_kind := pk_kind packet; pk_payload := cursor_remaining cursor |}
  | (Err e, _) => mfail e
  end.

(** The payload of a request: its id, then the fields. *)
Definition request_payload (id : Z) (fields : string -> result string string) : SM string :=
  mlift (fields (be32 id)).

(** ** Single requests *)

Definition handle_cursor : CM string :=
  let! handle := cursor_bytes in
  let! _ := cursor_finish in
  if bool_decide (handle = "") || (256 <? slen handle) then mfail "sftp_protocol_error"
  else mret handle.

Definition handle_response (id : Z) : SM string :=
  let! packet := response id in
  if pk_kind packet =? SSH_FXP_HANDLE then mlift (on_payload handle_cursor (pk_payload packet))
  else if pk_kind packet =? SSH_FXP_STATUS then
    let! status := mlift (parse_status (pk_payload packet)) in mfail (status_error status)
  else mfail "sftp_protocol_error".

Definition require_ok_status (id : Z) (fallback : string) : SM unit :=
  let! packet := response id in
  if negb (pk_kind packet =? SSH_FXP_STATUS) then mfail "sftp_protocol_error"
  else
    let! status := mlift (parse_status (pk_payload packet)) in
    if status =? SSH_FX_OK then mret tt
    else if status =? SSH_FX_OP_UNSUPPORTED then mfail "sftp_write_extension_unavailable"
    else if bool_decide (status_error status = "sftp_failure") then mfail fallback
    else mfail (status_error status).

Definition close_handle (handle : string) : SM unit :=
  let! id := request_id in
  let! payload := request_payload id (fun p => push_bytes p handle) in
  let! _ := send_packet SSH_FXP_CLOSE payload in
  let! packet := response id in
  if negb (pk_kind packet =? SSH_FXP_STATUS) then mfail "sftp_close_failed"
  else
    let! status := mlift (parse_status (pk_payload packet)) in
    if negb (status =? SSH_FX_OK) then mfail "sftp_close_failed" else mret tt.

Definition realpath_raw (path : string) : SM string :=
  let! id := request_id in
  let! payload := request_payload id (fun p => push_string p path) in
  let! _ := send_packet SSH_FXP_REALPATH payload in
  let! packet := response id in
  if pk_kind packet =? SSH_FXP_STATUS then
    let! status := mlift (parse_status (pk_payload packet)) in mfail (status_error status)
  else if negb (pk_kind packet =? SSH_FXP_NAME) then mfail "sftp_protocol_error"
  else
    let! names := mlift (parse_names (pk_payload packet)) in
    match names with
    | [entry] => mret (ne_filename entry)
    | _ => mfail "sftp_protocol_error"
    end.

Definition attrs_cursor : CM Attrs :=
  let! attrs := parse_attrs in
  let! _ := cursor_finish in
  mret attrs.

Definition attrs_request (request_kind : Z) (canonical : string) : SM Attrs :=
  let! id := request_id in
  let! payload := request_payload id (fun p => push_string p canonical) in
  let! _ := send_packet request_kind payload in
  let! packet := response id in
  if pk_kind packet =? SSH_FXP_ATTRS then mlift (on_payload attrs_cursor (pk_payload packet))
  else if pk_kind packet =? SSH_FXP_STATUS then
    let! status := mlift (parse_status (pk_payload packet)) in mfail (status_error status)
  else mfail "sftp_protocol_error".

Definition stat_raw (canonical : string) : SM Attrs := attrs_request SSH_FXP_STAT canonical.
Definition lstat_raw (canonical : string) : SM Attrs := attrs_request SSH_FXP_LSTAT canonical.

Definition open_directory (canonical : string) : SM string :=
  let! id := request_id in
  let! payload := request_payload id (fun p => push_string p canonical) in
  let! _ := send_packet SSH_FXP_OPENDIR payload in
  handle_response id.

Definition open_read (canonical : string) : SM string :=
  let! id := request_id in
  let! payload := request_payload id (fun p => push_string p canonical) in
  let payload := payload +:+ be32 SSH_FXF_READ +:+ be32 0 in
  let! _ := send_packet SSH_FXP_OPEN payload in
  handle_response id.

(** [0o777] is 511. *)
Definition open_write_exclusive (canonical : string) (permissions : Z) : SM string :=
  let! id := request_id in
  let! payload := request_payload id (fun p => push_string p canonical) in
  let payload := payload
    +:+ be32 (Z.lor (Z.lor SSH_FXF_WRITE SSH_FXF_CREAT) SSH_FXF_EXCL)
    +:+ be32 SSH_FILEXFER_ATTR_PERMISSIONS
    +:+ be32 (Z.land permissions 511) in
  let! _ := send_packet SSH_FXP_OPEN payload in
  handle_response id.

Definition fsync_handle (handle : string) : SM unit :=
  let! id := request_id in
  let! payload := request_payload id (fun p =>
        let? p := push_string p EXTENSION_FSYNC in push_bytes p handle) in
  let! _ := send_packet SSH_FXP_EXTENDED payload in
  require_ok_status id "sftp_fsync_failed".

Definition posix_rename (source target : string) : SM unit :=
  let! id := request_id in
  let! payload := request_payload id (fun p =>
        let? p := push_string p EXTENSION_POSIX_RENAME in
        let? p := push_string p source in push_string p target) in
  let! _ := send_packet SSH_FXP_EXTENDED payload in
  require_ok_status id "sftp_rename_failed".

Definition remove_if_present (canonical : string) : SM unit :=
  let! id := request_id in
  let! payload := request_payload id (fun p => push_string p canonical) in
  let! _ := send_packet SSH_FXP_REMOVE payload in
  let! packet := response id in
  if negb (pk_kind packet =? SSH_FXP_STATUS) then mfail "sftp_protocol_error"
  else
    let! status := mlift (parse_status (pk_payload packet)) in
    if (status =? SSH_FX_OK) || (status =? SSH_FX_NO_SUCH_FILE) then mret tt
    else mfail (status_error status).

Definition cleanup_temporary {T} (path reason : string) : SM T :=
  try! removed := remove_if_present path in
  if is_err removed then mfail "temporary_cleanup_failed" else mfail reason.

(** ** Files and directories *)

(** One round of the read loop; the loop state is [bytes] and [offset]. *)
Definition data_cursor : CM string :=
  let! data := cursor_bytes in
  let! _ := cursor_finish in
  mret data.

Definition read_step (handle : string) (max_bytes : Z) (too_large : string) (l : string * Z)
    : SM ((string * Z) + string) :=
  let (bytes, offset) := l in
  let! id := request_id in
  let! payload := request_payload id (fun p => push_bytes p handle) in
  let payload := payload +:+ be64 offset +:+ be32 READ_CHUNK_BYTES in
  let! _ := send_packet SSH_FXP_READ payload in
  let! packet := response id in
  if pk_kind packet =? SSH_FXP_DATA then
    let! data := mlift (on_payload data_cursor (pk_payload packet)) in
    if bool_decide (data = "") then mfail "sftp_protocol_error"
    else
      let next := offset + slen data in
      if u64_max <? next then mfail "size_overflow"
      else if max_bytes <? next then mfail too_large
      else mret (inl (bytes +:+ data, next))
  else if pk_kind packet =? SSH_FXP_STATUS then
    let! status := mlift (parse_status (pk_payload packet)) in
    if status =? SSH_FX_EOF then mret (inr bytes) else mfail (status_error status)
  else mfail "sftp_protocol_error".

(** Every round that goes on reads at least one byte, and at most [max_bytes]
    are kept. *)
Definition read_handle (handle : string) (max_bytes : Z) (too_large : string) : SM string :=
  bounded (Z.to_pos (max_bytes + 2)) (read_step handle max_bytes too_large) (""%string, 0).

Definition resolve (path : string) : SM string :=
  let! _ := mlift (validate_file_path path) in
  let! home := mget sp_home in
  let candidate := if bool_decide (path = ""%string) then home else home +:+ "/" +:+ path in
  let! canonical := realpath_raw candidate in
  if negb (bool_decide (canonical = home))
     && negb (is_some_and (strip_prefix home canonical) (starts_with "/"))
  then mfail "path_outside_home"
  else mret canonical.

Definition read_canonical_file (canonical : string) (max_bytes : Z) (too_large : string) : SM string :=
  let! attrs := stat_raw canonical in
  if negb (bool_decide (kind attrs = Regular)) then mfail "not_regular_file"
  else if is_some_and (at_size attrs) (fun size => max_bytes <? size) then mfail too_large
  else
    let! handle := open_read canonical in
    try! result := read_handle handle max_bytes too_large in
    try! _closed := close_handle handle in
    mlift result.

Definition read_file (path : string) (max_bytes : Z) (too_large : string) : SM string :=
  let! canonical := resolve path in
  read_canonical_file canonical max_bytes too_large.

Definition entry_view (path : string) (entry : NameEntry) : FileEntryView :=
  {| fe_name := ne_filename entry;
     fe_path := if bool_decide (path = ""%string) then ne_filename entry
                else path +:+ "/" +:+ ne_filename entry;
     fe_kind := kind (ne_attrs entry);
     fe_size_bytes := at_size (ne_attrs entry);
     fe_modified_at_unix_seconds := at_modified (ne_attrs entry);
     fe_permissions := at_permissions (ne_attrs entry) |}.

(** The [for] loop over the entries of one NAME packet; [inr] is the early
    return of a full list. *)
Fixpoint take_entries (path : string) (names : list NameEntry) (entries : list FileEntryView)
    : result string (list FileEntryView + FileListView) :=
  match names with
  | [] => Ok (inl entries)
  | entry :: rest =>
      if bool_decide (ne_filename entry = "."%string) || bool_decide (ne_filename entry = ".."%string)
      then take_entries path rest entries
      else
        let? _ := validate_entry_name (ne_filename entry) in
        if FILE_MAX_LIST_ENTRIES <=? Z.of_nat (length entries)
        then Ok (inr {| fl_path := path; fl_entries := entries; fl_truncated := true |})
        else take_entries path rest (entries ++ [entry_view path entry])
  end.

(** Lexicographic order of [(kind != Directory, name.to_lowercase())]. *)
Definition entry_le (left right : FileEntryView) : bool :=
  let l := negb (bool_decide (fe_kind left = Directory)) in
  let r := negb (bool_decide (fe_kind right = Directory)) in
  if Bool.eqb l r then String.leb (to_lowercase (fe_name left)) (to_lowercase (fe_name right))
  else r.

Definition directory_step (path handle : string) (entries : list FileEntryView)
    : SM (list FileEntryView + FileListView) :=
  let! id := request_id in
  let! payload := request_payload id (fun p => push_bytes p handle) in
  let! _ := send_packet SSH_FXP_READDIR payload in
  let! packet := response id in
  if pk_kind packet =? SSH_FXP_NAME then
    let! names := mlift (parse_names (pk_payload packet)) in
    mlift (take_entries path names entries)
  else if pk_kind packet =? SSH_FXP_STATUS then
    let! status := mlift (parse_status (pk_payload packet)) in
    if status =? SSH_FX_EOF
    then mret (inr {| fl_path := path; fl_entries := isort entry_le entries; fl_truncated := false |})
    else mfail (status_error status)
  else mfail "sftp_protocol_error".

(** Every round takes a request id, of which there are fewer than 2^32. *)
Definition read_directory (path handle : string) : SM FileListView :=
  bounded (2 ^ 32) (directory_step path handle) [].

Definition list_path (path : string) : SM FileListView :=
  let! canonical := resolve path in
  let! attrs := stat_raw canonical in
  if negb (bool_decide (kind attrs = Directory)) then mfail "not_directory"
  else
    let! handle := open_directory canonical in
    try! result := read_directory path handle in
    try! _closed := close_handle handle in
    mlift result.

Definition stat_path (path : string) : SM FileStatView :=
  let! canonical := resolve path in
  let! attrs := stat_raw canonical in
  mret {| fs_path := path; fs_kind := kind attrs; fs_size_bytes := at_size attrs;
          fs_modified_at_unix_seconds := at_modified attrs; fs_permissions := at_permissions attrs |}.

Definition CRLF : string := String (chr 13) (String (chr 10) EmptyString).

Definition read_text (path : string) : SM FileTextView :=
  let! bytes := read_file path FILE_MAX_TEXT_BYTES "text_too_large" in
  if contains_char (chr 0) bytes then mfail "binary_text"
  else
    let! content := mlift (ok_or (from_utf8 bytes) "binary_text"%string) in
    let line_ending := if contains CRLF content then "crlf"%string
                       else if contains_char (chr 10) content then "lf"%string
                       else "none"%string in
    mret {| ft_path := path; ft_content := content; ft_size_bytes := slen content;
            ft_digest := sha256_digest content; ft_line_ending := line_ending |}.

Definition download (path : string) : SM string :=
  read_file path FILE_MAX_DOWNLOAD_BYTES "download_too_large".

(** ** Atomic upload *)

Record UploadPrecondition := {
  uc_target_state : FileUploadTargetState;
  uc_digest : option string;
  uc_size_bytes : Z;
  uc_permissions : Z;
}.

#[global] Instance upload_precondition_eq_dec : EqDecision UploadPrecondition.
Proof. solve_decision. Defined.

Record UploadInspection := {
  ui_precondition : UploadPrecondition;
  ui_canonical_parent : string;
  ui_canonical_target : string;
}.

Definition supports_atomic_upload (s : SftpProtocol) : bool :=
  sp_supports_fsync s && sp_supports_posix_rename s.

(** The regular file at an existing target ([0o777] is 511). *)
Definition inspect_target (attrs : Attrs) (canonical_parent canonical_target : string) : SM UploadInspection :=
  match kind attrs with
  | SymbolicLink => mfail "target_symlink_denied"
  | Regular =>
      let! permissions := mlift (ok_or ((fun value => Z.land value 511) <$> at_permissions attrs)
                                   "target_metadata_incomplete"%string) in
      let! bytes := read_canonical_file canonical_target FILE_MAX_UPLOAD_BYTES "upload_target_too_large" in
      mret {| ui_precondition := {| uc_target_state := ReplaceTarget;
                                    uc_digest := Some (sha256_digest bytes);
                                    uc_size_bytes := slen bytes;
                                    uc_permissions := permissions |};
              ui_canonical_parent := canonical_parent;
              ui_canonical_target := canonical_target |}
  | _ => mfail "target_type_unsupported"
  end.

(** [0o600] is 384. *)
Definition inspect_upload_raw (path : string) : SM UploadInspection :=
  let! _ := mlift (validate_file_path path) in
  if bool_decide (path = ""%string) then mfail "upload_path_invalid"
  else
    let (parent, basename) := default (""%string, path) (rsplit_once "/" path) in
    let! _ := mlift (validate_entry_name basename) in
    if is_reserved_upload_name basename then mfail "upload_path_invalid"
    else
      let! canonical_parent := resolve parent in
      let! parent_attrs := stat_raw canonical_parent in
      if negb (bool_decide (kind parent_attrs = Directory)) then mfail "not_directory"
      else
        let canonical_target := canonical_parent +:+ "/" +:+ basename in
        try! attrs := lstat_raw canonical_target in
        match attrs with
        | Ok attrs => inspect_target attrs canonical_parent canonical_target
        | Err reason =>
            if bool_decide (reason = "not_found"%string)
            then mret {| ui_precondition := {| uc_target_state := CreateTarget; uc_digest := None;
                                               uc_size_bytes := 0; uc_permissions := 384 |};
                         ui_canonical_parent := canonical_parent;
                         ui_canonical_target := canonical_target |}
            else mfail reason
        end.

Definition inspect_upload (path : string) : SM UploadPrecondition :=
  let! supported := mget supports_atomic_upload in
  if negb supported then mfail "sftp_write_extension_unavailable"
  else let! inspection := inspect_upload_raw path in mret (ui_precondition inspection).

(** [slice::chunks]; every chunk takes at least one byte. *)
Fixpoint chunks_fuel (fuel : nat) (size : nat) (bytes : string) : list string :=
  match fuel, bytes with
  | S f, String _ _ => stake size bytes :: chunks_fuel f size (sdrop size bytes)
  | _, _ => []
  end.

Definition chunks (size : nat) (bytes : string) : list string :=
  chunks_fuel (String.length bytes) size bytes.

(** The request of one round of the write loop. *)
Definition write_chunk (handle : string) (offset : Z) (chunk : string) : SM unit :=
  let! id := request_id in
  let! payload := request_payload id (fun p =>
        let? p := push_bytes p handle in push_bytes (p +:+ be64 offset) chunk) in
  let! _ := send_packet SSH_FXP_WRITE payload in
  require_ok_status id "sftp_write_failed".

Fixpoint write_chunks (handle : string) (offset : Z) (pieces : list string) : SM unit :=
  match pieces with
  | [] => mret tt
  | chunk :: rest =>
      let! _ := write_chunk handle offset chunk in
      if u64_max <? offset + slen chunk then mfail "size_overflow"
      else write_chunks handle (offset + slen chunk) rest
  end.

Definition write_handle (handle bytes : string) : SM unit :=
  write_chunks handle 0 (chunks (Z.to_nat READ_CHUNK_BYTES) bytes).

Definition temporary_path (canonical_parent temporary_suffix : string) : string :=
  canonical_parent +:+ "/.jw-agent-upload-" +:+ temporary_suffix +:+ ".tmp".

(** [Result::and]. *)
Definition and_result {E A B} (a : result E A) (b : result E B) : result E B :=
  match a with Ok _ => b | Err e => Err e end.

(** Read-back after the rename, and the clean-up when it is not the upload. *)
Definition confirm_upload (path temporary bytes : string) (expected current : UploadPrecondition)
    (rename_result : result string unit) : SM UploadPrecondition :=
  try! after := inspect_upload_raw path in
  let expected_digest := sha256_digest bytes in
  let expected_size := slen bytes in
  if is_ok_and after (fun inspection =>
       bool_decide (uc_digest (ui_precondition inspection) = Some expected_digest)
       && (uc_size_bytes (ui_precondition inspection) =? expected_size)
       && (uc_permissions (ui_precondition inspection) =? uc_permissions expected))
  then let! inspection := mlift after in mret (ui_precondition inspection)
  else
    match rename_result with
    | Err reason =>
        if is_ok_and after (fun inspection => bool_decide (ui_precondition inspection = current))
        then cleanup_temporary temporary reason
        else (try! _cleanup := remove_if_present temporary in mfail "manual_recovery_required")
    | Ok _ => try! _cleanup := remove_if_present temporary in mfail "manual_recovery_required"
    end.

Definition atomic_upload (path : string) (expected : UploadPrecondition) (bytes temporary_suffix : string)
    : SM UploadPrecondition :=
  let! supported := mget supports_atomic_upload in
  if negb supported then mfail "sftp_write_extension_unavailable"
  else if FILE_MAX_UPLOAD_BYTES <? slen bytes then mfail "upload_too_large"
  else
    let! _ := mlift (validate_temporary_suffix temporary_suffix) in
    let! current := inspect_upload_raw path in
    if negb (bool_decide (ui_precondition current = expected)) then mfail "target_changed"
    else
      let temporary := temporary_path (ui_canonical_parent current) temporary_suffix in
      let! handle := open_write_exclusive temporary (uc_permissions expected) in
      try! write_result := write_handle handle bytes in
      try! fsync_result := (if is_ok write_result then fsync_handle handle else mret tt) in
      try! close_result := close_handle handle in
      match and_result (and_result write_result fsync_result) close_result with
      | Err reason => cleanup_temporary temporary reason
      | Ok _ =>
          try! rename_result := posix_rename temporary (ui_canonical_target current) in
          confirm_upload path temporary bytes expected (ui_precondition current) rename_result
      end.

(** ** Session start *)

Definition new_protocol (p : peer) : SftpProtocol :=
  {| sp_peer := p; sp_next_request_id := 1; sp_home := ""; sp_supports_fsync := false;
     sp_supports_posix_rename := false; sp_wire := [] |}.

(** The steps of [initialize] on the record it builds; on an error the record
    is dropped. *)
Definition initialize : SM unit :=
  let! _ := send_packet SSH_FXP_INIT (be32 SFTP_VERSION) in
  let! packet := read_packet in
  if negb (pk_kind packet =? SSH_FXP_VERSION) then mfail "sftp_protocol_error"
  else
    let! extensions := mlift (parse_server_version (pk_payload packet)) in
    let! _ := mupd (with_extensions extensions) in
    let! home := realpath_raw "." in
    let! _ := mlift (validate_canonical_root home) in
    mupd (with_home home).
End Client.
