(* ===== verification/SftpWire.v ===== *)
(** * The SFTP packet grammar and the parsers that accept exactly it

    A reference encoder for the replies of a server (status, attributes, name
    lists), written from the protocol's point of view, and the proof that the
    client's cursor parsers accept exactly its image: nothing well formed is
    refused, nothing else is accepted, trailing bytes included. *)

From Stdlib Require Import Ascii String.
From S2P Require Import Prelude Crypto Text Bytes Loops Files Sftp.

(** ** Cursors and the bytes ahead of them *)

Definition ahead (c : Cursor) (r : string) : Prop :=
  0 <= cu_position c <= slen (cu_bytes c) /\ slen (cu_bytes c) <= usize_max /\ cursor_remaining c = r.

Lemma ahead_new payload : slen payload <= usize_max -> ahead (cursor_new payload) payload.
Proof. intros. unfold ahead. pose proof (slen_nonneg payload). done. Qed.

Lemma ahead_len c r : ahead c r -> slen r = slen (cu_bytes c) - cu_position c.
Proof.
  intros (Hp & _ & <-). unfold cursor_remaining, slen in *. rewrite sdrop_length. lia.
Qed.

(** [p] accepts exactly the byte strings [w] with [G v w], leaving what follows. *)
Record exact {A} (p : CM A) (G : A -> string -> Prop) : Prop := {
  exact_complete : forall v w c r, G v w -> ahead c (w +:+ r) -> exists c', p c = (Ok v, c') /\ ahead c' r;
  exact_sound : forall v c c' r, ahead c r -> p c = (Ok v, c') ->
    exists w r', r = w +:+ r' /\ G v w /\ ahead c' r';
}.

Lemma exact_iff {A} (p : CM A) (G G' : A -> string -> Prop) :
  (forall v w, G v w <-> G' v w) -> exact p G -> exact p G'.
Proof.
  intros HG [Hc Hs]. split.
  - intros v w c r Hv. apply Hc. by apply HG.
  - intros v c c' r Ha Hp. destruct (Hs _ _ _ _ Ha Hp) as (w & r' & ? & ? & ?).
    exists w, r'. by rewrite <- HG.
Qed.

Lemma exact_ret {A} (a : A) : exact (mret a) (fun v w => v = a /\ w = "").
Proof.
  split.
  - intros v w c r [-> ->] Ha. exists c. done.
  - intros v c c' r Ha [= <- <-]. exists "", r. done.
Qed.

Lemma exact_fail {A} e : exact (mfail e : CM A) (fun _ _ => False).
Proof. by split. Qed.

Lemma exact_bind {A B} (p : CM A) (k : A -> CM B) G1 G2 :
  exact p G1 -> (forall a w, G1 a w -> exact (k a) (G2 a)) ->
  exact (mbind p k) (fun v w => exists a w1 w2, w = w1 +:+ w2 /\ G1 a w1 /\ G2 a v w2).
Proof.
  intros [Hc1 Hs1] Hk. split.
  - intros v w c r (a & w1 & w2 & -> & H1 & H2) Ha. rewrite sapp_assoc in Ha.
    destruct (Hc1 _ _ _ _ H1 Ha) as (c1 & Hp & Ha1).
    destruct (exact_complete _ _ (Hk a w1 H1) _ _ _ _ H2 Ha1) as (c2 & Hk2 & Ha2).
    exists c2. split; [|done]. by rewrite (mbind_ok _ _ _ _ _ Hp).
  - intros v c c' r Ha Hp. apply mbind_inv_ok in Hp as (a & c1 & Hp & Hk').
    destruct (Hs1 _ _ _ _ Ha Hp) as (w1 & r1 & -> & H1 & Ha1).
    destruct (exact_sound _ _ (Hk a w1 H1) _ _ _ _ Ha1 Hk') as (w2 & r2 & -> & H2 & Ha2).
    exists (w1 +:+ w2), r2. rewrite sapp_assoc. eauto 10.
Qed.

Lemma exact_if {A} (b : bool) (p q : CM A) Gp Gq :
  exact p Gp -> exact q Gq -> exact (if b then p else q) (fun v w => if b then Gp v w else Gq v w).
Proof. by destruct b. Qed.

Lemma exact_take n :
  0 <= n -> exact (take_bytes n) (fun v w => w = v /\ slen v = n).
Proof.
  intros Hn. split.
  - intros v w c r [-> Hv] Ha. pose proof (ahead_len _ _ Ha) as Hl.
    destruct Ha as (Hp & Hu & Hr). rewrite slen_app in Hl. pose proof (slen_nonneg r).
    unfold take_bytes.
    rewrite (proj2 (Z.ltb_ge usize_max _)), (proj2 (Z.ltb_ge (slen _) _)) by lia.
    change (sdrop (Z.to_nat (cu_position c)) (cu_bytes c)) with (cursor_remaining c).
    rewrite Hr, stake_app by (unfold slen in *; lia).
    eexists. split; [reflexivity|]. unfold ahead, cursor_remaining in *. cbn [cu_bytes cu_position].
    split; [lia|]. split; [done|].
    rewrite Z2Nat.inj_add, <- sdrop_sdrop, Hr by lia. apply sdrop_app. unfold slen in *. lia.
  - intros v c c' r Ha. pose proof (ahead_len _ _ Ha) as Hl. destruct Ha as (Hp & Hu & Hr).
    unfold take_bytes. destruct (usize_max <? _) eqn:E1; [done|].
    destruct (slen (cu_bytes c) <? _) eqn:E2; [done|]. intros [= <- <-]. bool_prop.
    unfold cursor_remaining in Hr. rewrite Hr. exists (stake (Z.to_nat n) r), (sdrop (Z.to_nat n) r).
    rewrite stake_sdrop. split; [done|]. split.
    + split; [done|]. unfold slen in *. rewrite stake_length; lia.
    + unfold ahead, cursor_remaining. cbn [cu_bytes cu_position]. split; [lia|]. split; [done|].
      by rewrite Z2Nat.inj_add, <- sdrop_sdrop, Hr by lia.
Qed.

(** ** Grammar of the fields *)

Definition in_u32 (v : Z) : Prop := 0 <= v <= u32_max.
Definition in_u64 (v : Z) : Prop := 0 <= v <= u64_max.

Definition u32_wire (v : Z) (w : string) : Prop := w = be32 v /\ in_u32 v.
Definition u64_wire (v : Z) (w : string) : Prop := w = be64 v /\ in_u64 v.

(** A length-prefixed string. *)
Definition field (s : string) : string := be32 (slen s) +:+ s.
Definition field_wire (v w : string) : Prop := w = field v /\ slen v <= u32_max.

Lemma exact_u32 : exact cursor_u32 u32_wire.
Proof.
  unfold cursor_u32. eapply exact_iff; [|eapply exact_bind; [apply exact_take; lia|intros; apply exact_ret]].
  intros v w. split.
  - intros (a & w1 & w2 & -> & [-> Ha] & [-> ->]). rewrite sapp_nil_r. split; [by rewrite be32_be_value|].
    by apply be_value_u32.
  - intros [-> Hv]. exists (be32 v), (be32 v), "".
    rewrite sapp_nil_r, slen_be32, be_value_be32 by done. done.
Qed.

Lemma exact_u64 : exact cursor_u64 u64_wire.
Proof.
  unfold cursor_u64. eapply exact_iff; [|eapply exact_bind; [apply exact_take; lia|intros; apply exact_ret]].
  intros v w. split.
  - intros (a & w1 & w2 & -> & [-> Ha] & [-> ->]). rewrite sapp_nil_r. split; [by rewrite be64_be_value|].
    pose proof (be_value_bound a) as Hb. rewrite Ha in Hb. unfold in_u64, u64_max. lia.
  - intros [-> Hv]. exists (be64 v), (be64 v), "". rewrite sapp_nil_r, slen_be64. split; [done|].
    split; [done|]. split; [|done]. symmetry. apply be_value_be. unfold in_u64, u64_max in Hv.
    change (256 ^ Z.of_nat 8) with (2 ^ 64). lia.
Qed.

Lemma exact_bytes : exact cursor_bytes field_wire.
Proof.
  unfold cursor_bytes. eapply exact_iff; [|eapply exact_bind;
    [apply exact_u32|intros n w [_ Hn]; apply exact_take; apply Hn]].
  intros v w. split.
  - intros (n & w1 & w2 & -> & [-> Hn] & -> & <-). split; [done|]. apply Hn.
  - intros [-> Hv]. exists (slen v), (be32 (slen v)), v. pose proof (slen_nonneg v).
    repeat split; auto with lia.
Qed.

Definition utf8_wire (v w : string) : Prop := field_wire v w /\ utf8_valid v = true.

Lemma exact_string : exact cursor_string utf8_wire.
Proof.
  unfold cursor_string, from_utf8. eapply exact_iff with
    (G := fun v w => exists a w1 w2, w = w1 +:+ w2 /\ field_wire a w1 /\
            (if utf8_valid a then v = a /\ w2 = "" else False)).
  - intros v w. split.
    + intros (a & w1 & w2 & -> & Ha & Hv). destruct (utf8_valid a) eqn:E; [|done].
      destruct Hv as [-> ->]. rewrite sapp_nil_r. done.
    + intros [Hw Hu]. exists v, w, "". rewrite sapp_nil_r, Hu. done.
  - apply (exact_bind _ _ _ (fun a v w2 => if utf8_valid a then v = a /\ w2 = "" else False));
      [apply exact_bytes|].
    intros a w _. destruct (utf8_valid a); [apply exact_ret|apply exact_fail].
Qed.

(** A sequence of the same element. *)
Fixpoint all_wire {A} (G : A -> string -> Prop) (l : list A) (w : string) : Prop :=
  match l with
  | [] => w = ""
  | x :: l' => exists w1 w2, w = w1 +:+ w2 /\ G x w1 /\ all_wire G l' w2
  end.

Lemma exact_repeat {A} n (p : CM A) G :
  exact p G -> exact (repeat_parse n p) (fun l w => length l = n /\ all_wire G l w).
Proof.
  intros Hp. induction n as [|n IH]; cbn [repeat_parse].
  - eapply exact_iff; [|apply exact_ret]. intros [|x l] w; naive_solver.
  - eapply exact_iff; [|eapply exact_bind; [exact Hp|]; intros x wx _;
      eapply exact_bind; [exact IH|]; intros l wl _; apply exact_ret].
    intros v w. split.
    + intros (x & w1 & w2 & -> & Hx & l & w3 & w4 & -> & [Hl Hall] & [-> ->]).
      rewrite sapp_nil_r. cbn. split; [lia|]. eauto.
    + intros [Hl Hall]. destruct v as [|x l]; [done|]. destruct Hall as (w1 & w2 & -> & Hx & Hall).
      exists x, w1, w2. split; [done|]. split; [done|]. exists l, w2, "". rewrite sapp_nil_r.
      cbn in Hl. auto with lia.
Qed.

(** A whole payload. *)
Lemma exact_payload {A} (p : CM A) G payload v :
  slen payload <= usize_max -> exact p G ->
  on_payload (let! x := p in let! _ := cursor_finish in mret x) payload = Ok v <-> G v payload.
Proof.
  intros Hl Hp. pose proof (ahead_new _ Hl) as Ha. unfold on_payload.
  assert (forall c r, ahead c r -> (cu_position c =? slen (cu_bytes c)) = true <-> r = "") as Hend.
  { intros c r Hc. rewrite Z.eqb_eq. apply ahead_len in Hc. split; intros Hz.
    - apply slen_zero. lia.
    - subst. change (slen "") with 0 in Hc. lia. }
  split.
  - unfold mbind at 1. destruct (p _) as [[x|e] c] eqn:Ep; [|done].
    destruct (exact_sound _ _ Hp _ _ _ _ Ha Ep) as (w & r & -> & HG & Hc).
    unfold mbind, cursor_finish. destruct (_ =? _) eqn:E; [|done]. intros [= ->].
    apply (Hend _ _ Hc) in E as ->. by rewrite sapp_nil_r.
  - intros HG. rewrite <- (sapp_nil_r payload) in Ha at 2.
    destruct (exact_complete _ _ Hp _ _ _ _ HG Ha) as (c & Ep & Hc).
    unfold mbind, cursor_finish. rewrite Ep. by rewrite (proj2 (Hend _ _ Hc) eq_refl).
Qed.

(** ** Replies of a server *)

(** STATUS: code, message and language tag. *)
Definition wire_status (status : Z) (message language : string) : string :=
  be32 status +:+ field message +:+ field language.

(** ATTRS, with the parts the client skips. *)
Record WireAttrs := {
  wa_size : option Z;
  wa_owner : option (Z * Z);
  wa_permissions : option Z;
  wa_times : option (Z * Z);
  wa_extended : option (list (string * string));
}.

Definition bit {A} (o : option A) (b : Z) : Z := match o with Some _ => b | None => 0 end.

Definition wire_flags (a : WireAttrs) : Z :=
  Z.lor (Z.lor (Z.lor (Z.lor (bit (wa_size a) SSH_FILEXFER_ATTR_SIZE)
                             (bit (wa_owner a) SSH_FILEXFER_ATTR_UIDGID))
                      (bit (wa_permissions a) SSH_FILEXFER_ATTR_PERMISSIONS))
               (bit (wa_times a) SSH_FILEXFER_ATTR_ACMODTIME))
        (bit (wa_extended a) SSH_FILEXFER_ATTR_EXTENDED).

Definition wire_opt {A} (f : A -> string) (o : option A) : string :=
  match o with Some x => f x | None => "" end.

Definition wire_pair (p : Z * Z) : string := be32 p.1 +:+ be32 p.2.
Definition wire_extension (e : string * string) : string := field e.1 +:+ field e.2.
Definition wire_extensions (l : list (string * string)) : string :=
  be32 (Z.of_nat (length l)) +:+ sconcat (map wire_extension l).

Definition wire_attrs (a : WireAttrs) : string :=
  be32 (wire_flags a) +:+ wire_opt be64 (wa_size a) +:+ wire_opt wire_pair (wa_owner a)
    +:+ wire_opt be32 (wa_permissions a) +:+ wire_opt wire_pair (wa_times a)
    +:+ wire_opt wire_extensions (wa_extended a).

Definition opt_all {A} (P : A -> Prop) (o : option A) : Prop :=
  match o with Some x => P x | None => True end.

Definition pair_fits (p : Z * Z) : Prop := in_u32 p.1 /\ in_u32 p.2.
Definition extension_fits (e : string * string) : Prop := slen e.1 <= u32_max /\ slen e.2 <= u32_max.

Record attrs_fit (a : WireAttrs) : Prop := {
  fit_size : opt_all in_u64 (wa_size a);
  fit_owner : opt_all pair_fits (wa_owner a);
  fit_permissions : opt_all in_u32 (wa_permissions a);
  fit_times : opt_all pair_fits (wa_times a);
  fit_extended : opt_all (fun l => Z.of_nat (length l) <= 32 /\ Forall extension_fits l) (wa_extended a);
}.

(** What the client keeps of them. *)
Definition attrs_view (a : WireAttrs) : Attrs :=
  {| at_size := wa_size a; at_permissions := wa_permissions a; at_modified := snd <$> wa_times a |}.

(** NAME: a counted list of names, long names and attributes. *)
Record WireName := { wn_filename : string; wn_longname : string; wn_attrs : WireAttrs }.

Definition wire_name (n : WireName) : string :=
  field (wn_filename n) +:+ field (wn_longname n) +:+ wire_attrs (wn_attrs n).

Definition wire_names (l : list WireName) : string :=
  be32 (Z.of_nat (length l)) +:+ sconcat (map wire_name l).

Definition name_fits (n : WireName) : Prop :=
  slen (wn_filename n) <= u32_max /\ utf8_valid (wn_filename n) = true /\
  slen (wn_longname n) <= u32_max /\ attrs_fit (wn_attrs n).

Definition name_view (n : WireName) : NameEntry :=
  {| ne_filename := wn_filename n; ne_attrs := attrs_view (wn_attrs n) |}.

(** ** The parsers accept exactly the grammar *)

(** Grammars of sequences, flattened. *)
Lemma exact_skip {A B} (p : CM A) (k : CM B) G1 G2 :
  exact p G1 -> exact k G2 ->
  exact (let! _ := p in k) (fun v w => exists a w1 w2, w = w1 +:+ w2 /\ G1 a w1 /\ G2 v w2).
Proof. intros H1 H2. apply (exact_bind _ _ _ (fun _ => G2)); auto. Qed.

Lemma exact_status :
  exact (let! status := cursor_u32 in let! _ := cursor_bytes in let! _ := cursor_bytes in mret status)
    (fun v w => exists message language, w = wire_status v message language /\ in_u32 v /\
                  slen message <= u32_max /\ slen language <= u32_max).
Proof.
  eapply exact_iff; [|eapply exact_bind; [apply exact_u32|intros; eapply exact_skip;
    [apply exact_bytes|eapply exact_skip; [apply exact_bytes|apply exact_ret]]]].
  intros v w. split.
  - intros (x & ? & ? & -> & [-> Hx] & m & ? & ? & -> & [-> Hm] & l & ? & ? & -> & [-> Hl] & -> & ->).
    exists m, l. rewrite sapp_nil_r. done.
  - intros (m & l & -> & Hv & Hm & Hl).
    exists v, (be32 v), (field m +:+ field l). split; [done|]. split; [done|].
    exists m, (field m), (field l). split; [done|]. split; [done|].
    exists l, (field l), "". by rewrite sapp_nil_r.
Qed.

Lemma parse_status_iff payload status :
  slen payload <= usize_max ->
  parse_status payload = Ok status <->
  exists message language, payload = wire_status status message language /\ in_u32 status /\
    slen message <= u32_max /\ slen language <= u32_max.
Proof.
  intros Hl. rewrite <- (exact_payload _ _ _ _ Hl exact_status).
  unfold parse_status, on_payload, parse_status_cursor, mbind, mret.
  destruct (cursor_u32 _) as [[?|?] c1]; [|done]. destruct (cursor_bytes c1) as [[?|?] c2]; [|done].
  destruct (cursor_bytes c2) as [[?|?] c3]; done.
Qed.

(** The flag word. *)
Lemma flags_known flags :
  in_u32 flags -> Z.land flags (Z.lxor known_flags u32_max) = 0 -> Z.land flags known_flags = flags.
Proof.
  intros Hf Hz. apply Z.bits_inj'. intros n Hn.
  apply (f_equal (fun z => Z.testbit z n)) in Hz. rewrite Z.bits_0, Z.land_spec, Z.lxor_spec in Hz.
  rewrite Z.land_spec. destruct (Z.testbit flags n) eqn:E; [|done]. cbn in *.
  assert (n < 32) as Hn32.
  { destruct (Z_lt_le_dec n 32); [done|]. rewrite Z.bits_above_log2 in E; [done|apply Hf|].
    apply Z.le_lt_trans with 31; [|lia]. destruct (decide (flags = 0)) as [->|]; [done|].
    change 31 with (Z.log2 u32_max). apply Z.log2_le_mono. apply Hf. }
  replace (Z.testbit u32_max n) with true in Hz; [by destruct (Z.testbit known_flags n)|].
  change u32_max with (Z.ones 32). symmetry. apply Z.ones_spec_low. lia.
Qed.

Lemma land_pow2 flags k :
  0 <= k -> Z.land flags (2 ^ k) = if has_flag flags (2 ^ k) then 2 ^ k else 0.
Proof.
  intros Hk. unfold has_flag.
  assert (Z.land flags (2 ^ k) = if Z.testbit flags k then 2 ^ k else 0) as ->.
  { apply Z.bits_inj'. intros n Hn. rewrite Z.land_spec, Z.pow2_bits_eqb by done.
    destruct (Z.eqb_spec k n) as [->|Hne].
    - destruct (Z.testbit flags n); [|by rewrite Z.bits_0]. by rewrite Z.pow2_bits_true.
    - rewrite andb_false_r. destruct (Z.testbit flags k); [|by rewrite Z.bits_0].
      by rewrite Z.pow2_bits_false. }
  pose proof (Z.pow_pos_nonneg 2 k). destruct (Z.testbit flags k); cbn.
  - rewrite (proj2 (Z.eqb_neq _ _)) by lia. done.
  - done.
Qed.

Definition flag_word (size owner permissions times extended : bool) : Z :=
  Z.lor (Z.lor (Z.lor (Z.lor (if size then SSH_FILEXFER_ATTR_SIZE else 0)
                             (if owner then SSH_FILEXFER_ATTR_UIDGID else 0))
                      (if permissions then SSH_FILEXFER_ATTR_PERMISSIONS else 0))
               (if times then SSH_FILEXFER_ATTR_ACMODTIME else 0))
        (if extended then SSH_FILEXFER_ATTR_EXTENDED else 0).

Lemma flags_decompose flags :
  in_u32 flags -> Z.land flags (Z.lxor known_flags u32_max) = 0 ->
  flags = flag_word (has_flag flags SSH_FILEXFER_ATTR_SIZE) (has_flag flags SSH_FILEXFER_ATTR_UIDGID)
            (has_flag flags SSH_FILEXFER_ATTR_PERMISSIONS) (has_flag flags SSH_FILEXFER_ATTR_ACMODTIME)
            (has_flag flags SSH_FILEXFER_ATTR_EXTENDED).
Proof.
  intros Hf Hz. rewrite <- (flags_known flags Hf Hz) at 1. unfold known_flags, flag_word.
  rewrite !Z.land_lor_distr_r.
  change SSH_FILEXFER_ATTR_SIZE with (2 ^ 0). change SSH_FILEXFER_ATTR_UIDGID with (2 ^ 1).
  change SSH_FILEXFER_ATTR_PERMISSIONS with (2 ^ 2). change SSH_FILEXFER_ATTR_ACMODTIME with (2 ^ 3).
  change SSH_FILEXFER_ATTR_EXTENDED with (2 ^ 31).
  rewrite (land_pow2 flags 0), (land_pow2 flags 1), (land_pow2 flags 2), (land_pow2 flags 3),
    (land_pow2 flags 31) by lia. done.
Qed.

Lemma wire_flags_word a :
  wire_flags a = flag_word (is_some (wa_size a)) (is_some (wa_owner a)) (is_some (wa_permissions a))
                   (is_some (wa_times a)) (is_some (wa_extended a)).
Proof. destruct a as [[] [] [] [] []]; done. Qed.

(** [has_flag] reads the word back. *)
Lemma flag_word_spec s o p t e :
  let w := flag_word s o p t e in
  in_u32 w /\ Z.land w (Z.lxor known_flags u32_max) = 0 /\
  has_flag w SSH_FILEXFER_ATTR_SIZE = s /\ has_flag w SSH_FILEXFER_ATTR_UIDGID = o /\
  has_flag w SSH_FILEXFER_ATTR_PERMISSIONS = p /\ has_flag w SSH_FILEXFER_ATTR_ACMODTIME = t /\
  has_flag w SSH_FILEXFER_ATTR_EXTENDED = e.
Proof. destruct s, o, p, t, e; vm_compute; repeat split; discriminate. Qed.

(** An optional part of the attributes. *)
Definition opt_wire {A} (G : A -> string -> Prop) (present : bool) (o : option A) (w : string) : Prop :=
  match o with Some x => present = true /\ G x w | None => present = false /\ w = "" end.

Lemma exact_opt {A} (present : bool) (p : CM A) G :
  exact p G ->
  exact (if present then (let! v := p in mret (Some v)) else mret None) (opt_wire G present).
Proof.
  intros Hp. destruct present; cbn.
  - eapply exact_iff; [|eapply exact_bind; [exact Hp|intros; apply exact_ret]].
    intros v w. split.
    + intros (x & w1 & w2 & -> & Hx & -> & ->). rewrite sapp_nil_r. done.
    + intros Hv. destruct v as [x|]; [|by destruct Hv]. destruct Hv as [_ Hv].
      exists x, w, "". by rewrite sapp_nil_r.
  - eapply exact_iff; [|apply exact_ret]. intros [x|] w; naive_solver.
Qed.

(** A part that is read and dropped, seen as an optional part. *)
Lemma exact_drop {A B} (present : bool) (p : CM A) (q : CM unit) (k : CM B) G G2 :
  exact p G -> (forall c, q c = (let! _ := p in mret tt) c) -> exact k G2 ->
  exact (let! _ := (if present then q else mret tt) in k)
    (fun v w => exists (o : option A) w1 w2, w = w1 +:+ w2 /\ opt_wire G present o w1 /\ G2 v w2).
Proof.
  intros Hp Hq Hk. eapply exact_iff; [|eapply (exact_bind _ _ (fun _ w => exists o, opt_wire G present o w)
    (fun _ => G2)); [|auto]].
  - intros v w. naive_solver.
  - destruct present.
    + assert (exact (let! _ := p in mret tt) (fun _ w => exists x, G x w)) as [Hc Hs].
      { eapply exact_iff; [|eapply exact_bind; [exact Hp|intros; apply exact_ret]].
        intros [] w. split.
        - intros (x & w1 & w2 & -> & Hx & _ & ->). rewrite sapp_nil_r. eauto.
        - intros [x Hx]. exists x, w, "". by rewrite sapp_nil_r. }
      split.
      * intros v w c r (o & Ho) Ha. rewrite Hq. apply (Hc v w c r); [|done].
        destruct o as [x|]; [|by destruct Ho]. destruct Ho. eauto.
      * intros v c c' r Ha. rewrite Hq. intros Hp'. destruct (Hs _ _ _ _ Ha Hp') as (w & r' & -> & (x & Hx) & ?).
        exists w, r'. split; [done|]. split; [|done]. by exists (Some x).
    + eapply exact_iff; [|apply exact_ret]. intros [] w. split.
      * intros [_ ->]. by exists None.
      * intros ([x|] & Ho); destruct Ho; done.
Qed.

Definition pair_wire (p : Z * Z) (w : string) : Prop := w = wire_pair p /\ pair_fits p.

Lemma exact_pair :
  exact (let! a := cursor_u32 in let! b := cursor_u32 in mret (a, b)) pair_wire.
Proof.
  eapply exact_iff; [|eapply exact_bind; [apply exact_u32|intros; eapply exact_bind;
    [apply exact_u32|intros; apply exact_ret]]].
  intros [a b] w. unfold pair_wire, wire_pair, pair_fits. split.
  - intros (x & ? & ? & -> & [-> Hx] & y & ? & ? & -> & [-> Hy] & [= -> ->] & ->).
    rewrite sapp_nil_r. done.
  - intros [-> [Ha Hb]]. exists a, (be32 a), (be32 b). split; [done|]. split; [done|].
    exists b, (be32 b), "". by rewrite sapp_nil_r.
Qed.

Definition extension_wire (e : string * string) (w : string) : Prop :=
  w = wire_extension e /\ extension_fits e.

Lemma exact_extension :
  exact (let! a := cursor_bytes in let! b := cursor_bytes in mret (a, b)) extension_wire.
Proof.
  eapply exact_iff; [|eapply exact_bind; [apply exact_bytes|intros; eapply exact_bind;
    [apply exact_bytes|intros; apply exact_ret]]].
  intros [a b] w. unfold extension_wire, wire_extension, extension_fits. split.
  - intros (x & ? & ? & -> & [-> Hx] & y & ? & ? & -> & [-> Hy] & [= -> ->] & ->).
    rewrite sapp_nil_r. done.
  - intros [-> [Ha Hb]]. exists a, (field a), (field b). split; [done|]. split; [done|].
    exists b, (field b), "". by rewrite sapp_nil_r.
Qed.

(** A functional grammar, element by element. *)
Lemma all_wire_map {A} (f : A -> string) (P : A -> Prop) l w :
  all_wire (fun x w => w = f x /\ P x) l w <-> w = sconcat (map f l) /\ Forall P l.
Proof.
  revert w. induction l as [|x l IH]; intros w; cbn [all_wire map].
  - split; [intros ->; done|by intros [-> _]].
  - rewrite sconcat_cons, Forall_cons. split.
    + intros (w1 & w2 & -> & [-> Hx] & Hl). apply IH in Hl as [-> Hl]. done.
    + intros (-> & Hx & Hl). eexists _, _. split; [reflexivity|]. split; [done|]. by apply IH.
Qed.

Definition extensions_wire (l : list (string * string)) (w : string) : Prop :=
  w = wire_extensions l /\ Z.of_nat (length l) <= 32 /\ Forall extension_fits l.

Definition extensions_parser : CM (list (string * string)) :=
  let! count := cursor_u32 in
  if 32 <? count then mfail "sftp_protocol_error"
  else repeat_parse (Z.to_nat count) (let! a := cursor_bytes in let! b := cursor_bytes in mret (a, b)).

Lemma exact_extensions : exact extensions_parser extensions_wire.
Proof.
  unfold extensions_parser.
  eapply exact_iff; [|eapply (exact_bind _ _ _ (fun n l w => n <= 32 /\ length l = Z.to_nat n /\
     all_wire extension_wire l w)); [apply exact_u32|]].
  - intros l w. unfold extensions_wire, wire_extensions. split.
    + intros (n & w1 & w2 & -> & [-> Hn] & H32 & Hlen & Hl). apply all_wire_map in Hl as [-> Hl].
      unfold in_u32 in Hn. rewrite Hlen, Z2Nat.id by lia. done.
    + intros (-> & Hl & Hf). eexists _, _, _. split; [reflexivity|].
      split; [split; [reflexivity|]; unfold in_u32, u32_max; lia|].
      split; [done|]. split; [lia|]. by apply all_wire_map.
  - intros n w _. destruct (32 <? n) eqn:E; bool_prop.
    + eapply exact_iff; [|apply exact_fail]. intros l v. split; [done|]. lia.
    + eapply exact_iff; [|apply exact_repeat, exact_extension]. intros l v. split; [|tauto]. intros []; done.
Qed.

Lemma exact_times (present : bool) :
  exact (if present then (let! _accessed := cursor_u32 in let! v := cursor_u32 in mret (Some v)) else mret None)
    (fun o w => exists op, opt_wire pair_wire present op w /\ o = snd <$> op).
Proof.
  destruct present.
  - eapply exact_iff; [|eapply exact_skip; [apply exact_u32|eapply exact_bind;
      [apply exact_u32|intros; apply exact_ret]]].
    intros o w. split.
    + intros (x & ? & ? & -> & [-> Hx] & y & ? & ? & -> & [-> Hy] & -> & ->). rewrite sapp_nil_r.
      by exists (Some (x, y)).
    + intros ([[x y]|] & Ho & ->); [|by destruct Ho]. destruct Ho as (_ & -> & Hx & Hy).
      eexists x, _, _. split; [reflexivity|]. split; [done|].
      exists y, (be32 y), "". by rewrite sapp_nil_r.
  - eapply exact_iff; [|apply exact_ret]. intros o w. split.
    + intros [-> ->]. by exists None.
    + intros ([x|] & Ho & ->); destruct Ho; done.
Qed.

Lemma repeat_parse_drop n c :
  (repeat_parse n parse_extended_pair c).2
  = (repeat_parse n (let! a := cursor_bytes in let! b := cursor_bytes in mret (a, b)) c).2 /\
  ((let? _ := (repeat_parse n parse_extended_pair c).1 in Ok tt) : result string unit)
  = (let? _ := (repeat_parse n (let! a := cursor_bytes in let! b := cursor_bytes in mret (a, b)) c).1 in Ok tt).
Proof.
  revert c. induction n as [|n IH]; intros c; [done|]. cbn [repeat_parse].
  unfold parse_extended_pair at 1 3. unfold mbind, mret.
  destruct (cursor_bytes c) as [[?|?] c1]; [|done]. destruct (cursor_bytes c1) as [[?|?] c2]; [|done].
  specialize (IH c2). unfold mbind, mret in IH.
  destruct (repeat_parse n parse_extended_pair c2) as [[?|?] c3], (repeat_parse n _ c2) as [[?|?] c4];
    cbn in *; naive_solver.
Qed.

Lemma extended_drop c :
  (let! count := cursor_u32 in
   if 32 <? count then mfail "sftp_protocol_error"
   else let! _ := repeat_parse (Z.to_nat count) parse_extended_pair in mret tt) c
  = (let! _ := extensions_parser in mret tt) c.
Proof.
  unfold extensions_parser. unfold mbind at 1 3 4. destruct (cursor_u32 c) as [[n|e] c1]; [|done].
  destruct (32 <? n); [done|]. unfold mbind at 1.
  pose proof (repeat_parse_drop (Z.to_nat n) c1) as [H2 H1].
  destruct (repeat_parse _ parse_extended_pair c1) as [[?|?] c3], (repeat_parse _ _ c1) as [[?|?] c4];
    cbn in *; naive_solver.
Qed.

Definition attrs_wire (v : Attrs) (w : string) : Prop :=
  exists a, w = wire_attrs a /\ attrs_fit a /\ v = attrs_view a.

Lemma opt_wire_present {A} (f : A -> string) (P : A -> Prop) b o w :
  opt_wire (fun x w => w = f x /\ P x) b o w <-> b = is_some o /\ w = wire_opt f o /\ opt_all P o.
Proof. destruct o; cbn; naive_solver. Qed.

(** The grammar the sequence of optional parts gives. *)
Definition parts_wire (flags : Z) (v : Attrs) (w : string) : Prop :=
  exists a, flags = wire_flags a /\ be32 flags +:+ w = wire_attrs a /\ attrs_fit a /\ v = attrs_view a.

Lemma exact_parts flags :
  in_u32 flags -> Z.land flags (Z.lxor known_flags u32_max) = 0 ->
  exact
   (let! size := if has_flag flags SSH_FILEXFER_ATTR_SIZE
                 then (let! v := cursor_u64 in mret (Some v)) else mret None in
    let! _ := if has_flag flags SSH_FILEXFER_ATTR_UIDGID
              then (let! _uid := cursor_u32 in let! _gid := cursor_u32 in mret tt) else mret tt in
    let! permissions := if has_flag flags SSH_FILEXFER_ATTR_PERMISSIONS
                        then (let! v := cursor_u32 in mret (Some v)) else mret None in
    let! modified := if has_flag flags SSH_FILEXFER_ATTR_ACMODTIME
                     then (let! _accessed := cursor_u32 in let! v := cursor_u32 in mret (Some v))
                     else mret None in
    let! _ := if has_flag flags SSH_FILEXFER_ATTR_EXTENDED
              then (let! count := cursor_u32 in
                    if 32 <? count then mfail "sftp_protocol_error"
                    else let! _ := repeat_parse (Z.to_nat count) parse_extended_pair in mret tt)
              else mret tt in
    mret {| at_size := size; at_permissions := permissions; at_modified := modified |})
   (parts_wire flags).
Proof.
  intros Hf Hz. eapply exact_iff; cycle 1.
  - eapply exact_bind; [apply exact_opt, exact_u64|]. intros size ? _.
    eapply exact_drop; [apply exact_pair| |].
    { intros c. unfold mbind, mret. by destruct (cursor_u32 c) as [[?|?] c1]; [destruct (cursor_u32 c1) as [[?|?] ?]|]. }
    eapply exact_bind; [apply exact_opt, exact_u32|]. intros permissions ? _.
    eapply exact_bind; [apply exact_times|]. intros modified ? _.
    eapply exact_drop; [apply exact_extensions|apply extended_drop|apply exact_ret].
  - pose proof (flags_decompose _ Hf Hz) as Hd. intros v w. unfold parts_wire. split.
    + intros (size & ? & ? & -> & H1%opt_wire_present & owner & ? & ? & -> & H2%opt_wire_present &
        perms & ? & ? & -> & H3%opt_wire_present & modified & ? & ? & -> & (times & H4%opt_wire_present & ->) &
        ext & ? & ? & -> & H5%opt_wire_present & -> & ->).
      destruct H1 as (E1 & -> & F1), H2 as (E2 & -> & F2), H3 as (E3 & -> & F3), H4 as (E4 & -> & F4),
        H5 as (E5 & -> & F5).
      exists (Build_WireAttrs size owner perms times ext).
      assert (flags = wire_flags (Build_WireAttrs size owner perms times ext)) as Hw.
      { rewrite wire_flags_word. cbn [wa_size wa_owner wa_permissions wa_times wa_extended]. congruence. }
      rewrite <- Hw. split; [done|]. split; [|done].
      unfold wire_attrs. rewrite <- Hw. cbn [wa_size wa_owner wa_permissions wa_times wa_extended].
      by rewrite sapp_nil_r.
    + intros ([size owner perms times ext] & Hw & Hb & [F1 F2 F3 F4 F5] & ->).
      unfold wire_attrs in Hb. rewrite <- Hw in Hb. cbn [wa_size wa_owner wa_permissions wa_times wa_extended] in *.
      apply (inj (String.append (be32 flags))) in Hb as ->.
      rewrite wire_flags_word in Hw. cbn [wa_size wa_owner wa_permissions wa_times wa_extended] in Hw.
      pose proof (flag_word_spec (is_some size) (is_some owner) (is_some perms) (is_some times) (is_some ext))
        as (_ & _ & E1 & E2 & E3 & E4 & E5). rewrite <- Hw in E1, E2, E3, E4, E5.
      exists size, (wire_opt be64 size). eexists. split; [reflexivity|]. split; [by apply opt_wire_present|].
      exists owner, (wire_opt wire_pair owner). eexists. split; [reflexivity|]. split; [by apply opt_wire_present|].
      exists perms, (wire_opt be32 perms). eexists. split; [reflexivity|]. split; [by apply opt_wire_present|].
      exists (snd <$> times), (wire_opt wire_pair times). eexists. split; [reflexivity|].
      split; [exists times; split; [by apply opt_wire_present|done]|].
      exists ext, (wire_opt wire_extensions ext), "". rewrite sapp_nil_r. split; [done|].
      split; [by apply opt_wire_present|done].
Qed.

Lemma exact_attrs : exact parse_attrs attrs_wire.
Proof.
  unfold parse_attrs. eapply exact_iff; cycle 1.
  - apply (exact_bind _ _ u32_wire (fun flags v w => Z.land flags (Z.lxor known_flags u32_max) = 0 /\ parts_wire flags v w));
      [apply exact_u32|].
    intros flags ? [_ Hf]. destruct (Z.eqb_spec (Z.land flags (Z.lxor known_flags u32_max)) 0) as [E|E]; cbn [negb].
    + eapply exact_iff; [|by apply exact_parts]. intros v w'. tauto.
    + eapply exact_iff; [|apply exact_fail]. tauto.
  - intros v w. unfold attrs_wire, parts_wire. split.
    + intros (flags & w1 & w2 & -> & [-> Hf] & Hz & a & -> & -> & ? & ->). eauto.
    + intros (a & -> & Hfit & ->). exists (wire_flags a), (be32 (wire_flags a)).
      pose proof (flag_word_spec (is_some (wa_size a)) (is_some (wa_owner a)) (is_some (wa_permissions a))
        (is_some (wa_times a)) (is_some (wa_extended a))) as (Hu & Hz & _).
      rewrite <- wire_flags_word in Hu, Hz. eexists. split; [reflexivity|]. split; [done|].
      split; [done|]. by exists a.
Qed.

Definition entry_wire (v : NameEntry) (w : string) : Prop :=
  exists n, w = wire_name n /\ name_fits n /\ v = name_view n.

Lemma exact_entry : exact parse_name_entry entry_wire.
Proof.
  unfold parse_name_entry. eapply exact_iff; cycle 1.
  - eapply exact_bind; [apply exact_string|intros; eapply exact_skip; [apply exact_bytes|]].
    eapply exact_bind; [apply exact_attrs|intros; apply exact_ret].
  - intros v w. unfold entry_wire, wire_name, name_fits, name_view. split.
    + intros (f & ? & ? & -> & [[-> Hf] Hu] & l & ? & ? & -> & [-> Hl] & at_ & ? & ? & -> & (a & -> & Ha & ->) & -> & ->).
      exists (Build_WireName f l a). cbn [wn_filename wn_longname wn_attrs]. rewrite sapp_nil_r. done.
    + intros ([f l a] & -> & (Hf & Hu & Hl & Ha) & ->). cbn [wn_filename wn_longname wn_attrs] in *.
      eexists f, _, _. split; [reflexivity|]. split; [done|].
      eexists l, _, _. split; [reflexivity|]. split; [done|].
      exists (attrs_view a), (wire_attrs a), "". rewrite sapp_nil_r. split; [done|]. split; [by exists a|done].
Qed.

Lemma all_wire_view {A B} (f : A -> string) (P : A -> Prop) (view : A -> B) l w :
  all_wire (fun v w => exists n, w = f n /\ P n /\ v = view n) l w <->
  exists ns, w = sconcat (map f ns) /\ Forall P ns /\ l = map view ns.
Proof.
  revert w. induction l as [|x l IH]; intros w; cbn [all_wire].
  - split; [intros ->; by exists []|]. intros (ns & -> & _ & Hn). by destruct ns.
  - split.
    + intros (w1 & w2 & -> & (n & -> & Hn & ->) & Hl). apply IH in Hl as (ns & -> & Hns & ->).
      exists (n :: ns). cbn [map]. rewrite sconcat_cons. auto.
    + intros ([|n ns] & -> & Hns & Hl); [done|]. injection Hl as -> ->.
      apply Forall_cons in Hns as [Hn Hns]. cbn [map]. rewrite sconcat_cons.
      eexists _, _. split; [reflexivity|]. split; [by exists n|]. apply IH. eauto.
Qed.

Definition names_wire (v : list NameEntry) (w : string) : Prop :=
  exists ns, w = wire_names ns /\ Z.of_nat (length ns) <= FILE_MAX_LIST_ENTRIES + 2 /\
    Forall name_fits ns /\ v = map name_view ns.

Lemma exact_names :
  exact (let! count := cursor_u32 in
         if FILE_MAX_LIST_ENTRIES + 2 <? count then mfail "sftp_list_limit_exceeded"
         else repeat_parse (Z.to_nat count) parse_name_entry) names_wire.
Proof.
  eapply exact_iff; cycle 1.
  - apply (exact_bind _ _ u32_wire (fun n l w => n <= FILE_MAX_LIST_ENTRIES + 2 /\ length l = Z.to_nat n /\
      all_wire entry_wire l w)); [apply exact_u32|].
    intros n w _. destruct (_ <? n) eqn:E; bool_prop.
    + eapply exact_iff; [|apply exact_fail]. intros l v. split; [done|]. lia.
    + eapply exact_iff; [|apply exact_repeat, exact_entry]. intros l v. split; [|tauto]. intros []; done.
  - intros v w. unfold names_wire, wire_names. split.
    + intros (n & ? & ? & -> & [-> Hn] & Hmax & Hlen & Hl). apply all_wire_view in Hl as (ns & -> & Hns & ->).
      exists ns. rewrite length_map in Hlen. unfold in_u32 in Hn. rewrite Hlen, Z2Nat.id by lia. done.
    + intros (ns & -> & Hmax & Hns & ->). eexists _, _, _. split; [reflexivity|].
      split; [split; [reflexivity|]; unfold in_u32, u32_max, FILE_MAX_LIST_ENTRIES in *; lia|].
      split; [done|]. rewrite length_map. split; [lia|]. apply all_wire_view. eauto.
Qed.

Lemma parse_names_iff payload names :
  slen payload <= usize_max -> parse_names payload = Ok names <-> names_wire names payload.
Proof.
  intros Hl. rewrite <- (exact_payload _ _ _ _ Hl exact_names).
  unfold parse_names, on_payload, parse_names_cursor, mbind, mret.
  destruct (cursor_u32 _) as [[n|?] c1]; [|done]. destruct (_ <? n); [done|].
  destruct (repeat_parse _ _ c1) as [[?|?] c2]; done.
Qed.

Lemma attrs_cursor_iff payload attrs :
  slen payload <= usize_max -> on_payload attrs_cursor payload = Ok attrs <-> attrs_wire attrs payload.
Proof. intros Hl. by rewrite <- (exact_payload _ _ _ _ Hl exact_attrs). Qed.

Lemma data_cursor_iff payload data :
  slen payload <= usize_max -> on_payload data_cursor payload = Ok data <-> field_wire data payload.
Proof. intros Hl. by rewrite <- (exact_payload _ _ _ _ Hl exact_bytes). Qed.
