(* ===== verification/SftpTrace.v ===== *)
(** * Requests and their traces on the wire

    The requests a client can send, as a reference encoding; every primitive
    of the client is one exchange of a request for a reply.  [adds] relates
    two client states by the packets exchanged between them. *)

From Stdlib Require Import Ascii String.
From S2P Require Import Prelude Crypto Text Bytes Loops Files Sftp SftpWire.

(** ** Requests *)

Inductive Request :=
  | Realpath (path : string)
  | Stat (path : string)
  | Lstat (path : string)
  | Opendir (path : string)
  | Readdir (handle : string)
  | OpenRead (path : string)
  | OpenWrite (path : string) (permissions : Z)
  | Read (handle : string) (offset : Z)
  | Write (handle : string) (offset : Z) (data : string)
  | Close (handle : string)
  | Fsync (handle : string)
  | Rename (source target : string)
  | Remove (path : string).

Definition request_kind (r : Request) : Z :=
  match r with
  | Realpath _ => 16 | Stat _ => 17 | Lstat _ => 7 | Opendir _ => 11 | Readdir _ => 12
  | OpenRead _ | OpenWrite _ _ => 3 | Read _ _ => 5 | Write _ _ _ => 6 | Close _ => 4
  | Fsync _ | Rename _ _ => 200 | Remove _ => 13
  end.

(** The fields after the request id.  Open flags are READ, or WRITE, CREAT and
    EXCL with the permission attribute. *)
Definition request_fields (r : Request) : string :=
  match r with
  | Realpath p | Stat p | Lstat p | Opendir p | Remove p => field p
  | Readdir h | Close h => field h
  | OpenRead p => field p +:+ be32 1 +:+ be32 0
  | OpenWrite p m => field p +:+ be32 42 +:+ be32 4 +:+ be32 m
  | Read h off => field h +:+ be64 off +:+ be32 32768
  | Write h off d => field h +:+ be64 off +:+ field d
  | Fsync h => field "fsync@openssh.com" +:+ field h
  | Rename a b => field "posix-rename@openssh.com" +:+ field a +:+ field b
  end.

Definition sent (id : Z) (r : Request) : Wire := Sent (request_kind r) (be32 id +:+ request_fields r).

Lemma push_bytes_ok p v w : push_bytes p v = Ok w -> w = p +:+ field v.
Proof. unfold push_bytes. destruct (_ <? _); [done|]. by intros [= <-]. Qed.

(** ** Errors

    A handler is regular when it cannot return the loop-bound error, nor the
    error that stands for the server's report that a file does not exist. *)

Definition NOT_FOUND : string := "not_found".

Definition ordinary {A} (r : result string A) : Prop := r <> Err LOOP_BOUND /\ r <> Err NOT_FOUND.
Definition regular {S A} (m : M S string A) : Prop := forall s, ordinary (m s).1.

Lemma ordinary_ok {A} (a : A) : ordinary (Ok a).
Proof. by split. Qed.

Lemma ordinary_err {A} e : e <> LOOP_BOUND -> e <> NOT_FOUND -> ordinary (Err e : result string A).
Proof. intros H1 H2. split; congruence. Qed.

Lemma ordinary_ends {A} (r : result string A) : ordinary r -> r <> Err LOOP_BOUND.
Proof. by intros []. Qed.

(** The same error, of another type. *)
Lemma ordinary_cast {A B} e : ordinary (Err e : result string A) -> ordinary (Err e : result string B).
Proof. intros [H1 H2]. split; congruence. Qed.

Ltac ordinary := first [by apply ordinary_ok | apply ordinary_err; discriminate].

Lemma regular_ret {S A} (a : A) : regular (mret a : M S string A).
Proof. intros s. ordinary. Qed.

Lemma regular_get {S A} (f : S -> A) : regular (mget f : M S string A).
Proof. intros s. ordinary. Qed.

Lemma regular_upd {S} (f : S -> S) : regular (mupd f : M S string unit).
Proof. intros s. ordinary. Qed.

Lemma regular_fail {S A} e : e <> LOOP_BOUND -> e <> NOT_FOUND -> regular (mfail e : M S string A).
Proof. intros H1 H2 s. by apply ordinary_err. Qed.

Lemma regular_lift {S A} (r : result string A) : ordinary r -> regular (mlift r : M S string A).
Proof. intros Hr s. done. Qed.

Lemma regular_bind {S A B} (m : M S string A) (k : A -> M S string B) :
  regular m -> (forall a, regular (k a)) -> regular (mbind m k).
Proof.
  intros Hm Hk s. unfold mbind. specialize (Hm s). destruct (m s) as [[a|e] s']; [apply Hk|].
  by eapply ordinary_cast.
Qed.

Lemma regular_try {S A B} (m : M S string A) (k : result string A -> M S string B) :
  (forall r, regular (k r)) -> regular (mtry m k).
Proof. intros Hk s. unfold mtry. destruct (m s) as [r s']. apply Hk. Qed.

Lemma regular_take n : regular (take_bytes n).
Proof. intros c. unfold take_bytes. repeat case_match; ordinary. Qed.

Lemma regular_finish : regular cursor_finish.
Proof. intros c. unfold cursor_finish. case_match; ordinary. Qed.

Lemma regular_awaited `{Peer} {A} (call : peer -> result IoFault A * peer) failed :
  failed <> LOOP_BOUND -> failed <> NOT_FOUND -> regular (awaited call failed).
Proof. intros H1 H2 s. unfold awaited. destruct (call _) as [[?|[]] ?]; cbn; [ordinary|ordinary|by apply ordinary_err]. Qed.

Lemma status_error_regular status : status_error status <> LOOP_BOUND.
Proof. unfold status_error. by repeat case_match. Qed.

Lemma push_bytes_regular p v : ordinary (push_bytes p v).
Proof. unfold push_bytes. case_match; ordinary. Qed.

Create HintDb regular.
#[export] Hint Resolve regular_ret regular_get regular_upd regular_fail regular_lift regular_bind
  regular_try regular_take regular_finish regular_awaited status_error_regular push_bytes_regular : regular.
#[export] Hint Resolve ordinary_ok ordinary_ends : regular.
#[export] Hint Extern 1 (_ <> LOOP_BOUND) => discriminate : regular.
#[export] Hint Extern 1 (_ <> NOT_FOUND) => discriminate : regular.

(** Decompose a handler by its constructs. *)
Ltac regular_step :=
  lazymatch goal with
  | |- regular (mbind _ _) => apply regular_bind; [|intros]
  | |- regular (mtry _ _) => apply regular_try; intros
  | |- regular (match ?x with _ => _ end) => destruct x
  | |- regular (let (_, _) := ?x in _) => destruct x
  | |- forall _, _ => intros
  | |- _ => solve [eauto with regular]
  end.
Ltac regular := repeat regular_step.

Lemma on_payload_regular {A} (p : CM A) payload : regular p -> ordinary (on_payload p payload).
Proof. intros Hp. apply Hp. Qed.

Lemma regular_u32 : regular cursor_u32.
Proof. unfold cursor_u32. regular. Qed.

Lemma regular_u64 : regular cursor_u64.
Proof. unfold cursor_u64. regular. Qed.

#[export] Hint Resolve regular_u32 regular_u64 on_payload_regular : regular.

Lemma regular_bytes : regular cursor_bytes.
Proof. unfold cursor_bytes. regular. Qed.

#[export] Hint Resolve regular_bytes : regular.

Lemma regular_string : regular cursor_string.
Proof. unfold cursor_string, from_utf8. apply regular_bind; [regular|]. intros a s. destruct (utf8_valid a); ordinary. Qed.

Lemma regular_repeat {A} n (p : CM A) : regular p -> regular (repeat_parse n p).
Proof. intros Hp. induction n as [|n IH]; cbn [repeat_parse]; regular. Qed.

#[export] Hint Resolve regular_string regular_repeat : regular.

Lemma regular_extended_pair : regular parse_extended_pair.
Proof. unfold parse_extended_pair. regular. Qed.

#[export] Hint Resolve regular_extended_pair : regular.

Lemma regular_attrs : regular parse_attrs.
Proof. unfold parse_attrs. regular. Qed.

#[export] Hint Resolve regular_attrs : regular.

Lemma regular_name_entry : regular parse_name_entry.
Proof. unfold parse_name_entry. regular. Qed.

#[export] Hint Resolve regular_name_entry : regular.

Lemma parse_status_regular payload : ordinary (parse_status payload).
Proof. apply on_payload_regular. unfold parse_status_cursor. regular. Qed.

Lemma parse_names_regular payload : ordinary (parse_names payload).
Proof. apply on_payload_regular. unfold parse_names_cursor. regular. Qed.

Lemma regular_attrs_cursor : regular attrs_cursor.
Proof. unfold attrs_cursor. regular. Qed.

Lemma regular_handle_cursor : regular handle_cursor.
Proof. unfold handle_cursor. regular. Qed.

Lemma regular_data_cursor : regular data_cursor.
Proof. unfold data_cursor. regular. Qed.

#[export] Hint Resolve parse_status_regular parse_names_regular regular_attrs_cursor regular_handle_cursor
  regular_data_cursor : regular.

Lemma wp_regular {S A} (m : M S string A) s : regular m -> wp m (fun r _ => ordinary r) s.
Proof. intros Hm. apply Hm. Qed.

Lemma regular_request_id `{Peer} : regular request_id.
Proof. unfold request_id. regular. Qed.

Lemma regular_send_packet `{Peer} kind payload : regular (send_packet kind payload).
Proof. unfold send_packet. regular. Qed.

Lemma regular_read_packet `{Peer} : regular read_packet.
Proof. unfold read_packet. regular. Qed.

#[export] Hint Resolve regular_request_id regular_send_packet regular_read_packet : regular.

Lemma regular_response `{Peer} id : regular (response id).
Proof.
  unfold response. apply regular_bind; [regular|]. intros pk s.
  pose proof (regular_u32 (cursor_new (pk_payload pk))) as Hu.
  destruct (cursor_u32 _) as [[id'|e] c]; [destruct (negb _); ordinary|]. by eapply ordinary_cast.
Qed.

#[export] Hint Resolve regular_response : regular.

(** ** Exchanges *)

Section Trace.
Context `{PE : Peer} `{SH : Sha256} `{UN : Unicode}.

(** The packets exchanged from [s] to [s'], newest first. *)
Record adds (seg : list Wire) (s s' : SftpProtocol) : Prop := {
  adds_wire : sp_wire s' = seg ++ sp_wire s;
  adds_home : sp_home s' = sp_home s;
  adds_fsync : sp_supports_fsync s' = sp_supports_fsync s;
  adds_rename : sp_supports_posix_rename s' = sp_supports_posix_rename s;
  adds_ids : sp_next_request_id s <= sp_next_request_id s';
}.

Lemma adds_refl s : adds [] s s.
Proof. split; done. Qed.

Lemma adds_trans a b s1 s2 s3 : adds a s1 s2 -> adds b s2 s3 -> adds (b ++ a) s1 s3.
Proof.
  intros [Hw1 Hh1 Hf1 Hr1 Hi1] [Hw2 Hh2 Hf2 Hr2 Hi2]. split; try congruence; [|lia].
  by rewrite Hw2, Hw1, app_assoc.
Qed.

Lemma awaited_spec {A} (call : peer -> result IoFault A * peer) failed s :
  wp (awaited call failed)
     (fun r s' => adds [] s s' /\ sp_next_request_id s' = sp_next_request_id s /\
        forall a, r = Ok a -> exists p p', call p = (Ok a, p')) s.
Proof.
  unfold wp, awaited. destruct (call (sp_peer s)) as [[a|[]] p] eqn:E; cbn;
    (split; [split; done|]); (split; [done|]); naive_solver.
Qed.

Lemma send_packet_spec kind payload s :
  wp (send_packet kind payload)
     (fun r s' => exists seg, adds seg s s' /\ sp_next_request_id s' = sp_next_request_id s /\
        (seg = [Sent kind payload] \/ (seg = [] /\ is_err r = true /\ PACKET_MAX_BYTES < slen payload + 1))) s.
Proof.
  unfold send_packet. destruct (u32_max <? _) eqn:E1; bool_prop.
  { exists []. split; [apply adds_refl|]. split; [done|]. right. split_and!; [done|done|]. unfold u32_max, PACKET_MAX_BYTES in *. lia. }
  destruct (_ <? _) eqn:E2; bool_prop; [by exists []; auto 10 using adds_refl|].
  wp_step. wp_step. set (s1 := note _ s).
  assert (adds [Sent kind payload] s s1) as H1 by (split; done).
  eapply wp_seq; [apply awaited_spec| |].
  - intros _ s2 (H2 & Hn2 & _). eapply wp_mono; [apply awaited_spec|]. intros r s3 (H3 & Hn3 & _).
    exists [Sent kind payload]. split; [apply (adds_trans _ [] _ _ _ (adds_trans _ [] _ _ _ H1 H2) H3)|].
    split; [by rewrite Hn3, Hn2|auto].
  - intros e s2 (H2 & Hn2 & _). exists [Sent kind payload].
    split; [apply (adds_trans _ [] _ _ _ H1 H2)|]. split; [by rewrite Hn2|auto].
Qed.

Definition received (seg : list Wire) : Prop := seg = [] \/ exists k p, seg = [Received k p].

Lemma read_packet_spec s :
  wp read_packet
     (fun r s' => exists seg, adds seg s s' /\ sp_next_request_id s' = sp_next_request_id s /\ received seg /\
        forall pk, r = Ok pk -> seg = [Received (pk_kind pk) (pk_payload pk)] /\
          slen (pk_payload pk) < PACKET_MAX_BYTES) s.
Proof.
  unfold read_packet. eapply wp_seq; [apply awaited_spec| |].
  2: { intros e s1 (H1 & Hn1 & _). exists []. split; [done|]. split; [done|]. split; [by left|done]. }
  intros lb s1 (H1 & Hn1 & _). destruct (negb _) eqn:E.
  { exists []. split; [done|]. split; [done|]. split; [by left|done]. }
  apply negb_false_iff, andb_true_iff in E as [E1%Z.leb_le E2%Z.leb_le].
  eapply wp_seq; [apply awaited_spec| |].
  2: { intros e s2 (H2 & Hn2 & _). exists []. split; [apply (adds_trans [] [] _ _ _ H1 H2)|].
       split; [cbn; by rewrite Hn2|]. split; [by left|done]. }
  intros bytes s2 (H2 & Hn2 & Hlen). specialize (Hlen _ eq_refl) as (p & p' & Hlen).
  apply peer_read_exact_length in Hlen; [|lia]. pose proof (adds_trans [] [] _ _ _ H1 H2) as H12.
  destruct bytes as [|c payload].
  { exists []. split; [done|]. split; [cbn; by rewrite Hn2|]. split; [by left|done]. }
  rewrite slen_cons in Hlen. wp_steps. exists [Received (code c) payload].
  split; [apply (adds_trans [] [_] _ _ _ H12); split; done|]. split; [cbn; by rewrite Hn2|].
  split; [right; eauto|]. intros pk [= <-]. cbn. split; [done|lia].
Qed.

Lemma request_id_spec s :
  wp request_id
     (fun r s' => adds [] s s' /\
        match r with
        | Ok id => id = sp_next_request_id s /\ sp_next_request_id s' = id + 1 /\ id < u32_max
        | Err _ => sp_next_request_id s' = sp_next_request_id s /\ u32_max <= sp_next_request_id s
        end) s.
Proof.
  unfold request_id. wp_steps. destruct (_ <? _) eqn:E; bool_prop; wp_steps.
  - split; [apply adds_refl|]. split; [done|lia].
  - split; [split; cbn; done || lia|]. split; [done|]. split; [done|lia].
Qed.

(** The bytes behind the request id of a reply. *)
Lemma response_payload full id rest c :
  slen full <= usize_max -> cursor_u32 (cursor_new full) = (Ok id, c) -> rest = cursor_remaining c ->
  full = be32 id +:+ rest.
Proof.
  intros Hl Hc ->. destruct (exact_sound _ _ exact_u32 _ _ _ _ (ahead_new _ Hl) Hc)
    as (w & r' & -> & [-> _] & _ & _ & ->). done.
Qed.

Lemma response_spec id s :
  wp (response id)
     (fun r s' => exists seg, adds seg s s' /\ sp_next_request_id s' = sp_next_request_id s /\ received seg /\
        forall pk, r = Ok pk -> seg = [Received (pk_kind pk) (be32 id +:+ pk_payload pk)] /\
          slen (pk_payload pk) < PACKET_MAX_BYTES) s.
Proof.
  unfold response. eapply wp_seq; [apply read_packet_spec| |].
  2: { intros e s1 (seg & Ha & Hn & Hr & _). exists seg. done. }
  intros pk s1 (seg & Ha & Hn & Hr & Hok). destruct (Hok _ eq_refl) as [-> Hlen].
  destruct (cursor_u32 _) as [[id'|e] c] eqn:Ec; [|exists [Received (pk_kind pk) (pk_payload pk)]; done].
  destruct (Z.eqb_spec id' id) as [->|]; cbn [negb]; wp_steps;
    (eexists; split; [exact Ha|]; split; [done|]; split; [done|]); [|done].
  intros pk' [= <-]. cbn [pk_kind pk_payload].
  assert (pk_payload pk = be32 id +:+ cursor_remaining c) as Hp.
  { eapply response_payload; [|exact Ec|done]. unfold PACKET_MAX_BYTES, usize_max in *. lia. }
  split; [by rewrite <- Hp|]. rewrite Hp, slen_app, slen_be32 in Hlen. lia.
Qed.

(** ** Requests of a trace

    [requests P lo hi seg]: every packet sent in [seg] is a request that
    satisfies [P], and their ids are strictly increasing in [lo, hi). *)
Inductive requests (P : Request -> Prop) : Z -> Z -> list Wire -> Prop :=
  | requests_nil lo hi : lo <= hi -> requests P lo hi []
  | requests_received lo hi k p seg : requests P lo hi seg -> requests P lo hi (Received k p :: seg)
  | requests_sent lo id hi r seg :
      requests P lo id seg -> id < hi -> P r -> requests P lo hi (sent id r :: seg).

Lemma requests_range P lo hi seg : requests P lo hi seg -> lo <= hi.
Proof. induction 1; lia. Qed.

Lemma requests_weaken (P P' : Request -> Prop) lo hi hi' seg :
  requests P lo hi seg -> hi <= hi' -> (forall r, P r -> P' r) -> requests P' lo hi' seg.
Proof.
  intros Hr Hh HP. revert hi' Hh. induction Hr as [lo hi Hle|lo hi k p seg Hr IH|lo id hi r seg Hr IH Hid Hp];
    intros hi' Hh; constructor; auto with lia.
Qed.

Lemma requests_app P lo mid hi a b :
  requests P lo mid a -> requests P mid hi b -> requests P lo hi (b ++ a).
Proof.
  intros Ha Hb. induction Hb as [mid hi Hle|mid hi k p seg Hr IH|mid id hi r seg Hr IH Hid Hp]; cbn.
  - by apply (requests_weaken P P lo mid).
  - constructor. auto.
  - constructor; auto.
Qed.

Lemma requests_elem P lo hi seg k p :
  requests P lo hi seg -> Sent k p ∈ seg -> exists id r, Sent k p = sent id r /\ P r /\ lo <= id < hi.
Proof.
  intros Hr. revert k p. induction Hr as [|lo hi k' p' seg Hr IH|lo id hi r seg Hr IH Hid Hp]; intros k p He.
  - by apply elem_of_nil in He.
  - apply elem_of_cons in He as [He|He]; [done|eauto].
  - apply elem_of_cons in He as [He|He].
    + exists id, r. apply requests_range in Hr. auto with lia.
    + destruct (IH _ _ He) as (id' & r' & ? & ? & ?). exists id', r'. split; [done|]. split; [done|]. lia.
Qed.

Definition grown (P : Request -> Prop) (s s' : SftpProtocol) : Prop :=
  exists seg, adds seg s s' /\ requests P (sp_next_request_id s) (sp_next_request_id s') seg.

Lemma grown_refl P s : grown P s s.
Proof. exists []. split; [apply adds_refl|]. by constructor. Qed.

Lemma grown_trans P s1 s2 s3 : grown P s1 s2 -> grown P s2 s3 -> grown P s1 s3.
Proof.
  intros (a & Ha & Hra) (b & Hb & Hrb). exists (b ++ a). split; [by eapply adds_trans|].
  by eapply requests_app.
Qed.

Lemma grown_weaken (P P' : Request -> Prop) s s' : (forall r, P r -> P' r) -> grown P s s' -> grown P' s s'.
Proof. intros HP (a & Ha & Hra). exists a. split; [done|]. by eapply requests_weaken. Qed.

Lemma grown_quiet P s s' : adds [] s s' -> grown P s s'.
Proof. intros Ha. exists []. split; [done|]. constructor. apply Ha. Qed.

(** A request answered by a reply with its id. *)
Definition replied (r : Request) (pk : Packet) (s s' : SftpProtocol) : Prop :=
  exists id, adds [Received (pk_kind pk) (be32 id +:+ pk_payload pk); sent id r] s s' /\
    sp_next_request_id s <= id < sp_next_request_id s' /\ id < u32_max /\
    slen (pk_payload pk) < PACKET_MAX_BYTES.

Lemma replied_grown (P : Request -> Prop) r pk s s' : P r -> replied r pk s s' -> grown P s s'.
Proof.
  intros HP (id & Ha & Hid & _ & _). eexists. split; [exact Ha|]. apply requests_received.
  apply requests_sent; [|lia|done]. constructor. lia.
Qed.

(** At most one copy of a request, and then at most one reply. *)
Definition once (r : Request) (seg : list Wire) : Prop :=
  seg = [] \/ exists id recv, received recv /\ seg = recv ++ [sent id r].

Definition attempted (r : Request) (s s' : SftpProtocol) : Prop :=
  exists seg, adds seg s s' /\ once r seg /\
    requests (eq r) (sp_next_request_id s) (sp_next_request_id s') seg.

Lemma attempted_grown (P : Request -> Prop) r s s' : P r -> attempted r s s' -> grown P s s'.
Proof.
  intros HP (seg & Ha & _ & Hr). exists seg. split; [done|].
  eapply requests_weaken; [exact Hr|done|]. by intros ? <-.
Qed.

Lemma attempted_quiet r s s' : adds [] s s' -> attempted r s s'.
Proof. intros Ha. exists []. split; [done|]. split; [by left|]. constructor. apply Ha. Qed.

Lemma replied_attempted r pk s s' : replied r pk s s' -> attempted r s s'.
Proof.
  intros Hr. pose proof (replied_grown (eq r) _ _ _ _ eq_refl Hr) as _. destruct Hr as (id & Ha & Hid & _ & _).
  eexists. split; [exact Ha|]. split.
  - right. exists id, [Received (pk_kind pk) (be32 id +:+ pk_payload pk)]. split; [right; eauto|done].
  - apply requests_received. apply requests_sent; [|lia|done]. constructor. lia.
Qed.

(** The common shape of the primitives: id, payload, send, reply.  Either way
    at most this one request is sent. *)
Lemma wp_exchange {B} r knd fields (f : string -> string) (k : Packet -> SM B) Q s :
  knd = request_kind r ->
  (forall p w, fields p = Ok w -> f w = p +:+ request_fields r) ->
  (forall p, ordinary (fields p)) ->
  (forall pk s', replied r pk s s' -> wp (k pk) Q s') ->
  (forall e s', attempted r s s' -> ordinary (Err e : result string B) -> Q (Err e) s') ->
  wp (let! id := request_id in
      let! payload := request_payload id fields in
      let! _ := send_packet knd (f payload) in
      let! pk := response id in k pk) Q s.
Proof.
  intros -> Hf Hreg Hok Herr.
  eapply wp_seq; [apply wp_and; [apply request_id_spec|apply wp_regular; regular]| |].
  2: { intros e s1 [[Ha _] He]. apply Herr; [apply attempted_quiet, Ha|by eapply ordinary_cast]. }
  intros id s1 [[Ha1 (-> & Hn1 & Hid)] _]. wp_step. unfold request_payload. wp_step.
  destruct (fields _) as [w|e] eqn:Ew;
    [|apply Herr; [apply attempted_quiet, Ha1|specialize (Hreg (be32 (sp_next_request_id s))); rewrite Ew in Hreg; by eapply ordinary_cast]].
  specialize (Hf _ _ Ew).
  eapply wp_seq; [apply wp_and; [apply send_packet_spec|apply wp_regular; regular]| |].
  - intros [] s2 [(seg & Ha2 & Hn2 & [->|(_ & Hbad & _)]) _]; [|done]. rewrite Hf in Ha2.
    pose proof (adds_trans _ [_] _ _ _ Ha1 Ha2) as Ha12. cbn in Ha12.
    eapply wp_seq; [apply wp_and; [apply response_spec|apply wp_regular; regular]| |].
    + intros pk s3 [(seg & Ha3 & Hn3 & _ & Hpk) _]. destruct (Hpk _ eq_refl) as [-> Hlen]. apply Hok.
      exists (sp_next_request_id s). split; [apply (adds_trans _ [_] _ _ _ Ha12 Ha3)|]. split; [lia|]. split; [lia|done].
    + intros e s3 [(seg & Ha3 & Hn3 & Hseg & _) He]. apply Herr; [|by eapply ordinary_cast]. eexists.
      split; [apply (adds_trans _ _ _ _ _ Ha12 Ha3)|].
      assert (requests (eq r) (sp_next_request_id s) (sp_next_request_id s3) [sent (sp_next_request_id s) r]) as Hr.
      { apply requests_sent; [by constructor|lia|done]. }
      split; [right; by exists (sp_next_request_id s), seg|].
      destruct Hseg as [->|(k' & p' & ->)]; [done|]. by apply requests_received.
  - intros e s2 [(seg & Ha2 & Hn2 & Hseg) He]. apply Herr; [|by eapply ordinary_cast]. eexists.
    split; [apply (adds_trans _ _ _ _ _ Ha1 Ha2)|]. rewrite app_nil_r, Hf in *.
    destruct Hseg as [->|(-> & _)]; [|split; [by left|constructor; lia]]. split.
    + right. exists (sp_next_request_id s), []. split; [by left|done].
    + apply requests_sent; [by constructor|lia|done].
Qed.

(** A request that is not sent has no id left, cannot be built or is too long. *)
Lemma exchange_sent {B} r knd fields (f : string -> string) (k : Packet -> SM B) s :
  knd = request_kind r ->
  (forall p w, fields p = Ok w -> f w = p +:+ request_fields r) ->
  (forall pk s, (k pk s).2 = s) ->
  wp (let! id := request_id in
      let! payload := request_payload id fields in
      let! _ := send_packet knd (f payload) in
      let! pk := response id in k pk)
    (fun _ s' => exists seg, adds seg s s' /\ once r seg /\
       (seg = [] -> u32_max <= sp_next_request_id s \/ (exists p, is_err (fields p) = true) \/
                    PACKET_MAX_BYTES < slen (be32 0 +:+ request_fields r) + 1)) s.
Proof.
  intros -> Hf Hpure. eapply wp_seq; [apply request_id_spec| |].
  2: { intros e s1 [Ha [_ Hid]]. exists []. split; [done|]. split; [by left|]. auto. }
  intros id s1 [Ha1 (-> & Hn1 & Hid)]. wp_step. unfold request_payload. wp_step.
  destruct (fields _) as [w|e] eqn:Ew.
  2: { exists []. split; [done|]. split; [by left|]. intros _. right. left. exists (be32 (sp_next_request_id s)). by rewrite Ew. }
  specialize (Hf _ _ Ew). eapply wp_seq; [apply send_packet_spec| |]; rewrite Hf.
  - intros [] s2 (seg & Ha2 & _ & [->|(_ & Hbad & _)]); [|done]. pose proof (adds_trans _ [_] _ _ _ Ha1 Ha2) as Ha12.
    assert (forall seg s3, adds seg s2 s3 -> received seg -> exists new, adds new s s3 /\ once r new /\ (new = [] ->
      u32_max <= sp_next_request_id s \/ (exists p, is_err (fields p) = true) \/
      PACKET_MAX_BYTES < slen (be32 0 +:+ request_fields r) + 1)) as Hdone.
    { intros seg s3 Ha3 Hrecv. exists (seg ++ [sent (sp_next_request_id s) r]). split; [exact (adds_trans _ _ _ _ _ Ha12 Ha3)|].
      split; [right; by exists (sp_next_request_id s), seg|]. by destruct seg. }
    eapply wp_seq; [apply response_spec| |].
    + intros pk s3 (seg & Ha3 & _ & Hrecv & _). unfold wp. rewrite Hpure. by eapply Hdone.
    + intros e s3 (seg & Ha3 & _ & Hrecv & _). by eapply Hdone.
  - intros e s2 (seg & Ha2 & _ & [->|(-> & _ & Hbig)]).
    + exists [sent (sp_next_request_id s) r]. split; [exact (adds_trans _ [_] _ _ _ Ha1 Ha2)|].
      split; [right; exists (sp_next_request_id s), []; split; [by left|done]|done].
    + exists []. split; [exact (adds_trans _ [] _ _ _ Ha1 Ha2)|]. split; [by left|]. intros _. right. right.
      rewrite slen_app, slen_be32 in *. lia.
Qed.
End Trace.
