(* ===== verification/SftpClient.v ===== *)
(** * What the client's operations ask of the server

    [asks P R m]: whatever the server answers, [m] sends only requests that
    satisfy [P], with fresh increasing ids, ends by itself, and a result it
    returns satisfies [R].  Which paths may be named rests on what the server
    answered: [Knowledge] says which answers are trusted and for which runs the
    statement is made, all of them or those that lead to a given wire. *)

From Stdlib Require Import Ascii String.
From S2P Require Import Prelude Crypto Text Bytes Loops Files Sftp SftpWire SftpTrace.

(** ** Paths *)

(** A path at or below [home], as text. *)
Definition within (home path : string) : Prop := path = home \/ exists rest, path = home +:+ "/" +:+ rest.

(** A component that names an entry of a directory. *)
Definition plain_component (c : string) : Prop :=
  c <> ""%string /\ c <> "."%string /\ c <> ".."%string /\ slen c <= 255 /\ sany forbidden_byte c = false.
Definition plain_entry (name : string) : Prop := plain_component name /\ contains_char "/" name = false.

(** The home or a path below it, one plain component after the other. *)
Definition candidate (home path : string) : Prop :=
  path = home \/
  exists rest, path = home +:+ "/" +:+ rest /\ slen rest <= 1024 /\ Forall plain_component (ssplit "/" rest).

Lemma component_plain c : component_invalid c = false -> plain_component c.
Proof.
  unfold component_invalid, plain_component. intros Hc. bool_prop.
  unfold FILE_MAX_COMPONENT_BYTES in *. split_and!; try done; lia.
Qed.

Lemma validate_path_candidate home path : validate_file_path path = Ok tt ->
  candidate home (if bool_decide (path = ""%string) then home else home +:+ "/" +:+ path).
Proof.
  unfold validate_file_path. destruct (bool_decide (path = "")); [by left|]. intros Hv. right. exists path. split; [done|].
  destruct (starts_with _ _ || _) eqn:E1; [done|]. destruct (existsb _ _) eqn:E2; [done|].
  apply orb_false_iff in E1 as [_ E1]. unfold FILE_MAX_PATH_BYTES in E1. split; [lia|].
  apply Forall_forall. intros c Hc. apply component_plain. destruct (component_invalid c) eqn:Ei; [|done].
  assert (existsb component_invalid (ssplit "/" path) = true) as Hx; [|congruence].
  apply existsb_exists. exists c. split; [by apply list_elem_of_In|done].
Qed.

Lemma validate_name_plain name : validate_entry_name name = Ok tt -> plain_entry name.
Proof.
  unfold validate_entry_name, plain_entry, plain_component. destruct (_ || _) eqn:E; [done|]. intros _. bool_prop.
  unfold FILE_MAX_COMPONENT_BYTES in *. split_and!; try done; lia.
Qed.

(** ** What is known of the server *)

(** A single name the server gave for a path, in two adjacent packets. *)
Definition answered (wire : list Wire) (path canonical : string) : Prop :=
  exists newer older id payload entry,
    wire = newer ++ Received SSH_FXP_NAME (be32 id +:+ payload) :: sent id (Realpath path) :: older /\
    parse_names payload = Ok [entry] /\ ne_filename entry = canonical.

Lemma answered_grows newer wire path canonical : answered wire path canonical -> answered (newer ++ wire) path canonical.
Proof.
  intros (n & older & id & payload & entry & -> & Hp & He). exists (newer ++ n), older, id, payload, entry.
  by rewrite <- app_assoc.
Qed.

(** The runs a statement is about, by the wire they end with, and the
    canonical paths those runs may use. *)
Class Knowledge (home : string) := {
  guard : list Wire -> Prop;
  guard_older : forall newer older, guard (newer ++ older) -> guard older;
  trusted : string -> Prop;
  trusted_within : forall path, trusted path -> within home path;
  trusted_answer : forall wire path canonical,
    guard wire -> candidate home path -> answered wire path canonical -> within home canonical -> trusted canonical;
}.
Arguments trusted home {_} _.

(** Every run; a path below the home. *)
#[refine] Definition textual (home : string) : Knowledge home :=
  {| guard _ := True; trusted := within home |}.
Proof. all: done. Defined.

(** The runs that lead to a wire; a path below the home that the server gave
    on it, for the home or a proper path below. *)
#[refine] Definition witnessed (home : string) (ending : list Wire) : Knowledge home :=
  {| guard wire := wire `suffix_of` ending;
     trusted canonical := within home canonical /\
       exists path, candidate home path /\ answered ending path canonical |}.
Proof.
  - intros newer older [k ->]. exists (k ++ newer). by rewrite <- app_assoc.
  - by intros path [? _].
  - intros wire path canonical [k ->] Hc Ha Hw. split; [done|]. exists path. split; [done|]. by apply answered_grows.
Defined.

(** ** Programs that only add to the wire *)

Section Extending.
Context `{PE : Peer} `{SH : Sha256} `{UN : Unicode}.

Class Extends {A} (m : SM A) : Prop := extends : forall s, exists seg, sp_wire (m s).2 = seg ++ sp_wire s.

Lemma extends_pure {A} (m : SM A) : (forall s, (m s).2 = s) -> Extends m.
Proof. intros Hm s. exists []. by rewrite Hm. Qed.

Lemma extends_adds {A} (m : SM A) : (forall s, wp m (fun _ s' => exists seg, adds seg s s') s) -> Extends m.
Proof. intros Hm s. destruct (Hm s) as [seg Ha]. exists seg. apply Ha. Qed.

Lemma extends_bind {A B} (m : SM A) (k : A -> SM B) : Extends m -> (forall a, Extends (k a)) -> Extends (mbind m k).
Proof.
  intros Hm Hk s. unfold mbind. destruct (Hm s) as [seg1 H1]. destruct (m s) as [[a|e] s1]; [|by exists seg1].
  destruct (Hk a s1) as [seg2 H2]. exists (seg2 ++ seg1). cbn in *. by rewrite H2, H1, app_assoc.
Qed.

Lemma extends_try {A B} (m : SM A) (k : result string A -> SM B) :
  Extends m -> (forall r, Extends (k r)) -> Extends (mtry m k).
Proof.
  intros Hm Hk s. unfold mtry. destruct (Hm s) as [seg1 H1]. destruct (m s) as [r s1].
  destruct (Hk r s1) as [seg2 H2]. exists (seg2 ++ seg1). cbn in *. by rewrite H2, H1, app_assoc.
Qed.

Lemma extends_request_id : Extends request_id.
Proof. apply extends_adds. intros s. eapply wp_mono; [apply request_id_spec|]. intros r s' [Ha _]. eauto. Qed.

Lemma extends_send kind payload : Extends (send_packet kind payload).
Proof. apply extends_adds. intros s. eapply wp_mono; [apply send_packet_spec|]. intros r s' (seg & Ha & _). eauto. Qed.

Lemma extends_response id : Extends (response id).
Proof. apply extends_adds. intros s. eapply wp_mono; [apply response_spec|]. intros r s' (seg & Ha & _). eauto. Qed.

Lemma extends_loop {L A} p (step : L -> SM (L + A)) l : (forall l, Extends (step l)) -> Extends (mloop p step l).
Proof.
  intros Hs. revert l. induction p as [p IH|p IH|]; intros l; cbn [mloop]; [| |apply Hs].
  - apply extends_bind; [apply Hs|]. intros [l'|x]; [|by apply extends_pure].
    apply extends_bind; [apply IH|]. intros [l''|x]; [apply IH|by apply extends_pure].
  - apply extends_bind; [apply IH|]. intros [l'|x]; [apply IH|by apply extends_pure].
Qed.
End Extending.

Create HintDb extends.
#[export] Hint Resolve extends_request_id extends_send extends_response extends_loop : extends.

Ltac extends_step :=
  lazymatch goal with
  | |- forall _, _ => intros
  | |- Extends (mbind _ _) => apply extends_bind
  | |- Extends (mtry _ _) => apply extends_try
  | |- Extends (match ?x with _ => _ end) => destruct x
  | |- Extends (let _ := _ in _) => cbv zeta
  | |- Extends (mret _) => by apply extends_pure
  | |- Extends (mfail _) => by apply extends_pure
  | |- Extends (mlift _) => by apply extends_pure
  | |- Extends (mget _) => by apply extends_pure
  | |- _ => solve [eauto with extends]
  end.
Ltac extends_tac := repeat extends_step.
#[export] Hint Extern 0 (Extends _) => solve [extends_tac] : typeclass_instances.

Section Programs.
Context `{PE : Peer} `{SH : Sha256} `{UN : Unicode}.

Lemma extends_payload id f : Extends (request_payload id f).
Proof. by apply extends_pure. Qed.
Hint Resolve extends_payload : extends.

Lemma extends_handle id : Extends (handle_response id).
Proof. unfold handle_response. extends_tac. Qed.
Lemma extends_ok id fallback : Extends (require_ok_status id fallback).
Proof. unfold require_ok_status. extends_tac. Qed.
Hint Resolve extends_handle extends_ok : extends.

Lemma extends_realpath path : Extends (realpath_raw path).
Proof. unfold realpath_raw. extends_tac. Qed.
Lemma extends_attrs kind path : Extends (attrs_request kind path).
Proof. unfold attrs_request. extends_tac. Qed.
Lemma extends_opendir path : Extends (open_directory path).
Proof. unfold open_directory. extends_tac. Qed.
Lemma extends_open_read path : Extends (open_read path).
Proof. unfold open_read. extends_tac. Qed.
Lemma extends_open_write path permissions : Extends (open_write_exclusive path permissions).
Proof. unfold open_write_exclusive. extends_tac. Qed.
Lemma extends_fsync handle : Extends (fsync_handle handle).
Proof. unfold fsync_handle. extends_tac. Qed.
Lemma extends_close handle : Extends (close_handle handle).
Proof. unfold close_handle. extends_tac. Qed.
Lemma extends_rename source target : Extends (posix_rename source target).
Proof. unfold posix_rename. extends_tac. Qed.
Lemma extends_remove path : Extends (remove_if_present path).
Proof. unfold remove_if_present. extends_tac. Qed.
Lemma extends_read_step handle n e l : Extends (read_step handle n e l).
Proof. unfold read_step. extends_tac. Qed.
Lemma extends_directory_step path handle l : Extends (directory_step path handle l).
Proof. unfold directory_step. extends_tac. Qed.
Hint Resolve extends_realpath extends_attrs extends_opendir extends_open_read extends_open_write extends_fsync
  extends_close extends_rename extends_remove extends_read_step extends_directory_step : extends.

Lemma extends_stat path : Extends (stat_raw path).
Proof. apply extends_attrs. Qed.
Lemma extends_lstat path : Extends (lstat_raw path).
Proof. apply extends_attrs. Qed.
Lemma extends_resolve path : Extends (resolve path).
Proof. unfold resolve. extends_tac. Qed.
Lemma extends_read_handle handle n e : Extends (read_handle handle n e).
Proof. unfold read_handle, bounded. extends_tac. Qed.
Lemma extends_read_directory path handle : Extends (read_directory path handle).
Proof. unfold read_directory, bounded. extends_tac. Qed.
Lemma extends_write_chunk handle offset chunk : Extends (write_chunk handle offset chunk).
Proof. unfold write_chunk. extends_tac. Qed.
Lemma extends_write_chunks handle offset pieces : Extends (write_chunks handle offset pieces).
Proof.
  revert offset. induction pieces as [|c cs IH]; intros offset; cbn [write_chunks]; [by apply extends_pure|].
  apply extends_bind; [apply extends_write_chunk|]. intros _. destruct (_ <? _); [by apply extends_pure|apply IH].
Qed.
Lemma extends_write handle bytes : Extends (write_handle handle bytes).
Proof. apply extends_write_chunks. Qed.
Lemma extends_cleanup {T} path reason : Extends (cleanup_temporary (T := T) path reason).
Proof. unfold cleanup_temporary. extends_tac. Qed.
Hint Resolve extends_stat extends_lstat extends_resolve extends_read_handle extends_read_directory extends_write
  extends_cleanup : extends.

Lemma extends_read_canonical path n e : Extends (read_canonical_file path n e).
Proof. unfold read_canonical_file. extends_tac. Qed.
Hint Resolve extends_read_canonical : extends.
Lemma extends_inspect_target attrs parent target : Extends (inspect_target attrs parent target).
Proof. unfold inspect_target. extends_tac. Qed.
Hint Resolve extends_inspect_target : extends.
Lemma extends_inspect path : Extends (inspect_upload_raw path).
Proof. unfold inspect_upload_raw. extends_tac. Qed.
Hint Resolve extends_inspect : extends.
Lemma extends_confirm path temporary bytes expected current renamed :
  Extends (confirm_upload path temporary bytes expected current renamed).
Proof. unfold confirm_upload. extends_tac. Qed.
End Programs.

#[export] Hint Resolve extends_payload extends_handle extends_ok extends_realpath extends_attrs extends_opendir
  extends_open_read extends_open_write extends_fsync extends_close extends_rename extends_remove extends_read_step
  extends_directory_step extends_stat extends_lstat extends_resolve extends_read_handle extends_read_directory
  extends_write_chunk extends_write_chunks extends_write extends_cleanup extends_read_canonical extends_inspect_target extends_inspect extends_confirm : extends.

(** ** Rules *)

Section Asks.
Context `{PE : Peer} `{SH : Sha256} `{UN : Unicode}.
Context (home : string).

Record ready (s : SftpProtocol) : Prop := {
  ready_home : sp_home s = home;
  ready_ids : 0 <= sp_next_request_id s;
}.

Definition asked {A} (P : Request -> Prop) (R : A -> Prop) (s : SftpProtocol)
    (r : result string A) (s' : SftpProtocol) : Prop :=
  grown P s s' /\ r <> Err LOOP_BOUND /\ forall a, r = Ok a -> R a.

Lemma grown_ready P s s' : grown P s s' -> ready s -> ready s'.
Proof. intros (seg & Ha & _) [Hh Hi]. destruct Ha. split; [congruence|lia]. Qed.

Context {KN : Knowledge home}.

Definition asks {A} (P : Request -> Prop) (R : A -> Prop) (m : SM A) : Prop :=
  forall s, ready s -> wp m (fun r s' => guard (sp_wire s') -> asked P R s r s') s.

(** A run goes on with what was known when it got here. *)
Lemma guarded_before {A} (m : SM A) `{!Extends m} s : guard (sp_wire (m s).2) -> guard (sp_wire s).
Proof. destruct (extends (m := m) s) as [seg ->]. apply guard_older. Qed.

Lemma asks_ret {A} P (R : A -> Prop) a : R a -> asks P R (mret a).
Proof. intros HR s Hs. wp_step. intros _. split; [apply grown_refl|]. split; [done|]. by intros ? [= <-]. Qed.

Lemma asks_fail {A} P (R : A -> Prop) e : e <> LOOP_BOUND -> asks P R (mfail e).
Proof. intros He s Hs. wp_step. intros _. split; [apply grown_refl|]. split; [by intros [= ?]|done]. Qed.

Lemma asks_lift {A} P (R : A -> Prop) r :
  r <> Err LOOP_BOUND -> (forall a, r = Ok a -> R a) -> asks P R (mlift r).
Proof. intros He HR s Hs. wp_step. intros _. split; [apply grown_refl|]. done. Qed.

Lemma asks_bind {A B} P (R1 : A -> Prop) (R : B -> Prop) m (k : A -> SM B) `{HE : !forall a, Extends (k a)} :
  asks P R1 m -> (forall a, R1 a -> asks P R (k a)) -> asks P R (mbind m k).
Proof.
  intros Hm Hk s Hs. eapply wp_seq; [by apply Hm| |].
  - intros a s1 Ha. unfold wp. intros Hg2. destruct (Ha (guarded_before (k a) s1 Hg2)) as (Hg & _ & HR).
    destruct (Hk a (HR _ eq_refl) s1 (grown_ready _ _ _ Hg Hs) Hg2) as (Hgr & Hr & HR2).
    split; [by eapply grown_trans|done].
  - intros e s1 Ha Hg. destruct (Ha Hg) as (Hgr & Hne & _). split; [done|]. split; [|done]. by intros [= ->].
Qed.

Lemma asks_try {A B} P (R1 : A -> Prop) (R : B -> Prop) m (k : result string A -> SM B) `{HE : !forall r, Extends (k r)} :
  asks P R1 m ->
  (forall r, r <> Err LOOP_BOUND -> (forall a, r = Ok a -> R1 a) -> asks P R (k r)) ->
  asks P R (mtry m k).
Proof.
  intros Hm Hk s Hs. eapply wp_try_seq; [by apply Hm|].
  intros r s1 Ha. unfold wp. intros Hg2. destruct (Ha (guarded_before (k r) s1 Hg2)) as (Hg & Hne & HR).
  destruct (Hk r Hne HR s1 (grown_ready _ _ _ Hg Hs) Hg2) as (Hgr & Hr & HR2).
  split; [by eapply grown_trans|done].
Qed.

Lemma asks_get {A B} P (R : B -> Prop) (f : SftpProtocol -> A) (k : A -> SM B) :
  (forall s, ready s -> asks P R (k (f s))) -> asks P R (mbind (mget f) k).
Proof. intros Hk s Hs. wp_steps. by apply Hk. Qed.

Lemma asks_weaken {A} (P P' : Request -> Prop) (R R' : A -> Prop) m :
  asks P R m -> (forall r, P r -> P' r) -> (forall a, R a -> R' a) -> asks P' R' m.
Proof.
  intros Hm HP HR s Hs. eapply wp_mono; [by apply Hm|].
  intros r s' Ha Hg. destruct (Ha Hg) as (Hgr & Hne & HA). split; [by eapply grown_weaken|]. split; [done|]. auto.
Qed.

(** An exchange followed by a local reading of the reply. *)
Lemma asks_exchange {A} (P : Request -> Prop) (R : A -> Prop) r knd fields (f : string -> string)
    (k : Packet -> SM A) :
  P r -> knd = request_kind r ->
  (forall p w, fields p = Ok w -> f w = p +:+ request_fields r) ->
  (forall p, ordinary (fields p)) ->
  (forall pk, asks P R (k pk)) ->
  asks P R (let! id := request_id in
            let! payload := request_payload id fields in
            let! _ := send_packet knd (f payload) in
            let! pk := response id in k pk).
Proof.
  intros HP Hk Hf Hreg HR s Hs. eapply wp_exchange; [done|done|done| |].
  - intros pk s' Hrep. assert (grown P s s') as Hg by by eapply replied_grown.
    eapply wp_mono; [apply (HR pk); by eapply grown_ready|].
    intros r' s2 Ha Hguard. destruct (Ha Hguard) as (Hg2 & Hr'). split; [by eapply grown_trans|done].
  - intros e s' Hg He _. split; [by eapply attempted_grown|]. split; [apply He|done].
Qed.
End Asks.

(** What holds of every run. *)
Lemma asks_always `{Peer} home {A} P (R : A -> Prop) m s :
  asks home (KN := textual home) P R m -> ready home s -> wp m (asked P R s) s.
Proof. intros Hm Hs. eapply wp_mono; [by apply Hm|]. intros r s' Ha. by apply Ha. Qed.

Lemma asks_any `{Peer} home {KN : Knowledge home} {A} P (R : A -> Prop) (m : SM A) :
  asks home (KN := textual home) P R m -> asks home P R m.
Proof. intros Hm s Hs. eapply wp_mono; [exact (asks_always home P R m s Hm Hs)|]. done. Qed.

Section Ids.
Context `{PE : Peer} `{SH : Sha256} `{UN : Unicode}.
Context (home : string).
#[local] Existing Instance textual.

Definition anything {A} (_ : A) : Prop := True.

Lemma exchange_ids {A} (P : Request -> Prop) (R : A -> Prop) r knd fields (f : string -> string)
    (k : Packet -> SM A) s x s' :
  knd = request_kind r ->
  (forall p w, fields p = Ok w -> f w = p +:+ request_fields r) ->
  (forall p, ordinary (fields p)) ->
  (forall pk, asks home P R (k pk)) -> ready home s ->
  (let! id := request_id in
   let! payload := request_payload id fields in
   let! _ := send_packet knd (f payload) in
   let! pk := response id in k pk) s = (Ok x, s') ->
  sp_next_request_id s < u32_max /\ sp_next_request_id s < sp_next_request_id s'.
Proof.
  intros Hk Hf Hreg HR Hs Hrun. eapply (wp_result _ (fun r s2 => r = Ok x ->
    sp_next_request_id s < u32_max /\ sp_next_request_id s < sp_next_request_id s2)); [|exact Hrun|done]. eapply wp_exchange; [done|done|done| |].
  - intros pk s1 (id & Ha & Hid & Hmax & _). pose proof (adds_ids _ _ _ Ha).
    eapply wp_mono; [eapply (asks_always home); [apply (HR pk)|]|].
    + destruct Hs as [Hh Hi]. destruct Ha. split; [congruence|lia].
    + intros r' s2 ((seg & Ha2 & _) & _) _. pose proof (adds_ids _ _ _ Ha2). lia.
  - intros e s1 _ _ [=].
Qed.
End Ids.

(** Sequencing, the continuation known to extend the wire. *)
Ltac asks_seq := eapply asks_bind; [solve [extends_tac]| |].
Tactic Notation "asks_seq_with" uconstr(R) := eapply (asks_bind _ _ R); [solve [extends_tac]| |].
Ltac asks_next := eapply asks_try; [solve [extends_tac]| |].

Ltac asks_tail :=
  repeat lazymatch goal with
  | |- asks _ _ _ (match ?x with _ => _ end) => destruct x eqn:?
  | |- asks _ _ _ (mbind (mlift _) _) =>
      asks_seq_with (fun _ => True);
        [apply asks_lift; [solve [eauto with regular]|done]|intros ? _]
  | |- asks _ _ _ (mret _) => apply asks_ret; try done
  | |- asks _ _ _ (mfail _) => apply asks_fail; solve [eauto with regular]
  | |- asks _ _ _ (mlift _) => apply asks_lift; [solve [eauto with regular]|try done]
  end.

(** Payloads built by [push_bytes]. *)
Lemma push_field p v w : push_string p v = Ok w -> w = p +:+ field v.
Proof. apply push_bytes_ok. Qed.

Lemma validate_file_path_regular path : validate_file_path path <> Err LOOP_BOUND.
Proof. unfold validate_file_path. by repeat case_match. Qed.

Lemma validate_entry_name_regular name : validate_entry_name name <> Err LOOP_BOUND.
Proof. unfold validate_entry_name. by repeat case_match. Qed.

#[export] Hint Resolve validate_file_path_regular validate_entry_name_regular : regular.

Lemma take_entries_regular path names entries : take_entries path names entries <> Err LOOP_BOUND.
Proof.
  revert entries. induction names as [|n names IH]; intros entries; cbn [take_entries]; [done|].
  destruct (_ || _); [apply IH|]. pose proof (validate_entry_name_regular (ne_filename n)).
  destruct (validate_entry_name _); [|congruence]. destruct (_ <=? _); [done|apply IH].
Qed.

#[export] Hint Resolve take_entries_regular : regular.

Section Operations.
Context `{PE : Peer} `{SH : Sha256} `{UN : Unicode}.
Context (home : string) {KN : Knowledge home}.
Variable P : Request -> Prop.

Lemma realpath_asks path :
  P (Realpath path) ->
  asks home P (fun canonical => candidate home path -> within home canonical -> trusted home canonical) (realpath_raw path).
Proof.
  intros HP s Hs. unfold realpath_raw.
  eapply (wp_exchange (Realpath path) _ _ id); [done|intros p w; apply push_field|intros p; apply push_bytes_regular| |].
  2: { intros e s' Ha He _. split; [by eapply attempted_grown|]. split; [apply He|done]. }
  intros pk s' Hrep. assert (grown P s s') as Hg by by eapply replied_grown.
  destruct Hrep as (id & Ha & _). apply adds_wire in Ha. unfold wp, mbind, mlift, mret, mfail.
  pose proof (ordinary_ends _ (parse_status_regular (pk_payload pk))) as Hst.
  pose proof (ordinary_ends _ (parse_names_regular (pk_payload pk))) as Hnm.
  destruct (pk_kind pk =? SSH_FXP_STATUS).
  { destruct (parse_status _) as [status|e]; intros _; (split; [done|]); (split; [|done]); [|by intros [= ->]].
    intros [= He]. by apply (status_error_regular status). }
  destruct (Z.eqb_spec (pk_kind pk) SSH_FXP_NAME) as [Hk|]; cbn [negb]; [|by intros _].
  destruct (parse_names _) as [names|e] eqn:En; [|intros _; split; [done|]; split; [by intros [= ->]|done]].
  destruct names as [|entry [|]]; try (by intros _). intros Hguard. split; [done|]. split; [done|].
  intros a [= <-] Hc Hw. apply (trusted_answer (sp_wire s') path); [exact Hguard|exact Hc| |done].
  exists [], (sp_wire s), id, (pk_payload pk), entry. rewrite <- Hk. by rewrite Ha.
Qed.

Lemma attrs_asks r knd path :
  P r -> knd = request_kind r -> request_fields r = field path -> asks home P (fun _ => True) (attrs_request knd path).
Proof.
  intros HP Hk Hf. unfold attrs_request.
  apply (asks_exchange home P _ r _ _ id); [done|done|rewrite Hf; intros p w; apply push_field|intros p; apply push_bytes_regular|].
  intros pk. asks_tail.
Qed.

Lemma stat_asks path : P (Stat path) -> asks home P (fun _ => True) (stat_raw path).
Proof. intros HP. by apply (attrs_asks (Stat path)). Qed.

Lemma lstat_asks path : P (Lstat path) -> asks home P (fun _ => True) (lstat_raw path).
Proof. intros HP. by apply (attrs_asks (Lstat path)). Qed.

Lemma opendir_asks path : P (Opendir path) -> asks home P (fun _ => True) (open_directory path).
Proof.
  intros HP. unfold open_directory, handle_response.
  apply (asks_exchange home P _ (Opendir path) _ _ id); [done|done|intros p w; apply push_field|intros p; apply push_bytes_regular|].
  intros pk. asks_tail.
Qed.

Lemma open_read_asks path : P (OpenRead path) -> asks home P (fun _ => True) (open_read path).
Proof.
  intros HP. unfold open_read, handle_response.
  apply (asks_exchange home P _ (OpenRead path) _ _ (fun w => w +:+ _)); [done|done| |intros p; apply push_bytes_regular|].
  - intros p w ->%push_field. by rewrite sapp_assoc.
  - intros pk. asks_tail.
Qed.

Lemma open_write_asks path permissions :
  P (OpenWrite path (Z.land permissions 511)) -> asks home P (fun _ => True) (open_write_exclusive path permissions).
Proof.
  intros HP. unfold open_write_exclusive, handle_response.
  apply (asks_exchange home P _ (OpenWrite path (Z.land permissions 511)) _ _ (fun w => w +:+ _));
    [done|done| |intros p; apply push_bytes_regular|].
  - intros p w ->%push_field. by rewrite sapp_assoc.
  - intros pk. asks_tail.
Qed.

Lemma close_asks handle : P (Close handle) -> asks home P (fun _ => True) (close_handle handle).
Proof.
  intros HP. unfold close_handle.
  apply (asks_exchange home P _ (Close handle) _ _ id); [done|done|intros p w; apply push_field|intros p; apply push_bytes_regular|].
  intros pk. asks_tail.
Qed.

Lemma remove_asks path : P (Remove path) -> asks home P (fun _ => True) (remove_if_present path).
Proof.
  intros HP. unfold remove_if_present.
  apply (asks_exchange home P _ (Remove path) _ _ id); [done|done|intros p w; apply push_field|intros p; apply push_bytes_regular|].
  intros pk. asks_tail.
Qed.

Lemma push2_regular p a b : ordinary (let? p := push_string p a in push_string p b).
Proof.
  pose proof (push_bytes_regular p a) as Ha. unfold push_string.
  destruct (push_bytes p a); [apply push_bytes_regular|done].
Qed.

Lemma fsync_asks handle : P (Fsync handle) -> asks home P (fun _ => True) (fsync_handle handle).
Proof.
  intros HP. unfold fsync_handle, require_ok_status.
  apply (asks_exchange home P _ (Fsync handle) _ _ id); [done|done| |intros; apply push2_regular|].
  - intros p w E. destruct (push_string p _) as [w1|] eqn:E1; [|done].
    apply push_bytes_ok in E as ->. apply push_field in E1 as ->. by rewrite sapp_assoc.
  - intros pk. asks_tail.
Qed.

Lemma rename_asks source target : P (Rename source target) -> asks home P (fun _ => True) (posix_rename source target).
Proof.
  intros HP. unfold posix_rename, require_ok_status.
  apply (asks_exchange home P _ (Rename source target) _ _ id); [done|done| | |].
  - intros p w E. destruct (push_string p _) as [w1|] eqn:E1; [|done].
    destruct (push_string w1 _) as [w2|] eqn:E2; [|done].
    apply push_field in E as ->. apply push_field in E1 as ->. apply push_field in E2 as ->.
    cbn [request_fields]. by rewrite !sapp_assoc.
  - intros p. unfold push_string at 1. pose proof (push_bytes_regular p EXTENSION_POSIX_RENAME).
    destruct (push_bytes p _); [apply push2_regular|done].
  - intros pk. asks_tail.
Qed.

Lemma write_chunk_asks handle offset chunk :
  P (Write handle offset chunk) -> asks home P (fun _ => True) (write_chunk handle offset chunk).
Proof.
  intros HP. unfold write_chunk, require_ok_status.
  apply (asks_exchange home P _ (Write handle offset chunk) _ _ id); [done|done| | |].
  - intros p w E. destruct (push_bytes p _) as [w1|] eqn:E1; [|done].
    apply push_bytes_ok in E as ->. apply push_bytes_ok in E1 as ->.
    cbn [request_fields]. by rewrite !sapp_assoc.
  - intros p. pose proof (push_bytes_regular p handle).
    destruct (push_bytes p _); [apply push_bytes_regular|done].
  - intros pk. asks_tail.
Qed.

Lemma write_handle_asks handle bytes :
  (forall off d, P (Write handle off d)) -> asks home P (fun _ => True) (write_handle handle bytes).
Proof.
  intros HP. unfold write_handle. generalize (chunks (Z.to_nat READ_CHUNK_BYTES) bytes) as pieces.
  generalize 0 as offset. intros offset pieces. revert offset.
  induction pieces as [|chunk rest IH]; intros offset; cbn [write_chunks]; [by apply asks_ret|].
  asks_seq; [by apply write_chunk_asks|]. intros _ _. asks_tail. apply IH.
Qed.

(** ** Loops *)

(** A loop whose rounds are measured by the loop state alone. *)
Lemma bounded_asks {L A} (I : L -> Prop) (measure : L -> Z) (R : A -> Prop) bound (step : L -> SM (L + A)) l :
  (forall l, I l -> 0 <= measure l) ->
  (forall l, I l -> asks home (KN := textual home) P
     (fun r => match r with inl l' => I l' /\ measure l' < measure l | inr x => R x end) (step l)) ->
  I l -> measure l < Zpos bound -> asks home (KN := textual home) P R (bounded bound step l).
Proof.
  intros Hpos Hstep HI Hb s Hs. unfold bounded. eapply (wp_mono _ (asked P R s)); [|done]. eapply wp_seq.
  - apply (loop_ends step (fun l s' => I l /\ ready home s' /\ grown P s s') (fun l _ => measure l)
      (asked P R s)); [|naive_solver| |done].
    + intros l' s1 (HI1 & Hs1 & Hg1). eapply wp_mono; [exact (asks_always home _ _ _ _ (Hstep l' HI1) Hs1)|].
      intros [[l2|x]|e] s2 (Hg2 & Hne & HR); cbn.
      * destruct (HR _ eq_refl). pose proof (grown_ready _ _ _ _ Hg2 Hs1).
        split; [|done]. split; [done|]. split; [done|]. by eapply grown_trans.
      * split; [by eapply grown_trans|]. split; [done|]. intros a [= <-]. apply (HR _ eq_refl).
      * split; [by eapply grown_trans|]. split; [|done]. intros [= ->]. done.
    + split; [done|]. split; [done|]. apply grown_refl.
  - intros [l'|x] s' Hpost; [done|]. wp_step. done.
  - done.
Qed.

(** A loop whose rounds are measured by the request ids they take. *)
Lemma bounded_ids_asks {L A} (I : L -> Prop) (R : A -> Prop) (step : L -> SM (L + A)) l :
  (forall l, I l ->
     asks home (KN := textual home) P (fun r => match r with inl l' => I l' | inr x => R x end) (step l)) ->
  (forall l s x s', ready home s -> step l s = (Ok x, s') ->
     sp_next_request_id s < u32_max /\ sp_next_request_id s < sp_next_request_id s') ->
  I l -> asks home (KN := textual home) P R (bounded (2 ^ 32) step l).
Proof.
  intros Hstep Hid HI s Hs. unfold bounded. eapply (wp_mono _ (asked P R s)); [|done]. eapply wp_seq.
  - apply (loop_ends step (fun l s' => I l /\ ready home s' /\ grown P s s')
      (fun _ s => Z.max 0 (u32_max - sp_next_request_id s)) (asked P R s)); [|lia| |].
    + intros l' s1 (HI1 & Hs1 & Hg1). pose proof (fun x s' => Hid l' s1 x s' Hs1) as Hid'. pose proof (asks_always home _ _ _ _ (Hstep l' HI1) Hs1) as Hrun.
      unfold wp in *. destruct (step l' s1) as [r s2]. destruct Hrun as (Hg2 & Hne & HR); cbn in *.
      destruct r as [[l2|x]|e].
      * specialize (HR _ eq_refl). pose proof (grown_ready _ _ _ _ Hg2 Hs1).
        specialize (Hid' _ _ eq_refl). split; [|lia]. split; [done|]. split; [done|]. by eapply grown_trans.
      * split; [by eapply grown_trans|]. split; [done|]. intros a [= <-]. apply (HR _ eq_refl).
      * split; [by eapply grown_trans|]. split; [|done]. intros [= ->]. done.
    + split; [done|]. split; [done|]. apply grown_refl.
    + destruct Hs as [_ Hs]. unfold u32_max. lia.
  - intros [l'|x] s' Hpost; [done|]. wp_step. done.
  - done.
Qed.

(** ** Browsing *)

Lemma read_step_asks handle max_bytes too_large l :
  P (Read handle l.2) -> too_large <> LOOP_BOUND ->
  asks home (KN := textual home) P (fun r => match r with
                        | inl l' => exists data, 0 < slen data /\ l' = (l.1 +:+ data, l.2 + slen data) /\
                                      l.2 + slen data <= max_bytes
                        | inr x => x = l.1
                        end) (read_step handle max_bytes too_large l).
Proof.
  intros HP Ht. destruct l as [bytes offset]. unfold read_step. cbn [fst snd] in *.
  apply (asks_exchange home P _ (Read handle offset) _ _ (fun w => w +:+ _));
    [done|done| |intros; apply push_bytes_regular|].
  - intros p w ->%push_bytes_ok. by rewrite sapp_assoc.
  - intros pk. asks_tail. bool_prop. exists a. split; [|done].
    pose proof (slen_nonneg a). destruct (decide (slen a = 0)) as [Hz|]; [|lia].
    apply slen_zero in Hz. done.
Qed.

Lemma read_handle_asks handle max_bytes too_large :
  (forall off, P (Read handle off)) -> too_large <> LOOP_BOUND -> 0 <= max_bytes ->
  asks home P (fun bytes => slen bytes <= max_bytes) (read_handle handle max_bytes too_large).
Proof.
  intros HP Ht Hm. apply asks_any. unfold read_handle.
  apply (bounded_asks (fun l => l.2 = slen l.1 /\ 0 <= l.2 <= max_bytes) (fun l => max_bytes - l.2)).
  - intros l ?. lia.
  - intros l [Hl Hr]. eapply asks_weaken; [by apply read_step_asks|done|].
    intros [[b o]|x]; [|intros ->; lia]. intros (data & Hd & [= -> ->] & Hmax). cbn [fst snd].
    rewrite slen_app. lia.
  - cbn. change (slen "") with 0. lia.
  - cbn. lia.
Qed.

(** A canonical path, or a plain entry of the directory it names. *)
Definition lookup (path : string) : Prop :=
  trusted home path \/ exists parent name, trusted home parent /\ plain_entry name /\ path = parent +:+ "/" +:+ name.

Definition browse (r : Request) : Prop :=
  match r with
  | Realpath p => candidate home p
  | Opendir p => trusted home p
  | Stat p | Lstat p | OpenRead p => lookup p
  | Readdir _ | Read _ _ | Close _ => True
  | OpenWrite _ _ | Write _ _ _ | Fsync _ | Rename _ _ | Remove _ => False
  end.

Hypothesis browse_ok : forall r, browse r -> P r.

Lemma resolve_asks path : asks home P (trusted home) (resolve path).
Proof using browse_ok.
  unfold resolve. asks_seq_with (fun _ => validate_file_path path = Ok tt);
    [apply asks_lift; [eauto with regular|by intros []]|]. intros _ Hv.
  apply asks_get. intros s [-> _]. pose proof (validate_path_candidate home path Hv) as Hc. asks_seq.
  - apply realpath_asks, browse_ok, Hc.
  - cbn beta. intros canonical Ht. destruct (_ && _) eqn:E; asks_tail. apply (Ht Hc).
    apply andb_false_iff in E as [E|E]; bool_prop; [by left|]. unfold is_some_and in E.
    destruct (strip_prefix home canonical) as [rest|] eqn:Es; [|done].
    apply strip_prefix_Some in Es as ->. apply starts_with_char in E as [rest' ->].
    right. by exists rest'.
Qed.

Lemma read_canonical_asks canonical max_bytes too_large :
  lookup canonical -> too_large <> LOOP_BOUND -> 0 <= max_bytes ->
  asks home P (fun bytes => slen bytes <= max_bytes) (read_canonical_file canonical max_bytes too_large).
Proof using browse_ok.
  intros Hw Ht Hm. unfold read_canonical_file.
  asks_seq; [by apply stat_asks, browse_ok|]. intros attrs _. asks_tail.
  asks_seq; [by apply open_read_asks, browse_ok|]. intros handle _.
  asks_next; [apply read_handle_asks; [intros; by apply browse_ok|done|done]|].
  intros r Hr HR. asks_next; [by apply close_asks, browse_ok|]. intros r' _ _.
  by apply asks_lift.
Qed.

Lemma read_file_asks path max_bytes too_large :
  too_large <> LOOP_BOUND -> 0 <= max_bytes ->
  asks home P (fun bytes => slen bytes <= max_bytes) (read_file path max_bytes too_large).
Proof using browse_ok.
  intros Ht Hm. asks_seq; [apply resolve_asks|]. intros canonical Hc. apply read_canonical_asks; [by left|done..].
Qed.

Lemma download_asks path :
  asks home P (fun bytes => slen bytes <= FILE_MAX_DOWNLOAD_BYTES) (download path).
Proof using browse_ok. by apply read_file_asks. Qed.

Lemma read_text_asks path :
  asks home P (fun v => ft_size_bytes v = slen (ft_content v) /\ ft_size_bytes v <= FILE_MAX_TEXT_BYTES /\
                        utf8_valid (ft_content v) = true /\ ft_digest v = sha256_digest (ft_content v))
    (read_text path).
Proof using browse_ok.
  asks_seq; [by apply read_file_asks|]. intros bytes Hb. cbn beta in Hb.
  destruct (contains_char _ _); asks_tail. unfold from_utf8.
  destruct (utf8_valid bytes) eqn:E; cbn.
  - asks_seq_with (eq bytes); [by apply asks_lift; [|intros ? [= ->]]|]. intros ? <-.
    by apply asks_ret.
  - asks_seq_with (fun _ => False); [by apply asks_lift|done].
Qed.

Lemma stat_path_asks path : asks home P (fun v => fs_path v = path) (stat_path path).
Proof using browse_ok.
  asks_seq; [apply resolve_asks|]. intros canonical Hc.
  asks_seq; [by apply stat_asks, browse_ok; left|]. intros attrs _. by apply asks_ret.
Qed.

(** ** Listing *)

Definition entry_safe (path : string) (e : FileEntryView) : Prop :=
  validate_entry_name (fe_name e) = Ok tt /\
  fe_path e = if bool_decide (path = ""%string) then fe_name e else path +:+ "/" +:+ fe_name e.

Definition listed (path : string) (entries : list FileEntryView) : Prop :=
  Z.of_nat (length entries) <= FILE_MAX_LIST_ENTRIES /\ Forall (entry_safe path) entries.

Definition listing_ok (path : string) (v : FileListView) : Prop :=
  fl_path v = path /\ listed path (fl_entries v) /\
  if fl_truncated v then Z.of_nat (length (fl_entries v)) = FILE_MAX_LIST_ENTRIES
  else ordered entry_le (fl_entries v).

Lemma take_entries_ok path names entries :
  listed path entries ->
  match take_entries path names entries with
  | Ok (inl entries') => listed path entries'
  | Ok (inr v) => listing_ok path v
  | Err e => True
  end.
Proof.
  revert entries. induction names as [|n names IH]; intros entries Hl; cbn [take_entries]; [done|].
  destruct (_ || _); [by apply IH|].
  destruct (validate_entry_name (ne_filename n)) as [[]|e] eqn:Ev; [|done].
  destruct (_ <=? _) eqn:El; bool_prop; destruct Hl as [Hlen Hall].
  - split; [done|]. split; [done|]. cbn. lia.
  - apply IH. split; [rewrite length_app; cbn; lia|]. apply Forall_app. split; [done|].
    apply Forall_cons. done.
Qed.

Lemma entry_le_total a b : entry_le a b = true \/ entry_le b a = true.
Proof.
  unfold entry_le. destruct (bool_decide (fe_kind a = _)), (bool_decide (fe_kind b = _)); cbn; auto;
    apply String.leb_total.
Qed.

Lemma directory_step_asks path handle entries :
  listed path entries ->
  asks home (KN := textual home) P (fun r => match r with inl l => listed path l | inr v => listing_ok path v end)
    (directory_step path handle entries).
Proof using browse_ok.
  intros Hl. unfold directory_step.
  apply (asks_exchange home P _ (Readdir handle) _ _ id);
    [by apply browse_ok|done|intros p w; apply push_bytes_ok|intros; apply push_bytes_regular|].
  intros pk. destruct (pk_kind pk =? SSH_FXP_NAME).
  - asks_seq_with (fun _ => True); [apply asks_lift; [eauto with regular|done]|].
    intros names _. pose proof (take_entries_ok path names entries Hl) as Ht.
    apply asks_lift; [eauto with regular|]. intros a E. rewrite E in Ht. by destruct a.
  - asks_tail. split; [done|]. destruct Hl as [Hlen Hall]. split; [|apply isort_ordered, entry_le_total].
    cbn. unfold listed. by rewrite isort_perm.
Qed.

Lemma read_directory_asks path handle : asks home P (listing_ok path) (read_directory path handle).
Proof using browse_ok.
  apply asks_any, (bounded_ids_asks (listed path)).
  - intros l Hl. by apply directory_step_asks.
  - intros l s x s' Hs. unfold directory_step.
    apply (exchange_ids home P anything (Readdir handle) _ _ id); [done|intros p w; apply push_bytes_ok|
      intros; apply push_bytes_regular| |done].
    intros pk. unfold anything. asks_tail.
  - split; [done|by apply Forall_nil].
Qed.

Lemma list_path_asks path : asks home P (listing_ok path) (list_path path).
Proof using browse_ok.
  asks_seq; [apply resolve_asks|]. intros canonical Hc.
  asks_seq; [by apply stat_asks, browse_ok; left|]. intros attrs _. asks_tail.
  asks_seq; [by apply opendir_asks, browse_ok|]. intros handle _.
  asks_next; [apply read_directory_asks|]. intros r Hr HR.
  asks_next; [by apply close_asks, browse_ok|]. intros r' _ _. by apply asks_lift.
Qed.
End Operations.

(** ** Uploads *)

Definition basename (path : string) : string := (default (""%string, path) (rsplit_once "/" path)).2.

Section Upload.
Context `{PE : Peer} `{SH : Sha256} `{UN : Unicode}.
Context (home : string) {KN : Knowledge home}.

Definition inspection_ok (path : string) (i : UploadInspection) : Prop :=
  trusted home (ui_canonical_parent i) /\
  ui_canonical_target i = ui_canonical_parent i +:+ "/" +:+ basename path /\
  validate_entry_name (basename path) = Ok tt /\ is_reserved_upload_name (basename path) = false /\
  uc_size_bytes (ui_precondition i) <= FILE_MAX_UPLOAD_BYTES.

Lemma inspect_target_asks (P : Request -> Prop) path attrs parent target :
  (forall r, browse home r -> P r) ->
  trusted home parent -> target = parent +:+ "/" +:+ basename path ->
  validate_entry_name (basename path) = Ok tt -> is_reserved_upload_name (basename path) = false ->
  asks home P (inspection_ok path) (inspect_target attrs parent target).
Proof.
  intros HP Hw -> Hv Hn. unfold inspect_target. destruct (kind attrs); asks_tail.
  asks_seq_with (fun _ => True); [apply asks_lift; [by destruct (at_permissions attrs)|done]|].
  intros permissions _.
  asks_seq; [apply read_canonical_asks; [done| |done|done]|].
  { right. exists parent, (basename path). split_and!; [done|by apply validate_name_plain|done]. }
  intros bytes Hb. apply asks_ret. done.
Qed.

Lemma inspect_upload_raw_asks (P : Request -> Prop) path :
  (forall r, browse home r -> P r) -> asks home P (inspection_ok path) (inspect_upload_raw path).
Proof.
  intros HP. unfold inspect_upload_raw.
  asks_seq_with (fun _ => True); [apply asks_lift; [eauto with regular|done]|]. intros _ _.
  destruct (bool_decide (path = _)); [by apply asks_fail|].
  destruct (default _ _) as [parent base] eqn:Hsplit.
  assert (basename path = base) as Hbase by (unfold basename; by rewrite Hsplit).
  asks_seq_with (fun _ => validate_entry_name base = Ok tt);
    [apply asks_lift; [eauto with regular|by intros []]|]. intros _ Hv.
  destruct (is_reserved_upload_name base) eqn:Hn; asks_tail.
  asks_seq; [by apply resolve_asks|]. intros canonical Hw.
  asks_seq; [by apply stat_asks, HP; left|]. intros pattrs _. asks_tail.
  asks_next; [apply lstat_asks, HP; right; exists canonical, base|].
  { split_and!; [done|by apply validate_name_plain|done]. }
  intros r Hr _.
  destruct r as [attrs|reason]; [apply inspect_target_asks; by subst|].
  destruct (bool_decide (reason = _)); [|apply asks_fail; by intros ->].
  apply asks_ret. split; [done|]. cbn. by rewrite Hbase.
Qed.

(** The temporary file of an upload, its 32 hexadecimal digits, and the target
    beside it, below a canonical parent. *)
Definition upload_request (suffix name : string) (r : Request) : Prop :=
  match r with
  | OpenWrite p m => exists parent, trusted home parent /\ validate_temporary_suffix suffix = Ok tt /\
                       p = temporary_path parent suffix /\ 0 <= m <= 511
  | Remove p => exists parent, trusted home parent /\ validate_temporary_suffix suffix = Ok tt /\
                  p = temporary_path parent suffix
  | Rename a b => exists parent, trusted home parent /\ validate_temporary_suffix suffix = Ok tt /\
                    a = temporary_path parent suffix /\ plain_entry name /\ b = parent +:+ "/" +:+ name
  | Write _ _ _ | Fsync _ => True
  | _ => browse home r
  end.

Lemma upload_browse suffix name r : browse home r -> upload_request suffix name r.
Proof. by destruct r. Qed.

Definition uploaded (expected : UploadPrecondition) (bytes : string) (post : UploadPrecondition) : Prop :=
  uc_digest post = Some (sha256_digest bytes) /\ uc_size_bytes post = slen bytes /\
  uc_permissions post = uc_permissions expected.

Lemma cleanup_asks {T} (P : Request -> Prop) (R : T -> Prop) path reason :
  P (Remove path) -> reason <> LOOP_BOUND -> asks home P R (cleanup_temporary path reason).
Proof.
  intros HP Hr. unfold cleanup_temporary. asks_next; [by apply remove_asks|].
  intros r _ _. destruct (is_err r); by apply asks_fail.
Qed.

Lemma confirm_upload_asks (P : Request -> Prop) path temporary bytes expected current rename_result :
  (forall r, browse home r -> P r) -> P (Remove temporary) -> rename_result <> Err LOOP_BOUND ->
  asks home P (uploaded expected bytes)
    (confirm_upload path temporary bytes expected current rename_result).
Proof.
  intros HP Hrm Hr. unfold confirm_upload.
  asks_next; [by apply inspect_upload_raw_asks|]. intros after Ha _.
  destruct (is_ok_and after _) eqn:E.
  { destruct after as [i|e]; [|done]. cbn in E. bool_prop.
    asks_seq_with (eq i); [by apply asks_lift; [|intros ? [= ->]]|]. intros ? <-. by apply asks_ret. }
  clear E. destruct rename_result as [[]|reason].
  - asks_next; [by apply remove_asks|]. intros _ _ _. by apply asks_fail.
  - destruct (is_ok_and after _); [apply cleanup_asks; [done|by intros ->]|].
    asks_next; [by apply remove_asks|]. intros _ _ _. by apply asks_fail.
Qed.

Lemma atomic_upload_asks path expected bytes suffix :
  asks home (upload_request suffix (basename path)) (uploaded expected bytes)
    (atomic_upload path expected bytes suffix).
Proof.
  unfold atomic_upload. apply asks_get. intros s _. destruct (negb _); asks_tail.
  asks_seq_with (fun _ => validate_temporary_suffix suffix = Ok tt);
    [apply asks_lift; [unfold validate_temporary_suffix; by case_match|by intros []]|]. intros _ Hsuf.
  asks_seq; [apply inspect_upload_raw_asks, upload_browse|]. intros current (Hw & Ht & Hname%validate_name_plain & _).
  destruct (negb _); asks_tail.
  assert (upload_request suffix (basename path)
    (Remove (temporary_path (ui_canonical_parent current) suffix))) as Hrm by by eexists.
  asks_seq.
  { apply open_write_asks. eexists. split; [exact Hw|]. split; [done|]. split; [done|].
    change 511 with (Z.ones 9). rewrite Z.land_ones by lia.
    pose proof (Z.mod_pos_bound (uc_permissions expected) (2 ^ 9) ltac:(lia)). change (Z.ones 9) with 511.
    change (2 ^ 9) with 512 in *. lia. }
  intros handle _. asks_next; [by apply write_handle_asks|]. intros w Hwr _.
  asks_next; [instantiate (1 := fun _ => True); destruct (is_ok w); [by apply fsync_asks|by apply asks_ret]|].
  intros f Hfr _. asks_next; [by apply close_asks|]. intros c Hcr _.
  destruct (and_result _ _) as [[]|reason] eqn:E.
  - asks_next; [apply rename_asks; by eexists|]. intros r Hr _.
    apply confirm_upload_asks; [apply upload_browse|done|done].
  - apply cleanup_asks; [done|]. intros ->. destruct w, f, c; cbn in E; congruence.
Qed.

Lemma inspect_upload_asks (P : Request -> Prop) path :
  (forall r, browse home r -> P r) ->
  asks home P (fun v => uc_size_bytes v <= FILE_MAX_UPLOAD_BYTES) (inspect_upload path).
Proof.
  intros HP. unfold inspect_upload. apply asks_get. intros s _. destruct (negb _); asks_tail.
  asks_seq; [by apply inspect_upload_raw_asks|]. intros i Hi. apply asks_ret, Hi.
Qed.
End Upload.
