(* ===== verification/SftpUpload.v ===== *)
(** * The trace of an upload

    What must have been exchanged before the client asks for the rename that
    publishes an upload: the target was found as the plan expects it, the
    temporary file was created exclusively, every byte was written and
    acknowledged in order, and the file was flushed and closed; and what must
    have been read back before it reports success. *)

From Stdlib Require Import Ascii String.
From S2P Require Import Prelude Crypto Text Bytes Loops Files Sftp SftpWire SftpTrace SftpClient.

(** ** Acknowledged requests, newest packet first *)

Definition acknowledged (r : Request) (seg : list Wire) : Prop :=
  exists id reply, seg = [Received SSH_FXP_STATUS (be32 id +:+ reply); sent id r] /\
    parse_status reply = Ok SSH_FX_OK.

Definition opened (r : Request) (handle : string) (seg : list Wire) : Prop :=
  exists id, seg = [Received SSH_FXP_HANDLE (be32 id +:+ field handle); sent id r].

(** Consecutive writes of [pieces] from [offset] on. *)
Fixpoint written (handle : string) (offset : Z) (pieces : list string) (seg : list Wire) : Prop :=
  match pieces with
  | [] => seg = []
  | piece :: rest =>
      exists first later, seg = later ++ first /\ acknowledged (Write handle offset piece) first /\
        written handle (offset + slen piece) rest later
  end.

(** The temporary file holds [bytes], on disk and closed. *)
Definition staged_file (temporary : string) (permissions : Z) (bytes : string) (seg : list Wire) : Prop :=
  exists handle pieces opens writes syncs closes,
    seg = closes ++ syncs ++ writes ++ opens /\
    opened (OpenWrite temporary permissions) handle opens /\
    written handle 0 pieces writes /\ sconcat pieces = bytes /\
    acknowledged (Fsync handle) syncs /\ acknowledged (Close handle) closes.

Section Upload.
Context `{PE : Peer} `{SH : Sha256} `{UN : Unicode}.

(** ** Exchanges in detail *)

Definition detailed {A} (r : Request) (D : A -> list Wire -> Prop) (m : SM A) : Prop :=
  forall s, wp m (fun res s' => attempted r s s' /\
    forall a, res = Ok a -> exists seg, adds seg s s' /\ D a seg) s.

Lemma exchange_detailed {A} r knd fields (f : string -> string) (k : Packet -> SM A) D :
  knd = request_kind r ->
  (forall p w, fields p = Ok w -> f w = p +:+ request_fields r) ->
  (forall p, ordinary (fields p)) ->
  (forall pk s, (k pk s).2 = s) ->
  (forall pk s a id, (k pk s).1 = Ok a -> slen (pk_payload pk) < PACKET_MAX_BYTES ->
     D a [Received (pk_kind pk) (be32 id +:+ pk_payload pk); sent id r]) ->
  detailed r D (let! id := request_id in
                let! payload := request_payload id fields in
                let! _ := send_packet knd (f payload) in
                let! pk := response id in k pk).
Proof.
  intros Hk Hf Hreg Hpure HD s. eapply wp_exchange; [done|done|done| |].
  - intros pk s1 Hrep. pose proof (replied_attempted _ _ _ _ Hrep) as Hg.
    destruct Hrep as (id & Ha & _ & _ & Hlen). unfold wp. rewrite (Hpure pk s1).
    split; [done|]. intros a Hok. eexists. split; [exact Ha|]. by eapply HD.
  - intros e s1 Hg _. split; [done|]. by intros a [=].
Qed.

Lemma require_ok_pure fallback pk (s : SftpProtocol) :
  let k := fun packet : Packet =>
    if negb (pk_kind packet =? SSH_FXP_STATUS) then mfail "sftp_protocol_error"
    else
      let! status := mlift (parse_status (pk_payload packet)) in
      if status =? SSH_FX_OK then mret tt
      else if status =? SSH_FX_OP_UNSUPPORTED then mfail "sftp_write_extension_unavailable"
      else if bool_decide (status_error status = "sftp_failure"%string) then mfail fallback
      else mfail (status_error status) in
  (k pk s).2 = s /\
  (forall a r id, (k pk s).1 = Ok a -> acknowledged r [Received (pk_kind pk) (be32 id +:+ pk_payload pk); sent id r]).
Proof.
  cbn. unfold mbind, mlift, mret, mfail. destruct (Z.eqb_spec (pk_kind pk) SSH_FXP_STATUS) as [->|]; cbn; [|done].
  destruct (parse_status _) as [status|] eqn:Es; cbn; [|done].
  destruct (Z.eqb_spec status SSH_FX_OK) as [->|]; cbn.
  - split; [done|]. intros a r id _. by exists id, (pk_payload pk).
  - destruct (_ =? _); [done|]. by destruct (bool_decide _).
Qed.

Lemma write_chunk_detailed handle offset chunk :
  detailed (Write handle offset chunk) (fun _ => acknowledged (Write handle offset chunk))
    (write_chunk handle offset chunk).
Proof.
  unfold write_chunk, require_ok_status.
  apply (exchange_detailed (Write handle offset chunk) _ _ id); [done| | | |].
  - intros p w E. destruct (push_bytes p _) as [w1|] eqn:E1; [|done].
    apply push_bytes_ok in E as ->. apply push_bytes_ok in E1 as ->.
    cbn [request_fields]. by rewrite !sapp_assoc.
  - intros p. pose proof (push_bytes_regular p handle).
    destruct (push_bytes p _); [apply push_bytes_regular|done].
  - intros pk s. apply require_ok_pure.
  - intros pk s a id Hok _. by eapply require_ok_pure.
Qed.

Lemma fsync_detailed handle : detailed (Fsync handle) (fun _ => acknowledged (Fsync handle)) (fsync_handle handle).
Proof.
  unfold fsync_handle, require_ok_status.
  apply (exchange_detailed (Fsync handle) _ _ id); [done| |intros; apply push2_regular| |].
  - intros p w E. destruct (push_string p _) as [w1|] eqn:E1; [|done].
    apply push_bytes_ok in E as ->. apply push_field in E1 as ->. by rewrite sapp_assoc.
  - intros pk s. apply require_ok_pure.
  - intros pk s a id Hok _. by eapply require_ok_pure.
Qed.

Lemma close_detailed handle : detailed (Close handle) (fun _ => acknowledged (Close handle)) (close_handle handle).
Proof.
  unfold close_handle.
  apply (exchange_detailed (Close handle) _ _ id);
    [done|intros p w; apply push_bytes_ok|intros; apply push_bytes_regular| |];
    intros pk s; unfold mbind, mlift, mret, mfail.
  - destruct (negb _); [done|]. destruct (parse_status _); [|done]. by destruct (negb _).
  - intros [] id. destruct (Z.eqb_spec (pk_kind pk) SSH_FXP_STATUS) as [->|]; [cbn [negb]|done].
    destruct (parse_status _) as [status|] eqn:Es; [|done].
    destruct (Z.eqb_spec status SSH_FX_OK) as [->|]; [|done]. intros _ _. by exists id, (pk_payload pk).
Qed.

Lemma handle_cursor_field payload h :
  slen payload < PACKET_MAX_BYTES -> on_payload handle_cursor payload = Ok h -> payload = field h.
Proof.
  intros Hl Hok. assert (on_payload data_cursor payload = Ok h) as Hd.
  { revert Hok. unfold on_payload, handle_cursor, data_cursor, mbind, mret, mfail.
    destruct (cursor_bytes _) as [[x|e] c]; [|done]. destruct (cursor_finish c) as [[[]|e] c']; [|done].
    destruct (_ || _); [done|]. by intros [= <-]. }
  apply data_cursor_iff in Hd as [-> _]; [done|]. unfold PACKET_MAX_BYTES, usize_max in *. lia.
Qed.

(** The tail of the requests that open a handle. *)
Definition handle_reply (pk : Packet) : SM string :=
  if pk_kind pk =? SSH_FXP_HANDLE then mlift (on_payload handle_cursor (pk_payload pk))
  else if pk_kind pk =? SSH_FXP_STATUS then
    let! status := mlift (parse_status (pk_payload pk)) in mfail (status_error status)
  else mfail "sftp_protocol_error".

Lemma handle_reply_pure pk s : (handle_reply pk s).2 = s.
Proof.
  unfold handle_reply, mbind, mlift, mret, mfail. destruct (_ =? _); [done|]. destruct (_ =? _); [|done].
  by destruct (parse_status _).
Qed.

Lemma handle_reply_opened r pk s h id :
  (handle_reply pk s).1 = Ok h -> slen (pk_payload pk) < PACKET_MAX_BYTES ->
  opened r h [Received (pk_kind pk) (be32 id +:+ pk_payload pk); sent id r].
Proof.
  unfold handle_reply, mbind, mlift, mret, mfail.
  destruct (Z.eqb_spec (pk_kind pk) SSH_FXP_HANDLE) as [->|].
  - intros Hok Hlen. exists id. by rewrite <- (handle_cursor_field _ _ Hlen Hok).
  - destruct (_ =? _); [|done]. by destruct (parse_status _).
Qed.

Lemma open_write_detailed path permissions :
  detailed (OpenWrite path (Z.land permissions 511)) (opened (OpenWrite path (Z.land permissions 511)))
    (open_write_exclusive path permissions).
Proof.
  unfold open_write_exclusive, handle_response.
  apply (exchange_detailed (OpenWrite path (Z.land permissions 511)) _ _ (fun w => w +:+ _));
    [done| |intros; apply push_bytes_regular|apply handle_reply_pure|].
  - intros p w ->%push_field. by rewrite sapp_assoc.
  - intros pk s h id. apply handle_reply_opened.
Qed.

Lemma rename_detailed source target :
  detailed (Rename source target) (fun _ => acknowledged (Rename source target)) (posix_rename source target).
Proof.
  unfold posix_rename, require_ok_status.
  apply (exchange_detailed (Rename source target) _ _ id); [done| | | |].
  - intros p w E. destruct (push_string p _) as [w1|] eqn:E1; [|done].
    destruct (push_string w1 _) as [w2|] eqn:E2; [|done].
    apply push_field in E as ->. apply push_field in E1 as ->. apply push_field in E2 as ->.
    cbn [request_fields]. by rewrite !sapp_assoc.
  - intros p. unfold push_string at 1. pose proof (push_bytes_regular p EXTENSION_POSIX_RENAME).
    destruct (push_bytes p _); [apply push2_regular|done].
  - intros pk s. apply require_ok_pure.
  - intros pk s a id Hok _. by eapply require_ok_pure.
Qed.

(** ** The write loop *)

Lemma write_chunks_detailed handle offset pieces s :
  wp (write_chunks handle offset pieces)
     (fun res s' => grown (fun r => exists off d, r = Write handle off d) s s' /\
        (res = Ok tt -> exists seg, adds seg s s' /\ written handle offset pieces seg)) s.
Proof.
  revert offset s. induction pieces as [|piece rest IH]; intros offset s; cbn [write_chunks].
  { wp_step. split; [apply grown_refl|]. intros _. exists []. split; [apply adds_refl|done]. }
  eapply wp_seq; [apply write_chunk_detailed| |].
  - intros [] s1 [Hat Hd]. destruct (Hd _ eq_refl) as (first & Ha & Hack).
    assert (grown (fun r => exists off d, r = Write handle off d) s s1) as Hg.
    { eapply attempted_grown; [|exact Hat]. eauto. }
    destruct (_ <? _); [split; [done|by intros [=]]|].
    eapply wp_mono; [apply IH|]. intros res s2 [Hg2 Hok]. split; [by eapply grown_trans|].
    intros Hres. destruct (Hok Hres) as (later & Ha2 & Hw). exists (later ++ first).
    split; [by eapply adds_trans|]. cbn [written]. eauto 10.
  - intros e s1 [Hat _]. split; [|by intros [=]]. eapply attempted_grown; [|exact Hat]. eauto.
Qed.

Lemma chunks_fuel_concat fuel size bytes :
  (String.length bytes <= fuel)%nat -> (0 < size)%nat -> sconcat (chunks_fuel fuel size bytes) = bytes.
Proof.
  intros Hf Hsize. revert bytes Hf. induction fuel as [|fuel IH]; intros bytes Hf.
  { by destruct bytes; [|cbn [String.length] in Hf; lia]. }
  destruct bytes as [|c bytes]; [done|]. cbn [chunks_fuel]. rewrite sconcat_cons, IH, stake_sdrop; [done|].
  rewrite sdrop_length. cbn [String.length] in *. lia.
Qed.

Lemma chunks_concat bytes : sconcat (chunks (Z.to_nat READ_CHUNK_BYTES) bytes) = bytes.
Proof. apply chunks_fuel_concat; [done|]. unfold READ_CHUNK_BYTES. lia. Qed.
End Upload.

(** ** The trace of a read

    A file's bytes as the client returns them are the data replies of the
    server, taken at consecutive offsets until it reports the end of file. *)

(** [reads handle off bytes seg]: [seg] read [bytes], up to offset [off]. *)
Inductive reads (handle : string) : Z -> string -> list Wire -> Prop :=
  | reads_none : reads handle 0 "" []
  | reads_data off bytes seg id data :
      reads handle off bytes seg -> data <> ""%string ->
      reads handle (off + slen data) (bytes +:+ data)
        ([Received SSH_FXP_DATA (be32 id +:+ field data); sent id (Read handle off)] ++ seg).

Definition reads_all (handle bytes : string) (seg : list Wire) : Prop :=
  exists id reply before,
    seg = [Received SSH_FXP_STATUS (be32 id +:+ reply); sent id (Read handle (slen bytes))] ++ before /\
    parse_status reply = Ok SSH_FX_EOF /\ reads handle (slen bytes) bytes before.

Lemma reads_offset handle off bytes seg : reads handle off bytes seg -> off = slen bytes.
Proof. induction 1; [done|]. rewrite slen_app. lia. Qed.

Section ReadTrace.
Context `{PE : Peer} `{SH : Sha256} `{UN : Unicode}.

Definition read_reply (bytes : string) (offset : Z) (handle : string) (x : (string * Z) + string)
    (seg : list Wire) : Prop :=
  match x with
  | inl l' => exists id data, data <> ""%string /\ l' = (bytes +:+ data, offset + slen data) /\
      seg = [Received SSH_FXP_DATA (be32 id +:+ field data); sent id (Read handle offset)]
  | inr out => out = bytes /\ exists id reply, parse_status reply = Ok SSH_FX_EOF /\
      seg = [Received SSH_FXP_STATUS (be32 id +:+ reply); sent id (Read handle offset)]
  end.

Lemma read_step_detailed handle max_bytes too_large bytes offset :
  detailed (Read handle offset) (read_reply bytes offset handle)
    (read_step handle max_bytes too_large (bytes, offset)).
Proof.
  unfold read_step.
  apply (exchange_detailed (Read handle offset) _ _ (fun w => w +:+ _));
    [done| |intros; apply push_bytes_regular| |].
  - intros p w ->%push_bytes_ok. by rewrite sapp_assoc.
  - intros pk s. unfold mbind, mlift, mret, mfail. by repeat case_match; simplify_eq/=.
  - intros pk s x id. unfold mbind, mlift, mret, mfail.
    destruct (Z.eqb_spec (pk_kind pk) SSH_FXP_DATA) as [->|].
    + destruct (on_payload data_cursor _) as [data|] eqn:Ed; [|done].
      destruct (bool_decide (data = _)) eqn:Ee; [done|]. bool_prop. destruct (_ <? _); [done|].
      destruct (_ <? _); [done|]. intros [= <-] Hlen. exists id, data. split; [done|]. split; [done|].
      apply data_cursor_iff in Ed as [-> _]; [done|]. unfold PACKET_MAX_BYTES, usize_max in *. lia.
    + destruct (Z.eqb_spec (pk_kind pk) SSH_FXP_STATUS) as [->|]; [|done].
      destruct (parse_status _) as [status|] eqn:Es; [|done].
      destruct (Z.eqb_spec status SSH_FX_EOF) as [->|]; [|done]. intros [= <-] _.
      split; [done|]. eauto.
Qed.

Lemma read_handle_trace handle max_bytes too_large s :
  wp (read_handle handle max_bytes too_large)
    (fun r s' => forall bytes, r = Ok bytes -> exists seg, adds seg s s' /\ reads_all handle bytes seg) s.
Proof.
  unfold read_handle, bounded. eapply wp_seq.
  - apply (loop_rule (read_step handle max_bytes too_large)
      (fun l s' => exists seg, adds seg s s' /\ reads handle l.2 l.1 seg) (fun l _ => - l.2)
      (fun r s' => forall bytes, r = Ok bytes -> exists seg, adds seg s s' /\ reads_all handle bytes seg)).
    + intros [bytes offset] s1 (seg & Ha & Hr). cbn [fst snd] in *.
      eapply wp_mono; [apply read_step_detailed|]. intros res s2 [_ Hd].
      destruct res as [x|e]; [|by intros b [=]]. destruct (Hd _ eq_refl) as (seg2 & Ha2 & Hx).
      pose proof (adds_trans _ _ _ _ _ Ha Ha2) as Ha12. destruct x as [l'|out].
      * destruct Hx as (id & data & Hne & -> & ->). split.
        { eexists. split; [exact Ha12|]. by apply reads_data. }
        cbn. pose proof (slen_nonneg data). destruct (decide (slen data = 0)) as [Hz|]; [|lia].
        by apply slen_zero in Hz.
      * destruct Hx as (-> & id & reply & Hp & ->). intros b [= <-]. eexists. split; [exact Ha12|].
        pose proof (reads_offset _ _ _ _ Hr) as ->. exists id, reply, seg. done.
    + exists []. split; [apply adds_refl|constructor].
  - intros [l|x] s1 Hp; wp_step; [by intros b [=]|exact Hp].
  - done.
Qed.

Lemma open_read_detailed path : detailed (OpenRead path) (opened (OpenRead path)) (open_read path).
Proof.
  unfold open_read, handle_response.
  apply (exchange_detailed (OpenRead path) _ _ (fun w => w +:+ _));
    [done| |intros; apply push_bytes_regular|apply handle_reply_pure|].
  - intros p w ->%push_field. by rewrite sapp_assoc.
  - intros pk s h id. apply handle_reply_opened.
Qed.

(** The attributes the server reported, or that there is no such file. *)
Definition attrs_answered (r : Request) (attrs : Attrs) (seg : list Wire) : Prop :=
  exists id payload, seg = [Received SSH_FXP_ATTRS (be32 id +:+ payload); sent id r] /\
    on_payload attrs_cursor payload = Ok attrs.

Definition missing (r : Request) (seg : list Wire) : Prop :=
  exists id reply, seg = [Received SSH_FXP_STATUS (be32 id +:+ reply); sent id r] /\
    parse_status reply = Ok SSH_FX_NO_SUCH_FILE.

Lemma attrs_trace r knd path s :
  knd = request_kind r -> request_fields r = field path ->
  wp (attrs_request knd path)
    (fun res s' => attempted r s s' /\
       (forall attrs, res = Ok attrs -> exists seg, adds seg s s' /\ attrs_answered r attrs seg) /\
       (res = Err NOT_FOUND -> exists seg, adds seg s s' /\ missing r seg)) s.
Proof.
  intros Hk Hf. unfold attrs_request.
  eapply (wp_exchange r _ _ id); [done|rewrite Hf; intros p w; apply push_field|intros p; apply push_bytes_regular| |].
  2: { intros e s' Ha [_ He]. split; [done|]. split; [by intros attrs [=]|done]. }
  intros pk s' Hrep. pose proof (replied_attempted _ _ _ _ Hrep) as Hat. destruct Hrep as (id & Ha & _).
  unfold wp, mbind, mlift, mfail. destruct (Z.eqb_spec (pk_kind pk) SSH_FXP_ATTRS) as [Hk1|].
  - split; [done|]. rewrite Hk1 in Ha. split; [intros attrs Hok; eexists; split; [exact Ha|]; by exists id, (pk_payload pk)|].
    pose proof (on_payload_regular attrs_cursor (pk_payload pk) regular_attrs_cursor) as [_ Hn]. done.
  - destruct (Z.eqb_spec (pk_kind pk) SSH_FXP_STATUS) as [Hk2|]; [|done]. rewrite Hk2 in Ha.
    pose proof (parse_status_regular (pk_payload pk)) as [_ Hn]. destruct (parse_status _) as [status|e] eqn:Es.
    + split; [done|]. split; [done|]. intros [= He]. eexists. split; [exact Ha|]. exists id, (pk_payload pk).
      split; [done|]. rewrite Es. f_equal. unfold status_error in He. destruct (Z.eqb_spec status SSH_FX_NO_SUCH_FILE); [done|].
      by repeat case_match.
    + split; [done|]. split; [done|]. intros [= ->]. done.
Qed.

(** A regular file read through one handle, looked up before and closed
    after. *)
Definition file_read (canonical bytes : string) (new : list Wire) : Prop :=
  exists attrs handle looks opens content closes,
    new = closes ++ content ++ opens ++ looks /\
    attrs_answered (Stat canonical) attrs looks /\ kind attrs = Regular /\
    opened (OpenRead canonical) handle opens /\ reads_all handle bytes content /\ once (Close handle) closes.

Lemma read_canonical_trace canonical max_bytes too_large s :
  wp (read_canonical_file canonical max_bytes too_large)
    (fun r s' => forall bytes, r = Ok bytes -> exists new, adds new s s' /\ file_read canonical bytes new) s.
Proof.
  unfold read_canonical_file.
  eapply wp_seq; [by apply (attrs_trace (Stat canonical))| |by intros e s1 _ b [=]].
  intros attrs s1 (_ & Hat & _). destruct (Hat _ eq_refl) as (looks & Ha & Hl).
  destruct (bool_decide (kind attrs = Regular)) eqn:Ek; bool_prop; [|by intros b [=]]. cbn [negb].
  destruct (is_some_and _ _); [by intros b [=]|].
  eapply wp_seq; [apply open_read_detailed| |by intros e s2 _ b [=]].
  intros handle s2 [_ Hd]. destruct (Hd _ eq_refl) as (opens & Ha2 & Ho).
  eapply wp_try_seq; [apply read_handle_trace|]. intros r s3 Hread.
  eapply wp_try_seq; [apply close_detailed|]. intros cr s4 [(closes & Ha4 & Honce & _) _]. wp_step.
  intros bytes ->. destruct (Hread _ eq_refl) as (content & Ha3 & Hc).
  exists (closes ++ content ++ opens ++ looks). split.
  - pose proof (adds_trans _ _ _ _ _ (adds_trans _ _ _ _ _ (adds_trans _ _ _ _ _ Ha Ha2) Ha3) Ha4). done.
  - by exists attrs, handle, looks, opens, content, closes.
Qed.

(** The canonical path the server gave for a relative one. *)
Definition resolved (home path canonical : string) (seg : list Wire) : Prop :=
  exists id payload entry,
    seg = [Received SSH_FXP_NAME (be32 id +:+ payload);
           sent id (Realpath (if bool_decide (path = ""%string) then home else home +:+ "/" +:+ path))] /\
    parse_names payload = Ok [entry] /\ ne_filename entry = canonical /\ within home canonical.

Lemma realpath_trace path s :
  wp (realpath_raw path) (fun r s' => forall canonical, r = Ok canonical ->
     sp_next_request_id s < u32_max /\ exists id payload entry,
       adds [Received SSH_FXP_NAME (be32 id +:+ payload); sent id (Realpath path)] s s' /\
       parse_names payload = Ok [entry] /\ ne_filename entry = canonical) s.
Proof.
  unfold realpath_raw.
  eapply (wp_exchange (Realpath path) _ _ id); [done|intros p w; apply push_field|intros p; apply push_bytes_regular| |by intros e s' _ _ c [=]].
  intros pk s' (id & Ha & Hid & Hmax & _). unfold wp, mbind, mlift, mret, mfail.
  destruct (pk_kind pk =? SSH_FXP_STATUS); [by destruct (parse_status _)|].
  destruct (Z.eqb_spec (pk_kind pk) SSH_FXP_NAME) as [Hk|]; cbn [negb]; [|done].
  destruct (parse_names _) as [names|e] eqn:En; [|done]. destruct names as [|entry [|]]; try done.
  intros c [= <-]. split; [lia|]. rewrite Hk in Ha. by exists id, (pk_payload pk), entry.
Qed.

Lemma resolve_trace home path s :
  sp_home s = home ->
  wp (resolve path) (fun r s' => forall canonical, r = Ok canonical ->
     sp_next_request_id s < u32_max /\ exists seg, adds seg s s' /\ resolved home path canonical seg) s.
Proof.
  intros <-. unfold resolve. wp_step. wp_step. destruct (validate_file_path path); [|by intros c [=]].
  wp_step. wp_step. eapply wp_seq; [apply realpath_trace| |by intros e s1 _ c [=]].
  intros canonical s1 Hr. destruct (Hr _ eq_refl) as (Hid & id & payload & entry & Ha & Hp & He).
  destruct (_ && _) eqn:E; [by intros c [=]|]. wp_step. intros c [= <-]. split; [done|]. eexists. split; [exact Ha|].
  exists id, payload, entry. split_and!; [done|done|done|].
  apply andb_false_iff in E as [E|E]; bool_prop; [by left|]. unfold is_some_and in E.
  destruct (strip_prefix (sp_home s) canonical) as [rest|] eqn:Es; [|done].
  apply strip_prefix_Some in Es as ->. apply starts_with_char in E as [rest' ->]. right. by exists rest'.
Qed.

Lemma read_file_trace home path max_bytes too_large s :
  ready home s ->
  wp (read_file path max_bytes too_large)
    (fun r s' => forall bytes, r = Ok bytes -> exists canonical seg new,
       adds (new ++ seg) s s' /\ resolved home path canonical seg /\ file_read canonical bytes new) s.
Proof.
  intros [Hh _]. unfold read_file.
  eapply wp_seq; [by apply (resolve_trace home)| |by intros e s1 _ b [=]].
  intros canonical s1 Hres. destruct (Hres _ eq_refl) as (_ & seg & Ha & Hr).
  eapply wp_mono; [apply read_canonical_trace|]. intros r s2 Hread bytes ->.
  destruct (Hread _ eq_refl) as (new & Ha2 & Hf). exists canonical, seg, new. split; [by eapply adds_trans|done].
Qed.
End ReadTrace.

(** ** The trace of an inspection

    What the client has been told when it knows the state of an upload's
    target: its directory's canonical path, that this is a directory, and that
    the target does not exist or is a regular file with these permissions and
    this content, read in full. *)

Definition dirname (path : string) : string := (default (""%string, path) (rsplit_once "/" path)).1.

Definition inspected `{Sha256} (home path : string) (found : UploadPrecondition) (parent : string) (seg : list Wire) : Prop :=
  exists parent_attrs resolves stats look,
    seg = look ++ stats ++ resolves /\
    resolved home (dirname path) parent resolves /\
    attrs_answered (Stat parent) parent_attrs stats /\ kind parent_attrs = Directory /\
    let target := parent +:+ "/" +:+ basename path in
    (missing (Lstat target) look /\
       found = {| uc_target_state := CreateTarget; uc_digest := None; uc_size_bytes := 0; uc_permissions := 384 |} \/
     exists attrs mode bytes content lstats, look = content ++ lstats /\
       attrs_answered (Lstat target) attrs lstats /\ kind attrs = Regular /\ at_permissions attrs = Some mode /\
       file_read target bytes content /\
       found = {| uc_target_state := ReplaceTarget; uc_digest := Some (sha256_digest bytes);
                  uc_size_bytes := slen bytes; uc_permissions := Z.land mode 511 |}).

Section Inspection.
Context `{PE : Peer} `{SH : Sha256} `{UN : Unicode}.

Lemma inspect_target_trace home path attrs parent s s1 lstats stats resolves parent_attrs :
  let target := parent +:+ "/" +:+ basename path in
  adds (lstats ++ stats ++ resolves) s s1 -> resolved home (dirname path) parent resolves ->
  attrs_answered (Stat parent) parent_attrs stats -> kind parent_attrs = Directory ->
  attrs_answered (Lstat target) attrs lstats ->
  wp (inspect_target attrs parent target) (fun r s' => forall i, r = Ok i -> exists seg, adds seg s s' /\
       inspected home path (ui_precondition i) (ui_canonical_parent i) seg) s1.
Proof.
  intros target Ha Hres Hst Hdir Hl. unfold inspect_target. destruct (kind attrs) eqn:Ek; try (by intros i [=]).
  wp_step. wp_step. destruct (at_permissions attrs) as [mode|] eqn:Em; cbn; [|by intros i [=]].
  eapply wp_seq; [apply read_canonical_trace| |by intros e s2 _ i [=]]. intros bytes s2 Hread.
  destruct (Hread _ eq_refl) as (content & Ha2 & Hf). wp_step. intros i [= <-]. cbn.
  exists ((content ++ lstats) ++ stats ++ resolves). split.
  - pose proof (adds_trans _ _ _ _ _ Ha Ha2) as Hall. by rewrite <- app_assoc.
  - exists parent_attrs, resolves, stats, (content ++ lstats). split_and!; try done. right.
    by exists attrs, mode, bytes, content, lstats.
Qed.

Lemma inspect_trace home path s :
  sp_home s = home ->
  wp (inspect_upload_raw path) (fun r s' => forall i, r = Ok i ->
     sp_next_request_id s < u32_max /\ exists seg, adds seg s s' /\
       inspected home path (ui_precondition i) (ui_canonical_parent i) seg) s.
Proof.
  intros Hh. unfold inspect_upload_raw. wp_step. wp_step. destruct (validate_file_path path); [|by intros i [=]].
  destruct (bool_decide (path = "")); [by intros i [=]|]. destruct (default _ _) as [dir base] eqn:Hd in |- *.
  assert (dirname path = dir /\ basename path = base) as [Hdir Hbase] by (unfold dirname, basename; by rewrite Hd).
  wp_step. wp_step. destruct (validate_entry_name base); [|by intros i [=]].
  destruct (is_reserved_upload_name base); [by intros i [=]|].
  eapply wp_seq; [by apply (resolve_trace home)| |by intros e s1 _ i [=]].
  intros parent s1 Hres. destruct (Hres _ eq_refl) as (Hid & resolves & Ha & Hr).
  eapply wp_seq; [by apply (attrs_trace (Stat parent))| |by intros e s2 _ i [=]].
  intros pattrs s2 (_ & Hst & _). destruct (Hst _ eq_refl) as (stats & Ha2 & Hstat).
  destruct (bool_decide (kind pattrs = Directory)) eqn:Ek; bool_prop; cbn [negb]; [|by intros i [=]].
  eapply wp_try_seq; [by apply (attrs_trace (Lstat (parent +:+ "/" +:+ base)))|].
  intros r s3 (_ & Hok & Hmiss). pose proof (adds_trans _ _ _ _ _ Ha Ha2) as Ha12. rewrite <- Hdir in Hr. rewrite <- Hbase in *.
  destruct r as [attrs|reason].
  - destruct (Hok _ eq_refl) as (lstats & Ha3 & Hl). pose proof (adds_trans _ _ _ _ _ Ha12 Ha3) as Ha123.
    eapply wp_mono; [by eapply (inspect_target_trace home path)|]. intros r s4 Hi i Heq. split; [done|]. by apply Hi.
  - destruct (bool_decide (reason = _)) eqn:Er; bool_prop; [|by intros i [=]]. subst reason. wp_step. intros i [= <-].
    destruct (Hmiss eq_refl) as (look & Ha3 & Hm). split; [done|]. exists (look ++ stats ++ resolves).
    split; [exact (adds_trans _ _ _ _ _ Ha12 Ha3)|]. exists pattrs, resolves, stats, look. split_and!; try done. by left.
Qed.
End Inspection.

(** ** The rename comes last *)

Definition is_rename (r : Request) : Prop := match r with Rename _ _ => True | _ => False end.
Definition quiet (r : Request) : Prop := ~ is_rename r.
Definition sends (P : Request -> Prop) (seg : list Wire) : Prop := exists lo hi, requests P lo hi seg.

(** A packet that is longer than the client sends. *)
Definition oversized (r : Request) : Prop := 262144 < slen (be32 0 +:+ request_fields r) + 1.

Section Publication.
Context `{PE : Peer} `{SH : Sha256} `{UN : Unicode}.
Context (home path suffix bytes : string) (expected : UploadPrecondition).
#[local] Existing Instance textual.

(** The rename of an upload below a directory. *)
Definition renames (parent : string) : Request :=
  Rename (temporary_path parent suffix) (parent +:+ "/" +:+ basename path).

(** What an upload sends: nothing but look-ups, or look-ups that found the
    target as expected and then, of renames, none or the one that follows the
    staged file. *)
Definition publication (new : list Wire) : Prop :=
  sends (browse home) new \/
  exists parent before later, new = later ++ before /\ inspected home path expected parent before /\
    (sends quiet later \/
     exists id after staging, later = after ++ sent id (renames parent) :: staging /\
       staged_file (temporary_path parent suffix) (Z.land (uc_permissions expected) 511) bytes staging /\
       sends quiet after).

(** What has been exchanged when an upload reports [post]: the target as
    expected, the staged file, one rename with at most one reply, and the target
    read back as [post].  No rename is sent only when its packet is oversized. *)
Definition published (post : UploadPrecondition) (new : list Wire) : Prop :=
  exists parent parent' before staging renaming readback,
    new = readback ++ renaming ++ staging ++ before /\
    inspected home path expected parent before /\
    staged_file (temporary_path parent suffix) (Z.land (uc_permissions expected) 511) bytes staging /\
    ((exists id reply, renaming = reply ++ [sent id (renames parent)] /\ received reply) \/
     renaming = [] /\ oversized (renames parent)) /\
    inspected home path post parent' readback.

Lemma grown_sends P s s' : grown P s s' -> exists new, adds new s s' /\ sends P new.
Proof. intros (seg & Ha & Hr). exists seg. split; [done|]. by eexists _, _. Qed.

Lemma browse_quiet r : browse home r -> quiet r.
Proof. destruct r; cbn; unfold quiet; tauto. Qed.

Lemma adds_same a b s s' : adds a s s' -> adds b s s' -> a = b.
Proof. intros Ha Hb. apply (app_inv_tail (sp_wire s)). by rewrite <- (adds_wire _ _ _ Ha), <- (adds_wire _ _ _ Hb). Qed.

Lemma sends_app P a b s s1 s2 : adds a s s1 -> adds b s1 s2 -> grown P s s2 -> sends P (b ++ a).
Proof.
  intros Ha Hb (seg & Hs & Hr). rewrite (adds_same _ seg s s2 (adds_trans _ _ _ _ _ Ha Hb) Hs). by eexists _, _.
Qed.

(** A rename that is not sent has no id left or does not fit. *)
Lemma rename_sent source target s :
  wp (posix_rename source target)
    (fun _ s' => exists seg, adds seg s s' /\ once (Rename source target) seg /\
       (seg = [] -> u32_max <= sp_next_request_id s \/ oversized (Rename source target))) s.
Proof.
  unfold posix_rename, require_ok_status. eapply wp_mono.
  { apply (exchange_sent (Rename source target) _ _ id); [done| |intros pk s0; apply require_ok_pure].
    intros p w E. destruct (push_string p _) as [w1|] eqn:E1; [|done]. destruct (push_string w1 _) as [w2|] eqn:E2; [|done].
    apply push_field in E as ->. apply push_field in E1 as ->. apply push_field in E2 as ->.
    cbn [request_fields]. by rewrite !sapp_assoc. }
  intros r s' (seg & Ha & Ho & Hn). exists seg. split; [done|]. split; [done|]. intros Hnil.
  destruct (Hn Hnil) as [?|[[p Herr]|?]]; [by left| |by right]. right. unfold oversized. cbn [request_fields]. unfold field.
  rewrite !slen_app, !slen_be32. pose proof (slen_nonneg "posix-rename@openssh.com").
  pose proof (slen_nonneg source). pose proof (slen_nonneg target). unfold push_string, push_bytes in Herr.
  destruct (u32_max <? slen EXTENSION_POSIX_RENAME) eqn:E0; [by vm_compute in E0|].
  destruct (u32_max <? slen source) eqn:E1; [unfold u32_max in *; lia|].
  destruct (u32_max <? slen target) eqn:E2; [unfold u32_max in *; lia|done].
Qed.

Lemma confirm_trace temporary current rename_result s :
  sp_home s = home ->
  wp (confirm_upload path temporary bytes expected current rename_result)
    (fun r s' => forall post, r = Ok post -> sp_next_request_id s < u32_max /\
       exists parent seg, adds seg s s' /\ inspected home path post parent seg) s.
Proof.
  intros Hh. unfold confirm_upload. eapply wp_try_seq; [by apply inspect_trace|]. intros after s1 Hi.
  destruct (is_ok_and after _).
  - destruct after as [i|e]; [|wp_step; wp_step; by intros post [=]]. wp_step. wp_step. wp_step. intros post [= <-].
    destruct (Hi _ eq_refl) as (Hid & seg & Ha & Hin). split; [done|]. by exists (ui_canonical_parent i), seg.
  - clear Hi. unfold wp, cleanup_temporary, mtry, mfail.
    destruct rename_result; [|destruct (is_ok_and after _)]; destruct (remove_if_present temporary s1) as [r s2];
      try destruct (is_err r); by intros post [=].
Qed.

(** From the staged file on. *)
Lemma publish_spec parent current s s0 s1 staging before :
  ready home s1 -> adds before s s0 -> adds staging s0 s1 -> grown quiet s0 s1 ->
  inspected home path expected parent before ->
  staged_file (temporary_path parent suffix) (Z.land (uc_permissions expected) 511) bytes staging ->
  wp (try! rename_result := posix_rename (temporary_path parent suffix) (parent +:+ "/" +:+ basename path) in
      confirm_upload path (temporary_path parent suffix) bytes expected current rename_result)
    (fun r s' => exists new, adds new s s' /\ publication new /\ forall post, r = Ok post -> published post new) s1.
Proof.
  intros Hr Hb Ha Hq Hi Hst. eapply wp_try_seq.
  { apply wp_and; [apply rename_sent|]. apply (asks_always home (eq (renames parent))); [by apply rename_asks|done]. }
  intros rename_result s2 [(seg & Ha2 & Honce & Hnil) (Hg2 & Hne & _)].
  eapply wp_mono.
  { apply wp_and; [|apply confirm_trace].
    - apply (asks_always home quiet); [|by eapply grown_ready].
      apply confirm_upload_asks; [apply browse_quiet|by intros []|done].
    - destruct Hr as [Hh _]. by rewrite (adds_home _ _ _ Ha2). }
  intros r s3 [(Hg3 & _) Hconf]. destruct (grown_sends _ _ _ Hg3) as (after & Ha3 & Hs3).
  pose proof (adds_trans _ _ _ _ _ Ha Ha2) as Hb2. exists (after ++ seg ++ staging ++ before).
  split; [|split].
  - pose proof (adds_trans _ _ _ _ _ (adds_trans _ _ _ _ _ (adds_trans _ _ _ _ _ Hb Ha) Ha2) Ha3). done.
  - right. exists parent, before, (after ++ seg ++ staging). split; [by rewrite <- !app_assoc|]. split; [done|].
    destruct Honce as [->|(id & recv & Hrecv & ->)].
    + left. cbn. eapply (sends_app quiet staging after s0 s1 s3); [done| |].
      * rewrite <- (app_nil_r after); exact (adds_trans [] after _ _ _ Ha2 Ha3).
      * eapply grown_trans; [exact Hq|]. eapply grown_trans; [|exact Hg3]. by apply grown_quiet.
    + right. exists id, (after ++ recv), staging. split; [by rewrite <- !app_assoc|]. split; [done|].
      destruct Hs3 as (lo & hi & Hs3). exists lo, hi. eapply requests_app; [|exact Hs3].
      destruct Hrecv as [->|(k & p & ->)]; [by constructor|]. apply requests_received. by constructor.
  - intros post Hpost. destruct (Hconf post Hpost) as (Hid & parent' & readback & Hab & Hin).
    rewrite (adds_same _ _ _ _ Ha3 Hab). exists parent, parent', before, staging, seg, readback. split_and!; try done.
    destruct Honce as [->|(id & recv & Hrecv & ->)]; [right|left; by exists id, recv]. split; [done|].
    destruct (Hnil eq_refl) as [Hbad|?]; [|done]. pose proof (adds_ids _ _ _ Ha2). lia.
Qed.

Lemma nothing_published before parent s s0 s' :
  adds before s s0 -> grown quiet s0 s' -> inspected home path expected parent before ->
  exists new, adds new s s' /\ publication new.
Proof.
  intros Hb Hg Hi. destruct (grown_sends _ _ _ Hg) as (later & Ha & Hs). exists (later ++ before).
  split; [by eapply adds_trans|]. right. exists parent, before, later. split; [done|]. split; [done|by left].
Qed.

Lemma stage_spec parent current s s0 before :
  ready home s0 -> adds before s s0 -> inspected home path expected parent before ->
  let temporary := temporary_path parent suffix in
  wp (let! handle := open_write_exclusive temporary (uc_permissions expected) in
      try! write_result := write_handle handle bytes in
      try! fsync_result := (if is_ok write_result then fsync_handle handle else mret tt) in
      try! close_result := close_handle handle in
      match and_result (and_result write_result fsync_result) close_result with
      | Err reason => cleanup_temporary temporary reason
      | Ok _ =>
          try! rename_result := posix_rename temporary (parent +:+ "/" +:+ basename path) in
          confirm_upload path temporary bytes expected current rename_result
      end)
    (fun r s' => exists new, adds new s s' /\ publication new /\ forall post, r = Ok post -> published post new) s0.
Proof.
  intros Hr Hb Hi temporary.
  assert (forall (r : result string UploadPrecondition) s', grown quiet s0 s' -> is_ok r = false ->
    exists new, adds new s s' /\ publication new /\ forall post, r = Ok post -> published post new) as Hnone.
  { intros r s' Hg Hbad. destruct (nothing_published _ _ _ _ _ Hb Hg Hi) as (new & Ha & Hp). exists new.
    split; [done|]. split; [done|]. by intros post ->. }
  eapply wp_seq; [apply open_write_detailed| |].
  2: { intros e s2 [Hat _]. apply Hnone; [|done]. by eapply attempted_grown; [|exact Hat]; intros []. }
  intros handle s2 [Hat2 Hd2]. destruct (Hd2 _ eq_refl) as (opens & Ha2 & Hopen).
  assert (grown quiet s0 s2) as Hg2 by (by eapply attempted_grown; [|exact Hat2]; intros []).
  eapply wp_try_seq; [apply write_chunks_detailed|]. intros wr s3 [Hgw Hwritten].
  assert (grown quiet s0 s3) as Hg3.
  { eapply grown_trans; [exact Hg2|]. eapply grown_weaken; [|exact Hgw]. by intros r (off & d & ->) []. }
  eapply (wp_try_seq _ _ (fun fr s4 => grown quiet s0 s4 /\ (wr = Ok tt -> fr = Ok tt ->
     exists syncs, adds syncs s3 s4 /\ acknowledged (Fsync handle) syncs))).
  { destruct wr as [[]|e]; cbn [is_ok].
    - eapply wp_mono; [apply fsync_detailed|]. intros fr s4 [Hat4 Hd4]. split; [|by eauto].
      eapply grown_trans; [exact Hg3|]. by eapply attempted_grown; [|exact Hat4]; intros [].
    - wp_step. split; [done|]. by intros [=]. }
  intros fr s4 [Hg4 Hsync]. eapply wp_try_seq; [apply close_detailed|]. intros cr s5 [Hat5 Hd5].
  assert (grown quiet s0 s5) as Hg5.
  { eapply grown_trans; [exact Hg4|]. by eapply attempted_grown; [|exact Hat5]; intros []. }
  pose proof (grown_ready _ _ _ _ Hg5 Hr) as Hr5. destruct (and_result _ cr) as [[]|reason] eqn:E.
  - destruct wr as [[]|]; [|done]. destruct fr as [[]|]; [|done]. destruct cr as [[]|]; [|done].
    destruct (Hwritten eq_refl) as (writes & Haw & Hwr). destruct (Hsync eq_refl eq_refl) as (syncs & Has & Hsy).
    destruct (Hd5 _ eq_refl) as (closes & Hac & Hcl).
    apply (publish_spec _ _ s s0 s5 (closes ++ syncs ++ writes ++ opens) before); [done|done| |done|done|].
    + exact (adds_trans _ _ _ _ _ (adds_trans _ _ _ _ _ (adds_trans _ _ _ _ _ Ha2 Haw) Has) Hac).
    + exists handle, (chunks (Z.to_nat READ_CHUNK_BYTES) bytes), opens, writes, syncs, closes.
      rewrite chunks_concat. auto 10.
  - unfold cleanup_temporary. eapply wp_try_seq.
    { apply (asks_always home quiet); [apply remove_asks; by intros []|done]. }
    intros r s6 (Hg6 & _). assert (grown quiet s0 s6) by by eapply grown_trans.
    destruct (is_err r); wp_step; by apply Hnone.
Qed.

Lemma atomic_upload_publication s :
  ready home s ->
  wp (atomic_upload path expected bytes suffix)
    (fun r s' => exists new, adds new s s' /\ publication new /\ forall post, r = Ok post -> published post new) s.
Proof.
  intros Hr. unfold atomic_upload.
  assert (forall (r : result string UploadPrecondition) s', grown (browse home) s s' -> is_ok r = false ->
    exists new, adds new s s' /\ publication new /\ forall post, r = Ok post -> published post new) as Hnone.
  { intros r s' Hg Hbad. destruct (grown_sends _ _ _ Hg) as (new & Ha & Hs). exists new. split; [done|].
    split; [by left|]. by intros post ->. }
  pose proof (grown_refl (browse home) s) as Hrefl.
  wp_step. wp_step. destruct (negb _); [wp_step; by apply Hnone|]. destruct (_ <? _); [wp_step; by apply Hnone|].
  wp_step. wp_step. destruct (validate_temporary_suffix suffix); [|by apply Hnone].
  eapply wp_seq.
  { apply wp_and; [apply (inspect_trace home); apply Hr|].
    apply (asks_always home (browse home)); [by apply inspect_upload_raw_asks|done]. }
  2: { intros e s1 [_ (Hg & _)]. by apply Hnone. }
  intros current s1 [Htr (Hg & _ & Hi)]. destruct (Hi _ eq_refl) as (_ & Ht & _). destruct (Htr _ eq_refl) as (_ & before & Ha & Hin).
  destruct (bool_decide (ui_precondition current = expected)) eqn:Ee; bool_prop; cbn [negb]; [|wp_step; by apply Hnone].
  rewrite Ht, Ee. rewrite Ee in Hin. apply (stage_spec _ _ s s1 before); [by eapply grown_ready|done|done].
Qed.
End Publication.
