(* ===== verification/SftpSession.v ===== *)
(** * A file session: start-up and any sequence of operations

    The operations the web agent runs on a session, and what a whole session
    can send, composed from the specifications of the single operations. *)

From Stdlib Require Import Ascii String.
From S2P Require Import Prelude Crypto Text Bytes Loops Files Sftp SftpWire SftpTrace SftpClient SftpUpload.

(** ** The version packet *)

(** Names announced by the server, in the order of the packet. *)
Definition extensions_of (names : list string) : ServerExtensions :=
  {| se_fsync := bool_decide (EXTENSION_FSYNC ∈ names);
     se_posix_rename := bool_decide (EXTENSION_POSIX_RENAME ∈ names) |}.

Definition wire_version (exts : list (string * string)) : string :=
  be32 SFTP_VERSION +:+ sconcat (map wire_extension exts).

Lemma sconcat_app a b : sconcat (a ++ b) = sconcat a +:+ sconcat b.
Proof. induction a as [|x a IH]; [done|]. cbn [app]. by rewrite !sconcat_cons, IH, sapp_assoc. Qed.

Lemma extensions_of_snoc names name :
  extensions_of (names ++ [name]) =
  if bool_decide (name = EXTENSION_FSYNC)
  then {| se_fsync := true; se_posix_rename := se_posix_rename (extensions_of names) |}
  else if bool_decide (name = EXTENSION_POSIX_RENAME)
  then {| se_fsync := se_fsync (extensions_of names); se_posix_rename := true |}
  else extensions_of names.
Proof.
  unfold extensions_of. cbn [se_fsync se_posix_rename].
  assert (forall x, bool_decide (x ∈ names ++ [name]) = bool_decide (x ∈ names) || bool_decide (name = x)) as Hs.
  { intros x. apply Bool.eq_iff_eq_true. rewrite orb_true_iff, !bool_decide_eq_true, elem_of_app, list_elem_of_singleton.
    naive_solver. }
  rewrite !Hs. destruct (bool_decide (name = EXTENSION_FSYNC)) eqn:E1; bool_prop.
  - subst. by rewrite orb_true_r, (bool_decide_eq_false_2 (EXTENSION_FSYNC = _)), orb_false_r by done.
  - destruct (bool_decide (name = EXTENSION_POSIX_RENAME)); by rewrite ?orb_false_r, ?orb_true_r.
Qed.

(** The loop state after some extensions. *)
Definition version_inv (total : string) (l : Z * ServerExtensions) (c : Cursor) : Prop :=
  exists exts rest, ahead c rest /\ total = wire_version exts +:+ rest /\
    l = (Z.of_nat (length exts), extensions_of (map fst exts)) /\ Z.of_nat (length exts) <= 32 /\
    Forall extension_fits exts.

Definition version_ok (total : string) (r : result string ServerExtensions) (c : Cursor) : Prop :=
  r <> Err LOOP_BOUND /\
  forall e, r = Ok e -> exists exts, ahead c "" /\ total = wire_version exts /\
    e = extensions_of (map fst exts) /\ Z.of_nat (length exts) <= 32.

Lemma version_step_ok total l c :
  version_inv total l c ->
  wp (version_step l)
     (fun r c' => match r with
                  | Ok (inl l') => version_inv total l' c' /\ 33 - l'.1 < 33 - l.1
                  | Ok (inr e) => version_ok total (Ok e) c'
                  | Err e => version_ok total (Err e) c'
                  end) c.
Proof.
  intros (exts & rest & Hc & Ht & -> & Hlen & Hfit). unfold wp, version_step. cbn [fst snd].
  assert (cursor_remaining c = rest) as Hrest by apply Hc.
  destruct (bool_decide _) eqn:Eend; bool_prop; cbn.
  { split; [done|]. intros e [= <-]. exists exts. assert (rest = ""%string) as -> by congruence.
    rewrite sapp_nil_r in Ht. done. }
  destruct (255 <? _); [split; [by intros [=]|by intros e [=]]|].
  destruct (32 <? _) eqn:E32; [split; [by intros [=]|by intros e [=]]|]. bool_prop.
  set (m := mbind cursor_string _).
  assert (regular m) as Hreg by (unfold m; regular).
  specialize (Hreg c). unfold m, mbind, mret in *. clear m.
  destruct (cursor_string c) as [[name|e1] c1] eqn:E1; cbn in *;
    [|split; [by apply ordinary_ends; eapply ordinary_cast|by intros ? [=]]].
  destruct (cursor_bytes c1) as [[data|e2] c2] eqn:E2; cbn in *;
    [|split; [by apply ordinary_ends; eapply ordinary_cast|by intros ? [=]]].
  destruct (exact_sound _ _ exact_string _ _ _ _ Hc E1) as (w1 & r1 & -> & [[-> Hn] _] & Hc1).
  destruct (exact_sound _ _ exact_bytes _ _ _ _ Hc1 E2) as (w2 & r2 & -> & [-> Hd] & Hc2).
  split; [|lia]. exists (exts ++ [(name, data)]), r2. split; [done|]. unfold wire_version in *.
  rewrite map_app, sconcat_app, Ht, !sapp_assoc. split.
  { cbn [map]. rewrite sconcat_cons. unfold sconcat, wire_extension. cbn. by rewrite sapp_nil_r, !sapp_assoc. }
  rewrite length_app, map_app. cbn [length map fst]. split; [|split; [lia|apply Forall_app; split; [done|]; by apply Forall_singleton]].
  f_equal; [lia|]. by rewrite extensions_of_snoc.
Qed.

Lemma parse_server_version_ok payload :
  slen payload <= usize_max ->
  parse_server_version payload <> Err LOOP_BOUND /\
  forall e, parse_server_version payload = Ok e ->
    exists exts, payload = wire_version exts /\ e = extensions_of (map fst exts) /\ Z.of_nat (length exts) <= 32.
Proof.
  intros Hl. pose proof (ahead_new _ Hl) as Hc.
  assert (wp parse_server_version_cursor (fun r _ => r <> Err LOOP_BOUND /\ forall e, r = Ok e ->
    exists exts, payload = wire_version exts /\ e = extensions_of (map fst exts) /\ Z.of_nat (length exts) <= 32)
    (cursor_new payload)) as Hwp; [|done].
  unfold parse_server_version_cursor. apply wp_bind. unfold wp.
  pose proof (regular_u32 (cursor_new payload)) as Hu.
  destruct (cursor_u32 _) as [[v|e] c1] eqn:Ev; cbn in *;
    [|split; [by apply ordinary_ends; eapply ordinary_cast|by intros ? [=]]].
  destruct (exact_sound _ _ exact_u32 _ _ _ _ Hc Ev) as (w & rest & Hp & [-> _] & Hc1).
  destruct (Z.eqb_spec v SFTP_VERSION) as [->|]; cbn [negb]; [|split; [by intros [=]|by intros ? [=]]].
  change (wp (let! extensions := bounded 34 version_step (0, {| se_fsync := false; se_posix_rename := false |}) in
    let! _ := cursor_finish in mret extensions) (fun r _ => r <> Err LOOP_BOUND /\ forall e, r = Ok e ->
    exists exts, payload = wire_version exts /\ e = extensions_of (map fst exts) /\ Z.of_nat (length exts) <= 32) c1).
  unfold bounded. apply wp_bind. eapply wp_seq.
  - apply (loop_ends version_step (version_inv payload) (fun l _ => 33 - l.1) (version_ok payload));
      [apply version_step_ok| | |done].
    + intros l c (exts & r & _ & _ & -> & ? & _). cbn. lia.
    + exists [], rest. split; [done|]. split; [|split; [done|split; [done|by apply Forall_nil]]].
      unfold wire_version. cbn. by rewrite sapp_nil_r.
  - intros [l|e] c2 Hpost; [done|]. wp_step. destruct Hpost as [_ Hpost].
    destruct (Hpost _ eq_refl) as (exts & Hend & Heq & He & Hlen). apply wp_bind.
    unfold wp. pose proof (regular_finish c2). unfold cursor_finish in *.
    destruct (_ =? _); cbn; [|split; [by intros [=]|by intros ? [=]]].
    split; [done|]. intros e' [= <-]. eauto.
  - intros e c2 [Hne _]. split; [by intros [= ->]|]. by intros ? [=].
Qed.

(** ** Start-up *)

Section Session.
Context `{PE : Peer} `{SH : Sha256} `{UN : Unicode}.

(** What a started session knows of its server. *)
Record started (s : SftpProtocol) : Prop := {
  started_root : validate_canonical_root (sp_home s) = Ok tt;
  started_ids : 0 <= sp_next_request_id s;
  started_extensions : exists version exts, Received SSH_FXP_VERSION version ∈ sp_wire s /\
    version = wire_version exts /\
    sp_supports_fsync s = bool_decide (EXTENSION_FSYNC ∈ map fst exts) /\
    sp_supports_posix_rename s = bool_decide (EXTENSION_POSIX_RENAME ∈ map fst exts);
}.

Lemma initialize_ok p :
  wp initialize (fun r s => r <> Err LOOP_BOUND /\ (r = Ok tt -> started s)) (new_protocol p).
Proof.
  unfold initialize. set (s0 := new_protocol p).
  eapply wp_seq; [apply wp_and; [apply send_packet_spec|apply wp_regular; regular]| |].
  2: { intros e s1 [_ He]. split; [by apply ordinary_ends; eapply ordinary_cast|by intros [=]]. }
  intros [] s1 [(seg & Ha1 & Hn1 & _) _].
  eapply wp_seq; [apply wp_and; [apply read_packet_spec|apply wp_regular; regular]| |].
  2: { intros e s2 [_ He]. split; [by apply ordinary_ends; eapply ordinary_cast|by intros [=]]. }
  intros pk s2 [(seg2 & Ha2 & Hn2 & _ & Hpk) _]. destruct (Hpk _ eq_refl) as [-> Hlen].
  destruct (Z.eqb_spec (pk_kind pk) SSH_FXP_VERSION) as [Hk|]; cbn [negb]; [|split; [by intros [=]|by intros [=]]].
  assert (slen (pk_payload pk) <= usize_max) as Hu by (unfold PACKET_MAX_BYTES, usize_max in *; lia).
  destruct (parse_server_version_ok _ Hu) as [Hreg Hext].
  wp_step. wp_step. destruct (parse_server_version _) as [e|e] eqn:Ev; [|split; [by intros [= ->]|by intros [=]]].
  destruct (Hext _ eq_refl) as (exts & Hver & -> & _). wp_step. wp_step.
  set (s3 := with_extensions _ s2).
  eapply wp_seq; [apply (asks_always (sp_home s3) (fun _ => True)); [by apply realpath_asks|]| |].
  { split; [done|]. cbn. rewrite Hn2, Hn1. done. }
  2: { intros e s4 (_ & Hne & _). split; [by intros [= ->]|by intros [=]]. }
  intros home s4 ((seg4 & Ha4 & _) & _). wp_step. wp_step.
  destruct (validate_canonical_root home) as [[]|e] eqn:Er.
  2: { split; [|by intros [=]]. revert Er. unfold validate_canonical_root. case_match; [|done]. by intros [= <-] [=]. }
  wp_step. split; [done|]. intros _. split; [done| |].
  - cbn. pose proof (adds_ids _ _ _ Ha4) as Hi. cbn in Hi. rewrite Hn2, Hn1 in Hi. cbn in Hi. lia.
  - exists (pk_payload pk), exts. cbn. rewrite (adds_fsync _ _ _ Ha4), (adds_rename _ _ _ Ha4).
    split; [|done]. rewrite (adds_wire _ _ _ Ha4). cbn. rewrite (adds_wire _ _ _ Ha2), Hk. set_solver.
Qed.

(** ** Operations of a session *)

Inductive FileOp :=
  | OpList (path : string)
  | OpStat (path : string)
  | OpReadText (path : string)
  | OpDownload (path : string)
  | OpInspectUpload (path : string)
  | OpUpload (path : string) (expected : UploadPrecondition) (bytes temporary_suffix : string).

#[export] Instance file_op_eq_dec : EqDecision FileOp.
Proof. solve_decision. Defined.

Inductive FileAnswer :=
  | AnsList (v : FileListView)
  | AnsStat (v : FileStatView)
  | AnsText (v : FileTextView)
  | AnsBytes (v : string)
  | AnsPrecondition (v : UploadPrecondition).

Definition run_op (op : FileOp) : SM FileAnswer :=
  match op with
  | OpList path => let! v := list_path path in mret (AnsList v)
  | OpStat path => let! v := stat_path path in mret (AnsStat v)
  | OpReadText path => let! v := read_text path in mret (AnsText v)
  | OpDownload path => let! v := download path in mret (AnsBytes v)
  | OpInspectUpload path => let! v := inspect_upload path in mret (AnsPrecondition v)
  | OpUpload path expected bytes suffix =>
      let! v := atomic_upload path expected bytes suffix in mret (AnsPrecondition v)
  end.

(** What an operation may ask for. *)
Definition permitted (home : string) {KN : Knowledge home} (op : FileOp) (r : Request) : Prop :=
  match op with
  | OpUpload path _ _ suffix => upload_request home suffix (basename path) r
  | _ => browse home r
  end.

(** What an answer must be. *)
Definition answer_ok (op : FileOp) (a : FileAnswer) : Prop :=
  match op, a with
  | OpList path, AnsList v => listing_ok path v
  | OpStat path, AnsStat v => fs_path v = path
  | OpReadText path, AnsText v =>
      ft_size_bytes v = slen (ft_content v) /\ ft_size_bytes v <= FILE_MAX_TEXT_BYTES /\
      utf8_valid (ft_content v) = true /\ ft_digest v = sha256_digest (ft_content v)
  | OpDownload path, AnsBytes v => slen v <= FILE_MAX_DOWNLOAD_BYTES
  | OpInspectUpload path, AnsPrecondition v => uc_size_bytes v <= FILE_MAX_UPLOAD_BYTES
  | OpUpload path expected bytes suffix, AnsPrecondition v => uploaded expected bytes v
  | _, _ => False
  end.

Lemma answer_asks {A} home {KN : Knowledge home} P (R : A -> Prop) (S : FileAnswer -> Prop) (f : A -> FileAnswer) m :
  asks home P R m -> (forall a, R a -> S (f a)) -> asks home P S (let! v := m in mret (f v)).
Proof. intros Hm HS. asks_seq; [exact Hm|]. intros a Ha. apply asks_ret. auto. Qed.

Lemma run_op_asks home {KN : Knowledge home} op : asks home (permitted home op) (answer_ok op) (run_op op).
Proof.
  destruct op; cbn [run_op permitted];
    (eapply answer_asks; [|intros a Ha; exact Ha]).
  - by apply list_path_asks.
  - by apply stat_path_asks.
  - by apply read_text_asks.
  - by apply download_asks.
  - by apply inspect_upload_asks.
  - apply atomic_upload_asks.
Qed.

(** A session runs operations one after the other, whatever they return. *)
Fixpoint run_ops (ops : list FileOp) (s : SftpProtocol) : list (result string FileAnswer) * SftpProtocol :=
  match ops with
  | [] => ([], s)
  | op :: rest =>
      let (r, s1) := run_op op s in
      let (rs, s2) := run_ops rest s1 in (r :: rs, s2)
  end.

Definition answered_ok (op : FileOp) (r : result string FileAnswer) : Prop :=
  match r with Ok a => answer_ok op a | Err e => e <> LOOP_BOUND end.

Lemma extends_run_op op : Extends (run_op op).
Proof.
  destruct op; cbn [run_op];
    unfold list_path, stat_path, read_text, download, read_file, inspect_upload, atomic_upload; extends_tac.
Qed.

Lemma extends_run_ops ops s : exists seg, sp_wire (run_ops ops s).2 = seg ++ sp_wire s.
Proof.
  revert s. induction ops as [|op ops IH]; intros s; cbn [run_ops]; [by exists []|].
  destruct (extends_run_op op s) as [seg1 H1]. destruct (run_op op s) as [r s1]. cbn in H1.
  destruct (IH s1) as [seg2 H2]. destruct (run_ops ops s1) as [rs s2]. cbn in *. exists (seg2 ++ seg1). by rewrite H2, H1, app_assoc.
Qed.

Lemma run_ops_asks home {KN : Knowledge home} ops s rs s' :
  ready home s -> run_ops ops s = (rs, s') -> guard (sp_wire s') ->
  grown (fun r => exists op, op ∈ ops /\ permitted home op r) s s' /\ Forall2 answered_ok ops rs.
Proof.
  revert s rs s'. induction ops as [|op ops IH]; intros s rs s' Hs; cbn [run_ops].
  { intros [= <- <-] _. split; [apply grown_refl|constructor]. }
  destruct (run_op op s) as [r s1] eqn:E1. destruct (run_ops ops s1) as [rs2 s2] eqn:E2.
  intros [= <- <-] Hg2. assert (guard (sp_wire s1)) as Hg1.
  { destruct (extends_run_ops ops s1) as [seg Hseg]. rewrite E2 in Hseg. cbn in Hseg. rewrite Hseg in Hg2. by eapply guard_older. }
  pose proof (wp_result _ _ _ _ _ (run_op_asks home op s Hs) E1 Hg1) as (Hg & Hne & HR).
  destruct (IH _ _ _ (grown_ready _ _ _ _ Hg Hs) E2 Hg2) as [Hgr Hall]. split.
  - eapply grown_trans; [eapply grown_weaken; [|exact Hg]|eapply grown_weaken; [|exact Hgr]]; set_solver.
  - constructor; [|done]. destruct r as [a|e]; [by apply HR|]. intros ->. done.
Qed.

Lemma run_op_always home op s : ready home s ->
  wp (run_op op) (asked (permitted home (KN := textual home) op) (answer_ok op) s) s.
Proof. apply asks_always, run_op_asks. Qed.
End Session.

(** ** Paths, component by component

    A server that answers with canonical paths gives them without empty, [.] or
    [..] components; every path the client then names descends from the home. *)

Definition real_component (c : string) : Prop := c <> ""%string /\ c <> "."%string /\ c <> ".."%string.

Definition canonical_answers (wire : list Wire) : Prop :=
  forall path canonical, answered wire path canonical -> Forall real_component (tail (ssplit "/" canonical)).

Definition below (home path : string) : Prop :=
  exists rest, ssplit "/" path = ssplit "/" home ++ rest /\ Forall real_component rest.

Definition request_paths (r : Request) : list string :=
  match r with
  | Realpath p | Stat p | Lstat p | Opendir p | OpenRead p | OpenWrite p _ | Remove p => [p]
  | Rename a b => [a; b]
  | Readdir _ | Read _ _ | Write _ _ _ | Close _ | Fsync _ => []
  end.

Lemma ssplit_nonempty sep s : exists c l, ssplit sep s = c :: l.
Proof. induction s as [|c s (c' & l & IH)]; cbn [ssplit]; [by eexists _, _|]. rewrite IH. destruct (Ascii.eqb c sep); eauto. Qed.

Lemma ssplit_app sep a b : ssplit sep (a +:+ String sep b) = ssplit sep a ++ ssplit sep b.
Proof.
  induction a as [|c a IH]; cbn [ssplit]; [change ("" +:+ String sep b) with (String sep b); cbn [ssplit]; by rewrite Ascii.eqb_refl|].
  rewrite sapp_cons. cbn [ssplit]. rewrite IH. destruct (Ascii.eqb c sep); [done|].
  by destruct (ssplit_nonempty sep a) as (piece & rest & ->).
Qed.

Lemma ssplit_slash a b : ssplit "/" (a +:+ "/" +:+ b) = ssplit "/" a ++ ssplit "/" b.
Proof. apply ssplit_app. Qed.

Lemma sany_cons p c s : sany p (String c s) = p c || sany p s.
Proof. unfold sany. cbn [sall]. by rewrite negb_andb, negb_involutive. Qed.

Lemma ssplit_single sep s : contains_char sep s = false -> ssplit sep s = [s].
Proof.
  unfold contains_char. induction s as [|c s IH]; [done|]. rewrite sany_cons. cbn [ssplit]. intros [Hc Hs]%orb_false_iff.
  rewrite (IH Hs). rewrite Ascii.eqb_sym in Hc. by rewrite Hc.
Qed.

Lemma plain_real c : plain_component c -> real_component c.
Proof. by intros (? & ? & ? & _). Qed.

Lemma below_entry home parent name :
  below home parent -> real_component name -> contains_char "/" name = false -> below home (parent +:+ "/" +:+ name).
Proof.
  intros (rest & Hs & Hf) Hn Hc. exists (rest ++ [name]). split.
  - by rewrite ssplit_slash, Hs, (ssplit_single _ _ Hc), app_assoc.
  - apply Forall_app. split; [done|]. by apply Forall_singleton.
Qed.

Lemma below_candidate home path : candidate home path -> below home path.
Proof.
  intros [->|(rest & -> & _ & Hf)]; [by exists []; rewrite app_nil_r|].
  exists (ssplit "/" rest). rewrite ssplit_slash. split; [done|]. eapply Forall_impl; [exact Hf|]. apply plain_real.
Qed.

Lemma sany_app p a b : sany p (a +:+ b) = sany p a || sany p b.
Proof. induction a as [|c a IH]; [done|]. by rewrite sapp_cons, !sany_cons, IH, orb_assoc. Qed.

Lemma hex_no_slash s : sall is_lower_hex s = true -> contains_char "/" s = false.
Proof.
  unfold contains_char. induction s as [|c s IH]; [done|]. cbn [sall]. intros [Hc Hs]%andb_true_iff.
  rewrite sany_cons, (IH Hs). destruct (Ascii.eqb_spec "/" c) as [<-|]; [by vm_compute in Hc|done].
Qed.

Section Below.
Context (home : string) (ending : list Wire).
Hypothesis Hcan : canonical_answers ending.
#[local] Instance ending_knowledge : Knowledge home := witnessed home ending.

Lemma below_trusted canonical : trusted home canonical -> below home canonical.
Proof using Hcan.
  intros [Hw (path & _ & Ha)]. specialize (Hcan _ _ Ha). destruct Hw as [->|[rest ->]]; [by exists []; rewrite app_nil_r|].
  exists (ssplit "/" rest). rewrite ssplit_slash in *. split; [done|].
  destruct (ssplit_nonempty "/" home) as (c & l & El). rewrite El in Hcan. cbn in Hcan. by apply Forall_app in Hcan as [_ ?].
Qed.

Lemma below_lookup path : lookup home path -> below home path.
Proof using Hcan.
  intros [Ht|(parent & name & Ht & [Hp Hc] & ->)]; [by apply below_trusted|].
  apply below_entry; [by apply below_trusted|by apply plain_real|done].
Qed.

Lemma below_temporary parent suffix :
  trusted home parent -> validate_temporary_suffix suffix = Ok tt -> below home (temporary_path parent suffix).
Proof using Hcan.
  intros Ht Hv. unfold validate_temporary_suffix in Hv. destruct (_ && _) eqn:E; [|done].
  apply andb_true_iff in E as [_ E]. unfold temporary_path.
  change ("/.jw-agent-upload-" +:+ suffix +:+ ".tmp") with ("/" +:+ (".jw-agent-upload-" +:+ suffix +:+ ".tmp")).
  apply below_entry; [by apply below_trusted|by repeat split|].
  pose proof (hex_no_slash _ E) as Hs. unfold contains_char in *. by rewrite !sany_app, Hs.
Qed.

Lemma below_permitted op r path : permitted home op r -> path ∈ request_paths r -> below home path.
Proof using Hcan.
  assert (browse home r -> path ∈ request_paths r -> below home path) as Hb.
  { destruct r; cbn [browse request_paths]; try done; try (intros _ []%elem_of_nil); intros Hr ->%list_elem_of_singleton;
      eauto using below_candidate, below_trusted, below_lookup. }
  destruct op; cbn [permitted]; [exact Hb..|].
  destruct r; cbn [upload_request]; try exact Hb; cbn [request_paths]; try (intros _ []%elem_of_nil).
  - intros (parent & Ht & Hv & -> & _) ->%list_elem_of_singleton. by apply below_temporary.
  - intros (parent & Ht & Hv & -> & [Hp Hc] & ->) [->|Hlast]%elem_of_cons;
      [|apply list_elem_of_singleton in Hlast as ->]; [by apply below_temporary|].
    apply below_entry; [by apply below_trusted|by apply plain_real|done].
  - intros (parent & Ht & Hv & ->) ->%list_elem_of_singleton. by apply below_temporary.
Qed.
End Below.

(** The names a wire holds alone in a reply. *)
Definition names_given (wire : list Wire) : list string :=
  omap (fun w => match w with
                 | Received k payload =>
                     if k =? SSH_FXP_NAME
                     then match parse_names (sdrop 4 payload) with Ok [entry] => Some (ne_filename entry) | _ => None end
                     else None
                 | Sent _ _ => None
                 end) wire.

Lemma answered_given wire path canonical : answered wire path canonical -> canonical ∈ names_given wire.
Proof.
  intros (newer & older & id & payload & entry & -> & Hp & <-). apply list_elem_of_omap.
  eexists. split; [apply elem_of_app; right; left|]. cbv beta iota.
  by rewrite Z.eqb_refl, (sdrop_app 4 (be32 id) payload), Hp by done.
Qed.

Lemma canonical_given wire :
  Forall (fun name => Forall real_component (tail (ssplit "/" name))) (names_given wire) -> canonical_answers wire.
Proof. intros Hf path canonical Ha%answered_given. rewrite Forall_forall in Hf. by apply Hf. Qed.
