(* ===== verification/SftpProps.v ===== *)
(** * Properties of the file-transfer client and of the frame codec *)

From Stdlib Require Import Ascii String.
From S2P Require Import Prelude Crypto Text Bytes Loops Files Sftp SftpWire SftpTrace SftpClient.
From S2P Require Import SftpUpload SftpSession Reference.

Section Properties.
Context `{PE : Peer} `{SH : Sha256} `{UN : Unicode}.

(** C27: whatever the server answers, a started session has a proper absolute
    home, and every packet it ever sends afterwards is a well-formed request
    with a fresh, increasing id that one of its operations permits.  Canonical
    paths are asked only for the home or for plain components below it, at most
    1024 bytes, none of them empty, [.], [..], longer than 255 bytes or with a
    forbidden byte; every other path named is a canonical path the server gave
    for such a question on this very wire and that lies at or below the home, or
    a plain entry of such a directory.  Browsing never writes; an upload only
    creates and removes its own temporary file there and renames it to the
    requested name in the same directory.  If the server's canonical paths have
    no empty, [.] or [..] component, every path named descends from the home
    component by component. *)
Theorem sftp_session_confined p s0 ops rs s :
  initialize (new_protocol p) = (Ok tt, s0) -> run_ops ops s0 = (rs, s) ->
  let home := sp_home s0 in
  let permitted := permitted home (KN := witnessed home (sp_wire s)) in
  let sent_only P new := requests P (sp_next_request_id s0) (sp_next_request_id s) new in
  validate_canonical_root home = Ok tt /\
  exists new, sp_wire s = new ++ sp_wire s0 /\
    sent_only (fun r => exists op, op ∈ ops /\ permitted op r) new /\
    (canonical_answers (sp_wire s) ->
     sent_only (fun r => forall path, path ∈ request_paths r -> below home path) new).
Proof.
  intros Hi Hr home perm sent_only. destruct (wp_result _ _ _ _ _ (initialize_ok p) Hi) as [_ Hs].
  destruct (Hs eq_refl) as [Hroot Hids _]. split; [done|].
  destruct (run_ops_asks home (KN := witnessed home (sp_wire s)) ops s0 rs s) as [(new & Ha & Hreq) _];
    [by split|done|by exists []|].
  exists new. split; [apply Ha|]. split; [done|]. intros Hcan. eapply requests_weaken; [exact Hreq|done|].
  intros r (op & _ & Hp) path. by eapply below_permitted.
Qed.

(** Starting a session and every operation of it end by themselves for
    every behaviour of the server: no loop runs into its bound. *)
Theorem sftp_operations_end p :
  (initialize (new_protocol p)).1 <> Err LOOP_BOUND /\
  forall s op, 0 <= sp_next_request_id s -> (run_op op s).1 <> Err LOOP_BOUND.
Proof.
  split; [apply (initialize_ok p)|]. intros s op Hid.
  by destruct (run_op_always (sp_home s) op s) as (_ & Hne & _); [split|].
Qed.

(** What the operations return is bounded and checked: listings have at
    most 500 entries with safe names and paths below the listed one, sorted
    with directories first unless cut off at exactly 500; texts are at most
    256 KiB of valid UTF-8 with their digest; downloads at most 8 MiB; a
    reported upload has the digest, size and permissions asked for. *)
Theorem sftp_answers_checked home s ops rs s' :
  ready home s -> run_ops ops s = (rs, s') -> Forall2 answered_ok ops rs.
Proof. intros Hs Hr. by destruct (run_ops_asks home (KN := textual home) ops s rs s' Hs Hr). Qed.

(** A download returns exactly the bytes the server sent for one open
    regular file, whose canonical path it gave for the requested one and which
    lies at or below the home: the data replies at consecutive offsets from 0,
    up to the reply that reports the end of the file. *)
Theorem sftp_download_exact home path s bytes s' :
  ready home s -> download path s = (Ok bytes, s') ->
  exists canonical asking new, sp_wire s' = new ++ asking ++ sp_wire s /\
    resolved home path canonical asking /\ file_read canonical bytes new.
Proof.
  intros Hs Hd. destruct (wp_result _ _ _ _ _ (read_file_trace home path _ _ s Hs) Hd _ eq_refl)
    as (canonical & seg & new & Ha & Hres & Hf).
  exists canonical, seg, new. split; [rewrite (adds_wire _ _ _ Ha); by rewrite <- app_assoc|done].
Qed.

(** C31: an upload sends nothing but look-ups unless these found the target in
    the expected state: absent, or a regular file whose permissions, size and
    digest, of its content read in full, are the expected ones.  It asks for at
    most one rename, of its own temporary file to the requested name in the
    same directory, and only right after it created that file exclusively with
    the expected permissions, had every byte of the content written in order
    and acknowledged, and had the file flushed and closed with acknowledgement.
    When it reports success, all of this took place, the rename was sent (its
    packet is only withheld when it exceeds the limit of 256 KiB), and the last
    packets read the target back with the reported state, which has the digest
    and size of the content and the expected permissions. *)
Theorem sftp_upload_publishes home path expected bytes suffix s r s' :
  ready home s -> atomic_upload path expected bytes suffix s = (r, s') ->
  exists new, sp_wire s' = new ++ sp_wire s /\
    publication home path suffix bytes expected new /\
    forall post, r = Ok post ->
      uploaded expected bytes post /\ published home path suffix bytes expected post new.
Proof.
  intros Hs Hu.
  destruct (wp_result _ _ _ _ _ (atomic_upload_publication home path suffix bytes expected s Hs) Hu) as (new & Ha & Hp & Hok).
  exists new. split; [apply Ha|]. split; [done|]. intros post Hr. split; [|by apply Hok].
  destruct (wp_result _ _ _ _ _ (asks_always home _ _ _ s (atomic_upload_asks home (KN := textual home) path expected bytes suffix) Hs) Hu)
    as (_ & _ & HR). by apply HR.
Qed.

(** The reply parsers accept exactly the replies of the protocol's
    grammar, with nothing left over, and return what was encoded: status
    codes, attributes with every combination of optional parts, and counted
    name lists up to the limit. *)
Theorem sftp_replies_exact payload :
  slen payload <= usize_max ->
  (forall status, parse_status payload = Ok status <->
     exists message language, payload = wire_status status message language /\ in_u32 status /\
       slen message <= u32_max /\ slen language <= u32_max) /\
  (forall attrs, on_payload attrs_cursor payload = Ok attrs <->
     exists a, payload = wire_attrs a /\ attrs_fit a /\ attrs = attrs_view a) /\
  (forall names, parse_names payload = Ok names <->
     exists ns, payload = wire_names ns /\ Z.of_nat (length ns) <= FILE_MAX_LIST_ENTRIES + 2 /\
       Forall name_fits ns /\ names = map name_view ns).
Proof.
  intros Hl. split; [intros; by apply parse_status_iff|]. split; intros.
  - by apply attrs_cursor_iff.
  - by apply parse_names_iff.
Qed.
End Properties.

(** Values framed one after the other on a stream are read back in order,
    leaving what follows; conversely every value a read returns was carried by
    a complete frame within the limit, and [decode_frame] accepts exactly such
    frames. *)
Theorem frame_stream_roundtrip {T} `{Json T} (values : list T) (maximum : Z) (stream rest : string) :
  write_all_frames values maximum "" = Ok stream ->
  read_frames (length values) maximum (stream +:+ rest) = (Ok values, rest) /\
  (forall incoming value rest', read_frame maximum incoming = (Ok value, rest') ->
     exists frame, incoming = frame +:+ rest' /\ decode_frame frame maximum = Ok (value : T)) /\
  (forall frame value, decode_frame frame maximum = Ok (value : T) <->
     exists payload, frame = be32 (slen payload) +:+ payload /\
       1 <= slen payload <= Z.min maximum u32_max /\ from_json payload = Some value).
Proof.
  intros Hw. destruct (write_all_frames_app _ _ _ _ Hw) as (sent & -> & Hr). split; [apply Hr|]. split.
  - intros incoming value rest' Hread. destruct (read_frame_sound _ _ _ _ Hread) as (frame & -> & Hf).
    exists frame. split; [done|]. by apply decode_frame_iff.
  - intros frame value. apply decode_frame_iff.
Qed.

(** ** A server for the witnesses: a script of replies *)
Module SftpDemo.

#[refine] Definition script_peer : Peer :=
  {| peer := string;
     peer_write_all _ p := (Ok tt, p);
     peer_flush p := (Ok tt, p);
     peer_read_exact n p := if slen p <? n then (Err IoFailed, p)
                            else (Ok (stake (Z.to_nat n) p), sdrop (Z.to_nat n) p) |}.
Proof.
  intros n p bytes p'. destruct (_ <? _) eqn:E; [done|]. intros [= <- <-] Hn. bool_prop.
  unfold slen in *. rewrite stake_length; lia.
Defined.

Definition ascii_unicode : Unicode := {| to_lowercase := to_ascii_lowercase |}.

Definition json_string : Json string := json_of_codec string.

#[export] Existing Instances script_peer ascii_unicode sha256_checksum json_string.

Definition packet (kind : Z) (payload : string) : string :=
  be32 (slen payload + 1) +:+ String (chr kind) payload.

Definition reply (kind id : Z) (fields : string) : string := packet kind (be32 id +:+ fields).

Definition mode (m : Z) (size : option Z) : WireAttrs :=
  {| wa_size := size; wa_owner := None; wa_permissions := Some m; wa_times := Some (7, 9); wa_extended := None |}.

Definition named (name : string) : string :=
  wire_names [{| wn_filename := name; wn_longname := ""; wn_attrs := mode 16877 None |}].

Definition status (id code : Z) : string := reply 101 id (wire_status code "" "").

Definition greeting : string :=
  packet 2 (wire_version [("fsync@openssh.com", "1"); ("posix-rename@openssh.com", "1")])
  +:+ reply 104 1 (named "/home/u").

(** A regular file read through handle [h], from request [id] on. *)
Definition serve_file (id : Z) (content : string) : string :=
  reply 105 id (wire_attrs (mode 33188 (Some (slen content))))
  +:+ reply 102 (id + 1) (field "h") +:+ reply 103 (id + 2) (field content)
  +:+ status (id + 3) 1 +:+ status (id + 4) 0.

Definition serve_target (id : Z) (content : string) : string :=
  reply 104 id (named "/home/u") +:+ reply 105 (id + 1) (wire_attrs (mode 16877 None))
  +:+ reply 105 (id + 2) (wire_attrs (mode 33188 None)) +:+ serve_file (id + 3) content.

Definition suffix : string := "0123456789abcdef0123456789abcdef".

Definition before : UploadPrecondition :=
  {| uc_target_state := ReplaceTarget; uc_digest := Some (sha256_digest "hello");
     uc_size_bytes := 5; uc_permissions := 420 |}.

Definition script : @peer script_peer :=
  greeting
  +:+ reply 104 2 (named "/home/u/a") +:+ serve_file 3 "hello"
  +:+ serve_target 8 "hello"
  +:+ reply 102 16 (field "t") +:+ status 17 0 +:+ status 18 0 +:+ status 19 0 +:+ status 20 0
  +:+ serve_target 21 "world"
  +:+ reply 104 29 (named "/home/u") +:+ reply 105 30 (wire_attrs (mode 16877 None))
  +:+ reply 102 31 (field "d")
  +:+ reply 104 32 (wire_names [{| wn_filename := "b"; wn_longname := ""; wn_attrs := mode 33188 (Some 5) |};
                                {| wn_filename := "."; wn_longname := ""; wn_attrs := mode 16877 None |};
                                {| wn_filename := "Z"; wn_longname := ""; wn_attrs := mode 16877 None |}])
  +:+ status 33 1 +:+ status 34 0.

Definition session : list FileOp := [OpDownload "a"; OpUpload "a" before "world" suffix; OpList ""].

Definition fresh : SftpProtocol := (initialize (new_protocol script)).2.
Definition ended : list (result string FileAnswer) * SftpProtocol := run_ops session fresh.
Definition fresh_upload : SftpProtocol := (download "a" fresh).2.

Lemma fresh_started : initialize (new_protocol script) = (Ok tt, fresh).
Proof. vm_compute. reflexivity. Defined.

Lemma fresh_ready : ready (sp_home fresh) fresh.
Proof. split; [reflexivity|]. vm_compute. discriminate. Defined.

Lemma ready_upload : ready (sp_home fresh_upload) fresh_upload.
Proof. split; [reflexivity|]. vm_compute. discriminate. Defined.
End SftpDemo.

Module SftpWitness.
Import SftpDemo.

Lemma sftp_session_confined_witness :
  let home := sp_home fresh in
  run_ops session fresh = (ended.1, ended.2) /\ length (sp_wire ended.2) = 70%nat /\
  canonical_answers (sp_wire ended.2) /\ validate_canonical_root home = Ok tt /\
  exists new, sp_wire ended.2 = new ++ sp_wire fresh /\
    requests (fun r => exists op, op ∈ session /\ permitted home (KN := witnessed home (sp_wire ended.2)) op r)
      (sp_next_request_id fresh) (sp_next_request_id ended.2) new /\
    requests (fun r => forall path, path ∈ request_paths r -> below home path)
      (sp_next_request_id fresh) (sp_next_request_id ended.2) new.
Proof.
  cbv zeta. split; [vm_compute; reflexivity|]. split; [vm_compute; reflexivity|].
  assert (canonical_answers (sp_wire ended.2)) as Hcan.
  { apply canonical_given. vm_compute. repeat constructor; discriminate. }
  split; [exact Hcan|].
  destruct (sftp_session_confined script fresh session ended.1 ended.2) as (Hroot & new & Hnew & Hreq & Hbelow);
    [exact fresh_started|vm_compute; reflexivity|].
  split; [exact Hroot|]. exists new. split; [exact Hnew|]. split; [exact Hreq|exact (Hbelow Hcan)].
Defined.

Lemma sftp_operations_end_witness :
  (initialize (new_protocol script)).1 <> Err LOOP_BOUND /\ (run_op (OpDownload "a") fresh).1 <> Err LOOP_BOUND.
Proof.
  destruct (sftp_operations_end script) as [Hi Hop]. split; [exact Hi|].
  apply Hop. vm_compute. discriminate.
Defined.

Lemma sftp_answers_checked_witness :
  map is_ok ended.1 = [true; true; true] /\ Forall2 answered_ok session ended.1.
Proof.
  split; [vm_compute; reflexivity|].
  apply (sftp_answers_checked (sp_home fresh) fresh session ended.1 ended.2 fresh_ready).
  vm_compute. reflexivity.
Defined.

Lemma sftp_download_exact_witness :
  exists canonical asking new, sp_wire fresh_upload = new ++ asking ++ sp_wire fresh /\
    resolved (sp_home fresh) "a" canonical asking /\ file_read canonical "hello" new.
Proof.
  apply (sftp_download_exact (sp_home fresh) "a" fresh "hello" fresh_upload fresh_ready).
  vm_compute. reflexivity.
Defined.

Lemma sftp_upload_publishes_witness :
  let r := atomic_upload "a" before "world" suffix fresh_upload in
  exists post, r.1 = Ok post /\
  exists new, sp_wire r.2 = new ++ sp_wire fresh_upload /\
    publication (sp_home fresh_upload) "a" suffix "world" before new /\
    uploaded before "world" post /\ published (sp_home fresh_upload) "a" suffix "world" before post new.
Proof.
  cbv zeta. eexists. split; [vm_compute; reflexivity|].
  destruct (sftp_upload_publishes (sp_home fresh_upload) "a" before "world" suffix fresh_upload _ _ ready_upload
    (surjective_pairing _)) as (new & Hnew & Hp & Hok).
  exists new. split; [exact Hnew|]. split; [exact Hp|]. apply Hok. vm_compute. reflexivity.
Defined.

Lemma sftp_replies_exact_witness :
  parse_status (wire_status 2 "missing" "en") = Ok 2 /\
  (forall status, parse_status (wire_status 2 "missing" "en") = Ok status <->
     exists message language, wire_status 2 "missing" "en" = wire_status status message language /\
       in_u32 status /\ slen message <= u32_max /\ slen language <= u32_max).
Proof.
  split; [vm_compute; reflexivity|].
  apply (sftp_replies_exact (wire_status 2 "missing" "en")). vm_compute. discriminate.
Defined.

Lemma frame_stream_roundtrip_witness :
  let stream := write_all_frames ["first"; "second"]%string 64 "" in
  exists bytes, stream = Ok bytes /\
    read_frames 2 64 (bytes +:+ "tail") = (Ok ["first"; "second"]%string, "tail"%string).
Proof.
  cbv zeta. eexists. split; [vm_compute; reflexivity|].
  apply (frame_stream_roundtrip ["first"; "second"]%string 64 _ "tail"). vm_compute. reflexivity.
Defined.
End SftpWitness.
