(* ===== verification/WebStore.v ===== *)
(** * The web agent's store: sessions, claims, enrolments and audit tables

    The SQLite tables of jw-agentd (migrations/0001–0006) as finite maps, the
    transactions that change them, and the external crates the session and
    TOTP code calls: random numbers, time formatting, base64, AEAD and HMAC
    enter as the parameter [WebCrypto] and the per-call environment [Env]. *)

From Stdlib Require Import Ascii String.
From S2P Require Import Prelude Crypto Contracts Text Bytes.

(** ** External crates *)

Definition is_token_byte (c : ascii) : bool := is_ascii_alphanumeric c || byte_is 45 c || byte_is 95 c.

Class WebCrypto := {
  wc_sha :: Sha256;
  (** [time] formatting; [None] when the timestamp is out of range. *)
  web_rfc3339 : Z -> option string;
  (** [URL_SAFE_NO_PAD]: 32 bytes are 43 characters of its alphabet. *)
  web_base64url : string -> string;
  web_base64url_token : forall s, slen s = 32 ->
    slen (web_base64url s) = 43 /\ sall is_token_byte (web_base64url s) = true;
  (** [ChaCha20Poly1305] with key, nonce and associated data. *)
  aead_encrypt : string -> string -> string -> string -> option string;
  aead_decrypt : string -> string -> string -> string -> option string;
  aead_roundtrip : forall key nonce aad msg c,
    aead_encrypt key nonce aad msg = Some c -> aead_decrypt key nonce aad c = Some msg;
  aead_length : forall key nonce aad msg c,
    aead_encrypt key nonce aad msg = Some c -> slen c = slen msg + 16;
  (** [Hmac<Sha1>]: 20 bytes. *)
  hmac_sha1 : string -> string -> string;
  hmac_sha1_length : forall key msg, slen (hmac_sha1 key msg) = 20;
}.

(** What one call finds: whether the database can be opened and the
    transaction committed, and the answers of [getrandom], numbered by the place
    of the call in the operation. *)
Record Env := {
  env_open : bool;
  env_commit : bool;
  env_random : nat -> option string;
}.

(** ** Rows *)

Inductive IngressChannel := PublicIngress | RecoveryIngress.
#[export] Instance ingress_eq_dec : EqDecision IngressChannel.
Proof. solve_decision. Defined.

Record SessionRow := {
  se_ingress : string;
  se_subject_uid : Z;
  se_subject_username : string;
  se_subject_role : string;
  se_authenticated_at : Z;
  se_last_seen_at : Z;
  se_idle_expires_at : Z;
  se_absolute_expires_at : Z;
  se_revoked_at : option Z;
}.

Record AdminRow := {
  aa_subject_uid : Z;
  aa_granted_at : Z;
  aa_expires_at : Z;
  aa_revoked_at : option Z;
}.

Record AdminEvent := {
  ae_subject_uid : Z;
  ae_ingress : string;
  ae_event_type : string;
  ae_result : string;
  ae_occurred_at : Z;
}.

Record ReauthRow := {
  rc_session_digest : string;
  rc_subject_uid : Z;
  rc_purpose : string;
  rc_context_digest : string;
  rc_expires_at : Z;
  rc_consumed_at : option Z;
}.

Record AdditionalRow := {
  ad_reauth_digest : string;
  ad_session_digest : string;
  ad_subject_uid : Z;
  ad_context_digest : string;
  ad_expires_at : Z;
  ad_consumed_at : option Z;
}.

Record EnrollmentRow := {
  en_enrollment_id : string;
  en_secret_nonce : string;
  en_secret_ciphertext : string;
  en_state : string;
  en_first_confirmed_step : option Z;
  en_last_observed_step : option Z;
  en_created_at : Z;
  en_expires_at : Z;
  en_activated_at : option Z;
}.

Record TotpAuditRow := {
  ta_subject_uid : Z;
  ta_action : string;
  ta_result : string;
  ta_context_digest : string;
  ta_occurred_at : Z;
}.

Record TerminalRow := {
  tr_actor_uid : Z;
  tr_actor_username : string;
  tr_ingress : string;
  tr_started_at : Z;
  tr_ended_at : option Z;
  tr_close_reason : option string;
  tr_bytes_in : Z;
  tr_bytes_out : Z;
  tr_state : string;
}.

Record FileSessionRow := {
  fr_actor_uid : Z;
  fr_actor_username : string;
  fr_ingress : string;
  fr_started_at : Z;
  fr_ended_at : option Z;
  fr_close_reason : option string;
  fr_state : string;
}.

Record FileAccessRow := {
  fa_session_id : string;
  fa_action : string;
  fa_path_digest : string;
  fa_byte_count : Z;
  fa_result : string;
  fa_occurred_at : Z;
}.

Record UploadRow := {
  ul_session_id : string;
  ul_path_digest : string;
  ul_target_state : string;
  ul_before_digest : option string;
  ul_after_digest : string;
  ul_byte_count : Z;
  ul_state : string;
  ul_result : option string;
  ul_planned_at : Z;
  ul_started_at : option Z;
  ul_ended_at : option Z;
}.

(** ** Tables *)

Record Store := {
  sessions : gmap string SessionRow;
  administrative_access : gmap string AdminRow;
  administrative_access_events : list AdminEvent;
  reauth_claims : gmap string ReauthRow;
  additional_auth_claims : gmap string AdditionalRow;
  additional_auth_policy_setting : option string;
  totp_enrollments : gmap Z EnrollmentRow;
  totp_recovery_codes : gmap (Z * string) (option Z);
  totp_used_steps : gmap (Z * Z) Z;
  totp_audit_events : list TotpAuditRow;
  terminal_sessions : gmap string TerminalRow;
  file_sessions : gmap string FileSessionRow;
  file_access_events : list FileAccessRow;
  file_uploads : gmap string UploadRow;
}.

Definition upd_sessions (f : (gmap string SessionRow) -> gmap string SessionRow) (s : Store) : Store :=
  {| sessions := f (sessions s); administrative_access := administrative_access s;
     administrative_access_events := administrative_access_events s;
     reauth_claims := reauth_claims s; additional_auth_claims := additional_auth_claims s;
     additional_auth_policy_setting := additional_auth_policy_setting s;
     totp_enrollments := totp_enrollments s; totp_recovery_codes := totp_recovery_codes s;
     totp_used_steps := totp_used_steps s; totp_audit_events := totp_audit_events s;
     terminal_sessions := terminal_sessions s; file_sessions := file_sessions s;
     file_access_events := file_access_events s; file_uploads := file_uploads s |}.

Definition upd_administrative_access (f : (gmap string AdminRow) -> gmap string AdminRow) (s : Store) : Store :=
  {| sessions := sessions s; administrative_access := f (administrative_access s);
     administrative_access_events := administrative_access_events s;
     reauth_claims := reauth_claims s; additional_auth_claims := additional_auth_claims s;
     additional_auth_policy_setting := additional_auth_policy_setting s;
     totp_enrollments := totp_enrollments s; totp_recovery_codes := totp_recovery_codes s;
     totp_used_steps := totp_used_steps s; totp_audit_events := totp_audit_events s;
     terminal_sessions := terminal_sessions s; file_sessions := file_sessions s;
     file_access_events := file_access_events s; file_uploads := file_uploads s |}.

Definition upd_administrative_access_events (f : (list AdminEvent) -> list AdminEvent) (s : Store) : Store :=
  {| sessions := sessions s; administrative_access := administrative_access s;
     administrative_access_events := f (administrative_access_events s);
     reauth_claims := reauth_claims s; additional_auth_claims := additional_auth_claims s;
     additional_auth_policy_setting := additional_auth_policy_setting s;
     totp_enrollments := totp_enrollments s; totp_recovery_codes := totp_recovery_codes s;
     totp_used_steps := totp_used_steps s; totp_audit_events := totp_audit_events s;
     terminal_sessions := terminal_sessions s; file_sessions := file_sessions s;
     file_access_events := file_access_events s; file_uploads := file_uploads s |}.

Definition upd_reauth_claims (f : (gmap string ReauthRow) -> gmap string ReauthRow) (s : Store) : Store :=
  {| sessions := sessions s; administrative_access := administrative_access s;
     administrative_access_events := administrative_access_events s;
     reauth_claims := f (reauth_claims s); additional_auth_claims := additional_auth_claims s;
     additional_auth_policy_setting := additional_auth_policy_setting s;
     totp_enrollments := totp_enrollments s; totp_recovery_codes := totp_recovery_codes s;
     totp_used_steps := totp_used_steps s; totp_audit_events := totp_audit_events s;
     terminal_sessions := terminal_sessions s; file_sessions := file_sessions s;
     file_access_events := file_access_events s; file_uploads := file_uploads s |}.

Definition upd_additional_auth_claims (f : (gmap string AdditionalRow) -> gmap string AdditionalRow) (s : Store) : Store :=
  {| sessions := sessions s; administrative_access := administrative_access s;
     administrative_access_events := administrative_access_events s;
     reauth_claims := reauth_claims s; additional_auth_claims := f (additional_auth_claims s);
     additional_auth_policy_setting := additional_auth_policy_setting s;
     totp_enrollments := totp_enrollments s; totp_recovery_codes := totp_recovery_codes s;
     totp_used_steps := totp_used_steps s; totp_audit_events := totp_audit_events s;
     terminal_sessions := terminal_sessions s; file_sessions := file_sessions s;
     file_access_events := file_access_events s; file_uploads := file_uploads s |}.

Definition upd_additional_auth_policy_setting (f : (option string) -> option string) (s : Store) : Store :=
  {| sessions := sessions s; administrative_access := administrative_access s;
     administrative_access_events := administrative_access_events s;
     reauth_claims := reauth_claims s; additional_auth_claims := additional_auth_claims s;
     additional_auth_policy_setting := f (additional_auth_policy_setting s);
     totp_enrollments := totp_enrollments s; totp_recovery_codes := totp_recovery_codes s;
     totp_used_steps := totp_used_steps s; totp_audit_events := totp_audit_events s;
     terminal_sessions := terminal_sessions s; file_sessions := file_sessions s;
     file_access_events := file_access_events s; file_uploads := file_uploads s |}.

Definition upd_totp_enrollments (f : (gmap Z EnrollmentRow) -> gmap Z EnrollmentRow) (s : Store) : Store :=
  {| sessions := sessions s; administrative_access := administrative_access s;
     administrative_access_events := administrative_access_events s;
     reauth_claims := reauth_claims s; additional_auth_claims := additional_auth_claims s;
     additional_auth_policy_setting := additional_auth_policy_setting s;
     totp_enrollments := f (totp_enrollments s); totp_recovery_codes := totp_recovery_codes s;
     totp_used_steps := totp_used_steps s; totp_audit_events := totp_audit_events s;
     terminal_sessions := terminal_sessions s; file_sessions := file_sessions s;
     file_access_events := file_access_events s; file_uploads := file_uploads s |}.

Definition upd_totp_recovery_codes (f : (gmap (Z * string) (option Z)) -> gmap (Z * string) (option Z)) (s : Store) : Store :=
  {| sessions := sessions s; administrative_access := administrative_access s;
     administrative_access_events := administrative_access_events s;
     reauth_claims := reauth_claims s; additional_auth_claims := additional_auth_claims s;
     additional_auth_policy_setting := additional_auth_policy_setting s;
     totp_enrollments := totp_enrollments s; totp_recovery_codes := f (totp_recovery_codes s);
     totp_used_steps := totp_used_steps s; totp_audit_events := totp_audit_events s;
     terminal_sessions := terminal_sessions s; file_sessions := file_sessions s;
     file_access_events := file_access_events s; file_uploads := file_uploads s |}.

Definition upd_totp_used_steps (f : (gmap (Z * Z) Z) -> gmap (Z * Z) Z) (s : Store) : Store :=
  {| sessions := sessions s; administrative_access := administrative_access s;
     administrative_access_events := administrative_access_events s;
     reauth_claims := reauth_claims s; additional_auth_claims := additional_auth_claims s;
     additional_auth_policy_setting := additional_auth_policy_setting s;
     totp_enrollments := totp_enrollments s; totp_recovery_codes := totp_recovery_codes s;
     totp_used_steps := f (totp_used_steps s); totp_audit_events := totp_audit_events s;
     terminal_sessions := terminal_sessions s; file_sessions := file_sessions s;
     file_access_events := file_access_events s; file_uploads := file_uploads s |}.

Definition upd_totp_audit_events (f : (list TotpAuditRow) -> list TotpAuditRow) (s : Store) : Store :=
  {| sessions := sessions s; administrative_access := administrative_access s;
     administrative_access_events := administrative_access_events s;
     reauth_claims := reauth_claims s; additional_auth_claims := additional_auth_claims s;
     additional_auth_policy_setting := additional_auth_policy_setting s;
     totp_enrollments := totp_enrollments s; totp_recovery_codes := totp_recovery_codes s;
     totp_used_steps := totp_used_steps s; totp_audit_events := f (totp_audit_events s);
     terminal_sessions := terminal_sessions s; file_sessions := file_sessions s;
     file_access_events := file_access_events s; file_uploads := file_uploads s |}.

Definition upd_terminal_sessions (f : (gmap string TerminalRow) -> gmap string TerminalRow) (s : Store) : Store :=
  {| sessions := sessions s; administrative_access := administrative_access s;
     administrative_access_events := administrative_access_events s;
     reauth_claims := reauth_claims s; additional_auth_claims := additional_auth_claims s;
     additional_auth_policy_setting := additional_auth_policy_setting s;
     totp_enrollments := totp_enrollments s; totp_recovery_codes := totp_recovery_codes s;
     totp_used_steps := totp_used_steps s; totp_audit_events := totp_audit_events s;
     terminal_sessions := f (terminal_sessions s); file_sessions := file_sessions s;
     file_access_events := file_access_events s; file_uploads := file_uploads s |}.

Definition upd_file_sessions (f : (gmap string FileSessionRow) -> gmap string FileSessionRow) (s : Store) : Store :=
  {| sessions := sessions s; administrative_access := administrative_access s;
     administrative_access_events := administrative_access_events s;
     reauth_claims := reauth_claims s; additional_auth_claims := additional_auth_claims s;
     additional_auth_policy_setting := additional_auth_policy_setting s;
     totp_enrollments := totp_enrollments s; totp_recovery_codes := totp_recovery_codes s;
     totp_used_steps := totp_used_steps s; totp_audit_events := totp_audit_events s;
     terminal_sessions := terminal_sessions s; file_sessions := f (file_sessions s);
     file_access_events := file_access_events s; file_uploads := file_uploads s |}.

Definition upd_file_access_events (f : (list FileAccessRow) -> list FileAccessRow) (s : Store) : Store :=
  {| sessions := sessions s; administrative_access := administrative_access s;
     administrative_access_events := administrative_access_events s;
     reauth_claims := reauth_claims s; additional_auth_claims := additional_auth_claims s;
     additional_auth_policy_setting := additional_auth_policy_setting s;
     totp_enrollments := totp_enrollments s; totp_recovery_codes := totp_recovery_codes s;
     totp_used_steps := totp_used_steps s; totp_audit_events := totp_audit_events s;
     terminal_sessions := terminal_sessions s; file_sessions := file_sessions s;
     file_access_events := f (file_access_events s); file_uploads := file_uploads s |}.

Definition upd_file_uploads (f : (gmap string UploadRow) -> gmap string UploadRow) (s : Store) : Store :=
  {| sessions := sessions s; administrative_access := administrative_access s;
     administrative_access_events := administrative_access_events s;
     reauth_claims := reauth_claims s; additional_auth_claims := additional_auth_claims s;
     additional_auth_policy_setting := additional_auth_policy_setting s;
     totp_enrollments := totp_enrollments s; totp_recovery_codes := totp_recovery_codes s;
     totp_used_steps := totp_used_steps s; totp_audit_events := totp_audit_events s;
     terminal_sessions := terminal_sessions s; file_sessions := file_sessions s;
     file_access_events := file_access_events s; file_uploads := f (file_uploads s) |}.

(** ** Statements and transactions *)

(** [INSERT] of a new key: the primary key must be free. *)
Definition insert_new {K A} `{Countable K} (k : K) (a : A) (m : gmap K A) : option (gmap K A) :=
  match m !! k with Some _ => None | None => Some (<[k := a]> m) end.

(** [UPDATE … WHERE key = k AND p]: the changed rows, at most one, counted. *)
Definition update_where {K A} `{Countable K} (k : K) (p : A -> bool) (f : A -> A) (m : gmap K A)
    : gmap K A * Z :=
  match m !! k with
  | Some a => if p a then (<[k := f a]> m, 1) else (m, 0)
  | None => (m, 0)
  end.

(** [connection], [transaction] and [commit]: an error leaves the tables as
    they were. *)
Definition transaction {E A} (env : Env) (storage : E) (body : M Store E A) : M Store E A := fun s =>
  if negb (env_open env) then (Err storage, s)
  else match body s with
       | (Ok a, s') => if env_commit env then (Ok a, s') else (Err storage, s)
       | (Err e, _) => (Err e, s)
       end.

(** [getrandom::fill] of [n] bytes at place [k]. *)
Definition fill (env : Env) (k : nat) (n : Z) : option string :=
  match env_random env k with
  | Some s => if slen s =? n then Some s else None
  | None => None
  end.

Lemma transaction_cases {E A} env (storage : E) (body : M Store E A) s :
  transaction env storage body s = ((let? a := (body s).1 in Ok a), (body s).2) /\ is_ok (body s).1 = true \/
  exists e, transaction env storage body s = (Err e, s).
Proof.
  unfold transaction. destruct (negb (env_open env)); [by right; eexists|].
  destruct (body s) as [[a|e] s'] eqn:Eb; [|by right; eexists].
  destruct (env_commit env); [by left|by right; eexists].
Qed.

Lemma transaction_ok {E A} env (storage : E) (body : M Store E A) s a s' :
  transaction env storage body s = (Ok a, s') -> body s = (Ok a, s').
Proof.
  unfold transaction. destruct (negb (env_open env)); [done|].
  destruct (body s) as [[b|e] s1]; [|done]. by destruct (env_commit env).
Qed.
