(* ===== verification/Session.v ===== *)
(** * Web sessions, re-authentication claims and audit records
    (jw-agentd/src/session.rs, session/lifecycle.rs, contracts auth.rs and settings.rs) *)

From Stdlib Require Import Ascii String.
From S2P Require Import Prelude Crypto Contracts Text Bytes WebStore.

(** ** Contracts *)

Inductive AdditionalAuthPolicy := PolicyDisabled | PolicyRiskyOperations | PolicyAllMutations.
#[export] Instance policy_eq_dec : EqDecision AdditionalAuthPolicy.
Proof. solve_decision. Defined.

Definition policy_storage_value (p : AdditionalAuthPolicy) : string :=
  match p with
  | PolicyDisabled => "disabled"
  | PolicyRiskyOperations => "risky_operations"
  | PolicyAllMutations => "all_mutations"
  end.

Definition policy_from_storage_value (value : string) : option AdditionalAuthPolicy :=
  if bool_decide (value = "disabled") then Some PolicyDisabled
  else if bool_decide (value = "risky_operations") then Some PolicyRiskyOperations
  else if bool_decide (value = "all_mutations") then Some PolicyAllMutations
  else None.

Inductive AdditionalAuthProviderStatus :=
  | ProviderNotImplemented | ProviderNotConfigured | ProviderReady | ProviderUnavailable.
#[export] Instance provider_eq_dec : EqDecision AdditionalAuthProviderStatus.
Proof. solve_decision. Defined.

Inductive AdministrativeAccessState := StandardAccess | AdministrativeAccess.

Inductive ReauthPurpose :=
  | ReauthOperation (plan_hash : string)
  | ReauthSecurityPolicyChange (target_policy : AdditionalAuthPolicy)
  | ReauthTotpEnrollment
  | ReauthTotpRecoveryReset.

Record SessionView := {
  sv_subject : Subject;
  sv_ingress : IngressChannel;
  sv_authenticated_at : string;
  sv_idle_expires_at : string;
  sv_absolute_expires_at : string;
  sv_csrf_token : string;
  sv_additional_auth_policy : AdditionalAuthPolicy;
  sv_administrative_access : AdministrativeAccessState;
  sv_administrative_expires_at : option string;
}.

(** ** Constants *)

Definition TOKEN_BYTES : Z := 32.
Definition TOKEN_TEXT_BYTES : Z := 43.
Definition PUBLIC_IDLE_MS : Z := 15 * 60 * 1000.
Definition PUBLIC_ABSOLUTE_MS : Z := 8 * 60 * 60 * 1000.
Definition RECOVERY_IDLE_MS : Z := 10 * 60 * 1000.
Definition RECOVERY_ABSOLUTE_MS : Z := 2 * 60 * 60 * 1000.
Definition REAUTH_CLAIM_MS : Z := 5 * 60 * 1000.
Definition SESSION_TOUCH_INTERVAL_MS : Z := 60 * 1000.
Definition ADMINISTRATIVE_ACCESS_MS : Z := 15 * 60 * 1000.

(** [Result<_, String>]: a text of the source, or the text of an SQLite error. *)
Inductive SessionError := SText (text : string) | SSql.

Definition ingress_value (ingress : IngressChannel) : string :=
  match ingress with PublicIngress => "public" | RecoveryIngress => "recovery" end.

Definition parse_ingress (value : string) : result SessionError IngressChannel :=
  if bool_decide (value = "public") then Ok PublicIngress
  else if bool_decide (value = "recovery") then Ok RecoveryIngress
  else Err (SText "invalid stored ingress").

Definition role_value (r : Role) : string :=
  match r with Admin => "admin" | Operator => "operator" | Viewer => "viewer" end.

Definition parse_role (value : string) : result SessionError Role :=
  if bool_decide (value = "admin") then Ok Admin
  else if bool_decide (value = "operator") then Ok Operator
  else if bool_decide (value = "viewer") then Ok Viewer
  else Err (SText "invalid stored role").

Definition session_durations (ingress : IngressChannel) : Z * Z :=
  match ingress with
  | PublicIngress => (PUBLIC_IDLE_MS, PUBLIC_ABSOLUTE_MS)
  | RecoveryIngress => (RECOVERY_IDLE_MS, RECOVERY_ABSOLUTE_MS)
  end.

Definition valid_token_shape (token : string) : bool :=
  (slen token =? TOKEN_TEXT_BYTES) && sall is_token_byte token.

Definition reauth_context (purpose : ReauthPurpose) : string * string :=
  match purpose with
  | ReauthOperation plan_hash => ("operation", plan_hash)
  | ReauthSecurityPolicyChange target => ("security_policy_change", policy_storage_value target)
  | ReauthTotpEnrollment => ("totp_enrollment", "totp/v1")
  | ReauthTotpRecoveryReset => ("totp_recovery_reset", "totp/v1")
  end%string.

(** SQLite's [length] of a text: its characters before the first NUL. *)
Fixpoint chars_before_nul (cs : list char) : Z :=
  match cs with
  | [] => 0
  | c :: cs' => if bool_decide (c = s1 (chr 0)) then 0 else 1 + chars_before_nul cs'
  end.
Definition sql_length (s : string) : Z := chars_before_nul (from_utf8_lossy s).
Definition between (lo hi n : Z) : bool := (lo <=? n) && (n <=? hi).

Section Sessions.
Context `{WC : WebCrypto}.

Definition SeM (A : Type) : Type := M Store SessionError A.

Definition digest_with_domain (domain value : string) : string := sha256 (domain +:+ NUL +:+ value).
Definition session_digest (token : string) : string := digest_with_domain "jw-agent/session/v1" token.
Definition claim_digest (token : string) : string := digest_with_domain "jw-agent/reauth/v1" token.
Definition csrf_token (token : string) : string := web_base64url (digest_with_domain "jw-agent/csrf/v1" token).
Definition csrf_matches (session_token provided : string) : bool :=
  bool_decide (csrf_token session_token = provided).

Definition format_rfc3339 (unix_ms : Z) : result SessionError string :=
  ok_or (web_rfc3339 unix_ms) (SText "timestamp is out of range").

Definition random_token (env : Env) (k : nat) : result SessionError string :=
  let? bytes := ok_or (fill env k TOKEN_BYTES) (SText "secure random unavailable") in
  Ok (web_base64url bytes).

(** ** The policy setting *)

Definition policy_in (s : Store) : result SessionError AdditionalAuthPolicy :=
  let? value := ok_or (additional_auth_policy_setting s) SSql in
  ok_or (policy_from_storage_value value) (SText "unknown additional authentication policy").

Definition additional_auth_policy (env : Env) : SeM AdditionalAuthPolicy := fun s =>
  if negb (env_open env) then (Err SSql, s) else (policy_in s, s).

(** ** Sessions (lifecycle.rs) *)

Definition session_view (subject : Subject) (ingress : IngressChannel)
    (authenticated_at idle_expires_at absolute_expires_at : Z) (token : string)
    (policy : AdditionalAuthPolicy) (administrative_until : option Z) (now : Z)
    : result SessionError SessionView :=
  let until := match administrative_until with
               | Some expiry => if now <? expiry then Some expiry else None
               | None => None
               end in
  let? authenticated := format_rfc3339 authenticated_at in
  let? idle := format_rfc3339 idle_expires_at in
  let? absolute := format_rfc3339 absolute_expires_at in
  let? admin := match until with
                | Some expiry => let? t := format_rfc3339 expiry in Ok (Some t)
                | None => Ok None
                end in
  Ok {| sv_subject := subject; sv_ingress := ingress; sv_authenticated_at := authenticated;
        sv_idle_expires_at := idle; sv_absolute_expires_at := absolute; sv_csrf_token := csrf_token token;
        sv_additional_auth_policy := policy;
        sv_administrative_access := if is_some until then AdministrativeAccess else StandardAccess;
        sv_administrative_expires_at := admin |}.

Definition record_administrative_event (subject_uid : Z) (ingress : IngressChannel)
    (event_type event_result : string) (now : Z) : SeM unit :=
  if (subject_uid =? 0) || bool_decide (event_result = ""%string) || (64 <? slen event_result)
  then mfail (SText "administrative access audit value is invalid")
  else if negb ((0 <? subject_uid) && between 1 64 (sql_length event_result)) then mfail SSql
  else mupd (upd_administrative_access_events (fun l => l ++
         [{| ae_subject_uid := subject_uid; ae_ingress := ingress_value ingress; ae_event_type := event_type;
             ae_result := event_result; ae_occurred_at := now |}])).

(** [INSERT INTO sessions] with the table's checks. *)
Definition insert_session (digest : string) (row : SessionRow) : SeM unit := fun s =>
  if (0 <? se_subject_uid row) && between 1 64 (sql_length (se_subject_username row))
     && (se_idle_expires_at row <=? se_absolute_expires_at row)
  then match insert_new digest row (sessions s) with
       | Some m => (Ok tt, upd_sessions (fun _ => m) s)
       | None => (Err SSql, s)
       end
  else (Err SSql, s).

Definition insert_administrative (digest : string) (row : AdminRow) : SeM unit := fun s =>
  if (0 <? aa_subject_uid row) && (aa_granted_at row <? aa_expires_at row) && is_some (sessions s !! digest)
  then match insert_new digest row (administrative_access s) with
       | Some m => (Ok tt, upd_administrative_access (fun _ => m) s)
       | None => (Err SSql, s)
       end
  else (Err SSql, s).

Definition issue_session_with_administrative_access (env : Env) (subject : Subject)
    (ingress : IngressChannel) (now : Z) (administrative_until : option Z) (audit_grant : bool)
    : SeM (string * SessionView) :=
  if uid subject =? 0 then mfail (SText "root session is forbidden")
  else
    let! policy := additional_auth_policy env in
    let! token := mlift (random_token env 0) in
    let token_digest := session_digest token in
    let (idle_duration, absolute_duration) := session_durations ingress in
    let idle_expires_at := sat_add now idle_duration in
    let absolute_expires_at := sat_add now absolute_duration in
    let administrative_until :=
      match administrative_until with
      | Some expiry => if bool_decide (role subject = Admin) && (now <? expiry)
                       then Some (Z.min expiry absolute_expires_at) else None
      | None => None
      end in
    let! _ := transaction env SSql (
      let! _ := insert_session token_digest
         {| se_ingress := ingress_value ingress; se_subject_uid := uid subject;
            se_subject_username := username subject; se_subject_role := role_value (role subject);
            se_authenticated_at := now; se_last_seen_at := now; se_idle_expires_at := idle_expires_at;
            se_absolute_expires_at := absolute_expires_at; se_revoked_at := None |} in
      match administrative_until with
      | Some expires_at =>
          let! _ := insert_administrative token_digest
             {| aa_subject_uid := uid subject; aa_granted_at := now; aa_expires_at := expires_at;
                aa_revoked_at := None |} in
          if audit_grant then record_administrative_event (uid subject) ingress "grant" "granted" now
          else mret tt
      | None => mret tt
      end) in
    let! view := mlift (session_view subject ingress now idle_expires_at absolute_expires_at token policy
                          administrative_until now) in
    mret (token, view).

Definition issue_session (env : Env) (subject : Subject) (ingress : IngressChannel) (now : Z)
    : SeM (string * SessionView) :=
  issue_session_with_administrative_access env subject ingress now None false.

Definition issue_administrative_session (env : Env) (subject : Subject) (ingress : IngressChannel) (now : Z)
    : SeM (string * SessionView) :=
  if negb (bool_decide (role subject = Admin))
  then mfail (SText "administrative access requires admin role")
  else issue_session_with_administrative_access env subject ingress now
         (Some (sat_add now ADMINISTRATIVE_ACCESS_MS)) true.

Definition administrative_expiry (env : Env) (token : string) (now : Z) : SeM (option Z) := fun s =>
  if negb (valid_token_shape token) then (Ok None, s)
  else if negb (env_open env) then (Err SSql, s)
  else (Ok (match administrative_access s !! session_digest token with
            | Some row => if is_none (aa_revoked_at row) && (now <? aa_expires_at row)
                          then Some (aa_expires_at row) else None
            | None => None
            end), s).

Definition issue_reauthenticated_session (env : Env) (prior_token : string) (subject : Subject)
    (ingress : IngressChannel) (now : Z) : SeM (string * SessionView) :=
  let! administrative_until := administrative_expiry env prior_token now in
  issue_session_with_administrative_access env subject ingress now administrative_until false.

Definition revoke_administrative_access (env : Env) (session_token : string) (ingress : IngressChannel)
    (subject : Subject) (now : Z) : SeM unit :=
  if negb (valid_token_shape session_token) || (uid subject =? 0)
  then mfail (SText "administrative session identity is invalid")
  else transaction env SSql (
    let! _ := mupd (upd_administrative_access (fun m =>
        (update_where (session_digest session_token)
           (fun row => (aa_subject_uid row =? uid subject) && is_none (aa_revoked_at row))
           (fun row => {| aa_subject_uid := aa_subject_uid row; aa_granted_at := aa_granted_at row;
                          aa_expires_at := aa_expires_at row; aa_revoked_at := Some now |}) m).1)) in
    record_administrative_event (uid subject) ingress "revoke" "revoked" now).

Definition record_administrative_denial (env : Env) (subject : Subject) (ingress : IngressChannel)
    (denial : string) (now : Z) : SeM unit :=
  transaction env SSql (record_administrative_event (uid subject) ingress "denied" denial now).

Record SessionRecord := {
  sn_ingress : IngressChannel;
  sn_subject : Subject;
  sn_authenticated_at : Z;
  sn_last_seen_at : Z;
  sn_idle_expires_at : Z;
  sn_absolute_expires_at : Z;
  sn_revoked_at : option Z;
  sn_administrative_until : option Z;
}.

Definition load_session (digest : string) (s : Store) : result SessionError (option SessionRecord) :=
  match sessions s !! digest with
  | None => Ok None
  | Some row =>
      if negb (between 0 u32_max (se_subject_uid row)) then Err SSql
      else
        let? ingress := parse_ingress (se_ingress row) in
        let? role := parse_role (se_subject_role row) in
        Ok (Some {| sn_ingress := ingress;
                    sn_subject := {| uid := se_subject_uid row; username := se_subject_username row; role := role |};
                    sn_authenticated_at := se_authenticated_at row;
                    sn_last_seen_at := se_last_seen_at row;
                    sn_idle_expires_at := se_idle_expires_at row;
                    sn_absolute_expires_at := se_absolute_expires_at row;
                    sn_revoked_at := se_revoked_at row;
                    sn_administrative_until :=
                      match administrative_access s !! digest with
                      | Some a => if is_none (aa_revoked_at a) then Some (aa_expires_at a) else None
                      | None => None
                      end |})
  end.

(** [UPDATE sessions SET last_seen_at_unix_ms, idle_expires_at_unix_ms]. *)
Definition touch_session (digest : string) (now next_idle : Z) (s : Store) : Store :=
  upd_sessions (fun m =>
    (update_where digest (fun row => is_none (se_revoked_at row))
       (fun row => {| se_ingress := se_ingress row; se_subject_uid := se_subject_uid row;
                      se_subject_username := se_subject_username row; se_subject_role := se_subject_role row;
                      se_authenticated_at := se_authenticated_at row; se_last_seen_at := now;
                      se_idle_expires_at := next_idle;
                      se_absolute_expires_at := se_absolute_expires_at row;
                      se_revoked_at := se_revoked_at row |}) m).1) s.

(** The body of [authenticate_session]'s transaction; [None] is a return
    before the commit, with nothing written. *)
Definition authenticate_tx (token : string) (ingress : IngressChannel) (now : Z)
    : SeM (option (SessionRecord * Z * AdditionalAuthPolicy)) :=
  let digest := session_digest token in
  let! loaded := (fun s => (load_session digest s, s)) in
  match loaded with
  | None => mret None
  | Some record =>
      if negb (bool_decide (sn_ingress record = ingress))
         || is_some (sn_revoked_at record)
         || (sn_idle_expires_at record <=? now)
         || (sn_absolute_expires_at record <=? now)
      then mret None
      else
        let! idle_expires_at :=
          if SESSION_TOUCH_INTERVAL_MS <=? sat_sub now (sn_last_seen_at record)
          then
            let next_idle := Z.min (sat_add now (session_durations ingress).1) (sn_absolute_expires_at record) in
            let! _ := mupd (touch_session digest now next_idle) in mret next_idle
          else mret (sn_idle_expires_at record) in
        let! policy := (fun s => (policy_in s, s)) in
        mret (Some (record, idle_expires_at, policy))
  end.

Definition authenticate_session (env : Env) (token : string) (ingress : IngressChannel) (now : Z)
    : SeM (option SessionView) := fun s =>
  if negb (valid_token_shape token) then (Ok None, s)
  else if negb (env_open env) then (Err SSql, s)
  else match authenticate_tx token ingress now s with
  | (Err e, _) => (Err e, s)
  | (Ok None, _) => (Ok None, s)
  | (Ok (Some (record, idle_expires_at, policy)), s') =>
      if negb (env_commit env) then (Err SSql, s)
      else
        ((let? view := session_view (sn_subject record) ingress (sn_authenticated_at record)
                         idle_expires_at (sn_absolute_expires_at record) token policy
                         (sn_administrative_until record) now in
          Ok (Some view)), s')
  end.

Definition with_revoked (now : Z) (row : SessionRow) : SessionRow :=
  {| se_ingress := se_ingress row; se_subject_uid := se_subject_uid row;
     se_subject_username := se_subject_username row; se_subject_role := se_subject_role row;
     se_authenticated_at := se_authenticated_at row; se_last_seen_at := se_last_seen_at row;
     se_idle_expires_at := se_idle_expires_at row; se_absolute_expires_at := se_absolute_expires_at row;
     se_revoked_at := Some now |}.

Definition revoke_session (env : Env) (token : string) (now : Z) : SeM unit :=
  if negb (valid_token_shape token) then mret tt
  else transaction env SSql (mupd (upd_sessions (fun m =>
         (update_where (session_digest token) (fun _ => true) (with_revoked now) m).1))).

Definition revoke_all (env : Env) (now : Z) : SeM Z :=
  transaction env SSql (fun s =>
    (Ok (Z.of_nat (size (filter (fun kv => se_revoked_at kv.2 = None) (sessions s)))),
     upd_sessions (fmap (fun row => if is_none (se_revoked_at row) then with_revoked now row else row)) s)).
End Sessions.
