(* ===== verification/Totp.v ===== *)
(** * The TOTP second factor (jw-agentd/src/totp.rs, contracts totp.rs)

    Enrolment with two consecutive codes, verification with replay and
    clock-rollback protection, and reset by recovery code.  The encryption key
    is a file beside the database. *)

From Stdlib Require Import Ascii String.
From S2P Require Import Prelude Crypto Contracts Text Bytes WebStore Session.

Definition TOTP_PROVIDER_ID : string := "totp/v1".
Definition TOTP_CODE_BYTES : Z := 6.
Definition SECRET_BYTES : Z := 20.
Definition KEY_BYTES : Z := 32.
Definition NONCE_BYTES : Z := 12.
Definition RECOVERY_CODE_BYTES : Z := 16.
Definition RECOVERY_CODE_COUNT : nat := 10.
Definition ENROLLMENT_TTL_MS : Z := 10 * 60 * 1000.
Definition CLAIM_TTL_MS : Z := 5 * 60 * 1000.
Definition TOTP_PERIOD_MS : Z := 30 * 1000.
Definition MAX_CLOCK_ROLLBACK_STEPS : Z := 1.

Definition validate_totp_code (code : string) : bool :=
  (slen code =? TOTP_CODE_BYTES) && sall is_ascii_digit code.
Definition validate_enrollment_id (value : string) : bool :=
  (slen value =? 32) && sall is_ascii_hexdigit value.

Inductive TotpError :=
  | TDenied | TNotConfigured | TAlreadyConfigured | TInvalidClaim | TInvalidCode | TReplay
  | TClockRollback | TEnrollmentExpired | TKeyUnavailable | TStorage.
#[export] Instance totp_error_eq_dec : EqDecision TotpError.
Proof. solve_decision. Defined.

Inductive TotpEnrollmentState := AwaitingNextCode | EnrollmentReady.

(** ** Codes *)

Definition time_step (now_unix_ms : Z) : result TotpError Z :=
  if now_unix_ms <? 0 then Err TClockRollback else Ok (now_unix_ms / TOTP_PERIOD_MS).

(** [format!("{:06}", n)] of a number below 10^6. *)
Definition six_digits (n : Z) : string :=
  let digit k := chr (48 + (n / 10 ^ k) mod 10) in
  String (digit 5) (String (digit 4) (String (digit 3) (String (digit 2) (String (digit 1)
    (String (digit 0) EmptyString))))).

Definition byte_at (s : string) (n : Z) : Z :=
  match String.get (Z.to_nat n) s with Some c => code c | None => 0 end.

(** The dynamic truncation of RFC 4226. *)
Definition truncate (digest : string) : Z :=
  let offset := Z.land (byte_at digest 19) 15 in
  Z.lor (Z.lor (Z.lor (Z.shiftl (Z.land (byte_at digest offset) 127) 24)
                      (Z.shiftl (byte_at digest (offset + 1)) 16))
               (Z.shiftl (byte_at digest (offset + 2)) 8))
        (byte_at digest (offset + 3)).

(** ** Text encodings *)

Definition base32_char (v : Z) : ascii := chr (if v <? 26 then 65 + v else 24 + v).

(** The inner [while]: [buffer] is a 32-bit register. *)
Fixpoint base32_emit (fuel : nat) (buffer bits : Z) : string * Z :=
  match fuel with
  | O => (EmptyString, bits)
  | S f => if 5 <=? bits then
             let bits := bits - 5 in
             let (rest, bits') := base32_emit f buffer bits in
             (String (base32_char (Z.land (Z.shiftr buffer bits) 31)) rest, bits')
           else (EmptyString, bits)
  end.

(** At most 12 bits are pending, so two digits are emitted per byte. *)
Fixpoint base32_from (input : string) (buffer bits : Z) : string :=
  match input with
  | EmptyString =>
      if 0 <? bits then String (base32_char (Z.land (Z.shiftl buffer (5 - bits) mod 2 ^ 32) 31)) EmptyString
      else EmptyString
  | String c rest =>
      let buffer := Z.lor (Z.shiftl buffer 8 mod 2 ^ 32) (code c) in
      let (out, bits) := base32_emit 3 buffer (bits + 8) in
      out +:+ base32_from rest buffer bits
  end.

Definition base32 (input : string) : string := base32_from input 0 0.

Definition upper_hex (n : Z) : ascii := chr (if n <? 10 then 48 + n else 55 + n).

Fixpoint percent_encode (value : string) : string :=
  match value with
  | EmptyString => EmptyString
  | String c rest =>
      if is_ascii_alphanumeric c || byte_is 45 c || byte_is 46 c || byte_is 95 c || byte_is 126 c
      then String c (percent_encode rest)
      else String "%" (String (upper_hex (code c / 16)) (String (upper_hex (code c mod 16)) (percent_encode rest)))
  end.

Definition otpauth_uri (user server_label secret : string) : string :=
  "otpauth://totp/" +:+ percent_encode ("JW Agent:" +:+ user +:+ "@" +:+ server_label)
  +:+ "?secret=" +:+ secret +:+ "&issuer=JW%20Agent&algorithm=SHA1&digits=6&period=30".

Fixpoint groups_of_5 (fuel : nat) (s : string) : list string :=
  match fuel, s with
  | S f, String _ _ => stake 5 s :: groups_of_5 f (sdrop 5 s)
  | _, _ => []
  end.

Definition group_code (raw : string) : string :=
  sconcat_with "-" (groups_of_5 (String.length raw) raw).

Definition to_ascii_uppercase_char (c : ascii) : ascii :=
  if is_ascii_lowercase c then chr (code c - 32) else c.

(** [u8::is_ascii_whitespace]: space, tab, newline, form feed, return. *)
Definition is_ascii_whitespace (c : ascii) : bool :=
  byte_is 32 c || byte_is 9 c || byte_is 10 c || byte_is 12 c || byte_is 13 c.

Fixpoint normalized_code (s : string) : string :=
  match s with
  | EmptyString => EmptyString
  | String c rest =>
      if negb (byte_is 45 c) && negb (is_ascii_whitespace c)
      then String (to_ascii_uppercase_char c) (normalized_code rest)
      else normalized_code rest
  end.

(** ** The key file *)

Record KeyFile := {
  kf_regular : bool;
  kf_nlink : Z;
  kf_mode : Z;
  kf_bytes : string;
}.

(** Outcome of creating it: the mode after the umask, and where it fails. *)
Inductive KeyIo :=
  | KeyCreated (mode : Z)
  | KeyOpenFailed
  | KeyWriteFailed (mode : Z) (written : nat)
  | KeySyncFailed (mode : Z).

Record Web := { w_store : Store; w_key : option KeyFile }.

Definition TM (A : Type) : Type := M Web TotpError A.

Definition on_store {E A} (m : M Store E A) : M Web E A := fun w =>
  let (r, s) := m (w_store w) in (r, {| w_store := s; w_key := w_key w |}).

Definition set_key (k : KeyFile) (w : Web) : Web := {| w_store := w_store w; w_key := Some k |}.

(** [0o777] is 511 and [0o600] is 384. *)
Definition validate_key_metadata (file : KeyFile) : bool :=
  kf_regular file && (kf_nlink file =? 1) && (Z.land (kf_mode file) 511 =? 384)
  && (slen (kf_bytes file) =? KEY_BYTES).

Definition load_existing_key (w : Web) : result TotpError string :=
  match w_key w with
  | None => Err TKeyUnavailable
  | Some file => if validate_key_metadata file then Ok (kf_bytes file) else Err TKeyUnavailable
  end.

Definition load_or_create_key (env : Env) (k : nat) (io : KeyIo) : TM string := fun w =>
  match load_existing_key w with
  | Ok key => (Ok key, w)
  | Err TKeyUnavailable =>
      match w_key w with
      | Some _ => (Err TKeyUnavailable, w)
      | None =>
          match fill env k KEY_BYTES with
          | None => (Err TKeyUnavailable, w)
          | Some key =>
              let file mode bytes := {| kf_regular := true; kf_nlink := 1; kf_mode := mode; kf_bytes := bytes |} in
              match io with
              | KeyOpenFailed => (Err TKeyUnavailable, w)
              | KeyWriteFailed mode written => (Err TKeyUnavailable, set_key (file mode (stake written key)) w)
              | KeySyncFailed mode => (Err TKeyUnavailable, set_key (file mode key) w)
              | KeyCreated mode =>
                  (if validate_key_metadata (file mode key) then Ok key else Err TKeyUnavailable,
                   set_key (file mode key) w)
              end
          end
      end
  | Err e => (Err e, w)
  end.

Section TotpService.
Context `{WC : WebCrypto}.

Definition totp_code (secret : string) (step : Z) : result TotpError string :=
  if step <? 0 then Err TClockRollback
  else Ok (six_digits (truncate (hmac_sha1 secret (be64 step)) mod 1000000)).

Definition encryption_aad (subject_uid : Z) : string := "jw-agent/totp-secret/v1" +:+ NUL +:+ be32 subject_uid.

Definition encrypt_secret (key : string) (subject_uid : Z) (nonce secret : string) : result TotpError string :=
  ok_or (aead_encrypt key nonce (encryption_aad subject_uid) secret) TKeyUnavailable.

Definition decrypt_secret (subject_uid : Z) (nonce ciphertext : string) (w : Web) : result TotpError string :=
  if negb (slen nonce =? NONCE_BYTES) || negb (slen ciphertext =? SECRET_BYTES + 16) then Err TStorage
  else
    let? key := load_existing_key w in
    let? plaintext := ok_or (aead_decrypt key nonce (encryption_aad subject_uid) ciphertext) TKeyUnavailable in
    if negb (slen plaintext =? SECRET_BYTES) then Err TStorage else Ok plaintext.

Definition recovery_digest (subject_uid : Z) (code : string) : string :=
  sha256 ("jw-agent/totp-recovery/v1" +:+ NUL +:+ be32 subject_uid +:+ normalized_code code).

Definition additional_claim_digest (token : string) : string :=
  sha256 ("jw-agent/additional-auth-claim/v1" +:+ NUL +:+ token).

(** [recovery_codes]: calls [k], [k+1], … of the random source. *)
Fixpoint recovery_codes (env : Env) (k count : nat) : result TotpError (list string) :=
  match count with
  | O => Ok []
  | S n =>
      let? random := ok_or (fill env k RECOVERY_CODE_BYTES) TKeyUnavailable in
      let? rest := recovery_codes env (S k) n in
      Ok (group_code (base32 random) :: rest)
  end.

(** ** Statements *)

(** [INSERT INTO totp_audit_events] with its checks. *)
Definition audit (subject_uid : Z) (action audit_result context_digest : string) (now : Z)
    : M Store TotpError unit :=
  let safe_context := if slen context_digest <=? 128 then context_digest
                      else "sha256:" +:+ hex_of_bytes (sha256 ("jw-agent/totp-context/v1" +:+ NUL +:+ context_digest)) in
  if (0 <? subject_uid) && between 1 128 (sql_length safe_context)
  then mupd (upd_totp_audit_events (fun l => l ++
    [{| ta_subject_uid := subject_uid; ta_action := action; ta_result := audit_result;
        ta_context_digest := safe_context; ta_occurred_at := now |}]))
  else mfail TStorage.

Definition load_pending_enrollment (subject_uid : Z) (enrollment_id : string) (s : Store)
    : result TotpError EnrollmentRow :=
  match totp_enrollments s !! subject_uid with
  | Some row => if bool_decide (en_enrollment_id row = enrollment_id) && bool_decide (en_state row = "pending"%string)
                then Ok row else Err TNotConfigured
  | None => Err TNotConfigured
  end.

Definition load_active_enrollment (subject_uid : Z) (s : Store) : result TotpError EnrollmentRow :=
  match totp_enrollments s !! subject_uid with
  | Some row => if bool_decide (en_state row = "active"%string) then Ok row else Err TNotConfigured
  | None => Err TNotConfigured
  end.

Definition active_enrollment_exists (subject_uid : Z) (s : Store) : bool :=
  is_some_and (totp_enrollments s !! subject_uid) (fun row => bool_decide (en_state row = "active"%string)).

(** The [WHERE] of the claim statements. *)
Definition claim_usable (session_digest : string) (subject_uid : Z) (purpose context : string) (now : Z)
    (row : ReauthRow) : bool :=
  bool_decide (rc_session_digest row = session_digest) && (rc_subject_uid row =? subject_uid)
  && bool_decide (rc_purpose row = purpose) && bool_decide (rc_context_digest row = context)
  && (now <? rc_expires_at row) && is_none (rc_consumed_at row).

Definition consumed (now : Z) (row : ReauthRow) : ReauthRow :=
  {| rc_session_digest := rc_session_digest row; rc_subject_uid := rc_subject_uid row;
     rc_purpose := rc_purpose row; rc_context_digest := rc_context_digest row;
     rc_expires_at := rc_expires_at row; rc_consumed_at := Some now |}.

(** The [UPDATE reauth_claims] shared by the three consumers. *)
Definition consume_claim {E} (invalid : E) (session_token : string) (subject_uid : Z)
    (purpose context reauth_token : string) (now : Z) : M Store E unit := fun s =>
  let (claims, changed) := update_where (claim_digest reauth_token)
        (claim_usable (session_digest session_token) subject_uid purpose context now) (consumed now)
        (reauth_claims s) in
  if changed =? 1 then (Ok tt, upd_reauth_claims (fun _ => claims) s) else (Err invalid, s).

Definition consume_reauth_claim (session_token : string) (subject_uid : Z)
    (purpose context_digest reauth_token : string) (now : Z) : M Store TotpError unit :=
  consume_claim TInvalidClaim session_token subject_uid purpose context_digest reauth_token now.

Definition validate_operation_reauth_claim (session_token : string) (subject_uid : Z)
    (reauth_token plan_hash : string) (now : Z) : M Store TotpError unit := fun s =>
  if is_some_and (reauth_claims s !! claim_digest reauth_token)
       (claim_usable (session_digest session_token) subject_uid "operation" plan_hash now)
  then (Ok tt, s) else (Err TInvalidClaim, s).

(** The loop over the candidates: every code is computed, the last match counts. *)
Fixpoint match_candidates (secret code : string) (candidates : list Z) (matched : option Z)
    : result TotpError (option Z) :=
  match candidates with
  | [] => Ok matched
  | candidate :: rest =>
      let? expected := totp_code secret candidate in
      match_candidates secret code rest (if bool_decide (expected = code) then Some candidate else matched)
  end.

(** The reserved step is inserted with [OR IGNORE]: a key or check conflict
    inserts nothing. *)
Definition match_and_reserve_step (subject_uid : Z) (secret provided_code : string) (now : Z)
    (last_observed_step : option Z) : M Store TotpError Z := fun s =>
  match time_step now with
  | Err e => (Err e, s)
  | Ok current_step =>
      if is_some_and last_observed_step (fun last => sat_add current_step MAX_CLOCK_ROLLBACK_STEPS <? last)
      then (Err TClockRollback, s)
      else
        match match_candidates secret provided_code
                [current_step; sat_sub current_step 1; sat_add current_step 1] None with
        | Err e => (Err e, s)
        | Ok None => (Err TInvalidCode, s)
        | Ok (Some step) =>
            if negb ((0 <? subject_uid) && (0 <=? step)) then (Err TReplay, s)
            else match insert_new (subject_uid, step) now (totp_used_steps s) with
                 | None => (Err TReplay, s)
                 | Some m => if is_none (totp_enrollments s !! subject_uid) then (Err TStorage, s)
                             else (Ok step, upd_totp_used_steps (fun _ => m) s)
                 end
        end
  end.

(** [MAX(COALESCE(last_observed_step, step), step)]. *)
Definition observed (last : option Z) (step : Z) : option Z := Some (Z.max (default step last) step).

Definition with_observed (step : Z) (row : EnrollmentRow) : EnrollmentRow :=
  {| en_enrollment_id := en_enrollment_id row; en_secret_nonce := en_secret_nonce row;
     en_secret_ciphertext := en_secret_ciphertext row; en_state := en_state row;
     en_first_confirmed_step := en_first_confirmed_step row;
     en_last_observed_step := observed (en_last_observed_step row) step;
     en_created_at := en_created_at row; en_expires_at := en_expires_at row;
     en_activated_at := en_activated_at row |}.

Definition update_observed_step (subject_uid step : Z) : M Store TotpError unit :=
  mupd (upd_totp_enrollments (fun m =>
    (update_where subject_uid (fun row => bool_decide (en_state row = "active"%string)) (with_observed step) m).1)).

(** [DELETE FROM totp_enrollments] with the cascades to its children. *)
Definition delete_enrollment (subject_uid : Z) (s : Store) : Store :=
  upd_totp_used_steps (filter (fun kv => kv.1.1 <> subject_uid))
    (upd_totp_recovery_codes (filter (fun kv => kv.1.1 <> subject_uid))
      (upd_totp_enrollments (delete subject_uid) s)).

(** ** The service *)

Definition provider_status (env : Env) (subject_uid : Z) (w : Web) : result TotpError AdditionalAuthProviderStatus :=
  if negb (env_open env) then Err TStorage
  else match totp_enrollments (w_store w) !! subject_uid with
  | Some row =>
      if bool_decide (en_state row = "active"%string) then
        Ok (if is_ok (decrypt_secret subject_uid (en_secret_nonce row) (en_secret_ciphertext row) w)
            then ProviderReady else ProviderUnavailable)
      else Ok ProviderNotConfigured
  | None => Ok ProviderNotConfigured
  end.

Record TotpEnrollmentStartView := {
  ev_enrollment_id : string;
  ev_provider_id : string;
  ev_manual_key : string;
  ev_otpauth_uri : string;
  ev_recovery_codes : list string;
  ev_expires_at : string;
}.

Definition random_hex_identifier (env : Env) (k : nat) : result TotpError string :=
  let? bytes := ok_or (fill env k 16) TKeyUnavailable in Ok (hex_of_bytes bytes).

Definition totp_random_token (env : Env) (k : nat) : result TotpError string :=
  let? bytes := ok_or (fill env k 32) TKeyUnavailable in Ok (web_base64url bytes).

Definition format_or_storage (unix_ms : Z) : result TotpError string :=
  map_err (format_rfc3339 unix_ms) (fun _ => TStorage).

(** [INSERT INTO totp_enrollments] with its checks and unique columns. *)
Definition insert_enrollment (subject_uid : Z) (row : EnrollmentRow) : M Store TotpError unit := fun s =>
  if (0 <? subject_uid) && (sql_length (en_enrollment_id row) =? 32) && (slen (en_secret_nonce row) =? 12)
     && (slen (en_secret_ciphertext row) =? 36)
     && negb (existsb (fun kv => bool_decide (en_enrollment_id kv.2 = en_enrollment_id row))
                (map_to_list (totp_enrollments s)))
  then match insert_new subject_uid row (totp_enrollments s) with
       | Some m => (Ok tt, upd_totp_enrollments (fun _ => m) s)
       | None => (Err TStorage, s)
       end
  else (Err TStorage, s).

Fixpoint insert_recovery_codes (subject_uid : Z) (codes : list string) : M Store TotpError unit :=
  match codes with
  | [] => mret tt
  | code :: rest =>
      let! _ := (fun s => match insert_new (subject_uid, recovery_digest subject_uid code) None
                                (totp_recovery_codes s) with
                          | Some m => (Ok tt, upd_totp_recovery_codes (fun _ => m) s)
                          | None => (Err TStorage, s)
                          end) in
      insert_recovery_codes subject_uid rest
  end.

Definition begin_enrollment_tx (session_token : string) (subject_uid : Z) (reauth_token : string)
    (enrollment_id nonce ciphertext : string) (codes : list string) (now expires_at : Z) : M Store TotpError unit :=
  let! exists_ := mget (active_enrollment_exists subject_uid) in
  if (exists_ : bool) then mfail TAlreadyConfigured
  else
    let! _ := consume_reauth_claim session_token subject_uid "totp_enrollment" "totp/v1" reauth_token now in
    let! _ := mupd (fun s => if is_some_and (totp_enrollments s !! subject_uid)
                                  (fun row => bool_decide (en_state row = "pending"%string))
                             then delete_enrollment subject_uid s else s) in
    let! _ := insert_enrollment subject_uid
       {| en_enrollment_id := enrollment_id; en_secret_nonce := nonce; en_secret_ciphertext := ciphertext;
          en_state := "pending"; en_first_confirmed_step := None; en_last_observed_step := None;
          en_created_at := now; en_expires_at := expires_at; en_activated_at := None |} in
    let! _ := insert_recovery_codes subject_uid codes in
    audit subject_uid "enroll_begin" "pending" "totp/v1" now.

(** Random calls: 0 the secret, 1 the key if it is created, 2 the nonce, 3 the
    identifier, then the recovery codes. *)
Definition begin_enrollment (env : Env) (io : KeyIo) (session_token : string) (subject : Subject)
    (ingress : IngressChannel) (reauth_token server_label : string) (now : Z) : TM TotpEnrollmentStartView :=
  if negb (bool_decide (ingress = RecoveryIngress)) || negb (bool_decide (role subject = Admin))
     || (uid subject =? 0)
  then mfail TDenied
  else
    let! secret := mlift (ok_or (fill env 0 SECRET_BYTES) TKeyUnavailable) in
    let! key := load_or_create_key env 1 io in
    let! nonce := mlift (ok_or (fill env 2 NONCE_BYTES) TKeyUnavailable) in
    let! ciphertext := mlift (encrypt_secret key (uid subject) nonce secret) in
    let! enrollment_id := mlift (random_hex_identifier env 3) in
    let manual_key := base32 secret in
    let uri := otpauth_uri (username subject) server_label manual_key in
    let! codes := mlift (recovery_codes env 4 RECOVERY_CODE_COUNT) in
    let expires_at := sat_add now ENROLLMENT_TTL_MS in
    let! _ := on_store (transaction env TStorage
                (begin_enrollment_tx session_token (uid subject) reauth_token enrollment_id nonce ciphertext
                   codes now expires_at)) in
    let! expires := mlift (format_or_storage expires_at) in
    mret {| ev_enrollment_id := enrollment_id; ev_provider_id := TOTP_PROVIDER_ID;
            ev_manual_key := manual_key; ev_otpauth_uri := uri; ev_recovery_codes := codes;
            ev_expires_at := expires |}.

Definition with_first_step (step : Z) (row : EnrollmentRow) : EnrollmentRow :=
  {| en_enrollment_id := en_enrollment_id row; en_secret_nonce := en_secret_nonce row;
     en_secret_ciphertext := en_secret_ciphertext row; en_state := en_state row;
     en_first_confirmed_step := Some step;
     en_last_observed_step := observed (en_last_observed_step row) step;
     en_created_at := en_created_at row; en_expires_at := en_expires_at row;
     en_activated_at := en_activated_at row |}.

Definition activated (now step : Z) (row : EnrollmentRow) : EnrollmentRow :=
  {| en_enrollment_id := en_enrollment_id row; en_secret_nonce := en_secret_nonce row;
     en_secret_ciphertext := en_secret_ciphertext row; en_state := "active";
     en_first_confirmed_step := en_first_confirmed_step row;
     en_last_observed_step := observed (en_last_observed_step row) step;
     en_created_at := en_created_at row; en_expires_at := en_expires_at row;
     en_activated_at := Some now |}.

(** [WHERE subject_uid = … AND enrollment_id = … AND state = 'pending']. *)
Definition pending_row (enrollment_id : string) (row : EnrollmentRow) : bool :=
  bool_decide (en_enrollment_id row = enrollment_id) && bool_decide (en_state row = "pending"%string).

Definition confirm_enrollment_tx (subject_uid : Z) (enrollment_id code : string) (now : Z) (w : Web)
    : M Store TotpError TotpEnrollmentState :=
  let! record := (fun s => (load_pending_enrollment subject_uid enrollment_id s, s)) in
  if en_expires_at record <=? now then mfail TEnrollmentExpired
  else
    let! secret := mlift (decrypt_secret subject_uid (en_secret_nonce record) (en_secret_ciphertext record) w) in
    let! step := match_and_reserve_step subject_uid secret code now (en_last_observed_step record) in
    let! state :=
      match en_first_confirmed_step record with
      | None =>
          let! _ := mupd (upd_totp_enrollments (fun m =>
             (update_where subject_uid (pending_row enrollment_id) (with_first_step step) m).1)) in
          mret AwaitingNextCode
      | Some first =>
          if step =? sat_add first 1 then
            let! _ := mupd (upd_totp_enrollments (fun m =>
               (update_where subject_uid (pending_row enrollment_id) (activated now step) m).1)) in
            mret EnrollmentReady
          else mfail TInvalidCode
      end in
    let! _ := audit subject_uid "enroll_confirm"
                (match state with AwaitingNextCode => "first_code_verified" | EnrollmentReady => "ready" end)
                "totp/v1" now in
    mret state.

Definition confirm_enrollment (env : Env) (subject : Subject) (ingress : IngressChannel)
    (enrollment_id code : string) (now : Z) : TM TotpEnrollmentState := fun w =>
  if negb (bool_decide (ingress = RecoveryIngress)) || negb (bool_decide (role subject = Admin))
  then (Err TDenied, w)
  else if negb (validate_enrollment_id enrollment_id) then (Err TInvalidCode, w)
  else if negb (validate_totp_code code) then (Err TInvalidCode, w)
  else on_store (transaction env TStorage (confirm_enrollment_tx (uid subject) enrollment_id code now w)) w.

(** The steps shared by the two verifications of an active enrolment. *)
Definition verify_active (subject_uid : Z) (code : string) (now : Z) (w : Web) : M Store TotpError Z :=
  let! record := (fun s => (load_active_enrollment subject_uid s, s)) in
  let! secret := mlift (decrypt_secret subject_uid (en_secret_nonce record) (en_secret_ciphertext record) w) in
  let! step := match_and_reserve_step subject_uid secret code now (en_last_observed_step record) in
  let! _ := update_observed_step subject_uid step in
  mret step.

(** [INSERT INTO additional_auth_claims] with its checks. *)
Definition insert_additional (digest : string) (row : AdditionalRow) : M Store TotpError unit := fun s =>
  if (0 <? ad_subject_uid row) && between 1 128 (sql_length (ad_context_digest row))
     && is_some (sessions s !! ad_session_digest row)
  then match insert_new digest row (additional_auth_claims s) with
       | Some m => (Ok tt, upd_additional_auth_claims (fun _ => m) s)
       | None => (Err TStorage, s)
       end
  else (Err TStorage, s).

Definition issue_operation_claim_tx (env : Env) (session_token : string) (subject_uid : Z)
    (reauth_token plan_hash code : string) (now : Z) (w : Web) : M Store TotpError string :=
  let! _ := validate_operation_reauth_claim session_token subject_uid reauth_token plan_hash now in
  let! _ := verify_active subject_uid code now w in
  let! claim := mlift (totp_random_token env 0) in
  let! _ := insert_additional (additional_claim_digest claim)
     {| ad_reauth_digest := claim_digest reauth_token; ad_session_digest := session_digest session_token;
        ad_subject_uid := subject_uid; ad_context_digest := plan_hash;
        ad_expires_at := sat_add now CLAIM_TTL_MS; ad_consumed_at := None |} in
  let! _ := audit subject_uid "verify" "claim_issued" plan_hash now in
  mret claim.

Definition issue_operation_claim (env : Env) (session_token : string) (subject : Subject)
    (reauth_token plan_hash code : string) (now : Z) : TM (string * string) := fun w =>
  if negb (validate_totp_code code) then (Err TInvalidCode, w)
  else if bool_decide (plan_hash = ""%string) || (128 <? slen plan_hash) then (Err TInvalidClaim, w)
  else
    (let! claim := on_store (transaction env TStorage
        (issue_operation_claim_tx env session_token (uid subject) reauth_token plan_hash code now w)) in
     let! expires := mlift (format_or_storage (sat_add now CLAIM_TTL_MS)) in
     mret (claim, expires)) w.

Definition verify_direct_context_tx (subject_uid : Z) (context_digest code : string) (now : Z) (w : Web)
    : M Store TotpError unit :=
  let! _ := verify_active subject_uid code now w in
  audit subject_uid "verify" "direct_verified" context_digest now.

Definition verify_direct_context (env : Env) (subject : Subject) (context_digest code : string) (now : Z)
    : TM unit := fun w =>
  if negb (validate_totp_code code) then (Err TInvalidCode, w)
  else if bool_decide (context_digest = ""%string) || (128 <? slen context_digest) then (Err TInvalidClaim, w)
  else on_store (transaction env TStorage (verify_direct_context_tx (uid subject) context_digest code now w)) w.

Definition recovery_reset_tx (session_token : string) (subject_uid : Z) (reauth_token recovery_code : string)
    (now : Z) : M Store TotpError unit :=
  let! _ := consume_reauth_claim session_token subject_uid "totp_recovery_reset" "totp/v1" reauth_token now in
  let! _ := (fun s =>
      let (codes, changed) := update_where (subject_uid, recovery_digest subject_uid recovery_code)
            is_none (fun _ => Some now) (totp_recovery_codes s) in
      if changed =? 1 then (Ok tt, upd_totp_recovery_codes (fun _ => codes) s) else (Err TInvalidCode, s)) in
  let! _ := audit subject_uid "recovery_reset" "provider_removed" "totp/v1" now in
  let! _ := mupd (upd_additional_auth_claims (filter (fun kv => ad_subject_uid kv.2 <> subject_uid))) in
  let! _ := mupd (delete_enrollment subject_uid) in
  let! _ := mupd (upd_additional_auth_policy_setting (fun o =>
              match o with Some _ => Some (policy_storage_value PolicyDisabled) | None => None end)) in
  mupd (upd_sessions (fmap (fun row =>
     if (se_subject_uid row =? subject_uid) && is_none (se_revoked_at row) then with_revoked now row else row))).

Definition recovery_reset (env : Env) (session_token : string) (subject : Subject) (ingress : IngressChannel)
    (reauth_token recovery_code : string) (now : Z) : TM unit :=
  if negb (bool_decide (ingress = RecoveryIngress)) || negb (bool_decide (role subject = Admin))
  then mfail TDenied
  else on_store (transaction env TStorage
         (recovery_reset_tx session_token (uid subject) reauth_token recovery_code now)).
End TotpService.
