(* ===== verification/Claims.v ===== *)
(** * Claims, the policy setting, audit records and start-up of the web store
    (jw-agentd/src/session.rs), and the operations of the store as a state machine *)

From Stdlib Require Import Ascii String.
From S2P Require Import Prelude Crypto Contracts Text Bytes WebStore Session Totp.

Inductive PolicyUpdateError :=
  | PolicyDenied | PolicyReauthRequired | PolicyInvalidReauth | PolicyProviderUnavailable
  | PolicyStorage (e : SessionError).

Inductive OperationClaimError := ClaimInvalid | ClaimInvalidAdditional | ClaimStorage.
#[export] Instance claim_error_eq_dec : EqDecision OperationClaimError.
Proof. solve_decision. Defined.

Section Claims.
Context `{WC : WebCrypto}.

(** ** Re-authentication claims *)

Definition insert_reauth (digest : string) (row : ReauthRow) : SeM unit := fun s =>
  if (0 <? rc_subject_uid row) && is_some (sessions s !! rc_session_digest row)
  then match insert_new digest row (reauth_claims s) with
       | Some m => (Ok tt, upd_reauth_claims (fun _ => m) s)
       | None => (Err SSql, s)
       end
  else (Err SSql, s).

Definition issue_reauth_claim (env : Env) (session_token : string) (subject : Subject)
    (purpose : ReauthPurpose) (now : Z) : SeM (string * string) :=
  let! token := mlift (random_token env 0) in
  let (purpose_value, context) := reauth_context purpose in
  let expires_at := sat_add now REAUTH_CLAIM_MS in
  let! _ := transaction env SSql (insert_reauth (claim_digest token)
     {| rc_session_digest := session_digest session_token; rc_subject_uid := uid subject;
        rc_purpose := purpose_value; rc_context_digest := context; rc_expires_at := expires_at;
        rc_consumed_at := None |}) in
  let! expires := mlift (format_rfc3339 expires_at) in
  mret (token, expires).

Definition consume_policy_claim (session_token : string) (subject_uid : Z) (target : AdditionalAuthPolicy)
    (reauth_token : string) (now : Z) : M Store PolicyUpdateError unit :=
  if negb (valid_token_shape reauth_token) then mfail PolicyInvalidReauth
  else consume_claim PolicyInvalidReauth session_token subject_uid "security_policy_change"
         (policy_storage_value target) reauth_token now.

Definition update_policy_tx (session_token : string) (subject_uid : Z) (target : AdditionalAuthPolicy)
    (reauth_token : option string) (now : Z) : M Store PolicyUpdateError unit :=
  let! _ := (fun s => (map_err (policy_in s) PolicyStorage, s)) in
  let! token := mlift (ok_or reauth_token PolicyReauthRequired) in
  let! _ := consume_policy_claim session_token subject_uid target token now in
  mupd (upd_additional_auth_policy_setting (fun o =>
          match o with Some _ => Some (policy_storage_value target) | None => None end)).

Definition update_additional_auth_policy (env : Env) (session_token : string) (subject : Subject)
    (target : AdditionalAuthPolicy) (reauth_token : option string) (now : Z) : M Web PolicyUpdateError unit := fun w =>
  if negb (bool_decide (role subject = Admin)) then (Err PolicyDenied, w)
  else if negb (bool_decide (target = PolicyDisabled))
          && negb (is_ok_and (provider_status env (uid subject) w) (fun p => bool_decide (p = ProviderReady)))
  then (Err PolicyProviderUnavailable, w)
  else on_store (transaction env (PolicyStorage SSql)
         (update_policy_tx session_token (uid subject) target reauth_token now)) w.

Record OperationAuthorization := {
  oa_session_token : string;
  oa_subject : Subject;
  oa_plan_hash : string;
  oa_reauth_token : string;
  oa_additional_auth_claim : option string;
  oa_additional_auth_required : bool;
  oa_now : Z;
}.

Definition additional_usable (a : OperationAuthorization) (row : AdditionalRow) : bool :=
  bool_decide (ad_reauth_digest row = claim_digest (oa_reauth_token a))
  && bool_decide (ad_session_digest row = session_digest (oa_session_token a))
  && (ad_subject_uid row =? uid (oa_subject a)) && bool_decide (ad_context_digest row = oa_plan_hash a)
  && (oa_now a <? ad_expires_at row) && is_none (ad_consumed_at row).

Definition additional_consumed (now : Z) (row : AdditionalRow) : AdditionalRow :=
  {| ad_reauth_digest := ad_reauth_digest row; ad_session_digest := ad_session_digest row;
     ad_subject_uid := ad_subject_uid row; ad_context_digest := ad_context_digest row;
     ad_expires_at := ad_expires_at row; ad_consumed_at := Some now |}.

Definition consume_additional (a : OperationAuthorization) (claim : string) : M Store OperationClaimError unit := fun s =>
  if negb (valid_token_shape claim) then (Err ClaimInvalidAdditional, s)
  else
    let (claims, changed) := update_where (additional_claim_digest claim) (additional_usable a)
           (additional_consumed (oa_now a)) (additional_auth_claims s) in
    if changed =? 1 then (Ok tt, upd_additional_auth_claims (fun _ => claims) s)
    else (Err ClaimInvalidAdditional, s).

Definition consume_operation_claims_tx (a : OperationAuthorization) : M Store OperationClaimError unit :=
  let! _ := consume_claim ClaimInvalid (oa_session_token a) (uid (oa_subject a)) "operation" (oa_plan_hash a)
              (oa_reauth_token a) (oa_now a) in
  match oa_additional_auth_required a, oa_additional_auth_claim a with
  | false, None => mret tt
  | true, Some claim => consume_additional a claim
  | _, _ => mfail ClaimInvalidAdditional
  end.

Definition consume_operation_claims (env : Env) (a : OperationAuthorization) : M Store OperationClaimError unit :=
  if negb (valid_token_shape (oa_reauth_token a)) || bool_decide (oa_plan_hash a = ""%string)
     || (128 <? slen (oa_plan_hash a))
  then mfail ClaimInvalid
  else transaction env ClaimStorage (consume_operation_claims_tx a).

(** ** Audit records *)

Definition record_terminal_start (env : Env) (session_id : string) (subject : Subject)
    (ingress : IngressChannel) (now : Z) : SeM unit :=
  if negb (slen session_id =? 32) || (uid subject =? 0)
  then mfail (SText "terminal audit identity is invalid")
  else transaction env SSql (fun s =>
    if (sql_length session_id =? 32) && (0 <? uid subject) && between 1 64 (sql_length (username subject))
    then match insert_new session_id
                 {| tr_actor_uid := uid subject; tr_actor_username := username subject;
                    tr_ingress := ingress_value ingress; tr_started_at := now; tr_ended_at := None;
                    tr_close_reason := None; tr_bytes_in := 0; tr_bytes_out := 0; tr_state := "active" |}
                 (terminal_sessions s) with
         | Some m => (Ok tt, upd_terminal_sessions (fun _ => m) s)
         | None => (Err SSql, s)
         end
    else (Err SSql, s)).

Definition closed_terminal (now : Z) (reason : string) (bytes_in bytes_out : Z) (row : TerminalRow) : TerminalRow :=
  {| tr_actor_uid := tr_actor_uid row; tr_actor_username := tr_actor_username row; tr_ingress := tr_ingress row;
     tr_started_at := tr_started_at row; tr_ended_at := Some now; tr_close_reason := Some reason;
     tr_bytes_in := bytes_in; tr_bytes_out := bytes_out; tr_state := "closed" |}.

(** An update of one row, whose new values pass the table's checks when
    [valid], and the error raised when no row was changed. *)
Definition changed_one {A} (valid : bool) (update : Store -> A * Z) (store : A -> Store -> Store) (message : string)
    : SeM unit :=
  fun s => let (t, changed) := update s in
           if negb (changed =? 1) then (Err (SText message), s)
           else if valid then (Ok tt, store t s) else (Err SSql, s).

Definition record_terminal_finish (env : Env) (session_id reason : string) (bytes_in bytes_out now : Z) : SeM unit :=
  if bool_decide (reason = ""%string) || (64 <? slen reason) then mfail (SText "terminal audit reason is invalid")
  else transaction env SSql (changed_one (between 1 64 (sql_length reason))
    (fun s => update_where session_id (fun row => bool_decide (tr_state row = "active"%string))
                (closed_terminal now reason (i64_of_u64 bytes_in) (i64_of_u64 bytes_out)) (terminal_sessions s))
    (fun t => upd_terminal_sessions (fun _ => t)) "terminal audit finish was not recorded").

Definition record_file_session_start (env : Env) (session_id : string) (subject : Subject)
    (ingress : IngressChannel) (now : Z) : SeM unit :=
  if negb (slen session_id =? 32) || (uid subject =? 0)
  then mfail (SText "file session audit identity is invalid")
  else transaction env SSql (fun s =>
    if (sql_length session_id =? 32) && (0 <? uid subject) && between 1 64 (sql_length (username subject))
    then match insert_new session_id
                 {| fr_actor_uid := uid subject; fr_actor_username := username subject;
                    fr_ingress := ingress_value ingress; fr_started_at := now; fr_ended_at := None;
                    fr_close_reason := None; fr_state := "active" |} (file_sessions s) with
         | Some m => (Ok tt, upd_file_sessions (fun _ => m) s)
         | None => (Err SSql, s)
         end
    else (Err SSql, s)).

Definition closed_file_session (now : Z) (reason : string) (row : FileSessionRow) : FileSessionRow :=
  {| fr_actor_uid := fr_actor_uid row; fr_actor_username := fr_actor_username row; fr_ingress := fr_ingress row;
     fr_started_at := fr_started_at row; fr_ended_at := Some now; fr_close_reason := Some reason;
     fr_state := "closed" |}.

Definition record_file_session_finish (env : Env) (session_id reason : string) (now : Z) : SeM unit :=
  if bool_decide (reason = ""%string) || (64 <? slen reason) then mfail (SText "file session audit reason is invalid")
  else transaction env SSql (changed_one (between 1 64 (sql_length reason))
    (fun s => update_where session_id (fun row => bool_decide (fr_state row = "active"%string))
                (closed_file_session now reason) (file_sessions s))
    (fun t => upd_file_sessions (fun _ => t)) "file session audit finish was not recorded").

Definition path_digest (path : string) : string := digest_with_domain "jw-agent/file-path/v1" path.

Definition record_file_access (env : Env) (session_id action path : string) (byte_count : Z)
    (access_result : string) (now : Z) : SeM unit :=
  if negb (bool_decide (action ∈ ["list"; "stat"; "read"; "download"]%string))
     || bool_decide (access_result = ""%string) || (64 <? slen access_result)
  then mfail (SText "file access audit value is invalid")
  else transaction env SSql (fun s =>
    if between 1 64 (sql_length access_result) && is_some (file_sessions s !! session_id)
    then (Ok tt, upd_file_access_events (fun l => l ++
           [{| fa_session_id := session_id; fa_action := action; fa_path_digest := path_digest path;
               fa_byte_count := i64_of_u64 byte_count; fa_result := access_result; fa_occurred_at := now |}]) s)
    else (Err SSql, s)).

Record FileUploadPlanAudit := {
  fp_upload_id : string;
  fp_session_id : string;
  fp_path : string;
  fp_target_state : string;
  fp_before_digest : option string;
  fp_after_digest : string;
  fp_byte_count : Z;
  fp_now : Z;
}.

Definition record_file_upload_plan (env : Env) (audit : FileUploadPlanAudit) : SeM unit :=
  if negb (slen (fp_upload_id audit) =? 32) || negb (slen (fp_session_id audit) =? 32)
     || negb (bool_decide (fp_target_state audit ∈ ["create"; "replace"]%string))
     || is_some_and (fp_before_digest audit) (fun value => is_err (validate_digest value))
     || is_err (validate_digest (fp_after_digest audit))
  then mfail (SText "file upload audit plan is invalid")
  else if i64_max <? fp_byte_count audit then mfail (SText "file upload size overflow")
  else transaction env SSql (fun s =>
    if (sql_length (fp_upload_id audit) =? 32) && is_some (file_sessions s !! fp_session_id audit)
    then match insert_new (fp_upload_id audit)
                 {| ul_session_id := fp_session_id audit; ul_path_digest := path_digest (fp_path audit);
                    ul_target_state := fp_target_state audit; ul_before_digest := fp_before_digest audit;
                    ul_after_digest := fp_after_digest audit; ul_byte_count := fp_byte_count audit;
                    ul_state := "planned"; ul_result := None; ul_planned_at := fp_now audit;
                    ul_started_at := None; ul_ended_at := None |} (file_uploads s) with
         | Some m => (Ok tt, upd_file_uploads (fun _ => m) s)
         | None => (Err SSql, s)
         end
    else (Err SSql, s)).

Definition upload_moved (state : string) (outcome : option string) (started ended : option Z) (row : UploadRow) : UploadRow :=
  {| ul_session_id := ul_session_id row; ul_path_digest := ul_path_digest row;
     ul_target_state := ul_target_state row; ul_before_digest := ul_before_digest row;
     ul_after_digest := ul_after_digest row; ul_byte_count := ul_byte_count row; ul_state := state;
     ul_result := outcome; ul_planned_at := ul_planned_at row; ul_started_at := started; ul_ended_at := ended |}.

Definition record_file_upload_start (env : Env) (upload_id : string) (now : Z) : SeM unit :=
  transaction env SSql (changed_one true
    (fun s => update_where upload_id (fun row => bool_decide (ul_state row = "planned"%string))
                (fun row => upload_moved "applying" (ul_result row) (Some now) (ul_ended_at row) row) (file_uploads s))
    (fun t => upd_file_uploads (fun _ => t)) "file upload audit start was not recorded").

Definition record_file_upload_finish (env : Env) (upload_id state outcome : string) (now : Z) : SeM unit :=
  if negb (bool_decide (state ∈ ["verified"; "failed"; "manual_check"]%string))
     || bool_decide (outcome = ""%string) || (64 <? slen outcome)
  then mfail (SText "file upload audit result is invalid")
  else transaction env SSql (changed_one (between 1 64 (sql_length outcome))
    (fun s => update_where upload_id
                (fun row => bool_decide (ul_state row ∈ ["planned"; "applying"]%string))
                (fun row => upload_moved state (Some outcome) (ul_started_at row) (Some now) row) (file_uploads s))
    (fun t => upd_file_uploads (fun _ => t)) "file upload audit finish was not recorded").

(** ** Start-up

    [migrate] creates missing tables (here: nothing to do), closes what a
    previous process left open and drops stale claims and enrolments. *)
Definition restart_upload (now : Z) (row : UploadRow) : UploadRow :=
  if bool_decide (ul_state row = "applying"%string)
  then upload_moved "manual_check" (Some "interrupted_manual_check"%string) (ul_started_at row) (Some now) row
  else if bool_decide (ul_state row = "planned"%string)
  then upload_moved "failed" (Some "daemon_restart_before_apply"%string) (ul_started_at row) (Some now) row
  else row.

Definition restart_tables (now : Z) (s : Store) : Store :=
  let s := upd_additional_auth_policy_setting (fun o => Some (default "disabled"%string o)) s in
  let s := upd_file_uploads (fmap (restart_upload now)) s in
  let s := upd_file_sessions (fmap (fun row => if bool_decide (fr_state row = "active"%string)
                                               then closed_file_session now "daemon_restart" row else row)) s in
  let s := upd_additional_auth_claims (filter (fun kv => now < ad_expires_at kv.2 /\ ad_consumed_at kv.2 = None)) s in
  let stale := filter (fun kv => en_state kv.2 = "pending"%string /\ en_expires_at kv.2 <= now) (totp_enrollments s) in
  let s := map_fold (fun subject_uid _ acc => delete_enrollment subject_uid acc) s stale in
  upd_terminal_sessions (fmap (fun row => if bool_decide (tr_state row = "active"%string)
       then closed_terminal now "daemon_restart" (tr_bytes_in row) (tr_bytes_out row) row else row)) s.

Definition migrate_store (env : Env) (now : Z) : SeM unit :=
  transaction env SSql (mupd (restart_tables now)).

(** ** The store as a state machine *)

Inductive WebOp :=
  | WRestart (env : Env) (now : Z)
  | WIssueSession (env : Env) (subject : Subject) (ingress : IngressChannel) (now : Z)
  | WIssueAdministrative (env : Env) (subject : Subject) (ingress : IngressChannel) (now : Z)
  | WIssueReauthenticated (env : Env) (prior : string) (subject : Subject) (ingress : IngressChannel) (now : Z)
  | WAuthenticate (env : Env) (token : string) (ingress : IngressChannel) (now : Z)
  | WRevoke (env : Env) (token : string) (now : Z)
  | WRevokeAll (env : Env) (now : Z)
  | WRevokeAdministrative (env : Env) (token : string) (ingress : IngressChannel) (subject : Subject) (now : Z)
  | WAdministrativeDenial (env : Env) (subject : Subject) (ingress : IngressChannel) (denial : string) (now : Z)
  | WIssueReauth (env : Env) (token : string) (subject : Subject) (purpose : ReauthPurpose) (now : Z)
  | WUpdatePolicy (env : Env) (token : string) (subject : Subject) (target : AdditionalAuthPolicy)
      (reauth : option string) (now : Z)
  | WConsumeClaims (env : Env) (a : OperationAuthorization)
  | WBeginEnrollment (env : Env) (io : KeyIo) (token : string) (subject : Subject) (ingress : IngressChannel)
      (reauth label : string) (now : Z)
  | WConfirmEnrollment (env : Env) (subject : Subject) (ingress : IngressChannel) (enrollment_id code : string) (now : Z)
  | WIssueOperationClaim (env : Env) (token : string) (subject : Subject) (reauth plan_hash code : string) (now : Z)
  | WVerifyDirect (env : Env) (subject : Subject) (context code : string) (now : Z)
  | WRecoveryReset (env : Env) (token : string) (subject : Subject) (ingress : IngressChannel)
      (reauth code : string) (now : Z)
  | WTerminalStart (env : Env) (id : string) (subject : Subject) (ingress : IngressChannel) (now : Z)
  | WTerminalFinish (env : Env) (id reason : string) (bytes_in bytes_out now : Z)
  | WFileSessionStart (env : Env) (id : string) (subject : Subject) (ingress : IngressChannel) (now : Z)
  | WFileSessionFinish (env : Env) (id reason : string) (now : Z)
  | WFileAccess (env : Env) (id action path : string) (byte_count : Z) (outcome : string) (now : Z)
  | WUploadPlan (env : Env) (audit : FileUploadPlanAudit)
  | WUploadStart (env : Env) (id : string) (now : Z)
  | WUploadFinish (env : Env) (id state outcome : string) (now : Z).

Definition web_step (op : WebOp) (w : Web) : Web :=
  match op with
  | WRestart env now => (on_store (migrate_store env now) w).2
  | WIssueSession env subject ingress now => (on_store (issue_session env subject ingress now) w).2
  | WIssueAdministrative env subject ingress now => (on_store (issue_administrative_session env subject ingress now) w).2
  | WIssueReauthenticated env prior subject ingress now =>
      (on_store (issue_reauthenticated_session env prior subject ingress now) w).2
  | WAuthenticate env token ingress now => (on_store (authenticate_session env token ingress now) w).2
  | WRevoke env token now => (on_store (revoke_session env token now) w).2
  | WRevokeAll env now => (on_store (revoke_all env now) w).2
  | WRevokeAdministrative env token ingress subject now =>
      (on_store (revoke_administrative_access env token ingress subject now) w).2
  | WAdministrativeDenial env subject ingress denial now =>
      (on_store (record_administrative_denial env subject ingress denial now) w).2
  | WIssueReauth env token subject purpose now => (on_store (issue_reauth_claim env token subject purpose now) w).2
  | WUpdatePolicy env token subject target reauth now =>
      (update_additional_auth_policy env token subject target reauth now w).2
  | WConsumeClaims env a => (on_store (consume_operation_claims env a) w).2
  | WBeginEnrollment env io token subject ingress reauth label now =>
      (begin_enrollment env io token subject ingress reauth label now w).2
  | WConfirmEnrollment env subject ingress enrollment_id code now =>
      (confirm_enrollment env subject ingress enrollment_id code now w).2
  | WIssueOperationClaim env token subject reauth plan_hash code now =>
      (issue_operation_claim env token subject reauth plan_hash code now w).2
  | WVerifyDirect env subject context code now => (verify_direct_context env subject context code now w).2
  | WRecoveryReset env token subject ingress reauth code now =>
      (recovery_reset env token subject ingress reauth code now w).2
  | WTerminalStart env id subject ingress now => (on_store (record_terminal_start env id subject ingress now) w).2
  | WTerminalFinish env id reason i o now => (on_store (record_terminal_finish env id reason i o now) w).2
  | WFileSessionStart env id subject ingress now =>
      (on_store (record_file_session_start env id subject ingress now) w).2
  | WFileSessionFinish env id reason now => (on_store (record_file_session_finish env id reason now) w).2
  | WFileAccess env id action path n outcome now =>
      (on_store (record_file_access env id action path n outcome now) w).2
  | WUploadPlan env audit => (on_store (record_file_upload_plan env audit) w).2
  | WUploadStart env id now => (on_store (record_file_upload_start env id now) w).2
  | WUploadFinish env id state outcome now => (on_store (record_file_upload_finish env id state outcome now) w).2
  end.

Definition web_run (ops : list WebOp) (w : Web) : Web := fold_left (fun w op => web_step op w) ops w.
End Claims.
