(* ===== verification/WebProofs.v ===== *)
(** * How the web store evolves

    Every operation of the web agent moves the store along the preorder
    [store_le]: sessions, claims and grants are never forgotten, revocation and
    consumption are final, the audit logs only grow and finished audit rows
    stay; and it keeps the store's invariant. *)

From Stdlib Require Import Ascii String.
From S2P Require Import Prelude Crypto Contracts Text Bytes Loops WebStore Session Totp Claims.

(** ** Relations preserved by handlers *)

Definition preserves {S E A} (R : S -> S -> Prop) (m : M S E A) : Prop := forall s, R s (m s).2.

Section Preserves.
Context {S E : Type} (R : S -> S -> Prop) `{!PreOrder R}.

Lemma preserves_ret {A} (a : A) : preserves R (mret a : M S E A).
Proof. intros s. cbn. reflexivity. Qed.

Lemma preserves_fail {A} e : preserves R (mfail e : M S E A).
Proof. intros s. cbn. reflexivity. Qed.

Lemma preserves_lift {A} r : preserves R (mlift r : M S E A).
Proof. intros s. cbn. reflexivity. Qed.

Lemma preserves_get {A} (f : S -> A) : preserves R (mget f : M S E A).
Proof. intros s. cbn. reflexivity. Qed.

Lemma preserves_read {A} (f : S -> result E A) : preserves R (fun s => (f s, s)).
Proof. intros s. cbn. reflexivity. Qed.

Lemma preserves_upd (f : S -> S) : (forall s, R s (f s)) -> preserves R (mupd f : M S E unit).
Proof. intros Hf s. apply Hf. Qed.

Lemma preserves_bind {A B} (m : M S E A) (k : A -> M S E B) :
  preserves R m -> (forall a, preserves R (k a)) -> preserves R (mbind m k).
Proof.
  intros Hm Hk s. unfold mbind. specialize (Hm s). destruct (m s) as [[a|e] s1]; [|done].
  cbn in Hm. etransitivity; [exact Hm|]. apply Hk.
Qed.
End Preserves.

Lemma preserves_transaction {E A} (R : Store -> Store -> Prop) `{!PreOrder R} env (e : E) (body : M Store E A) :
  preserves R body -> preserves R (transaction env e body).
Proof.
  intros Hb s. destruct (transaction_cases env e body s) as [[-> _]|[e' ->]]; [apply Hb|]. cbn. reflexivity.
Qed.

Create HintDb preserve.
#[export] Hint Resolve preserves_ret preserves_fail preserves_lift preserves_get preserves_read : preserve.

(** Decompose a handler down to its statements. *)
Ltac preserve_step :=
  lazymatch goal with
  | |- preserves _ (mbind _ _) => apply preserves_bind; [typeclasses eauto| |intros]
  | |- preserves _ (transaction _ _ _) => apply preserves_transaction; [typeclasses eauto|]
  | |- preserves _ (match ?x with _ => _ end) => destruct x
  | |- preserves _ (mupd _) => apply preserves_upd; intros
  | |- _ => solve [eauto 3 with preserve typeclass_instances]
  end.
Ltac preserve := repeat preserve_step.

(** ** Tables *)

Definition table_le {K A} `{Countable K} (le : A -> A -> Prop) (m m' : gmap K A) : Prop :=
  forall k a, m !! k = Some a -> exists b, m' !! k = Some b /\ le a b.

#[export] Instance table_le_preorder {K A} `{Countable K} (le : A -> A -> Prop) `{!PreOrder le} :
  PreOrder (table_le (K := K) le).
Proof.
  split.
  - intros m k a Ha. exists a. split; [done|reflexivity].
  - intros m1 m2 m3 H1 H2 k a Ha. destruct (H1 _ _ Ha) as (b & Hb & Hab). destruct (H2 _ _ Hb) as (c & Hc & Hbc).
    exists c. split; [done|by etransitivity].
Qed.

Section Tables.
Context {K A : Type} `{Countable K} (le : A -> A -> Prop) `{!PreOrder le}.

Lemma insert_new_Some k (a : A) (m m' : gmap K A) :
  insert_new k a m = Some m' <-> m !! k = None /\ m' = <[k := a]> m.
Proof. unfold insert_new. destruct (m !! k); naive_solver. Qed.

Lemma insert_new_le k a (m m' : gmap K A) : insert_new k a m = Some m' -> table_le le m m'.
Proof using PreOrder0.
  intros [Hk ->]%insert_new_Some k' b Hb. exists b. split; [|reflexivity].
  rewrite lookup_insert_ne; [done|]. intros ->. congruence.
Qed.

Lemma update_where_le k p f (m : gmap K A) :
  (forall a, p a = true -> le a (f a)) -> table_le le m (update_where k p f m).1.
Proof using PreOrder0.
  intros Hf k' b Hb. unfold update_where. destruct (m !! k) as [a|] eqn:Ea; [|by exists b].
  destruct (p a) eqn:Ep; cbn; [|by exists b]. destruct (decide (k = k')) as [<-|Hne].
  - rewrite lookup_insert_eq. exists (f a). split; [done|]. rewrite Ea in Hb. injection Hb as <-. auto.
  - rewrite lookup_insert_ne by done. by exists b.
Qed.

Lemma fmap_le f (m : gmap K A) : (forall a, le a (f a)) -> table_le le m (f <$> m).
Proof. intros Hf k a Ha. exists (f a). rewrite lookup_fmap, Ha. done. Qed.
End Tables.

(** ** Rows *)

(** A session keeps its identity and its absolute end; a revoked one stays revoked. *)
Record session_le (a b : SessionRow) : Prop := {
  sl_ingress : se_ingress b = se_ingress a;
  sl_uid : se_subject_uid b = se_subject_uid a;
  sl_username : se_subject_username b = se_subject_username a;
  sl_role : se_subject_role b = se_subject_role a;
  sl_authenticated : se_authenticated_at b = se_authenticated_at a;
  sl_absolute : se_absolute_expires_at b = se_absolute_expires_at a;
  sl_revoked : is_some (se_revoked_at a) = true -> is_some (se_revoked_at b) = true;
}.

Record admin_le (a b : AdminRow) : Prop := {
  al_uid : aa_subject_uid b = aa_subject_uid a;
  al_granted : aa_granted_at b = aa_granted_at a;
  al_expires : aa_expires_at b = aa_expires_at a;
  al_revoked : is_some (aa_revoked_at a) = true -> aa_revoked_at b = aa_revoked_at a;
}.

Record reauth_le (a b : ReauthRow) : Prop := {
  rl_session : rc_session_digest b = rc_session_digest a;
  rl_uid : rc_subject_uid b = rc_subject_uid a;
  rl_purpose : rc_purpose b = rc_purpose a;
  rl_context : rc_context_digest b = rc_context_digest a;
  rl_expires : rc_expires_at b = rc_expires_at a;
  rl_consumed : is_some (rc_consumed_at a) = true -> rc_consumed_at b = rc_consumed_at a;
}.

(** Closed audit rows are final. *)
Definition terminal_le (a b : TerminalRow) : Prop := tr_state a = "active"%string \/ b = a.
Definition file_session_le (a b : FileSessionRow) : Prop := fr_state a = "active"%string \/ b = a.
Definition upload_le (a b : UploadRow) : Prop := ul_state a ∈ ["planned"; "applying"]%string \/ b = a.

#[export] Instance session_le_preorder : PreOrder session_le.
Proof.
  split; [by split|]. intros a b c [] []. split; try congruence. auto.
Qed.

#[export] Instance admin_le_preorder : PreOrder admin_le.
Proof.
  split; [by split|]. intros a b c [] []. split; try congruence. intros Ha. rewrite al_revoked1; auto.
  by rewrite al_revoked0.
Qed.

#[export] Instance reauth_le_preorder : PreOrder reauth_le.
Proof.
  split; [by split|]. intros a b c [] []. split; try congruence. intros Ha. rewrite rl_consumed1; auto.
  by rewrite rl_consumed0.
Qed.

#[export] Instance terminal_le_preorder : PreOrder terminal_le.
Proof. split; [by right|]. intros a b c [Hab|Hab] Hbc; [by left|]. subst. done. Qed.

#[export] Instance file_session_le_preorder : PreOrder file_session_le.
Proof. split; [by right|]. intros a b c [Hab|Hab] Hbc; [by left|]. subst. done. Qed.

#[export] Instance upload_le_preorder : PreOrder upload_le.
Proof. split; [by right|]. intros a b c [Hab|Hab] Hbc; [by left|]. subst. done. Qed.

(** ** The store *)

Record store_le (s s' : Store) : Prop := {
  le_sessions : table_le session_le (sessions s) (sessions s');
  le_admin : table_le admin_le (administrative_access s) (administrative_access s');
  le_reauth : table_le reauth_le (reauth_claims s) (reauth_claims s');
  le_events : administrative_access_events s `prefix_of` administrative_access_events s';
  le_totp_audit : totp_audit_events s `prefix_of` totp_audit_events s';
  le_file_events : file_access_events s `prefix_of` file_access_events s';
  le_terminals : table_le terminal_le (terminal_sessions s) (terminal_sessions s');
  le_file_sessions : table_le file_session_le (file_sessions s) (file_sessions s');
  le_uploads : table_le upload_le (file_uploads s) (file_uploads s');
}.

#[export] Instance store_le_preorder : PreOrder store_le.
Proof.
  split.
  - intros s. split; reflexivity.
  - intros a b c [] []. split; etransitivity; eassumption.
Qed.

(** A session ends no later than its channel allows, and its idle limit is
    within; an administrative grant belongs to an admin's session and ends
    with it. *)
Record session_ok (row : SessionRow) : Prop := {
  so_ingress : exists i, se_ingress row = ingress_value i /\
    se_absolute_expires_at row = sat_add (se_authenticated_at row) (session_durations i).2;
  so_role : exists r, se_subject_role row = role_value r;
  so_uid : 0 < se_subject_uid row;
  so_idle : se_idle_expires_at row <= se_absolute_expires_at row;
}.

Definition admin_ok (table : gmap string SessionRow) (digest : string) (a : AdminRow) : Prop :=
  exists row, table !! digest = Some row /\ aa_subject_uid a = se_subject_uid row /\
    se_subject_role row = "admin"%string /\ aa_expires_at a <= se_absolute_expires_at row.

Record store_inv (s : Store) : Prop := {
  inv_sessions : map_Forall (fun _ row => session_ok row) (sessions s);
  inv_admin : map_Forall (admin_ok (sessions s)) (administrative_access s);
}.

(** The two together. *)
Definition evolves (s s' : Store) : Prop := store_le s s' /\ (store_inv s -> store_inv s').

#[export] Instance evolves_preorder : PreOrder evolves.
Proof.
  split; [split; [reflexivity|done]|]. intros a b c [H1 I1] [H2 I2].
  split; [by etransitivity|auto].
Qed.

Lemma admin_ok_le table table' digest a :
  table_le session_le table table' -> admin_ok table digest a -> admin_ok table' digest a.
Proof.
  intros Hle (row & Hrow & Hu & Hr & He). destruct (Hle _ _ Hrow) as (row' & Hrow' & []).
  exists row'. split; [done|]. split; [congruence|]. split; [congruence|]. lia.
Qed.

(** ** Statements *)

Lemma evolves_sessions f s :
  table_le session_le (sessions s) (f (sessions s)) ->
  (map_Forall (fun _ row => session_ok row) (sessions s) ->
   map_Forall (fun _ row => session_ok row) (f (sessions s))) ->
  evolves s (upd_sessions f s).
Proof.
  intros Hle Hok. split.
  - split; cbn; done || reflexivity.
  - intros [Hs Ha]. split; cbn; [auto|]. intros d a Hd. eapply admin_ok_le; [exact Hle|]. by apply Ha.
Qed.

Lemma evolves_admin f s :
  table_le admin_le (administrative_access s) (f (administrative_access s)) ->
  (map_Forall (admin_ok (sessions s)) (administrative_access s) ->
   map_Forall (admin_ok (sessions s)) (f (administrative_access s))) ->
  evolves s (upd_administrative_access f s).
Proof. intros Hle Hok. split; [split; cbn; done || reflexivity|]. intros [Hs Ha]. split; cbn; auto. Qed.

(** Tables the invariant does not read. *)
Lemma evolves_reauth f s :
  table_le reauth_le (reauth_claims s) (f (reauth_claims s)) -> evolves s (upd_reauth_claims f s).
Proof. intros Hle. split; [split; cbn; done || reflexivity|]. intros []. by split. Qed.

Lemma evolves_events f s :
  administrative_access_events s `prefix_of` f (administrative_access_events s) ->
  evolves s (upd_administrative_access_events f s).
Proof. intros Hle. split; [split; cbn; done || reflexivity|]. intros []. by split. Qed.

Lemma evolves_totp_audit f s :
  totp_audit_events s `prefix_of` f (totp_audit_events s) -> evolves s (upd_totp_audit_events f s).
Proof. intros Hle. split; [split; cbn; done || reflexivity|]. intros []. by split. Qed.

Lemma evolves_file_events f s :
  file_access_events s `prefix_of` f (file_access_events s) -> evolves s (upd_file_access_events f s).
Proof. intros Hle. split; [split; cbn; done || reflexivity|]. intros []. by split. Qed.

Lemma evolves_terminals f s :
  table_le terminal_le (terminal_sessions s) (f (terminal_sessions s)) -> evolves s (upd_terminal_sessions f s).
Proof. intros Hle. split; [split; cbn; done || reflexivity|]. intros []. by split. Qed.

Lemma evolves_file_sessions f s :
  table_le file_session_le (file_sessions s) (f (file_sessions s)) -> evolves s (upd_file_sessions f s).
Proof. intros Hle. split; [split; cbn; done || reflexivity|]. intros []. by split. Qed.

Lemma evolves_uploads f s :
  table_le upload_le (file_uploads s) (f (file_uploads s)) -> evolves s (upd_file_uploads f s).
Proof. intros Hle. split; [split; cbn; done || reflexivity|]. intros []. by split. Qed.

Lemma evolves_additional f s : evolves s (upd_additional_auth_claims f s).
Proof. split; [split; reflexivity|]. intros []. by split. Qed.

Lemma evolves_policy f s : evolves s (upd_additional_auth_policy_setting f s).
Proof. split; [split; reflexivity|]. intros []. by split. Qed.

Lemma evolves_enrollments f s : evolves s (upd_totp_enrollments f s).
Proof. split; [split; reflexivity|]. intros []. by split. Qed.

Lemma evolves_recovery f s : evolves s (upd_totp_recovery_codes f s).
Proof. split; [split; reflexivity|]. intros []. by split. Qed.

Lemma evolves_used f s : evolves s (upd_totp_used_steps f s).
Proof. split; [split; reflexivity|]. intros []. by split. Qed.

#[export] Hint Resolve evolves_additional evolves_policy evolves_enrollments evolves_recovery evolves_used : preserve.

(** ** Operations *)

Section Operations.
Context `{WC : WebCrypto}.

Lemma prefix_snoc {A} (l : list A) x : l `prefix_of` l ++ [x].
Proof. by exists [x]. Qed.

Lemma record_event_evolves u i t r now : preserves evolves (record_administrative_event u i t r now).
Proof.
  unfold record_administrative_event. preserve. apply evolves_events, prefix_snoc.
Qed.

Lemma audit_evolves u a r c now : preserves evolves (audit u a r c now).
Proof. unfold audit. preserve. apply evolves_totp_audit, prefix_snoc. Qed.

Lemma insert_session_evolves digest row :
  (exists i, se_ingress row = ingress_value i /\
     se_absolute_expires_at row = sat_add (se_authenticated_at row) (session_durations i).2) ->
  (exists r, se_subject_role row = role_value r) ->
  preserves evolves (insert_session digest row).
Proof.
  intros Hi Hr s. unfold insert_session. destruct (_ && _) eqn:E; [|reflexivity]. bool_prop.
  destruct (insert_new _ _ _) as [m|] eqn:Em; [|reflexivity]. cbn.
  apply evolves_sessions; [eapply insert_new_le; [typeclasses eauto|exact Em]|]. apply insert_new_Some in Em as [Hk ->].
  intros Hall. apply map_Forall_insert_2; [|done]. split; [done|done| |]; lia.
Qed.

Lemma insert_session_row digest row s u s' :
  insert_session digest row s = (Ok u, s') -> sessions s' !! digest = Some row.
Proof.
  unfold insert_session. destruct (_ && _); [|done]. destruct (insert_new _ _ _) as [m|] eqn:Em; [|done].
  intros [= _ <-]. apply insert_new_Some in Em as [_ ->]. apply lookup_insert_eq.
Qed.

Lemma insert_administrative_evolves digest a s :
  admin_ok (sessions s) digest a -> evolves s (insert_administrative digest a s).2.
Proof.
  intros Hok. unfold insert_administrative. destruct (_ && _) eqn:E; [|reflexivity]. bool_prop.
  destruct (insert_new _ _ _) as [m|] eqn:Em; [|reflexivity]. cbn.
  apply evolves_admin; [eapply insert_new_le; [typeclasses eauto|exact Em]|]. apply insert_new_Some in Em as [Hk ->].
  intros Hall. by apply map_Forall_insert_2.
Qed.

Lemma issue_session_evolves env subject ingress now until grant :
  preserves evolves (issue_session_with_administrative_access env subject ingress now until grant).
Proof.
  unfold issue_session_with_administrative_access. destruct (uid subject =? 0); [preserve|].
  apply preserves_bind; [typeclasses eauto| |intros policy].
  { intros s. unfold additional_auth_policy. destruct (negb _); reflexivity. }
  apply preserves_bind; [typeclasses eauto|preserve|intros token].
  destruct (session_durations ingress) as [idle absolute] eqn:Ed.
  apply preserves_bind; [typeclasses eauto| |intros ?; preserve].
  apply preserves_transaction; [typeclasses eauto|]. intros s.
  match goal with |- evolves _ ((mbind (insert_session ?d ?r) _) _).2 =>
    pose proof (insert_session_evolves d r) as Hins; pose proof (insert_session_row d r s) as Hrow end.
  unfold mbind at 1. destruct (insert_session _ _ s) as [[[]|e] s1] eqn:Ei.
  2: { cbn. specialize (Hins ltac:(exists ingress; by rewrite Ed) ltac:(by eexists) s). by rewrite Ei in Hins. }
  specialize (Hins ltac:(exists ingress; by rewrite Ed) ltac:(by eexists) s). rewrite Ei in Hins. cbn in Hins.
  specialize (Hrow _ _ eq_refl). etransitivity; [exact Hins|].
  destruct (match until with Some _ => _ | None => _ end) as [expires_at|] eqn:Eu; [|reflexivity].
  destruct until as [expiry|]; [|done]. destruct (_ && _) eqn:Ead; [|done]. bool_prop. injection Eu as <-.
  unfold mbind. assert (admin_ok (sessions s1) (session_digest token) (Build_AdminRow (uid subject) now
    (Z.min expiry (sat_add now absolute)) None)) as Hok.
  { eexists. split; [exact Hrow|]. cbn. split; [done|]. split; [|lia]. by rewrite H. }
  pose proof (insert_administrative_evolves _ _ _ Hok) as Ha.
  destruct (insert_administrative _ _ s1) as [[[]|e] s2]; [|done]. etransitivity; [exact Ha|].
  destruct grant; [apply record_event_evolves|reflexivity].
Qed.

(** *** Sessions *)

Lemma session_ok_le_ok a b :
  session_ok a -> session_le a b -> se_idle_expires_at b <= se_absolute_expires_at b -> session_ok b.
Proof.
  intros [(i & Hi & Ha) (r & Hr) Hu Hd] [] Hidle. split; [exists i|exists r|lia|done]; split_and?; congruence.
Qed.

(** An update that keeps the fixed fields and the idle bound. *)
Lemma sessions_update_evolves k p f s :
  (forall a, p a = true -> session_le a (f a)) ->
  (forall a, sessions s !! k = Some a -> session_ok a -> se_idle_expires_at (f a) <= se_absolute_expires_at (f a)) ->
  evolves s (upd_sessions (fun m => (update_where k p f m).1) s).
Proof.
  intros Hle Hidle. apply evolves_sessions; [apply update_where_le; [typeclasses eauto|done]|].
  intros Hall. unfold update_where. destruct (sessions s !! k) as [a|] eqn:Ea; [|done].
  destruct (p a) eqn:Ep; cbn; [|done]. apply map_Forall_insert_2; [|done].
  pose proof (Hall _ _ Ea) as Hok. eapply session_ok_le_ok; [exact Hok|auto|auto].
Qed.

Lemma with_revoked_le now a : session_le a (with_revoked now a).
Proof. by split. Qed.

Lemma sessions_map_evolves f s :
  (forall a, session_le a (f a) /\ se_idle_expires_at (f a) = se_idle_expires_at a) ->
  evolves s (upd_sessions (fmap f) s).
Proof.
  intros Hf. apply evolves_sessions; [apply fmap_le; intros; apply Hf|].
  intros Hall k b. rewrite lookup_fmap. destruct (sessions s !! k) as [a|] eqn:Ea; [|done]. intros [= <-].
  pose proof (Hall _ _ Ea) as Hok. destruct (Hf a) as [Hle Hi]. eapply session_ok_le_ok; [exact Hok|done|].
  rewrite Hi, (sl_absolute _ _ Hle). apply Hok.
Qed.

Lemma authenticate_tx_evolves token ingress now : preserves evolves (authenticate_tx token ingress now).
Proof.
  intros s. unfold authenticate_tx, mbind at 1. destruct (load_session _ s) as [[record|]|e] eqn:El; [|reflexivity..].
  destruct (_ || _); [reflexivity|]. unfold mbind at 1. destruct (_ <=? _).
  - unfold mbind at 1 2. cbn. unfold touch_session.
    assert (forall row, sessions s !! session_digest token = Some row ->
      sn_absolute_expires_at record = se_absolute_expires_at row) as Habs.
    { intros row Hrow. revert El. unfold load_session. rewrite Hrow. destruct (negb _); [done|].
      destruct (parse_ingress _); [|done]. destruct (parse_role _); [|done]. by intros [= <-]. }
    destruct (policy_in _); cbn; (apply sessions_update_evolves; [by intros ? _; split|]);
      intros ra Ha _; cbn; rewrite (Habs _ Ha); lia.
  - cbn. destruct (policy_in _); reflexivity.
Qed.

Lemma authenticate_evolves env token ingress now : preserves evolves (authenticate_session env token ingress now).
Proof.
  intros s. unfold authenticate_session. destruct (negb _); [reflexivity|]. destruct (negb _); [reflexivity|].
  pose proof (authenticate_tx_evolves token ingress now s) as He.
  destruct (authenticate_tx token ingress now s) as [[[[[record idle] policy]|]|e] s']; [|reflexivity..].
  destruct (negb _); [reflexivity|done].
Qed.

Lemma revoke_session_evolves env token now : preserves evolves (revoke_session env token now).
Proof.
  unfold revoke_session. preserve. apply sessions_update_evolves; [intros; apply with_revoked_le|].
  intros row _ Hok. apply Hok.
Qed.

Lemma revoke_all_evolves env now : preserves evolves (revoke_all env now).
Proof.
  unfold revoke_all. apply preserves_transaction; [typeclasses eauto|]. intros s. cbn.
  apply sessions_map_evolves. intros a. destruct (is_none _); [by split; [apply with_revoked_le|]|].
  by split; [reflexivity|].
Qed.

Lemma admin_update_evolves k p f s :
  (forall a, p a = true -> admin_le a (f a)) ->
  evolves s (upd_administrative_access (fun m => (update_where k p f m).1) s).
Proof.
  intros Hle. apply evolves_admin; [apply update_where_le; [typeclasses eauto|done]|].
  intros Hall. unfold update_where. destruct (administrative_access s !! k) as [a|] eqn:Ea; [|done].
  destruct (p a) eqn:Ep; cbn; [|done]. apply map_Forall_insert_2; [|done].
  destruct (Hall _ _ Ea) as (row & Hrow & Hu & Hr & He). destruct (Hle a Ep).
  exists row. split; [done|]. split; [congruence|]. split; [done|]. lia.
Qed.

Lemma revoke_administrative_evolves env token ingress subject now :
  preserves evolves (revoke_administrative_access env token ingress subject now).
Proof.
  unfold revoke_administrative_access. destruct (_ || _); [preserve|].
  apply preserves_transaction; [typeclasses eauto|].
  apply preserves_bind; [typeclasses eauto| |intros; apply record_event_evolves].
  apply preserves_upd. intros s. apply admin_update_evolves. intros a Hp. bool_prop.
  split; try done. cbn. intros Hs. unfold is_none in *. by rewrite Hs in *.
Qed.

(** *** Claims *)

Lemma consume_claim_evolves {E} (e : E) token u purpose context reauth now :
  preserves evolves (consume_claim e token u purpose context reauth now).
Proof.
  intros s. unfold consume_claim. destruct (update_where _ _ _ _) as [claims changed] eqn:Eu.
  destruct (changed =? 1); [|reflexivity]. cbn. apply evolves_reauth.
  replace claims with (update_where (claim_digest reauth)
    (claim_usable (session_digest token) u purpose context now) (consumed now) (reauth_claims s)).1
    by (by rewrite Eu).
  apply update_where_le; [typeclasses eauto|]. intros a Ha. split; try done.
  unfold claim_usable in Ha. bool_prop. intros Hs. unfold is_none in *. by rewrite Hs in *.
Qed.

Lemma insert_reauth_evolves digest row : preserves evolves (insert_reauth digest row).
Proof.
  intros s. unfold insert_reauth. destruct (_ && _); [|reflexivity].
  destruct (insert_new _ _ _) as [m|] eqn:Em; [|reflexivity]. cbn.
  apply evolves_reauth. eapply insert_new_le; [typeclasses eauto|exact Em].
Qed.

Lemma consume_additional_evolves a claim : preserves evolves (consume_additional a claim).
Proof.
  intros s. unfold consume_additional. destruct (negb _); [reflexivity|].
  destruct (update_where _ _ _ _) as [claims changed]. destruct (changed =? 1); [|reflexivity].
  apply evolves_additional.
Qed.

Hint Resolve consume_claim_evolves insert_reauth_evolves consume_additional_evolves audit_evolves
  record_event_evolves issue_session_evolves : preserve.

Lemma issue_reauth_evolves env token subject purpose now :
  preserves evolves (issue_reauth_claim env token subject purpose now).
Proof. unfold issue_reauth_claim. preserve. Qed.

Lemma consume_claims_evolves env a : preserves evolves (consume_operation_claims env a).
Proof. unfold consume_operation_claims, consume_operation_claims_tx. preserve. Qed.

Lemma update_policy_tx_evolves token u target reauth now : preserves evolves (update_policy_tx token u target reauth now).
Proof. unfold update_policy_tx, consume_policy_claim. preserve. Qed.

(** *** TOTP *)

Lemma match_step_evolves u secret code now last : preserves evolves (match_and_reserve_step u secret code now last).
Proof.
  intros s. unfold match_and_reserve_step. destruct (time_step now); [|reflexivity].
  destruct (is_some_and _ _); [reflexivity|]. destruct (match_candidates _ _ _ _) as [[step|]|]; [|reflexivity..].
  destruct (negb _); [reflexivity|]. destruct (insert_new _ _ _); [|reflexivity].
  destruct (is_none _); [reflexivity|]. apply evolves_used.
Qed.

Lemma delete_enrollment_evolves u s : evolves s (delete_enrollment u s).
Proof.
  unfold delete_enrollment. etransitivity; [|apply evolves_used]. etransitivity; [|apply evolves_recovery].
  apply evolves_enrollments.
Qed.

Lemma insert_enrollment_evolves u row : preserves evolves (insert_enrollment u row).
Proof.
  intros s. unfold insert_enrollment. destruct (_ && _); [|reflexivity].
  destruct (insert_new _ _ _); [|reflexivity]. apply evolves_enrollments.
Qed.

Lemma insert_additional_evolves digest row : preserves evolves (insert_additional digest row).
Proof.
  intros s. unfold insert_additional. destruct (_ && _); [|reflexivity].
  destruct (insert_new _ _ _); [|reflexivity]. apply evolves_additional.
Qed.

Lemma insert_recovery_evolves u codes : preserves evolves (insert_recovery_codes u codes).
Proof.
  induction codes as [|c codes IH]; cbn [insert_recovery_codes]; [preserve|].
  apply preserves_bind; [typeclasses eauto| |done]. intros s.
  destruct (insert_new _ _ _); [|reflexivity]. apply evolves_recovery.
Qed.

Lemma update_observed_evolves u step : preserves evolves (update_observed_step u step).
Proof. unfold update_observed_step. preserve. Qed.

Hint Resolve match_step_evolves delete_enrollment_evolves insert_enrollment_evolves insert_additional_evolves
  insert_recovery_evolves update_observed_evolves : preserve.

Lemma begin_tx_evolves token u reauth id nonce cipher codes now expires :
  preserves evolves (begin_enrollment_tx token u reauth id nonce cipher codes now expires).
Proof.
  unfold begin_enrollment_tx, consume_reauth_claim. preserve.
  destruct (is_some_and _ _); [apply delete_enrollment_evolves|reflexivity].
Qed.

Lemma confirm_tx_evolves u id code now w : preserves evolves (confirm_enrollment_tx u id code now w).
Proof. unfold confirm_enrollment_tx. preserve. Qed.

Lemma verify_active_evolves u code now w : preserves evolves (verify_active u code now w).
Proof. unfold verify_active. preserve. Qed.

Hint Resolve verify_active_evolves : preserve.

Lemma operation_claim_tx_evolves env token u reauth plan_hash code now w :
  preserves evolves (issue_operation_claim_tx env token u reauth plan_hash code now w).
Proof.
  unfold issue_operation_claim_tx. apply preserves_bind; [typeclasses eauto| |intros; preserve].
  intros s. unfold validate_operation_reauth_claim. destruct (is_some_and _ _); reflexivity.
Qed.

Lemma direct_tx_evolves u context code now w : preserves evolves (verify_direct_context_tx u context code now w).
Proof. unfold verify_direct_context_tx. preserve. Qed.

Lemma reset_tx_evolves token u reauth code now : preserves evolves (recovery_reset_tx token u reauth code now).
Proof.
  unfold recovery_reset_tx, consume_reauth_claim.
  apply preserves_bind; [typeclasses eauto|preserve|intros _].
  apply preserves_bind; [typeclasses eauto| |intros _].
  { intros s. destruct (update_where _ _ _ _) as [codes changed]. destruct (changed =? 1); [|reflexivity].
    apply evolves_recovery. }
  do 4 (apply preserves_bind; [typeclasses eauto|preserve|intros _]).
  apply preserves_upd. intros s. apply sessions_map_evolves. intros a.
  destruct (_ && _); [by split; [apply with_revoked_le|]|by split; [reflexivity|]].
Qed.

(** *** Audit records *)

(** A statement that inserts one row, or fails. *)
Lemma insert_row_evolves {K A} `{Countable K} {E} (guard : Store -> bool) (k : K) (row : A) (e : E)
    (get : Store -> gmap K A) (put : gmap K A -> Store -> Store) :
  (forall s m, insert_new k row (get s) = Some m -> evolves s (put m s)) ->
  preserves evolves (fun s => if guard s then
     match insert_new k row (get s) with Some m => (Ok tt, put m s) | None => (Err e, s) end else (Err e, s)).
Proof.
  intros Hput s. destruct (guard s); [|reflexivity].
  destruct (insert_new _ _ _) as [m|] eqn:Em; [by apply Hput|reflexivity].
Qed.

Lemma changed_one_evolves {A} valid (update : Store -> A * Z) put message :
  (forall s, evolves s (put (update s).1 s)) -> preserves evolves (changed_one valid update put message).
Proof.
  intros Hput s. unfold changed_one. specialize (Hput s). destruct (update s) as [t changed].
  destruct (negb _); [reflexivity|]. destruct valid; [exact Hput|reflexivity].
Qed.

Lemma terminal_start_evolves env id subject ingress now :
  preserves evolves (record_terminal_start env id subject ingress now).
Proof.
  unfold record_terminal_start. preserve.
  apply (insert_row_evolves _ _ _ _ terminal_sessions (fun m => upd_terminal_sessions (fun _ => m))).
  intros s m Hm. apply evolves_terminals. eapply insert_new_le; [typeclasses eauto|exact Hm].
Qed.

Lemma terminal_finish_evolves env id reason i o now :
  preserves evolves (record_terminal_finish env id reason i o now).
Proof.
  unfold record_terminal_finish. preserve. apply changed_one_evolves. intros s. apply evolves_terminals.
  apply update_where_le; [typeclasses eauto|]. intros row Hp. bool_prop. by left.
Qed.

Lemma file_session_start_evolves env id subject ingress now :
  preserves evolves (record_file_session_start env id subject ingress now).
Proof.
  unfold record_file_session_start. preserve.
  apply (insert_row_evolves _ _ _ _ file_sessions (fun m => upd_file_sessions (fun _ => m))).
  intros s m Hm. apply evolves_file_sessions. eapply insert_new_le; [typeclasses eauto|exact Hm].
Qed.

Lemma file_session_finish_evolves env id reason now :
  preserves evolves (record_file_session_finish env id reason now).
Proof.
  unfold record_file_session_finish. preserve. apply changed_one_evolves. intros s. apply evolves_file_sessions.
  apply update_where_le; [typeclasses eauto|]. intros row Hp. bool_prop. by left.
Qed.

Lemma file_access_evolves env id action path n outcome now :
  preserves evolves (record_file_access env id action path n outcome now).
Proof.
  unfold record_file_access. preserve. intros s. destruct (_ && _); [|reflexivity].
  apply evolves_file_events, prefix_snoc.
Qed.

Lemma upload_plan_evolves env a : preserves evolves (record_file_upload_plan env a).
Proof.
  unfold record_file_upload_plan. preserve.
  apply (insert_row_evolves _ _ _ _ file_uploads (fun m => upd_file_uploads (fun _ => m))).
  intros s m Hm. apply evolves_uploads. eapply insert_new_le; [typeclasses eauto|exact Hm].
Qed.

Lemma upload_start_evolves env id now : preserves evolves (record_file_upload_start env id now).
Proof.
  unfold record_file_upload_start. preserve. apply changed_one_evolves. intros s. apply evolves_uploads.
  apply update_where_le; [typeclasses eauto|]. intros row Hp. bool_prop. left. set_solver.
Qed.

Lemma upload_finish_evolves env id state outcome now :
  preserves evolves (record_file_upload_finish env id state outcome now).
Proof.
  unfold record_file_upload_finish. preserve. apply changed_one_evolves. intros s. apply evolves_uploads.
  apply update_where_le; [typeclasses eauto|]. intros row Hp. bool_prop. by left.
Qed.

(** *** Start-up *)

Lemma delete_stale_evolves (stale : gmap Z EnrollmentRow) s :
  evolves s (map_fold (fun u (_ : EnrollmentRow) acc => delete_enrollment u acc) s stale).
Proof.
  apply (map_fold_weak_ind (fun acc (_ : gmap Z EnrollmentRow) => evolves s acc)); [reflexivity|].
  intros u row m acc _ IH. etransitivity; [exact IH|apply delete_enrollment_evolves].
Qed.

Lemma restart_tables_evolves now s : evolves s (restart_tables now s).
Proof.
  unfold restart_tables. etransitivity.
  2: { apply evolves_terminals, fmap_le. intros row. case_match; [bool_prop; by left|by right]. }
  etransitivity; [|apply delete_stale_evolves]. etransitivity; [|apply evolves_additional]. etransitivity.
  2: { apply evolves_file_sessions, fmap_le. intros row. case_match; [bool_prop; by left|by right]. }
  etransitivity; [apply evolves_policy|]. apply evolves_uploads, fmap_le. intros row. unfold restart_upload.
  do 2 (case_match; [bool_prop; left; set_solver|]). by right.
Qed.

(** ** The state machine *)

Lemma on_store_evolves {E A} (m : M Store E A) w :
  preserves evolves m -> evolves (w_store w) (w_store (on_store m w).2).
Proof. intros Hm. unfold on_store. specialize (Hm (w_store w)). by destruct (m (w_store w)). Qed.

Definition web_evolves (w w' : Web) : Prop := evolves (w_store w) (w_store w').

#[local] Instance web_evolves_preorder : PreOrder web_evolves.
Proof. split; [intros w|intros a b c H1 H2]; unfold web_evolves in *; [reflexivity|by etransitivity]. Qed.

Lemma preserves_on_store {E A} (m : M Store E A) : preserves evolves m -> preserves web_evolves (on_store m).
Proof. intros Hm w. by apply on_store_evolves. Qed.

Lemma load_key_evolves env k io : preserves web_evolves (load_or_create_key env k io).
Proof.
  intros w. unfold load_or_create_key, web_evolves. destruct (load_existing_key w) as [|[]]; try reflexivity.
  destruct (w_key w); [reflexivity|]. destruct (fill _ _ _); [|reflexivity]. destruct io; reflexivity.
Qed.

Hint Resolve preserves_on_store load_key_evolves begin_tx_evolves : preserve.

Lemma begin_evolves env io token subject ingress reauth label now :
  preserves web_evolves (begin_enrollment env io token subject ingress reauth label now).
Proof.
  unfold begin_enrollment. preserve. apply preserves_on_store, preserves_transaction; [typeclasses eauto|].
  apply begin_tx_evolves.
Qed.

Lemma operation_claim_evolves env token subject reauth plan_hash code now :
  preserves web_evolves (issue_operation_claim env token subject reauth plan_hash code now).
Proof.
  intros w. unfold issue_operation_claim. destruct (negb _); [reflexivity|]. destruct (_ || _); [reflexivity|].
  match goal with |- web_evolves _ (?m _).2 => cut (preserves web_evolves m); [intros Hm; apply Hm|] end.
  apply preserves_bind; [typeclasses eauto| |intros; preserve].
  apply preserves_on_store, preserves_transaction; [typeclasses eauto|]. apply operation_claim_tx_evolves.
Qed.

Lemma web_step_evolves op w : web_evolves w (web_step op w).
Proof.
  unfold web_evolves. destruct op; cbn [web_step]; try apply on_store_evolves.
  - apply preserves_transaction; [typeclasses eauto|]. apply preserves_upd, restart_tables_evolves.
  - apply issue_session_evolves.
  - unfold issue_administrative_session. preserve.
  - unfold issue_reauthenticated_session. preserve.
    intros s. unfold administrative_expiry. destruct (negb _); [reflexivity|]. destruct (negb _); reflexivity.
  - apply authenticate_evolves.
  - apply revoke_session_evolves.
  - apply revoke_all_evolves.
  - apply revoke_administrative_evolves.
  - unfold record_administrative_denial. preserve.
  - apply issue_reauth_evolves.
  - unfold update_additional_auth_policy. destruct (negb _); [reflexivity|]. destruct (_ && _); [reflexivity|].
    apply on_store_evolves, preserves_transaction; [typeclasses eauto|]. apply update_policy_tx_evolves.
  - apply consume_claims_evolves.
  - apply begin_evolves.
  - unfold confirm_enrollment. destruct (_ || _); [reflexivity|]. do 2 (destruct (negb _); [reflexivity|]).
    apply on_store_evolves, preserves_transaction; [typeclasses eauto|]. apply confirm_tx_evolves.
  - apply operation_claim_evolves.
  - unfold verify_direct_context. destruct (negb _); [reflexivity|]. destruct (_ || _); [reflexivity|].
    apply on_store_evolves, preserves_transaction; [typeclasses eauto|]. apply direct_tx_evolves.
  - unfold recovery_reset. destruct (_ || _); [reflexivity|].
    apply on_store_evolves, preserves_transaction; [typeclasses eauto|]. apply reset_tx_evolves.
  - apply terminal_start_evolves.
  - apply terminal_finish_evolves.
  - apply file_session_start_evolves.
  - apply file_session_finish_evolves.
  - apply file_access_evolves.
  - apply upload_plan_evolves.
  - apply upload_start_evolves.
  - apply upload_finish_evolves.
Qed.

Lemma web_run_evolves ops w : web_evolves w (web_run ops w).
Proof.
  unfold web_run. revert w. induction ops as [|op ops IH]; intros w; cbn; [reflexivity|].
  etransitivity; [apply web_step_evolves|apply IH].
Qed.
End Operations.
