(* ===== verification/WebFrames.v ===== *)
(** * What the web operations leave alone

    Most operations do not touch the policy setting nor the TOTP tables
    ([quiet]); an active enrolment and its used steps survive everything but a
    recovery reset of its subject ([totp_le]); a second claim that is spent or
    gone stays so until the same one is issued ([dwindles]). *)

From Stdlib Require Import Ascii String.
From S2P Require Import Prelude Crypto Contracts Text Bytes Loops WebStore Session Totp Claims WebProofs.

(** ** Quiet operations *)

(** A second claim usable afterwards was there before as it is. *)
Definition dwindles (d : string) (s s' : Store) : Prop :=
  forall row, additional_auth_claims s' !! d = Some row -> ad_consumed_at row = None ->
    additional_auth_claims s !! d = Some row.

#[export] Instance dwindles_preorder d : PreOrder (dwindles d).
Proof. split; [by intros s row|]. intros a b c Hab Hbc row Hrow Hn. by apply Hab, Hn; apply Hbc. Qed.

Record quiet (s s' : Store) : Prop := {
  quiet_policy : additional_auth_policy_setting s' = additional_auth_policy_setting s;
  quiet_enrollments : totp_enrollments s' = totp_enrollments s;
  quiet_used : totp_used_steps s' = totp_used_steps s;
  quiet_claims : forall d row, additional_auth_claims s' !! d = Some row -> ad_consumed_at row = None ->
    additional_auth_claims s !! d = Some row;
}.

#[export] Instance quiet_preorder : PreOrder quiet.
Proof.
  split; [by split|]. intros a b c [] []. split; [congruence..|]. eauto.
Qed.

(** Case analysis of a statement written on the store itself. *)
Ltac quiet_cases :=
  intros ?s; cbn -[insert_new update_where]; repeat (case_match; cbn -[insert_new update_where] in *);
  by split || by split; simplify_eq/=.

(** ** TOTP *)

Definition step_le (a b : option Z) : Prop :=
  match a with None => True | Some x => exists y, b = Some y /\ x <= y end.

#[export] Instance step_le_preorder : PreOrder step_le.
Proof.
  split; [intros [x|]; cbn; [exists x; split; [done|lia]|done]|].
  intros [x|] b c; cbn; [|done]. intros (y & -> & Hy) (z & -> & Hz). exists z. split; [done|lia].
Qed.

(** An active enrolment stays the same secret, its clock only advances. *)
Record enrollment_le (a b : EnrollmentRow) : Prop := {
  el_id : en_enrollment_id b = en_enrollment_id a;
  el_nonce : en_secret_nonce b = en_secret_nonce a;
  el_cipher : en_secret_ciphertext b = en_secret_ciphertext a;
  el_state : en_state b = en_state a;
  el_observed : step_le (en_last_observed_step a) (en_last_observed_step b);
}.

#[export] Instance enrollment_le_preorder : PreOrder enrollment_le.
Proof.
  split; [split; reflexivity|]. intros a b c [] []. split; try congruence. by etransitivity.
Qed.

Definition active_at (u : Z) (s : Store) (row : EnrollmentRow) : Prop :=
  totp_enrollments s !! u = Some row /\ en_state row = "active"%string.

Definition totp_le (u : Z) (s s' : Store) : Prop :=
  forall row, active_at u s row ->
    (exists row', active_at u s' row' /\ enrollment_le row row') /\
    (forall step t, totp_used_steps s !! (u, step) = Some t -> totp_used_steps s' !! (u, step) = Some t).

#[export] Instance totp_le_preorder u : PreOrder (totp_le u).
Proof.
  split.
  - intros s row Hrow. split; [by exists row|done].
  - intros a b c Hab Hbc row Hrow. destruct (Hab _ Hrow) as [(row1 & Hrow1 & Hle1) Hu1].
    destruct (Hbc _ Hrow1) as [(row2 & Hrow2 & Hle2) Hu2]. split; [|auto].
    exists row2. split; [done|by etransitivity].
Qed.

(** Two stores that agree on one subject's enrolment. *)
Record same_totp (u : Z) (s s' : Store) : Prop := {
  st_enrollment : totp_enrollments s' !! u = totp_enrollments s !! u;
  st_used : forall step, totp_used_steps s' !! (u, step) = totp_used_steps s !! (u, step);
}.

#[export] Instance same_totp_preorder u : PreOrder (same_totp u).
Proof. split; [by split|]. intros a b c [] []. split; [congruence|]. intros step. by rewrite st_used1. Qed.

Lemma quiet_same_totp u s s' : quiet s s' -> same_totp u s s'.
Proof. intros [_ He Hu _]. split; [by rewrite He|intros step; by rewrite Hu]. Qed.

Lemma same_totp_le u s s' : same_totp u s s' -> totp_le u s s'.
Proof.
  intros [He Hu] row [Hrow Hact]. split; [|intros step t; by rewrite Hu].
  exists row. split; [|reflexivity]. split; [by rewrite He|done].
Qed.

Lemma preserves_weaken {S E A} (R R' : S -> S -> Prop) (m : M S E A) :
  (forall s s', R s s' -> R' s s') -> preserves R m -> preserves R' m.
Proof. intros Hw Hm s. apply Hw, Hm. Qed.

Section Frames.
Context `{WC : WebCrypto}.

Lemma consume_claim_quiet {E} (e : E) token u purpose context reauth now :
  preserves quiet (consume_claim e token u purpose context reauth now).
Proof. unfold consume_claim. quiet_cases. Qed.

Lemma insert_session_quiet digest row : preserves quiet (insert_session digest row).
Proof. unfold insert_session. quiet_cases. Qed.

Lemma insert_administrative_quiet digest row : preserves quiet (insert_administrative digest row).
Proof. unfold insert_administrative. quiet_cases. Qed.

Lemma insert_reauth_quiet digest row : preserves quiet (insert_reauth digest row).
Proof. unfold insert_reauth. quiet_cases. Qed.

Lemma event_quiet u i t r now : preserves quiet (record_administrative_event u i t r now).
Proof. unfold record_administrative_event. preserve. by split. Qed.

Lemma audit_quiet u a r c now : preserves quiet (audit u a r c now).
Proof. unfold audit. preserve. by split. Qed.

Lemma consume_additional_quiet a claim : preserves quiet (consume_additional a claim).
Proof.
  intros s. unfold consume_additional. destruct (negb _); [reflexivity|].
  destruct (update_where _ _ _ _) as [claims n] eqn:Eu. destruct (n =? 1); [|reflexivity]. split; try done.
  intros d row. cbn. unfold update_where in Eu. destruct (additional_auth_claims s !! additional_claim_digest claim); [|by injection Eu as <- _].
  destruct (additional_usable a _); [|by injection Eu as <- _]. injection Eu as <- _.
  destruct (decide (d = additional_claim_digest claim)) as [->|Hne]; [|by rewrite lookup_insert_ne].
  rewrite lookup_insert_eq. by intros [= <-].
Qed.

Lemma additional_policy_quiet env : preserves quiet (additional_auth_policy env).
Proof. unfold additional_auth_policy. quiet_cases. Qed.

Hint Resolve consume_claim_quiet insert_session_quiet insert_administrative_quiet insert_reauth_quiet event_quiet
  audit_quiet consume_additional_quiet additional_policy_quiet : preserve.

Lemma issue_session_quiet env subject ingress now until grant :
  preserves quiet (issue_session_with_administrative_access env subject ingress now until grant).
Proof. unfold issue_session_with_administrative_access. preserve. Qed.

Hint Resolve issue_session_quiet : preserve.

Lemma authenticate_tx_quiet token ingress now : preserves quiet (authenticate_tx token ingress now).
Proof. unfold authenticate_tx. preserve. by split. Qed.

Lemma authenticate_quiet env token ingress now : preserves quiet (authenticate_session env token ingress now).
Proof.
  intros s. unfold authenticate_session. destruct (negb _); [reflexivity|]. destruct (negb _); [reflexivity|].
  pose proof (authenticate_tx_quiet token ingress now s) as He.
  destruct (authenticate_tx token ingress now s) as [[[[[record idle] policy]|]|e] s']; [|reflexivity..].
  destruct (negb _); [reflexivity|done].
Qed.

Lemma changed_one_quiet {A} valid (update : Store -> A * Z) put message :
  (forall s t, quiet s (put t s)) -> preserves quiet (changed_one valid update put message).
Proof.
  intros Hput s. unfold changed_one. destruct (update s) as [t changed].
  destruct (negb _); [reflexivity|]. destruct valid; [apply Hput|reflexivity].
Qed.

(** The operations on sessions, claims and audit records. *)
Definition is_quiet (op : WebOp) : bool :=
  match op with
  | WRestart _ _ | WUpdatePolicy _ _ _ _ _ _ | WBeginEnrollment _ _ _ _ _ _ _ _ | WConfirmEnrollment _ _ _ _ _ _
  | WIssueOperationClaim _ _ _ _ _ _ _ | WVerifyDirect _ _ _ _ _ | WRecoveryReset _ _ _ _ _ _ _ => false
  | _ => true
  end.

Lemma on_store_frame {E A} (R : Store -> Store -> Prop) (m : M Store E A) w :
  preserves R m -> R (w_store w) (w_store (on_store m w).2).
Proof. intros Hm. unfold on_store. specialize (Hm (w_store w)). by destruct (m (w_store w)). Qed.

Lemma quiet_step op w : is_quiet op = true -> quiet (w_store w) (w_store (web_step op w)).
Proof.
  destruct op; intros Hq; try discriminate Hq; clear Hq; cbn [web_step]; apply on_store_frame.
  - apply issue_session_quiet.
  - unfold issue_administrative_session. preserve.
  - unfold issue_reauthenticated_session. preserve. unfold administrative_expiry. quiet_cases.
  - apply authenticate_quiet.
  - unfold revoke_session. preserve. by split.
  - unfold revoke_all. preserve. by split.
  - unfold revoke_administrative_access. preserve. by split.
  - unfold record_administrative_denial. preserve.
  - unfold issue_reauth_claim. preserve.
  - unfold consume_operation_claims, consume_operation_claims_tx. preserve.
  - unfold record_terminal_start. preserve. quiet_cases.
  - unfold record_terminal_finish. preserve. by apply changed_one_quiet.
  - unfold record_file_session_start. preserve. quiet_cases.
  - unfold record_file_session_finish. preserve. by apply changed_one_quiet.
  - unfold record_file_access. preserve. quiet_cases.
  - unfold record_file_upload_plan. preserve. quiet_cases.
  - unfold record_file_upload_start. preserve. by apply changed_one_quiet.
  - unfold record_file_upload_finish. preserve. by apply changed_one_quiet.
Qed.

(** ** Operations of the second factor *)

Definition same_policy (s s' : Store) : Prop :=
  additional_auth_policy_setting s' = additional_auth_policy_setting s.

#[local] Instance same_policy_preorder : PreOrder same_policy.
Proof. split; unfold same_policy; [done|]. intros a b c H1 H2. congruence. Qed.

Lemma quiet_same_policy s s' : quiet s s' -> same_policy s s'.
Proof. by intros []. Qed.

Lemma match_step_policy u secret code now last : preserves same_policy (match_and_reserve_step u secret code now last).
Proof. intros s. unfold match_and_reserve_step, same_policy. repeat (case_match; cbn); done. Qed.

Lemma insert_enrollment_policy u row : preserves same_policy (insert_enrollment u row).
Proof. intros s. unfold insert_enrollment, same_policy. repeat (case_match; cbn); done. Qed.

Lemma insert_recovery_policy u codes : preserves same_policy (insert_recovery_codes u codes).
Proof.
  induction codes as [|c codes IH]; cbn [insert_recovery_codes]; [preserve|].
  apply preserves_bind; [typeclasses eauto| |done]. intros s. by destruct (insert_new _ _ _).
Qed.

Lemma consume_claim_policy {E} (e : E) token u purpose context reauth now :
  preserves same_policy (consume_claim e token u purpose context reauth now).
Proof. eapply preserves_weaken; [apply quiet_same_policy|apply consume_claim_quiet]. Qed.

Lemma audit_policy u a r c now : preserves same_policy (audit u a r c now).
Proof. eapply preserves_weaken; [apply quiet_same_policy|apply audit_quiet]. Qed.

Lemma insert_additional_policy digest row : preserves same_policy (insert_additional digest row).
Proof. intros s. unfold insert_additional. by repeat case_match. Qed.

Lemma insert_additional_totp u digest row : preserves (same_totp u) (insert_additional digest row).
Proof. intros s. unfold insert_additional. repeat case_match; by split. Qed.

Lemma update_observed_policy u step : preserves same_policy (update_observed_step u step).
Proof. unfold update_observed_step. preserve. done. Qed.

Hint Resolve match_step_policy insert_enrollment_policy insert_recovery_policy consume_claim_policy audit_policy
  insert_additional_policy update_observed_policy : preserve.

Lemma begin_tx_policy token u reauth id nonce cipher codes now expires :
  preserves same_policy (begin_enrollment_tx token u reauth id nonce cipher codes now expires).
Proof.
  unfold begin_enrollment_tx, consume_reauth_claim. preserve. by destruct (is_some_and _ _).
Qed.

Lemma confirm_tx_policy u id code now w : preserves same_policy (confirm_enrollment_tx u id code now w).
Proof. unfold confirm_enrollment_tx. preserve; done. Qed.

Lemma verify_active_policy u code now w : preserves same_policy (verify_active u code now w).
Proof. unfold verify_active. preserve. Qed.

Hint Resolve verify_active_policy : preserve.

Lemma operation_claim_tx_policy env token u reauth plan_hash code now w :
  preserves same_policy (issue_operation_claim_tx env token u reauth plan_hash code now w).
Proof.
  unfold issue_operation_claim_tx. apply preserves_bind; [typeclasses eauto| |intros; preserve].
  intros s. unfold validate_operation_reauth_claim. by destruct (is_some_and _ _).
Qed.

(** The web operation that runs one transaction of the store. *)
Lemma begin_store env io token subject ingress reauth label now w (R : Store -> Store -> Prop) `{!PreOrder R} :
  (forall id nonce cipher codes expires,
     preserves R (begin_enrollment_tx token (uid subject) reauth id nonce cipher codes now expires)) ->
  R (w_store w) (w_store (begin_enrollment env io token subject ingress reauth label now w).2).
Proof.
  intros Htx. pose (Rw := fun w w' : Web => R (w_store w) (w_store w')).
  assert (PreOrder Rw) by (split; [intros x|intros x y z H1 H2]; unfold Rw in *; [reflexivity|by etransitivity]).
  change (Rw w (begin_enrollment env io token subject ingress reauth label now w).2).
  apply (fun H : preserves Rw _ => H w). unfold begin_enrollment. preserve.
  - intros x. unfold load_or_create_key, Rw. repeat (case_match; cbn); reflexivity.
  - intros x. apply (on_store_frame R). apply preserves_transaction; [done|]. apply Htx.
Qed.

Lemma operation_claim_store env token subject reauth plan_hash code now w (R : Store -> Store -> Prop) `{!PreOrder R} :
  preserves R (issue_operation_claim_tx env token (uid subject) reauth plan_hash code now w) ->
  R (w_store w) (w_store (issue_operation_claim env token subject reauth plan_hash code now w).2).
Proof.
  intros Htx. unfold issue_operation_claim. destruct (negb _); [reflexivity|]. destruct (_ || _); [reflexivity|].
  unfold mbind. pose proof (on_store_frame R (transaction env TStorage
    (issue_operation_claim_tx env token (uid subject) reauth plan_hash code now w)) w) as Hs.
  specialize (Hs ltac:(by apply preserves_transaction)).
  destruct (on_store _ w) as [[claim|e] w1]; [|done]. unfold mlift. by destruct (format_or_storage _).
Qed.

(** Only the policy change, the reset and a start that finds none set the policy. *)
Lemma policy_step op w :
  match op with WRestart _ _ | WUpdatePolicy _ _ _ _ _ _ | WRecoveryReset _ _ _ _ _ _ _ => False | _ => True end ->
  same_policy (w_store w) (w_store (web_step op w)).
Proof.
  intros Hop. destruct (is_quiet op) eqn:Eq; [by apply quiet_same_policy, quiet_step|].
  destruct op; try done; cbn [web_step].
  - apply begin_store; [typeclasses eauto|]. intros. apply begin_tx_policy.
  - unfold confirm_enrollment. destruct (_ || _); [reflexivity|]. do 2 (destruct (negb _); [reflexivity|]).
    apply on_store_frame, preserves_transaction; [typeclasses eauto|]. apply confirm_tx_policy.
  - apply operation_claim_store; [typeclasses eauto|]. apply operation_claim_tx_policy.
  - unfold verify_direct_context. destruct (negb _); [reflexivity|]. destruct (_ || _); [reflexivity|].
    apply on_store_frame, preserves_transaction; [typeclasses eauto|].
    unfold verify_direct_context_tx. preserve.
Qed.

(** ** Another subject's enrolment *)

Section Other.
Context (u v : Z) (Huv : v <> u).

Lemma delete_enrollment_other s : same_totp u s (delete_enrollment v s).
Proof using Huv.
  split; cbn; [by apply lookup_delete_ne|]. intros step.
  destruct (totp_used_steps s !! (u, step)) as [t|] eqn:E.
  - apply map_lookup_filter_Some. split; [done|cbn; congruence].
  - apply map_lookup_filter_None. by left.
Qed.

Lemma insert_enrollment_other row : preserves (same_totp u) (insert_enrollment v row).
Proof using Huv.
  intros s. unfold insert_enrollment. destruct (_ && _); [|reflexivity].
  destruct (insert_new _ _ _) eqn:E; [|reflexivity]. apply insert_new_Some in E as [_ ->].
  split; cbn; [by apply lookup_insert_ne|done].
Qed.

Lemma update_enrollment_other p f s :
  same_totp u s (upd_totp_enrollments (fun m => (update_where v p f m).1) s).
Proof using Huv.
  split; cbn; [|done]. unfold update_where. destruct (totp_enrollments s !! v); [|done].
  destruct (p _); [by apply lookup_insert_ne|done].
Qed.

Lemma match_step_other secret code now last :
  preserves (same_totp u) (match_and_reserve_step v secret code now last).
Proof using Huv.
  intros s. unfold match_and_reserve_step. destruct (time_step now); [|reflexivity].
  destruct (is_some_and _ _); [reflexivity|]. destruct (match_candidates _ _ _ _) as [[step|]|]; [|reflexivity..].
  destruct (negb _); [reflexivity|]. destruct (insert_new _ _ _) eqn:E; [|reflexivity].
  destruct (is_none _); [reflexivity|]. apply insert_new_Some in E as [_ ->].
  split; cbn; [done|]. intros step'. apply lookup_insert_ne. congruence.
Qed.
End Other.

Lemma quiet_preserves_same {E A} u (m : M Store E A) : preserves quiet m -> preserves (same_totp u) m.
Proof. intros Hm. eapply preserves_weaken; [apply quiet_same_totp|exact Hm]. Qed.

Lemma insert_recovery_totp u v codes : preserves (same_totp u) (insert_recovery_codes v codes).
Proof.
  induction codes as [|c codes IH]; cbn [insert_recovery_codes]; [preserve|].
  apply preserves_bind; [typeclasses eauto| |done]. intros s. destruct (insert_new _ _ _); by split.
Qed.

Hint Resolve match_step_other insert_enrollment_other insert_recovery_totp insert_additional_totp : preserve.
Hint Extern 4 (preserves (same_totp _) _) =>
  apply quiet_preserves_same; solve [eauto 2 with preserve] : preserve.

Lemma begin_tx_other u v token reauth id nonce cipher codes now expires :
  v <> u -> preserves (same_totp u) (begin_enrollment_tx token v reauth id nonce cipher codes now expires).
Proof.
  intros Huv. unfold begin_enrollment_tx, consume_reauth_claim. preserve.
  destruct (is_some_and _ _); [by apply delete_enrollment_other|reflexivity].
Qed.

Lemma confirm_tx_other u v id code now w :
  v <> u -> preserves (same_totp u) (confirm_enrollment_tx v id code now w).
Proof. intros Huv. unfold confirm_enrollment_tx. preserve; by apply update_enrollment_other. Qed.

Lemma reset_tx_other u v token reauth code now :
  v <> u -> preserves (same_totp u) (recovery_reset_tx token v reauth code now).
Proof.
  intros Huv. unfold recovery_reset_tx, consume_reauth_claim. preserve; try by split.
  - intros s. destruct (update_where _ _ _ _). by destruct (_ =? 1).
  - by apply delete_enrollment_other.
Qed.

(** ** The subject's own operations *)

Lemma match_step_own u secret code now last : preserves (totp_le u) (match_and_reserve_step u secret code now last).
Proof.
  intros s. unfold match_and_reserve_step. destruct (time_step now); [|reflexivity].
  destruct (is_some_and _ _); [reflexivity|]. destruct (match_candidates _ _ _ _) as [[step|]|]; [|reflexivity..].
  destruct (negb _); [reflexivity|]. destruct (insert_new _ _ _) eqn:E; [|reflexivity].
  destruct (is_none _); [reflexivity|]. apply insert_new_Some in E as [Hn ->].
  intros row Hrow. split; [by exists row|]. cbn. intros step' t Ht. rewrite lookup_insert_ne; [done|].
  intros [= ->]. congruence.
Qed.

Lemma update_observed_own u step : preserves (totp_le u) (update_observed_step u step).
Proof.
  unfold update_observed_step. preserve. intros row [Hrow Hact]. split; [|done].
  exists (with_observed step row). split; [split; [|done]|].
  - cbn. unfold update_where. rewrite Hrow, bool_decide_true by done. apply lookup_insert_eq.
  - split; try done. cbn. unfold observed. destruct (en_last_observed_step row); cbn; [|done].
    eexists. split; [done|lia].
Qed.

Lemma verify_active_totp u v code now w : preserves (totp_le u) (verify_active v code now w).
Proof.
  destruct (decide (v = u)) as [->|Huv].
  - unfold verify_active. preserve; [apply match_step_own|apply update_observed_own].
  - eapply preserves_weaken; [apply same_totp_le|]. unfold verify_active. preserve.
    unfold update_observed_step. preserve. by apply update_enrollment_other.
Qed.

Lemma quiet_preserves_le {E A} u (m : M Store E A) : preserves quiet m -> preserves (totp_le u) m.
Proof. intros Hm. eapply preserves_weaken; [|exact Hm]. intros. by apply same_totp_le, quiet_same_totp. Qed.

Lemma begin_tx_totp u v token reauth id nonce cipher codes now expires :
  preserves (totp_le u) (begin_enrollment_tx token v reauth id nonce cipher codes now expires).
Proof.
  destruct (decide (v = u)) as [->|Huv].
  - intros s row Hrow. unfold begin_enrollment_tx, mbind at 1. cbn.
    replace (active_enrollment_exists u s) with true; [by apply (reflexivity (R := totp_le u))|].
    destruct Hrow as [Hrow Hact]. unfold active_enrollment_exists. rewrite Hrow. cbn. by rewrite bool_decide_true.
  - eapply preserves_weaken; [apply same_totp_le|by apply begin_tx_other].
Qed.

Lemma confirm_tx_totp u v id code now w : preserves (totp_le u) (confirm_enrollment_tx v id code now w).
Proof.
  destruct (decide (v = u)) as [->|Huv].
  - intros s row Hrow. cut ((confirm_enrollment_tx u id code now w s).2 = s).
    { intros ->. by apply (reflexivity (R := totp_le u)). }
    destruct Hrow as [Hrow Hact]. unfold confirm_enrollment_tx, mbind at 1, load_pending_enrollment.
    rewrite Hrow, Hact. by rewrite andb_false_r.
  - eapply preserves_weaken; [apply same_totp_le|by apply confirm_tx_other].
Qed.

Lemma restart_totp u now s : totp_le u s (restart_tables now s).
Proof.
  intros row [Hrow Hact]. unfold restart_tables. cbn zeta.
  match goal with |- context [map_fold _ ?s0 ?stale] => set (old := stale); set (base := s0) end.
  assert (old !! u = None) as Hold.
  { apply map_lookup_filter_None. right. intros x Hx [Hp _]. cbn in *. congruence. }
  assert (same_totp u s (map_fold (fun v (_ : EnrollmentRow) acc => delete_enrollment v acc) base old)) as Hsame.
  { clearbody old. assert (same_totp u s base) as Hb by by split. clearbody base. revert Hold.
    apply (map_fold_weak_ind (fun acc (m : gmap Z EnrollmentRow) => m !! u = None -> same_totp u s acc)); [done|].
    intros v r m acc _ IH Hm. apply lookup_insert_None in Hm as [Hm Hne]. etransitivity; [by apply IH|].
    by apply delete_enrollment_other. }
  revert Hsame. generalize (map_fold (fun v (_ : EnrollmentRow) acc => delete_enrollment v acc) base old).
  intros next [He Hu]. split; [|cbn; intros step t; by rewrite Hu].
  exists row. split; [|reflexivity]. split; [cbn; by rewrite He|done].
Qed.

Lemma insert_additional_own u digest row : preserves (totp_le u) (insert_additional digest row).
Proof. eapply preserves_weaken; [apply same_totp_le|apply insert_additional_totp]. Qed.

Hint Resolve verify_active_totp insert_additional_own : preserve.
Hint Extern 4 (preserves (totp_le _) _) =>
  apply quiet_preserves_le; solve [eauto 2 with preserve] : preserve.

(** Resets of the subject's enrolment. *)
Definition resets (u : Z) (op : WebOp) : bool :=
  match op with WRecoveryReset _ _ subject _ _ _ _ => uid subject =? u | _ => false end.

Lemma totp_step u op w : resets u op = false -> totp_le u (w_store w) (w_store (web_step op w)).
Proof.
  intros Hop. destruct (is_quiet op) eqn:Eq; [by apply same_totp_le, quiet_same_totp, quiet_step|].
  destruct op; try done; cbn [web_step].
  - apply on_store_frame, preserves_transaction; [typeclasses eauto|]. apply preserves_upd, restart_totp.
  - unfold update_additional_auth_policy. destruct (negb _); [reflexivity|]. destruct (_ && _); [reflexivity|].
    apply on_store_frame, preserves_transaction; [typeclasses eauto|].
    eapply preserves_weaken; [apply same_totp_le|]. unfold update_policy_tx, consume_policy_claim. preserve. by split.
  - apply begin_store; [typeclasses eauto|]. intros. apply begin_tx_totp.
  - unfold confirm_enrollment. destruct (_ || _); [reflexivity|]. do 2 (destruct (negb _); [reflexivity|]).
    apply (on_store_frame (totp_le u)), preserves_transaction; [typeclasses eauto|]. apply confirm_tx_totp.
  - apply (operation_claim_store _ _ _ _ _ _ _ _ (totp_le u)). unfold issue_operation_claim_tx.
    apply preserves_bind; [typeclasses eauto| |intros; preserve].
    intros s. unfold validate_operation_reauth_claim. destruct (is_some_and _ _); reflexivity.
  - unfold verify_direct_context. destruct (negb _); [reflexivity|]. destruct (_ || _); [reflexivity|].
    apply (on_store_frame (totp_le u)), preserves_transaction; [typeclasses eauto|].
    unfold verify_direct_context_tx. preserve.
  - cbn in Hop. unfold recovery_reset. destruct (_ || _); [reflexivity|].
    apply (on_store_frame (totp_le u)), preserves_transaction; [typeclasses eauto|].
    eapply preserves_weaken; [apply same_totp_le|]. apply reset_tx_other. lia.
Qed.

Lemma totp_run u ops w :
  Forall (fun op => resets u op = false) ops -> totp_le u (w_store w) (w_store (web_run ops w)).
Proof.
  unfold web_run. intros Hops. revert w. induction Hops as [|op ops Hop _ IH]; intros w; cbn; [reflexivity|].
  etransitivity; [by apply totp_step|apply IH].
Qed.

(** ** Second claims *)

(** The issue of a second claim of this digest. *)
Definition issues (d : string) (op : WebOp) : Prop :=
  match op with
  | WIssueOperationClaim env _ _ _ _ _ _ =>
      exists claim, totp_random_token env 0 = Ok claim /\ additional_claim_digest claim = d
  | _ => False
  end.

Lemma quiet_preserves_claims {E A} d (m : M Store E A) : preserves quiet m -> preserves (dwindles d) m.
Proof. intros Hm. eapply preserves_weaken; [|exact Hm]. intros s s' Hq. exact (quiet_claims _ _ Hq d). Qed.

Hint Extern 4 (preserves (dwindles _) _) =>
  apply quiet_preserves_claims; solve [eauto 2 with preserve] : preserve.

Lemma match_step_claims d u secret code now last : preserves (dwindles d) (match_and_reserve_step u secret code now last).
Proof. intros s. unfold match_and_reserve_step. repeat case_match; by intros r. Qed.

Lemma insert_enrollment_claims d u row : preserves (dwindles d) (insert_enrollment u row).
Proof. intros s. unfold insert_enrollment. repeat case_match; by intros r. Qed.

Lemma insert_recovery_claims d u codes : preserves (dwindles d) (insert_recovery_codes u codes).
Proof.
  induction codes as [|c codes IH]; cbn [insert_recovery_codes]; [preserve|].
  apply preserves_bind; [typeclasses eauto| |done]. intros s. destruct (insert_new _ _ _); by intros r.
Qed.

Lemma update_observed_claims d u step : preserves (dwindles d) (update_observed_step u step).
Proof. unfold update_observed_step. preserve. by intros r. Qed.

Lemma insert_additional_claims d digest row : digest <> d -> preserves (dwindles d) (insert_additional digest row).
Proof.
  intros Hne s. unfold insert_additional. destruct (_ && _); [|by intros r]. destruct (insert_new _ _ _) eqn:E; [|by intros r].
  apply insert_new_Some in E as [_ ->]. intros r. cbn. by rewrite lookup_insert_ne.
Qed.

Lemma filter_claims (P : string * AdditionalRow -> Prop) `{!forall x, Decision (P x)} d s :
  dwindles d s (upd_additional_auth_claims (filter P) s).
Proof. intros row. cbn. by intros [? _]%map_lookup_filter_Some. Qed.

Hint Resolve match_step_claims insert_enrollment_claims insert_recovery_claims update_observed_claims : preserve.

Lemma verify_active_claims d u code now w : preserves (dwindles d) (verify_active u code now w).
Proof. unfold verify_active. preserve. Qed.

Hint Resolve verify_active_claims : preserve.

Lemma issue_tx_claims d env token u reauth plan_hash code now w :
  (forall claim, totp_random_token env 0 = Ok claim -> additional_claim_digest claim <> d) ->
  preserves (dwindles d) (issue_operation_claim_tx env token u reauth plan_hash code now w).
Proof.
  intros Hd. unfold issue_operation_claim_tx. apply preserves_bind; [typeclasses eauto| |intros _].
  { intros s. unfold validate_operation_reauth_claim. destruct (is_some_and _ _); by intros r. }
  apply preserves_bind; [typeclasses eauto|preserve|intros _]. intros s. unfold mbind at 1, mlift.
  destruct (totp_random_token env 0) as [claim|] eqn:Ec; [|by intros r]. specialize (Hd claim eq_refl). revert s.
  apply (preserves_bind (dwindles d)); [by apply insert_additional_claims|intros; preserve].
Qed.

Lemma restart_claims d now s : dwindles d s (restart_tables now s).
Proof.
  unfold restart_tables. cbn zeta. etransitivity; [apply (filter_claims (fun kv => now < ad_expires_at kv.2 /\ ad_consumed_at kv.2 = None))|].
  match goal with |- context [map_fold _ ?s0 ?stale] => set (old := stale); set (base := s0) end.
  assert (dwindles d base (map_fold (fun v (_ : EnrollmentRow) acc => delete_enrollment v acc) base old)) as Hb.
  { apply (map_fold_weak_ind (fun acc (_ : gmap Z EnrollmentRow) => dwindles d base acc)); [by intros r|]. intros v e m acc _ IH r Hr. by apply IH. }
  intros row Hrow. by apply Hb.
Qed.

(** A second claim can only be issued anew. *)
Lemma claims_dwindle d op w : ~ issues d op -> dwindles d (w_store w) (w_store (web_step op w)).
Proof.
  intros Hop. destruct (is_quiet op) eqn:Eq; [exact (quiet_claims _ _ (quiet_step op w Eq) d)|].
  destruct op; try done; cbn [web_step].
  - apply on_store_frame, preserves_transaction; [typeclasses eauto|]. apply preserves_upd, restart_claims.
  - unfold update_additional_auth_policy. destruct (negb _); [reflexivity|]. destruct (_ && _); [reflexivity|].
    apply (on_store_frame (dwindles d)), preserves_transaction; [typeclasses eauto|].
    unfold update_policy_tx, consume_policy_claim. preserve. by intros r.
  - apply (begin_store _ _ _ _ _ _ _ _ _ (dwindles d)). intros. unfold begin_enrollment_tx, consume_reauth_claim. preserve.
    destruct (is_some_and _ _); by intros r.
  - unfold confirm_enrollment. destruct (_ || _); [reflexivity|]. do 2 (destruct (negb _); [reflexivity|]).
    apply (on_store_frame (dwindles d)), preserves_transaction; [typeclasses eauto|]. unfold confirm_enrollment_tx. preserve; by intros r.
  - apply (operation_claim_store _ _ _ _ _ _ _ _ (dwindles d)). apply issue_tx_claims. intros claim Hc Hd. apply Hop. by exists claim.
  - unfold verify_direct_context. destruct (negb _); [reflexivity|]. destruct (_ || _); [reflexivity|].
    apply (on_store_frame (dwindles d)), preserves_transaction; [typeclasses eauto|]. unfold verify_direct_context_tx. preserve.
  - unfold recovery_reset. destruct (_ || _); [reflexivity|].
    apply (on_store_frame (dwindles d)), preserves_transaction; [typeclasses eauto|].
    unfold recovery_reset_tx, consume_reauth_claim. preserve; try (by intros r); [|by apply filter_claims].
    intros s. destruct (update_where _ _ _ _). destruct (_ =? 1); by intros r.
Qed.

Lemma claims_run d ops w :
  Forall (fun op => ~ issues d op) ops -> dwindles d (w_store w) (w_store (web_run ops w)).
Proof.
  unfold web_run. intros Hops. revert w. induction Hops as [|op ops Hop _ IH]; intros w; cbn; [reflexivity|].
  etransitivity; [by apply claims_dwindle|apply IH].
Qed.

(** The key file, once there, is not replaced. *)
Lemma on_store_key {E A} (m : M Store E A) w : w_key (on_store m w).2 = w_key w.
Proof. unfold on_store. by destruct (m (w_store w)). Qed.

Lemma key_step op w k : w_key w = Some k -> w_key (web_step op w) = Some k.
Proof.
  intros Hk. destruct op; cbn [web_step]; try by rewrite on_store_key.
  - unfold update_additional_auth_policy. repeat (case_match; [done|]). by rewrite on_store_key.
  - pose (Rw := fun w w' : Web => forall k, w_key w = Some k -> w_key w' = Some k).
    assert (PreOrder Rw) by (split; unfold Rw; [intros ? ?; done|intros ? ? ? H1 H2 ? ?; eauto]).
    revert k Hk. change (Rw w (begin_enrollment env io token subject ingress reauth label now w).2).
    apply (fun H : preserves Rw _ => H w). unfold begin_enrollment. preserve.
    + intros x k Hk. unfold load_or_create_key. rewrite Hk. repeat (case_match; cbn); done.
    + intros x k Hk. by rewrite on_store_key.
  - unfold confirm_enrollment. repeat (case_match; [done|]). by rewrite on_store_key.
  - unfold issue_operation_claim. destruct (negb _); [done|]. destruct (_ || _); [done|].
    unfold mbind, on_store. destruct (transaction _ _ _ _) as [[claim|e] s1]; [|done].
    unfold mlift. by destruct (format_or_storage _).
  - unfold verify_direct_context. repeat (case_match; [done|]). by rewrite on_store_key.
  - unfold recovery_reset. destruct (_ || _); [done|]. by rewrite on_store_key.
Qed.

Lemma key_run ops w k : w_key w = Some k -> w_key (web_run ops w) = Some k.
Proof.
  unfold web_run. revert w. induction ops as [|op ops IH]; intros w Hk; cbn; [done|].
  apply IH. by apply key_step.
Qed.
End Frames.
