(* ===== verification/WebReference.v ===== *)
(** * A reference instance of the web agent's crates, for evaluation

    Stand-ins with the stated laws: a checksum for SHA-256 and HMAC, prefixes of
    hexadecimal for base64, and a tag of sixteen bytes in place of encryption. *)

From Stdlib Require Import Ascii String.
From S2P Require Import Prelude Crypto Contracts Reference Text Bytes WebStore Session Totp Claims.

Lemma pad_bytes_length n z : String.length (pad_bytes n z) = n.
Proof. revert z. induction n as [|n IH]; intros z; cbn [pad_bytes String.length]; [done|]. by rewrite IH. Qed.

Lemma sall_stake p n s : sall p s = true -> sall p (stake n s) = true.
Proof.
  revert s. induction n as [|n IH]; intros [|c s]; try done. cbn. intros [Hc Hs]%andb_true_iff.
  by rewrite Hc, IH.
Qed.

Lemma lower_hex_token c : is_lower_hex c = true -> is_token_byte c = true.
Proof.
  unfold is_lower_hex, is_token_byte, is_ascii_alphanumeric, is_ascii_digit, is_ascii_lowercase, in_range.
  lia.
Qed.

Lemma hex_token s : slen s = 32 ->
  slen (stake 43 (hex_of_bytes s)) = 43 /\ sall is_token_byte (stake 43 (hex_of_bytes s)) = true.
Proof.
  unfold slen. intros Hs. split; [rewrite stake_length; [done|]; rewrite hex_of_bytes_length; lia|].
  apply sall_stake. eapply sall_impl; [apply lower_hex_token|apply hex_of_bytes_lower].
Qed.

Definition tag : string := "0123456789abcdef".

#[refine] Definition reference_web : WebCrypto :=
  {| wc_sha := sha256_checksum;
     web_rfc3339 ms := if ms <? 0 then None else Some "1970-01-01T00:00:00Z"%string;
     web_base64url s := stake 43 (hex_of_bytes s);
     aead_encrypt _ _ _ msg := Some (msg +:+ tag);
     aead_decrypt _ _ _ c := Some (stake (String.length c - 16) c);
     hmac_sha1 key msg := pad_bytes 20 (checksum 1 (key +:+ msg) * 1299709) |}.
Proof.
  - apply hex_token.
  - intros key nonce aad msg c [= <-]. f_equal. apply stake_app.
    pose proof (slen_app msg tag) as Hl. unfold slen in Hl. change (String.length tag) with 16%nat in Hl. lia.
  - intros key nonce aad msg c [= <-]. by rewrite slen_app.
  - intros key msg. unfold slen. by rewrite pad_bytes_length.
Defined.

(** ** A session, a second factor and an authorised operation *)

Module WebScenario.
#[local] Existing Instance reference_web.

Definition bytes_of (n : Z) (len : Z) : string := pad_bytes (Z.to_nat len) (n * 7919 + 1).

(** Each call has its own random numbers, of the length it asks for. *)
Definition env_of (seed : Z) (lens : list Z) : Env :=
  {| env_open := true; env_commit := true;
     env_random := fun k => match lens !! k with Some len => Some (bytes_of (seed + Z.of_nat k) len) | None => None end |}.

Definition offline : Env := {| env_open := false; env_commit := false; env_random := fun _ => None |}.

Definition admin : Subject := {| uid := 1000; username := "alice"; role := Admin |}.

Definition empty_store : Store :=
  {| sessions := ∅; administrative_access := ∅; administrative_access_events := []; reauth_claims := ∅;
     additional_auth_claims := ∅; additional_auth_policy_setting := None; totp_enrollments := ∅;
     totp_recovery_codes := ∅; totp_used_steps := ∅; totp_audit_events := []; terminal_sessions := ∅;
     file_sessions := ∅; file_access_events := []; file_uploads := ∅ |}.

Definition fresh : Web := {| w_store := empty_store; w_key := None |}.

Definition token_of (seed : Z) : string := web_base64url (bytes_of seed 32).
Definition session_token : string := token_of 1.
Definition enroll_claim : string := token_of 10.
Definition operation_claim : string := token_of 20.
Definition policy_claim : string := token_of 30.
Definition second_token : string := token_of 50.

Definition base : list WebOp :=
  [ WRestart (env_of 0 []) 1000;
    WIssueAdministrative (env_of 1 [32]) admin RecoveryIngress 2000;
    WIssueReauth (env_of 10 [32]) session_token admin ReauthTotpEnrollment 3000;
    WIssueReauth (env_of 20 [32]) session_token admin (ReauthOperation "sha256:plan") 3000;
    WIssueReauth (env_of 30 [32]) session_token admin (ReauthSecurityPolicyChange PolicyAllMutations) 3000;
    WBeginEnrollment (env_of 40 ([20; 32; 12; 16] ++ replicate 10 16)) (KeyCreated 384) session_token admin
      RecoveryIngress enroll_claim "server" 60000 ].

Definition secret : string := bytes_of 40 20.
Definition code_at (step : Z) : string := match totp_code secret step with Ok c => c | Err _ => ""%string end.
Definition enrollment : string := hex_of_bytes (bytes_of 43 16).

Definition enrolled : Web :=
  web_run (base ++
    [ WConfirmEnrollment (env_of 0 []) admin RecoveryIngress enrollment (code_at 2) 60000;
      WConfirmEnrollment (env_of 0 []) admin RecoveryIngress enrollment (code_at 3) 90000 ]) fresh.

Definition verify (step now : Z) : WebOp := WVerifyDirect (env_of 0 []) admin "context" (code_at step) now.
End WebScenario.
