(* ===== verification/WebProps.v ===== *)
(** * Properties of the web agent's sessions, claims and second factor *)

From Stdlib Require Import Ascii String.
From S2P Require Import Prelude Crypto Contracts Text Bytes Loops WebStore Session Totp Claims WebProofs WebFrames WebReference.

(** ** Sessions *)

Definition live (ingress : IngressChannel) (now : Z) (row : SessionRow) : bool :=
  bool_decide (se_ingress row = ingress_value ingress) && is_none (se_revoked_at row)
  && (now <? se_idle_expires_at row) && (now <? se_absolute_expires_at row).

Lemma parse_ingress_value i : parse_ingress (ingress_value i) = Ok i.
Proof. by destruct i. Qed.

Lemma parse_role_value r : parse_role (role_value r) = Ok r.
Proof. by destruct r. Qed.

Lemma ingress_value_inj i j : ingress_value i = ingress_value j -> i = j.
Proof. by destruct i, j. Qed.

Section Authentication.
Context `{WC : WebCrypto}.

Definition touch_due (now : Z) (row : SessionRow) : bool :=
  SESSION_TOUCH_INTERVAL_MS <=? sat_sub now (se_last_seen_at row).

Definition next_idle (ingress : IngressChannel) (now : Z) (row : SessionRow) : Z :=
  if touch_due now row then Z.min (sat_add now (session_durations ingress).1) (se_absolute_expires_at row)
  else se_idle_expires_at row.

Definition granted_until (s : Store) (digest : string) : option Z :=
  match administrative_access s !! digest with
  | Some a => if is_none (aa_revoked_at a) then Some (aa_expires_at a) else None
  | None => None
  end.

Lemma load_session_row s digest row :
  store_inv s -> sessions s !! digest = Some row -> se_subject_uid row <= u32_max ->
  exists i r, se_ingress row = ingress_value i /\ se_subject_role row = role_value r /\
    load_session digest s = Ok (Some
      {| sn_ingress := i;
         sn_subject := {| uid := se_subject_uid row; username := se_subject_username row; role := r |};
         sn_authenticated_at := se_authenticated_at row; sn_last_seen_at := se_last_seen_at row;
         sn_idle_expires_at := se_idle_expires_at row; sn_absolute_expires_at := se_absolute_expires_at row;
         sn_revoked_at := se_revoked_at row; sn_administrative_until := granted_until s digest |}).
Proof.
  intros [Hs _] Hrow Hmax. destruct (Hs _ _ Hrow) as [(i & Hi & _) (r & Hr) Hpos _].
  exists i, r. split; [done|]. split; [done|]. unfold load_session. rewrite Hrow.
  assert (between 0 u32_max (se_subject_uid row) = true) as -> by (unfold between; lia).
  cbn [negb]. rewrite Hi, Hr, parse_ingress_value, parse_role_value. done.
Qed.

Lemma granted_admin s digest row expiry :
  store_inv s -> sessions s !! digest = Some row -> granted_until s digest = Some expiry ->
  se_subject_role row = "admin"%string /\ expiry <= se_absolute_expires_at row.
Proof.
  intros [_ Ha] Hrow. unfold granted_until. destruct (administrative_access s !! digest) as [a|] eqn:Ea; [|done].
  destruct (is_none _); [|done]. intros [= <-]. destruct (Ha _ _ Ea) as (row' & Hrow' & _ & Hr & He).
  rewrite Hrow in Hrow'. by injection Hrow' as <-.
Qed.

(** What authentication leaves in the store. *)
Lemma authenticated_store s digest ingress now row :
  sessions s !! digest = Some row -> se_revoked_at row = None ->
  (if touch_due now row then touch_session digest now (next_idle ingress now row) s else s) =
  upd_sessions (<[digest := {| se_ingress := se_ingress row; se_subject_uid := se_subject_uid row;
       se_subject_username := se_subject_username row; se_subject_role := se_subject_role row;
       se_authenticated_at := se_authenticated_at row;
       se_last_seen_at := if touch_due now row then now else se_last_seen_at row;
       se_idle_expires_at := next_idle ingress now row;
       se_absolute_expires_at := se_absolute_expires_at row; se_revoked_at := None |}]>) s.
Proof.
  intros Hrow Hrev. unfold next_idle, touch_session, upd_sessions. destruct (touch_due now row).
  - unfold update_where. rewrite Hrow, Hrev. done.
  - destruct s. cbn in *. f_equal. symmetry. apply insert_id. rewrite Hrow. destruct row. cbn in *. by subst.
Qed.

(** What a session's view says: its row's subject and times, the token's CSRF
    value, the policy, and administrative access only while a grant of the
    session is neither revoked nor past its end. *)
Definition shown_as (s : Store) (token : string) (ingress : IngressChannel) (now : Z) (policy : AdditionalAuthPolicy)
    (row : SessionRow) (r : Role) (idle : Z) (view : SessionView) : Prop :=
  sv_subject view = {| uid := se_subject_uid row; username := se_subject_username row; role := r |} /\
  sv_ingress view = ingress /\
  web_rfc3339 (se_authenticated_at row) = Some (sv_authenticated_at view) /\
  web_rfc3339 idle = Some (sv_idle_expires_at view) /\
  web_rfc3339 (se_absolute_expires_at row) = Some (sv_absolute_expires_at view) /\
  sv_csrf_token view = web_base64url (sha256 ("jw-agent/csrf/v1" +:+ NUL +:+ token)) /\
  sv_additional_auth_policy view = policy /\
  ((sv_administrative_access view = AdministrativeAccess /\
    exists grant time, administrative_access s !! session_digest token = Some grant /\ aa_revoked_at grant = None /\
      now < aa_expires_at grant /\ web_rfc3339 (aa_expires_at grant) = Some time /\ sv_administrative_expires_at view = Some time) \/
   (sv_administrative_access view = StandardAccess /\ sv_administrative_expires_at view = None /\
    forall grant, administrative_access s !! session_digest token = Some grant ->
      aa_revoked_at grant <> None \/ aa_expires_at grant <= now)).

Lemma session_view_shown s token ingress now policy row r idle :
  let res := session_view {| uid := se_subject_uid row; username := se_subject_username row; role := r |} ingress
     (se_authenticated_at row) idle (se_absolute_expires_at row) token policy (granted_until s (session_digest token)) now in
  (forall view, res = Ok view <-> shown_as s token ingress now policy row r idle view) /\
  (forall e, res = Err e -> e = SText "timestamp is out of range").
Proof.
  cbv zeta. unfold session_view, shown_as, granted_until, format_rfc3339, ok_or.
  destruct (web_rfc3339 (se_authenticated_at row)) as [t1|]; cbn;
    [|split; [intros view; split; [done|by intros (_ & _ & ? & _)]|by intros e [= <-]]].
  destruct (web_rfc3339 idle) as [t2|]; cbn;
    [|split; [intros view; split; [done|by intros (_ & _ & _ & ? & _)]|by intros e [= <-]]].
  destruct (web_rfc3339 (se_absolute_expires_at row)) as [t3|]; cbn;
    [|split; [intros view; split; [done|by intros (_ & _ & _ & _ & ? & _)]|by intros e [= <-]]].
  destruct (administrative_access s !! session_digest token) as [g|] eqn:Eg; [destruct (aa_revoked_at g) eqn:Er|]; cbn.
  2:{ destruct (now <? aa_expires_at g) eqn:El; bool_prop.
      - destruct (web_rfc3339 (aa_expires_at g)) as [t4|] eqn:E4; cbn; (split; [|intros e; first [discriminate|by intros [= <-]]]); intros view; split; try done.
        + intros [= <-]. cbn. split_and!; try done. left. split; [done|]. by exists g, t4.
        + intros (H1 & H2 & [= H3] & [= H4] & [= H5] & H6 & H7 & [(H8 & g' & t & [= <-] & _ & _ & Ht & H9)|(_ & _ & Hno)]).
          * destruct view. cbn in *. rewrite E4 in Ht. injection Ht as <-. by subst.
          * destruct (Hno _ eq_refl) as [?|?]; [done|lia].
        + intros (_ & _ & _ & _ & _ & _ & _ & [(_ & g' & t & [= <-] & _ & _ & Ht & _)|(_ & _ & Hno)]); [congruence|].
          destruct (Hno _ eq_refl) as [?|?]; [done|lia].
      - cbn. split; [|done]. intros view. split.
        + intros [= <-]. cbn. split_and!; try done. right. split_and!; [done|done|]. intros ? [= <-]. right. lia.
        + intros (H1 & H2 & [= H3] & [= H4] & [= H5] & H6 & H7 & [(_ & g' & t & [= <-] & _ & Hlt & _)|(H8 & H9 & _)]); [lia|].
          destruct view. cbn in *. by subst. }
  all: cbn; (split; [|done]); intros view; split.
  all: try (intros [= <-]; cbn; split_and!; try done; right; split_and!; try done; intros ? [= <-]; left; congruence).
  all: intros (H1 & H2 & [= H3] & [= H4] & [= H5] & H6 & H7 & [(_ & g' & t & [= <-] & Hn & _)|(H8 & H9 & _)]); try congruence.
  all: destruct view; cbn in *; by subst.
Qed.

Lemma authenticate_by_row env token ingress now s policy :
  store_inv s ->
  map_Forall (fun _ row => se_subject_uid row <= u32_max) (sessions s) ->
  policy_in s = Ok policy ->
  env_open env = true -> env_commit env = true -> valid_token_shape token = true ->
  match sessions s !! session_digest token with
  | None => authenticate_session env token ingress now s = (Ok None, s)
  | Some row =>
      exists r, se_subject_role row = role_value r /\
      authenticate_session env token ingress now s =
        (if live ingress now row then
           (let? view := session_view
                {| uid := se_subject_uid row; username := se_subject_username row; role := r |} ingress
                (se_authenticated_at row) (next_idle ingress now row) (se_absolute_expires_at row) token policy
                (granted_until s (session_digest token)) now in Ok (Some view),
            if touch_due now row then touch_session (session_digest token) now (next_idle ingress now row) s else s)
         else (Ok None, s))
  end.
Proof.
  intros Hinv Hmax Hpolicy Hopen Hcommit Hshape. unfold authenticate_session. rewrite Hopen, Hcommit, Hshape.
  cbn [negb]. unfold authenticate_tx. destruct (sessions s !! session_digest token) as [row|] eqn:Erow.
  2: { unfold mbind at 1. unfold load_session. by rewrite Erow. }
  destruct (load_session_row s _ row Hinv Erow (Hmax _ _ Erow)) as (i & r & Hi & Hr & Hload).
  exists r. split; [done|]. unfold mbind at 1. rewrite Hload. cbn. unfold live. rewrite Hi. fold (touch_due now row).
  assert (bool_decide (ingress_value i = ingress_value ingress) = bool_decide (i = ingress)) as ->
    by (destruct i, ingress; done).
  destruct (bool_decide (i = ingress)); [|done]. destruct (se_revoked_at row); [done|]. cbn.
  rewrite !Z.leb_antisym. destruct (now <? se_idle_expires_at row); [|done].
  destruct (now <? se_absolute_expires_at row); [|done]. cbn.
  unfold mbind, next_idle. destruct (touch_due now row); cbn; unfold policy_in in *; cbn; by rewrite Hpolicy.
Qed.

(** How long a session may stay unused. *)
Definition idle_limit (ingress : IngressChannel) : Z :=
  match ingress with PublicIngress => 900000 | RecoveryIngress => 600000 end.

(** C35: authentication decides exactly by the stored session.  With no row, or
    one of another ingress, revoked or past its idle or absolute end, nothing is
    returned and nothing changes.  A live session unused for a minute or more
    has its last use set to now and its idle end to fifteen (ten, on recovery)
    minutes from now but never past its absolute end, and nothing else of the
    store changes; a session used within the minute is left as it is.  The view
    returned is exactly the one of its row and of the idle end now in force,
    with administrative access shown only for a grant neither revoked nor past
    its end (which an admin alone has, within the session), unless one of its
    times cannot be written. *)
Theorem authenticate_exact env token ingress now s policy :
  store_inv s ->
  map_Forall (fun _ row => se_subject_uid row <= u32_max) (sessions s) ->
  policy_in s = Ok policy ->
  env_open env = true -> env_commit env = true -> valid_token_shape token = true ->
  match sessions s !! session_digest token with
  | None => authenticate_session env token ingress now s = (Ok None, s)
  | Some row =>
      exists r, se_subject_role row = role_value r /\
      (if live ingress now row then
         let due := 60000 <=? sat_sub now (se_last_seen_at row) in
         let idle := if due then Z.min (sat_add now (idle_limit ingress)) (se_absolute_expires_at row)
                     else se_idle_expires_at row in
         let row' := {| se_ingress := se_ingress row; se_subject_uid := se_subject_uid row;
                        se_subject_username := se_subject_username row; se_subject_role := se_subject_role row;
                        se_authenticated_at := se_authenticated_at row;
                        se_last_seen_at := if due then now else se_last_seen_at row; se_idle_expires_at := idle;
                        se_absolute_expires_at := se_absolute_expires_at row; se_revoked_at := None |} in
         exists res, authenticate_session env token ingress now s =
             (res, upd_sessions (<[session_digest token := row']>) s) /\
           idle <= se_absolute_expires_at row /\ res <> Ok None /\
           (forall view, res = Ok (Some view) <-> shown_as s token ingress now policy row r idle view) /\
           (forall e, res = Err e -> e = SText "timestamp is out of range")
       else authenticate_session env token ingress now s = (Ok None, s)) /\
      (forall grant, administrative_access s !! session_digest token = Some grant -> aa_revoked_at grant = None ->
         r = Admin /\ aa_expires_at grant <= se_absolute_expires_at row)
  end.
Proof.
  intros Hinv Hmax Hpolicy Hopen Hcommit Hshape.
  pose proof (authenticate_by_row env token ingress now s policy Hinv Hmax Hpolicy Hopen Hcommit Hshape) as Hauth.
  destruct (sessions s !! session_digest token) as [row|] eqn:Erow; [|done]. destruct Hauth as (r & Hr & Hauth).
  exists r. split; [done|]. rewrite Hauth. split.
  - destruct (live ingress now row) eqn:Elive; [|done]. cbv zeta.
    change (60000 <=? sat_sub now (se_last_seen_at row)) with (touch_due now row).
    replace (if touch_due now row then Z.min (sat_add now (idle_limit ingress)) (se_absolute_expires_at row)
             else se_idle_expires_at row) with (next_idle ingress now row) by (unfold next_idle; by destruct ingress).
    destruct (session_view_shown s token ingress now policy row r (next_idle ingress now row)) as [Hview Herr].
    assert (se_revoked_at row = None) as Hrev by (unfold live in Elive; bool_prop; by destruct (se_revoked_at row)).
    eexists. split; [by rewrite (authenticated_store s _ _ _ _ Erow Hrev)|]. split_and!.
    + destruct Hinv as [Hs _]. pose proof (so_idle _ (Hs _ _ Erow)). unfold next_idle. destruct (touch_due now row); lia.
    + by destruct (session_view _ _ _ _ _ _ _ _ _).
    + intros view. rewrite <- Hview. destruct (session_view _ _ _ _ _ _ _ _ _); cbn; split; congruence.
    + intros e. destruct (session_view _ _ _ _ _ _ _ _ _) eqn:Ev; cbn; [done|]. intros [= <-]. by eapply Herr.
  - intros grant Hg Hrev. destruct (granted_admin s (session_digest token) row (aa_expires_at grant) Hinv Erow) as [Ha He].
    { unfold granted_until. by rewrite Hg, Hrev. }
    split; [|done]. rewrite Hr in Ha. by destruct r.
Qed.

Lemma authenticate_live env token ingress now s view :
  (authenticate_session env token ingress now s).1 = Ok (Some view) ->
  exists row, sessions s !! session_digest token = Some row /\ is_none (se_revoked_at row) = true.
Proof.
  unfold authenticate_session. destruct (negb _); [done|]. destruct (negb _); [done|].
  unfold authenticate_tx, mbind at 1, load_session.
  destruct (sessions s !! session_digest token) as [row|]; [|done]. intros Hv. exists row. split; [done|].
  revert Hv. destruct (negb (between _ _ _)); [done|]. destruct (parse_ingress _); [|done].
  destruct (parse_role _); [|done]. cbn. destruct (se_revoked_at row); [|done].
  by rewrite orb_true_r.
Qed.

(** The sessions an operation revokes. *)
Definition revokes (op : WebOp) (w : Web) (digest : string) (row : SessionRow) : Prop :=
  match op with
  | WRevoke env token now =>
      valid_token_shape token = true /\ session_digest token = digest /\ is_ok (revoke_session env token now (w_store w)).1 = true
  | WRevokeAll env now => is_ok (revoke_all env now (w_store w)).1 = true
  | WRecoveryReset env token subject ingress reauth code now =>
      is_ok (recovery_reset env token subject ingress reauth code now w).1 = true /\ uid subject = se_subject_uid row
  | _ => False
  end.

Definition revoked_at (digest : string) (s : Store) : Prop :=
  exists row, sessions s !! digest = Some row /\ is_some (se_revoked_at row) = true.

Lemma revoked_map (f : SessionRow -> SessionRow) digest row s :
  sessions s !! digest = Some row -> is_some (se_revoked_at (f row)) = true ->
  revoked_at digest (upd_sessions (fmap f) s).
Proof. intros Hrow Hf. exists (f row). split; [cbn; by rewrite lookup_fmap, Hrow|done]. Qed.

Lemma ok_transaction {E A} env (e : E) (body : M Store E A) s :
  is_ok (transaction env e body s).1 = true ->
  is_ok (body s).1 = true /\ (transaction env e body s).2 = (body s).2.
Proof. destruct (transaction_cases env e body s) as [[-> Hok]|[e' ->]]; [done|done]. Qed.

Lemma bind_final {S E A B} (P : S -> Prop) (m : M S E A) (k : A -> M S E B) s :
  is_ok (mbind m k s).1 = true ->
  (forall a s1, m s = (Ok a, s1) -> is_ok (k a s1).1 = true -> P (k a s1).2) -> P (mbind m k s).2.
Proof. unfold mbind. destruct (m s) as [[a|e] s1]; [|done]. intros Hok Hk. by apply (Hk a s1). Qed.

Lemma revoked_by_reset token u reauth code now s digest row :
  sessions s !! digest = Some row -> se_subject_uid row = u ->
  is_ok (recovery_reset_tx token u reauth code now s).1 = true ->
  revoked_at digest (recovery_reset_tx token u reauth code now s).2.
Proof.
  intros Hrow Hu Hok. revert Hok. unfold recovery_reset_tx. intros Hok.
  apply (bind_final _ _ _ _ Hok); clear Hok. intros [] s1 Hs1 Hok. unfold consume_reauth_claim, consume_claim in Hs1.
  destruct (update_where _ _ _ _) as [claims n]. destruct (n =? 1); [|done]. injection Hs1 as <-.
  apply (bind_final _ _ _ _ Hok); clear Hok. intros [] s2 Hs2.
  destruct (update_where _ _ _ _) as [codes m]. destruct (m =? 1); [|done]. injection Hs2 as <-.
  unfold mbind at 1, audit. destruct (_ && _); [|done]. cbn. intros _. eexists. split; [cbn; rewrite lookup_fmap, Hrow; reflexivity|]. cbn. rewrite Hu, Z.eqb_refl. cbn.
  destruct (se_revoked_at row) eqn:E; cbn; rewrite ?E; done.
Qed.

Lemma revokes_revoked op w digest row :
  sessions (w_store w) !! digest = Some row -> revokes op w digest row -> revoked_at digest (w_store (web_step op w)).
Proof.
  intros Hrow Hrev. destruct op; try done; cbn [web_step]; cbn in Hrev.
  - destruct Hrev as (Hshape & <- & Hok). unfold on_store, revoke_session in *. rewrite Hshape in *. cbn [negb] in *.
    apply ok_transaction in Hok as [_ Htx]. destruct (transaction _ _ _ _) as [r s1]. cbn in *. subst s1.
    eexists. split; [cbn; unfold update_where; rewrite Hrow; apply lookup_insert_eq|done].
  - unfold on_store, revoke_all in *. apply ok_transaction in Hrev as [_ Htx].
    destruct (transaction _ _ _ _) as [r s1]. cbn in *. subst s1. eapply revoked_map; [exact Hrow|].
    destruct (se_revoked_at row) eqn:E; cbn; rewrite ?E; done.
  - destruct Hrev as [Hok Hu]. unfold recovery_reset in *. destruct (_ || _); [done|].
    unfold on_store in *. pose proof (ok_transaction env TStorage
      (recovery_reset_tx token (uid subject) reauth code now) (w_store w)) as Ht.
    destruct (transaction _ _ _ _) as [r s1]. cbn in *. destruct (Ht Hok) as [Htx ->].
    by apply (revoked_by_reset _ _ _ _ _ _ _ row).
Qed.

(** C36: revocation is final: once a session is logged out, revoked with all
    others, or revoked by the reset of its subject's second factor, no later
    sequence of operations lets its token authenticate again, at any time and on
    either ingress. *)
Theorem revocation_is_final op w token row ops env ingress now view :
  sessions (w_store w) !! session_digest token = Some row ->
  revokes op w (session_digest token) row ->
  (authenticate_session env token ingress now (w_store (web_run ops (web_step op w)))).1 <> Ok (Some view).
Proof.
  intros Hrow Hrev Hauth. destruct (revokes_revoked _ _ _ _ Hrow Hrev) as (row1 & Hrow1 & Hr1).
  destruct (web_run_evolves ops (web_step op w)) as [Hle _].
  destruct (le_sessions _ _ Hle _ _ Hrow1) as (row2 & Hrow2 & Hs).
  apply authenticate_live in Hauth as (row3 & Hrow3 & Hnone). rewrite Hrow2 in Hrow3. injection Hrow3 as <-.
  pose proof (sl_revoked _ _ Hs Hr1) as Hsome. by destruct (se_revoked_at row2).
Qed.

(** C34: along every sequence of operations, start-ups and failed transactions
    included, the store keeps its invariant (a session ends with its channel's
    absolute limit, is idle-limited within it and never belongs to root; grants
    belong to admins' sessions and end with them) and only moves forward:
    sessions, claims and grants keep their identity, revocation and consumption
    are final, finished audit rows never change and the audit logs only grow. *)
Theorem web_history_preserved ops w :
  store_inv (w_store w) ->
  store_inv (w_store (web_run ops w)) /\ store_le (w_store w) (w_store (web_run ops w)).
Proof. intros Hinv. destruct (web_run_evolves ops w) as [Hle Hi]. split; [auto|done]. Qed.
End Authentication.

(** ** Claims *)

Section SingleUse.
Context `{WC : WebCrypto}.

Lemma update_where_one {K A} `{Countable K} (k : K) p f (m m' : gmap K A) :
  update_where k p f m = (m', 1) -> exists a, m !! k = Some a /\ p a = true /\ m' = <[k := f a]> m.
Proof.
  unfold update_where. destruct (m !! k) as [a|]; [|done]. destruct (p a) eqn:E; [|done]. intros [= <-]. eauto.
Qed.

Lemma consume_claim_ok {E} (e : E) token u purpose context reauth now s x s1 :
  consume_claim e token u purpose context reauth now s = (Ok x, s1) ->
  exists row, reauth_claims s !! claim_digest reauth = Some row /\
    claim_usable (session_digest token) u purpose context now row = true /\
    s1 = upd_reauth_claims (<[claim_digest reauth := consumed now row]>) s.
Proof.
  unfold consume_claim. destruct (update_where _ _ _ _) as [claims n] eqn:Eu. destruct (n =? 1) eqn:En; [|done].
  intros [= _ <-]. apply Z.eqb_eq in En as ->. apply update_where_one in Eu as (row & Hrow & Hp & ->).
  by exists row.
Qed.

Lemma consume_claim_spent {E} (e : E) token u purpose context reauth now s row :
  reauth_claims s !! claim_digest reauth = Some row -> is_some (rc_consumed_at row) = true ->
  consume_claim e token u purpose context reauth now s = (Err e, s).
Proof.
  intros Hrow Hs. unfold consume_claim, update_where. rewrite Hrow.
  replace (claim_usable _ _ _ _ _ row) with false; [done|].
  unfold claim_usable. destruct (rc_consumed_at row); [|done]. by rewrite andb_false_r.
Qed.

(** The claim of an authorization's first factor: issued for this session,
    subject and plan, neither expired nor used. *)
Definition first_claim_valid (a : OperationAuthorization) (row : ReauthRow) : Prop :=
  rc_session_digest row = session_digest (oa_session_token a) /\ rc_subject_uid row = uid (oa_subject a) /\
  rc_purpose row = "operation"%string /\ rc_context_digest row = oa_plan_hash a /\
  oa_now a < rc_expires_at row /\ rc_consumed_at row = None.

(** The claim of its second factor: bound to the first one besides. *)
Definition second_claim_valid (a : OperationAuthorization) (row : AdditionalRow) : Prop :=
  ad_reauth_digest row = claim_digest (oa_reauth_token a) /\
  ad_session_digest row = session_digest (oa_session_token a) /\ ad_subject_uid row = uid (oa_subject a) /\
  ad_context_digest row = oa_plan_hash a /\ oa_now a < ad_expires_at row /\ ad_consumed_at row = None.

(** The rows once used at a time. *)
Definition first_used (now : Z) (row : ReauthRow) : ReauthRow :=
  {| rc_session_digest := rc_session_digest row; rc_subject_uid := rc_subject_uid row; rc_purpose := rc_purpose row;
     rc_context_digest := rc_context_digest row; rc_expires_at := rc_expires_at row; rc_consumed_at := Some now |}.
Definition second_used (now : Z) (row : AdditionalRow) : AdditionalRow :=
  {| ad_reauth_digest := ad_reauth_digest row; ad_session_digest := ad_session_digest row;
     ad_subject_uid := ad_subject_uid row; ad_context_digest := ad_context_digest row;
     ad_expires_at := ad_expires_at row; ad_consumed_at := Some now |}.

Lemma consume_additional_ok a claim s x s1 :
  consume_additional a claim s = (Ok x, s1) ->
  exists row, additional_auth_claims s !! additional_claim_digest claim = Some row /\ second_claim_valid a row /\
    s1 = upd_additional_auth_claims (<[additional_claim_digest claim := second_used (oa_now a) row]>) s.
Proof.
  unfold consume_additional. destruct (negb _); [done|].
  destruct (update_where _ _ _ _) as [claims n] eqn:Eu. destruct (n =? 1) eqn:En; [|done].
  intros [= _ <-]. apply Z.eqb_eq in En as ->. apply update_where_one in Eu as (row & Hrow & Hp & ->).
  exists row. split; [done|]. split; [|done]. unfold additional_usable in Hp. bool_prop.
  unfold second_claim_valid. split_and!; try done. by destruct (ad_consumed_at row).
Qed.

(** A committed authorization, its claims and what it writes. *)
Definition authorised (a : OperationAuthorization) (s s1 : Store) : Prop :=
  exists row, reauth_claims s !! claim_digest (oa_reauth_token a) = Some row /\ first_claim_valid a row /\
    let s' := upd_reauth_claims (<[claim_digest (oa_reauth_token a) := first_used (oa_now a) row]>) s in
    match oa_additional_auth_required a, oa_additional_auth_claim a with
    | false, None => s1 = s'
    | true, Some claim =>
        exists row2, additional_auth_claims s !! additional_claim_digest claim = Some row2 /\ second_claim_valid a row2 /\
          s1 = upd_additional_auth_claims (<[additional_claim_digest claim := second_used (oa_now a) row2]>) s'
    | _, _ => False
    end.

Lemma consume_claims_authorised env a s s1 : consume_operation_claims env a s = (Ok tt, s1) -> authorised a s s1.
Proof.
  unfold consume_operation_claims. destruct (_ || _); [done|]. intros Htx%transaction_ok. revert Htx.
  unfold consume_operation_claims_tx, mbind at 1.
  destruct (consume_claim _ _ _ _ _ _ _ _) as [[x|e] s2] eqn:Ec; [|done].
  apply consume_claim_ok in Ec as (row & Hrow & Hu & ->). intros Hsecond. exists row. split; [done|]. split.
  { unfold claim_usable in Hu. bool_prop. unfold first_claim_valid. split_and!; try done. by destruct (rc_consumed_at row). }
  cbv zeta. destruct (oa_additional_auth_required a), (oa_additional_auth_claim a); try done.
  - by apply consume_additional_ok in Hsecond as (row2 & ? & ? & ->); exists row2.
  - by injection Hsecond as <-.
Qed.

(** What the store keeps of the claims that were used. *)
Lemma authorised_rows a s s1 : authorised a s s1 ->
  (exists row, reauth_claims s1 !! claim_digest (oa_reauth_token a) = Some row /\ rc_consumed_at row = Some (oa_now a)) /\
  (forall claim row, oa_additional_auth_claim a = Some claim ->
     additional_auth_claims s1 !! additional_claim_digest claim = Some row -> ad_consumed_at row = Some (oa_now a)).
Proof.
  intros (row & _ & _ & Hs). cbv zeta in Hs.
  destruct (oa_additional_auth_required a), (oa_additional_auth_claim a) as [claim|]; try done.
  - destruct Hs as (row2 & _ & _ & ->). split.
    + exists (first_used (oa_now a) row). split; [apply lookup_insert_eq|done].
    + intros claim' row'. intros [= <-]. cbn. rewrite lookup_insert_eq. by intros [= <-].
  - subst s1. split; [|done]. exists (first_used (oa_now a) row). split; [apply lookup_insert_eq|done].
Qed.

(** C37: an operation is authorised only by an unexpired, unused claim that
    was issued to the same session and subject for this very plan and, exactly
    when a second factor is required, by a second claim bound to that first one
    and as valid; the claims used are marked with the time and nothing else
    changes.  After any further operations the same first claim authorises
    nothing again, and neither does the same second claim, with whatever first
    claim it comes, unless the random generator has issued the same one anew. *)
Theorem operation_claim_single_use env a w s1 :
  consume_operation_claims env a (w_store w) = (Ok tt, s1) ->
  authorised a (w_store w) s1 /\
  (forall ops env' a', oa_reauth_token a' = oa_reauth_token a ->
     is_ok (consume_operation_claims env' a' (w_store (web_run ops (web_step (WConsumeClaims env a) w)))).1 = false) /\
  (forall claim ops env' a', oa_additional_auth_claim a = Some claim -> oa_additional_auth_claim a' = Some claim ->
     Forall (fun op => ~ issues (additional_claim_digest claim) op) ops ->
     is_ok (consume_operation_claims env' a' (w_store (web_run ops (web_step (WConsumeClaims env a) w)))).1 = false).
Proof.
  intros Hok. assert (w_store (web_step (WConsumeClaims env a) w) = s1) as Hs1.
  { cbn [web_step]. unfold on_store. by rewrite Hok. }
  apply consume_claims_authorised in Hok. destruct (authorised_rows _ _ _ Hok) as [(row & Hrow & Hc) Hsecond].
  split; [done|]. split.
  - intros ops env' a' Ht. destruct (web_run_evolves ops (web_step (WConsumeClaims env a) w)) as [Hle _].
    rewrite Hs1 in Hle. destruct (le_reauth _ _ Hle _ _ Hrow) as (row2 & Hrow2 & Hr2).
    unfold consume_operation_claims. match goal with |- context [if ?b then mfail _ else _] => destruct b; [done|] end.
    unfold transaction, consume_operation_claims_tx, mbind at 1. rewrite Ht.
    erewrite consume_claim_spent; [|exact Hrow2|by rewrite (rl_consumed _ _ Hr2); rewrite Hc]. by destruct (env_open env').
  - intros claim ops env' a' Ha Ha' Hops. pose proof (claims_run _ _ (web_step (WConsumeClaims env a) w) Hops) as Hd.
    rewrite Hs1 in Hd. destruct (consume_operation_claims env' a' _) as [[[]|e] s2] eqn:E; [|done]. exfalso.
    apply consume_claims_authorised in E as (r & _ & _ & Hs). rewrite Ha' in Hs.
    destruct (oa_additional_auth_required a'); [|done]. destruct Hs as (row2 & Hrow2 & (_ & _ & _ & _ & _ & Hn) & _).
    specialize (Hd _ Hrow2 Hn). specialize (Hsecond _ _ Ha Hd). congruence.
Qed.
End SingleUse.

(** ** The second factor *)

Section Totp.
Context `{WC : WebCrypto}.

(** The steps a code is tried against at a time. *)
Definition candidates (current : Z) : list Z := [current; sat_sub current 1; sat_add current 1].

Lemma match_candidates_Some secret code cs matched step :
  match_candidates secret code cs matched = Ok (Some step) ->
  matched = Some step \/ step ∈ cs /\ totp_code secret step = Ok code.
Proof.
  revert matched. induction cs as [|c cs IH]; cbn; intros matched; [intros [= ->]; by left|].
  destruct (totp_code secret c) as [expected|] eqn:Ec; [|done]. cbn.
  intros [Hm|[Hin Hc]]%IH; [|by right; split; [by right|]].
  destruct (bool_decide (expected = code)) eqn:Eb; [|by left]. bool_prop. injection Hm as <-.
  right. split; [by left|congruence].
Qed.

Record reserved (u : Z) (secret code : string) (now : Z) (last : option Z) (s s' : Store) (step : Z) : Prop := {
  rs_current : exists current, time_step now = Ok current /\ step ∈ candidates current /\
    (forall seen, last = Some seen -> seen <= sat_add current MAX_CLOCK_ROLLBACK_STEPS);
  rs_code : totp_code secret step = Ok code;
  rs_unused : totp_used_steps s !! (u, step) = None;
  rs_store : s' = upd_totp_used_steps (<[(u, step) := now]>) s;
}.

Lemma match_and_reserve_ok u secret code now last s step s' :
  match_and_reserve_step u secret code now last s = (Ok step, s') -> reserved u secret code now last s s' step.
Proof.
  unfold match_and_reserve_step. destruct (time_step now) as [current|] eqn:Et; [|done].
  destruct (is_some_and _ _) eqn:El; [done|]. destruct (match_candidates _ _ _ _) as [[step'|]|] eqn:Em; [|done..].
  destruct (negb _); [done|]. destruct (insert_new _ _ _) eqn:Ei; [|done]. destruct (is_none _); [done|].
  intros [= -> <-]. apply insert_new_Some in Ei as [Hn ->].
  apply match_candidates_Some in Em as [|[Hin Hc]]; [done|]. split; try done.
  exists current. split; [done|]. split; [done|]. intros seen ->. cbn in El. lia.
Qed.

(** A verification the service accepted, by either operation that verifies. *)
Definition accepts (op : WebOp) (w : Web) (u : Z) (code : string) (now : Z) : Prop :=
  match op with
  | WVerifyDirect env subject context c n =>
      uid subject = u /\ c = code /\ n = now /\ is_ok (verify_direct_context env subject context c n w).1 = true
  | WIssueOperationClaim env token subject reauth plan_hash c n =>
      uid subject = u /\ c = code /\ n = now /\ is_ok (issue_operation_claim env token subject reauth plan_hash c n w).1 = true
  | _ => False
  end.

(** What an accepted verification read and wrote. *)
Record accepted (w w' : Web) (u : Z) (code : string) (now : Z) (row : EnrollmentRow) (secret : string) (step : Z) : Prop := {
  ac_active : active_at u (w_store w) row;
  ac_secret : decrypt_secret u (en_secret_nonce row) (en_secret_ciphertext row) w = Ok secret;
  ac_current : exists current, time_step now = Ok current /\ step ∈ candidates current /\
    (forall seen, en_last_observed_step row = Some seen -> seen <= sat_add current MAX_CLOCK_ROLLBACK_STEPS);
  ac_code : totp_code secret step = Ok code;
  ac_unused : totp_used_steps (w_store w) !! (u, step) = None;
  ac_used : totp_used_steps (w_store w') !! (u, step) = Some now;
  ac_after : active_at u (w_store w') (with_observed step row);
  ac_key : w_key w' = w_key w;
}.

Lemma verify_active_ok u code now w s step s' :
  verify_active u code now w s = (Ok step, s') ->
  exists row secret s1, active_at u s row /\
    decrypt_secret u (en_secret_nonce row) (en_secret_ciphertext row) w = Ok secret /\
    reserved u secret code now (en_last_observed_step row) s s1 step /\
    s' = upd_totp_enrollments (<[u := with_observed step row]>) s1.
Proof.
  unfold verify_active, mbind at 1, load_active_enrollment.
  destruct (totp_enrollments s !! u) as [row|] eqn:Erow; [|done]. destruct (bool_decide _) eqn:Eb; [|done]. bool_prop.
  unfold mbind at 1. cbn. destruct (decrypt_secret _ _ _ _) as [secret|] eqn:Ed; [|done]. cbn. unfold mbind at 1.
  destruct (match_and_reserve_step _ _ _ _ _ _) as [[step1|] s1] eqn:Em; [|done].
  apply match_and_reserve_ok in Em as Hr. cbn. intros [= -> <-]. exists row, secret, s1. split_and!; try done.
  destruct Hr as [_ _ _ ->]. unfold upd_totp_enrollments. cbn. unfold update_where.
  rewrite Erow. by rewrite bool_decide_true.
Qed.

Lemma accepted_after u code now w w1 row secret s1 step :
  active_at u (w_store w) row ->
  decrypt_secret u (en_secret_nonce row) (en_secret_ciphertext row) w = Ok secret ->
  reserved u secret code now (en_last_observed_step row) (w_store w) s1 step ->
  same_totp u (upd_totp_enrollments (<[u := with_observed step row]>) s1) (w_store w1) -> w_key w1 = w_key w ->
  accepted w w1 u code now row secret step.
Proof.
  intros Hact Hd [Hcur Hcode Hun ->] [He Hus] Hk. split; try done.
  - rewrite Hus. cbn. apply lookup_insert_eq.
  - split; [rewrite He; cbn; apply lookup_insert_eq|]. by destruct Hact.
Qed.

Lemma accepts_accepted op w u code now :
  accepts op w u code now -> exists row secret step, accepted w (web_step op w) u code now row secret step.
Proof.
  destruct op; try done; cbn [accepts web_step]; intros (<- & -> & -> & Hok).
  - unfold issue_operation_claim in *. destruct (negb _); [done|]. destruct (_ || _); [done|].
    unfold on_store, mbind in *. destruct (transaction _ _ _ _) as [[claim|e] s'] eqn:Et; [|done].
    apply transaction_ok in Et. unfold mlift in *. destruct (format_or_storage _); [|done].
    revert Et. unfold issue_operation_claim_tx, mbind at 1, validate_operation_reauth_claim.
    destruct (is_some_and _ _); [|done]. unfold mbind at 1.
    destruct (verify_active _ _ _ _ _) as [[step|e] s2] eqn:Ev; [|done].
    apply verify_active_ok in Ev as (row & secret & s1 & Hact & Hd & Hr & ->). intros Hrest.
    exists row, secret, step. eapply accepted_after; [done..| |done]. cbn.
    match type of Hrest with ?m ?s = _ => enough (preserves (same_totp (uid subject)) m) as Hq;
      [specialize (Hq s); by rewrite Hrest in Hq|] end.
    preserve; [apply insert_additional_totp|apply quiet_preserves_same, audit_quiet].
  - unfold verify_direct_context in *. destruct (negb _); [done|]. destruct (_ || _); [done|].
    unfold on_store in *. destruct (transaction _ _ _ _) as [[[]|e] s'] eqn:Et; [|done].
    apply transaction_ok in Et. revert Et. unfold verify_direct_context_tx, mbind at 1.
    destruct (verify_active _ _ _ _ _) as [[step|e] s2] eqn:Ev; [|done].
    apply verify_active_ok in Ev as (row & secret & s1 & Hact & Hd & Hr & ->). intros Hrest.
    exists row, secret, step. eapply accepted_after; [done..| |done]. cbn.
    pose proof (audit_quiet (uid subject) "verify" "direct_verified" context now
      (upd_totp_enrollments (<[uid subject := with_observed step row]>) s1)) as Hq. apply quiet_same_totp. by rewrite Hrest in Hq.
Qed.

Lemma decrypt_same_key u nonce cipher w w' :
  w_key w = w_key w' -> decrypt_secret u nonce cipher w = decrypt_secret u nonce cipher w'.
Proof. intros Hk. unfold decrypt_secret, load_existing_key. by rewrite Hk. Qed.

(** A secret that decrypts has its key file, which stays. *)
Lemma run_key u nonce cipher w w1 secret ops :
  decrypt_secret u nonce cipher w = Ok secret -> w_key w1 = w_key w -> w_key (web_run ops w1) = w_key w.
Proof.
  intros Hd Hk. destruct (w_key w) as [k|] eqn:E; [by apply key_run|].
  revert Hd. unfold decrypt_secret, load_existing_key. rewrite E. by destruct (_ || _).
Qed.

(** C38: a one-time code is accepted once: between two accepted verifications
    of a subject whose enrolment is not reset in between, whatever else runs
    (restarts, failed attempts, other subjects' enrolments), the two codes belong
    to two different time steps of the same secret, each next to the clock, and
    the clock may only have fallen back one step. *)
Theorem totp_code_single_use op w u code now ops op' code' now' :
  accepts op w u code now ->
  Forall (fun o => resets u o = false) ops ->
  accepts op' (web_run ops (web_step op w)) u code' now' ->
  exists secret step step' current current',
    totp_code secret step = Ok code /\ totp_code secret step' = Ok code' /\ step <> step' /\
    time_step now = Ok current /\ step ∈ candidates current /\
    time_step now' = Ok current' /\ step' ∈ candidates current' /\
    step <= sat_add current' MAX_CLOCK_ROLLBACK_STEPS.
Proof.
  intros Ha Hops Ha'. apply accepts_accepted in Ha as (row & secret & step & Ha).
  set (w1 := web_step op w) in *. pose proof (totp_run u ops w1 Hops) as Hle.
  destruct (Hle _ (ac_after _ _ _ _ _ _ _ _ Ha)) as [(row2 & Hact2 & Hrow2) Hused].
  specialize (Hused _ _ (ac_used _ _ _ _ _ _ _ _ Ha)).
  apply accepts_accepted in Ha' as (row3 & secret' & step' & Ha').
  destruct (ac_active _ _ _ _ _ _ _ _ Ha') as [Hrow3 _]. destruct Hact2 as [Hact2 _].
  rewrite Hact2 in Hrow3. injection Hrow3 as <-.
  assert (secret' = secret) as ->.
  { pose proof (ac_secret _ _ _ _ _ _ _ _ Ha) as Hs. pose proof (ac_secret _ _ _ _ _ _ _ _ Ha') as Hs'.
    rewrite (el_nonce _ _ Hrow2), (el_cipher _ _ Hrow2) in Hs'. cbn in Hs'.
    rewrite (decrypt_same_key _ _ _ _ w) in Hs' by (eapply run_key; [exact Hs|apply Ha]). congruence. }
  destruct (ac_current _ _ _ _ _ _ _ _ Ha) as (current & Hcur & Hin & _).
  destruct (ac_current _ _ _ _ _ _ _ _ Ha') as (current' & Hcur' & Hin' & Hseen).
  exists secret, step, step', current, current'. split_and!; try done; try by eapply ac_code.
  - intros <-. pose proof (ac_unused _ _ _ _ _ _ _ _ Ha'). congruence.
  - destruct (el_observed _ _ Hrow2) as (seen & Hs & Hge). apply Hseen in Hs. cbn in Hge. lia.
Qed.
End Totp.

(** ** The additional authentication policy *)

Section Policy.
Context `{WC : WebCrypto}.

Definition setting (w : Web) : option string := additional_auth_policy_setting (w_store w).

Lemma update_policy_tx_ok token u target reauth now s x s1 :
  update_policy_tx token u target reauth now s = (Ok x, s1) ->
  exists reauth_token row, reauth = Some reauth_token /\
    reauth_claims s !! claim_digest reauth_token = Some row /\
    claim_usable (session_digest token) u "security_policy_change" (policy_storage_value target) now row = true /\
    additional_auth_policy_setting s1 =
      match additional_auth_policy_setting s with Some _ => Some (policy_storage_value target) | None => None end /\
    reauth_claims s1 !! claim_digest reauth_token = Some (consumed now row).
Proof.
  unfold update_policy_tx, mbind at 1. destruct (policy_in s); [|done]. cbn. unfold mbind at 1.
  destruct reauth as [t|]; [|done]. cbn. unfold mbind, consume_policy_claim.
  destruct (negb (valid_token_shape t)); [done|].
  destruct (consume_claim _ _ _ _ _ _ _ _) as [[y|e] s2] eqn:Ec; [|done].
  apply consume_claim_ok in Ec as (row & Hrow & Hu & ->). cbn. intros [= _ <-].
  exists t, row. split_and!; try done. apply lookup_insert_eq.
Qed.

Lemma update_policy_ok env token subject target reauth now w :
  let w' := (update_additional_auth_policy env token subject target reauth now w).2 in
  setting w' <> setting w ->
  exists reauth_token row, reauth = Some reauth_token /\ role subject = Admin /\
    (target = PolicyDisabled \/ provider_status env (uid subject) w = Ok ProviderReady) /\
    reauth_claims (w_store w) !! claim_digest reauth_token = Some row /\
    claim_usable (session_digest token) (uid subject) "security_policy_change" (policy_storage_value target) now row = true /\
    setting w' = Some (policy_storage_value target) /\
    reauth_claims (w_store w') !! claim_digest reauth_token = Some (consumed now row).
Proof.
  cbn zeta. unfold update_additional_auth_policy. destruct (negb (bool_decide (role subject = Admin))) eqn:Er; [done|].
  destruct (_ && _) eqn:Ep; [done|]. unfold on_store, setting.
  destruct (transaction _ _ _ _) as [[x|e] s1] eqn:Et.
  2: { destruct (transaction_cases env (PolicyStorage SSql)
    (update_policy_tx token (uid subject) target reauth now) (w_store w)) as [[Hc Hok]|[e' Hc]]; rewrite Hc in Et.
    - by destruct (update_policy_tx _ _ _ _ _ _) as [[]].
    - injection Et as _ <-. done. }
  apply transaction_ok, update_policy_tx_ok in Et as (t & row & -> & Hrow & Hu & Hset & Hafter). cbn. intros Hne.
  exists t, row. split_and!; try done.
  - by destruct (role subject).
  - destruct (bool_decide (target = PolicyDisabled)) eqn:Ed; bool_prop; [by left|]. right.
    cbn in Ep. destruct (provider_status _ _ _) as [p|]; [|done]. cbn in Ep. destruct p; done.
  - rewrite Hset in *. by destruct (additional_auth_policy_setting (w_store w)).
Qed.

Lemma reset_ok token u reauth code now s x s1 :
  recovery_reset_tx token u reauth code now s = (Ok x, s1) ->
  exists row, reauth_claims s !! claim_digest reauth = Some row /\
    claim_usable (session_digest token) u "totp_recovery_reset" "totp/v1" now row = true /\
    totp_recovery_codes s !! (u, recovery_digest u code) = Some None /\
    additional_auth_policy_setting s1 =
      match additional_auth_policy_setting s with Some _ => Some "disabled"%string | None => None end.
Proof.
  unfold recovery_reset_tx, mbind at 1, consume_reauth_claim.
  destruct (consume_claim _ _ _ _ _ _ _ _) as [[y|e] s2] eqn:Ec; [|done].
  apply consume_claim_ok in Ec as (row & Hrow & Hu & ->). unfold mbind at 1. cbn.
  destruct (update_where _ _ _ _) as [codes n] eqn:Eu. destruct (n =? 1) eqn:En; [|done].
  apply Z.eqb_eq in En as ->. apply update_where_one in Eu as (old & Hold & Hnone & _).
  unfold mbind at 1, audit. destruct (_ && _); [|done]. cbn. intros [= _ <-].
  exists row. split_and!; try done. by destruct old.
Qed.

(** C39: the additional-authentication policy changes only in three ways: by
    an admin who spends an unused claim issued to this session for exactly this
    target, and, unless it is switched off, whose own second factor is ready; by
    an admin on the recovery ingress who spends a claim and an unused recovery
    code, which switches it off; and by a start-up that finds no setting. *)
Theorem policy_change_guarded op w :
  setting (web_step op w) <> setting w ->
  (exists env token subject target reauth now row,
     op = WUpdatePolicy env token subject target (Some reauth) now /\ role subject = Admin /\
     (target = PolicyDisabled \/ provider_status env (uid subject) w = Ok ProviderReady) /\
     reauth_claims (w_store w) !! claim_digest reauth = Some row /\
     claim_usable (session_digest token) (uid subject) "security_policy_change" (policy_storage_value target) now row = true /\
     setting (web_step op w) = Some (policy_storage_value target) /\
     reauth_claims (w_store (web_step op w)) !! claim_digest reauth = Some (consumed now row)) \/
  (exists env token subject reauth code now row,
     op = WRecoveryReset env token subject RecoveryIngress reauth code now /\ role subject = Admin /\
     reauth_claims (w_store w) !! claim_digest reauth = Some row /\
     claim_usable (session_digest token) (uid subject) "totp_recovery_reset" "totp/v1" now row = true /\
     totp_recovery_codes (w_store w) !! (uid subject, recovery_digest (uid subject) code) = Some None /\
     setting (web_step op w) = Some (policy_storage_value PolicyDisabled)) \/
  (exists env now, op = WRestart env now /\ setting w = None /\
     setting (web_step op w) = Some (policy_storage_value PolicyDisabled)).
Proof.
  intros Hne. pose proof (policy_step op w) as Hsame. unfold same_policy in Hsame.
  destruct op; try (by destruct Hne; apply Hsame); clear Hsame; cbn [web_step] in *.
  - right; right. exists env, now. unfold migrate_store, on_store, setting in *.
    destruct (transaction_cases env SSql (mupd (restart_tables now)) (w_store w)) as [[Hc _]|[e Hc]];
      rewrite Hc in *; [|done]. revert Hne. cbn.
    unfold restart_tables. cbn.
    enough (forall s (m : gmap Z EnrollmentRow), additional_auth_policy_setting (map_fold
      (fun u (_ : EnrollmentRow) acc => delete_enrollment u acc) s m) = additional_auth_policy_setting s) as Hfold.
    { rewrite Hfold. cbn. by destruct (additional_auth_policy_setting (w_store w)). }
    intros s m. by apply (map_fold_weak_ind (fun acc (_ : gmap Z EnrollmentRow) =>
      additional_auth_policy_setting acc = additional_auth_policy_setting s)).
  - left. destruct (update_policy_ok _ _ _ _ _ _ _ Hne) as (t & row & -> & Hrest).
    exists env, token, subject, target, t, now, row. by split.
  - right; left. unfold recovery_reset, setting in *. destruct (_ || _) eqn:Eg; [done|]. unfold on_store in *.
    destruct (transaction _ _ _ _) as [[x|e] s1] eqn:Et.
    2: { destruct (transaction_cases env TStorage (recovery_reset_tx token (uid subject) reauth code now) (w_store w))
           as [[Hc Hok]|[e' Hc]]; rewrite Hc in Et.
         - by destruct (recovery_reset_tx _ _ _ _ _ _) as [[]].
         - injection Et as _ <-. done. }
    apply transaction_ok, reset_ok in Et as (row & Hrow & Hu & Hcode & Hset). cbn in *.
    assert (ingress = RecoveryIngress /\ role subject = Admin) as [-> Hrole] by (destruct ingress, (role subject); done).
    exists env, token, subject, reauth, code, now, row. split_and!; try done.
    rewrite Hset in *. by destruct (additional_auth_policy_setting (w_store w)).
Qed.
End Policy.

(** ** Concrete runs *)

Module WebWitness.
Import WebScenario.
#[local] Existing Instance reference_web.

Lemma empty_inv : store_inv empty_store.
Proof. split; apply map_Forall_empty. Qed.

Lemma enrolled_inv : store_inv (w_store enrolled).
Proof. apply web_run_evolves. exact empty_inv. Qed.

Lemma web_history_preserved_witness :
  is_some (sessions (w_store (web_run base fresh)) !! session_digest session_token) = true /\
  store_inv (w_store (web_run base fresh)) /\ store_le empty_store (w_store (web_run base fresh)).
Proof. split; [vm_compute; reflexivity|]. apply (web_history_preserved base fresh). exact empty_inv. Defined.

Lemma authenticate_exact_witness :
  exists row view r, sessions (w_store enrolled) !! session_digest session_token = Some row /\
    live RecoveryIngress 120000 row = true /\
    (authenticate_session (env_of 0 []) session_token RecoveryIngress 120000 (w_store enrolled)).1 = Ok (Some view) /\
    shown_as (w_store enrolled) session_token RecoveryIngress 120000 PolicyDisabled row r 720000 view.
Proof.
  pose proof (authenticate_exact (env_of 0 []) session_token RecoveryIngress 120000 (w_store enrolled) PolicyDisabled
    enrolled_inv ltac:(apply (bool_decide_unpack _); vm_compute; reflexivity) ltac:(vm_compute; reflexivity)
    eq_refl eq_refl ltac:(vm_compute; reflexivity)) as Hex.
  destruct (sessions (w_store enrolled) !! session_digest session_token) as [row|] eqn:Erow.
  - destruct Hex as (r & Hr & Hlive & _).
    assert (live RecoveryIngress 120000 row = true) as Hl by (vm_compute in Erow; injection Erow as <-; vm_compute; reflexivity).
    assert ((if 60000 <=? sat_sub 120000 (se_last_seen_at row)
             then Z.min (sat_add 120000 (idle_limit RecoveryIngress)) (se_absolute_expires_at row)
             else se_idle_expires_at row) = 720000) as Hidle by (vm_compute in Erow; injection Erow as <-; vm_compute; reflexivity).
    rewrite Hl in Hlive. cbv zeta in Hlive. rewrite Hidle in Hlive. destruct Hlive as (res & Hres & _ & _ & Hview & _).
    assert (exists view, res = Ok (Some view)) as [view Hv].
    { eexists. transitivity (authenticate_session (env_of 0 []) session_token RecoveryIngress 120000 (w_store enrolled)).1;
        [by rewrite Hres|vm_compute; reflexivity]. }
    exists row, view, r. split_and!; [reflexivity|exact Hl|by rewrite Hres|by apply Hview].
  - exfalso. vm_compute in Erow. discriminate Erow.
Defined.

Lemma revocation_is_final_witness :
  exists row, sessions (w_store enrolled) !! session_digest session_token = Some row /\
    forall env ingress now view, (authenticate_session env session_token ingress now
      (w_store (web_run base (web_step (WRevokeAll (env_of 0 []) 130000) enrolled)))).1 <> Ok (Some view).
Proof.
  destruct (sessions (w_store enrolled) !! session_digest session_token) as [row|] eqn:Erow.
  - exists row. split; [reflexivity|]. intros env ingress now view.
    apply (revocation_is_final (WRevokeAll (env_of 0 []) 130000) enrolled session_token row); [exact Erow|].
    vm_compute. reflexivity.
  - exfalso. vm_compute in Erow. discriminate Erow.
Defined.

(** The operation the second claim authorises. *)
Definition authorized : Web :=
  web_step (WIssueOperationClaim (env_of 50 [32]) session_token admin operation_claim "sha256:plan" (code_at 4) 120000)
    enrolled.

Definition authorization : OperationAuthorization :=
  {| oa_session_token := session_token; oa_subject := admin; oa_plan_hash := "sha256:plan";
     oa_reauth_token := operation_claim; oa_additional_auth_claim := Some second_token;
     oa_additional_auth_required := true; oa_now := 125000 |}.

Lemma pair_of_fst {A B} (p : A * B) (a : A) : p.1 = a -> p = (a, p.2).
Proof. intros <-. apply surjective_pairing. Qed.

Lemma operation_claim_single_use_witness :
  let r := consume_operation_claims (env_of 0 []) authorization (w_store authorized) in
  r.1 = Ok tt /\ authorised authorization (w_store authorized) r.2 /\
  (forall a', a' = authorization \/ oa_additional_auth_claim a' = Some second_token ->
     is_ok (consume_operation_claims (env_of 0 []) a'
       (w_store (web_run [verify 5 150000] (web_step (WConsumeClaims (env_of 0 []) authorization) authorized)))).1 = false).
Proof.
  cbv zeta. split; [vm_compute; reflexivity|].
  destruct (operation_claim_single_use (env_of 0 []) authorization authorized _
    (pair_of_fst _ _ ltac:(vm_compute; reflexivity))) as (Ha & Hfirst & Hsecond).
  split; [exact Ha|]. intros a' [->|Ha']; [by apply Hfirst|]. apply (Hsecond second_token); [reflexivity|exact Ha'|].
  constructor; [|constructor]. intros Hi. exact Hi.
Defined.

Lemma totp_code_single_use_witness :
  exists secret step step' current current',
    totp_code secret step = Ok (code_at 4) /\ totp_code secret step' = Ok (code_at 5) /\ step <> step' /\
    time_step 120000 = Ok current /\ step ∈ candidates current /\
    time_step 150000 = Ok current' /\ step' ∈ candidates current' /\
    step <= sat_add current' MAX_CLOCK_ROLLBACK_STEPS.
Proof.
  apply (totp_code_single_use (verify 4 120000) enrolled 1000 (code_at 4) 120000 [WRestart (env_of 0 []) 130000]
    (verify 5 150000) (code_at 5) 150000).
  - unfold accepts, verify. split_and!; vm_compute; reflexivity.
  - repeat constructor.
  - unfold accepts, verify. split_and!; vm_compute; reflexivity.
Defined.

Lemma policy_change_guarded_witness :
  let op := WUpdatePolicy (env_of 0 []) session_token admin PolicyAllMutations (Some policy_claim) 120000 in
  setting (web_step op enrolled) = Some (policy_storage_value PolicyAllMutations) /\
  (exists env token subject target reauth now row,
     op = WUpdatePolicy env token subject target (Some reauth) now /\ role subject = Admin /\
     (target = PolicyDisabled \/ provider_status env (uid subject) enrolled = Ok ProviderReady) /\
     reauth_claims (w_store enrolled) !! claim_digest reauth = Some row /\
     claim_usable (session_digest token) (uid subject) "security_policy_change" (policy_storage_value target) now row = true /\
     setting (web_step op enrolled) = Some (policy_storage_value target) /\
     reauth_claims (w_store (web_step op enrolled)) !! claim_digest reauth = Some (consumed now row)).
Proof.
  cbv zeta. split; [vm_compute; reflexivity|].
  destruct (policy_change_guarded (WUpdatePolicy (env_of 0 []) session_token admin PolicyAllMutations (Some policy_claim) 120000)
    enrolled) as [H|[(? & ? & ? & ? & ? & ? & ? & He & _)|(? & ? & He & _)]];
    [vm_compute; discriminate|exact H|discriminate He|discriminate He].
Defined.
End WebWitness.
