(* ===== verification/FileBroker.v ===== *)
(** * File sessions of the web agent (jw-agentd/src/file_session.rs)

    The broker keeps the open SFTP sessions and the planned uploads in memory,
    beside the session store and its audit tables.  A session object is shared
    (an [Arc]): the registry and every request in flight refer to it by its
    identifier, and its closing is recorded when the last reference goes.

    The broker's lock is held only for short sections, between which other
    requests run; so is the lock of a session's protocol, under which one
    exchange with the server takes place, after the session was found alive and
    without a new check.  Each section is a definition of its own; [issue],
    [plan_upload], [access] and [apply] are their sections in order, and
    [BrokerOp] (BrokerSteps.v) lets the sections of all requests interleave.
    [begin_upload] never waits and is one section, its check included.
    Starting the SSH process is outside the model: an attempt either fails with
    a reason or yields the pipes of a server, on which [initialize] runs. *)

From Stdlib Require Import Ascii String.
From S2P Require Import Prelude Crypto Contracts Text Bytes Loops Files Sftp WebStore Session Totp Claims.

Definition FILE_SESSION_TOKEN_BYTES : Z := 43.
Definition FILE_UPLOAD_PLAN_TOKEN_BYTES : Z := 43.
Definition FILE_UPLOAD_PLAN_TTL_SECONDS : Z := 2 * 60.
Definition MAX_GLOBAL_SESSIONS : Z := 8.

Inductive FileSessionError :=
  | FileBusy | FileExpired | FileInvalid | FileStorage
  | FileConnection (reason : string)
  | FileOperation (reason : string).

(** The clock, the monotonic clock and the database as one call finds them;
    [unix_milliseconds] is [None] when it fails. *)
Record Tick := { tk_now : option Z; tk_instant : Z; tk_env : Env }.

Definition tick_now (t : Tick) : Z := default 0 (tk_now t).

(** What the calls of one section meet: numbered calls, the calls of a sweep
    over the sessions and over the plans, by key, and random numbers. *)
Record Calls := {
  cl_tick : nat -> Tick;
  cl_session : string -> Tick;
  cl_plan : string -> Tick;
  cl_random : nat -> option string;
}.

Definition bounded_audit_reason (reason : string) : string :=
  if negb (bool_decide (reason = ""%string)) && (slen reason <=? 64) then reason else "internal_error".

Definition connection_close_reason (reason : string) : string :=
  if negb (bool_decide (reason = ""%string)) && (slen reason <=? 64) then reason else "openssh_connection_failed".

Definition file_token_shape (token : string) : bool :=
  (slen token =? FILE_SESSION_TOKEN_BYTES) && sall is_token_byte token.

Definition valid_upload_plan_token_shape (token : string) : bool :=
  (slen token =? FILE_UPLOAD_PLAN_TOKEN_BYTES) && sall is_token_byte token.

Section Broker.
Context `{PE : Peer} `{UN : Unicode} `{WC : WebCrypto}.

Record FileSession := {
  fo_binding : string;
  fo_jw_token : string;
  fo_ingress : IngressChannel;
  fo_origin : string;
  fo_last_activity : Z;
  fo_close_reason : string;
  fo_protocol : SftpProtocol;
  fo_revoked : bool;
}.

Record UploadPlan := {
  up_upload_id : string;
  up_session_id : string;
  up_binding : string;
  up_path : string;
  up_precondition : UploadPrecondition;
  up_after_digest : string;
  up_content_bytes : Z;
  up_expires_at : Z;
}.

(** [FileState] with the objects it refers to and the store they write. *)
Record Broker := {
  br_web : Web;
  br_files : gmap string FileSession;
  br_sessions : gmap string string;
  br_opening : list string;
  br_plans : gmap string UploadPlan;
}.

Definition BM (A : Type) : Type := M Broker FileSessionError A.

Definition with_web (w : Web) (b : Broker) : Broker :=
  {| br_web := w; br_files := br_files b; br_sessions := br_sessions b; br_opening := br_opening b;
     br_plans := br_plans b |}.
Definition upd_files (f : gmap string FileSession -> gmap string FileSession) (b : Broker) : Broker :=
  {| br_web := br_web b; br_files := f (br_files b); br_sessions := br_sessions b; br_opening := br_opening b;
     br_plans := br_plans b |}.
Definition upd_registry (f : gmap string string -> gmap string string) (b : Broker) : Broker :=
  {| br_web := br_web b; br_files := br_files b; br_sessions := f (br_sessions b); br_opening := br_opening b;
     br_plans := br_plans b |}.
Definition upd_opening (f : list string -> list string) (b : Broker) : Broker :=
  {| br_web := br_web b; br_files := br_files b; br_sessions := br_sessions b; br_opening := f (br_opening b);
     br_plans := br_plans b |}.
Definition upd_plans (f : gmap string UploadPlan -> gmap string UploadPlan) (b : Broker) : Broker :=
  {| br_web := br_web b; br_files := br_files b; br_sessions := br_sessions b; br_opening := br_opening b;
     br_plans := f (br_plans b) |}.

Definition br_store (b : Broker) : Store := w_store (br_web b).

(** A call of the session store; its outcome as a value. *)
Definition store_call {E A} (m : M Store E A) (b : Broker) : result E A * Broker :=
  let (r, w) := on_store m (br_web b) in (r, with_web w b).

(** A call whose failure is a [Storage] error. *)
Definition stored {E A} (m : M Store E A) : BM A := fun b =>
  let (r, b') := store_call m b in (map_err r (fun _ => FileStorage), b').

(** ** Digests and identifiers *)

Definition session_binding (token : string) : string := sha256 ("jw-agent/file-jw-session/v1" +:+ NUL +:+ token).
Definition token_digest (token : string) : string := sha256 ("jw-agent/file-session-token/v1" +:+ NUL +:+ token).
Definition upload_plan_token_digest (token : string) : string :=
  sha256 ("jw-agent/file-upload-plan/v1" +:+ NUL +:+ token).

Definition random_bytes (calls : Calls) (k : nat) (n : Z) : result FileSessionError string :=
  match cl_random calls k with
  | Some s => if slen s =? n then Ok s else Err FileStorage
  | None => Err FileStorage
  end.
Definition file_random_token (calls : Calls) (k : nat) : result FileSessionError string :=
  let? bytes := random_bytes calls k 32 in Ok (web_base64url bytes).
Definition random_session_id (calls : Calls) (k : nat) : result FileSessionError string :=
  let? bytes := random_bytes calls k 16 in Ok (hex_of_bytes bytes).

(** ** Sessions *)

Definition with_file (id : string) (f : FileSession -> FileSession) (b : Broker) : Broker :=
  upd_files (alter f id) b.

Definition closed (reason : string) (f : FileSession) : FileSession :=
  {| fo_binding := fo_binding f; fo_jw_token := fo_jw_token f; fo_ingress := fo_ingress f; fo_origin := fo_origin f;
     fo_last_activity := fo_last_activity f; fo_close_reason := reason; fo_protocol := fo_protocol f;
     fo_revoked := true |}.
Definition used (now : Z) (f : FileSession) : FileSession :=
  {| fo_binding := fo_binding f; fo_jw_token := fo_jw_token f; fo_ingress := fo_ingress f; fo_origin := fo_origin f;
     fo_last_activity := now; fo_close_reason := fo_close_reason f; fo_protocol := fo_protocol f;
     fo_revoked := fo_revoked f |}.
Definition with_protocol (p : SftpProtocol) (f : FileSession) : FileSession :=
  {| fo_binding := fo_binding f; fo_jw_token := fo_jw_token f; fo_ingress := fo_ingress f; fo_origin := fo_origin f;
     fo_last_activity := fo_last_activity f; fo_close_reason := fo_close_reason f; fo_protocol := p;
     fo_revoked := fo_revoked f |}.

Definition set_close_reason (id reason : string) (b : Broker) : Broker := with_file id (closed reason) b.

Definition remove_session (digest reason : string) (b : Broker) : Broker :=
  match br_sessions b !! digest with
  | Some id => set_close_reason id reason (upd_registry (delete digest) b)
  | None => b
  end.

(** Authentication of the web session the file session belongs to; it may
    renew that session. *)
Definition session_expired (t : Tick) (f : FileSession) (b : Broker) : bool * Broker :=
  match tk_now t with
  | None => (true, b)
  | Some now =>
      let (r, b') := store_call (authenticate_session (tk_env t) (fo_jw_token f) (fo_ingress f) now) b in
      (negb (match r with Ok (Some view) => 0 <? uid (sv_subject view) | _ => false end), b')
  end.

(** The digests of the registered sessions that have expired. *)
Fixpoint expired_digests (calls : Calls) (entries : list (string * string)) (b : Broker) : list string * Broker :=
  match entries with
  | [] => ([], b)
  | (digest, id) :: rest =>
      match br_files b !! id with
      | Some f =>
          let (expired, b1) := session_expired (cl_session calls digest) f b in
          let (digests, b2) := expired_digests calls rest b1 in
          (if expired : bool then digest :: digests else digests, b2)
      | None => expired_digests calls rest b
      end
  end.

(** The destructor of a plan that was never begun. *)
Definition abandon (t : Tick) (plan : UploadPlan) (b : Broker) : Broker :=
  (store_call (record_file_upload_finish (tk_env t) (up_upload_id plan) "failed" "plan_abandoned" (tick_now t)) b).2.

(** [HashMap::retain] on the plans: the others are dropped. *)
Definition retain_plans (ticks : string -> Tick) (keep : string -> UploadPlan -> bool) (b : Broker) : Broker :=
  foldl (fun b kv => if keep kv.1 kv.2 then b else abandon (ticks kv.1) kv.2 (upd_plans (delete kv.1) b))
    b (map_to_list (br_plans b)).

Definition active_ids (b : Broker) : list string := (map_to_list (br_sessions b)).*2.

Definition cleanup_expired (calls : Calls) (b : Broker) : Broker :=
  let (expired, b) := expired_digests calls (map_to_list (br_sessions b)) b in
  let b := foldl (fun b digest => remove_session digest "session_expired" b) b expired in
  let active := active_ids b in
  retain_plans (cl_plan calls)
    (fun digest plan => (tk_instant (cl_plan calls digest) <? up_expires_at plan)
                        && bool_decide (up_session_id plan ∈ active)) b.

Definition file_of (id : string) (b : Broker) : option FileSession := br_files b !! id.

(** Does a registered session belong to this web session? *)
Definition bound (binding : string) (b : Broker) : bool :=
  existsb (fun id => is_some_and (file_of id b) (fun f => bool_decide (fo_binding f = binding))) (active_ids b).

(** ** Opening a session *)

(** First locked section of [issue]. *)
Definition reserve_opening (calls : Calls) (binding : string) : BM unit := fun b =>
  let b := cleanup_expired calls b in
  if bool_decide (binding ∈ br_opening b) || bound binding b
     || (MAX_GLOBAL_SESSIONS <=? Z.of_nat (size (br_sessions b)) + Z.of_nat (length (br_opening b)))
  then (Err FileBusy, b)
  else (Ok tt, upd_opening (fun l => l ++ [binding]) b).

Definition release_opening (binding : string) (b : Broker) : Broker :=
  upd_opening (filter (fun candidate => candidate <> binding)) b.

Definition start_session (t : Tick) (id : string) (subject : Subject) (ingress : IngressChannel) (now : Z)
    (binding : string) : BM unit := fun b =>
  match store_call (record_file_session_start (tk_env t) id subject ingress now) b with
  | (Ok _, b) => (Ok tt, b)
  | (Err _, b) => (Err FileStorage, release_opening binding b)
  end.

(** The outcome of [prepare_sftp]: a reason, or the server's pipes. *)
Inductive Connect := ConnectFailed (reason : string) | Connected (p : peer).

Definition prepare_sftp (c : Connect) : result string SftpProtocol :=
  match c with
  | ConnectFailed reason => Err reason
  | Connected p =>
      match initialize (new_protocol p) with
      | (Ok _, protocol) => Ok protocol
      | (Err reason, _) =>
          Err (if bool_decide (reason = "sftp_read_failed"%string) then "openssh_authentication_failed"%string
               else reason)
      end
  end.

(** The path taken when the connection fails. *)
Definition connection_failed (t : Tick) (id : string) (now : Z) (binding reason : string) : BM unit := fun b =>
  let (r, b) := store_call (record_file_session_finish (tk_env t) id (connection_close_reason reason)
                              (default now (tk_now t))) b in
  (Err (if is_err r then FileStorage else FileConnection reason), release_opening binding b).

(** The destructor of a session, when its last reference goes. *)
Definition drop_session (t : Tick) (id : string) (b : Broker) : Broker :=
  match file_of id b with
  | Some f => upd_files (delete id)
      (store_call (record_file_session_finish (tk_env t) id (fo_close_reason f) (tick_now t)) b).2
  | None => b
  end.

(** Last locked section of [issue]; a rejected session is dropped. *)
Definition register_session (calls : Calls) (digest id : string) (f : FileSession) : BM unit := fun b =>
  let b := upd_files (<[id := f]>) b in
  let b := cleanup_expired calls b in
  if bound (fo_binding f) b || (MAX_GLOBAL_SESSIONS <=? Z.of_nat (size (br_sessions b)))
  then (Err FileBusy, drop_session (cl_tick calls 1) id (set_close_reason id "session_race_rejected" b))
  else (Ok tt, upd_registry (<[digest := id]>) b).

Record FileSessionIssue := {
  fi_jw_session_token : string;
  fi_subject : Subject;
  fi_ingress : IngressChannel;
  fi_origin : string;
  fi_now : Z;
}.

Definition new_session (issue : FileSessionIssue) (instant : Z) (protocol : SftpProtocol) : FileSession :=
  {| fo_binding := session_binding (fi_jw_session_token issue); fo_jw_token := fi_jw_session_token issue;
     fo_ingress := fi_ingress issue; fo_origin := fi_origin issue; fo_last_activity := instant;
     fo_close_reason := "broker_dropped"; fo_protocol := protocol; fo_revoked := false |}.

(** [issue]: its sections in order; [first] and [last] are the calls of the two
    locked sections.  A failed run-time check comes first. *)
Definition issue (runtime : result string unit) (first last : Calls) (c : Connect) (request : FileSessionIssue)
    : BM (string * string) :=
  let! _ := mlift (map_err runtime FileConnection) in
  let binding := session_binding (fi_jw_session_token request) in
  let! id := mlift (random_session_id first 0) in
  let! token := mlift (file_random_token first 1) in
  let! _ := reserve_opening first binding in
  let! _ := start_session (cl_tick first 0) id (fi_subject request) (fi_ingress request) (fi_now request) binding in
  match prepare_sftp c with
  | Err reason =>
      let! _ := connection_failed (cl_tick first 1) id (fi_now request) binding reason in
      mfail (FileConnection reason)
  | Ok protocol =>
      let! _ := mupd (release_opening binding) in
      let! _ := register_session last (token_digest token) id
                  (new_session request (tk_instant (cl_tick last 0)) protocol) in
      mret (token, id)
  end.

(** ** Using a session *)

(** The lease of a request is the identifier of its session. *)
Definition acquire (calls : Calls) (token jw_session_token : string) (ingress : IngressChannel) (origin : string)
    : BM string := fun b =>
  if negb (file_token_shape token) then (Err FileInvalid, b)
  else
    let digest := token_digest token in
    let b := cleanup_expired calls b in
    match br_sessions b !! digest with
    | None => (Err FileInvalid, b)
    | Some id =>
        match file_of id b with
        | None => (Err FileInvalid, b)
        | Some f =>
            if negb (bool_decide (fo_binding f = session_binding jw_session_token))
               || negb (bool_decide (fo_ingress f = ingress)) || negb (bool_decide (fo_origin f = origin))
            then (Err FileInvalid, b)
            else
              let (expired, b) := session_expired (cl_tick calls 0) f b in
              if (expired : bool) then (Err FileExpired, remove_session digest "session_expired" b)
              else (Ok id, with_file id (used (tk_instant (cl_tick calls 1))) b)
        end
    end.

Definition ensure_active (t : Tick) (id : string) : BM unit := fun b =>
  match file_of id b with
  | None => (Err FileInvalid, b)
  | Some f =>
      if fo_revoked f then (Err FileInvalid, b)
      else let (expired, b) := session_expired t f b in
           if (expired : bool) then (Err FileExpired, b) else (Ok tt, b)
  end.

(** A call of the session's protocol; its outcome as a value. *)
Definition on_protocol {A} (id : string) (m : SM A) : BM (result string A) := fun b =>
  match file_of id b with
  | None => (Err FileInvalid, b)
  | Some f => let (r, p) := m (fo_protocol f) in (Ok r, with_file id (with_protocol p) b)
  end.

Definition file_audit {A} (t : Tick) (id action path : string) (bytes : Z) (r : result string A) : BM unit :=
  let result_value := match r with
                      | Ok _ => "ok"%string
                      | Err reason => if slen reason <=? 64 then reason else "internal_error"%string
                      end in
  stored (record_file_access (tk_env t) id action path bytes result_value (tick_now t)).

(** The shape shared by the four read requests: the check, the exchange, and
    the audit entry of what it returned. *)
Definition access {A} (calls : Calls) (id action path : string) (m : SM A) (bytes : A -> Z) : BM A :=
  let! _ := ensure_active (cl_tick calls 0) id in
  let! r := on_protocol id m in
  let! _ := file_audit (cl_tick calls 1) id action path (match r with Ok a => bytes a | Err _ => 0 end) r in
  mlift (map_err r FileOperation).

Definition lease_list (calls : Calls) (id path : string) : BM FileListView :=
  access calls id "list" path (list_path path) (fun view => Z.of_nat (length (fl_entries view))).
Definition lease_stat (calls : Calls) (id path : string) : BM FileStatView :=
  access calls id "stat" path (stat_path path) (fun _ => 0).
Definition lease_read_text (calls : Calls) (id path : string) : BM FileTextView :=
  access calls id "read" path (read_text path) ft_size_bytes.
Definition lease_download (calls : Calls) (id path : string) : BM string :=
  access calls id "download" path (download path) slen.

(** ** Uploads *)

Definition planned_for (id : string) (b : Broker) : bool :=
  existsb (fun kv => bool_decide (up_session_id kv.2 = id)) (map_to_list (br_plans b)).

(** First locked section of [plan_upload]. *)
Definition check_plan (calls : Calls) (id : string) : BM unit := fun b =>
  let b := cleanup_expired calls b in
  if planned_for id b then (Err FileBusy, b) else (Ok tt, b).

Definition target_state_value (s : FileUploadTargetState) : string :=
  match s with CreateTarget => "create" | ReplaceTarget => "replace" end.

(** Second locked section: the plan is kept, or dropped. *)
Definition insert_plan (calls : Calls) (digest id : string) (plan : UploadPlan) : BM unit := fun b =>
  let b := cleanup_expired calls b in
  let session_is_active := existsb (fun active => bool_decide (active = id) &&
        is_some_and (file_of active b) (fun f => negb (fo_revoked f))) (active_ids b) in
  if negb session_is_active || planned_for id b
  then (Err FileBusy, abandon (cl_tick calls 0) plan b)
  else (Ok tt, upd_plans (<[digest := plan]>) b).

Definition plan_of (id upload_id binding path after_digest : string) (content_bytes expires_at : Z)
    (precondition : UploadPrecondition) : UploadPlan :=
  {| up_upload_id := upload_id; up_session_id := id; up_binding := binding; up_path := path;
     up_precondition := precondition; up_after_digest := after_digest; up_content_bytes := content_bytes;
     up_expires_at := expires_at |}.

Definition plan_upload (first last : Calls) (id path : string) (content_bytes : Z) (after_digest : string)
    (overwrite_confirmed : bool) (now : Z) : BM (string * Z * UploadPlan) :=
  let! _ := ensure_active (cl_tick first 0) id in
  if (FILE_MAX_UPLOAD_BYTES <? content_bytes) || is_err (validate_digest after_digest)
  then mfail (FileOperation "upload_plan_invalid")
  else
    let! _ := check_plan first id in
    let! inspected := on_protocol id (inspect_upload path) in
    let! precondition := mlift (map_err inspected FileOperation) in
    if bool_decide (uc_target_state precondition = ReplaceTarget) && negb overwrite_confirmed
    then mfail (FileOperation "overwrite_confirmation_required")
    else
      let! _ := ensure_active (cl_tick first 1) id in
      let! upload_id := mlift (random_session_id first 0) in
      let! token := mlift (file_random_token first 1) in
      let! _ := stored (record_file_upload_plan (tk_env (cl_tick first 2))
         {| fp_upload_id := upload_id; fp_session_id := id; fp_path := path;
            fp_target_state := target_state_value (uc_target_state precondition);
            fp_before_digest := uc_digest precondition; fp_after_digest := after_digest;
            fp_byte_count := content_bytes; fp_now := now |}) in
      let! binding := (fun b => (match file_of id b with Some f => Ok (fo_binding f) | None => Err FileInvalid end, b)) in
      let plan := plan_of id upload_id binding path after_digest content_bytes
                    (tk_instant (cl_tick first 3) + FILE_UPLOAD_PLAN_TTL_SECONDS * 1000) precondition in
      let! _ := insert_plan last (upload_plan_token_digest token) id plan in
      mret (token, sat_add now (FILE_UPLOAD_PLAN_TTL_SECONDS * 1000), plan).

(** The plan leaves the table whether or not it is begun. *)
Definition begin_upload (calls : Calls) (id plan_token : string) (now : Z) : BM UploadPlan :=
  let! _ := ensure_active (cl_tick calls 0) id in
  if negb (valid_upload_plan_token_shape plan_token) then mfail FileInvalid
  else fun b =>
    let digest := upload_plan_token_digest plan_token in
    let b := cleanup_expired calls b in
    match br_plans b !! digest with
    | None => (Err FileInvalid, b)
    | Some plan =>
        let b := upd_plans (delete digest) b in
        match file_of id b with
        | None => (Err FileInvalid, abandon (cl_tick calls 3) plan b)
        | Some f =>
            if negb (bool_decide (up_session_id plan = id)) || negb (bool_decide (up_binding plan = fo_binding f))
               || (up_expires_at plan <=? tk_instant (cl_tick calls 1))
            then (Err FileInvalid, abandon (cl_tick calls 3) plan b)
            else match store_call (record_file_upload_start (tk_env (cl_tick calls 2)) (up_upload_id plan) now) b with
                 | (Ok _, b) => (Ok plan, b)
                 | (Err _, b) => (Err FileStorage, abandon (cl_tick calls 3) plan b)
                 end
        end
    end.

Definition finish_upload (t : Tick) (plan : UploadPlan) (state outcome : string) (b : Broker) : bool * Broker :=
  let (r, b) := store_call (record_file_upload_finish (tk_env t) (up_upload_id plan) state outcome (tick_now t)) b in
  (is_ok r, b).

(** The destructor of an upload whose end could not be recorded. *)
Definition drop_upload (t : Tick) (plan : UploadPlan) (b : Broker) : Broker :=
  (finish_upload t plan "manual_check" "request_dropped" b).2.

(** [finish_error_with_state], with the destructor when it failed. *)
Definition finish_error {A} (calls : Calls) (plan : UploadPlan) (error : FileSessionError) (state reason : string)
    : BM A := fun b =>
  match finish_upload (cl_tick calls 2) plan state (bounded_audit_reason reason) b with
  | (true, b) => (Err error, b)
  | (false, b) => (Err FileStorage, drop_upload (cl_tick calls 3) plan b)
  end.

Record AppliedUpload := {
  au_path : string;
  au_target_state : FileUploadTargetState;
  au_digest : string;
  au_content_bytes : Z;
}.

Definition upload_failure_state (reason : string) : string :=
  if bool_decide (reason = "manual_recovery_required"%string) || bool_decide (reason = "temporary_cleanup_failed"%string)
  then "manual_check" else "failed".

(** [apply] up to the exchange: the name of the temporary file. *)
Definition apply_check (calls : Calls) (id : string) (plan : UploadPlan) (bytes : string) : BM string :=
  try! active := ensure_active (cl_tick calls 0) id in
  match active with
  | Err error => finish_error calls plan error "failed" "session_rejected"
  | Ok _ =>
      if negb (slen bytes =? up_content_bytes plan)
      then finish_error calls plan (FileOperation "upload_length_mismatch") "failed" "upload_length_mismatch"
      else if negb (bool_decide (sha256_digest bytes = up_after_digest plan))
      then finish_error calls plan (FileOperation "upload_digest_mismatch") "failed" "upload_digest_mismatch"
      else match random_session_id calls 0 with
      | Err _ => finish_error calls plan FileStorage "failed" "random_unavailable"
      | Ok temporary_suffix => mret temporary_suffix
      end
  end.

(** [apply] after the exchange. *)
Definition apply_end (calls : Calls) (plan : UploadPlan) (bytes : string) (result : result string UploadPrecondition)
    : BM AppliedUpload :=
  match result with
  | Ok verified => fun b =>
      match finish_upload (cl_tick calls 1) plan "verified" "ok" b with
      | (true, b) =>
          (Ok {| au_path := up_path plan; au_target_state := uc_target_state (up_precondition plan);
                 au_digest := default (sha256_digest bytes) (uc_digest verified);
                 au_content_bytes := slen bytes |}, b)
      | (false, b) => (Err FileStorage, drop_upload (cl_tick calls 3) plan b)
      end
  | Err reason => finish_error calls plan (FileOperation reason) (upload_failure_state reason) reason
  end.

Definition apply (calls : Calls) (id : string) (plan : UploadPlan) (bytes : string) : BM AppliedUpload :=
  let! temporary_suffix := apply_check calls id plan bytes in
  let! result := on_protocol id (atomic_upload (up_path plan) (up_precondition plan) bytes temporary_suffix) in
  apply_end calls plan bytes result.

Definition reject (calls : Calls) (plan : UploadPlan) (reason : string) : BM unit :=
  finish_error calls plan (FileOperation reason) "failed" (bounded_audit_reason reason).

(** ** Closing *)

Definition close_session (token jw_session_token : string) (ingress : IngressChannel) (origin : string)
    : BM unit := fun b =>
  if negb (file_token_shape token) then (Err FileInvalid, b)
  else
    let digest := token_digest token in
    match br_sessions b !! digest ≫= (fun id => file_of id b) with
    | None => (Err FileInvalid, b)
    | Some f =>
        if negb (bool_decide (fo_binding f = session_binding jw_session_token))
           || negb (bool_decide (fo_ingress f = ingress)) || negb (bool_decide (fo_origin f = origin))
        then (Err FileInvalid, b)
        else (Ok tt, remove_session digest "user_closed" b)
    end.

Definition bound_digests (binding : string) (b : Broker) : list string :=
  (filter (fun kv => is_some_and (file_of kv.2 b) (fun f => bool_decide (fo_binding f = binding)) = true)
     (map_to_list (br_sessions b))).*1.

Definition revoke_file_session (ticks : string -> Tick) (jw_session_token : string) (b : Broker) : Broker :=
  let binding := session_binding jw_session_token in
  let b := foldl (fun b digest => remove_session digest "session_revoked" b) b (bound_digests binding b) in
  let b := retain_plans ticks (fun _ plan => negb (bool_decide (up_binding plan = binding))) b in
  release_opening binding b.

Definition revoke_all_files (ticks : string -> Tick) (b : Broker) : Broker :=
  let b := foldl (fun b id => set_close_reason id "all_sessions_revoked" b) b (active_ids b) in
  let b := upd_registry (fun _ => ∅) b in
  let b := retain_plans ticks (fun _ _ => false) b in
  upd_opening (fun _ => []) b.

(** One turn of the loop of [schedule_expiry]. *)
Definition expiry_turn (t : Tick) (digest expected_id : string) (b : Broker) : Broker :=
  match br_sessions b !! digest with
  | Some id =>
      if negb (bool_decide (id = expected_id)) then b
      else match file_of id b with
           | None => b
           | Some f => let (expired, b) := session_expired t f b in
                       if (expired : bool) then remove_session digest "session_expired" b else b
           end
  | None => b
  end.
End Broker.
