(* ===== verification/BrokerSteps.v ===== *)
(** * The broker as a machine: sections of all requests in any order

    [moves]: what every section but registration, the keeping of a plan and the
    end of a session does to the broker: objects keep their identity, registry
    and plans only shrink, the store evolves. *)

From Stdlib Require Import Ascii String.
From S2P Require Import Prelude Crypto Contracts Text Bytes Loops Files Sftp SftpWire SftpTrace SftpClient SftpUpload SftpSession.
From S2P Require Import WebStore Session Totp Claims WebProofs FileBroker.

(** A list less one occurrence of an element, if it has one. *)
Fixpoint remove_one `{EqDecision A} (x : A) (l : list A) : option (list A) :=
  match l with
  | [] => None
  | y :: rest => if decide (x = y) then Some rest else cons y <$> remove_one x rest
  end.

Lemma remove_one_perm `{EqDecision A} (x : A) l rest : remove_one x l = Some rest -> l ≡ₚ x :: rest.
Proof.
  revert rest. induction l as [|y l IH]; intros rest; cbn; [done|]. destruct (decide (x = y)) as [->|]; [by intros [= ->]|].
  destruct (remove_one x l) as [k|]; [|done]. intros [= <-]. rewrite (IH _ eq_refl). apply Permutation_swap.
Qed.

Section Moves.
Context `{PE : Peer} `{UN : Unicode} `{WC : WebCrypto}.

(** An object keeps its owner; revocation stays; the protocol moves along [R]. *)
Record file_le (R : relation SftpProtocol) (f f' : FileSession) : Prop := {
  fl_binding : fo_binding f' = fo_binding f;
  fl_token : fo_jw_token f' = fo_jw_token f;
  fl_ingress : fo_ingress f' = fo_ingress f;
  fl_origin : fo_origin f' = fo_origin f;
  fl_revoked : fo_revoked f = true -> fo_revoked f' = true;
  fl_protocol : R (fo_protocol f) (fo_protocol f');
}.

#[export] Instance file_le_preorder R `{!PreOrder R} : PreOrder (file_le R).
Proof.
  split; [intros f; by split|]. intros f g h [] []. split; try congruence; [auto|by etransitivity].
Qed.

Record moves (R : relation SftpProtocol) (b b' : Broker) : Prop := {
  mv_store : evolves (br_store b) (br_store b');
  mv_files : forall id f, br_files b !! id = Some f -> exists f', br_files b' !! id = Some f' /\ file_le R f f';
  mv_absent : forall id, br_files b !! id = None -> br_files b' !! id = None;
  mv_sessions : br_sessions b' ⊆ br_sessions b;
  mv_plans : br_plans b' ⊆ br_plans b;
}.

#[export] Instance moves_preorder R `{!PreOrder R} : PreOrder (moves R).
Proof.
  split.
  - intros b. split; try reflexivity; [|done]. intros id f Hf. exists f. split; [done|reflexivity].
  - intros a b c H1 H2. split.
    + etransitivity; [apply H1|apply H2].
    + intros id f Hf. destruct (mv_files _ _ _ H1 _ _ Hf) as (g & Hg & Hfg).
      destruct (mv_files _ _ _ H2 _ _ Hg) as (h & Hh & Hgh). exists h. split; [done|by etransitivity].
    + intros id Hf. by apply H2, H1.
    + etransitivity; [apply H2|apply H1].
    + etransitivity; [apply H2|apply H1].
Qed.

Lemma moves_weaken R R' b b' : (forall p q, R p q -> R' p q) -> moves R b b' -> moves R' b b'.
Proof.
  intros Hw []. split; try done. intros id f Hf. destruct (mv_files0 _ _ Hf) as (f' & Hf' & []).
  exists f'. split; [done|]. split; auto.
Qed.

Context (R : relation SftpProtocol) `{!PreOrder R}.

Lemma store_call_moves {E A} (m : M Store E A) b : preserves evolves m -> moves R b (store_call m b).2.
Proof using PreOrder0.
  intros Hm. unfold store_call. pose proof (on_store_evolves m (br_web b) Hm) as He.
  destruct (on_store m (br_web b)) as [r w]. cbn. split; [exact He| |done|reflexivity..].
  intros id f Hf. exists f. split; [done|reflexivity].
Qed.

Lemma stored_moves {E A} (m : M Store E A) : preserves evolves m -> preserves (moves R) (stored m).
Proof using PreOrder0.
  intros Hm b. unfold stored. pose proof (store_call_moves m b Hm) as Hb. by destruct (store_call m b).
Qed.

Lemma with_file_moves id g b : (forall f, file_le R f (g f)) -> moves R b (with_file id g b).
Proof using PreOrder0.
  intros Hg. split; try reflexivity; cbn.
  - intros i f Hf. destruct (decide (id = i)) as [->|Hne].
    + exists (g f). rewrite lookup_alter_eq, Hf. done.
    + exists f. rewrite lookup_alter_ne by done. split; [done|reflexivity].
  - intros i Hf. destruct (decide (id = i)) as [->|Hne]; [by rewrite lookup_alter_eq, Hf|].
    by rewrite lookup_alter_ne.
Qed.

Lemma set_close_reason_moves id reason b : moves R b (set_close_reason id reason b).
Proof using PreOrder0. apply with_file_moves. intros f. by split. Qed.

Lemma registry_moves f b : f (br_sessions b) ⊆ br_sessions b -> moves R b (upd_registry f b).
Proof using PreOrder0.
  intros Hf. split; cbn; try reflexivity; try done. intros id g Hg. exists g. split; [done|reflexivity].
Qed.

Lemma plans_moves f b : f (br_plans b) ⊆ br_plans b -> moves R b (upd_plans f b).
Proof using PreOrder0.
  intros Hf. split; cbn; try reflexivity; try done. intros id g Hg. exists g. split; [done|reflexivity].
Qed.

Lemma opening_moves f b : moves R b (upd_opening f b).
Proof using PreOrder0.
  split; cbn; try reflexivity; try done. intros id g Hg. exists g. split; [done|reflexivity].
Qed.

Lemma remove_session_moves digest reason b : moves R b (remove_session digest reason b).
Proof using PreOrder0.
  unfold remove_session. destruct (br_sessions b !! digest) as [id|]; [|reflexivity].
  etransitivity; [apply (registry_moves (delete digest)), delete_subseteq|apply set_close_reason_moves].
Qed.

Lemma session_expired_moves t f b : moves R b (session_expired t f b).2.
Proof using PreOrder0.
  unfold session_expired. destruct (tk_now t) as [now|]; [|reflexivity].
  pose proof (store_call_moves (authenticate_session (tk_env t) (fo_jw_token f) (fo_ingress f) now) b
    (authenticate_evolves _ _ _ _)) as Hb. by destruct (store_call _ b).
Qed.

Lemma expired_digests_moves calls entries b : moves R b (expired_digests calls entries b).2.
Proof using PreOrder0.
  revert b. induction entries as [|[digest id] rest IH]; intros b; cbn [expired_digests]; [reflexivity|].
  destruct (br_files b !! id) as [f|]; [|apply IH].
  pose proof (session_expired_moves (cl_session calls digest) f b) as H1.
  destruct (session_expired _ f b) as [expired b1]. specialize (IH b1).
  destruct (expired_digests calls rest b1) as [digests b2]. by etransitivity.
Qed.

Lemma foldl_moves {A} (step : Broker -> A -> Broker) l b :
  (forall b x, moves R b (step b x)) -> moves R b (foldl step b l).
Proof using PreOrder0.
  intros Hs. revert b. induction l as [|x l IH]; intros b; cbn; [reflexivity|]. etransitivity; [apply Hs|apply IH].
Qed.

Lemma abandon_moves t plan b : moves R b (abandon t plan b).
Proof using PreOrder0. apply store_call_moves, upload_finish_evolves. Qed.

Lemma retain_plans_moves ticks keep b : moves R b (retain_plans ticks keep b).
Proof using PreOrder0.
  apply foldl_moves. intros b' [digest plan]. cbn. destruct (keep digest plan); [reflexivity|].
  etransitivity; [apply (plans_moves (delete digest)), delete_subseteq|apply abandon_moves].
Qed.

Lemma cleanup_moves calls b : moves R b (cleanup_expired calls b).
Proof using PreOrder0.
  unfold cleanup_expired. pose proof (expired_digests_moves calls (map_to_list (br_sessions b)) b) as H1.
  destruct (expired_digests _ _ b) as [expired b1]. etransitivity; [exact H1|]. etransitivity; [|apply retain_plans_moves].
  apply foldl_moves. intros. apply remove_session_moves.
Qed.

Lemma ensure_active_moves t id : preserves (moves R) (ensure_active t id).
Proof using PreOrder0.
  intros b. unfold ensure_active. destruct (file_of id b) as [f|]; [|reflexivity].
  destruct (fo_revoked f); [reflexivity|]. pose proof (session_expired_moves t f b) as H1.
  destruct (session_expired t f b) as [expired b1]. by destruct expired.
Qed.

Lemma finish_upload_moves t plan state outcome b : moves R b (finish_upload t plan state outcome b).2.
Proof using PreOrder0.
  unfold finish_upload. pose proof (store_call_moves (record_file_upload_finish (tk_env t) (up_upload_id plan) state
    outcome (tick_now t)) b (upload_finish_evolves _ _ _ _ _)) as H1. by destruct (store_call _ b).
Qed.

Lemma finish_error_moves {A} calls plan error state reason :
  preserves (moves R) (finish_error (A := A) calls plan error state reason).
Proof using PreOrder0.
  intros b. unfold finish_error.
  pose proof (finish_upload_moves (cl_tick calls 2) plan state (bounded_audit_reason reason) b) as H1.
  destruct (finish_upload _ _ _ _ b) as [[] b1]; [done|]. etransitivity; [exact H1|].
  unfold drop_upload. cbn. apply finish_upload_moves.
Qed.
Lemma acquire_moves calls token jw ingress origin : preserves (moves R) (acquire calls token jw ingress origin).
Proof using PreOrder0.
  intros b. unfold acquire. destruct (negb _); [reflexivity|]. cbn zeta.
  pose proof (cleanup_moves calls b) as H1. set (b1 := cleanup_expired calls b) in *.
  destruct (br_sessions b1 !! token_digest token) as [id|]; [|done]. destruct (file_of id b1) as [f|]; [|done].
  destruct (_ || _); [done|]. pose proof (session_expired_moves (cl_tick calls 0) f b1) as H2.
  destruct (session_expired _ f b1) as [expired b2]. cbn in H2. destruct expired; cbn; (etransitivity; [exact H1|]);
    (etransitivity; [exact H2|]); [apply remove_session_moves|].
  apply with_file_moves. intros g. by split.
Qed.

Lemma check_plan_moves calls id : preserves (moves R) (check_plan calls id).
Proof using PreOrder0.
  intros b. unfold check_plan. pose proof (cleanup_moves calls b). by destruct (planned_for id _).
Qed.

Lemma reserve_moves calls binding : preserves (moves R) (reserve_opening calls binding).
Proof using PreOrder0.
  intros b. unfold reserve_opening. pose proof (cleanup_moves calls b). destruct (_ || _); [done|].
  etransitivity; [done|apply opening_moves].
Qed.

Lemma start_moves t id subject ingress now binding : preserves (moves R) (start_session t id subject ingress now binding).
Proof using PreOrder0.
  intros b. unfold start_session.
  pose proof (store_call_moves (record_file_session_start (tk_env t) id subject ingress now) b
    (file_session_start_evolves _ _ _ _ _)) as H1.
  destruct (store_call _ b) as [[x|e] b1]; [done|]. etransitivity; [exact H1|apply opening_moves].
Qed.

Lemma connection_failed_moves t id now binding reason : preserves (moves R) (connection_failed t id now binding reason).
Proof using PreOrder0.
  intros b. unfold connection_failed.
  pose proof (store_call_moves (record_file_session_finish (tk_env t) id (connection_close_reason reason)
    (default now (tk_now t))) b (file_session_finish_evolves _ _ _ _)) as H1.
  destruct (store_call _ b) as [r b1]. etransitivity; [exact H1|apply opening_moves].
Qed.

Lemma begin_moves calls id token now : preserves (moves R) (begin_upload calls id token now).
Proof using PreOrder0.
  unfold begin_upload. apply preserves_bind; [typeclasses eauto|by apply ensure_active_moves|intros _].
  destruct (negb _); [apply preserves_fail; typeclasses eauto|]. intros b. cbn zeta.
  pose proof (cleanup_moves calls b) as H1. set (b1 := cleanup_expired calls b) in *.
  destruct (br_plans b1 !! upload_plan_token_digest token) as [plan|]; [|done].
  etransitivity; [exact H1|]. pose proof (plans_moves (delete (upload_plan_token_digest token)) b1
    (delete_subseteq _ _)) as H2. destruct (file_of id _) as [f|].
  2: { etransitivity; [exact H2|apply abandon_moves]. }
  destruct (_ || _); [etransitivity; [exact H2|apply abandon_moves]|].
  etransitivity; [exact H2|].
  pose proof (store_call_moves (record_file_upload_start (tk_env (cl_tick calls 2)) (up_upload_id plan) now)
    (upd_plans (delete (upload_plan_token_digest token)) b1) (upload_start_evolves _ _ _)) as H3.
  destruct (store_call _ _) as [[x|e] b2]; [done|]. etransitivity; [exact H3|apply abandon_moves].
Qed.

Lemma close_moves token jw ingress origin : preserves (moves R) (close_session token jw ingress origin).
Proof using PreOrder0.
  intros b. unfold close_session. destruct (negb _); [reflexivity|]. destruct (_ ≫= _); [|reflexivity].
  destruct (_ || _); [reflexivity|]. apply remove_session_moves.
Qed.

Lemma revoke_moves ticks jw b : moves R b (revoke_file_session ticks jw b).
Proof using PreOrder0.
  unfold revoke_file_session. etransitivity; [|apply opening_moves]. etransitivity; [|apply retain_plans_moves].
  apply foldl_moves. intros. apply remove_session_moves.
Qed.

Lemma revoke_all_moves ticks b : moves R b (revoke_all_files ticks b).
Proof using PreOrder0.
  unfold revoke_all_files. etransitivity; [|apply opening_moves]. etransitivity; [|apply retain_plans_moves].
  etransitivity; [|apply registry_moves, map_empty_subseteq]. apply foldl_moves. intros. apply set_close_reason_moves.
Qed.

Lemma expiry_moves t digest id b : moves R b (expiry_turn t digest id b).
Proof using PreOrder0.
  unfold expiry_turn. destruct (br_sessions b !! digest) as [i|]; [|reflexivity]. destruct (negb _); [reflexivity|].
  destruct (file_of i b) as [f|]; [|reflexivity]. pose proof (session_expired_moves t f b) as H1.
  destruct (session_expired t f b) as [expired b1]. destruct expired; [|done].
  etransitivity; [exact H1|apply remove_session_moves].
Qed.
End Moves.

(** ** The protocol of an object *)

Section Protocol.
Context `{PE : Peer} `{UN : Unicode} `{WC : WebCrypto}.

Definition keeps_ready (p q : SftpProtocol) : Prop := forall home, ready home p -> ready home q.

#[export] Instance keeps_ready_preorder : PreOrder keeps_ready.
Proof. split; [by intros p home|]. intros p q r H1 H2 home Hp. auto. Qed.

Lemma asks_keeps {A} (m : SM A) :
  (forall home, exists P (Q : A -> Prop), asks home (KN := textual home) P Q m) -> preserves keeps_ready m.
Proof.
  intros Hm p home Hp. destruct (Hm home) as (P & Q & Ha). destruct (m p) as [r q] eqn:E. cbn.
  destruct (wp_result _ _ _ _ _ (asks_always home P Q m p Ha Hp) E) as (Hg & _). by eapply grown_ready.
Qed.

Lemma on_protocol_moves {A} id (m : SM A) : preserves keeps_ready m -> preserves (moves keeps_ready) (on_protocol id m).
Proof.
  intros Hm b. unfold on_protocol. destruct (file_of id b) as [f|] eqn:Ef; [|reflexivity].
  specialize (Hm (fo_protocol f)). destruct (m (fo_protocol f)) as [r p]. cbn in *.
  split; try reflexivity; cbn.
  - intros i g Hg. destruct (decide (id = i)) as [->|Hne].
    + exists (with_protocol p g). rewrite lookup_alter_eq, Hg. split; [done|].
      unfold file_of in Ef. rewrite Hg in Ef. injection Ef as <-. by split.
    + exists g. rewrite lookup_alter_ne by done. split; [done|reflexivity].
  - intros i Hi. destruct (decide (id = i)) as [->|Hne]; [by rewrite lookup_alter_eq, Hi|].
    by rewrite lookup_alter_ne.
Qed.

Lemma list_keeps path : preserves keeps_ready (list_path path).
Proof. apply asks_keeps. intros home. eexists _, _. by apply list_path_asks. Qed.
Lemma stat_keeps path : preserves keeps_ready (stat_path path).
Proof. apply asks_keeps. intros home. eexists _, _. by apply stat_path_asks. Qed.
Lemma read_text_keeps path : preserves keeps_ready (read_text path).
Proof. apply asks_keeps. intros home. eexists _, _. by apply read_text_asks. Qed.
Lemma download_keeps path : preserves keeps_ready (download path).
Proof. apply asks_keeps. intros home. eexists _, _. by apply download_asks. Qed.
Lemma inspect_keeps path : preserves keeps_ready (inspect_upload path).
Proof. apply asks_keeps. intros home. eexists _, _. by apply inspect_upload_asks. Qed.
Lemma upload_keeps path expected bytes suffix : preserves keeps_ready (atomic_upload path expected bytes suffix).
Proof. apply asks_keeps. intros home. eexists _, _. by apply atomic_upload_asks. Qed.

Lemma run_op_keeps op : preserves keeps_ready (run_op op).
Proof. apply asks_keeps. intros home. eexists _, _. apply run_op_asks. Qed.

(** ** Requests *)

Inductive ReadRequest := ReadList | ReadStat | ReadText | ReadDownload.

Definition read_request (r : ReadRequest) (calls : Calls) (id path : string) : BM unit :=
  match r with
  | ReadList => let! _ := lease_list calls id path in mret tt
  | ReadStat => let! _ := lease_stat calls id path in mret tt
  | ReadText => let! _ := lease_read_text calls id path in mret tt
  | ReadDownload => let! _ := lease_download calls id path in mret tt
  end.

(** The sections of all requests, the store's own operations and the ends of
    shared objects. *)
Inductive BrokerOp :=
  | BWeb (op : WebOp)
  | BReserve (calls : Calls) (binding : string)
  | BStart (t : Tick) (id : string) (subject : Subject) (ingress : IngressChannel) (now : Z) (binding : string)
  | BConnectFailed (t : Tick) (id : string) (now : Z) (binding reason : string)
  | BRelease (binding : string)
  | BRegister (calls : Calls) (digest id : string) (request : FileSessionIssue) (c : Connect)
  | BAcquire (calls : Calls) (token jw_session_token : string) (ingress : IngressChannel) (origin : string)
  | BEnsure (t : Tick) (id : string)
  | BCheck (t : Tick) (id : string) (op : FileOp)
  | BExchange (id : string) (op : FileOp)
  | BAudit (t : Tick) (id action path : string) (bytes : Z) (r : result string unit)
  | BCheckPlan (calls : Calls) (id : string)
  | BRecordPlan (t : Tick) (audit : FileUploadPlanAudit)
  | BInsertPlan (calls : Calls) (digest id upload_id binding path after_digest : string) (content_bytes expires_at : Z)
      (precondition : UploadPrecondition)
  | BBegin (calls : Calls) (id plan_token : string) (now : Z)
  | BApplyCheck (calls : Calls) (id : string) (plan : UploadPlan) (bytes : string)
  | BApplyEnd (calls : Calls) (plan : UploadPlan) (bytes : string) (r : result string UploadPrecondition)
  | BReject (calls : Calls) (plan : UploadPlan) (reason : string)
  | BClose (token jw_session_token : string) (ingress : IngressChannel) (origin : string)
  | BRevoke (ticks : string -> Tick) (jw_session_token : string)
  | BRevokeAll (ticks : string -> Tick)
  | BExpiry (t : Tick) (digest expected_id : string)
  | BDropSession (t : Tick) (id : string)
  | BDropUpload (t : Tick) (plan : UploadPlan).

(** The broker, the identifiers of the openings in flight (recorded at
    [start_session], until their session is registered or given up), and the
    requests that passed their check and have not yet had their exchange. *)
Record System := {
  sy_broker : Broker;
  sy_pending : list string;
  sy_cleared : list (string * FileOp);
}.

Definition settle (id : string) (l : list string) : list string := filter (fun i => i <> id) l.

Definition on_broker (f : Broker -> Broker) (sys : System) : System :=
  {| sy_broker := f (sy_broker sys); sy_pending := sy_pending sys; sy_cleared := sy_cleared sys |}.

Definition resume (sys : System) (b : Broker) : System := on_broker (fun _ => b) sys.
Definition pending (l : list string) (sys : System) : System :=
  {| sy_broker := sy_broker sys; sy_pending := l; sy_cleared := sy_cleared sys |}.
Definition cleared (l : list (string * FileOp)) (sys : System) : System :=
  {| sy_broker := sy_broker sys; sy_pending := sy_pending sys; sy_cleared := l |}.

Definition run_on {A} (m : BM A) (sys : System) : System := on_broker (fun b => (m b).2) sys.

Definition is_upload (op : FileOp) : bool := match op with OpUpload _ _ _ _ => true | _ => false end.

(** The exchange an upload is cleared for. *)
Definition upload_op (plan : UploadPlan) (bytes suffix : string) : FileOp :=
  OpUpload (up_path plan) (up_precondition plan) bytes suffix.

Definition broker_step (op : BrokerOp) (sys : System) : System :=
  let b := sy_broker sys in
  match op with
  | BWeb o => on_broker (fun b => with_web (web_step o (br_web b)) b) sys
  | BReserve calls binding => run_on (reserve_opening calls binding) sys
  | BStart t id subject ingress now binding =>
      let (r, b') := start_session t id subject ingress now binding b in
      pending (if is_ok r then sy_pending sys ++ [id] else sy_pending sys) (resume sys b')
  | BConnectFailed t id now binding reason =>
      if bool_decide (id ∈ sy_pending sys)
      then pending (settle id (sy_pending sys)) (run_on (connection_failed t id now binding reason) sys)
      else sys
  | BRelease binding => on_broker (release_opening binding) sys
  | BRegister calls digest id request c =>
      if bool_decide (id ∈ sy_pending sys) then
        match prepare_sftp c with
        | Ok protocol =>
            pending (settle id (sy_pending sys))
              (run_on (register_session calls digest id (new_session request (tk_instant (cl_tick calls 0)) protocol)) sys)
        | Err _ => sys
        end
      else sys
  | BAcquire calls token jw ingress origin => run_on (acquire calls token jw ingress origin) sys
  | BEnsure t id => run_on (ensure_active t id) sys
  | BCheck t id op =>
      let (r, b') := ensure_active t id b in
      cleared (if is_ok r && negb (is_upload op) then (id, op) :: sy_cleared sys else sy_cleared sys) (resume sys b')
  | BExchange id op =>
      match remove_one (id, op) (sy_cleared sys) with
      | Some rest => cleared rest (run_on (on_protocol id (run_op op)) sys)
      | None => sys
      end
  | BAudit t id action path bytes r => run_on (file_audit t id action path bytes r) sys
  | BCheckPlan calls id => run_on (check_plan calls id) sys
  | BRecordPlan t audit => run_on (stored (record_file_upload_plan (tk_env t) audit)) sys
  | BInsertPlan calls digest id upload_id binding path after content expires pre =>
      run_on (insert_plan calls digest id (plan_of id upload_id binding path after content expires pre)) sys
  | BBegin calls id token now => run_on (begin_upload calls id token now) sys
  | BApplyCheck calls id plan bytes =>
      let (r, b') := apply_check calls id plan bytes b in
      cleared (match r with Ok suffix => (id, upload_op plan bytes suffix) :: sy_cleared sys | Err _ => sy_cleared sys end)
        (resume sys b')
  | BApplyEnd calls plan bytes r => run_on (apply_end calls plan bytes r) sys
  | BReject calls plan reason => run_on (reject calls plan reason) sys
  | BClose token jw ingress origin => run_on (close_session token jw ingress origin) sys
  | BRevoke ticks jw => on_broker (revoke_file_session ticks jw) sys
  | BRevokeAll ticks => on_broker (revoke_all_files ticks) sys
  | BExpiry t digest id => on_broker (expiry_turn t digest id) sys
  | BDropSession t id =>
      if bool_decide (id ∈ active_ids b) then sys else on_broker (drop_session t id) sys
  | BDropUpload t plan => on_broker (drop_upload t plan) sys
  end.

Definition broker_run (ops : list BrokerOp) (sys : System) : System := fold_left (fun s op => broker_step op s) ops sys.

(** ** Every section but three moves the broker *)

Lemma access_moves {A} calls id action path (m : SM A) bytes :
  preserves keeps_ready m -> preserves (moves keeps_ready) (access calls id action path m bytes).
Proof.
  intros Hm. unfold access. preserve.
  - apply ensure_active_moves. typeclasses eauto.
  - by apply on_protocol_moves.
  - apply stored_moves; [typeclasses eauto|]. apply file_access_evolves.
Qed.

Lemma read_request_moves r calls id path : preserves (moves keeps_ready) (read_request r calls id path).
Proof.
  destruct r; cbn [read_request]; apply preserves_bind; try typeclasses eauto;
    try (intros; apply preserves_ret; typeclasses eauto); apply access_moves.
  - apply list_keeps.
  - apply stat_keeps.
  - apply read_text_keeps.
  - apply download_keeps.
Qed.

Lemma apply_check_moves R `{!PreOrder R} calls id plan bytes : preserves (moves R) (apply_check calls id plan bytes).
Proof.
  intros b. unfold apply_check, mtry. pose proof (ensure_active_moves R (cl_tick calls 0) id b) as H1.
  destruct (ensure_active _ id b) as [[u|error] b1]; cbn in H1; (etransitivity; [exact H1|]);
    [|apply (finish_error_moves R)].
  destruct (negb _); [apply (finish_error_moves R)|]. destruct (negb _); [apply (finish_error_moves R)|].
  destruct (random_session_id calls 0) as [suffix|]; [reflexivity|apply (finish_error_moves R)].
Qed.

Lemma apply_end_moves R `{!PreOrder R} calls plan bytes r : preserves (moves R) (apply_end calls plan bytes r).
Proof.
  unfold apply_end. destruct r as [verified|reason]; [|apply (finish_error_moves R)]. intros b2.
  pose proof (finish_upload_moves R (cl_tick calls 1) plan "verified" "ok" b2) as H2.
  destruct (finish_upload _ _ _ _ b2) as [[] b3]; [done|]. etransitivity; [exact H2|]. by apply finish_upload_moves.
Qed.

Lemma apply_moves calls id plan bytes : preserves (moves keeps_ready) (apply calls id plan bytes).
Proof.
  unfold apply. preserve; [by apply apply_check_moves, _|apply on_protocol_moves, upload_keeps|by apply apply_end_moves, _].
Qed.
End Protocol.
