(* ===== verification/BrokerInv.v ===== *)
(** * The broker's invariant, kept by every interleaving

    Few sessions, each with its object and its owner, one plan per session,
    protocols that are started; and identifiers that are never used twice. *)

From Stdlib Require Import Ascii String.
From S2P Require Import Prelude Crypto Contracts Text Bytes Loops Files Sftp SftpWire SftpTrace SftpClient SftpUpload SftpSession.
From S2P Require Import WebStore Session Totp Claims WebProofs FileBroker BrokerSteps.

Section Invariant.
Context `{PE : Peer} `{UN : Unicode} `{WC : WebCrypto}.

Record broker_inv (b : Broker) : Prop := {
  bi_size : Z.of_nat (size (br_sessions b)) <= MAX_GLOBAL_SESSIONS;
  bi_object : forall d id, br_sessions b !! d = Some id -> is_Some (br_files b !! id);
  bi_owner : forall d1 d2 id1 id2 f1 f2,
    br_sessions b !! d1 = Some id1 -> br_sessions b !! d2 = Some id2 ->
    br_files b !! id1 = Some f1 -> br_files b !! id2 = Some f2 -> fo_binding f1 = fo_binding f2 -> d1 = d2;
  bi_plan : forall d1 d2 p1 p2, br_plans b !! d1 = Some p1 -> br_plans b !! d2 = Some p2 ->
    up_session_id p1 = up_session_id p2 -> d1 = d2;
  bi_ready : forall id f, br_files b !! id = Some f -> exists home, ready home (fo_protocol f);
}.

(** An object of the later state is one of the earlier. *)
Lemma moves_back R b b' id f' :
  moves R b b' -> br_files b' !! id = Some f' -> exists f, br_files b !! id = Some f /\ file_le R f f'.
Proof.
  intros Hm Hf'. destruct (br_files b !! id) as [f|] eqn:Ef.
  - destruct (mv_files _ _ _ Hm _ _ Ef) as (g & Hg & Hle). rewrite Hf' in Hg. injection Hg as <-. by exists f.
  - pose proof (mv_absent _ _ _ Hm _ Ef). congruence.
Qed.

Lemma moves_inv b b' : moves keeps_ready b b' -> broker_inv b -> broker_inv b'.
Proof.
  intros Hm [Hsize Hobj Hown Hplan Hready]. pose proof (mv_sessions _ _ _ Hm) as Hs.
  assert (forall d id, br_sessions b' !! d = Some id -> br_sessions b !! d = Some id) as Hback.
  { intros d id Hd. eapply lookup_weaken; eauto. }
  split.
  - pose proof (map_subseteq_size _ _ Hs). lia.
  - intros d id Hd. destruct (Hobj _ _ (Hback _ _ Hd)) as [f Hf].
    destruct (mv_files _ _ _ Hm _ _ Hf) as (f' & Hf' & _). by exists f'.
  - intros d1 d2 id1 id2 f1 f2 H1 H2 Hf1 Hf2 Hb.
    destruct (moves_back _ _ _ _ _ Hm Hf1) as (g1 & Hg1 & L1). destruct (moves_back _ _ _ _ _ Hm Hf2) as (g2 & Hg2 & L2).
    eapply (Hown d1 d2 id1 id2 g1 g2); auto. rewrite <- (fl_binding _ _ _ L1), <- (fl_binding _ _ _ L2). done.
  - intros d1 d2 p1 p2 H1 H2. apply Hplan; eapply lookup_weaken; eauto using mv_plans.
  - intros id f' Hf'. destruct (moves_back _ _ _ _ _ Hm Hf') as (f & Hf & L).
    destruct (Hready _ _ Hf) as [home Hh]. exists home. by apply (fl_protocol _ _ _ L).
Qed.

Lemma active_ids_elem id b : id ∈ active_ids b <-> exists d, br_sessions b !! d = Some id.
Proof.
  unfold active_ids. rewrite list_elem_of_fmap. split.
  - intros ([d i] & -> & H). apply elem_of_map_to_list in H. by exists d.
  - intros [d Hd]. exists (d, id). split; [done|by apply elem_of_map_to_list].
Qed.

Lemma bound_false binding b d id f :
  bound binding b = false -> br_sessions b !! d = Some id -> br_files b !! id = Some f -> fo_binding f <> binding.
Proof.
  intros Hb Hd Hf <-. apply not_true_iff_false in Hb. apply Hb. unfold bound. apply existsb_exists.
  exists id. split; [apply list_elem_of_In, active_ids_elem; by exists d|]. unfold file_of. rewrite Hf. cbn.
  by rewrite bool_decide_true.
Qed.

Lemma planned_false id b d p : planned_for id b = false -> br_plans b !! d = Some p -> up_session_id p <> id.
Proof.
  intros Hp Hd <-. apply not_true_iff_false in Hp. apply Hp. unfold planned_for. apply existsb_exists.
  exists (d, p). split; [by apply list_elem_of_In, elem_of_map_to_list|]. cbn. by rewrite bool_decide_true.
Qed.

(** ** The three sections that add or remove *)

Lemma delete_file_inv id b : id ∉ active_ids b -> broker_inv b -> broker_inv (upd_files (delete id) b).
Proof.
  intros Hid [Hsize Hobj Hown Hplan Hready].
  assert (forall d i, br_sessions b !! d = Some i -> i <> id) as Hne.
  { intros d i Hd ->. apply Hid, active_ids_elem. by exists d. }
  assert (forall i f, delete id (br_files b) !! i = Some f -> br_files b !! i = Some f) as Hdel.
  { intros i f. rewrite lookup_delete_Some. tauto. }
  split; cbn; [done| | |done|].
  - intros d i Hd. rewrite lookup_delete_ne; [eauto|]. symmetry. eauto.
  - intros d1 d2 id1 id2 f1 f2 H1 H2 Hf1 Hf2. eapply Hown; eauto.
  - intros i f Hf. eauto.
Qed.

Lemma drop_inv t id b : id ∉ active_ids b -> broker_inv b -> broker_inv (drop_session t id b).
Proof.
  intros Hid Hinv. unfold drop_session. destruct (file_of id b) as [f|]; [|done].
  pose proof (store_call_moves keeps_ready (record_file_session_finish (tk_env t) id (fo_close_reason f) (tick_now t)) b
    (file_session_finish_evolves _ _ _ _)) as Hm.
  apply delete_file_inv; [|by eapply moves_inv].
  intros Hin. apply Hid. apply active_ids_elem in Hin as [d Hd]. apply active_ids_elem. exists d.
  eapply lookup_weaken; [exact Hd|apply Hm].
Qed.

Lemma prepared_ready c protocol : prepare_sftp c = Ok protocol -> exists home, ready home protocol.
Proof.
  unfold prepare_sftp. destruct c as [|p]; [done|]. destruct (initialize (new_protocol p)) as [[[]|e] q] eqn:E; [|done].
  intros [= <-]. destruct (wp_result _ _ _ _ _ (initialize_ok p) E) as [_ Hs]. destruct (Hs eq_refl) as [_ Hi _].
  exists (sp_home q). by split.
Qed.

Lemma new_file_inv id f b :
  br_files b !! id = None -> (exists home, ready home (fo_protocol f)) -> broker_inv b ->
  broker_inv (upd_files (<[id := f]>) b).
Proof.
  intros Hnone Hready [Hsize Hobj Hown Hplan Hr].
  assert (forall d i, br_sessions b !! d = Some i -> id <> i) as Hne.
  { intros d i Hd <-. destruct (Hobj _ _ Hd). congruence. }
  split; cbn; [done| | |done|].
  - intros d i Hd. rewrite lookup_insert_ne by eauto. eauto.
  - intros d1 d2 id1 id2 f1 f2 H1 H2. rewrite !lookup_insert_ne by eauto. eapply Hown; eauto.
  - intros i g Hg. destruct (decide (id = i)) as [<-|Hi].
    + rewrite lookup_insert_eq in Hg. by injection Hg as <-.
    + rewrite lookup_insert_ne in Hg by done. eauto.
Qed.

Lemma register_inv calls digest id f b :
  br_files b !! id = None -> (exists home, ready home (fo_protocol f)) -> broker_inv b ->
  broker_inv (register_session calls digest id f b).2.
Proof.
  intros Hnone Hready Hinv. unfold register_session. cbn zeta.
  set (b0 := upd_files (<[id := f]>) b). pose proof (new_file_inv _ _ _ Hnone Hready Hinv) as H0. fold b0 in H0.
  pose proof (cleanup_moves keeps_ready calls b0) as Hm. set (b1 := cleanup_expired calls b0) in *.
  pose proof (moves_inv _ _ Hm H0) as H1.
  assert (forall d i, br_sessions b1 !! d = Some i -> i <> id) as Hfresh.
  { intros d i Hd ->. pose proof (lookup_weaken _ _ _ _ Hd (mv_sessions _ _ _ Hm)) as Hd0. cbn in Hd0.
    destruct (bi_object _ Hinv _ _ Hd0). congruence. }
  destruct (bound (fo_binding f) b1) eqn:Eb; cbn [orb].
  2: destruct (MAX_GLOBAL_SESSIONS <=? _) eqn:El.
  1,2: cbn; apply drop_inv; [rewrite active_ids_elem; intros [d Hd]; cbn in Hd; by apply (Hfresh d id)|];
       eapply moves_inv; [apply (set_close_reason_moves keeps_ready)|done].
  cbn. destruct (mv_files _ _ _ Hm id f) as (f' & Hf' & L); [apply lookup_insert_eq|].
  assert (forall d i g, br_sessions b1 !! d = Some i -> br_files b1 !! i = Some g -> fo_binding g <> fo_binding f') as Hb.
  { intros d i g Hd Hg. rewrite (fl_binding _ _ _ L). by eapply bound_false. }
  destruct H1 as [Hsize Hobj Hown Hplan Hr]. split; cbn; [| | |done|done].
  - rewrite map_size_insert. destruct (br_sessions b1 !! digest); cbn; lia.
  - intros d i Hd. destruct (decide (digest = d)) as [<-|Hd'].
    + rewrite lookup_insert_eq in Hd. injection Hd as <-. by exists f'.
    + rewrite lookup_insert_ne in Hd by done. eauto.
  - intros d1 d2 id1 id2 f1 f2 H1 H2 Hf1 Hf2 Heq.
    destruct (decide (digest = d1)) as [<-|N1], (decide (digest = d2)) as [<-|N2]; [done| | |].
    + rewrite lookup_insert_eq in H1. injection H1 as <-. rewrite lookup_insert_ne in H2 by done.
      rewrite Hf' in Hf1. injection Hf1 as <-. destruct (Hb _ _ _ H2 Hf2). congruence.
    + rewrite lookup_insert_eq in H2. injection H2 as <-. rewrite lookup_insert_ne in H1 by done.
      rewrite Hf' in Hf2. injection Hf2 as <-. destruct (Hb _ _ _ H1 Hf1). congruence.
    + rewrite lookup_insert_ne in H1, H2 by done. eapply Hown; eauto.
Qed.

Lemma insert_plan_inv calls digest id plan b :
  up_session_id plan = id -> broker_inv b -> broker_inv (insert_plan calls digest id plan b).2.
Proof.
  intros Hid Hinv. unfold insert_plan. cbn zeta. pose proof (cleanup_moves keeps_ready calls b) as Hm.
  set (b1 := cleanup_expired calls b) in *. pose proof (moves_inv _ _ Hm Hinv) as H1.
  destruct (negb _); cbn [orb]; [eapply moves_inv; [apply (abandon_moves keeps_ready)|done]|].
  destruct (planned_for id b1) eqn:Ep; [eapply moves_inv; [apply (abandon_moves keeps_ready)|done]|].
  destruct H1 as [Hsize Hobj Hown Hplan Hr]. split; cbn; try done.
  intros d1 d2 p1 p2 H1 H2 Heq. destruct (decide (digest = d1)) as [<-|N1], (decide (digest = d2)) as [<-|N2]; [done| | |].
  - rewrite lookup_insert_eq in H1. injection H1 as <-. rewrite lookup_insert_ne in H2 by done.
    destruct (planned_false _ _ _ _ Ep H2). congruence.
  - rewrite lookup_insert_eq in H2. injection H2 as <-. rewrite lookup_insert_ne in H1 by done.
    destruct (planned_false _ _ _ _ Ep H1). congruence.
  - rewrite lookup_insert_ne in H1, H2 by done. eauto.
Qed.
End Invariant.

(** ** The system *)

Section System.
Context `{PE : Peer} `{UN : Unicode} `{WC : WebCrypto}.

Definition known (id : string) (b : Broker) : Prop := is_Some (file_sessions (br_store b) !! id).

(** Identifiers of objects and of openings in flight have their audit row, and
    an opening in flight has no object yet. *)
Record system_inv (sys : System) : Prop := {
  si_broker : broker_inv (sy_broker sys);
  si_files : forall id, is_Some (br_files (sy_broker sys) !! id) -> known id (sy_broker sys);
  si_pending : forall id, id ∈ sy_pending sys -> known id (sy_broker sys);
  si_fresh : forall id, id ∈ sy_pending sys -> br_files (sy_broker sys) !! id = None;
}.

Lemma known_moves R b b' id : moves R b b' -> known id b -> known id b'.
Proof.
  intros Hm [row Hrow]. destruct (mv_store _ _ _ Hm) as [Hle _].
  destruct (le_file_sessions _ _ Hle _ _ Hrow) as (row' & Hrow' & _). by exists row'.
Qed.

Lemma on_broker_inv f sys :
  moves keeps_ready (sy_broker sys) (f (sy_broker sys)) -> system_inv sys -> system_inv (on_broker f sys).
Proof.
  intros Hm [Hb Hf Hp Hfr]. split; cbn.
  - by eapply moves_inv.
  - intros id [g Hg]. destruct (moves_back _ _ _ _ _ Hm Hg) as (g0 & Hg0 & _). eapply known_moves; eauto.
  - intros id Hid. eapply known_moves; eauto.
  - intros id Hid. eapply mv_absent; eauto.
Qed.

Lemma run_on_inv {A} (m : BM A) sys :
  preserves (moves keeps_ready) m -> system_inv sys -> system_inv (run_on m sys).
Proof. intros Hm. apply on_broker_inv, Hm. Qed.

(** Removing pending identifiers is harmless. *)
Lemma settle_inv id sys : system_inv sys -> system_inv (pending (settle id (sy_pending sys)) sys).
Proof.
  intros [Hb Hf Hp Hfr]. split; cbn in *; try done; intros i [_ Hi]%list_elem_of_filter; auto.
Qed.

(** The invariant says nothing of the requests in flight. *)
Lemma cleared_inv l sys : system_inv sys -> system_inv (cleared l sys).
Proof. by intros []. Qed.

(** A session recorded at its start had no row before. *)
Lemma file_start_fresh env id subject ingress now s x s' :
  record_file_session_start env id subject ingress now s = (Ok x, s') ->
  file_sessions s !! id = None /\ is_Some (file_sessions s' !! id).
Proof.
  unfold record_file_session_start. destruct (_ || _); [done|]. intros Ht%transaction_ok. revert Ht.
  destruct (_ && _); [|done]. destruct (insert_new _ _ _) as [m|] eqn:Em; [|done].
  apply insert_new_Some in Em as [Hn ->]. intros [= _ <-]. split; [done|]. cbn. rewrite lookup_insert_eq. eauto.
Qed.

Lemma start_inv t id subject ingress now binding sys :
  system_inv sys -> system_inv (broker_step (BStart t id subject ingress now binding) sys).
Proof.
  intros Hinv. cbn [broker_step]. pose proof (start_moves keeps_ready t id subject ingress now binding (sy_broker sys)) as Hm.
  destruct (start_session _ _ _ _ _ _ _) as [r b'] eqn:Es. cbn in Hm.
  assert (system_inv (resume sys b')) as [Hb Hf Hp Hfr] by by apply on_broker_inv.
  destruct (is_ok r) eqn:Er; [|by split]. destruct r; [|done].
  assert (file_sessions (br_store (sy_broker sys)) !! id = None /\ known id b') as [Hnew Hknown].
  { revert Es. unfold start_session, store_call, on_store.
    destruct (record_file_session_start _ _ _ _ _ _) as [[x|e] s'] eqn:Est; [|done]. intros [= _ <-].
    by apply file_start_fresh in Est. }
  split; cbn in *; try done.
  - intros i [Hi|Hi%list_elem_of_singleton]%elem_of_app; [auto|by subst].
  - intros i [Hi|Hi%list_elem_of_singleton]%elem_of_app; [auto|]. subst i.
    apply (mv_absent _ _ _ Hm). destruct (br_files (sy_broker sys) !! id) eqn:E; [|done].
    destruct (si_files _ Hinv id) as [row Hrow]; [by rewrite E|]. congruence.
Qed.

Lemma delete_file_system id sys :
  id ∉ active_ids (sy_broker sys) -> system_inv sys -> system_inv (on_broker (upd_files (delete id)) sys).
Proof.
  intros Hid [Hb Hf Hp Hfr]. split; cbn in *; [by apply delete_file_inv| |done|].
  - intros i [g Hg]. apply lookup_delete_Some in Hg as [_ Hg]. apply Hf. by exists g.
  - intros i Hi. rewrite lookup_delete_None. auto.
Qed.

Lemma drop_system t id sys :
  id ∉ active_ids (sy_broker sys) -> system_inv sys -> system_inv (on_broker (drop_session t id) sys).
Proof.
  intros Hid Hinv. unfold on_broker, drop_session. destruct (file_of id _) as [f|]; [|by destruct sys].
  set (b1 := (store_call _ _).2).
  assert (moves keeps_ready (sy_broker sys) b1) as Hm.
  { apply store_call_moves; [typeclasses eauto|apply file_session_finish_evolves]. }
  apply (delete_file_system id (resume sys b1)); [|by apply on_broker_inv].
  intros [d Hd]%active_ids_elem. apply Hid, active_ids_elem. exists d.
  eapply lookup_weaken; [exact Hd|apply Hm].
Qed.

(** Any state after an opening: the object is there, or dropped. *)
Lemma register_files calls digest id f b i g :
  br_files (register_session calls digest id f b).2 !! i = Some g -> i = id \/ is_Some (br_files b !! i).
Proof.
  unfold register_session. cbn zeta. set (b0 := upd_files (<[id := f]>) b).
  pose proof (cleanup_moves keeps_ready calls b0) as Hm. set (b1 := cleanup_expired calls b0) in *.
  assert (forall b2 h, moves keeps_ready b0 b2 -> br_files b2 !! i = Some h -> i = id \/ is_Some (br_files b !! i)) as Hback.
  { intros b2 h Hm2 Hh. destruct (moves_back _ _ _ _ _ Hm2 Hh) as (h0 & Hh0 & _). cbn in Hh0.
    destruct (decide (id = i)) as [<-|Hne]; [by left|]. right. rewrite lookup_insert_ne in Hh0 by done. by exists h0. }
  destruct (_ || _); cbn.
  - unfold drop_session. set (b2 := set_close_reason id "session_race_rejected" b1).
    assert (moves keeps_ready b0 b2) as Hm2 by (etransitivity; [exact Hm|apply (set_close_reason_moves keeps_ready)]).
    destruct (file_of id b2) as [h|]; [|by apply Hback]. cbn. intros [_ Hg]%lookup_delete_Some.
    eapply Hback; [|exact Hg]. etransitivity; [exact Hm2|].
    apply store_call_moves; [typeclasses eauto|apply file_session_finish_evolves].
  - by apply Hback.
Qed.

Lemma register_store calls digest id f b :
  evolves (br_store b) (br_store (register_session calls digest id f b).2).
Proof.
  unfold register_session. cbn zeta. set (b0 := upd_files (<[id := f]>) b).
  pose proof (cleanup_moves keeps_ready calls b0) as Hm. set (b1 := cleanup_expired calls b0) in *.
  change (br_store b) with (br_store b0). destruct (_ || _); cbn; [|apply Hm]. etransitivity; [apply Hm|].
  unfold drop_session. destruct (file_of _ _) as [h|]; [|reflexivity].
  match goal with |- evolves _ (br_store (upd_files _ ?x)) => change (evolves (br_store b1) (br_store x)) end.
  apply (mv_store keeps_ready). etransitivity; [apply (set_close_reason_moves keeps_ready id "session_race_rejected")|].
  apply store_call_moves; [typeclasses eauto|apply file_session_finish_evolves].
Qed.

Lemma register_system calls digest id request c sys :
  system_inv sys -> system_inv (broker_step (BRegister calls digest id request c) sys).
Proof.
  intros [Hb Hf Hp Hfr]. cbn [broker_step]. destruct (bool_decide _) eqn:Ein; [|by split]. bool_prop.
  destruct (prepare_sftp c) as [protocol|] eqn:Ec; [|by split].
  set (f := new_session _ _ _). destruct (register_store calls digest id f (sy_broker sys)) as [Hle _].
  assert (forall i, known i (sy_broker sys) -> known i (register_session calls digest id f (sy_broker sys)).2) as Hk.
  { intros i [row Hrow]. destruct (le_file_sessions _ _ Hle _ _ Hrow) as (row' & Hrow' & _). by exists row'. }
  split; cbn.
  - apply register_inv; [auto| |done]. cbn. by eapply prepared_ready.
  - intros i [g Hg]. apply Hk. apply register_files in Hg as [->|Hg]; auto.
  - intros i [_ Hi]%list_elem_of_filter. auto.
  - intros i [Hne Hi]%list_elem_of_filter. destruct (br_files (_).2 !! i) as [g|] eqn:E; [|done].
    apply register_files in E as [->|[h Hh]]; [done|]. rewrite (Hfr _ Hi) in Hh. done.
Qed.

(** Keeping a plan leaves everything but the plans as a move. *)
Lemma insert_plan_files R `{!PreOrder R} calls digest id plan b :
  moves R b (upd_plans (fun _ => br_plans b) (insert_plan calls digest id plan b).2).
Proof.
  pose proof (cleanup_moves R calls b) as Hm.
  unfold insert_plan. cbn zeta. set (b1 := cleanup_expired calls b) in *. destruct (_ || _); cbn.
  - pose proof (abandon_moves R (cl_tick calls 0) plan b1) as Ha.
    assert (moves R b (abandon (cl_tick calls 0) plan b1)) as [] by by etransitivity. by split.
  - destruct Hm. by split.
Qed.

Lemma insert_plan_system calls digest id plan sys :
  up_session_id plan = id -> system_inv sys -> system_inv (run_on (insert_plan calls digest id plan) sys).
Proof.
  intros Hid Hinv. pose proof (insert_plan_inv calls digest id plan (sy_broker sys) Hid (si_broker _ Hinv)) as Hb.
  pose proof (on_broker_inv (fun b => upd_plans (fun _ => br_plans b) (insert_plan calls digest id plan b).2) sys
    (insert_plan_files keeps_ready _ _ _ _ _) Hinv) as [_ Hf Hp Hfr].
  by split.
Qed.

(** Dropping an object is a move followed by its removal. *)
Lemma drop_session_files R `{!PreOrder R} t id b :
  exists b1, moves R b b1 /\ drop_session t id b = upd_files (delete id) b1.
Proof.
  unfold drop_session. destruct (file_of id b) as [f|] eqn:Ef.
  - eexists. split; [|reflexivity]. apply store_call_moves; [typeclasses eauto|apply file_session_finish_evolves].
  - exists b. split; [reflexivity|]. unfold upd_files. rewrite delete_id by done. by destruct b.
Qed.

(** ** Every step *)

Lemma with_web_moves R `{!PreOrder R} w b : evolves (br_store b) (w_store w) -> moves R b (with_web w b).
Proof.
  intros He. split; cbn; try done. intros id f Hf. exists f. split; [done|reflexivity].
Qed.

(** The steps that only move the broker, and leave the protocols alone. *)
Definition plain_step (op : BrokerOp) : option (Broker -> Broker) :=
  match op with
  | BWeb o => Some (fun b => with_web (web_step o (br_web b)) b)
  | BReserve calls binding => Some (fun b => (reserve_opening calls binding b).2)
  | BRelease binding => Some (release_opening binding)
  | BAcquire calls token jw ingress origin => Some (fun b => (acquire calls token jw ingress origin b).2)
  | BEnsure t id => Some (fun b => (ensure_active t id b).2)
  | BCheck t id op => Some (fun b => (ensure_active t id b).2)
  | BAudit t id action path bytes r => Some (fun b => (file_audit t id action path bytes r b).2)
  | BCheckPlan calls id => Some (fun b => (check_plan calls id b).2)
  | BRecordPlan t audit => Some (fun b => (stored (record_file_upload_plan (tk_env t) audit) b).2)
  | BBegin calls id token now => Some (fun b => (begin_upload calls id token now b).2)
  | BApplyCheck calls id plan bytes => Some (fun b => (apply_check calls id plan bytes b).2)
  | BApplyEnd calls plan bytes r => Some (fun b => (apply_end calls plan bytes r b).2)
  | BReject calls plan reason => Some (fun b => (reject calls plan reason b).2)
  | BClose token jw ingress origin => Some (fun b => (close_session token jw ingress origin b).2)
  | BRevoke ticks jw => Some (revoke_file_session ticks jw)
  | BRevokeAll ticks => Some (revoke_all_files ticks)
  | BExpiry t digest id => Some (expiry_turn t digest id)
  | BDropUpload t plan => Some (drop_upload t plan)
  | _ => None
  end.

Lemma plain_step_moves R `{!PreOrder R} op f b : plain_step op = Some f -> moves R b (f b).
Proof.
  destruct op; cbn [plain_step]; intros [= <-].
  - apply with_web_moves; [typeclasses eauto|apply web_step_evolves].
  - by apply (reserve_moves R).
  - by apply (opening_moves R).
  - by apply (acquire_moves R).
  - by apply (ensure_active_moves R).
  - by apply (ensure_active_moves R).
  - apply (stored_moves R), file_access_evolves.
  - by apply (check_plan_moves R).
  - apply (stored_moves R), upload_plan_evolves.
  - by apply (begin_moves R).
  - by apply (apply_check_moves R).
  - by apply (apply_end_moves R).
  - by apply (finish_error_moves R).
  - by apply (close_moves R).
  - by apply (revoke_moves R).
  - by apply (revoke_all_moves R).
  - by apply (expiry_moves R).
  - by apply (finish_upload_moves R).
Qed.

Lemma plain_step_system op f sys :
  plain_step op = Some f -> broker_step op sys = cleared (sy_cleared (broker_step op sys)) (on_broker f sys).
Proof.
  destruct op; cbn [plain_step]; intros [= <-]; cbn [broker_step]; try reflexivity.
  - unfold on_broker. by destruct (ensure_active t id (sy_broker sys)).
  - unfold on_broker. by destruct (apply_check calls id plan bytes (sy_broker sys)).
Qed.

(** The exchange of a request that was cleared. *)
Lemma exchange_system id op sys :
  broker_step (BExchange id op) sys = sys \/
  exists rest, sy_cleared sys ≡ₚ (id, op) :: rest /\
    broker_step (BExchange id op) sys = cleared rest (run_on (on_protocol id (run_op op)) sys).
Proof.
  cbn [broker_step]. destruct (remove_one _ _) as [rest|] eqn:E; [|by left]. right. exists rest.
  split; [by apply remove_one_perm|done].
Qed.

Lemma exchange_moves id op : preserves (moves keeps_ready) (on_protocol id (run_op op)).
Proof. apply on_protocol_moves, run_op_keeps. Qed.

Lemma connect_failed_system t id now binding reason sys :
  system_inv sys -> system_inv (broker_step (BConnectFailed t id now binding reason) sys).
Proof.
  intros Hinv. cbn [broker_step]. destruct (bool_decide _); [|done].
  apply (settle_inv id (run_on (connection_failed t id now binding reason) sys)).
  apply (run_on_inv (connection_failed t id now binding reason)); [|done].
  apply connection_failed_moves. typeclasses eauto.
Qed.

Lemma broker_step_inv op sys : system_inv sys -> system_inv (broker_step op sys).
Proof.
  intros Hinv. destruct (plain_step op) as [f|] eqn:Ep.
  { rewrite (plain_step_system _ _ sys Ep). apply cleared_inv, on_broker_inv; [|done]. exact (plain_step_moves keeps_ready _ _ _ Ep). }
  destruct op; try discriminate Ep.
  - by apply start_inv.
  - by apply connect_failed_system.
  - by apply register_system.
  - destruct (exchange_system id op sys) as [->|(rest & _ & ->)]; [done|].
    apply cleared_inv. apply run_on_inv; [apply exchange_moves|exact Hinv].
  - by apply insert_plan_system.
  - cbn [broker_step]. destruct (bool_decide _) eqn:E; [done|]. bool_prop. by apply drop_system.
Qed.

Lemma broker_run_inv ops sys : system_inv sys -> system_inv (broker_run ops sys).
Proof.
  unfold broker_run. revert sys. induction ops as [|op ops IH]; intros sys Hinv; cbn; [done|].
  by apply IH, broker_step_inv.
Qed.

(** ** Identity of a session over time *)

Lemma register_other R `{!PreOrder R} calls digest id f b i :
  i <> id ->
  (forall g, br_files b !! i = Some g ->
     exists g', br_files (register_session calls digest id f b).2 !! i = Some g' /\ file_le R g g') /\
  (br_files b !! i = None -> br_files (register_session calls digest id f b).2 !! i = None).
Proof.
  intros Hne. split.
  2: { intros Hn. destruct (br_files (_).2 !! i) as [g|] eqn:E; [|done].
       apply register_files in E as [->|[h Hh]]; [done|congruence]. }
  intros g Hg. unfold register_session. cbn zeta. set (b0 := upd_files (<[id := f]>) b).
  assert (br_files b0 !! i = Some g) as Hg0 by (cbn; by rewrite lookup_insert_ne).
  pose proof (cleanup_moves R calls b0) as Hm. set (b1 := cleanup_expired calls b0) in *.
  destruct (_ || _); cbn; [|by apply (mv_files _ _ _ Hm)].
  unfold drop_session. set (b2 := set_close_reason id "session_race_rejected" b1).
  assert (moves R b0 b2) as Hm2 by (etransitivity; [exact Hm|apply (set_close_reason_moves R)]).
  destruct (file_of id b2) as [h|]; [|by apply (mv_files _ _ _ Hm2)]. cbn.
  rewrite lookup_delete_ne by done. eapply (mv_files R); [|exact Hg0]. etransitivity; [exact Hm2|].
  apply store_call_moves; [typeclasses eauto|apply file_session_finish_evolves].
Qed.

(** The identifier belongs to a file session of this web session, or is spent. *)
Definition belongs (id token : string) (sys : System) : Prop :=
  (exists f, br_files (sy_broker sys) !! id = Some f /\ fo_jw_token f = token) \/
  (br_files (sy_broker sys) !! id = None /\ (id ∉ sy_pending sys) /\ known id (sy_broker sys)).

Lemma belongs_known id token sys : system_inv sys -> belongs id token sys -> known id (sy_broker sys) /\ id ∉ sy_pending sys.
Proof.
  intros Hinv [(f & Hf & _)|(Hn & Hp & Hk)]; [|done]. split; [apply Hinv; by rewrite Hf|].
  intros Hin. pose proof (si_fresh _ Hinv _ Hin). congruence.
Qed.

Lemma belongs_files id token sys b pending cleared :
  belongs id token sys -> id ∉ pending -> known id b ->
  (forall g, br_files (sy_broker sys) !! id = Some g ->
     exists g', br_files b !! id = Some g' /\ file_le keeps_ready g g') ->
  (br_files (sy_broker sys) !! id = None -> br_files b !! id = None) ->
  belongs id token {| sy_broker := b; sy_pending := pending; sy_cleared := cleared |}.
Proof.
  intros [(f & Hf & Ht)|(Hn & _)] Hp Hk Hs Hnone; [|right; auto].
  destruct (Hs _ Hf) as (f' & Hf' & L). left. exists f'. split; [done|]. by rewrite (fl_token _ _ _ L).
Qed.

Lemma belongs_moves id token f sys pending cleared :
  system_inv sys -> moves keeps_ready (sy_broker sys) (f (sy_broker sys)) -> id ∉ pending ->
  belongs id token sys -> belongs id token {| sy_broker := f (sy_broker sys); sy_pending := pending; sy_cleared := cleared |}.
Proof.
  intros Hinv Hm Hp Hb. destruct (belongs_known _ _ _ Hinv Hb) as [Hk _].
  eapply belongs_files; [exact Hb|done|by eapply known_moves| |]; [apply (mv_files _ _ _ Hm)|apply (mv_absent _ _ _ Hm)].
Qed.

Lemma belongs_step op id token sys : system_inv sys -> belongs id token sys -> belongs id token (broker_step op sys).
Proof.
  intros Hinv Hb. destruct (belongs_known _ _ _ Hinv Hb) as [Hk Hp].
  destruct (plain_step op) as [f|] eqn:Ep.
  { rewrite (plain_step_system _ _ sys Ep). apply (belongs_moves id token f); try done. exact (plain_step_moves keeps_ready _ _ _ Ep). }
  destruct op as [| |t id0 subject ingress now binding|t id0 now binding reason| |calls digest id0 request c| | | |id0 op| |
    | |calls digest id0 upload_id binding path after n expires pre| | | | | | | | |t id0|]; try discriminate Ep; cbn [broker_step].
  - pose proof (start_moves keeps_ready t id0 subject ingress now binding (sy_broker sys)) as Hm.
    destruct (start_session _ _ _ _ _ _ _) as [r b'] eqn:Es. apply (belongs_moves id token (fun _ => b') sys); try done.
    destruct r; cbn; [|done]. intros [Hi|Hi]%elem_of_app; [done|]. apply list_elem_of_singleton in Hi as <-.
    revert Es. unfold start_session, store_call, on_store.
    destruct (record_file_session_start _ _ _ _ _ _) as [[x|e] s'] eqn:Est; [|done]. intros _.
    apply file_start_fresh in Est as [Hn _]. destruct Hk as [row Hrow]. unfold br_store in Hrow. congruence.
  - destruct (bool_decide _); [|done].
    apply (belongs_moves id token (fun b => (connection_failed t id0 now binding reason b).2)); try done.
    + by apply (connection_failed_moves keeps_ready).
    + intros [_ Hi]%list_elem_of_filter. done.
  - destruct (bool_decide _) eqn:Ein; [|done]. bool_prop. destruct (prepare_sftp c) as [protocol|]; [|done].
    assert (id <> id0) as Hne by (by intros ->).
    destruct (register_other keeps_ready calls digest id0 (new_session request (tk_instant (cl_tick calls 0)) protocol)
      (sy_broker sys) id Hne) as [Ho Hn].
    eapply belongs_files; [exact Hb| | |exact Ho|exact Hn].
    + intros [_ Hi]%list_elem_of_filter. done.
    + destruct (register_store calls digest id0 (new_session request (tk_instant (cl_tick calls 0)) protocol)
        (sy_broker sys)) as [Hle _]. destruct Hk as [row Hrow].
      destruct (le_file_sessions _ _ Hle _ _ Hrow) as (row' & Hrow' & _). by exists row'.
  - destruct (remove_one _ _); [|done]. apply (belongs_moves id token (fun b => (on_protocol id0 (run_op op) b).2)); try done.
    apply exchange_moves.
  - unfold run_on, on_broker. set (plan := plan_of _ _ _ _ _ _ _ _).
    pose proof (insert_plan_files keeps_ready calls digest id0 plan (sy_broker sys)) as Hm.
    eapply belongs_files; [exact Hb|done| |apply (mv_files _ _ _ Hm)|apply (mv_absent _ _ _ Hm)].
    eapply (known_moves keeps_ready _ _ _ Hm) in Hk. done.
  - destruct (bool_decide _); [done|]. unfold on_broker.
    destruct (drop_session_files keeps_ready t id0 (sy_broker sys)) as (b1 & Hm & Hdrop). rewrite Hdrop.
    destruct (decide (id = id0)) as [<-|Hne].
    + right. cbn. split; [apply lookup_delete_eq|]. split; [done|]. apply (known_moves keeps_ready _ _ id Hm Hk).
    + eapply belongs_files; [exact Hb|done|apply (known_moves keeps_ready _ _ id Hm Hk)| |]; cbn;
        rewrite lookup_delete_ne by done; [apply (mv_files _ _ _ Hm)|apply (mv_absent _ _ _ Hm)].
Qed.

Lemma belongs_run ops id token sys : system_inv sys -> belongs id token sys -> belongs id token (broker_run ops sys).
Proof.
  unfold broker_run. revert sys. induction ops as [|op ops IH]; intros sys Hinv Hb; cbn; [done|].
  apply IH; [by apply broker_step_inv|by apply belongs_step].
Qed.
End System.
