(* ===== verification/BrokerProps.v ===== *)
(** * Properties of file sessions *)

From Stdlib Require Import Ascii String.
From S2P Require Import Prelude Crypto Contracts Text Bytes Loops Files Sftp SftpWire SftpTrace SftpClient SftpUpload SftpSession.
From S2P Require Import WebStore Session Totp Claims WebProofs WebReference WebProps FileBroker BrokerSteps BrokerInv SftpProps.

Section Access.
Context `{PE : Peer} `{UN : Unicode} `{WC : WebCrypto}.

Lemma broker_step_evolves op sys : evolves (br_store (sy_broker sys)) (br_store (sy_broker (broker_step op sys))).
Proof.
  destruct (plain_step op) as [f|] eqn:Ep.
  { rewrite (plain_step_system _ _ sys Ep). apply (mv_store _ _ _ (plain_step_moves keeps_ready _ _ (sy_broker sys) Ep)). }
  destruct op as [| |t id subject ingress now binding|t id now binding reason| |calls digest id request c| | | |id op| |
    | |calls digest id upload_id binding path after n expires pre| | | | | | | | |t id|]; try discriminate Ep; cbn [broker_step].
  - pose proof (start_moves keeps_ready t id subject ingress now binding (sy_broker sys)) as Hm.
    destruct (start_session _ _ _ _ _ _ _). apply Hm.
  - destruct (bool_decide _); [|reflexivity]. apply (connection_failed_moves keeps_ready t id now binding reason).
  - destruct (bool_decide _); [|reflexivity]. destruct (prepare_sftp c); [|reflexivity]. apply register_store.
  - destruct (remove_one _ _); [|reflexivity]. apply (exchange_moves id op (sy_broker sys)).
  - apply (mv_store _ _ _ (insert_plan_files keeps_ready calls digest id _ (sy_broker sys))).
  - destruct (bool_decide _); [reflexivity|].
    destruct (drop_session_files keeps_ready t id (sy_broker sys)) as (b1 & Hm & Hd). cbn. rewrite Hd. apply Hm.
Qed.

Lemma broker_run_evolves ops sys : evolves (br_store (sy_broker sys)) (br_store (sy_broker (broker_run ops sys))).
Proof.
  unfold broker_run. revert sys. induction ops as [|op ops IH]; intros sys; cbn; [reflexivity|].
  etransitivity; [apply broker_step_evolves|apply IH].
Qed.

Lemma revoked_evolves digest s s' : evolves s s' -> revoked_at digest s -> revoked_at digest s'.
Proof.
  intros [Hle _] (row & Hrow & Hr). destruct (le_sessions _ _ Hle _ _ Hrow) as (row' & Hrow' & L).
  exists row'. split; [done|]. by apply (sl_revoked _ _ L).
Qed.

(** A web session that is revoked reads as expired. *)
Lemma revoked_expired t f b :
  revoked_at (session_digest (fo_jw_token f)) (br_store b) -> (session_expired t f b).1 = true.
Proof.
  intros (row & Hrow & Hr). unfold session_expired. destruct (tk_now t) as [now|]; [|done].
  unfold store_call, on_store.
  destruct (authenticate_session (tk_env t) (fo_jw_token f) (fo_ingress f) now (w_store (br_web b))) as [r s] eqn:Ea.
  cbn. destruct r as [[view|]|]; try done. exfalso.
  destruct (authenticate_live (tk_env t) (fo_jw_token f) (fo_ingress f) now (br_store b) view) as (row' & Hrow' & Hn).
  { unfold br_store. by rewrite Ea. }
  rewrite Hrow in Hrow'. injection Hrow' as <-. by destruct (se_revoked_at row).
Qed.

(** The state a revoked web session leaves its file session in. *)
Definition cut_off (id : string) (b : Broker) : Prop :=
  forall f, br_files b !! id = Some f -> revoked_at (session_digest (fo_jw_token f)) (br_store b).

Lemma cut_off_moves R b b' id : moves R b b' -> cut_off id b -> cut_off id b'.
Proof.
  intros Hm Hc f' Hf'. destruct (moves_back _ _ _ _ _ Hm Hf') as (f & Hf & L).
  rewrite (fl_token _ _ _ L). eapply revoked_evolves; [apply Hm|auto].
Qed.

(** Nothing is sent to any server. *)
Definition silent (b b' : Broker) : Prop :=
  forall id f, br_files b !! id = Some f -> exists f', br_files b' !! id = Some f' /\ fo_protocol f' = fo_protocol f.

Lemma moves_silent b b' : moves eq b b' -> silent b b'.
Proof. intros Hm id f Hf. destruct (mv_files _ _ _ Hm _ _ Hf) as (f' & Hf' & L). exists f'. split; [done|]. by destruct L. Qed.

Lemma ensure_active_denied t id b : cut_off id b -> is_ok (ensure_active t id b).1 = false.
Proof.
  intros Hc. unfold ensure_active, file_of. destruct (br_files b !! id) as [f|] eqn:Ef; [|done].
  destruct (fo_revoked f); [done|]. pose proof (revoked_expired t f b (Hc _ Ef)) as He.
  destruct (session_expired t f b) as [expired b1]. cbn in He. by subst expired.
Qed.

(** Requests that begin with the check. *)
Lemma guarded_denied {A} t id (k : unit -> BM A) b :
  cut_off id b -> is_ok (mbind (ensure_active t id) k b).1 = false /\ silent b (mbind (ensure_active t id) k b).2.
Proof.
  intros Hc. pose proof (ensure_active_denied t id b Hc) as Hd.
  pose proof (ensure_active_moves eq t id b) as Hm. unfold mbind.
  destruct (ensure_active t id b) as [[]  b1]; [done|]. split; [done|]. by apply moves_silent.
Qed.

Inductive FileRequest :=
  | QRead (r : ReadRequest) (calls : Calls) (path : string)
  | QPlan (first last : Calls) (path : string) (content_bytes : Z) (after_digest : string) (confirmed : bool) (now : Z)
  | QBegin (calls : Calls) (plan_token : string) (now : Z)
  | QApply (calls : Calls) (plan : UploadPlan) (bytes : string).

Definition file_request (id : string) (q : FileRequest) : BM unit :=
  match q with
  | QRead r calls path => read_request r calls id path
  | QPlan first last path n digest confirmed now =>
      let! _ := plan_upload first last id path n digest confirmed now in mret tt
  | QBegin calls token now => let! _ := begin_upload calls id token now in mret tt
  | QApply calls plan bytes => let! _ := apply calls id plan bytes in mret tt
  end.

Lemma denied_bind {A B} (m : BM A) (k : A -> BM B) b :
  is_ok (m b).1 = false /\ silent b (m b).2 ->
  is_ok (mbind m k b).1 = false /\ silent b (mbind m k b).2.
Proof. unfold mbind. destruct (m b) as [[a|e] b1]; cbn; [by intros []|done]. Qed.

Lemma finish_error_denied {A} calls plan error state reason b :
  is_ok (finish_error (A := A) calls plan error state reason b).1 = false.
Proof. unfold finish_error. by destruct (finish_upload _ _ _ _ b) as [[] ?]. Qed.

Lemma apply_check_denied calls id plan bytes b :
  cut_off id b -> is_ok (apply_check calls id plan bytes b).1 = false /\ silent b (apply_check calls id plan bytes b).2.
Proof.
  intros Hc. unfold apply_check, mtry. pose proof (ensure_active_denied (cl_tick calls 0) id b Hc) as Hd.
  pose proof (ensure_active_moves eq (cl_tick calls 0) id b) as Hm.
  destruct (ensure_active (cl_tick calls 0) id b) as [[u|error] b1]; [done|]. split; [apply finish_error_denied|].
  apply moves_silent. etransitivity; [exact Hm|]. apply (finish_error_moves eq).
Qed.

Lemma apply_denied calls id plan bytes b :
  cut_off id b -> is_ok (apply calls id plan bytes b).1 = false /\ silent b (apply calls id plan bytes b).2.
Proof. intros Hc. apply denied_bind. by apply apply_check_denied. Qed.

Lemma file_request_denied id q b :
  cut_off id b -> is_ok (file_request id q b).1 = false /\ silent b (file_request id q b).2.
Proof.
  intros Hc. destruct q as [r calls path|first last path n digest confirmed now|calls token now|calls plan bytes];
    cbn [file_request].
  - destruct r; apply denied_bind; by apply guarded_denied.
  - apply denied_bind. by apply guarded_denied.
  - apply denied_bind. by apply guarded_denied.
  - apply denied_bind. by apply apply_denied.
Qed.

Lemma acquire_denied calls token jw ingress origin id b :
  cut_off id b -> (acquire calls token jw ingress origin b).1 <> Ok id.
Proof.
  intros Hc. unfold acquire. destruct (negb _); [done|]. cbn zeta.
  pose proof (cut_off_moves _ _ _ _ (cleanup_moves eq calls b) Hc) as Hc1. set (b1 := cleanup_expired calls b) in *.
  destruct (br_sessions b1 !! token_digest token) as [i|]; [|done]. unfold file_of.
  destruct (br_files b1 !! i) as [f|] eqn:Ef; [|done]. destruct (_ || _); [done|].
  pose proof (revoked_expired (cl_tick calls 0) f b1) as He.
  destruct (session_expired _ f b1) as [expired b2]. destruct expired; [done|]. cbn. intros [= ->].
  discriminate He. by apply Hc1.
Qed.

Lemma belongs_cut_off id token sys :
  belongs id token sys -> revoked_at (session_digest token) (br_store (sy_broker sys)) -> cut_off id (sy_broker sys).
Proof. intros [(f & Hf & <-)|(Hn & _)] Hr g Hg; [|congruence]. rewrite Hf in Hg. by injection Hg as <-. Qed.

(** A step after which a session's protocol, if it is still there, is as it
    was: nothing was sent or read on its connection. *)
Definition keeps_protocol (id : string) (b b' : Broker) : Prop :=
  forall f', br_files b' !! id = Some f' -> exists f, br_files b !! id = Some f /\ fo_protocol f' = fo_protocol f.

(** [talks id n ops sys]: in the run of [ops] from [sys], at most [n] steps use
    the connection of session [id]. *)
Inductive talks (id : string) : nat -> list BrokerOp -> System -> Prop :=
  | talks_end sys : talks id 0 [] sys
  | talks_silent n op ops sys :
      keeps_protocol id (sy_broker sys) (sy_broker (broker_step op sys)) ->
      talks id n ops (broker_step op sys) -> talks id n (op :: ops) sys
  | talks_exchange n op ops sys : talks id n ops (broker_step op sys) -> talks id (S n) (op :: ops) sys.

(** The requests of a session that passed their check and still have their
    exchange before them. *)
Definition waiting (id : string) (l : list (string * FileOp)) : nat := length (filter (fun e => e.1 = id) l).

Lemma moves_protocol id b b' : moves eq b b' -> keeps_protocol id b b'.
Proof. intros Hm f' Hf'. destruct (moves_back _ _ _ _ _ Hm Hf') as (f & Hf & L). exists f. split; [done|]. by destruct L. Qed.

Lemma waiting_other id id' op l : id' <> id -> waiting id ((id', op) :: l) = waiting id l.
Proof. intros Hne. unfold waiting. by rewrite filter_cons_False. Qed.

(** No request of the session is cleared any more. *)
Lemma plain_step_waiting op f id sys :
  cut_off id (sy_broker sys) -> plain_step op = Some f ->
  waiting id (sy_cleared (broker_step op sys)) = waiting id (sy_cleared sys).
Proof.
  intros Hc. destruct op as [| | | | | | | |t i op| | | | | | |calls i plan bytes| | | | | | | |];
    cbn [plain_step]; intros [= _]; try reflexivity; cbn [broker_step].
  - destruct (decide (i = id)) as [->|Hne].
    + pose proof (ensure_active_denied t id _ Hc) as Hd. destruct (ensure_active t id _) as [r b']. cbn in *. by rewrite Hd.
    + destruct (ensure_active t i _) as [r b']. cbn. destruct (_ && _); [by apply waiting_other|done].
  - destruct (decide (i = id)) as [->|Hne].
    + pose proof (apply_check_denied calls id plan bytes _ Hc) as [Hd _].
      destruct (apply_check calls id plan bytes _) as [[suffix|e] b']; [done|]. done.
    + destruct (apply_check calls i plan bytes _) as [[suffix|e] b']; [by apply waiting_other|done].
Qed.

Lemma exchange_protocol id id' op sys :
  let sys' := broker_step (BExchange id' op) sys in
  (keeps_protocol id (sy_broker sys) (sy_broker sys') /\ waiting id (sy_cleared sys') = waiting id (sy_cleared sys)) \/
  S (waiting id (sy_cleared sys')) = waiting id (sy_cleared sys).
Proof.
  cbv zeta. destruct (exchange_system id' op sys) as [->|(rest & Hperm & ->)]; [left; split; [|done]; intros f' Hf'; by exists f'|].
  assert (waiting id (sy_cleared sys) = waiting id ((id', op) :: rest)) as -> by (unfold waiting; by rewrite Hperm).
  destruct (decide (id' = id)) as [->|Hne]; [right|left].
  - change (S (waiting id rest) = waiting id ((id, op) :: rest)). unfold waiting. by rewrite filter_cons_True.
  - split; [|by rewrite waiting_other]. intros f'. cbn. unfold on_protocol. destruct (file_of id' _) as [g|]; [|by exists f'].
    destruct (run_op op (fo_protocol g)) as [r p]. cbn. rewrite lookup_alter_ne by done. by exists f'.
Qed.

(** A step after the revocation: silent on the session's connection, or the
    exchange of a request that was cleared before. *)
Lemma cut_off_step op id token sys :
  system_inv sys -> belongs id token sys -> cut_off id (sy_broker sys) ->
  let sys' := broker_step op sys in
  (keeps_protocol id (sy_broker sys) (sy_broker sys') /\ waiting id (sy_cleared sys') = waiting id (sy_cleared sys)) \/
  S (waiting id (sy_cleared sys')) = waiting id (sy_cleared sys).
Proof.
  intros Hinv Hb Hc. cbv zeta. destruct (belongs_known _ _ _ Hinv Hb) as [_ Hp]. destruct (plain_step op) as [f|] eqn:Ep.
  { left. split; [|by eapply plain_step_waiting]. rewrite (plain_step_system _ _ sys Ep).
    apply moves_protocol. exact (plain_step_moves eq _ _ (sy_broker sys) Ep). }
  destruct op as [| |t i subject ingress now binding|t i now binding reason| |calls digest i request c| | | |i op| |
    | |calls digest i upload_id binding path after n expires pre| | | | | | | | |t i|]; try discriminate Ep;
    try apply exchange_protocol; cbn [broker_step]; left.
  - pose proof (start_moves eq t i subject ingress now binding (sy_broker sys)) as Hm.
    destruct (start_session _ _ _ _ _ _ _). split; [by apply moves_protocol|done].
  - destruct (bool_decide _); (split; [|done]); apply moves_protocol; [|reflexivity].
    apply (connection_failed_moves eq t i now binding reason).
  - destruct (bool_decide _) eqn:Ein; [|by split; [apply moves_protocol|]]. bool_prop.
    destruct (prepare_sftp c) as [protocol|]; [|by split; [apply moves_protocol|]]. split; [|done]. intros f' Hf'.
    assert (id <> i) as Hne by (by intros ->).
    destruct (register_other eq calls digest i (new_session request (tk_instant (cl_tick calls 0)) protocol)
      (sy_broker sys) id Hne) as [Ho Hn]. cbn in Hf'. destruct (br_files (sy_broker sys) !! id) as [f|]; [|by rewrite Hn in Hf'].
    destruct (Ho _ eq_refl) as (g & Hg & L). rewrite Hf' in Hg. injection Hg as <-. exists f. split; [done|]. by destruct L.
  - split; [|done]. pose proof (moves_protocol id _ _ (insert_plan_files eq calls digest i
      (plan_of i upload_id binding path after n expires pre) (sy_broker sys))) as Hk. exact Hk.
  - destruct (bool_decide _); (split; [|done]); [by apply moves_protocol|].
    destruct (drop_session_files eq t i (sy_broker sys)) as (b1 & Hm & Hd). cbn. rewrite Hd. intros f'. cbn.
    intros [_ Hf']%lookup_delete_Some. by apply (moves_protocol id _ _ Hm).
Qed.

Lemma cut_off_run ops id token sys :
  system_inv sys -> belongs id token sys -> revoked_at (session_digest token) (br_store (sy_broker sys)) ->
  exists n, talks id n ops sys /\
    (n + waiting id (sy_cleared (broker_run ops sys)) <= waiting id (sy_cleared sys))%nat.
Proof.
  revert sys. induction ops as [|op ops IH]; intros sys Hinv Hb Hr; cbn; [exists 0%nat; split; [constructor|lia]|].
  assert (cut_off id (sy_broker sys)) as Hc by by eapply belongs_cut_off.
  destruct (IH (broker_step op sys)) as (n & Ht & Hn).
  { by apply broker_step_inv. } { by apply belongs_step. } { eapply revoked_evolves; [apply broker_step_evolves|done]. }
  unfold broker_run in Hn |- *.
  destruct (cut_off_step op id token sys Hinv Hb Hc) as [[Hk Hw]|Hw].
  - exists n. split; [by apply talks_silent|]. lia.
  - exists (S n). split; [by apply talks_exchange|]. lia.
Qed.

(** C21: file access ends with the web session.  Once the web session a file
    session belongs to is revoked, then after any interleaving of the sections
    of all requests, openings, expirations and store operations, every request
    for that file session that begins (listing, reading, downloading, planning,
    beginning or applying an upload) fails and sends nothing to any server, and
    no token leads to the session again.  Only requests that had passed their
    check before the revocation can still use the connection: the steps that do
    so, with those requests still waiting at the end, are no more than the
    requests that were waiting when the web session was revoked. *)
Theorem file_access_needs_live_session ops sys id f :
  system_inv sys ->
  br_files (sy_broker sys) !! id = Some f ->
  revoked_at (session_digest (fo_jw_token f)) (br_store (sy_broker sys)) ->
  let b := sy_broker (broker_run ops sys) in
  (forall q, is_ok (file_request id q b).1 = false /\ silent b (file_request id q b).2) /\
  (forall calls token jw ingress origin, (acquire calls token jw ingress origin b).1 <> Ok id) /\
  exists n, talks id n ops sys /\
    (n + waiting id (sy_cleared (broker_run ops sys)) <= waiting id (sy_cleared sys))%nat.
Proof.
  intros Hinv Hf Hr b. assert (belongs id (fo_jw_token f) sys) as Hb by (left; by exists f).
  assert (cut_off id b) as Hc.
  { eapply belongs_cut_off; [by apply belongs_run|]. eapply revoked_evolves; [apply broker_run_evolves|exact Hr]. }
  split; [intros q; by apply file_request_denied|]. split; [intros; by apply acquire_denied|by eapply cut_off_run].
Qed.
End Access.

(** ** Uploads *)

Section Uploads.
Context `{PE : Peer} `{UN : Unicode} `{WC : WebCrypto}.








(** A whole planning request keeps the system's invariant. *)
Definition system_kept (sys : System) (b b' : Broker) : Prop := system_inv (resume sys b) -> system_inv (resume sys b').

#[local] Instance system_kept_preorder sys : PreOrder (system_kept sys).
Proof. split; unfold system_kept; [by intros b|intros a b c H1 H2 Ha; auto]. Qed.




(** C40: under every interleaving of the sections of all requests, there are
    at most eight file sessions, at most one per web session and at most one
    planned upload per file session; every session object has a started
    protocol and its audit row. *)
Theorem broker_bounded ops sys :
  system_inv sys ->
  let b := sy_broker (broker_run ops sys) in
  Z.of_nat (size (br_sessions b)) <= MAX_GLOBAL_SESSIONS /\
  (forall d1 d2 id1 id2 f1 f2, br_sessions b !! d1 = Some id1 -> br_sessions b !! d2 = Some id2 ->
     br_files b !! id1 = Some f1 -> br_files b !! id2 = Some f2 -> fo_binding f1 = fo_binding f2 -> d1 = d2) /\
  (forall d1 d2 p1 p2, br_plans b !! d1 = Some p1 -> br_plans b !! d2 = Some p2 ->
     up_session_id p1 = up_session_id p2 -> d1 = d2) /\
  (forall id f, br_files b !! id = Some f ->
     (exists home, ready home (fo_protocol f)) /\ is_Some (file_sessions (br_store b) !! id)).
Proof.
  intros Hinv b. pose proof (broker_run_inv ops sys Hinv) as [[] Hf _ _]. split_and!; try done.
  intros id f Hid. split; [eauto|]. apply Hf. by exists f.
Qed.
End Uploads.

(** ** A concrete file session *)

Module BrokerDemo.
Import SftpDemo WebScenario.
#[local] Existing Instance reference_web.

Definition tick : Tick := {| tk_now := Some 120000; tk_instant := 5; tk_env := env_of 0 [] |}.
Definition calls_of (seed : Z) : Calls :=
  {| cl_tick := fun _ => tick; cl_session := fun _ => tick; cl_plan := fun _ => tick;
     cl_random := fun k => Some (bytes_of (seed + Z.of_nat k) (if Nat.eqb k 0 then 16 else 32)) |}.

(** A server with one file, replaced by the upload. *)
Definition server : @peer script_peer :=
  greeting +:+ serve_target 2 "hello" +:+ serve_target 10 "hello"
  +:+ reply 102 18 (field "t") +:+ status 19 0 +:+ status 20 0 +:+ status 21 0 +:+ status 22 0
  +:+ serve_target 23 "world".

Definition empty : System :=
  {| sy_broker := {| br_web := enrolled; br_files := ∅; br_sessions := ∅; br_opening := []; br_plans := ∅ |};
     sy_pending := []; sy_cleared := [] |}.

Definition request : FileSessionIssue :=
  {| fi_jw_session_token := session_token; fi_subject := admin; fi_ingress := RecoveryIngress;
     fi_origin := "https://server"; fi_now := 120000 |}.

Definition file_id : string := hex_of_bytes (bytes_of 100 16).
Definition file_token : string := token_of 101.

(** The sections of an opening, in order. *)
Definition opening : list BrokerOp :=
  [ BReserve (calls_of 100) (session_binding session_token);
    BStart tick file_id admin RecoveryIngress 120000 (session_binding session_token);
    BRelease (session_binding session_token);
    BRegister (calls_of 100) (token_digest file_token) file_id request (Connected server) ].

Definition opened : System := broker_run opening empty.

(** The same opening as one request. *)
Definition issued : result FileSessionError (string * string) * Broker :=
  issue (Ok tt) (calls_of 100) (calls_of 100) (Connected server) request (sy_broker empty).

Definition planned_system : System :=
  run_on (plan_upload (calls_of 200) (calls_of 200) file_id "a" 5 (sha256_digest "world") true 120000) opened.
Definition plan_token : string := token_of 201.
Definition begun : result FileSessionError UploadPlan * Broker :=
  begin_upload (calls_of 300) file_id plan_token 120000 (sy_broker planned_system).
End BrokerDemo.

Module BrokerWitness.
Import SftpDemo WebScenario BrokerDemo.
#[local] Existing Instance reference_web.

Lemma empty_system : system_inv empty.
Proof.
  split; cbn.
  - split; cbn; try done.
  - intros id [f Hf]. done.
  - intros id Hid. by apply not_elem_of_nil in Hid.
  - done.
Qed.

Lemma opened_system : system_inv opened.
Proof. apply broker_run_inv, empty_system. Qed.

(** A request passes its check; then the web session is revoked; then the
    request has its exchange, and another one finds the session expired. *)
Definition revoked_system : System :=
  broker_run [BCheck tick file_id (OpStat "a"); BWeb (WRevoke (env_of 0 []) session_token 125000)] opened.
Definition afterwards : list BrokerOp :=
  [BExchange file_id (OpStat "a"); BCheck tick file_id (OpStat "a"); BExchange file_id (OpStat "a")].

Lemma file_access_needs_live_session_witness :
  waiting file_id (sy_cleared revoked_system) = 1%nat /\
  waiting file_id (sy_cleared (broker_run afterwards revoked_system)) = 0%nat /\
  is_ok (file_request file_id (QRead ReadStat (calls_of 500) "a") (sy_broker revoked_system)).1 = false /\
  exists f, br_files (sy_broker revoked_system) !! file_id = Some f /\
    (forall q, let b := sy_broker (broker_run afterwards revoked_system) in
       is_ok (file_request file_id q b).1 = false /\ silent b (file_request file_id q b).2) /\
    exists n, talks file_id n afterwards revoked_system /\ (n <= 1)%nat.
Proof.
  assert (waiting file_id (sy_cleared revoked_system) = 1%nat) as Hone by (vm_compute; reflexivity).
  split; [exact Hone|]. split; [vm_compute; reflexivity|]. split; [vm_compute; reflexivity|].
  destruct (br_files (sy_broker revoked_system) !! file_id) as [f|] eqn:Ef.
  - exists f. split; [reflexivity|].
    destruct (file_access_needs_live_session afterwards revoked_system file_id f) as (Hq & _ & n & Ht & Hn); [|exact Ef| |].
    + apply broker_run_inv, opened_system.
    + vm_compute in Ef. injection Ef as <-. eexists. split; [vm_compute; reflexivity|reflexivity].
    + split; [exact Hq|]. exists n. split; [exact Ht|]. rewrite Hone in Hn. lia.
  - exfalso. vm_compute in Ef. discriminate Ef.
Defined.

Definition plan : UploadPlan :=
  default (plan_of "" "" "" "" "" 0 0 before) (match begun.1 with Ok p => Some p | Err _ => None end).

Definition after : UploadPrecondition :=
  {| uc_target_state := ReplaceTarget; uc_digest := Some (sha256_digest "world"); uc_size_bytes := 5; uc_permissions := 420 |}.


Lemma broker_bounded_witness :
  size (br_sessions (sy_broker (broker_run opening empty))) = 1%nat /\
  Z.of_nat (size (br_sessions (sy_broker (broker_run opening empty)))) <= MAX_GLOBAL_SESSIONS.
Proof.
  split; [vm_compute; reflexivity|]. exact (proj1 (broker_bounded opening empty empty_system)).
Defined.
End BrokerWitness.
