(* ===== verification/Edge.v ===== *)
(** * jw-edge: the TLS edge (config.rs, proxy.rs)

    The public end of the console: it reads one HTTP request head, checks and
    rewrites it, and then copies bytes between the browser and [jw-agentd].
    TLS and the copying are the environment's. *)

From Stdlib Require Import Ascii String.
From S2P Require Import Prelude Crypto CertContracts Text ConfigText Bytes.

Definition MAX_HEADER_BYTES : Z := 32 * 1024.

Record EdgeConfig := {
  ec_port : Z;
  ec_public_host : string;
}.

(** ** Configuration *)

Definition external_authority (c : EdgeConfig) : string := ec_public_host c +:+ ":" +:+ decimal (ec_port c).
Definition external_origin (c : EdgeConfig) : string := "https://" +:+ external_authority c.
Definition canonical_origin (c : EdgeConfig) : string := "https://" +:+ ec_public_host c.

(** [str::parse::<IpAddr>] of a text without a colon: four decimal octets
    without leading zeros. *)
Definition octet_ok (s : string) : bool :=
  (1 <=? slen s) && (slen s <=? 3) && sall is_ascii_digit s
  && ((slen s =? 1) || negb (starts_with "0" s))
  && is_some_and (digits_value 0 (chars s)) (fun v => v <=? 255).
Definition parses_ipv4 (s : string) : bool :=
  let parts := ssplit "." s in (length parts =? 4)%nat && forallb octet_ok parts.

Definition host_label_ok (label : string) : bool :=
  negb (bool_decide (label = EmptyString)) && negb (63 <? slen label)
  && negb (starts_with "-" label) && negb (is_some (strip_suffix "-" label))
  && sall (fun b => is_ascii_alphanumeric b || byte_is 45 b) label.

Definition validate_public_host (host : string) : result string unit :=
  if (253 <? slen host) || negb (bool_decide (trim_str host = host)) || contains_char ":" host || parses_ipv4 host
  then Err "JW_AGENT_PUBLIC_HOST is invalid"%string
  else
    let labels := ssplit "." host in
    if (length labels <? 2)%nat || existsb (fun l => negb (host_label_ok l)) labels
    then Err "JW_AGENT_PUBLIC_HOST is invalid"%string
    else Ok tt.

(** ** Addresses *)

Inductive IpAddr :=
  | V4 (a b c d : Z)
  | V6 (segments : list Z).

Definition ipv4_text (a b c d : Z) : string :=
  decimal a +:+ "." +:+ decimal b +:+ "." +:+ decimal c +:+ "." +:+ decimal d.

(** [{:x}] of a 16-bit segment. *)
Definition hex4 (z : Z) : string :=
  let d n := s1 (hex_digit (Z.land (Z.shiftr z n) 15)) in
  if z <? 16 then d 0 else if z <? 256 then d 4 +:+ d 0
  else if z <? 4096 then d 8 +:+ d 4 +:+ d 0 else d 12 +:+ d 8 +:+ d 4 +:+ d 0.

(** The first longest run of zero segments: where it starts and its length. *)
Fixpoint zero_run (i : nat) (current best : nat * nat) (segments : list Z) : nat * nat :=
  match segments with
  | [] => best
  | z :: rest =>
      if z =? 0 then
        let current := (if (snd current =? 0)%nat then i else fst current, S (snd current)) in
        zero_run (S i) current (if (snd best <? snd current)%nat then current else best) rest
      else zero_run (S i) (0%nat, 0%nat) best rest
  end.

Definition colons (segments : list Z) : string := String.concat ":" (map hex4 segments).

(** [Display] of [IpAddr]. *)
Definition ip_text (a : IpAddr) : string :=
  match a with
  | V4 a b c d => ipv4_text a b c d
  | V6 [0; 0; 0; 0; 0; 65535; ab; cd] =>
      "::ffff:" +:+ ipv4_text (Z.shiftr ab 8) (Z.land ab 255) (Z.shiftr cd 8) (Z.land cd 255)
  | V6 segments =>
      let (start, len) := zero_run 0 (0%nat, 0%nat) (0%nat, 0%nat) segments in
      if (1 <? len)%nat then colons (take start segments) +:+ "::" +:+ colons (drop (start + len) segments)
      else colons segments
  end.

(** ** Texts *)

Definition CRLF : string := s2 (chr 13) (chr 10).

(** [str::split(CRLF)]. *)
Fixpoint split_crlf (s : string) : list string :=
  match s with
  | EmptyString => [EmptyString]
  | String c s' =>
      match s' with
      | String d s'' =>
          if byte_is 13 c && byte_is 10 d then EmptyString :: split_crlf s''
          else match split_crlf s' with
               | piece :: rest => String c piece :: rest
               | [] => [String c EmptyString]
               end
      | EmptyString => [String c EmptyString]
      end
  end.

(** The end of the first blank line. *)
Fixpoint find_header_end (s : string) : option nat :=
  if starts_with (CRLF +:+ CRLF) s then Some 4%nat
  else match s with
       | EmptyString => None
       | String _ s' => S <$> find_header_end s'
       end.

(** ** The request head *)

Record HeadScan := {
  hs_hosts : Z;
  hs_origins : Z;
  hs_lengths : Z;
  hs_upgrades : Z;
  hs_upgrade : bool;
  hs_headers : Z;
  hs_output : string;
}.

Definition u8_add (z : Z) : Z := Z.min 255 (z + 1).
Definition u16_add (z : Z) : Z := Z.min 65535 (z + 1).

Definition push (line : string) (s : HeadScan) : HeadScan :=
  {| hs_hosts := hs_hosts s; hs_origins := hs_origins s; hs_lengths := hs_lengths s; hs_upgrades := hs_upgrades s;
     hs_upgrade := hs_upgrade s; hs_headers := hs_headers s; hs_output := hs_output s +:+ line +:+ CRLF |}.

Definition STRIPPED_HEADERS : list string :=
  ["connection"; "keep-alive"; "proxy-connection"; "te"; "trailer"; "x-jw-client-address"; "forwarded";
   "x-forwarded-for"; "x-forwarded-host"; "x-forwarded-proto"].

Definition header_name_ok (name : string) : bool :=
  negb (bool_decide (name = EmptyString)) && sall (fun b => is_ascii_alphanumeric b || byte_is 45 b) name.
Definition value_byte_bad (b : ascii) : bool := (in_range 0 31 b && negb (byte_is 9 b)) || byte_is 127 b.

(** A header by its lower-case name. *)
Definition header_by_name (cfg : EdgeConfig) (lower value line : string) (s : HeadScan) : result string HeadScan :=
  if bool_decide (lower = "host") then
    let s := {| hs_hosts := u8_add (hs_hosts s); hs_origins := hs_origins s; hs_lengths := hs_lengths s;
                hs_upgrades := hs_upgrades s; hs_upgrade := hs_upgrade s; hs_headers := hs_headers s;
                hs_output := hs_output s |} in
    if negb (bool_decide (value = external_authority cfg)) then Err "request host is rejected"%string
    else Ok (push ("Host: " +:+ ec_public_host cfg) s)
  else if bool_decide (lower = "origin") then
    let s := {| hs_hosts := hs_hosts s; hs_origins := u8_add (hs_origins s); hs_lengths := hs_lengths s;
                hs_upgrades := hs_upgrades s; hs_upgrade := hs_upgrade s; hs_headers := hs_headers s;
                hs_output := hs_output s |} in
    if negb (bool_decide (value = external_origin cfg)) then Err "request origin is rejected"%string
    else Ok (push ("Origin: " +:+ canonical_origin cfg) s)
  else if bool_decide (lower = "upgrade") then
    let s := {| hs_hosts := hs_hosts s; hs_origins := hs_origins s; hs_lengths := hs_lengths s;
                hs_upgrades := u8_add (hs_upgrades s); hs_upgrade := true; hs_headers := hs_headers s;
                hs_output := hs_output s |} in
    if negb (hs_upgrades s =? 1) || negb (eq_ignore_ascii_case value "websocket")
    then Err "request upgrade is rejected"%string
    else Ok (push line s)
  else if bool_decide (lower = "content-length") then
    let s := {| hs_hosts := hs_hosts s; hs_origins := hs_origins s; hs_lengths := u8_add (hs_lengths s);
                hs_upgrades := hs_upgrades s; hs_upgrade := hs_upgrade s; hs_headers := hs_headers s;
                hs_output := hs_output s |} in
    if negb (hs_lengths s =? 1) || bool_decide (value = EmptyString) || negb (sall is_ascii_digit value)
    then Err "request content length is rejected"%string
    else Ok (push ("Content-Length: " +:+ value) s)
  else if bool_decide (lower = "transfer-encoding") then Err "request transfer encoding is rejected"%string
  else if bool_decide (lower ∈ STRIPPED_HEADERS) then Ok s
  else Ok (push line s).

Definition header_line (cfg : EdgeConfig) (line : string) (s : HeadScan) : result string HeadScan :=
  let s := {| hs_hosts := hs_hosts s; hs_origins := hs_origins s; hs_lengths := hs_lengths s;
              hs_upgrades := hs_upgrades s; hs_upgrade := hs_upgrade s; hs_headers := u16_add (hs_headers s);
              hs_output := hs_output s |} in
  if (128 <? hs_headers s) || starts_with " " line || starts_with (s1 (chr 9)) line
  then Err "request headers are rejected"%string
  else match split_once_on 58 line with
       | None => Err "request header is malformed"%string
       | Some (name, raw) =>
           if negb (header_name_ok name) then Err "request header name is rejected"%string
           else
             let value := trim_str raw in
             if sany value_byte_bad value then Err "request header value is rejected"%string
             else header_by_name cfg (to_ascii_lowercase name) value line s
       end.

Fixpoint header_lines (cfg : EdgeConfig) (lines : list string) (s : HeadScan) : result string HeadScan :=
  match lines with
  | [] => Ok s
  | line :: rest =>
      if bool_decide (line = EmptyString) then Ok s
      else let? s := header_line cfg line s in header_lines cfg rest s
  end.

Definition ALLOWED_METHODS : list string := ["GET"; "HEAD"; "POST"; "PUT"; "PATCH"; "DELETE"; "OPTIONS"].
Definition SAFE_METHODS : list string := ["GET"; "HEAD"; "OPTIONS"].

(** The method of an acceptable request line. *)
Definition request_method (request_line : string) : result string string :=
  match ssplit " " request_line with
  | [] => Err "request method is missing"%string
  | [_] => Err "request target is missing"%string
  | [_; _] => Err "request version is missing"%string
  | method :: target :: version :: more =>
      if negb (bool_decide (more = [])) || negb (bool_decide (method ∈ ALLOWED_METHODS))
         || negb (starts_with "/" target) || starts_with "//" target || negb (bool_decide (version = "HTTP/1.1"))
      then Err "request line is rejected"%string
      else Ok method
  end.

Definition normalize_request_head (head : string) (peer : IpAddr) (cfg : EdgeConfig) : result string string :=
  if MAX_HEADER_BYTES <? slen head then Err "request header exceeded bound"%string
  else if negb (utf8_valid head) then Err "request header is invalid"%string
  else match split_crlf head with
       | [] => Err "request line is missing"%string
       | request_line :: lines =>
           let? method := request_method request_line in
           let? s := header_lines cfg lines
                       {| hs_hosts := 0; hs_origins := 0; hs_lengths := 0; hs_upgrades := 0; hs_upgrade := false;
                          hs_headers := 0; hs_output := request_line +:+ CRLF |} in
           if negb (hs_hosts s =? 1) then Err "request host is required exactly once"%string
           else
             let mutation := negb (bool_decide (method ∈ SAFE_METHODS)) in
             if mutation && negb (hs_origins s =? 1) then Err "request origin is required exactly once"%string
             else if negb mutation && (1 <? hs_origins s) then Err "request origin is duplicated"%string
             else Ok (hs_output s +:+ "X-JW-Client-Address: " +:+ ip_text peer +:+ CRLF +:+ "Connection: "
                      +:+ (if hs_upgrade s then "upgrade" else "close") +:+ CRLF +:+ CRLF)
       end.

(** ** The connection *)

(** What a read of the browser's stream yields; no bytes is its end. *)
Inductive EdgeRead :=
  | ReadFailed
  | ReadBytes (bytes : string).

(** The head and what was read beyond it.  When the reads are used up, the
    time limit is reached. *)
Fixpoint read_request_head (buffer : string) (reads : list EdgeRead) : result string (string * string) :=
  match reads with
  | [] => Err "request header timed out"%string
  | ReadFailed :: _ => Err "cannot read request header"%string
  | ReadBytes EmptyString :: _ => Err "request closed before headers"%string
  | ReadBytes bytes :: rest =>
      let buffer := buffer +:+ bytes in
      match find_header_end buffer with
      | Some n => Ok (stake n buffer, sdrop n buffer)
      | None => if MAX_HEADER_BYTES <? slen buffer then Err "request header exceeded bound"%string
                else read_request_head buffer rest
      end
  end.

(** The outcomes of the upstream socket: a failed write may have sent a
    prefix. *)
Record Upstream := {
  us_connected : result string unit;
  us_head_cut : option nat;
  us_rest_cut : option nat;
}.

(** Up to the copying of the streams: the result and what [jw-agentd] was sent. *)
Definition proxy_connection (reads : list EdgeRead) (peer : IpAddr) (cfg : EdgeConfig) (u : Upstream)
    : result string unit * string :=
  match read_request_head EmptyString reads with
  | Err e => (Err e, EmptyString)
  | Ok (head, remainder) =>
      match normalize_request_head head peer cfg with
      | Err e => (Err e, EmptyString)
      | Ok normalized =>
          match us_connected u with
          | Err e => (Err e, EmptyString)
          | Ok _ =>
              match us_head_cut u with
              | Some n => (Err "cannot write normalized request"%string, stake n normalized)
              | None =>
                  match us_rest_cut u with
                  | Some n => (Err "cannot write buffered request body"%string, normalized +:+ stake n remainder)
                  | None => (Ok tt, normalized +:+ remainder)
                  end
              end
          end
      end
  end.

(** ** Runs *)

Definition test_config : EdgeConfig := {| ec_port := 9443; ec_public_host := "agent.example.test" |}.

Example forged_addresses_are_stripped :
  normalize_request_head
    ("POST /api/v1/auth/login HTTP/1.1" +:+ CRLF +:+ "Host: agent.example.test:9443" +:+ CRLF
     +:+ "Origin: https://agent.example.test:9443" +:+ CRLF +:+ "X-JW-Client-Address: 203.0.113.5" +:+ CRLF
     +:+ "Content-Length: 2" +:+ CRLF +:+ CRLF) (V4 192 0 2 10) test_config =
  Ok ("POST /api/v1/auth/login HTTP/1.1" +:+ CRLF +:+ "Host: agent.example.test" +:+ CRLF
      +:+ "Origin: https://agent.example.test" +:+ CRLF +:+ "Content-Length: 2" +:+ CRLF
      +:+ "X-JW-Client-Address: 192.0.2.10" +:+ CRLF +:+ "Connection: close" +:+ CRLF +:+ CRLF).
Proof. vm_compute. reflexivity. Qed.

(** The value is trimmed of line feeds before it is checked, and the line is
    forwarded as it came: a line feed after the colon passes, and what follows
    it is a header line of its own for a reader that ends lines at a line
    feed. *)
Example line_feed_passes :
  normalize_request_head
    ("GET / HTTP/1.1" +:+ CRLF +:+ "Host: agent.example.test:9443" +:+ CRLF
     +:+ "X-A:" +:+ s1 (chr 10) +:+ "X-JW-Client-Address: 203.0.113.5" +:+ CRLF +:+ CRLF) (V4 192 0 2 10) test_config =
  Ok ("GET / HTTP/1.1" +:+ CRLF +:+ "Host: agent.example.test" +:+ CRLF
      +:+ "X-A:" +:+ s1 (chr 10) +:+ "X-JW-Client-Address: 203.0.113.5" +:+ CRLF
      +:+ "X-JW-Client-Address: 192.0.2.10" +:+ CRLF +:+ "Connection: close" +:+ CRLF +:+ CRLF).
Proof. vm_compute. reflexivity. Qed.

Example addresses_as_displayed :
  map ip_text [V4 127 0 0 1; V6 [0;0;0;0;0;0;0;1]; V6 [8193;3512;0;0;1;0;0;1]; V6 [0;0;0;0;0;65535;49152;522];
               V6 [1;2;3;4;5;6;7;0]; V6 [0;0;0;0;0;0;0;0]] =
  ["127.0.0.1"; "::1"; "2001:db8::1:0:0:1"; "::ffff:192.0.2.10"; "1:2:3:4:5:6:7:0"; "::"]%string.
Proof. vm_compute. reflexivity. Qed.

Example hosts_checked :
  map (fun h => is_ok (validate_public_host h))
    ["agent.example.com"; "agent.example.com:9443"; "192.0.2.10"; "localhost"; "999.0.0.1"]%string =
  [true; false; false; false; true].
Proof. vm_compute. reflexivity. Qed.
