(* ===== verification/EdgeProps.v ===== *)
(** * Properties of the TLS edge

    Which request heads are accepted and what they become, and what a reader
    of the forwarded head finds in it. *)

From Stdlib Require Import Ascii String.
From S2P Require Import Prelude Crypto CertContracts Text ConfigText Bytes Edge.

(** ** Lines *)



















(** ** The accepted heads *)


Section Head.
Context (cfg : EdgeConfig).






















(** ** The forwarded head *)
























End Head.

(** ** Runs *)

Module EdgeWitness.

End EdgeWitness.
