(* ===== verification/CertDaemon.v ===== *)
(** * jw-certd: the certificate daemon (lib.rs)

    One request per process: validate it, run Certbot or the local TLS probe
    with a fixed command line, and answer with evidence that holds digests
    instead of output.  The programs, the file system and the clocks of the
    time limits are the environment. *)

From Stdlib Require Import Ascii String.
From S2P Require Import Prelude Crypto Contracts Plans CertContracts Adapters Text Host Diagnostics Certificate Bytes.

Definition CERTBOT_EXECUTABLE : string := "/usr/bin/certbot".
Definition OPENSSL_EXECUTABLE : string := "/usr/bin/openssl".
Definition WEBROOT : string := "/var/lib/jw-agent/acme-webroot".
Definition CONFIG_DIR : string := "/etc/letsencrypt".
Definition WORK_DIR : string := "/var/lib/letsencrypt".
Definition LOGS_DIR : string := "/var/log/letsencrypt".
Definition ISSUE_TIMEOUT_MS : Z := 6 * 60 * 1000.
Definition RENEW_TIMEOUT_MS : Z := 12 * 60 * 1000.
Definition OUTPUT_CAP_BYTES : Z := 64 * 1024.
Definition TLS_OUTPUT_CAP_BYTES : Z := 256 * 1024.
Definition TLS_TIMEOUT_MS : Z := 8 * 1000.

(** ** Command lines *)

Record InvocationSpec := {
  is_executable : string;
  is_class : CertbotCommandClass;
  is_arguments : list string;
  is_private_config : option string;
  is_timeout_ms : Z;
  is_output_cap : Z;
  is_expected_fingerprint : option string;
}.

Definition issue_arguments (config_path primary_domain : string) (domains : list string)
    (environment : CertificateEnvironment) : list string :=
  ["certonly"; "--non-interactive"; "--agree-tos"; "--no-eff-email"; "--webroot"; "--webroot-path"; WEBROOT;
   "--config-dir"; CONFIG_DIR; "--work-dir"; WORK_DIR; "--logs-dir"; LOGS_DIR; "--config"; config_path;
   "--cert-name"; primary_domain]%string
  ++ [match environment with Staging => "--dry-run" | Production => "--keep-until-expiring" end]%string
  ++ concat (map (fun domain => ["--domain"%string; domain]) domains).

Definition invocation_spec (command : CertbotCommand) (config_path : string) : result string InvocationSpec :=
  let? _ := command_validate command in
  match command with
  | Issue primary_domain domains account_email environment _ =>
      Ok {| is_executable := CERTBOT_EXECUTABLE;
            is_class := match environment with Staging => IssueStaging | Production => IssueProduction end;
            is_arguments := issue_arguments config_path primary_domain domains environment;
            is_private_config := Some ("email = " +:+ account_email +:+ s1 (chr 10));
            is_timeout_ms := ISSUE_TIMEOUT_MS;
            is_output_cap := OUTPUT_CAP_BYTES;
            is_expected_fingerprint := None |}
  | RenewDryRun =>
      Ok {| is_executable := CERTBOT_EXECUTABLE;
            is_class := RenewDryRunClass;
            is_arguments := ["renew"; "--dry-run"; "--no-random-sleep-on-renew"; "--config-dir"; CONFIG_DIR;
                             "--work-dir"; WORK_DIR; "--logs-dir"; LOGS_DIR]%string;
            is_private_config := None;
            is_timeout_ms := RENEW_TIMEOUT_MS;
            is_output_cap := OUTPUT_CAP_BYTES;
            is_expected_fingerprint := None |}
  | VerifyLocalTls server_name expected_fingerprint =>
      Ok {| is_executable := OPENSSL_EXECUTABLE;
            is_class := VerifyLocalTlsClass;
            is_arguments := ["s_client"; "-connect"; "127.0.0.1:443"; "-servername"; server_name; "-showcerts";
                             "-no_ign_eof"]%string;
            is_private_config := None;
            is_timeout_ms := TLS_TIMEOUT_MS;
            is_output_cap := TLS_OUTPUT_CAP_BYTES;
            is_expected_fingerprint := Some expected_fingerprint |}
  end.

(** ** The environment *)

(** A program run with a time limit: its standard input, and what came of it. *)
Record Invocation := {
  iv_executable : string;
  iv_arguments : list string;
  iv_input : string;
  iv_limit_ms : Z;
}.

Inductive ProcessOutcome :=
  | ProcessFailed (error : string)
      (** it could not be spawned, fed, waited for or read *)
  | ProcessEnded (exit_code : option Z) (timed_out : bool) (stdout stderr : list string)
      (** ended, or was terminated at the limit; each stream by its reads *).

(** The outcome of a file-system call; a failed write leaves a prefix. *)
Inductive FileOutcome := FileOk | FileFailed (written : nat).

Record CertdWorld := {
  cw_files : gmap string string;
  cw_outcomes : list FileOutcome;
  cw_runs : list (Invocation * ProcessOutcome);
}.

Definition with_files (f : gmap string string -> gmap string string) (w : CertdWorld) : CertdWorld :=
  {| cw_files := f (cw_files w); cw_outcomes := cw_outcomes w; cw_runs := cw_runs w |}.

Definition CdM (A : Type) : Type := M CertdWorld string A.

(** The next call; calls beyond the script succeed. *)
Definition next_outcome : CdM FileOutcome := fun w =>
  match cw_outcomes w with
  | [] => (Ok FileOk, w)
  | o :: rest => (Ok o, {| cw_files := cw_files w; cw_outcomes := rest; cw_runs := cw_runs w |})
  end.

Section Daemon.
Context `{Sha256}.
(** What the machine does, given the runs so far, the newest first. *)
Context (program : list (Invocation * ProcessOutcome) -> Invocation -> ProcessOutcome).

Definition run_program (i : Invocation) : CdM ProcessOutcome := fun w =>
  let outcome := program (cw_runs w) i in
  (Ok outcome, {| cw_files := cw_files w; cw_outcomes := cw_outcomes w; cw_runs := (i, outcome) :: cw_runs w |}).

(** ** The private configuration file *)

Definition create_private_config (path content : string) : CdM unit :=
  let! opened := next_outcome in
  let! present := mget (fun w => is_some (cw_files w !! path)) in
  match opened with
  | FileFailed _ => mfail "private config create failed"%string
  | FileOk =>
      if (present : bool) then mfail "private config create failed"%string
      else
        let! _ := mupd (with_files (<[path := EmptyString]>)) in
        let! restricted := next_outcome in
        match restricted with
        | FileFailed _ => mfail "private config permission failed"%string
        | FileOk =>
            let! written := next_outcome in
            match written with
            | FileFailed n =>
                let! _ := mupd (with_files (<[path := stake n content]>)) in
                mfail "private config write failed"%string
            | FileOk =>
                let! _ := mupd (with_files (<[path := content]>)) in
                let! synced := next_outcome in
                match synced with
                | FileFailed _ => mfail "private config sync failed"%string
                | FileOk => mret tt
                end
            end
        end
  end.

(** [Drop]: failures are ignored. *)
Definition drop_private_config (path : string) : CdM unit :=
  let! removed := next_outcome in
  let! _ := match removed with FileOk => mupd (with_files (delete path)) | FileFailed _ => mret tt end in
  let! _ := next_outcome in
  mret tt.

(** ** Output *)

Record CertdStream := { se_digest : string; se_truncated : bool; se_captured : string }.

(** One read: the total, what was hashed and what was kept so far. *)
Definition certd_read_step (cap : Z) (s : Z * string * string) (chunk : string) : Z * string * string :=
  let '(total, hashed, captured) := s in
  (Z.min usize_max (total + slen chunk), hashed +:+ chunk,
   if slen captured <? cap then captured +:+ stake (Z.to_nat (Z.min (cap - slen captured) (slen chunk))) chunk
   else captured).

Definition certd_read_bounded (cap : Z) (reads : list string) : CertdStream :=
  let '(total, hashed, captured) := fold_left (certd_read_step cap) reads (0, EmptyString, EmptyString) in
  {| se_digest := format_sha256 (sha256 hashed); se_truncated := cap <? total; se_captured := captured |}.

(** ** The peer's certificate *)

Definition BEGIN_CERTIFICATE : string := "-----BEGIN CERTIFICATE-----".
Definition END_CERTIFICATE : string := "-----END CERTIFICATE-----".

(** [windows(needle.len()).position(..)]. *)
Fixpoint find_bytes (value needle : string) : option nat :=
  if starts_with needle value then Some O
  else match value with
       | EmptyString => None
       | String _ rest => S <$> find_bytes rest needle
       end.

Definition x509_der (pem : string) : CdM string :=
  let! outcome := run_program {| iv_executable := OPENSSL_EXECUTABLE; iv_arguments := ["x509"; "-outform"; "DER"]%string;
                                 iv_input := pem; iv_limit_ms := TLS_TIMEOUT_MS |} in
  match outcome with
  | ProcessFailed error => mfail error
  | ProcessEnded exit_code timed_out stdout _ =>
      let output := certd_read_bounded TLS_OUTPUT_CAP_BYTES stdout in
      if timed_out || negb (bool_decide (exit_code = Some 0)) || se_truncated output
      then mfail "openssl x509 failed"%string
      else mret (se_captured output)
  end.

(** The first certificate of an output. *)
Definition first_certificate (output : string) : result string string :=
  match find_bytes output BEGIN_CERTIFICATE with
  | None => Err "peer certificate missing"%string
  | Some start =>
      let after := (start + String.length BEGIN_CERTIFICATE)%nat in
      match find_bytes (sdrop after output) END_CERTIFICATE with
      | None => Err "peer certificate incomplete"%string
      | Some relative =>
          let finish := (after + relative + String.length END_CERTIFICATE)%nat in
          Ok (stake (finish - start) (sdrop start output))
      end
  end.

Definition peer_fingerprint (output : string) : CdM string :=
  let! pem := mlift (first_certificate output) in
  let! der := x509_der pem in
  mret (format_sha256 (sha256 der)).

(** ** Execution *)

Definition run_bounded (specification : InvocationSpec) : CdM CertbotCommandEvidence :=
  let! outcome := run_program {| iv_executable := is_executable specification;
                                 iv_arguments := is_arguments specification; iv_input := EmptyString;
                                 iv_limit_ms := is_timeout_ms specification |} in
  match outcome with
  | ProcessFailed error => mfail error
  | ProcessEnded exit_code timed_out out err =>
      let stdout := certd_read_bounded (is_output_cap specification) out in
      let stderr := certd_read_bounded (is_output_cap specification) err in
      let command_succeeded := bool_decide (exit_code = Some 0) && negb timed_out in
      let! success :=
        match is_expected_fingerprint specification with
        | Some expected =>
            if command_succeeded && negb (se_truncated stdout) then
              try! observed := peer_fingerprint (se_captured stdout) in
              mret (is_ok_and observed (fun o => bool_decide (o = expected)))
            else mret false
        | None => mret command_succeeded
        end in
      mret {| cb_command_class := is_class specification;
              cb_success := success;
              cb_exit_code := exit_code;
              cb_timed_out := timed_out;
              cb_stdout_digest := se_digest stdout;
              cb_stdout_truncated := se_truncated stdout;
              cb_stderr_digest := se_digest stderr;
              cb_stderr_truncated := se_truncated stderr |}
  end.

Definition execute_command (command : CertbotCommand) (request_id runtime_directory : string)
    : CdM CertbotCommandEvidence :=
  let config_path := path_join runtime_directory ("request-" +:+ request_id +:+ ".ini") in
  let! specification := mlift (invocation_spec command config_path) in
  let! _ := match is_private_config specification with
            | Some content => create_private_config config_path content
            | None => mret tt
            end in
  try! evidence := run_bounded specification in
  let! _ := match is_private_config specification with
            | Some _ => drop_private_config config_path
            | None => mret tt
            end in
  mlift evidence.

Definition execute_request (request : CertbotCommandRequest) (now_unix_ms : Z) (runtime_directory : string)
    (w : CertdWorld) : CertbotCommandResponse * CertdWorld :=
  let (r, w') := match command_request_validate request now_unix_ms with
                 | Ok _ => execute_command (cq_command request) (cq_request_id request) runtime_directory w
                 | Err code => (Err code, w)
                 end in
  ({| cs_protocol_version := IPC_PROTOCOL_VERSION; cs_request_id := cq_request_id request;
      cs_result := match r with Ok evidence => CertCompleted evidence | Err code => CertRejected code end |}, w').
End Daemon.
