(* ===== verification/CertdProps.v ===== *)
(** * Properties of the certificate daemon

    What the daemon's answers mean: the evidence the operation engine accepts
    from it describes the program that was run. *)

From Stdlib Require Import Ascii String.
From S2P Require Import Prelude Crypto Contracts Plans CertContracts Adapters Reference LedgerInv Text Host Certificate Bytes CertDaemon.

(** ** Output *)

Lemma substring_stake n s : String.substring 0 n s = stake n s.
Proof. revert n. induction s as [|c s IH]; intros [|n]; simpl; try done. by rewrite IH. Qed.

Lemma stake_app_le n a b : (n <= String.length a)%nat -> stake n (a +:+ b) = stake n a.
Proof. revert n. induction a as [|c a IH]; intros [|n] Hn; simpl in *; try done; [lia|]. rewrite IH by lia. done. Qed.

Lemma stake_all n s : (String.length s <= n)%nat -> stake n s = s.
Proof. revert n. induction s as [|c s IH]; intros [|n] Hn; simpl in *; try done; [lia|]. by rewrite IH by lia. Qed.

Lemma stake_app_ge n a b : (String.length a <= n)%nat -> stake n (a +:+ b) = a +:+ stake (n - String.length a) b.
Proof.
  revert n. induction a as [|c a IH]; intros n Hn; [by rewrite Nat.sub_0_r|]. destruct n as [|n]; [simpl in Hn; lia|].
  rewrite !sapp_cons. cbn [stake String.length Nat.sub]. simpl in Hn. by rewrite IH by lia.
Qed.

Section Certd.
Context `{Sha256}.

Lemma read_steps cap reads total hashed captured : 0 <= cap < usize_max ->
  captured = stake (Z.to_nat cap) hashed -> total = Z.min usize_max (slen hashed) ->
  fold_left (certd_read_step cap) reads (total, hashed, captured) =
  (Z.min usize_max (slen (hashed +:+ sconcat reads)), hashed +:+ sconcat reads, stake (Z.to_nat cap) (hashed +:+ sconcat reads)).
Proof.
  intros Hcap. revert total hashed captured. induction reads as [|r reads IH]; intros total hashed captured -> ->.
  - change (sconcat []) with EmptyString. by rewrite sapp_nil_r.
  - cbn [fold_left]. rewrite sconcat_cons, <- sapp_assoc. pose proof (slen_nonneg hashed). pose proof (slen_nonneg r).
    cbn [certd_read_step]. apply IH.
    + destruct (Z.le_gt_cases (slen hashed) cap) as [Hle|Hgt].
      * assert (String.length hashed <= Z.to_nat cap)%nat as Hn by (unfold slen in Hle; lia).
        rewrite (stake_all _ hashed), (stake_app_ge _ hashed) by done.
        destruct (slen hashed <? cap) eqn:E; bool_prop.
        -- f_equal. destruct (Z.le_gt_cases (slen r) (cap - slen hashed)) as [Hr|Hr].
           ++ rewrite Z.min_r by done. unfold slen in *. rewrite !stake_all by lia. done.
           ++ rewrite Z.min_l by lia. f_equal. unfold slen in *. lia.
        -- replace (Z.to_nat cap - String.length hashed)%nat with 0%nat by (unfold slen in *; lia).
           destruct r; by rewrite sapp_nil_r.
      * rewrite stake_app_le by (unfold slen in Hgt; lia).
        replace (slen (stake (Z.to_nat cap) hashed)) with cap.
        { by rewrite Z.ltb_irrefl. }
        unfold slen. rewrite stake_length; unfold slen in *; lia.
    + rewrite slen_app. lia.
Qed.

(** The reading loop keeps what the one-piece definition keeps, however the
    output is cut into reads. *)
Lemma certd_read_bounded_exact cap reads : 0 <= cap < usize_max ->
  let e := read_bounded cap (sconcat reads) in
  certd_read_bounded cap reads = {| se_digest := sv_digest e; se_truncated := sv_truncated e; se_captured := sv_captured e |}.
Proof.
  intros Hcap. unfold certd_read_bounded. rewrite (read_steps cap reads 0 EmptyString EmptyString); [|done|by destruct (Z.to_nat cap)|done].
  change (EmptyString +:+ sconcat reads) with (sconcat reads). unfold read_bounded. simpl. rewrite substring_stake. f_equal.
  destruct (cap <? slen (sconcat reads)) eqn:E; bool_prop; [apply Z.ltb_lt; lia|apply Z.ltb_ge; lia].
Qed.

(** ** Runs *)

Context (program : list (Invocation * ProcessOutcome) -> Invocation -> ProcessOutcome).

Definition invoked (spec : InvocationSpec) : Invocation :=
  {| iv_executable := is_executable spec; iv_arguments := is_arguments spec; iv_input := EmptyString;
     iv_limit_ms := is_timeout_ms spec |}.
Definition to_der (pem : string) : Invocation :=
  {| iv_executable := OPENSSL_EXECUTABLE; iv_arguments := ["x509"; "-outform"; "DER"]%string; iv_input := pem;
     iv_limit_ms := TLS_TIMEOUT_MS |}.

(** The files and the script of their calls are not touched. *)
Definition same_disk (w w' : CertdWorld) : Prop := cw_files w' = cw_files w /\ cw_outcomes w' = cw_outcomes w.

(** The first block of an output between the two certificate marks. *)
Definition first_block (output pem : string) : Prop :=
  exists before body after, output = before +:+ pem +:+ after /\
    pem = "-----BEGIN CERTIFICATE-----" +:+ body +:+ "-----END CERTIFICATE-----" /\
    (forall k, (k < String.length before)%nat -> starts_with "-----BEGIN CERTIFICATE-----" (sdrop k output) = false) /\
    (forall k, (k < String.length body)%nat ->
       starts_with "-----END CERTIFICATE-----" (sdrop k (body +:+ "-----END CERTIFICATE-----" +:+ after)) = false).

(** The fingerprint of the first certificate a probe printed, as its one
    conversion shows it; no more of either output than the limit. *)
Definition fingerprint_shown (output fingerprint : string) (more : list (Invocation * ProcessOutcome)) : Prop :=
  slen output <= 262144 /\
  exists pem out err, first_block output pem /\
    more = [(to_der pem, ProcessEnded (Some 0) false out err)] /\ slen (sconcat out) <= 262144 /\
    fingerprint = sha256_digest (sconcat out).

Lemma starts_with_app p s : starts_with p s = true -> exists r, s = p +:+ r.
Proof.
  revert s. induction p as [|c p IH]; intros [|d s] Hs; simpl in Hs; try done; [by exists EmptyString|by eexists|].
  destruct (ascii_dec c d) as [->|]; [|done]. destruct (IH _ Hs) as [r ->]. by exists r.
Qed.

Lemma find_bytes_first needle value n : find_bytes value needle = Some n ->
  (n <= String.length value)%nat /\ (exists r, sdrop n value = needle +:+ r) /\
  forall k, (k < n)%nat -> starts_with needle (sdrop k value) = false.
Proof.
  revert n. induction value as [|c value IH]; intros n; cbn [find_bytes];
    match goal with |- context [starts_with needle ?v] => destruct (starts_with needle v) eqn:E end.
  - intros [= <-]. apply starts_with_app in E as [r Hr]. split_and!; [lia|by exists r|lia].
  - done.
  - intros [= <-]. apply starts_with_app in E as [r Hr]. split_and!; [lia|by exists r|lia].
  - destruct (find_bytes value needle) as [m|]; [|done]. intros [= <-]. destruct (IH m eq_refl) as (Hl & Hr & Hk).
    cbn [String.length]. split_and!; [lia|done|]. intros [|k] Hlt; [done|]. apply Hk. lia.
Qed.

Lemma first_certificate_block output pem : first_certificate output = Ok pem -> first_block output pem.
Proof.
  unfold first_certificate. destruct (find_bytes output BEGIN_CERTIFICATE) as [start|] eqn:Eb; [|done].
  apply find_bytes_first in Eb as (Hstart & [rest Hrest] & Hfirst).
  rewrite <- sdrop_sdrop, Hrest, (sdrop_app (String.length BEGIN_CERTIFICATE)) by done.
  destruct (find_bytes rest END_CERTIFICATE) as [len|] eqn:Ee; [|done].
  apply find_bytes_first in Ee as (Hlen & [after Hafter] & Hend). intros [= <-].
  assert (rest = stake len rest +:+ END_CERTIFICATE +:+ after) as Hsplit by (rewrite <- Hafter; symmetry; apply stake_sdrop).
  assert (String.length (stake len rest) = len) as Hbody by (by apply stake_length).
  set (pem := BEGIN_CERTIFICATE +:+ stake len rest +:+ END_CERTIFICATE).
  assert (BEGIN_CERTIFICATE +:+ rest = pem +:+ after) as Hpem by (unfold pem; rewrite !sapp_assoc; by rewrite <- Hsplit).
  rewrite Hpem, stake_app.
  2:{ unfold pem. rewrite !length_sapp, Hbody. change (String.length BEGIN_CERTIFICATE) with 27%nat.
      change (String.length END_CERTIFICATE) with 25%nat. lia. }
  exists (stake start output), (stake len rest), after. split_and!; [|done| |].
  - by rewrite <- Hpem, <- Hrest, stake_sdrop.
  - rewrite stake_length by done. done.
  - rewrite Hbody. intros k Hk. specialize (Hend k Hk). by rewrite Hsplit in Hend.
Qed.

Lemma captured_all reads : se_truncated (certd_read_bounded TLS_OUTPUT_CAP_BYTES reads) = false ->
  se_captured (certd_read_bounded TLS_OUTPUT_CAP_BYTES reads) = sconcat reads.
Proof.
  rewrite certd_read_bounded_exact by done. simpl. intros Ht. bool_prop.
  rewrite substring_stake. apply stake_all. unfold slen in Ht. lia.
Qed.

Lemma not_truncated cap reads : 0 <= cap < usize_max ->
  se_truncated (certd_read_bounded cap reads) = bool_decide (cap < slen (sconcat reads)).
Proof.
  intros Hcap. rewrite certd_read_bounded_exact by done. simpl.
  case_bool_decide; [by apply Z.ltb_lt|apply Z.ltb_ge; lia].
Qed.

(** At most the one conversion of the first certificate printed. *)
Definition conversions (output : string) (more : list (Invocation * ProcessOutcome)) : Prop :=
  more = [] \/ exists pem o, first_block output pem /\ more = [(to_der pem, o)].

Lemma peer_fingerprint_run output w r w' : slen output <= TLS_OUTPUT_CAP_BYTES ->
  peer_fingerprint program output w = (r, w') ->
  same_disk w w' /\ exists more, cw_runs w' = more ++ cw_runs w /\ conversions output more /\
    (forall fp, r = Ok fp <-> fingerprint_shown output fp more).
Proof.
  intros Hcap. unfold peer_fingerprint, x509_der, run_program, mlift, mret, mfail, mbind.
  destruct (first_certificate output) as [pem|e] eqn:Ep.
  2:{ intros [= <- <-]. split; [done|]. exists []. split_and!; [done|by left|]. intros fp. split; [done|].
      by intros (_ & ? & ? & ? & _ & ? & _). }
  apply first_certificate_block in Ep. fold (to_der pem). set (o := program (cw_runs w) (to_der pem)).
  assert (conversions output [(to_der pem, o)]) as Hconv by (right; eauto).
  assert (forall v r', (r', v) = (r, w') -> cw_files v = cw_files w -> cw_outcomes v = cw_outcomes w ->
    cw_runs v = (to_der pem, o) :: cw_runs w -> (forall fp, r' = Ok fp <-> exists out err,
      o = ProcessEnded (Some 0) false out err /\ slen (sconcat out) <= 262144 /\ fp = sha256_digest (sconcat out)) ->
    same_disk w w' /\ exists more, cw_runs w' = more ++ cw_runs w /\ conversions output more /\
      (forall fp, r = Ok fp <-> fingerprint_shown output fp more)) as Hwrap.
  { intros v r' [= -> ->] Hf Ho Hr Hfp. split; [done|]. exists [(to_der pem, o)]. split_and!; [done|done|].
    intros fp. rewrite Hfp. unfold fingerprint_shown. split.
    - intros (out & err & -> & Hl & ->). split; [done|]. by exists pem, out, err.
    - intros (_ & pem' & out & err & _ & [= Hpem Ho'] & Hl & ->). by exists out, err. }
  clearbody o. destruct o as [e|code late out err]; cbv beta iota zeta; [intros E; eapply Hwrap in E; [done|done..|]|].
  { intros fp. split; [done|]. by intros (? & ? & ? & _). }
  rewrite not_truncated by done. destruct late; cbn [orb].
  { intros E. eapply Hwrap in E; [done|done..|]. intros fp. split; [done|]. by intros (? & ? & ? & _). }
  case_bool_decide as Hc; cbn [negb orb].
  2:{ intros E. eapply Hwrap in E; [done|done..|]. intros fp. split; [done|]. by intros (? & ? & [= ? ? ?] & _). }
  subst code. case_bool_decide as Hl; intros E; eapply Hwrap in E; try done; intros fp; split; try done.
  - intros (? & ? & [= <- <-] & Hle & _). unfold TLS_OUTPUT_CAP_BYTES in Hl. lia.
  - intros [= <-]. exists out, err. rewrite captured_all by (rewrite not_truncated by done; by apply bool_decide_eq_false_2).
    split_and!; [done|unfold TLS_OUTPUT_CAP_BYTES in Hl; lia|done].
  - intros (? & ? & [= <- <-] & _ & ->). rewrite captured_all by (rewrite not_truncated by done; by apply bool_decide_eq_false_2). done.
Qed.

(** What the evidence of a run of a command line says: the run's exit, time
    limit and output, and success exactly when it ended well and, where a
    certificate is expected, that one was shown. *)
Definition ran_truthfully (line : Invocation) (class : CertbotCommandClass) (cap : Z) (expected : option string)
    (e : CertbotCommandEvidence) (runs : list (Invocation * ProcessOutcome)) : Prop :=
  exists more out err, conversions (sconcat out) more /\
    runs = more ++ [(line, ProcessEnded (cb_exit_code e) (cb_timed_out e) out err)] /\
    cb_command_class e = class /\
    cb_stdout_digest e = sha256_digest (sconcat out) /\ cb_stderr_digest e = sha256_digest (sconcat err) /\
    cb_stdout_truncated e = bool_decide (cap < slen (sconcat out)) /\
    cb_stderr_truncated e = bool_decide (cap < slen (sconcat err)) /\
    (cb_success e = true <-> cb_exit_code e = Some 0 /\ cb_timed_out e = false /\
       match expected with Some fp => fingerprint_shown (sconcat out) fp more | None => True end) /\
    (expected = None -> more = []).

Definition cap_small (spec : InvocationSpec) : Prop :=
  0 <= is_output_cap spec < usize_max /\
  (is_some (is_expected_fingerprint spec) = true -> is_output_cap spec = TLS_OUTPUT_CAP_BYTES).

(** A run that failed to start or to be read is the command line's own. *)
Definition run_result (spec : InvocationSpec) (r : result string CertbotCommandEvidence)
    (runs : list (Invocation * ProcessOutcome)) : Prop :=
  match r with
  | Ok e => ran_truthfully (invoked spec) (is_class spec) (is_output_cap spec) (is_expected_fingerprint spec) e runs
  | Err error => runs = [(invoked spec, ProcessFailed error)]
  end.

Lemma digest_all cap l : 0 <= cap < usize_max -> se_digest (certd_read_bounded cap l) = sha256_digest (sconcat l).
Proof. intros Hc. by rewrite certd_read_bounded_exact. Qed.

Lemma ended_well code late : bool_decide (code = Some 0) && negb late = true <-> code = Some 0 /\ late = false.
Proof. rewrite andb_true_iff, bool_decide_eq_true, negb_true_iff. done. Qed.

Lemma run_bounded_run spec w r w' : cap_small spec ->
  run_bounded program spec w = (r, w') ->
  same_disk w w' /\ exists runs, cw_runs w' = runs ++ cw_runs w /\ run_result spec r runs.
Proof.
  intros [Hcap Htls]. unfold run_bounded, run_program. unfold mbind at 1. fold (invoked spec).
  destruct (program (cw_runs w) (invoked spec)) as [e|code late out err] eqn:Eo.
  { intros [= <- <-]. split; [done|]. by eexists [_]. }
  set (w1 := {| cw_files := cw_files w |}). cbv zeta.
  destruct (is_expected_fingerprint spec) as [fp|] eqn:Ef.
  - specialize (Htls eq_refl). rewrite !not_truncated by done. destruct (_ && _ && negb _) eqn:Ec.
    + apply andb_true_iff in Ec as [Ec Et]. apply negb_true_iff, bool_decide_eq_false in Et. apply ended_well in Ec as [-> ->].
      rewrite Htls, captured_all by (rewrite not_truncated by done; apply bool_decide_eq_false; by rewrite <- Htls). rewrite Htls in Et.
      unfold mbind, mtry, mret. destruct (peer_fingerprint program (sconcat out) w1) as [o w2] eqn:Ep.
      apply peer_fingerprint_run in Ep as ([Hd1 Hd2] & more & Hr & Hl & Hfp); [|lia]. intros [= <- <-].
      split; [by split; rewrite ?Hd1, ?Hd2|]. exists (more ++ [(invoked spec, ProcessEnded (Some 0) false out err)]).
      split; [by rewrite Hr, <- app_assoc|]. exists more, out, err. cbn. rewrite Htls, !digest_all, Ef by done.
      split_and!; try done. rewrite <- Hfp. unfold is_ok_and. destruct o as [o|]; [rewrite bool_decide_eq_true|];
        (split; [try (by intros ->)|]); try done; naive_solver.
    + intros [= <- <-]. split; [done|]. eexists [_]. split; [done|]. exists [], out, err. cbn. rewrite Ef, !digest_all by done.
      split_and!; try done; [by left|]. split; [done|]. intros (-> & -> & _ & ? & ? & ? & _ & ? & _). done.
  - intros [= <- <-]. split; [done|]. eexists [_]. split; [done|]. exists [], out, err. cbn.
    rewrite Ef, !not_truncated, !digest_all, ended_well by done. split_and!; try done; [by left|]. naive_solver.
Qed.

(** ** The private file *)

Definition all_ok (w : CertdWorld) : Prop := Forall (eq FileOk) (cw_outcomes w).

Lemma next_outcome_spec w r w' : next_outcome w = (r, w') ->
  cw_runs w' = cw_runs w /\ cw_files w' = cw_files w /\ exists o, r = Ok o /\ (all_ok w -> o = FileOk /\ all_ok w').
Proof.
  unfold next_outcome, all_ok. destruct (cw_outcomes w) as [|o rest] eqn:E; intros [= <- <-]; split_and!; try done; eexists; (split; [done|]).
  - by rewrite E.
  - by intros [<- ?]%Forall_cons.
Qed.

(** The calls of a handler that only touches files. *)
Ltac next_call := unfold mbind at 1;
  let r := fresh "r" in let w := fresh "w" in let E := fresh "E" in
  match goal with |- context [next_outcome ?v] => destruct (next_outcome v) as [r w] eqn:E end;
  let Hr := fresh "Hr" in let Hf := fresh "Hf" in let o := fresh "o" in let Ho := fresh "Ho" in
  apply next_outcome_spec in E as (Hr & Hf & o & -> & Ho); cbv beta iota.

Lemma create_spec path content w r w' : create_private_config path content w = (r, w') ->
  cw_runs w' = cw_runs w /\
  (all_ok w -> cw_files w !! path = None -> r = Ok tt /\ all_ok w' /\ cw_files w' = <[path := content]> (cw_files w)).
Proof.
  unfold create_private_config. next_call. unfold mbind at 1, mget. rewrite Hf. destruct o as [|n]; cbv beta iota.
  2:{ intros [= <- <-]. split; [done|]. intros Ha. by destruct (Ho Ha). }
  destruct (is_some (cw_files w !! path)) eqn:Ep.
  { intros [= <- <-]. split; [done|]. intros _ Hn. by rewrite Hn in Ep. }
  unfold mbind at 1, mupd. set (v1 := with_files _ _). next_call. destruct o as [|n].
  2:{ intros [= <- <-]. split; [by rewrite Hr0|]. intros Ha. destruct (Ho Ha) as [_ Ha1]. by destruct (Ho0 Ha1). }
  next_call. destruct o as [|n].
  2:{ unfold mbind, mupd, mfail. intros [= <- <-]. split; [cbn [with_files cw_runs]; by rewrite Hr1, Hr0|].
      intros Ha. destruct (Ho Ha) as [_ Ha1]. destruct (Ho0 Ha1) as [_ Ha2]. by destruct (Ho1 Ha2). }
  unfold mbind at 1, mupd. set (v2 := with_files _ _). next_call.
  assert (cw_runs w3 = cw_runs w) as Hruns by (rewrite Hr2; cbn [v2 with_files cw_runs]; by rewrite Hr1, Hr0).
  destruct o as [|n]; intros [= <- <-]; (split; [done|]); intros Ha Hn;
    destruct (Ho Ha) as [_ Ha1]; destruct (Ho0 Ha1) as [_ Ha2]; destruct (Ho1 Ha2) as [_ Ha3]; destruct (Ho2 Ha3) as [? Ha4]; [|done].
  split_and!; [done|done|]. rewrite Hf2. cbn [v2 with_files cw_files]. rewrite Hf1, Hf0. cbn [v1 with_files cw_files].
  by rewrite Hf, insert_insert_eq.
Qed.

Lemma drop_spec path w r w' : drop_private_config path w = (r, w') ->
  cw_runs w' = cw_runs w /\ r = Ok tt /\ (all_ok w -> cw_files w' = delete path (cw_files w)).
Proof.
  unfold drop_private_config. next_call. destruct o as [|n]; unfold mbind at 1, mupd, mret; next_call; intros [= <- <-].
  - split_and!; [by rewrite Hr0|done|]. intros Ha. rewrite Hf0. cbn [with_files cw_files]. by rewrite Hf.
  - split_and!; [by rewrite Hr0|done|]. intros Ha. by destruct (Ho Ha).
Qed.

Definition config_path (directory request_id : string) : string :=
  Diagnostics.path_join directory ("request-" +:+ request_id +:+ ".ini").

Lemma spec_cap command path spec : invocation_spec command path = Ok spec -> cap_small spec.
Proof.
  unfold invocation_spec. destruct (command_validate command); [|done]. destruct command; intros [= <-]; split; simpl; try done.
Qed.

(** What the runs of a command, the newest first, amount to. *)
Lemma execute_command_spec command id dir w r w' :
  execute_command program command id dir w = (r, w') ->
  (exists runs, cw_runs w' = runs ++ cw_runs w /\
     ((exists spec, invocation_spec command (config_path dir id) = Ok spec /\ run_result spec r runs) \/ is_ok r = false /\ runs = [])) /\
  (all_ok w -> cw_files w !! config_path dir id = None -> cw_files w' = cw_files w).
Proof.
  unfold execute_command. fold (config_path dir id). unfold mbind at 1, mlift at 1.
  destruct (invocation_spec command (config_path dir id)) as [spec|e] eqn:Es.
  2:{ intros [= <- <-]. split; [|done]. exists []. auto. }
  pose proof (spec_cap _ _ _ Es) as Hcap. unfold mbind at 1.
  destruct (is_private_config spec) as [content|].
  - destruct (create_private_config (config_path dir id) content w) as [rc w1] eqn:Ec. apply create_spec in Ec as [Hr1 Hc].
    destruct rc as [u|e]; [|intros [= <- <-]; split; [exists []; auto|intros Ha Hn; by destruct (Hc Ha Hn)]].
    unfold mtry. destruct (run_bounded program spec w1) as [rr w2] eqn:Er.
    apply run_bounded_run in Er as ([Hd1 Hd2] & runs & Hr2 & Ht); [|done]. unfold mbind.
    destruct (drop_private_config (config_path dir id) w2) as [rd w3] eqn:Ed. apply drop_spec in Ed as (Hr3 & -> & Hdel).
    intros [= <- <-]. split.
    + exists runs. split; [by rewrite Hr3, Hr2, Hr1|]. destruct rr; left; eauto.
    + intros Ha Hn. destruct (Hc Ha Hn) as (_ & Ha1 & Hf1). rewrite Hdel, Hd1, Hf1 by (unfold all_ok; by rewrite Hd2).
      by apply delete_insert_id.
  - unfold mret at 1, mtry. destruct (run_bounded program spec w) as [rr w2] eqn:Er.
    apply run_bounded_run in Er as ([Hd1 Hd2] & runs & Hr2 & Ht); [|done]. unfold mbind, mret.
    intros [= <- <-]. split; [|done]. exists runs. split; [done|]. destruct rr; left; eauto.
Qed.

(** ** The command lines, written out *)

(** Staging only rehearses ([--dry-run]); production keeps a certificate that
    is not about to expire; the account's address is in the private file. *)
Definition command_line (command : CertbotCommand) (private_file : string) : Invocation :=
  match command with
  | Issue primary domains _ environment _ =>
      {| iv_executable := "/usr/bin/certbot";
         iv_arguments :=
           ["certonly"; "--non-interactive"; "--agree-tos"; "--no-eff-email"; "--webroot"; "--webroot-path";
            "/var/lib/jw-agent/acme-webroot"; "--config-dir"; "/etc/letsencrypt"; "--work-dir"; "/var/lib/letsencrypt";
            "--logs-dir"; "/var/log/letsencrypt"; "--config"; private_file; "--cert-name"; primary;
            match environment with Staging => "--dry-run" | Production => "--keep-until-expiring" end]%string
           ++ flat_map (fun domain => ["--domain"%string; domain]) domains;
         iv_input := ""; iv_limit_ms := 360000 |}
  | RenewDryRun =>
      {| iv_executable := "/usr/bin/certbot";
         iv_arguments := ["renew"; "--dry-run"; "--no-random-sleep-on-renew"; "--config-dir"; "/etc/letsencrypt";
                          "--work-dir"; "/var/lib/letsencrypt"; "--logs-dir"; "/var/log/letsencrypt"]%string;
         iv_input := ""; iv_limit_ms := 720000 |}
  | VerifyLocalTls server_name _ =>
      {| iv_executable := "/usr/bin/openssl";
         iv_arguments := ["s_client"; "-connect"; "127.0.0.1:443"; "-servername"; server_name; "-showcerts"; "-no_ign_eof"]%string;
         iv_input := ""; iv_limit_ms := 8000 |}
  end.

Definition command_class (command : CertbotCommand) : CertbotCommandClass :=
  match command with
  | Issue _ _ _ Staging _ => IssueStaging
  | Issue _ _ _ Production _ => IssueProduction
  | RenewDryRun => RenewDryRunClass
  | VerifyLocalTls _ _ => VerifyLocalTlsClass
  end.
Definition output_limit (command : CertbotCommand) : Z :=
  match command with VerifyLocalTls _ _ => 262144 | _ => 65536 end.
Definition certificate_expected (command : CertbotCommand) : option string :=
  match command with VerifyLocalTls _ fingerprint => Some fingerprint | _ => None end.

Lemma invocation_spec_literal command path spec : invocation_spec command path = Ok spec ->
  invoked spec = command_line command path /\ is_class spec = command_class command /\
  is_output_cap spec = output_limit command /\ is_expected_fingerprint spec = certificate_expected command.
Proof.
  unfold invocation_spec. destruct (command_validate command); [|done].
  destruct command as [primary domains email [] tos| |]; intros [= <-]; (split_and!; [|done..]);
    unfold invoked, command_line; cbn [is_executable is_arguments is_timeout_ms]; try done;
    unfold issue_arguments; rewrite flat_map_concat_map; done.
Qed.

Lemma truthful_accepted command line cap expected e runs :
  ran_truthfully line (command_class command) cap expected e runs -> validate_evidence command e = Ok tt.
Proof.
  intros (more & out & err & _ & _ & Hcl & Ho & He & _ & _ & Hsucc & _). unfold validate_evidence.
  assert (command_class command = expected_class command) as Hclass by (by destruct command as [? ? ? [] ?| |]).
  rewrite Hcl, Hclass, bool_decide_eq_true_2 by done. rewrite Ho, He. unfold sha256_digest, sha256_from_raw.
  assert (forall b, validate_digest (format_sha256 (sha256 b)) = Ok tt) as Hv by (intros b; apply format_digest_valid, sha256_length).
  unfold format_sha256 in Hv. unfold is_err. rewrite !Hv. cbn [is_ok negb orb]. destruct (cb_success e); [|done].
  by destruct (proj1 Hsucc eq_refl) as (-> & -> & _).
Qed.

(** C6: the certificate daemon's answers are true and acceptable to the engine.
    Every request is answered under its own identifier.  A completed answer is
    for a valid, timely request, and its evidence passes the checks the
    engine's runner makes of it.  The daemon ran the command line written out
    in [command_line] ([--dry-run] for staging, [--keep-until-expiring] for
    production, the local port for the probe), once, and besides it at most
    the conversion of the first certificate the probe printed; the class, exit
    code, time-out, digests and truncation reported are those of that run, and
    success is reported exactly for exit 0 within the limit and, for the
    probe, when the first certificate shown has the expected fingerprint.  A
    rejected request ran nothing, or its own command line, which failed to
    start or to be read; an invalid one changed nothing.  The private file with
    the account's address is gone afterwards unless a call of the file system
    failed. *)
Theorem certd_answers_truthfully request now dir w :
  let (response, w') := execute_request program request now dir w in
  let command := cq_command request in
  let private_file := dir +:+ "/request-" +:+ cq_request_id request +:+ ".ini" in
  cs_protocol_version response = IPC_PROTOCOL_VERSION /\ cs_request_id response = cq_request_id request /\
  (exists runs, cw_runs w' = runs ++ cw_runs w /\
     match cs_result response with
     | CertCompleted e =>
         command_request_validate request now = Ok tt /\ validate_evidence command e = Ok tt /\
         ran_truthfully (command_line command private_file) (command_class command) (output_limit command)
           (certificate_expected command) e runs
     | CertRejected reason =>
         (runs = [] \/ runs = [(command_line command private_file, ProcessFailed reason)]) /\
         (command_request_validate request now <> Ok tt -> w' = w)
     end) /\
  (all_ok w -> cw_files w !! private_file = None -> cw_files w' = cw_files w).
Proof.
  unfold execute_request. destruct (command_request_validate request now) as [[]|code].
  2:{ split_and!; [done|done| |done]. exists []. split; [done|]. simpl. auto. }
  destruct (execute_command program _ _ _ w) as [r w'] eqn:E. apply execute_command_spec in E as [(runs & Hr & Ht) Hf].
  split_and!; [done|done| |exact Hf]. exists runs. split; [done|].
  destruct Ht as [(spec & Hs & Ht)|[Hb ->]].
  - apply invocation_spec_literal in Hs as (Hl & Hc & Hcap & He). destruct r as [e|reason]; simpl in Ht |- *.
    + rewrite Hl, Hc, Hcap, He in Ht. split_and!; [done|by eapply truthful_accepted|done].
    + split; [|done]. right. by rewrite Ht, Hl.
  - destruct r as [e|reason]; [done|]. split; [by left|done].
Qed.

(** The account's address is not on the command line. *)
Lemma email_not_in_arguments primary domains e1 e2 environment tos path s1 s2 :
  invocation_spec (Issue primary domains e1 environment tos) path = Ok s1 ->
  invocation_spec (Issue primary domains e2 environment tos) path = Ok s2 -> invoked s1 = invoked s2.
Proof. unfold invocation_spec. destruct (command_validate _); [|done]. destruct (command_validate _); [|done]. by intros [= <-] [= <-]. Qed.
End Certd.

(** ** Runs *)

Module CertdDemo.
#[local] Existing Instance sha256_checksum.

Definition request (command : CertbotCommand) : CertbotCommandRequest :=
  {| cq_protocol_version := 1; cq_request_id := "req1"; cq_deadline_unix_ms := 2000; cq_command := command |}.
Definition world (outcomes : list FileOutcome) : CertdWorld :=
  {| cw_files := ∅; cw_outcomes := outcomes; cw_runs := [] |}.

Definition shown : string := "depth=0" +:+ s1 (chr 10) +:+ BEGIN_CERTIFICATE +:+ "QUJD" +:+ END_CERTIFICATE +:+ "...".
Definition machine (_ : list (Invocation * ProcessOutcome)) (i : Invocation) : ProcessOutcome :=
  if bool_decide (iv_arguments i = ["x509"; "-outform"; "DER"]%string) then ProcessEnded (Some 0) false ["AB"; "C"]%string []
  else ProcessEnded (Some 0) false [stake 20 shown; sdrop 20 shown] [].
Definition probe_for (fingerprint : string) : CertbotCommandRequest :=
  request (VerifyLocalTls "example.com" fingerprint).

(** The probe succeeds exactly for the fingerprint of the certificate shown. *)
Example probe_compares_fingerprints :
  map (fun fp => match cs_result (fst (execute_request machine (probe_for fp) 1000 "/run/jw-agent-certd" (world []))) with
                 | CertCompleted e => Some (cb_success e)
                 | CertRejected _ => None
                 end) [sha256_digest "ABC"; sha256_digest "ABD"] = [Some true; Some false].
Proof. vm_compute. reflexivity. Qed.

(** A write of the private file that fails leaves what was written. *)
Example failed_write_keeps_the_file :
  let (response, w') := execute_request machine
        (request (Issue "example.com" ["example.com"] "owner@example.com" Staging true)) 1000 "/run/jw-agent-certd"
        (world [FileOk; FileOk; FileFailed 24]) in
  cs_result response = CertRejected "private config write failed" /\ cw_runs w' = [] /\
  cw_files w' !! "/run/jw-agent-certd/request-req1.ini"%string = Some "email = owner@example.co"%string.
Proof. vm_compute. auto. Qed.
End CertdDemo.
