(* ===== verification/AuthDaemon.v ===== *)
(** * jw-authd: the authentication daemon (lib.rs) and its contract (auth.rs)

    A request carries a user name and a password; the answer is a subject with
    exactly one role, or a class of failure.  PAM and the user database are the
    environment. *)

From Stdlib Require Import Ascii String.
From S2P Require Import Prelude Crypto Contracts Plans CertContracts Files.

Definition USERNAME_MAX_BYTES : Z := 64.
Definition REQUEST_ID_MAX_BYTES : Z := 64.
Definition REMOTE_ADDRESS_MAX_BYTES : Z := 128.
Definition PLAN_HASH_MAX_BYTES : Z := 128.
Definition PASSWORD_MAX_BYTES : Z := 1024.

Definition PAM_SERVICE_NAME : string := "jw-agent".
Definition ADMIN_GROUP : string := "jw-agent-admin".
Definition OPERATOR_GROUP : string := "jw-agent-operator".
Definition VIEWER_GROUP : string := "jw-agent-viewer".

(** ** Requests *)

Inductive AuthPurpose :=
  | Login
  | StepUp (context_digest : string).

Record AuthRequest := {
  ar_protocol_version : Z;
  ar_request_id : string;
  ar_deadline_unix_ms : Z;
  ar_username : string;
  ar_password : string;
  ar_remote_address : option string;
  ar_purpose : AuthPurpose;
}.

Inductive AuthFailureClass := Denied | Unsupported | Unavailable | InvalidRequest.

Inductive AuthResult :=
  | Authenticated (subject : Subject) (account_validated_at : string)
  | Failed (class : AuthFailureClass).

Record AuthResponse := {
  as_protocol_version : Z;
  as_request_id : string;
  as_result : AuthResult;
}.

Definition validate_text (value : string) (minimum maximum : Z) (error : string) : vresult :=
  if (slen value <? minimum) || (maximum <? slen value) then Err error else Ok tt.

Definition validate_username (username : string) : vresult :=
  let? _ := validate_text username 1 USERNAME_MAX_BYTES "username" in
  if sany (fun b => byte_is 0 b || is_ascii_control b) username then Err "username_characters"%string else Ok tt.

Definition auth_request_validate (r : AuthRequest) (now_unix_ms : Z) : vresult :=
  let? _ := validate_text (ar_request_id r) 1 REQUEST_ID_MAX_BYTES "request_id" in
  let? _ := validate_username (ar_username r) in
  if (slen (ar_password r) =? 0) || (PASSWORD_MAX_BYTES <? slen (ar_password r)) then Err "password_length"%string
  else if ar_deadline_unix_ms r <=? now_unix_ms then Err "deadline_expired"%string
  else
    let? _ := match ar_remote_address r with
              | Some address => validate_text address 1 REMOTE_ADDRESS_MAX_BYTES "remote_address"
              | None => Ok tt
              end in
    match ar_purpose r with
    | StepUp context_digest => validate_text context_digest 1 PLAN_HASH_MAX_BYTES "context_digest"
    | Login => Ok tt
    end.

(** ** The daemon *)

Inductive PamError :=
  | AuthenticationFailed | AccountDenied | UnsupportedConversation | UnsupportedPlatform | InvalidInput | PamUnavailable.

Definition map_pam_error (e : PamError) : AuthFailureClass :=
  match e with
  | AuthenticationFailed | AccountDenied => Denied
  | UnsupportedConversation | UnsupportedPlatform => Unsupported
  | InvalidInput => InvalidRequest
  | PamUnavailable => Unavailable
  end.

Record UserEntry := { ue_uid : Z; ue_gid : Z }.

(** PAM and the user database: [Err tt] is a failed look-up. *)
Record Accounts := {
  ac_authenticate : string -> string -> string -> option string -> result PamError string;
  ac_user : string -> result unit (option UserEntry);
  ac_groups : string -> Z -> result unit (list Z);
  ac_group : string -> result unit (option Z);
  ac_now : option string;
}.

Section Auth.
Context (a : Accounts).

Definition ROLE_GROUPS : list (string * Role) := [(ADMIN_GROUP, Admin); (OPERATOR_GROUP, Operator); (VIEWER_GROUP, Viewer)].

(** The loop over the role groups. *)
Fixpoint select_role (groups : list Z) (candidates : list (string * Role)) (selected : option Role)
    : result AuthFailureClass (option Role) :=
  match candidates with
  | [] => Ok selected
  | (group_name, role) :: rest =>
      let? found := map_err (ac_group a group_name) (fun _ => Unavailable) in
      let? gid := ok_or found Denied in
      if bool_decide (gid ∈ groups) then
        if is_some selected then Err Denied else select_role groups rest (Some role)
      else select_role groups rest selected
  end.

Definition resolve_subject (username : string) : result AuthFailureClass Subject :=
  let? found := map_err (ac_user a username) (fun _ => Unavailable) in
  let? user := ok_or found Denied in
  if ue_uid user =? 0 then Err Denied
  else if sany (byte_is 0) username then Err InvalidRequest
  else
    let? groups := map_err (ac_groups a username (ue_gid user)) (fun _ => Unavailable) in
    let? selected := select_role groups ROLE_GROUPS None in
    match selected with
    | Some r => Ok {| uid := ue_uid user; username := username; role := r |}
    | None => Err Denied
    end.

Definition authenticate_validated (r : AuthRequest) : AuthResult :=
  match ac_authenticate a PAM_SERVICE_NAME (ar_username r) (ar_password r) (ar_remote_address r) with
  | Ok canonical_username =>
      match resolve_subject canonical_username with
      | Ok subject => match ac_now a with
                      | Some account_validated_at => Authenticated subject account_validated_at
                      | None => Failed Unavailable
                      end
      | Err class => Failed class
      end
  | Err error => Failed (map_pam_error error)
  end.

Definition authenticate_request (r : AuthRequest) (now_unix_ms : Z) : AuthResponse :=
  {| as_protocol_version := IPC_PROTOCOL_VERSION;
     as_request_id := ar_request_id r;
     as_result := if negb (ar_protocol_version r =? IPC_PROTOCOL_VERSION) || is_err (auth_request_validate r now_unix_ms)
                  then Failed InvalidRequest
                  else authenticate_validated r |}.

(** ** Who is authenticated *)

(** The roles whose group a user is a member of. *)
Definition member_roles (groups : list Z) (admin operator viewer : Z) : list Role :=
  (if bool_decide (admin ∈ groups) then [Admin] else []) ++
  (if bool_decide (operator ∈ groups) then [Operator] else []) ++
  (if bool_decide (viewer ∈ groups) then [Viewer] else []).

Lemma select_role_exact groups r :
  select_role groups ROLE_GROUPS None = Ok (Some r) <->
  exists admin operator viewer, ac_group a ADMIN_GROUP = Ok (Some admin) /\ ac_group a OPERATOR_GROUP = Ok (Some operator) /\
    ac_group a VIEWER_GROUP = Ok (Some viewer) /\ member_roles groups admin operator viewer = [r].
Proof.
  unfold ROLE_GROUPS, member_roles. cbn [select_role]. split.
  - destruct (ac_group a ADMIN_GROUP) as [[ga|]|]; try done. cbn [map_err ok_or].
    destruct (bool_decide (ga ∈ groups)) eqn:E1; cbn [is_some];
      (destruct (ac_group a OPERATOR_GROUP) as [[go|]|]; cbn [map_err ok_or]; try done);
      destruct (bool_decide (go ∈ groups)) eqn:E2; cbn [is_some]; try done;
      (destruct (ac_group a VIEWER_GROUP) as [[gv|]|]; cbn [map_err ok_or]; try done);
      destruct (bool_decide (gv ∈ groups)) eqn:E3; cbn [is_some]; try done;
      intros [= <-]; exists ga, go, gv; by rewrite E1, E2, E3.
  - intros (ga & go & gv & -> & -> & -> & Hm). cbn [map_err ok_or].
    destruct (bool_decide (ga ∈ groups)), (bool_decide (go ∈ groups)), (bool_decide (gv ∈ groups)); try done; cbn in Hm; by injection Hm as <-.
Qed.

(** C5: who is authenticated, and as what.  The daemon answers with a subject
    exactly for a valid, timely request of its protocol version whose password
    PAM accepted, when the canonical account is a user other than root that is
    a member of exactly one of the three role groups; the subject is that
    account with the role of that group. *)
Theorem authenticated_exact r now subject validated_at :
  as_result (authenticate_request r now) = Authenticated subject validated_at <->
  ar_protocol_version r = IPC_PROTOCOL_VERSION /\ auth_request_validate r now = Ok tt /\
  exists name user groups admin operator viewer,
    ac_authenticate a PAM_SERVICE_NAME (ar_username r) (ar_password r) (ar_remote_address r) = Ok name /\
    ac_user a name = Ok (Some user) /\ ue_uid user <> 0 /\ sany (byte_is 0) name = false /\
    ac_groups a name (ue_gid user) = Ok groups /\
    ac_group a ADMIN_GROUP = Ok (Some admin) /\ ac_group a OPERATOR_GROUP = Ok (Some operator) /\
    ac_group a VIEWER_GROUP = Ok (Some viewer) /\
    member_roles groups admin operator viewer = [role subject] /\
    subject = {| uid := ue_uid user; username := name; role := role subject |} /\ ac_now a = Some validated_at.
Proof.
  unfold authenticate_request. cbn [as_result]. split.
  - destruct (ar_protocol_version r =? IPC_PROTOCOL_VERSION) eqn:Ev; cbn [negb orb]; [|done]. bool_prop.
    destruct (auth_request_validate r now) as [[]|]; [|done]. cbn [is_err is_ok negb]. unfold authenticate_validated.
    destruct (ac_authenticate a _ _ _ _) as [name|e] eqn:Ea; [|done]. unfold resolve_subject.
    destruct (ac_user a name) as [[user|]|] eqn:Eu; cbn [map_err ok_or]; try done.
    destruct (ue_uid user =? 0) eqn:E0; bool_prop; [done|]. destruct (sany _ _) eqn:En; [done|].
    destruct (ac_groups a name (ue_gid user)) as [groups|] eqn:Eg; cbn [map_err]; [|done].
    destruct (select_role groups ROLE_GROUPS None) as [[ro|]|] eqn:Es; [|done..].
    destruct (ac_now a) as [t|]; [|done]. intros [= <- <-].
    apply select_role_exact in Es as (ga & go & gv & H1 & H2 & H3 & H4). split_and!; [done..|].
    exists name, user, groups, ga, go, gv. by split_and!.
  - intros (-> & -> & name & user & groups & ga & go & gv & Ha & Hu & H0 & Hn & Hg & H1 & H2 & H3 & H4 & Hsub & Ht).
    rewrite Z.eqb_refl. cbn [negb orb is_err is_ok]. unfold authenticate_validated, resolve_subject. rewrite Ha, Hu. cbn [map_err ok_or].
    rewrite (proj2 (Z.eqb_neq _ _) H0), Hn, Hg. cbn [map_err].
    rewrite (proj2 (select_role_exact groups (role subject))) by eauto 8. rewrite Ht. by rewrite <- Hsub.
Qed.
End Auth.

(** A member of two role groups is refused. *)
Example two_roles_denied :
  let accounts groups := {| ac_authenticate := fun _ u _ _ => Ok u; ac_user := fun _ => Ok (Some {| ue_uid := 1000; ue_gid := 1000 |});
                            ac_groups := fun _ _ => Ok groups;
                            ac_group := fun g => Ok (Some (if bool_decide (g = ADMIN_GROUP) then 1 else if bool_decide (g = OPERATOR_GROUP) then 2 else 3));
                            ac_now := Some "now"%string |} in
  let request := {| ar_protocol_version := 1; ar_request_id := "r"; ar_deadline_unix_ms := 10; ar_username := "kim";
                    ar_password := "p"; ar_remote_address := None; ar_purpose := Login |} in
  map (fun groups => as_result (authenticate_request (accounts groups) request 5)) [[1000; 2]; [1; 2]; [1000]] =
  [Authenticated {| uid := 1000; username := "kim"; role := Operator |} "now"; Failed Denied; Failed Denied].
Proof. vm_compute. reflexivity. Qed.
