(* ===== verification/Terminal.v ===== *)
(** * jw-agentd: terminals (terminal.rs, terminal_session.rs, openssh.rs)

    The broker of terminal tickets and active terminals, and the relay between
    a browser's web socket and the pseudo-terminal of a loopback SSH client.
    The SSH client, the pseudo-terminal, clocks and randomness are the
    environment; the operations of the broker are its locked sections. *)

From Stdlib Require Import Ascii String.
From S2P Require Import Prelude Crypto Contracts Text ConfigText Bytes WebStore Session Totp Claims.

Definition TERMINAL_TICKET_TTL_SECONDS : Z := 30.
Definition TERMINAL_MAX_FRAME_BYTES : Z := 16 * 1024.
Definition TERMINAL_MIN_ROWS : Z := 12.
Definition TERMINAL_MAX_ROWS : Z := 120.
Definition TERMINAL_MIN_COLS : Z := 40.
Definition TERMINAL_MAX_COLS : Z := 300.
Definition MAX_TERMINALS : nat := 8.
Definition SESSION_CHECK_INTERVAL_MS : Z := 30 * 1000.

Definition validate_terminal_size (rows cols : Z) : result string unit :=
  if negb ((TERMINAL_MIN_ROWS <=? rows) && (rows <=? TERMINAL_MAX_ROWS)) then Err "terminal_rows"%string
  else if negb ((TERMINAL_MIN_COLS <=? cols) && (cols <=? TERMINAL_MAX_COLS)) then Err "terminal_cols"%string
  else Ok tt.

(** ** The broker *)

Record TicketEntry := {
  tn_binding : string;
  tn_token : string;
  tn_subject : Subject;
  tn_ingress : IngressChannel;
  tn_origin : string;
  tn_password : string;
  tn_rows : Z;
  tn_cols : Z;
  tn_expires_at : Z;
}.

(** The cancellation channel of an active terminal is its last value. *)
Record ActiveEntry := {
  av_session_id : string;
  av_cancelled : bool;
}.

Record TerminalState := {
  ts_tickets : gmap string TicketEntry;
  ts_active : gmap string ActiveEntry;
}.

Record TerminalTicketIssue := {
  ti_session_token : string;
  ti_subject : Subject;
  ti_ingress : IngressChannel;
  ti_origin : string;
  ti_password : string;
  ti_rows : Z;
  ti_cols : Z;
  ti_now_unix_ms : Z;
}.

Record TerminalLease := {
  tl_binding : string;
  tl_token : string;
  tl_session_id : string;
  tl_subject : Subject;
  tl_ingress : IngressChannel;
  tl_password : option string;
  tl_rows : Z;
  tl_cols : Z;
}.

Inductive TerminalTicketError := TicketBusy | TicketExpired | TicketInvalid | TicketStorage.

Definition TeM (A : Type) : Type := M TerminalState TerminalTicketError A.

Definition upd_tickets (f : gmap string TicketEntry -> gmap string TicketEntry) (s : TerminalState) : TerminalState :=
  {| ts_tickets := f (ts_tickets s); ts_active := ts_active s |}.
Definition upd_active (f : gmap string ActiveEntry -> gmap string ActiveEntry) (s : TerminalState) : TerminalState :=
  {| ts_tickets := ts_tickets s; ts_active := f (ts_active s) |}.

Section Broker.
Context `{WC : WebCrypto}.

Definition terminal_binding (token : string) : string := digest_with_domain "jw-agent/terminal-session/v1" token.
Definition ticket_digest (token : string) : string := digest_with_domain "jw-agent/terminal-ticket/v1" token.

(** [cleanup_expired] at an instant, in milliseconds. *)
Definition drop_expired (instant : Z) (s : TerminalState) : TerminalState :=
  upd_tickets (filter (fun kv => instant < tn_expires_at kv.2)) s.

(** A web session holds at most one ticket or terminal. *)
Definition terminal_busy (binding : string) (s : TerminalState) : bool :=
  is_some (ts_active s !! binding)
  || existsb (fun t => bool_decide (tn_binding t = binding)) (map_to_list (ts_tickets s)).*2
  || (MAX_TERMINALS <=? size (ts_tickets s))%nat || (MAX_TERMINALS <=? size (ts_active s))%nat.

Definition terminal_token (random : option string) : option string :=
  match random with Some bytes => if slen bytes =? 32 then Some (web_base64url bytes) else None | None => None end.

Definition terminal_id (random : option string) : option string :=
  match random with Some bytes => if slen bytes =? 16 then Some (hex_of_bytes bytes) else None | None => None end.

(** The entry of a ticket issued at an instant. *)
Definition ticket_entry (instant : Z) (issue : TerminalTicketIssue) : TicketEntry :=
  {| tn_binding := terminal_binding (ti_session_token issue); tn_token := ti_session_token issue;
     tn_subject := ti_subject issue; tn_ingress := ti_ingress issue; tn_origin := ti_origin issue;
     tn_password := ti_password issue; tn_rows := ti_rows issue; tn_cols := ti_cols issue;
     tn_expires_at := instant + TERMINAL_TICKET_TTL_SECONDS * 1000 |}.

(** The ticket and the Unix time it expires at. *)
Definition issue_ticket (instant : Z) (random : option string) (issue : TerminalTicketIssue) : TeM (string * Z) := fun s =>
  let binding := terminal_binding (ti_session_token issue) in
  let s := drop_expired instant s in
  if terminal_busy binding s then (Err TicketBusy, s)
  else match terminal_token random with
       | None => (Err TicketStorage, s)
       | Some ticket =>
           (Ok (ticket, sat_add (ti_now_unix_ms issue) (TERMINAL_TICKET_TTL_SECONDS * 1000)),
            upd_tickets (<[ticket_digest ticket := ticket_entry instant issue]>) s)
       end.

(** The lease of a consumed ticket. *)
Definition lease_of (session_id : string) (entry : TicketEntry) : TerminalLease :=
  {| tl_binding := tn_binding entry; tl_token := tn_token entry; tl_session_id := session_id;
     tl_subject := tn_subject entry; tl_ingress := tn_ingress entry; tl_password := Some (tn_password entry);
     tl_rows := tn_rows entry; tl_cols := tn_cols entry |}.

Definition consume_ticket (instant : Z) (random : option string) (ticket session_token : string)
    (ingress : IngressChannel) (origin : string) : TeM TerminalLease := fun s =>
  if negb (valid_token_shape ticket) then (Err TicketInvalid, s)
  else
    let binding := terminal_binding session_token in
    match ts_tickets s !! ticket_digest ticket with
    | None => (Err TicketInvalid, drop_expired instant s)
    | Some entry =>
        let s := drop_expired instant (upd_tickets (delete (ticket_digest ticket)) s) in
        if tn_expires_at entry <=? instant then (Err TicketExpired, s)
        else if negb (bool_decide (tn_binding entry = binding)) || negb (bool_decide (tn_ingress entry = ingress))
                || negb (bool_decide (tn_origin entry = origin))
        then (Err TicketInvalid, s)
        else if is_some (ts_active s !! binding) || (MAX_TERMINALS <=? size (ts_active s))%nat
        then (Err TicketBusy, s)
        else match terminal_id random with
             | None => (Err TicketStorage, s)
             | Some id =>
                 (Ok (lease_of id entry),
                  upd_active (<[binding := {| av_session_id := id; av_cancelled := false |}]>) s)
             end
    end.

Definition cancel (e : ActiveEntry) : ActiveEntry := {| av_session_id := av_session_id e; av_cancelled := true |}.

Definition revoke_terminal (session_token : string) (s : TerminalState) : TerminalState :=
  let binding := terminal_binding session_token in
  upd_active (alter cancel binding) (upd_tickets (filter (fun kv => tn_binding kv.2 <> binding)) s).

Definition revoke_all_terminals (s : TerminalState) : TerminalState :=
  upd_active (fmap cancel) (upd_tickets (fun _ => ∅) s).

(** The task of [schedule_expiry] when its delay is over. *)
Definition expire_ticket (ticket : string) (s : TerminalState) : TerminalState :=
  upd_tickets (delete (ticket_digest ticket)) s.

(** [Drop] of a lease. *)
Definition drop_lease (l : TerminalLease) (s : TerminalState) : TerminalState :=
  if is_some_and (ts_active s !! tl_binding l) (fun e => bool_decide (av_session_id e = tl_session_id l))
  then upd_active (delete (tl_binding l)) s else s.

(** What a lease's receiver sees; a dropped sender counts as cancelled. *)
Definition cancelled (l : TerminalLease) (s : TerminalState) : bool :=
  match ts_active s !! tl_binding l with
  | Some e => if bool_decide (av_session_id e = tl_session_id l) then av_cancelled e else true
  | None => true
  end.

Definition take_password (l : TerminalLease) : result TerminalTicketError string * TerminalLease :=
  (ok_or (tl_password l) TicketInvalid,
   {| tl_binding := tl_binding l; tl_token := tl_token l; tl_session_id := tl_session_id l; tl_subject := tl_subject l;
      tl_ingress := tl_ingress l; tl_password := None; tl_rows := tl_rows l; tl_cols := tl_cols l |}).

(** ** The operations on a broker, in any order *)

Inductive TerminalOp :=
  | TIssue (instant : Z) (random : option string) (issue : TerminalTicketIssue)
  | TConsume (instant : Z) (random : option string) (ticket session_token : string) (ingress : IngressChannel)
      (origin : string)
  | TRevoke (session_token : string)
  | TRevokeAll
  | TExpire (ticket : string)
  | TDrop (l : TerminalLease).

Definition terminal_step (op : TerminalOp) (s : TerminalState) : TerminalState :=
  match op with
  | TIssue instant random issue => (issue_ticket instant random issue s).2
  | TConsume instant random ticket token ingress origin => (consume_ticket instant random ticket token ingress origin s).2
  | TRevoke token => revoke_terminal token s
  | TRevokeAll => revoke_all_terminals s
  | TExpire ticket => expire_ticket ticket s
  | TDrop l => drop_lease l s
  end.

Definition no_terminals : TerminalState := {| ts_tickets := ∅; ts_active := ∅ |}.
Definition terminal_run (ops : list TerminalOp) : TerminalState :=
  fold_left (fun s op => terminal_step op s) ops no_terminals.
End Broker.

(** ** The SSH client (openssh.rs) *)

Definition LOOPBACK_HOST : string := "127.0.0.1".
Definition LOOPBACK_HOST_ALIAS : string := "jw-agent-loopback".
Definition LOOPBACK_PORT : string := "22".

Definition COMMON_OPTIONS : list string :=
  ["BatchMode=no"; "NumberOfPasswordPrompts=1"; "PreferredAuthentications=password"; "PasswordAuthentication=yes";
   "PubkeyAuthentication=no"; "KbdInteractiveAuthentication=no"; "GSSAPIAuthentication=no"; "IdentitiesOnly=yes";
   "StrictHostKeyChecking=yes"].
Definition CONFINEMENT_OPTIONS : list string :=
  ["GlobalKnownHostsFile=/dev/null"; "CheckHostIP=no"; "ConnectTimeout=5"; "ConnectionAttempts=1";
   "ServerAliveInterval=15"; "ServerAliveCountMax=2"; "ClearAllForwardings=yes"; "ForwardAgent=no";
   "PermitLocalCommand=no"; "LocalCommand=none"; "ControlMaster=no"; "ControlPath=none"].

Inductive OpenSshMode := TerminalMode | SftpMode.

Definition append_options (options : list string) : list string := concat (map (fun o => ["-o"%string; o]) options).

Definition ssh_arguments (known_hosts username : string) (mode : OpenSshMode) : list string :=
  ["-F"; "/dev/null"]%string ++ append_options COMMON_OPTIONS
  ++ ["-o"%string; "UserKnownHostsFile=" +:+ known_hosts; "-o"%string; "HostKeyAlias=" +:+ LOOPBACK_HOST_ALIAS]
  ++ append_options CONFINEMENT_OPTIONS
  ++ match mode with
     | TerminalMode => append_options ["EscapeChar=none"; "LogLevel=ERROR"; "RequestTTY=force"]
     | SftpMode => append_options ["RequestTTY=no"; "LogLevel=ERROR"] ++ ["-s"%string]
     end
  ++ ["-p"%string; LOOPBACK_PORT; "-l"%string; username; LOOPBACK_HOST]
  ++ match mode with SftpMode => ["sftp"%string] | TerminalMode => [] end.

(** The environment of the client: [configure_askpass]. *)
Definition askpass_environment (askpass_executable fifo_path : string) (mode : OpenSshMode) : list (string * string) :=
  [("DISPLAY", "jw-agent:0"); ("LANG", "C.UTF-8"); ("SSH_ASKPASS", askpass_executable);
   ("SSH_ASKPASS_REQUIRE", "force"); ("JW_AGENT_ASKPASS_MODE", "1"); ("JW_AGENT_ASKPASS_FIFO", fifo_path)]%string
  ++ match mode with TerminalMode => [("TERM", "xterm-256color")%string] | SftpMode => [] end.

(** The paths of [AgentConfig] that terminals use. *)
Record TerminalPaths := {
  px_ssh : string;
  px_known_hosts : string;
  px_askpass : string;
  px_askpass_directory : string;
  px_stty : string;
  px_setsid : string;
}.

(** Program, arguments and environment of [ssh_command]. *)
Definition ssh_command (paths : TerminalPaths) (l : TerminalLease) (fifo_path : string)
    : string * list string * list (string * string) :=
  (px_setsid paths,
   ["--ctty"; "--wait"]%string ++ px_ssh paths :: ssh_arguments (px_known_hosts paths) (username (tl_subject l)) TerminalMode,
   askpass_environment (px_askpass paths) fifo_path TerminalMode).

(** ** The runtime a terminal needs *)

(** The bits [0o022], [0o077] and [0o111] of a mode. *)
Definition WRITE_BY_OTHERS : Z := 18.
Definition ANY_BY_OTHERS : Z := 63.
Definition EXECUTABLE : Z := 73.

Record PathMeta := { pm_file : bool; pm_dir : bool; pm_uid : Z; pm_mode : Z; pm_len : Z }.

(** [symlink_metadata] and [read_to_string] by path. *)
Record HostFiles := {
  hf_meta : string -> option PathMeta;
  hf_text : string -> option string;
}.

Definition validate_root_executable (h : HostFiles) (path : string) : bool :=
  match hf_meta h path with
  | None => false
  | Some m => pm_file m && (pm_uid m =? 0) && (Z.land (pm_mode m) WRITE_BY_OTHERS =? 0) && negb (Z.land (pm_mode m) EXECUTABLE =? 0)
  end.

Definition known_host_space (c : char) : bool :=
  match c with String a EmptyString => byte_is 9 a || byte_is 10 a || byte_is 12 a || byte_is 13 a || byte_is 32 a | _ => false end.
Definition known_host_fields (line : list char) : list string :=
  map text (List.filter (fun piece => negb (bool_decide (piece = []))) (split_by known_host_space line)).

Definition valid_known_host_line (line : list char) : bool :=
  let fields := known_host_fields line in
  is_some_and (fields !! 0%nat) (fun v => existsb (fun host => bool_decide (host = LOOPBACK_HOST_ALIAS)) (ssplit ","%char v))
  && is_some_and (fields !! 1%nat) (fun v => bool_decide (v ∈ ["ssh-ed25519"; "ecdsa-sha2-nistp256"; "ssh-rsa"]%string))
  && is_some_and (fields !! 2%nat) (fun v => negb (bool_decide (v = EmptyString)) && (slen v <=? 16 * 1024)).

Definition validate_known_hosts (h : HostFiles) (path : string) : bool :=
  match hf_meta h path with
  | None => false
  | Some m =>
      pm_file m && (pm_uid m =? 0) && (Z.land (pm_mode m) WRITE_BY_OTHERS =? 0) && negb (pm_len m =? 0)
      && (pm_len m <=? 64 * 1024)
      && is_some_and (hf_text h path) (fun content => existsb valid_known_host_line (lines_of content))
  end.

Definition validate_agent_directory (h : HostFiles) (path : string) : bool :=
  match hf_meta h path with
  | None => false
  | Some m => pm_dir m && negb (pm_uid m =? 0) && (Z.land (pm_mode m) ANY_BY_OTHERS =? 0)
  end.

Definition terminal_runtime_available (h : HostFiles) (paths : TerminalPaths) : result string unit :=
  if negb (validate_root_executable h (px_ssh paths)) then Err "openssh_client_unavailable"%string
  else if negb (validate_known_hosts h (px_known_hosts paths)) then Err "ssh_known_hosts_unavailable"%string
  else if negb (validate_root_executable h (px_askpass paths)) then Err "askpass_unavailable"%string
  else if negb (validate_root_executable h (px_stty paths)) then Err "stty_unavailable"%string
  else if negb (validate_root_executable h (px_setsid paths)) then Err "setsid_unavailable"%string
  else if negb (validate_agent_directory h (px_askpass_directory paths)) then Err "askpass_runtime_unavailable"%string
  else Ok tt.

(** ** Opening a terminal *)

Definition askpass_path (directory session_id : string) : result string string :=
  if negb (slen session_id =? 32) || negb (sall is_lower_hex session_id) then Err "terminal_session_id_invalid"%string
  else Ok (directory +:+ "/askpass-" +:+ session_id +:+ ".fifo").

(** A look at the SSH client. *)
Inductive ChildState := ChildRunning | ChildExited | ChildUnknown.

(** One turn of the waiting loop, made while the channel exists. *)
Record AuthPoll := { pl_child : ChildState; pl_deadline : bool }.

Fixpoint wait_for_ssh_authentication (polls : list AuthPoll) (settled : ChildState) : result string unit :=
  match polls with
  | [] => match settled with
          | ChildRunning => Ok tt
          | ChildExited => Err "openssh_authentication_failed"%string
          | ChildUnknown => Err "openssh_wait_failed"%string
          end
  | p :: rest =>
      match pl_child p with
      | ChildExited => Err "openssh_authentication_failed"%string
      | ChildUnknown => Err "openssh_wait_failed"%string
      | ChildRunning => if pl_deadline p then Err "openssh_authentication_timeout"%string
                        else wait_for_ssh_authentication rest settled
      end
  end.

(** The outcomes of the system calls of the preparation. *)
Record PrepareEnv := {
  pp_pty : bool;
  pp_nonblocking : bool;
  pp_mkfifo : bool;
  pp_open : bool;
  pp_write : bool;
  pp_command : bool;
  pp_spawn : bool;
  pp_polls : list AuthPoll;
  pp_settled : ChildState;
  pp_keeper : bool;
  pp_register : bool;
}.

(** The result, the lease and whether the password channel is left behind.
    When the authentication was seen, the client or the channel's keeper has
    removed the channel. *)
Definition prepare_terminal (directory : string) (e : PrepareEnv) (l : TerminalLease)
    : result string unit * TerminalLease * bool :=
  if negb (pp_pty e) then (Err "pty_unavailable"%string, l, false)
  else if negb (pp_nonblocking e) then (Err "pty_setup_failed"%string, l, false)
  else match askpass_path directory (tl_session_id l) with
  | Err reason => (Err reason, l, false)
  | Ok _ =>
      if negb (pp_mkfifo e) then (Err "askpass_channel_failed"%string, l, false)
      else if negb (pp_open e) then (Err "askpass_channel_failed"%string, l, false)
      else match take_password l with
      | (Err _, l) => (Err "credential_unavailable"%string, l, true)
      | (Ok _, l) =>
          if negb (pp_write e) then (Err "askpass_channel_failed"%string, l, false)
          else if negb (pp_command e) then (Err "pty_setup_failed"%string, l, false)
          else if negb (pp_spawn e) then (Err "openssh_client_unavailable"%string, l, false)
          else match wait_for_ssh_authentication (pp_polls e) (pp_settled e) with
          | Err reason => (Err reason, l, false)
          | Ok _ =>
              if negb (pp_keeper e) then (Err "askpass_channel_failed"%string, l, false)
              else if negb (pp_register e) then (Err "pty_registration_failed"%string, l, false)
              else (Ok tt, l, false)
          end
      end
  end.

(** ** The relay *)

Inductive TerminalClientMessage :=
  | Input (data : string)
  | Resize (rows cols : Z).

Inductive BrowserMessage :=
  | TextMessage (text : string)
  | BinaryMessage (data : string)
  | CloseMessage
  | PingPong.

Inductive InputEffect := EffectBytes (count : Z) | EffectControl | EffectClose.

(** What is done to the terminal and the browser. *)
Inductive RelayAction :=
  | ToTerminal (data : string)
  | Stty (arguments : list string)
  | ToBrowser (data : string)
  | PingBrowser.

(** How the calls end that a message leads to: the writes to the
    pseudo-terminal, in order ([None] is an error; when the list is over the
    pseudo-terminal no longer becomes writable), and the [stty] process. *)
Record Delivery := { dv_writes : list (option Z); dv_spawned : bool; dv_status : bool }.

(** A read of the pseudo-terminal; [ReadEio] is the error of a closed one. *)
Inductive PtyRead := ReadBytes (data : string) | ReadEio | ReadFailed.

(** What the relay waits for.  A tick carries the monotonic clock when it
    fires and when its session check is over. *)
Inductive RelayEvent :=
  | FromBrowser (m : BrowserMessage) (d : Delivery)
  | BrowserGone
  | FromTerminal (read : PtyRead) (sent : bool)
  | CancellationChanged (closed : bool)
  | RelayTick (instant checked : Z) (clock : option Z) (env : Env) (pinged : bool) (child : ChildState).

Record Relay := {
  rl_bytes_in : Z;
  rl_bytes_out : Z;
  rl_last_check : Z;
  rl_actions : list RelayAction;
  rl_store : Store;
}.

Definition act (a : RelayAction) (r : Relay) : Relay :=
  {| rl_bytes_in := rl_bytes_in r; rl_bytes_out := rl_bytes_out r; rl_last_check := rl_last_check r;
     rl_actions := rl_actions r ++ [a]; rl_store := rl_store r |}.
Definition count_in (n : Z) (r : Relay) : Relay :=
  {| rl_bytes_in := Z.min u64_max (rl_bytes_in r + n); rl_bytes_out := rl_bytes_out r;
     rl_last_check := rl_last_check r; rl_actions := rl_actions r; rl_store := rl_store r |}.
Definition count_out (n : Z) (r : Relay) : Relay :=
  {| rl_bytes_in := rl_bytes_in r; rl_bytes_out := Z.min u64_max (rl_bytes_out r + n);
     rl_last_check := rl_last_check r; rl_actions := rl_actions r; rl_store := rl_store r |}.
Definition checked_at (instant : Z) (r : Relay) : Relay :=
  {| rl_bytes_in := rl_bytes_in r; rl_bytes_out := rl_bytes_out r; rl_last_check := instant;
     rl_actions := rl_actions r; rl_store := rl_store r |}.
Definition at_store (s : Store) (r : Relay) : Relay :=
  {| rl_bytes_in := rl_bytes_in r; rl_bytes_out := rl_bytes_out r; rl_last_check := rl_last_check r;
     rl_actions := rl_actions r; rl_store := s |}.

(** The bytes that reach the pseudo-terminal, and whether all did.  A write
    returns at most the length it was given. *)
Fixpoint pty_write_all (writes : list (option Z)) (input : string) : string * bool :=
  match input with
  | EmptyString => (EmptyString, true)
  | _ =>
      match writes with
      | Some n :: rest =>
          if n <=? 0 then (EmptyString, false)
          else let (written, complete) := pty_write_all rest (sdrop (Z.to_nat n) input) in (stake (Z.to_nat n) input +:+ written, complete)
      | _ => (EmptyString, false)
      end
  end.

Definition stty_arguments (rows cols : Z) : list string := ["rows"%string; decimal rows; "cols"%string; decimal cols].

Section Relaying.
Context `{WC : WebCrypto}.
(** [serde_json::from_str::<TerminalClientMessage>]. *)
Context (parse_message : string -> option TerminalClientMessage).

Definition handle_browser_message (m : BrowserMessage) (d : Delivery) (r : Relay) : result string InputEffect * Relay :=
  match m with
  | TextMessage t =>
      if TERMINAL_MAX_FRAME_BYTES <? slen t then (Err "frame_limit_exceeded"%string, r)
      else match parse_message t with
           | None => (Err "invalid_terminal_message"%string, r)
           | Some (Input data) =>
               if TERMINAL_MAX_FRAME_BYTES <? slen data then (Err "input_limit_exceeded"%string, r)
               else
                 let (written, complete) := pty_write_all (dv_writes d) data in
                 let r := act (ToTerminal written) r in
                 if complete then (Ok (EffectBytes (slen data)), r) else (Err "pty_write_failed"%string, r)
           | Some (Resize rows cols) =>
               match validate_terminal_size rows cols with
               | Err e => (Err e, r)
               | Ok _ =>
                   if negb (dv_spawned d) then (Err "pty_resize_failed"%string, r)
                   else
                     let r := act (Stty (stty_arguments rows cols)) r in
                     if dv_status d then (Ok EffectControl, r) else (Err "pty_resize_failed"%string, r)
               end
           end
  | CloseMessage => (Ok EffectClose, r)
  | PingPong => (Ok EffectControl, r)
  | BinaryMessage _ => (Err "binary_input_rejected"%string, r)
  end.

(** The periodic check of the web session. *)
Definition check_session (l : TerminalLease) (checked : Z) (clock : option Z) (env : Env) (pinged : bool) (r : Relay)
    : option string * Relay :=
  match clock with
  | None => (Some "session_validation_failed"%string, r)
  | Some now =>
      let (answer, s) := authenticate_session env (tl_token l) (tl_ingress l) now (rl_store r) in
      let r := at_store s r in
      match answer with
      | Ok (Some view) =>
          if bool_decide (sv_subject view = tl_subject l) then
            if pinged then (None, checked_at checked (act PingBrowser r)) else (Some "browser_disconnected"%string, r)
          else (Some "session_revoked"%string, r)
      | Ok None => (Some "session_revoked"%string, r)
      | Err _ => (Some "session_validation_failed"%string, r)
      end
  end.

(** One turn: [Some reason] ends the relay. *)
Definition relay_turn (l : TerminalLease) (is_cancelled : bool) (e : RelayEvent) (r : Relay) : option string * Relay :=
  match e with
  | FromBrowser m d =>
      match handle_browser_message m d r with
      | (Ok (EffectBytes count), r) => (None, count_in count r)
      | (Ok EffectControl, r) => (None, r)
      | (Ok EffectClose, r) => (Some "browser_closed"%string, r)
      | (Err reason, r) => (Some reason, r)
      end
  | BrowserGone => (Some "browser_disconnected"%string, r)
  | FromTerminal ReadFailed _ => (Some "pty_read_failed"%string, r)
  | FromTerminal ReadEio _ => (Some "remote_closed"%string, r)
  | FromTerminal (ReadBytes data) sent =>
      let data := stake (Z.to_nat TERMINAL_MAX_FRAME_BYTES) data in
      if bool_decide (data = EmptyString) then (Some "remote_closed"%string, r)
      else
        let r := count_out (slen data) r in
        if sent then (None, act (ToBrowser data) r) else (Some "browser_disconnected"%string, r)
  | CancellationChanged closed => if closed || is_cancelled then (Some "session_revoked"%string, r) else (None, r)
  | RelayTick instant checked clock env pinged child =>
      let (stop, r) := if SESSION_CHECK_INTERVAL_MS <=? instant - rl_last_check r
                       then check_session l checked clock env pinged r else (None, r) in
      match stop with
      | Some reason => (Some reason, r)
      | None => match child with
                | ChildExited => (Some "remote_exit"%string, r)
                | ChildRunning => (None, r)
                | ChildUnknown => (Some "openssh_wait_failed"%string, r)
                end
      end
  end.

(** The events with the value of the cancellation channel at each; between
    two events others use the store. *)
Fixpoint relay_terminal (l : TerminalLease) (events : list (RelayEvent * bool * (Store -> Store))) (r : Relay)
    : option string * Relay :=
  match events with
  | [] => (None, r)
  | (e, is_cancelled, others) :: rest =>
      match relay_turn l is_cancelled e (at_store (others (rl_store r)) r) with
      | (Some reason, r) => (Some reason, r)
      | (None, r) => relay_terminal l rest r
      end
  end.

Definition close_code (reason : string) : Z :=
  if bool_decide (reason ∈ ["browser_closed"; "remote_exit"; "remote_closed"]%string) then 1000
  else if bool_decide (reason = "session_revoked"%string) then 4003
  else if bool_decide (reason ∈ ["idle_timeout"; "max_lifetime_reached"]%string) then 4008
  else if bool_decide (reason ∈ ["frame_limit_exceeded"; "input_limit_exceeded"; "binary_input_rejected"]%string) then 1009
  else 1011.

Record TerminalRunSummary := { tm_session_id : string; tm_reason : string; tm_bytes_in : Z; tm_bytes_out : Z }.

(** [greeted]: the ready message reached the browser.  A relay whose events
    run out is still running: it has no summary. *)
Definition run_terminal (directory : string) (started finished : option Z) (start_env finish_env : Env)
    (p : PrepareEnv) (greeted : bool) (opened_at : Z) (events : list (RelayEvent * bool * (Store -> Store))) (l : TerminalLease)
    (s : Store) : option TerminalRunSummary * Relay :=
  let (audit, s) := match started with
                    | Some now => record_terminal_start start_env (tl_session_id l) (tl_subject l) (tl_ingress l) now s
                    | None => (Err (SText "clock"), s)
                    end in
  let idle := {| rl_bytes_in := 0; rl_bytes_out := 0; rl_last_check := opened_at; rl_actions := []; rl_store := s |} in
  let (reason, r) :=
    if is_ok audit then
      match prepare_terminal directory p l with
      | (Err reason, _, _) => (Some reason, idle)
      | (Ok _, l, _) => if greeted then relay_terminal l events idle else (Some "browser_disconnected"%string, idle)
      end
    else (Some "audit_unavailable"%string, idle) in
  match reason with
  | None => (None, r)
  | Some reason =>
      let (_, s) := match is_ok audit, finished with
                    | true, Some now => record_terminal_finish finish_env (tl_session_id l) reason (rl_bytes_in r)
                                          (rl_bytes_out r) now (rl_store r)
                    | _, _ => (Ok tt, rl_store r)
                    end in
      (Some {| tm_session_id := tl_session_id l; tm_reason := reason; tm_bytes_in := rl_bytes_in r;
               tm_bytes_out := rl_bytes_out r |}, at_store s r)
  end.
End Relaying.
