(* ===== verification/TerminalProps.v ===== *)
(** * Terminals: tickets, bounds, and the end of a relay

    Theorems on the broker of Terminal.v over every sequence of its operations,
    and on a relay whose web session is revoked while it runs. *)

From Stdlib Require Import Ascii String.
From S2P Require Import Prelude Crypto Contracts Text ConfigText Bytes WebStore Session Totp Claims WebProofs WebReference WebProps BrokerProps Terminal.

Section Tickets.
Context `{WC : WebCrypto}.

(** An operation that leaves a ticket of a session alone. *)
Definition spares (digest binding : string) (op : TerminalOp) : Prop :=
  match op with
  | TConsume _ _ ticket _ _ _ => valid_token_shape ticket = true -> ticket_digest ticket <> digest
  | TRevoke token => terminal_binding token <> binding
  | TRevokeAll => False
  | TExpire ticket => ticket_digest ticket <> digest
  | TIssue _ _ _ | TDrop _ => True
  end.

Lemma issue_tickets instant random issue s d e :
  ts_tickets (issue_ticket instant random issue s).2 !! d = Some e ->
  ts_tickets s !! d = Some e
  \/ exists issued, (issue_ticket instant random issue s).1 = Ok issued /\ ticket_digest issued.1 = d
       /\ e = ticket_entry instant issue.
Proof.
  unfold issue_ticket. destruct (terminal_busy _ _); [|destruct (terminal_token random) as [ticket|]]; cbn.
  1,3: intros [H _]%map_lookup_filter_Some; by left.
  intros [[<- <-]|[_ H]]%lookup_insert_Some; [right; by eexists|].
  left. by apply map_lookup_filter_Some in H as [H _].
Qed.

Lemma consume_tickets instant random ticket token ingress origin s d e :
  ts_tickets (consume_ticket instant random ticket token ingress origin s).2 !! d = Some e ->
  ts_tickets s !! d = Some e /\ (valid_token_shape ticket = true -> ticket_digest ticket <> d).
Proof.
  unfold consume_ticket. destruct (valid_token_shape ticket); [|done]. cbn [negb].
  destruct (ts_tickets s !! ticket_digest ticket) as [x|] eqn:Hx.
  - assert (forall t, t = drop_expired instant (upd_tickets (delete (ticket_digest ticket)) s) ->
      ts_tickets t !! d = Some e -> ts_tickets s !! d = Some e /\ (true = true -> ticket_digest ticket <> d)) as Hgone.
    { intros t -> [H _]%map_lookup_filter_Some. cbn in H. by apply lookup_delete_Some in H as [Hne H]. }
    repeat (case_match; try exact (Hgone _ eq_refl)).
  - cbn. intros [H _]%map_lookup_filter_Some. split; [done|]. intros _ Heq. congruence.
Qed.

Lemma step_tickets op s d e :
  ts_tickets (terminal_step op s) !! d = Some e ->
  (ts_tickets s !! d = Some e /\ spares d (tn_binding e) op)
  \/ exists instant random issue issued, op = TIssue instant random issue
       /\ (issue_ticket instant random issue s).1 = Ok issued /\ ticket_digest issued.1 = d
       /\ e = ticket_entry instant issue.
Proof.
  destruct op as [instant random issue|instant random ticket token ingress origin|token| |ticket|l]; cbn.
  - intros [H|(issued & H1 & H2 & H3)]%issue_tickets; [by left|]. right. by repeat eexists.
  - intros H%consume_tickets. by left.
  - intros [H Hb]%map_lookup_filter_Some. left. split; [done|]. intros Heq. by apply Hb.
  - done.
  - intros [Hne H]%lookup_delete_Some. left. split; [done|congruence].
  - unfold drop_lease. case_match; by left.
Qed.

Lemma terminal_run_snoc ops op : terminal_run (ops ++ [op]) = terminal_step op (terminal_run ops).
Proof. unfold terminal_run. by rewrite fold_left_app. Qed.

(** Every ticket held has an issue in the history that nothing since undid. *)
Lemma ticket_issued ops d e :
  ts_tickets (terminal_run ops) !! d = Some e ->
  exists before instant random issue issued after,
    ops = before ++ TIssue instant random issue :: after
    /\ (issue_ticket instant random issue (terminal_run before)).1 = Ok issued
    /\ ticket_digest issued.1 = d /\ e = ticket_entry instant issue
    /\ Forall (spares d (tn_binding e)) after.
Proof.
  induction ops as [|op ops IH] using rev_ind; [done|]. rewrite terminal_run_snoc.
  intros [[H Hs]|(instant & random & issue & issued & -> & Hi & Hd & He)]%step_tickets.
  - destruct (IH H) as (before & instant & random & issue & issued & after & -> & Hi & Hd & He & Hf).
    exists before, instant, random, issue, issued, (after ++ [op]). rewrite <- app_assoc. cbn.
    repeat split; try done. apply Forall_app. split; [done|by constructor].
  - by exists ops, instant, random, issue, issued, [].
Qed.

Lemma consume_ok instant random ticket token ingress origin s lease s' :
  consume_ticket instant random ticket token ingress origin s = (Ok lease, s') ->
  exists entry id, valid_token_shape ticket = true /\ ts_tickets s !! ticket_digest ticket = Some entry
    /\ instant < tn_expires_at entry
    /\ tn_binding entry = terminal_binding token /\ tn_ingress entry = ingress /\ tn_origin entry = origin
    /\ ts_active s !! terminal_binding token = None /\ (size (ts_active s) < MAX_TERMINALS)%nat
    /\ terminal_id random = Some id /\ lease = lease_of id entry
    /\ s' = upd_active (<[terminal_binding token := {| av_session_id := id; av_cancelled := false |}]>)
              (drop_expired instant (upd_tickets (delete (ticket_digest ticket)) s)).
Proof.
  unfold consume_ticket. destruct (valid_token_shape ticket); [|done]. cbn [negb].
  destruct (ts_tickets s !! ticket_digest ticket) as [entry|] eqn:Hx; [|done].
  destruct (tn_expires_at entry <=? instant) eqn:Hexp; [done|].
  destruct (bool_decide (tn_binding entry = _)) eqn:Hb; [|done].
  destruct (bool_decide (tn_ingress entry = _)) eqn:Hi; [|done].
  destruct (bool_decide (tn_origin entry = _)) eqn:Ho; [|done]. cbn [negb orb].
  destruct (is_some _ || _) eqn:Hbusy; [done|]. destruct (terminal_id random) as [id|]; [|done].
  intros [= <- <-]. apply bool_decide_eq_true in Hb, Hi, Ho. apply orb_false_iff in Hbusy as [Ha Hn].
  cbn in Ha. exists entry, id. repeat split; try done; [lia| |].
  - by destruct (ts_active s !! terminal_binding token).
  - by apply Nat.leb_gt in Hn.
Qed.

(** C16: a terminal opens only on a ticket of its own.  In every history of the
    broker, a ticket that is accepted was issued earlier, less than thirty
    seconds before, for a session token of the same binding on the same ingress
    and origin, the lease carries that issue's subject, password and size, and
    since that issue the ticket was not presented, its session was not revoked
    and its expiry did not run: hence a ticket opens at most one terminal.  The
    same ticket presented again before another issue is refused. *)
Theorem terminal_ticket_single_use ops instant random ticket token ingress origin lease s' :
  consume_ticket instant random ticket token ingress origin (terminal_run ops) = (Ok lease, s') ->
  (exists before issued_at random' issue issued after id,
    ops = before ++ TIssue issued_at random' issue :: after
    /\ (issue_ticket issued_at random' issue (terminal_run before)).1 = Ok issued
    /\ ticket_digest issued.1 = ticket_digest ticket
    /\ terminal_binding (ti_session_token issue) = terminal_binding token
    /\ ti_ingress issue = ingress /\ ti_origin issue = origin
    /\ instant < issued_at + TERMINAL_TICKET_TTL_SECONDS * 1000
    /\ lease = lease_of id (ticket_entry issued_at issue)
    /\ Forall (spares (ticket_digest ticket) (terminal_binding token)) after)
  /\ forall instant2 random2 token2 ingress2 origin2,
       (consume_ticket instant2 random2 ticket token2 ingress2 origin2 s').1 = Err TicketInvalid.
Proof.
  intros (entry & id & Hshape & Hx & Hexp & Hb & Hi & Ho & _ & _ & _ & -> & ->)%consume_ok. split.
  - destruct (ticket_issued _ _ _ Hx) as (before & at_ & random' & issue & issued & after & Hops & Hok & Hd & -> & Hf).
    cbn in Hexp, Hb, Hi, Ho, Hf. rewrite Hb in Hf. by exists before, at_, random', issue, issued, after, id.
  - intros instant2 random2 token2 ingress2 origin2. unfold consume_ticket. rewrite Hshape. cbn [negb].
    replace (ts_tickets _ !! ticket_digest ticket) with (@None TicketEntry); [done|].
    symmetry. cbn. apply map_lookup_filter_None. left. apply lookup_delete_eq.
Qed.

(** ** Bounds *)

(** What a broker holds: at most eight tickets and eight terminals, one ticket
    or terminal for a web session. *)
Record terminal_ok (s : TerminalState) : Prop := {
  tk_tickets : (size (ts_tickets s) <= MAX_TERMINALS)%nat;
  tk_active : (size (ts_active s) <= MAX_TERMINALS)%nat;
  tk_single d1 d2 e1 e2 : ts_tickets s !! d1 = Some e1 -> ts_tickets s !! d2 = Some e2 ->
    tn_binding e1 = tn_binding e2 -> d1 = d2;
  tk_apart d e : ts_tickets s !! d = Some e -> ts_active s !! tn_binding e = None;
}.

(** Fewer tickets, and terminals of no new session. *)
Lemma terminal_ok_shrinks s s' :
  terminal_ok s -> ts_tickets s' ⊆ ts_tickets s -> dom (ts_active s') ⊆ dom (ts_active s) -> terminal_ok s'.
Proof.
  intros [Ht Ha H1 H2] Hsub Hdom.
  assert (forall d e, ts_tickets s' !! d = Some e -> ts_tickets s !! d = Some e) as Hold.
  { intros d e H. by eapply lookup_weaken. }
  constructor; [| |naive_solver|].
  - pose proof (map_subseteq_size _ _ Hsub). lia.
  - rewrite <- !size_dom in *. pose proof (subseteq_size _ _ Hdom). lia.
  - intros d e H. apply not_elem_of_dom. intros [y Hy]%Hdom%elem_of_dom. rewrite (H2 d e) in Hy; naive_solver.
Qed.

Lemma map_size_insert_le {A} (k : string) (x : A) (m : gmap string A) : (size (<[k := x]> m) <= S (size m))%nat.
Proof. rewrite map_size_insert. destruct (m !! k); cbn; lia. Qed.

Lemma drop_expired_sub instant s : ts_tickets (drop_expired instant s) ⊆ ts_tickets s.
Proof. apply map_filter_subseteq. Qed.

Lemma terminal_busy_false binding s :
  terminal_busy binding s = false ->
  ts_active s !! binding = None /\ (forall d e, ts_tickets s !! d = Some e -> tn_binding e <> binding)
  /\ (size (ts_tickets s) < MAX_TERMINALS)%nat.
Proof.
  unfold terminal_busy. rewrite !orb_false_iff. intros [[[Ha Hb] Hn] _]. repeat split.
  - by destruct (ts_active s !! binding).
  - intros d e H Heq. assert (existsb (fun t => bool_decide (tn_binding t = binding)) (map_to_list (ts_tickets s)).*2 = true) as Ht; [|congruence].
    apply existsb_exists. exists e. split; [|by apply bool_decide_eq_true].
    apply list_elem_of_In, list_elem_of_fmap. exists (d, e). split; [done|]. by apply elem_of_map_to_list.
  - by apply Nat.leb_gt in Hn.
Qed.

Lemma issue_ticket_ok instant random issue s : terminal_ok s -> terminal_ok (issue_ticket instant random issue s).2.
Proof.
  intros Hok. assert (terminal_ok (drop_expired instant s)) as Hd by (eapply terminal_ok_shrinks; [done|apply drop_expired_sub|done]).
  unfold issue_ticket. destruct (terminal_busy _ _) eqn:Hbusy; [done|].
  destruct (terminal_token random) as [ticket|]; [|done]. apply terminal_busy_false in Hbusy as (Ha & Hb & Hn).
  revert Hd Ha Hb Hn. generalize (drop_expired instant s). clear s Hok. intros s [Ht Hact H1 H2] Ha Hb Hn.
  constructor; cbn.
  - etrans; [apply map_size_insert_le|]. lia.
  - done.
  - intros d1 d2 e1 e2 [[<- <-]|[? Hl1]]%lookup_insert_Some [[<- <-]|[? Hl2]]%lookup_insert_Some Heq; [done| | |by eapply H1].
    + by destruct (Hb _ _ Hl2).
    + by destruct (Hb _ _ Hl1).
  - intros d e [[<- <-]|[? Hl]]%lookup_insert_Some; [done|by eapply H2].
Qed.

Lemma consume_ticket_ok instant random ticket token ingress origin s :
  terminal_ok s -> terminal_ok (consume_ticket instant random ticket token ingress origin s).2.
Proof.
  intros Hok. destruct (consume_ticket _ _ _ _ _ _ s) as [[lease|e] s'] eqn:Hc; cbn.
  - apply consume_ok in Hc as (entry & id & _ & Hx & _ & Hb & _ & _ & Ha & Hn & _ & _ & ->).
    assert (ts_tickets (drop_expired instant (upd_tickets (delete (ticket_digest ticket)) s)) ⊆ delete (ticket_digest ticket) (ts_tickets s)) as Hsub
      by apply drop_expired_sub.
    assert (terminal_ok (drop_expired instant (upd_tickets (delete (ticket_digest ticket)) s))) as [Ht _ H1 H2].
    { eapply terminal_ok_shrinks; [done| |done]. etrans; [apply Hsub|apply delete_subseteq]. }
    constructor; try done; [cbn; etrans; [apply map_size_insert_le|lia]|].
    intros d e H. cbn. apply lookup_insert_None. split; [by eapply H2|]. rewrite <- Hb. intros Heq.
    pose proof (lookup_weaken _ _ _ _ H Hsub) as [Hne Hl]%lookup_delete_Some.
    apply Hne. by eapply (tk_single s).
  - assert (ts_tickets s' ⊆ ts_tickets s /\ ts_active s' = ts_active s) as [Hsub Hact]; [|eapply terminal_ok_shrinks; [done|done|by rewrite Hact]].
    revert Hc. unfold consume_ticket. repeat case_match; intros [= <- <-]; (split; [|done]);
      first [done | apply drop_expired_sub | etrans; [apply drop_expired_sub|apply delete_subseteq]].
Qed.

(** In every history of the broker there are at most eight tickets and
    eight terminals, and a web session holds at most one of either: no two
    tickets are of one session and no ticket is of a session with a terminal. *)
Theorem terminals_bounded ops : terminal_ok (terminal_run ops).
Proof.
  induction ops as [|op ops IH] using rev_ind.
  - constructor; cbn; try done; rewrite map_size_empty; unfold MAX_TERMINALS; lia.
  - rewrite terminal_run_snoc. destruct op as [| |token| |ticket|l]; cbn [terminal_step].
    + by apply issue_ticket_ok.
    + by apply consume_ticket_ok.
    + eapply terminal_ok_shrinks; [done|apply map_filter_subseteq|]. cbn. by rewrite dom_alter.
    + eapply terminal_ok_shrinks; [done|apply map_empty_subseteq|]. cbn. by rewrite dom_fmap.
    + eapply terminal_ok_shrinks; [done|apply delete_subseteq|done].
    + unfold drop_lease. case_match; [|done]. eapply terminal_ok_shrinks; [done|done|]. cbn.
      apply subseteq_dom, delete_subseteq.
Qed.
End Tickets.

(** ** The end of a relay whose session is revoked *)

Section Relays.
Context `{WC : WebCrypto}.
Context (parse_message : string -> option TerminalClientMessage).

Lemma check_session_evolves l checked clock env pinged r :
  evolves (rl_store r) (rl_store (check_session l checked clock env pinged r).2).
Proof.
  unfold check_session. destruct clock as [now|]; [|reflexivity].
  pose proof (authenticate_evolves env (tl_token l) (tl_ingress l) now (rl_store r)) as He.
  destruct (authenticate_session _ _ _ _ _) as [answer s]. cbn in He. by repeat case_match.
Qed.

(** A check of a revoked session ends the relay and sends nothing. *)
Lemma check_revoked l checked clock env pinged r :
  revoked_at (session_digest (tl_token l)) (rl_store r) ->
  is_some (check_session l checked clock env pinged r).1 = true
  /\ rl_actions (check_session l checked clock env pinged r).2 = rl_actions r.
Proof.
  intros (row & Hrow & Hr). unfold check_session. destruct clock as [now|]; [|done].
  destruct (authenticate_session _ _ _ _ _) as [answer s] eqn:Ea. destruct answer as [[view|]|]; [|done|done].
  exfalso. destruct (authenticate_live env (tl_token l) (tl_ingress l) now (rl_store r) view) as (row' & Hrow' & Hn).
  { by rewrite Ea. }
  rewrite Hrow in Hrow'. injection Hrow' as <-. by destruct (se_revoked_at row).
Qed.

Lemma handle_message_keeps m d r :
  rl_store (handle_browser_message parse_message m d r).2 = rl_store r
  /\ rl_last_check (handle_browser_message parse_message m d r).2 = rl_last_check r.
Proof.
  destruct m as [t| | |]; try done. cbn. destruct (_ <? slen t); [done|].
  destruct (parse_message t) as [[data|rows cols]|]; [| |done].
  - destruct (_ <? slen data); [done|]. destruct (pty_write_all _ _) as [written []]; done.
  - destruct (validate_terminal_size rows cols); [|done]. destruct (dv_spawned d), (dv_status d); done.
Qed.

(** A turn keeps the time of the last check and the revocation, or ends. *)
Lemma turn_revoked l c e r :
  revoked_at (session_digest (tl_token l)) (rl_store r) ->
  let r' := (relay_turn parse_message l c e r).2 in
  revoked_at (session_digest (tl_token l)) (rl_store r')
  /\ ((relay_turn parse_message l c e r).1 = None -> rl_last_check r' = rl_last_check r).
Proof.
  intros Hrev. destruct e as [m d| |read sent|closed|instant checked clock env pinged child]; cbn [relay_turn].
  - destruct (handle_message_keeps m d r) as [Hs Hl].
    destruct (handle_browser_message parse_message m d r) as [[[]|] r']; cbn in *; rewrite Hs; (split; [exact Hrev|by intros]).
  - done.
  - by repeat case_match.
  - by case_match.
  - destruct (SESSION_CHECK_INTERVAL_MS <=? _); [|by destruct child].
    destruct (check_revoked l checked clock env pinged r Hrev) as [Hs _].
    pose proof (check_session_evolves l checked clock env pinged r) as He.
    destruct (check_session _ _ _ _ _ r) as [[reason|] r']; [|done]. cbn in *. split; [|done]. by eapply revoked_evolves.
Qed.

(** Once the web session is revoked, whatever others do to the store meanwhile,
    the relay is over at the first tick thirty seconds after its last check:
    that tick sends nothing and nothing after it is looked at. *)
Lemma relay_ends_after_revocation l early instant checked clock env pinged child c others rest r :
  revoked_at (session_digest (tl_token l)) (rl_store r) ->
  Forall (fun e => forall s, evolves s (e.2 s)) early -> (forall s, evolves s (others s)) ->
  rl_last_check r + SESSION_CHECK_INTERVAL_MS <= instant ->
  let tick := (RelayTick instant checked clock env pinged child, c, others) in
  is_some (relay_terminal parse_message l (early ++ tick :: rest) r).1 = true
  /\ relay_terminal parse_message l (early ++ tick :: rest) r = relay_terminal parse_message l (early ++ [tick]) r
  /\ rl_actions (relay_terminal parse_message l (early ++ [tick]) r).2 = rl_actions (relay_terminal parse_message l early r).2.
Proof.
  intros Hrev Hearly Hothers. revert r Hrev. induction Hearly as [|[[e c'] f] early Hf _ IH]; intros r Hrev Hdue.
  - cbn. replace (SESSION_CHECK_INTERVAL_MS <=? _) with true by (symmetry; apply Z.leb_le; cbn; lia).
    destruct (check_revoked l checked clock env pinged (at_store (others (rl_store r)) r)) as [Hs Ha].
    { cbn. eapply revoked_evolves; [apply Hothers|exact Hrev]. }
    destruct (check_session _ _ _ _ _ _) as [[reason|] r']; [|done]. by cbn in *.
  - cbn [app relay_terminal]. cbn in Hf.
    destruct (turn_revoked l c' e (at_store (f (rl_store r)) r)) as [Hrev' Hlast].
    { cbn. eapply revoked_evolves; [apply Hf|exact Hrev]. }
    destruct (relay_turn _ _ _ _ _) as [[reason|] r']; [done|]. cbn in *. apply IH; [done|].
    rewrite Hlast by done. done.
Qed.
End Relays.

Module TerminalWitness.
Import WebScenario.
#[local] Existing Instance reference_web.

Definition request : TerminalTicketIssue :=
  {| ti_session_token := session_token; ti_subject := admin; ti_ingress := RecoveryIngress;
     ti_origin := "http://127.0.0.1:8787"; ti_password := "secret"; ti_rows := 24; ti_cols := 80;
     ti_now_unix_ms := 120000 |}.
Definition opening : list TerminalOp := [TIssue 1000 (Some (bytes_of 7 32)) request].
Definition ticket : string := web_base64url (bytes_of 7 32).
Definition opened : result TerminalTicketError TerminalLease * TerminalState :=
  consume_ticket 20000 (Some (bytes_of 9 16)) ticket session_token RecoveryIngress "http://127.0.0.1:8787"
    (terminal_run opening).

Lemma lease_pair {A B} (p : A * B) (a : A) : p.1 = a -> p = (a, p.2).
Proof. intros <-. apply surjective_pairing. Qed.

Definition granted : TerminalLease := lease_of (hex_of_bytes (bytes_of 9 16)) (ticket_entry 1000 request).

(** A ticket opens one terminal; after it the same ticket is refused. *)
Lemma terminal_ticket_single_use_witness :
  is_ok opened.1 = true
  /\ (consume_ticket 20001 (Some (bytes_of 9 16)) ticket session_token RecoveryIngress "http://127.0.0.1:8787" opened.2).1
     = Err TicketInvalid.
Proof.
  split; [vm_compute; reflexivity|].
  destruct (terminal_ticket_single_use opening 20000 (Some (bytes_of 9 16)) ticket session_token RecoveryIngress
    "http://127.0.0.1:8787" _ opened.2 (lease_pair opened (Ok granted)
      ltac:(vm_compute; reflexivity))) as [_ H].
  apply H.
Defined.

Example ssh_confined :
  ssh_arguments "/etc/ssh/known" "kim" TerminalMode !! 0%nat = Some "-F"%string
  /\ last (ssh_arguments "/etc/ssh/known" "kim" TerminalMode) = Some LOOPBACK_HOST
  /\ last (ssh_arguments "/etc/ssh/known" "kim" SftpMode) = Some "sftp"%string.
Proof. split_and!; reflexivity. Qed.

Example known_hosts_lines :
  map valid_known_host_line (lines_of ("jw-agent-loopback ssh-ed25519 AAAA" +:+ s1 (chr 10) +:+ "other ssh-ed25519 AAAA"
    +:+ s1 (chr 10) +:+ "a,jw-agent-loopback ssh-dss AAAA")) = [true; false; false].
Proof. reflexivity. Qed.
End TerminalWitness.
