(* ===== verification/WebGate.v ===== *)
(** * jw-agentd: the boundary of the HTTP interface (api.rs, config.rs)

    What every request passes before its handler: host and origin, the session
    cookie, the CSRF token, the source address and the limits on
    authentication attempts; and the problems a handler answers with.  A header
    map is the list of its fields, names in lower case, in order. *)

From Stdlib Require Import Ascii String.
From S2P Require Import Prelude Crypto Contracts CertContracts Text ConfigText Bytes WebStore Session.

Definition AUTH_WINDOW_MS : Z := 60 * 1000.
Definition AUTH_GLOBAL_LIMIT : Z := 60.
Definition AUTH_SOURCE_LIMIT : Z := 20.
Definition AUTH_SUBJECT_LIMIT : Z := 6.
Definition AUTH_KEY_LIMIT : Z := 2048.

(** ** Problems *)

Record ApiProblem := { pb_status : Z; pb_code : string; pb_retry_after : option Z }.

Definition problem (status : Z) (code : string) : ApiProblem :=
  {| pb_status := status; pb_code := code; pb_retry_after := None |}.
Definition bad_request : string -> ApiProblem := problem 400.
Definition unauthorized : string -> ApiProblem := problem 401.
Definition forbidden : string -> ApiProblem := problem 403.
Definition conflict : string -> ApiProblem := problem 409.
Definition precondition_required : string -> ApiProblem := problem 428.
Definition unavailable : string -> ApiProblem := problem 503.
Definition internal : ApiProblem := problem 500 "internal_error".
Definition rate_limited (retry_after : Z) : ApiProblem :=
  {| pb_status := 429; pb_code := "authentication_rate_limited"; pb_retry_after := Some retry_after |}.

(** ** Configuration *)

Record ListenerConfig := {
  lc_recovery_origin : string;
  lc_public_host : option string;
  lc_auth_timeout_ms : Z;
}.

Definition expected_origin (cfg : ListenerConfig) (channel : IngressChannel) : string :=
  match channel with
  | PublicIngress => match lc_public_host cfg with Some host => "https://" +:+ host | None => EmptyString end
  | RecoveryIngress => lc_recovery_origin cfg
  end.

Definition expected_host (cfg : ListenerConfig) (channel : IngressChannel) : string :=
  match channel with
  | PublicIngress => default EmptyString (lc_public_host cfg)
  | RecoveryIngress => default (lc_recovery_origin cfg) (strip_prefix "http://" (lc_recovery_origin cfg))
  end.

Definition cookie_name (channel : IngressChannel) : string :=
  match channel with PublicIngress => "__Host-jw_session" | RecoveryIngress => "jw_recovery_session" end.
Definition forbidden_cookie_name (channel : IngressChannel) : string :=
  match channel with PublicIngress => "jw_recovery_session" | RecoveryIngress => "__Host-jw_session" end.

(** ** Headers *)

Definition Headers : Type := list (string * string).

(** [HeaderMap::get]: the first value of a field. *)
Fixpoint header (name : string) (h : Headers) : option string :=
  match h with
  | [] => None
  | (n, v) :: h' => if bool_decide (n = name) then Some v else header name h'
  end.

Definition header_all (name : string) (h : Headers) : list string :=
  (filter (fun nv => nv.1 = name) h).*2.

(** [HeaderValue::to_str]. *)
Definition visible_ascii (value : string) : bool := sall (fun b => in_range 32 126 b || byte_is 9 b) value.
Definition to_str (value : string) : option string := if visible_ascii value then Some value else None.
Definition header_str (name : string) (h : Headers) : option string := header name h ≫= to_str.

(** [HeaderValue::from_str]. *)
Definition header_value_ok (value : string) : bool :=
  sall (fun b => (in_range 32 255 b && negb (byte_is 127 b)) || byte_is 9 b) value.

(** ** The boundary of a request *)

Definition is_mutation (method : string) : bool := negb (bool_decide (method ∈ ["GET"; "HEAD"; "OPTIONS"]%string)).

Definition validate_request_boundary (cfg : ListenerConfig) (channel : IngressChannel) (method : string) (h : Headers)
    : result ApiProblem unit :=
  let expected_host := expected_host cfg channel in
  let? actual_host := ok_or (header_str "host" h) (bad_request "host_required") in
  if bool_decide (expected_host = EmptyString) || negb (bool_decide (actual_host = expected_host))
  then Err (bad_request "host_rejected")
  else if is_mutation method then
    let expected_origin := expected_origin cfg channel in
    let? actual_origin := ok_or (header_str "origin" h) (forbidden "origin_required") in
    if bool_decide (expected_origin = EmptyString) || negb (bool_decide (actual_origin = expected_origin))
    then Err (forbidden "origin_rejected") else Ok tt
  else Ok tt.

Definition require_exact_origin (cfg : ListenerConfig) (channel : IngressChannel) (h : Headers)
    : result ApiProblem string :=
  let? origin := ok_or (header_str "origin" h) (forbidden "origin_required") in
  if negb (bool_decide (origin = expected_origin cfg channel)) then Err (forbidden "origin_rejected") else Ok origin.

(** The cookies of a header, in order. *)
Fixpoint own_cookie (channel : IngressChannel) (items : list string) (own : option string)
    : result ApiProblem (option string) :=
  match items with
  | [] => Ok own
  | item :: rest =>
      match split_once_on 61 (trim_str item) with
      | None => own_cookie channel rest own
      | Some (name, value) =>
          if bool_decide (name = forbidden_cookie_name channel) then Err (unauthorized "ingress_session_mismatch")
          else if bool_decide (name = cookie_name channel) then
            if is_some own then Err (bad_request "duplicate_session_cookie")
            else own_cookie channel rest (Some value)
          else own_cookie channel rest own
      end
  end.

Definition session_cookie (channel : IngressChannel) (h : Headers) : result ApiProblem (option string) :=
  match header "cookie" h with
  | None => Ok None
  | Some value =>
      let? cookie_header := ok_or (to_str value) (bad_request "cookie_rejected") in
      own_cookie channel (ssplit ";"%char cookie_header) None
  end.

Definition cookie_secure (channel : IngressChannel) : string :=
  match channel with PublicIngress => "; Secure" | RecoveryIngress => EmptyString end.

(** The fields a response gains. *)
Definition set_session_cookie (channel : IngressChannel) (token : string) : result ApiProblem Headers :=
  let value := cookie_name channel +:+ "=" +:+ token +:+ "; Path=/; HttpOnly; SameSite=Strict" +:+ cookie_secure channel in
  if header_value_ok value then Ok [("set-cookie"%string, value)] else Err internal.

Definition clear_session_cookie (channel : IngressChannel) : result ApiProblem Headers :=
  let value := cookie_name channel +:+ "=; Path=/; HttpOnly; SameSite=Strict; Max-Age=0" +:+ cookie_secure channel in
  if header_value_ok value
  then Ok [("set-cookie"%string, value);
           ("clear-site-data"%string, s1 (chr 34) +:+ "cache" +:+ s1 (chr 34) +:+ ", " +:+ s1 (chr 34) +:+ "storage" +:+ s1 (chr 34))]
  else Err internal.

Definition CONTENT_SECURITY_POLICY : string :=
  "default-src 'self'; script-src 'self'; style-src 'self' 'unsafe-inline'; img-src 'self'; connect-src 'self'; base-uri 'none'; object-src 'none'; frame-ancestors 'none'; form-action 'self'".

(** [HeaderMap::insert]: the value of a field, in place of all others. *)
Definition set_header (name value : string) (h : Headers) : Headers :=
  filter (fun nv => nv.1 <> name) h ++ [(name, value)].

Definition apply_security_headers (channel : IngressChannel) (h : Headers) : Headers :=
  let h := set_header "cache-control" "no-store" h in
  let h := set_header "x-content-type-options" "nosniff" h in
  let h := set_header "referrer-policy" "no-referrer" h in
  let h := set_header "content-security-policy" CONTENT_SECURITY_POLICY h in
  let h := set_header "x-frame-options" "DENY" h in
  let h := set_header "permissions-policy" "camera=(), microphone=(), geolocation=()" h in
  if bool_decide (channel = PublicIngress) then set_header "strict-transport-security" "max-age=31536000" h else h.

(** ** [str::parse::<IpAddr>] *)

(** A decimal number of at most three digits without a leading zero, and a
    hexadecimal one of at most four digits, with what follows. *)
Fixpoint take_digits (is_digit : ascii -> bool) (s : string) : string * string :=
  match s with
  | String c s' => if is_digit c then let (d, r) := take_digits is_digit s' in (String c d, r) else (EmptyString, s)
  | EmptyString => (EmptyString, EmptyString)
  end.

Definition read_octet (s : string) : option string :=
  let (d, r) := take_digits is_ascii_digit s in
  if (slen d =? 0) || (3 <? slen d) then None
  else if (1 <? slen d) && is_some (strip_prefix "0" d) then None
  else match parse_unsigned 255 (chars d) with Some _ => Some r | None => None end.

Definition read_hextet (s : string) : option string :=
  let (d, r) := take_digits is_ascii_hexdigit s in
  if (slen d =? 0) || (4 <? slen d) then None else Some r.

Definition dotted_octet (s : string) : option string := strip_prefix "." s ≫= read_octet.
Definition read_ipv4 (s : string) : option string :=
  read_octet s ≫= fun r => dotted_octet r ≫= fun r => dotted_octet r ≫= dotted_octet.

(** [read_groups]: the groups read, whether an IPv4 address ended them, and
    what follows. *)
Fixpoint read_groups (limit i : nat) (s : string) : nat * bool * string :=
  let separated (p : string -> option string) := if (i =? 0)%nat then p s else strip_prefix ":" s ≫= p in
  match limit with
  | O => (i, false, s)
  | S limit' =>
      match (if (0 <? limit')%nat then separated read_ipv4 else None) with
      | Some r => (i + 2, true, r)%nat
      | None => match separated read_hextet with
                | Some r => read_groups limit' (S i) r
                | None => (i, false, s)
                end
      end
  end.

Definition read_ipv6 (s : string) : option string :=
  let '(head, head_ipv4, r) := read_groups 8 0 s in
  if (head =? 8)%nat then Some r
  else if head_ipv4 then None
  else match strip_prefix "::" r with
       | None => None
       | Some r => let '(_, _, r) := read_groups (8 - (head + 1)) 0 r in Some r
       end.

Definition parses_ip (s : string) : bool :=
  match read_ipv4 s with
  | Some r => bool_decide (r = EmptyString)
  | None => is_some_and (read_ipv6 s) (fun r => bool_decide (r = EmptyString))
  end.

Definition request_source (channel : IngressChannel) (h : Headers) : result ApiProblem string :=
  if bool_decide (channel = RecoveryIngress) then Ok "loopback"%string
  else
    let? source := ok_or (header_str "x-jw-client-address" h) (bad_request "trusted_client_address_required") in
    if (64 <? slen source) || negb (parses_ip source) then Err (bad_request "trusted_client_address_rejected")
    else Ok source.

(** ** The ticket of a web-socket request *)

Fixpoint scan_protocols (protocols : list string) (version_seen : bool) (ticket : option string)
    : result ApiProblem (bool * option string) :=
  match protocols with
  | [] => Ok (version_seen, ticket)
  | p :: rest =>
      let p := trim_str p in
      if bool_decide (p = "jw-terminal-v1"%string) then scan_protocols rest true ticket
      else match strip_prefix "ticket." p with
           | Some value => if is_some ticket then Err (bad_request "terminal_protocol_invalid")
                           else scan_protocols rest version_seen (Some value)
           | None => scan_protocols rest version_seen ticket
           end
  end.

Definition websocket_ticket (h : Headers) : result ApiProblem string :=
  let? protocols := ok_or (header_str "sec-websocket-protocol" h) (unauthorized "terminal_ticket_required") in
  if 256 <? slen protocols then Err (bad_request "terminal_protocol_invalid")
  else
    let? seen := scan_protocols (ssplit ","%char protocols) false None in
    if negb seen.1 then Err (bad_request "terminal_protocol_invalid")
    else ok_or seen.2 (unauthorized "terminal_ticket_required").

Definition secret_header (name : string) (h : Headers) : result ApiProblem string :=
  match header_all name h with
  | value :: more =>
      match to_str value with
      | Some value =>
          if bool_decide (value = EmptyString) || (128 <? slen value) then Err (unauthorized "file_upload_token_required")
          else if negb (bool_decide (more = [])) then Err (bad_request "file_upload_token_invalid")
          else Ok value
      | None => Err (unauthorized "file_upload_token_required")
      end
  | [] => Err (unauthorized "file_upload_token_required")
  end.

(** ** Limits on authentication attempts *)

Record Counter := { ct_started : Z; ct_attempts : Z }.

Record Limiter := {
  lm_global : option Counter;
  lm_sources : gmap string Counter;
  lm_subjects : gmap string Counter;
}.

Definition no_attempts : Limiter := {| lm_global := None; lm_sources := ∅; lm_subjects := ∅ |}.

(** [now.duration_since(started)], which is zero for a later start. *)
Definition age (now : Z) (c : Counter) : Z := Z.max 0 (now - ct_started c).

Definition cleanup_limiter (now : Z) (l : Limiter) : Limiter :=
  {| lm_global := match lm_global l with
                  | Some c => if AUTH_WINDOW_MS <=? age now c then None else Some c
                  | None => None
                  end;
     lm_sources := filter (fun kv => age now kv.2 < AUTH_WINDOW_MS) (lm_sources l);
     lm_subjects := filter (fun kv => age now kv.2 < AUTH_WINDOW_MS) (lm_subjects l) |}.

Definition remaining (now : Z) (c : Counter) : Z := Z.max 0 (AUTH_WINDOW_MS - age now c).

(** The counter of a slot after an attempt, and whether it is allowed. *)
Definition consume_counter (slot : option Counter) (limit now : Z) : result ApiProblem unit * Counter :=
  let c := default {| ct_started := now; ct_attempts := 0 |} slot in
  if limit <=? ct_attempts c then (Err (rate_limited (remaining now c)), c)
  else (Ok tt, {| ct_started := ct_started c; ct_attempts := Z.min u32_max (ct_attempts c + 1) |}).

Definition consume_map_counter (m : gmap string Counter) (key : string) (limit now : Z)
    : result ApiProblem unit * gmap string Counter :=
  let (r, c) := consume_counter (m !! key) limit now in (r, <[key := c]> m).

Section Limiting.
Context `{WC : WebCrypto}.

Definition limiter_consume (now : Z) (source username : string) (l : Limiter) : result ApiProblem unit * Limiter :=
  let subject := sha256 username in
  let l := cleanup_limiter now l in
  if (AUTH_KEY_LIMIT <=? Z.of_nat (size (lm_sources l))) && negb (is_some (lm_sources l !! source))
  then (Err (rate_limited AUTH_WINDOW_MS), l)
  else if (AUTH_KEY_LIMIT <=? Z.of_nat (size (lm_subjects l))) && negb (is_some (lm_subjects l !! subject))
  then (Err (rate_limited AUTH_WINDOW_MS), l)
  else
    let (r, g) := consume_counter (lm_global l) AUTH_GLOBAL_LIMIT now in
    let l := {| lm_global := Some g; lm_sources := lm_sources l; lm_subjects := lm_subjects l |} in
    match r with
    | Err p => (Err p, l)
    | Ok _ =>
        let (r, sources) := consume_map_counter (lm_sources l) source AUTH_SOURCE_LIMIT now in
        let l := {| lm_global := lm_global l; lm_sources := sources; lm_subjects := lm_subjects l |} in
        match r with
        | Err p => (Err p, l)
        | Ok _ =>
            let (r, subjects) := consume_map_counter (lm_subjects l) subject AUTH_SUBJECT_LIMIT now in
            (r, {| lm_global := lm_global l; lm_sources := lm_sources l; lm_subjects := subjects |})
        end
    end.

Definition require_csrf (h : Headers) (session_token : string) : result ApiProblem unit :=
  let? provided := ok_or (header_str "x-csrf-token" h) (forbidden "csrf_required") in
  if csrf_matches session_token provided then Ok tt else Err (forbidden "csrf_rejected").
End Limiting.

Example addresses_parsed :
  map parses_ip ["203.0.113.5"; "::1"; "2001:db8::ff00:42:8329"; "::ffff:192.0.2.1"; "1:2:3:4:5:6:7:8"; "1:2:3:4:5:6:1.2.3.4"]%string
    = [true; true; true; true; true; true]
  /\ map parses_ip ["256.0.0.1"; "01.2.3.4"; "1.2.3"; "1:2:3:4:5:6:7"; "::1%eth0"; "12345::"; "1::2::3"; ""]%string
    = [false; false; false; false; false; false; false; false].
Proof. split; reflexivity. Qed.
