(* ===== verification/WebApi.v ===== *)
(** * jw-agentd: the handlers of the HTTP interface (api.rs, api/)

    Each handler takes the fields of its request and what its calls of the
    environment meet, and changes the state the listeners share: the session
    store and the file broker, the terminal broker and the attempt limits.
    While a handler waits for the authentication daemon other handlers run:
    their effect is a parameter.  A file request runs its sections in one go
    here; how the sections of several requests interleave is the subject of
    BrokerSteps.v.  The requests sent to the operations daemon
    are kept in the order they are sent. *)

From Stdlib Require Import Ascii String.
From S2P Require Import Prelude Crypto Contracts Plans CertContracts Text ConfigText Bytes Loops Files Sftp Ledger WebStore Session Totp Claims FileBroker AuthDaemon Terminal WebGate.

(** ** Requests *)

Record LoginRequest := { lr_username : string; lr_password : string }.

Record TerminalTicketRequest := {
  tq_password : string;
  tq_additional_auth_code : option string;
  tq_rows : Z;
  tq_cols : Z;
  tq_risk_confirmed : bool;
}.

(** The checks on a password and a code that requests share. *)
Definition password_validate (password : string) : vresult :=
  if (slen password =? 0) || (PASSWORD_MAX_BYTES <? slen password) then Err "password_length"%string
  else if sany (fun b => byte_is 0 b || byte_is 10 b || byte_is 13 b) password then Err "password_characters"%string
  else Ok tt.
Definition code_validate (code : option string) : vresult :=
  match code with
  | Some c => if validate_totp_code c then Ok tt else Err "additional_authentication_rejected"%string
  | None => Ok tt
  end.

Definition terminal_request_validate (r : TerminalTicketRequest) : vresult :=
  let? _ := password_validate (tq_password r) in
  let? _ := validate_terminal_size (tq_rows r) (tq_cols r) in
  check tq_risk_confirmed r else "terminal_risk_confirmation_required"%string in
  code_validate (tq_additional_auth_code r).

(** Approvals: those of a certificate operation carry two confirmations. *)
Record CertbotIssueApprovalRequest := {
  ci_approval : OperationApprovalRequest;
  ci_external_effect_confirmed : bool;
  ci_local_attach_deferred_confirmed : bool;
}.
Record CertbotAttachApprovalRequest := {
  cx_approval : OperationApprovalRequest;
  cx_config_replace_confirmed : bool;
  cx_service_reload_confirmed : bool;
}.
Record CertbotRenewTestApprovalRequest := {
  cr_approval : OperationApprovalRequest;
  cr_external_effect_confirmed : bool;
}.
Record AdministrativeOperationApprovalRequest := {
  ao_schema_version : Z;
  ao_plan_id : string;
  ao_plan_hash : string;
  ao_idempotency_key : string;
}.
Record UfwRuleApprovalRequest := {
  ux_schema_version : Z;
  ux_plan_id : string;
  ux_plan_hash : string;
  ux_idempotency_key : string;
  ux_impact_confirmed : bool;
}.

Definition issue_approval_validate_shape (r : CertbotIssueApprovalRequest) : vresult :=
  let? _ := operation_approval_validate_shape (ci_approval r) in
  check ci_external_effect_confirmed r else "external_effect_confirmation"%string in
  check ci_local_attach_deferred_confirmed r else "local_attach_deferred_confirmation"%string in Ok tt.

Definition attach_approval_validate_shape (r : CertbotAttachApprovalRequest) : vresult :=
  let? _ := operation_approval_validate_shape (cx_approval r) in
  check cx_config_replace_confirmed r else "config_replace_confirmation"%string in
  check cx_service_reload_confirmed r else "service_reload_confirmation"%string in Ok tt.

Definition renew_approval_validate_shape (r : CertbotRenewTestApprovalRequest) : vresult :=
  let? _ := operation_approval_validate_shape (cr_approval r) in
  check cr_external_effect_confirmed r else "external_effect_confirmation"%string in Ok tt.

Definition administrative_approval_validate_shape (r : AdministrativeOperationApprovalRequest) : vresult :=
  check ao_schema_version r =? OPERATION_SCHEMA_VERSION else "schema_version"%string in
  let? _ := validate_ascii_range (ao_plan_id r) 1 PLAN_ID_MAX_BYTES "plan_id" in
  let? _ := validate_digest (ao_plan_hash r) in
  validate_idempotency_key (ao_idempotency_key r).

Definition ufw_approval_validate (r : UfwRuleApprovalRequest) : vresult :=
  check negb (negb (ux_schema_version r =? OPERATION_SCHEMA_VERSION) || negb (ux_impact_confirmed r))
    else "approval"%string in
  let? _ := validate_ascii_range (ux_plan_id r) 1 PLAN_ID_MAX_BYTES "plan_id" in
  let? _ := validate_digest (ux_plan_hash r) in
  validate_idempotency_key (ux_idempotency_key r).

(** ** What is sent to the operations daemon *)

Inductive Approval :=
  | ApproveIssue (external_effect local_attach_deferred : bool)
  | ApproveAttach (config_replace service_reload : bool)
  | ApproveRenewTest (external_effect : bool)
  | ApproveNginxSiteState
  | ApproveManagedConfig (intent : ManagedConfigApprovalIntent)
  | ApproveServiceControl
  | ApproveUfwRule.

Inductive OpsCall :=
  | OpsApprove (a : Approval) (actor : Subject) (plan_id plan_hash idempotency_key : string)
  | OpsExecute (actor : Subject) (operation_id : string).

Inductive OpsBrokerError := OpsUnavailable | OpsTimeout | OpsInvalidResponse | OpsRejected (code : string).

Record OperationAcceptedView := {
  av_schema_version : Z;
  av_operation_type : string;
  av_operation_id : string;
  av_plan_id : string;
  av_plan_hash : string;
  av_actor : Subject;
  av_current_stage : OperationStage;
  av_event_stream : string;
}.

(** ** Errors as problems *)

Definition auth_failure (class : AuthFailureClass) : ApiProblem :=
  match class with
  | Denied | InvalidRequest => unauthorized "invalid_credentials"
  | Unsupported | Unavailable => WebGate.unavailable "authentication_unavailable"
  end.

Definition map_policy_error (e : PolicyUpdateError) : ApiProblem :=
  match e with
  | PolicyDenied => forbidden "role_denied"
  | PolicyReauthRequired => precondition_required "reauthentication_required"
  | PolicyInvalidReauth => forbidden "reauthentication_rejected"
  | PolicyProviderUnavailable => precondition_required "additional_authentication_unavailable"
  | PolicyStorage _ => internal
  end.

Definition map_operation_claim_error (e : OperationClaimError) : ApiProblem :=
  match e with
  | ClaimInvalid => forbidden "reauthentication_rejected"
  | ClaimInvalidAdditional => forbidden "additional_authentication_rejected"
  | ClaimStorage => internal
  end.

Definition map_totp_error (e : TotpError) : ApiProblem :=
  match e with
  | TDenied => forbidden "additional_authentication_denied"
  | TAlreadyConfigured => conflict "additional_authentication_already_configured"
  | TNotConfigured | TInvalidClaim | TInvalidCode | TReplay | TClockRollback | TEnrollmentExpired =>
      forbidden "additional_authentication_rejected"
  | TKeyUnavailable => WebGate.unavailable "additional_authentication_unavailable"
  | TStorage => internal
  end.

Definition map_terminal_ticket_error (e : TerminalTicketError) : ApiProblem :=
  match e with
  | TicketBusy => conflict "terminal_busy"
  | TicketExpired => unauthorized "terminal_ticket_expired"
  | TicketInvalid => unauthorized "terminal_ticket_rejected"
  | TicketStorage => internal
  end.

Definition map_ops_error (e : OpsBrokerError) : ApiProblem :=
  match e with
  | OpsUnavailable | OpsTimeout | OpsInvalidResponse => WebGate.unavailable "operation_service_unavailable"
  | OpsRejected code =>
      if bool_decide (code ∈ ["role_denied"; "protected_resource"; "protected_content"; "operation_access_denied"]%string)
      then forbidden code
      else if bool_decide (code = "forensic_lockdown"%string) then problem 423 code
      else if bool_decide (code ∈ ["site_missing"; "resource_missing"; "plan_missing"; "operation_missing"]%string)
      then problem 404 code
      else if bool_decide (code ∈ ["schema_version"; "operation_type"; "site_id"; "digest"; "idempotency_key"; "plan_id";
                                   "plan_hash"; "operation_id"; "resource_id"; "size_limit"; "invalid_encoding";
                                   "unsupported_service_action"; "approval_intent"; "external_effect_confirmation"]%string)
      then bad_request code
      else conflict code
  end.

Definition map_file_session_error (e : FileSessionError) : ApiProblem :=
  match e with
  | FileBusy => conflict "file_session_busy"
  | FileExpired => unauthorized "file_session_expired"
  | FileInvalid => unauthorized "file_session_rejected"
  | FileStorage => WebGate.unavailable "file_audit_unavailable"
  | FileConnection reason =>
      if bool_decide (reason = "openssh_authentication_failed"%string) then unauthorized reason
      else if bool_decide (reason = "openssh_authentication_timeout"%string) then problem 504 reason
      else WebGate.unavailable reason
  | FileOperation reason =>
      if bool_decide (reason ∈ ["path_invalid"; "not_directory"; "not_regular_file"; "binary_text"; "sftp_unsafe_name";
                                "upload_path_invalid"; "upload_plan_invalid"; "upload_digest_invalid";
                                "upload_length_invalid"; "upload_length_mismatch"; "upload_digest_mismatch";
                                "upload_content_type"]%string)
      then bad_request reason
      else if bool_decide (reason ∈ ["path_outside_home"; "permission_denied"; "target_symlink_denied"]%string)
      then forbidden reason
      else if bool_decide (reason = "not_found"%string) then problem 404 reason
      else if bool_decide (reason ∈ ["text_too_large"; "download_too_large"; "sftp_list_limit_exceeded";
                                     "upload_too_large"; "upload_target_too_large"]%string)
      then problem 413 reason
      else if bool_decide (reason = "sftp_timeout"%string) then problem 504 reason
      else if bool_decide (reason ∈ ["overwrite_confirmation_required"; "target_changed"; "target_type_unsupported";
                                     "target_metadata_incomplete"; "sftp_write_extension_unavailable";
                                     "temporary_cleanup_failed"; "manual_recovery_required"]%string)
      then conflict reason
      else problem 502 reason
  end.

(** ** The shared state *)

Record Limiters := { lx_auth : Limiter; lx_administrative : Limiter; lx_totp : Limiter }.
Inductive LimiterKind := AuthLimiter | AdministrativeLimiter | TotpLimiter.

Definition limiter_of (k : LimiterKind) (l : Limiters) : Limiter :=
  match k with AuthLimiter => lx_auth l | AdministrativeLimiter => lx_administrative l | TotpLimiter => lx_totp l end.
Definition set_limiter (k : LimiterKind) (x : Limiter) (l : Limiters) : Limiters :=
  match k with
  | AuthLimiter => {| lx_auth := x; lx_administrative := lx_administrative l; lx_totp := lx_totp l |}
  | AdministrativeLimiter => {| lx_auth := lx_auth l; lx_administrative := x; lx_totp := lx_totp l |}
  | TotpLimiter => {| lx_auth := lx_auth l; lx_administrative := lx_administrative l; lx_totp := x |}
  end.

Section Api.
Context `{PE : Peer} `{UN : Unicode} `{WC : WebCrypto}.
Context (cfg : ListenerConfig) (paths : TerminalPaths).

(** The two listeners share everything but their limits. *)
Record Api := {
  ap_broker : Broker;
  ap_terminal : TerminalState;
  ap_public : Limiters;
  ap_recovery : Limiters;
  ap_ops : list OpsCall;
}.

Definition ap_store (a : Api) : Store := br_store (ap_broker a).

Definition limiters (channel : IngressChannel) (a : Api) : Limiters :=
  match channel with PublicIngress => ap_public a | RecoveryIngress => ap_recovery a end.

Definition upd_broker (f : Broker -> Broker) (a : Api) : Api :=
  {| ap_broker := f (ap_broker a); ap_terminal := ap_terminal a; ap_public := ap_public a;
     ap_recovery := ap_recovery a; ap_ops := ap_ops a |}.
Definition upd_terminal (f : TerminalState -> TerminalState) (a : Api) : Api :=
  {| ap_broker := ap_broker a; ap_terminal := f (ap_terminal a); ap_public := ap_public a;
     ap_recovery := ap_recovery a; ap_ops := ap_ops a |}.
Definition upd_limiters (channel : IngressChannel) (f : Limiters -> Limiters) (a : Api) : Api :=
  match channel with
  | PublicIngress => {| ap_broker := ap_broker a; ap_terminal := ap_terminal a; ap_public := f (ap_public a);
                        ap_recovery := ap_recovery a; ap_ops := ap_ops a |}
  | RecoveryIngress => {| ap_broker := ap_broker a; ap_terminal := ap_terminal a; ap_public := ap_public a;
                          ap_recovery := f (ap_recovery a); ap_ops := ap_ops a |}
  end.
Definition send_ops (c : OpsCall) (a : Api) : Api :=
  {| ap_broker := ap_broker a; ap_terminal := ap_terminal a; ap_public := ap_public a;
     ap_recovery := ap_recovery a; ap_ops := ap_ops a ++ [c] |}.

(** What the calls of one request meet: the clocks, the numbered calls of the
    store, random numbers, the authentication daemon, the other handlers that
    run while it is awaited, the calls of the file broker, the programs of the
    host, the key file and the operations daemon. *)
Record ApiCall := {
  ac_now : option Z;
  ac_instant : Z;
  ac_env : nat -> Env;
  ac_request_id : option string;
  ac_random : option string;
  ac_auth : AuthRequest -> option AuthResponse;
  ac_others : Api -> Api;
  ac_ticks : string -> Tick;
  ac_calls : Calls;
  ac_last : Calls;
  ac_connect : Connect;
  ac_host : HostFiles;
  ac_key : KeyIo;
  ac_ops : OpsCall -> result OpsBrokerError OperationReceiptView;
}.

Definition AM (A : Type) : Type := M Api ApiProblem A.

Definition web_call {E A} (m : M Web E A) (f : E -> ApiProblem) : AM A := fun a =>
  let (r, w) := m (br_web (ap_broker a)) in (map_err r f, upd_broker (with_web w) a).
Definition store_op {E A} (m : M Store E A) (f : E -> ApiProblem) : AM A := web_call (on_store m) f.
Definition file_call {A} (m : BM A) : AM A := fun a =>
  let (r, b) := m (ap_broker a) in (map_err r map_file_session_error, upd_broker (fun _ => b) a).
Definition terminal_call {A} (m : TeM A) : AM A := fun a =>
  let (r, t) := m (ap_terminal a) in (map_err r map_terminal_ticket_error, upd_terminal (fun _ => t) a).

Definition rejected {A} (r : result string A) : AM A := mlift (map_err r bad_request).

Section Handlers.
Context (channel : IngressChannel) (call : ApiCall) (h : Headers).

Definition clock : AM Z := mlift (ok_or (ac_now call) internal).

Definition current_session (now : Z) : AM (string * SessionView) :=
  let! cookie := mlift (session_cookie channel h) in
  let! token := mlift (ok_or cookie (unauthorized "authentication_required")) in
  let! view := store_op (authenticate_session (ac_env call 0) token channel now) (fun _ => internal) in
  let! view := mlift (ok_or view (unauthorized "authentication_required")) in
  mret (token, view).

(** The session of a request that changes something. *)
Definition protected_session (now : Z) : AM (string * SessionView) :=
  let! current := current_session now in
  let! _ := mlift (require_csrf h current.1) in
  mret current.

Definition attempt (k : LimiterKind) (source username : string) : AM unit := fun a =>
  let (r, l) := limiter_consume (ac_instant call) source username (limiter_of k (limiters channel a)) in
  (r, upd_limiters channel (set_limiter k l) a).

Definition deadline (now : Z) : Z := sat_add now (Z.min i64_max (lc_auth_timeout_ms cfg)).

(** An attempt counted against the limits, and the answer of the daemon:
    [random_identifier], the request, [validate_auth_response] and the
    failures. *)
Definition auth_answer (k : LimiterKind) (now : Z) (source username password : string) (purpose : AuthPurpose)
    : AM AuthResult :=
  let! _ := attempt k source username in
  let! request_id := mlift (ok_or (terminal_id (ac_request_id call)) internal) in
  let request :=
    {| ar_protocol_version := IPC_PROTOCOL_VERSION; ar_request_id := request_id; ar_deadline_unix_ms := deadline now;
       ar_username := username; ar_password := password; ar_remote_address := Some source; ar_purpose := purpose |} in
  let! _ := mupd (ac_others call) in
  let! response := mlift (ok_or (ac_auth call request) (WebGate.unavailable "authentication_unavailable")) in
  if negb (as_protocol_version response =? IPC_PROTOCOL_VERSION) || negb (bool_decide (as_request_id response = request_id))
  then mfail (WebGate.unavailable "authentication_invalid_response")
  else mret (as_result response).

Definition authenticated (k : LimiterKind) (now : Z) (source username password : string) (purpose : AuthPurpose)
    : AM Subject :=
  let! result := auth_answer k now source username password purpose in
  match result with
  | Authenticated subject _ => mret subject
  | Failed class => mfail (auth_failure class)
  end.

(** The terminals and file sessions of a session token. *)
Definition revoke_attached (token : string) : AM unit :=
  mupd (fun a => upd_broker (revoke_file_session (ac_ticks call) token) (upd_terminal (revoke_terminal token) a)).

(** A rotation of the session: the new one is revoked when the old one cannot
    be. *)
Definition replace_session (old new : string) (now : Z) : AM unit :=
  let! _ := revoke_attached old in
  try! revoked := store_op (revoke_session (ac_env call 2) old now) (fun _ => internal) in
  match revoked with
  | Ok _ => mret tt
  | Err _ =>
      try! _ := store_op (revoke_session (ac_env call 3) new now) (fun _ => internal) in
      mfail internal
  end.

(** ** Sessions *)

Definition login (input : LoginRequest) : AM (SessionView * Headers) :=
  let! prior := mlift (session_cookie channel h) in
  let! now := clock in
  let! source := mlift (request_source channel h) in
  let! subject := authenticated AuthLimiter now source (lr_username input) (lr_password input) Login in
  let! issued := store_op (issue_session (ac_env call 1) subject channel now) (fun _ => internal) in
  let! _ := match prior with Some old => replace_session old issued.1 now | None => mret tt end in
  let! cookie := mlift (set_session_cookie channel issued.1) in
  mret (issued.2, cookie).

Definition session : AM SessionView :=
  let! now := clock in
  let! current := current_session now in
  mret current.2.

Definition logout : AM Headers :=
  let! now := clock in
  let! current := protected_session now in
  let! _ := store_op (revoke_session (ac_env call 1) current.1 now) (fun _ => internal) in
  let! _ := revoke_attached current.1 in
  mlift (clear_session_cookie channel).

Definition reauthenticate (password : string) (purpose : ReauthPurpose) : AM (SessionView * string * string * Headers) :=
  let! now := clock in
  let! current := protected_session now in
  let! source := mlift (request_source channel h) in
  let! subject := authenticated AuthLimiter now source (username (sv_subject current.2)) password
                    (StepUp (reauth_context purpose).2) in
  if negb (uid subject =? uid (sv_subject current.2)) || negb (bool_decide (username subject = username (sv_subject current.2)))
  then mfail (forbidden "reauth_subject_mismatch")
  else
    let! issued := store_op (issue_reauthenticated_session (ac_env call 1) current.1 subject channel now)
                     (fun _ => internal) in
    try! claim := store_op (issue_reauth_claim (ac_env call 4) issued.1 subject purpose now) (fun _ => internal) in
    match claim with
    | Err _ =>
        try! _ := store_op (revoke_session (ac_env call 3) issued.1 now) (fun _ => internal) in
        mfail internal
    | Ok claim =>
        let! _ := replace_session current.1 issued.1 now in
        let! cookie := mlift (set_session_cookie channel issued.1) in
        mret (issued.2, claim.1, claim.2, cookie)
    end.

(** ** Administrative access (api/administrative_access.rs) *)

Definition ADMINISTRATIVE_CONTEXT : string := "administrative-access/v1".

Definition deny {A} (subject : Subject) (reason : string) (now : Z) (p : ApiProblem) : AM A :=
  let! _ := store_op (record_administrative_denial (ac_env call 4) subject channel reason now) (fun _ => internal) in
  mfail p.

Definition enter_administrative_access (password : string) (code : option string) : AM (SessionView * Headers) :=
  let! now := clock in
  let! current := protected_session now in
  let subject := sv_subject current.2 in
  if negb (bool_decide (role subject = Admin)) || (uid subject =? 0)
  then deny subject "role_denied" now (forbidden "administrative_access_denied")
  else
    let! source := mlift (request_source channel h) in
    let! result := auth_answer AdministrativeLimiter now source (username subject) password (StepUp ADMINISTRATIVE_CONTEXT) in
    match result with
    | Failed class => deny subject "pam_rejected" now (auth_failure class)
    | Authenticated confirmed _ =>
        if negb (uid confirmed =? uid subject) || negb (bool_decide (username confirmed = username subject))
           || negb (bool_decide (role confirmed = Admin))
        then deny subject "subject_mismatch" now (forbidden "administrative_access_denied")
        else
          let! _ :=
            if bool_decide (sv_additional_auth_policy current.2 = PolicyDisabled) then mret tt
            else match code with
                 | None => deny subject "additional_auth_required" now (precondition_required "additional_authentication_required")
                 | Some code =>
                     try! verified := web_call (verify_direct_context (ac_env call 5) confirmed ADMINISTRATIVE_CONTEXT code now)
                                        map_totp_error in
                     match verified with
                     | Ok _ => mret tt
                     | Err p => deny subject "additional_auth_rejected" now p
                     end
                 end in
          let! issued := store_op (issue_administrative_session (ac_env call 1) confirmed channel now) (fun _ => internal) in
          let! _ := replace_session current.1 issued.1 now in
          let! cookie := mlift (set_session_cookie channel issued.1) in
          mret (issued.2, cookie)
    end.

Definition leave_administrative_access : AM SessionView :=
  let! now := clock in
  let! current := protected_session now in
  let! _ := store_op (revoke_administrative_access (ac_env call 1) current.1 channel (sv_subject current.2) now)
              (fun _ => internal) in
  let! view := store_op (authenticate_session (ac_env call 2) current.1 channel now) (fun _ => internal) in
  mlift (ok_or view (unauthorized "authentication_required")).

Definition require_administrative_access (session : SessionView) : result ApiProblem unit :=
  match role (sv_subject session), sv_administrative_access session with
  | Admin, AdministrativeAccess => Ok tt
  | _, _ => Err (forbidden "administrative_access_required")
  end.

(** ** Settings: the second factor (api.rs, api/totp.rs) *)

(** The fields of [access_view] that are not constants. *)
Record AccessSettingsView := {
  ax_ingress : IngressChannel;
  ax_policy : AdditionalAuthPolicy;
  ax_provider : AdditionalAuthProviderStatus;
  ax_mutation_approval_available : bool;
}.

Definition access_view (subject : Subject) : AM AccessSettingsView :=
  let! policy := store_op (additional_auth_policy (ac_env call 6)) (fun _ => internal) in
  let! provider := web_call (fun w => (provider_status (ac_env call 7) (uid subject) w, w)) (fun _ => internal) in
  mret {| ax_ingress := channel; ax_policy := policy; ax_provider := provider;
          ax_mutation_approval_available := bool_decide (policy = PolicyDisabled) || bool_decide (provider = ProviderReady) |}.

Definition update_additional_auth (target : AdditionalAuthPolicy) (reauth_token : option string) : AM AccessSettingsView :=
  let! now := clock in
  let! current := protected_session now in
  let! _ := web_call (update_additional_auth_policy (ac_env call 1) current.1 (sv_subject current.2) target reauth_token now)
              map_policy_error in
  access_view (sv_subject current.2).

(** The limit every request on the second factor counts against. *)
Definition totp_attempt (subject : Subject) : AM unit :=
  let! source := mlift (request_source channel h) in
  attempt TotpLimiter source (username subject).

Definition begin_totp_enrollment (reauth_token : string) : AM TotpEnrollmentStartView :=
  let! now := clock in
  let! current := protected_session now in
  let! _ := totp_attempt (sv_subject current.2) in
  web_call (begin_enrollment (ac_env call 1) (ac_key call) current.1 (sv_subject current.2) channel reauth_token
              (default "local-server"%string (lc_public_host cfg)) now) map_totp_error.

Definition confirm_totp_enrollment (enrollment_id code : string) : AM TotpEnrollmentState :=
  let! _ := rejected (if validate_enrollment_id enrollment_id then Ok tt else Err "totp_enrollment_rejected"%string) in
  let! _ := rejected (code_validate (Some code)) in
  let! now := clock in
  let! current := protected_session now in
  let! _ := totp_attempt (sv_subject current.2) in
  web_call (confirm_enrollment (ac_env call 1) (sv_subject current.2) channel enrollment_id code now) map_totp_error.

Definition verify_totp (reauth_token plan_hash code : string) : AM (string * string) :=
  let! _ := rejected (code_validate (Some code)) in
  let! now := clock in
  let! current := protected_session now in
  let! _ := totp_attempt (sv_subject current.2) in
  web_call (issue_operation_claim (ac_env call 1) current.1 (sv_subject current.2) reauth_token plan_hash code now)
    map_totp_error.

Definition reset_totp (reauth_token recovery_code : string) : AM Headers :=
  let! now := clock in
  let! current := protected_session now in
  let! _ := totp_attempt (sv_subject current.2) in
  let! _ := web_call (recovery_reset (ac_env call 1) current.1 (sv_subject current.2) channel reauth_token recovery_code now)
              map_totp_error in
  let! _ := revoke_attached current.1 in
  mlift (clear_session_cookie channel).

(** ** Terminals *)

(** [terminal_gate_reason] and [file_gate_reason] are read as whether there is
    one. *)
Definition terminal_gate_reason (session : SessionView) : AM bool := fun a =>
  let subject := sv_subject session in
  if (uid subject =? 0) || bool_decide (role subject = Viewer) then (Ok true, a)
  else if negb (bool_decide (sv_additional_auth_policy session = PolicyDisabled))
          && negb (is_ok_and (provider_status (ac_env call 7) (uid subject) (br_web (ap_broker a)))
                     (fun p => bool_decide (p = ProviderReady)))
  then (Ok true, a)
  else (Ok (is_err (terminal_runtime_available (ac_host call) paths)), a).

(** The password step of terminals, file sessions and uploads: the answer must
    be the session's subject, who is not root and not a viewer. *)
Definition step_up (now : Z) (session : SessionView) (password context mismatch : string) : AM Subject :=
  let! source := mlift (request_source channel h) in
  let subject := sv_subject session in
  let! confirmed := authenticated AuthLimiter now source (username subject) password (StepUp context) in
  if (uid confirmed =? 0) || negb (uid confirmed =? uid subject) || negb (bool_decide (username confirmed = username subject))
     || negb (bool_decide (role confirmed = role subject)) || bool_decide (role confirmed = Viewer)
  then mfail (forbidden mismatch)
  else mret confirmed.

Definition second_factor (now : Z) (session : SessionView) (confirmed : Subject) (context : string) (code : option string)
    : AM unit :=
  if bool_decide (sv_additional_auth_policy session = PolicyDisabled) then mret tt
  else
    let! code := mlift (ok_or code (precondition_required "additional_authentication_required")) in
    web_call (verify_direct_context (ac_env call 1) confirmed context code now) map_totp_error.

(** The ticket and its expiry; the task that expires it is [TExpire]. *)
Definition issue_terminal_ticket (input : TerminalTicketRequest) : AM (string * string) :=
  let! _ := rejected (terminal_request_validate input) in
  let! now := clock in
  let! current := protected_session now in
  let! origin := mlift (require_exact_origin cfg channel h) in
  let! gated := terminal_gate_reason current.2 in
  if (gated : bool) then mfail (conflict "terminal_unavailable")
  else
    let! confirmed := step_up now current.2 (tq_password input) "terminal" "terminal_subject_mismatch" in
    let! _ := second_factor now current.2 confirmed "terminal" (tq_additional_auth_code input) in
    let! issued := terminal_call (issue_ticket (ac_instant call) (ac_random call)
       {| ti_session_token := current.1; ti_subject := confirmed; ti_ingress := channel; ti_origin := origin;
          ti_password := tq_password input; ti_rows := tq_rows input; ti_cols := tq_cols input; ti_now_unix_ms := now |}) in
    if negb (valid_token_shape issued.1) then mfail (map_terminal_ticket_error TicketInvalid)
    else
      let! expires := mlift (map_err (format_rfc3339 issued.2) (fun _ => internal)) in
      mret (issued.1, expires).

(** The lease [run_terminal] gets once the connection is upgraded. *)
Definition connect_terminal : AM TerminalLease :=
  let! origin := mlift (require_exact_origin cfg channel h) in
  let! now := clock in
  let! current := current_session now in
  let! gated := terminal_gate_reason current.2 in
  if (gated : bool) then mfail (conflict "terminal_unavailable")
  else
    let! ticket := mlift (websocket_ticket h) in
    terminal_call (consume_ticket (ac_instant call) (ac_random call) ticket current.1 channel origin).

(** ** Files *)

Definition file_gate_reason (session : SessionView) : bool :=
  (uid (sv_subject session) =? 0) || bool_decide (role (sv_subject session) = Viewer)
  || is_err (terminal_runtime_available (ac_host call) paths).

Definition file_upload_gate_reason (session : SessionView) : AM bool := fun a =>
  if file_gate_reason session then (Ok true, a)
  else (Ok (negb (bool_decide (sv_additional_auth_policy session = PolicyDisabled))
            && negb (is_ok_and (provider_status (ac_env call 7) (uid (sv_subject session)) (br_web (ap_broker a)))
                       (fun p => bool_decide (p = ProviderReady)))), a).

Definition create_file_session (password : string) (read_only_confirmed : bool) : AM (string * string) :=
  let! _ := rejected (let? _ := password_validate password in
                      check read_only_confirmed else "file_read_only_confirmation_required"%string in Ok tt) in
  let! now := clock in
  let! current := protected_session now in
  let! origin := mlift (require_exact_origin cfg channel h) in
  if file_gate_reason current.2 then mfail (conflict "files_unavailable")
  else
    let! confirmed := step_up now current.2 password "files_read_only" "file_subject_mismatch" in
    let! issued := file_call (issue (terminal_runtime_available (ac_host call) paths) (ac_calls call) (ac_last call)
       (ac_connect call)
       {| fi_jw_session_token := current.1; fi_subject := confirmed; fi_ingress := channel; fi_origin := origin;
          fi_now := now |}) in
    mret (issued.1, sv_absolute_expires_at current.2).

Definition close_file_session (session_token : string) : AM unit :=
  let! now := clock in
  let! current := protected_session now in
  let! origin := mlift (require_exact_origin cfg channel h) in
  file_call (close_session session_token current.1 channel origin).

Definition heartbeat_file_session (session_token : string) : AM unit :=
  let! now := clock in
  let! current := protected_session now in
  let! origin := mlift (require_exact_origin cfg channel h) in
  let! _ := file_call (acquire (ac_calls call) session_token current.1 channel origin) in
  mret tt.

Definition acquire_file_lease (session_token : string) : AM string :=
  let! now := clock in
  let! current := protected_session now in
  let! origin := mlift (require_exact_origin cfg channel h) in
  if file_gate_reason current.2 then mfail (conflict "files_unavailable")
  else file_call (acquire (ac_calls call) session_token current.1 channel origin).

Definition list_files (session_token path : string) : AM FileListView :=
  let! id := acquire_file_lease session_token in file_call (lease_list (ac_last call) id path).
Definition stat_file (session_token path : string) : AM FileStatView :=
  let! id := acquire_file_lease session_token in file_call (lease_stat (ac_last call) id path).
Definition read_text_file (session_token path : string) : AM FileTextView :=
  let! id := acquire_file_lease session_token in file_call (lease_read_text (ac_last call) id path).
Definition download_file (session_token path : string) : AM (string * Headers) :=
  let! id := acquire_file_lease session_token in
  let! bytes := file_call (lease_download (ac_last call) id path) in
  if FILE_MAX_DOWNLOAD_BYTES <? slen bytes then mfail (problem 413 "download_too_large")
  else mret (bytes, [("content-type"%string, "application/octet-stream"%string);
                     ("content-disposition"%string,
                      "attachment; filename=" +:+ s1 (chr 34) +:+ "jw-agent-download" +:+ s1 (chr 34))]).

Record FileUploadPlanRequest := {
  fu_session_token : string;
  fu_path : string;
  fu_content_bytes : Z;
  fu_content_digest : string;
  fu_overwrite_confirmed : bool;
  fu_non_reversible_confirmed : bool;
  fu_password : string;
  fu_additional_auth_code : option string;
}.

Definition upload_request_validate (r : FileUploadPlanRequest) : vresult :=
  let? _ := validate_file_path (fu_path r) in
  check negb (bool_decide (fu_path r = EmptyString)
              || is_some_and (last (ssplit "/"%char (fu_path r))) is_reserved_upload_name)
    else "upload_path_invalid"%string in
  check fu_content_bytes r <=? FILE_MAX_UPLOAD_BYTES else "upload_too_large"%string in
  let? _ := map_err (validate_digest (fu_content_digest r)) (fun _ => "upload_digest_invalid"%string) in
  let? _ := password_validate (fu_password r) in
  check fu_non_reversible_confirmed r else "upload_non_reversible_confirmation_required"%string in
  code_validate (fu_additional_auth_code r).

Definition upload_context (subject : Subject) (r : FileUploadPlanRequest) : string :=
  sha256_digest ("jw-agent/file-upload-plan/v1" +:+ NUL +:+ decimal (uid subject) +:+ NUL +:+ fu_path r +:+ NUL
                 +:+ decimal (fu_content_bytes r) +:+ NUL +:+ fu_content_digest r).

Definition plan_file_upload (input : FileUploadPlanRequest) : AM (string * string * UploadPlan) :=
  let! _ := rejected (upload_request_validate input) in
  let! now := clock in
  let! current := protected_session now in
  let! origin := mlift (require_exact_origin cfg channel h) in
  let! gated := file_upload_gate_reason current.2 in
  if (gated : bool) then mfail (precondition_required "additional_authentication_unavailable")
  else if negb (bool_decide (sv_additional_auth_policy current.2 = PolicyDisabled))
          && negb (is_some (fu_additional_auth_code input))
  then mfail (precondition_required "additional_authentication_required")
  else
    let context := upload_context (sv_subject current.2) input in
    let! confirmed := step_up now current.2 (fu_password input) context "file_subject_mismatch" in
    let! _ := second_factor now current.2 confirmed context (fu_additional_auth_code input) in
    let! id := file_call (acquire (ac_calls call) (fu_session_token input) current.1 channel origin) in
    let! issued := file_call (plan_upload (ac_calls call) (ac_last call) id (fu_path input) (fu_content_bytes input)
                                (fu_content_digest input) (fu_overwrite_confirmed input) now) in
    let! expires := mlift (map_err (format_rfc3339 issued.1.2) (fun _ => internal)) in
    mret (issued.1.1, expires, issued.2).

(** The body of a request: [None] when it is longer than the limit. *)
Definition apply_file_upload (body : option string) : AM AppliedUpload :=
  let! now := clock in
  let! current := protected_session now in
  let! origin := mlift (require_exact_origin cfg channel h) in
  if file_gate_reason current.2 then mfail (conflict "files_unavailable")
  else if negb (bool_decide (header_str "content-type" h = Some "application/octet-stream"%string))
  then mfail (bad_request "upload_content_type")
  else
    let! file_session_token := mlift (secret_header "x-jw-file-session" h) in
    let! upload_plan_token := mlift (secret_header "x-jw-upload-plan" h) in
    let! id := file_call (acquire (ac_calls call) file_session_token current.1 channel origin) in
    let! plan := file_call (begin_upload (ac_calls call) id upload_plan_token now) in
    let refuse reason : AM AppliedUpload :=
      let! _ := file_call (reject (ac_last call) plan reason) in mfail internal in
    match header "content-length" h with
    | Some length =>
        match to_str length ≫= (fun v => parse_unsigned u64_max (chars v)) with
        | None => refuse "upload_length_invalid"%string
        | Some length =>
            if negb (length =? up_content_bytes plan) then refuse "upload_length_mismatch"%string
            else match body with
                 | None => refuse "upload_too_large"%string
                 | Some bytes => file_call (apply (ac_last call) id plan bytes)
                 end
        end
    | None => match body with
              | None => refuse "upload_too_large"%string
              | Some bytes => file_call (apply (ac_last call) id plan bytes)
              end
    end.

(** ** Approvals *)

(** Who may approve: an administrator with administrative access, by a request
    with the session's CSRF token. *)
Definition administrative_session (now : Z) : AM (string * SessionView) :=
  let! current := protected_session now in
  let! _ := mlift (require_administrative_access current.2) in
  mret current.

Definition consume_operation_authorization (token : string) (session : SessionView) (plan_hash reauth_token : string)
    (additional_auth_claim : option string) (now : Z) : AM unit :=
  store_op (consume_operation_claims (ac_env call 1)
    {| Claims.oa_session_token := token; Claims.oa_subject := sv_subject session; Claims.oa_plan_hash := plan_hash;
       Claims.oa_reauth_token := reauth_token; Claims.oa_additional_auth_claim := additional_auth_claim;
       Claims.oa_additional_auth_required := negb (bool_decide (sv_additional_auth_policy session = PolicyDisabled));
       Claims.oa_now := now |}) map_operation_claim_error.

Definition accepted_view (r : OperationReceiptView) : OperationAcceptedView :=
  {| av_schema_version := rv_schema_version r; av_operation_type := rv_operation_type r;
     av_operation_id := rv_operation_id r; av_plan_id := rv_plan_id r; av_plan_hash := rv_plan_hash r;
     av_actor := rv_actor r; av_current_stage := rv_terminal_state r;
     av_event_stream := "/api/v1/operations/" +:+ rv_operation_id r +:+ "/events" |}.

(** The approval is sent, the receipt's type checked, and a task spawned that
    asks for the execution. *)
Definition send_approval (a : Approval) (actor : Subject) (plan_id plan_hash key : string) (expected : string -> bool)
    (executor : OperationReceiptView -> Subject) : AM OperationAcceptedView :=
  let request := OpsApprove a actor plan_id plan_hash key in
  let! _ := mupd (send_ops request) in
  let! receipt := mlift (map_err (ac_ops call request) map_ops_error) in
  if negb (expected (rv_operation_type receipt)) then mfail internal
  else
    let! _ := mupd (send_ops (OpsExecute (executor receipt) (rv_operation_id receipt))) in
    mret (accepted_view receipt).

Definition of_type (t u : string) : bool := bool_decide (u = t).

Definition approve_certbot_issue (input : CertbotIssueApprovalRequest) : AM OperationAcceptedView :=
  let! _ := rejected (issue_approval_validate_shape input) in
  let! now := clock in
  let! current := administrative_session now in
  let r := ci_approval input in
  let! _ := consume_operation_authorization current.1 current.2 (Contracts.oa_plan_hash r) (Contracts.oa_reauth_token r)
              (Contracts.oa_additional_auth_claim r) now in
  send_approval (ApproveIssue (ci_external_effect_confirmed input) (ci_local_attach_deferred_confirmed input))
    (sv_subject current.2) (oa_plan_id r) (Contracts.oa_plan_hash r) (oa_idempotency_key r) (of_type CERTBOT_ISSUE_OPERATION)
    (fun _ => sv_subject current.2).

Definition approve_certbot_attach (input : CertbotAttachApprovalRequest) : AM OperationAcceptedView :=
  let! _ := rejected (attach_approval_validate_shape input) in
  let! now := clock in
  let! current := administrative_session now in
  let r := cx_approval input in
  let! _ := consume_operation_authorization current.1 current.2 (Contracts.oa_plan_hash r) (Contracts.oa_reauth_token r)
              (Contracts.oa_additional_auth_claim r) now in
  send_approval (ApproveAttach (cx_config_replace_confirmed input) (cx_service_reload_confirmed input))
    (sv_subject current.2) (oa_plan_id r) (Contracts.oa_plan_hash r) (oa_idempotency_key r) (of_type CERTBOT_ATTACH_OPERATION)
    (fun _ => sv_subject current.2).

Definition approve_certbot_renew_test (input : CertbotRenewTestApprovalRequest) : AM OperationAcceptedView :=
  let! _ := rejected (renew_approval_validate_shape input) in
  let! now := clock in
  let! current := administrative_session now in
  let r := cr_approval input in
  let! _ := consume_operation_authorization current.1 current.2 (Contracts.oa_plan_hash r) (Contracts.oa_reauth_token r)
              (Contracts.oa_additional_auth_claim r) now in
  send_approval (ApproveRenewTest (cr_external_effect_confirmed input)) (sv_subject current.2) (oa_plan_id r)
    (Contracts.oa_plan_hash r) (oa_idempotency_key r) (of_type CERTBOT_RENEW_TEST_OPERATION) (fun _ => sv_subject current.2).

Definition approve_nginx_site_state (input : AdministrativeOperationApprovalRequest) : AM OperationAcceptedView :=
  let! _ := rejected (administrative_approval_validate_shape input) in
  let! now := clock in
  let! current := administrative_session now in
  send_approval ApproveNginxSiteState (sv_subject current.2) (ao_plan_id input) (ao_plan_hash input)
    (ao_idempotency_key input) (fun _ => true) (fun _ => sv_subject current.2).

Definition approve_managed_config (input : ManagedConfigApprovalRequest) : AM OperationAcceptedView :=
  let! _ := rejected (managed_approval_validate_shape input) in
  let! now := clock in
  let! current := administrative_session now in
  let! _ := match ma_reauth_token input with
            | Some reauth_token => consume_operation_authorization current.1 current.2 (ma_plan_hash input) reauth_token
                                     (ma_additional_auth_claim input) now
            | None => mret tt
            end in
  send_approval (ApproveManagedConfig (ma_approval_intent input)) (sv_subject current.2) (ma_plan_id input)
    (ma_plan_hash input) (ma_idempotency_key input)
    (fun t => of_type MANAGED_CONFIG_OPERATION t || of_type MANAGED_CONFIG_RESTORE_OPERATION t)
    (fun _ => sv_subject current.2).

Definition approve_service_control (input : ServiceControlApprovalRequest) : AM OperationAcceptedView :=
  let! _ := rejected (service_approval_validate input) in
  let! now := clock in
  let! current := administrative_session now in
  send_approval ApproveServiceControl (sv_subject current.2) (sa_plan_id input) (sa_plan_hash input)
    (sa_idempotency_key input) (of_type SERVICE_CONTROL_OPERATION) rv_actor.

Definition approve_ufw_rule (input : UfwRuleApprovalRequest) : AM OperationAcceptedView :=
  let! _ := rejected (ufw_approval_validate input) in
  let! now := clock in
  let! current := administrative_session now in
  send_approval ApproveUfwRule (sv_subject current.2) (ux_plan_id input) (ux_plan_hash input)
    (ux_idempotency_key input) (of_type UFW_RULE_OPERATION) rv_actor.
End Handlers.

(** ** The router *)

Inductive ApiRequest :=
  | RLogin (input : LoginRequest)
  | RSession
  | RLogout
  | RReauthenticate (password : string) (purpose : ReauthPurpose)
  | REnterAdministrative (password : string) (code : option string)
  | RLeaveAdministrative
  | RUpdatePolicy (target : AdditionalAuthPolicy) (reauth_token : option string)
  | RBeginTotp (reauth_token : string)
  | RConfirmTotp (enrollment_id code : string)
  | RVerifyTotp (reauth_token plan_hash code : string)
  | RResetTotp (reauth_token recovery_code : string)
  | RTerminalTicket (input : TerminalTicketRequest)
  | RTerminalConnect
  | RCreateFileSession (password : string) (read_only_confirmed : bool)
  | RCloseFileSession (session_token : string)
  | RHeartbeat (session_token : string)
  | RListFiles (session_token path : string)
  | RStatFile (session_token path : string)
  | RReadText (session_token path : string)
  | RDownload (session_token path : string)
  | RPlanUpload (input : FileUploadPlanRequest)
  | RApplyUpload (body : option string)
  | RApproveIssue (input : CertbotIssueApprovalRequest)
  | RApproveAttach (input : CertbotAttachApprovalRequest)
  | RApproveRenewTest (input : CertbotRenewTestApprovalRequest)
  | RApproveNginx (input : AdministrativeOperationApprovalRequest)
  | RApproveManaged (input : ManagedConfigApprovalRequest)
  | RApproveService (input : ServiceControlApprovalRequest)
  | RApproveUfw (input : UfwRuleApprovalRequest).

Definition route (q : ApiRequest) : string * string :=
  match q with
  | RLogin _ => ("POST", "/api/v1/auth/login")
  | RSession => ("GET", "/api/v1/auth/session")
  | RLogout => ("POST", "/api/v1/auth/logout")
  | RReauthenticate _ _ => ("POST", "/api/v1/auth/reauth")
  | REnterAdministrative _ _ => ("POST", "/api/v1/auth/administrative-access")
  | RLeaveAdministrative => ("DELETE", "/api/v1/auth/administrative-access")
  | RUpdatePolicy _ _ => ("PUT", "/api/v1/settings/access/additional-auth")
  | RBeginTotp _ => ("POST", "/api/v1/settings/access/totp/enrollment")
  | RConfirmTotp _ _ => ("POST", "/api/v1/settings/access/totp/enrollment/confirm")
  | RVerifyTotp _ _ _ => ("POST", "/api/v1/auth/totp/verify")
  | RResetTotp _ _ => ("POST", "/api/v1/settings/access/totp/reset")
  | RTerminalTicket _ => ("POST", "/api/v1/terminal/tickets")
  | RTerminalConnect => ("GET", "/api/v1/terminal/connect")
  | RCreateFileSession _ _ => ("POST", "/api/v1/files/sessions")
  | RCloseFileSession _ => ("POST", "/api/v1/files/sessions/close")
  | RHeartbeat _ => ("POST", "/api/v1/files/sessions/heartbeat")
  | RListFiles _ _ => ("POST", "/api/v1/files/list")
  | RStatFile _ _ => ("POST", "/api/v1/files/stat")
  | RReadText _ _ => ("POST", "/api/v1/files/read")
  | RDownload _ _ => ("POST", "/api/v1/files/download")
  | RPlanUpload _ => ("POST", "/api/v1/files/upload/plans")
  | RApplyUpload _ => ("POST", "/api/v1/files/upload")
  | RApproveIssue _ => ("POST", "/api/v1/operations/certbot/issue/approvals")
  | RApproveAttach _ => ("POST", "/api/v1/operations/certbot/attach/approvals")
  | RApproveRenewTest _ => ("POST", "/api/v1/operations/certbot/renew-test/approvals")
  | RApproveNginx _ => ("POST", "/api/v1/operations/nginx/site-state/approvals")
  | RApproveManaged _ => ("POST", "/api/v1/operations/service/config-file/approvals")
  | RApproveService _ => ("POST", "/api/v1/operations/service/lifecycle/approvals")
  | RApproveUfw _ => ("POST", "/api/v1/operations/ufw/rules/approvals")
  end%string.

(** A handler, its answer left aside. *)
Definition handled {A} (m : AM A) : AM unit := let! _ := m in mret tt.

Definition handler (channel : IngressChannel) (call : ApiCall) (h : Headers) (q : ApiRequest) : AM unit :=
  match q with
  | RLogin input => handled (login channel call h input)
  | RSession => handled (session channel call h)
  | RLogout => handled (logout channel call h)
  | RReauthenticate password purpose => handled (reauthenticate channel call h password purpose)
  | REnterAdministrative password code => handled (enter_administrative_access channel call h password code)
  | RLeaveAdministrative => handled (leave_administrative_access channel call h)
  | RUpdatePolicy target reauth => handled (update_additional_auth channel call h target reauth)
  | RBeginTotp reauth => handled (begin_totp_enrollment channel call h reauth)
  | RConfirmTotp id code => handled (confirm_totp_enrollment channel call h id code)
  | RVerifyTotp reauth plan_hash code => handled (verify_totp channel call h reauth plan_hash code)
  | RResetTotp reauth code => handled (reset_totp channel call h reauth code)
  | RTerminalTicket input => handled (issue_terminal_ticket channel call h input)
  | RTerminalConnect => handled (connect_terminal channel call h)
  | RCreateFileSession password confirmed => handled (create_file_session channel call h password confirmed)
  | RCloseFileSession token => close_file_session channel call h token
  | RHeartbeat token => heartbeat_file_session channel call h token
  | RListFiles token path => handled (list_files channel call h token path)
  | RStatFile token path => handled (stat_file channel call h token path)
  | RReadText token path => handled (read_text_file channel call h token path)
  | RDownload token path => handled (download_file channel call h token path)
  | RPlanUpload input => handled (plan_file_upload channel call h input)
  | RApplyUpload body => handled (apply_file_upload channel call h body)
  | RApproveIssue input => handled (approve_certbot_issue channel call h input)
  | RApproveAttach input => handled (approve_certbot_attach channel call h input)
  | RApproveRenewTest input => handled (approve_certbot_renew_test channel call h input)
  | RApproveNginx input => handled (approve_nginx_site_state channel call h input)
  | RApproveManaged input => handled (approve_managed_config channel call h input)
  | RApproveService input => handled (approve_service_control channel call h input)
  | RApproveUfw input => handled (approve_ufw_rule channel call h input)
  end.

(** [request_guard] around a handler. *)
Definition api_request (channel : IngressChannel) (call : ApiCall) (h : Headers) (q : ApiRequest) : AM unit :=
  let! _ := mlift (validate_request_boundary cfg channel (route q).1 h) in
  handler channel call h q.

(** What the daemon goes through: requests, each with what others do while it
    waits, and the tasks of its own (expiring tickets and sessions, dropped
    leases, the audit records of terminals). *)
Inductive api_reach : Api -> Api -> Prop :=
  | reach_refl a : api_reach a a
  | reach_request a b channel call h q :
      api_reach a b -> (forall x, api_reach x (ac_others call x)) ->
      api_reach a (api_request channel call h q b).2
  | reach_terminal a b op : api_reach a b -> api_reach a (upd_terminal (terminal_step op) b)
  | reach_web a b op : api_reach a b -> api_reach a (upd_broker (fun br => with_web (web_step op (br_web br)) br) b)
  | reach_expiry a b t digest id : api_reach a b -> api_reach a (upd_broker (expiry_turn t digest id) b)
  | reach_drop a b t id : api_reach a b -> api_reach a (upd_broker (drop_session t id) b)
  | reach_drop_upload a b t plan : api_reach a b -> api_reach a (upd_broker (drop_upload t plan) b).
End Api.
