(* ===== verification/LimiterProps.v ===== *)
(** * The limits on authentication attempts

    The counters of WebGate.v over a sequence of attempts at non-decreasing
    instants. *)

From Stdlib Require Import Ascii String Sorted.
From stdpp Require Import sorting.
From S2P Require Import Prelude Crypto Contracts Text WebStore Session WebReference WebGate.

(** ** One counter *)

Definition since (t : Z) (l : list Z) : nat := length (filter (fun x => t <= x) l).
Definition within (t u : Z) (l : list Z) : nat := length (filter (fun x => t <= x < u) l).

Lemma since_split t u l : t <= u -> since t l = (within t u l + since u l)%nat.
Proof.
  intros Hle. unfold since, within. induction l as [|x l IH]; [done|]. rewrite !filter_cons.
  repeat case_decide; cbn [length]; lia.
Qed.

Lemma since_antitone t u l : t <= u -> (since u l <= since t l)%nat.
Proof. intros Hle. rewrite (since_split t u l Hle). lia. Qed.

Lemma since_none t l : Forall (fun x => x < t) l -> since t l = 0%nat.
Proof.
  unfold since. induction 1 as [|x l Hx _ IH]; [done|]. rewrite filter_cons. case_decide; [lia|done].
Qed.

Lemma since_snoc t l x : since t (l ++ [x]) = (since t l + (if decide (t <= x)%Z then 1 else 0))%nat.
Proof. unfold since. rewrite filter_app, length_app, filter_cons. case_decide; cbn; lia. Qed.

Lemma within_snoc t u l x : u <= x -> within t u (l ++ [x]) = within t u l.
Proof. intros Hu. unfold within. rewrite filter_app, length_app, filter_cons. case_decide; cbn; lia. Qed.

Lemma within_empty t u l : u <= t -> within t u l = 0%nat.
Proof.
  intros Hu. unfold within. induction l as [|x l IH]; [done|]. rewrite filter_cons. case_decide; [lia|done].
Qed.

(** What a counter knows of the accepted attempts [l] it has seen by [now]. *)
Definition slot_inv (limit now : Z) (l : list Z) (slot : option Counter) : Prop :=
  match slot with
  | Some c =>
      ct_started c <= now /\ ct_attempts c <= limit
      /\ Z.of_nat (since (ct_started c) l) <= ct_attempts c
      /\ Forall (fun x => x < ct_started c + AUTH_WINDOW_MS) l
      /\ forall t, ct_started c - AUTH_WINDOW_MS < t -> Z.of_nat (within t (ct_started c) l) <= limit
  | None => Forall (fun x => x < now) l /\ forall t, now - AUTH_WINDOW_MS < t -> Z.of_nat (since t l) <= limit
  end.

Definition cleaned (now : Z) (slot : option Counter) : option Counter :=
  match slot with Some c => if AUTH_WINDOW_MS <=? age now c then None else Some c | None => None end.

Lemma slot_cleaned limit now now' l slot :
  now <= now' -> slot_inv limit now l slot -> slot_inv limit now' l (cleaned now' slot).
Proof.
  intros Hle. destruct slot as [c|]; cbn.
  - intros (Hs & Ha & Hn & Hw & Hp). destruct (Z.leb_spec AUTH_WINDOW_MS (age now' c)) as [Hage|Hage]; cbn; unfold age in Hage.
    + assert (ct_started c + AUTH_WINDOW_MS <= now') by (unfold AUTH_WINDOW_MS in *; lia). split.
      * eapply Forall_impl; [exact Hw|]. cbn. lia.
      * intros t Ht. pose proof (since_antitone (ct_started c) t l). lia.
    + split_and!; auto; lia.
  - intros [Hf Hs]. split; [eapply Forall_impl; [exact Hf|cbn; lia]|]. intros t Ht. apply Hs. lia.
Qed.

(** An attempt on a cleaned counter; only a counted attempt can be accepted. *)
Lemma slot_consumed limit now l slot (accepted : bool) :
  0 <= limit <= u32_max -> slot_inv limit now l slot -> cleaned now slot = slot ->
  (accepted = true -> (consume_counter slot limit now).1 = Ok tt) ->
  slot_inv limit now (if accepted then l ++ [now] else l) (Some (consume_counter slot limit now).2).
Proof.
  intros Hlim Hinv Hclean Hacc.
  assert (slot_inv limit now l (Some (default {| ct_started := now; ct_attempts := 0 |} slot))
          /\ now < ct_started (default {| ct_started := now; ct_attempts := 0 |} slot) + AUTH_WINDOW_MS) as [Hc Hnow].
  { destruct slot as [c|]; cbn in *.
    - split; [done|]. destruct (Z.leb_spec AUTH_WINDOW_MS (age now c)) as [|Hage]; [done|]. unfold age in Hage. lia.
    - destruct Hinv as [Hf Hs]. split; [|unfold AUTH_WINDOW_MS; lia]. rewrite (since_none now l Hf). split_and!; try lia.
      + eapply Forall_impl; [exact Hf|]. unfold AUTH_WINDOW_MS. cbn. lia.
      + intros t Ht. destruct (Z.le_gt_cases t now) as [Htn|Htn].
        * pose proof (since_split t now l Htn). specialize (Hs t Ht). lia.
        * rewrite within_empty; lia. }
  revert Hacc. unfold consume_counter. cbn zeta. generalize (default {| ct_started := now; ct_attempts := 0 |} slot), Hc, Hnow.
  clear slot Hinv Hclean Hc Hnow. intros c (Hs & Ha & Hn & Hw & Hp) Hnow.
  destruct (Z.leb_spec limit (ct_attempts c)) as [Hfull|Hfree]; cbn; intros Hacc.
  - destruct accepted; [by specialize (Hacc eq_refl)|]. by split_and!.
  - rewrite Z.min_r by lia. destruct accepted; cbn; split_and!; auto; try lia.
    + rewrite since_snoc. case_decide; lia.
    + apply Forall_app. split; [done|]. by constructor.
    + intros t Ht. rewrite within_snoc by lia. auto.
Qed.

(** In the window that ends now, at most twice the limit. *)
Lemma slot_window limit now now' l slot :
  now <= now' -> slot_inv limit now l slot -> Z.of_nat (since (now' - AUTH_WINDOW_MS + 1) l) <= 2 * limit.
Proof.
  intros Hle. destruct slot as [c|]; cbn.
  - intros (Hs & Ha & Hn & Hw & Hp). destruct (Z.le_gt_cases (now' - AUTH_WINDOW_MS + 1) (ct_started c)) as [H|H].
    + rewrite (since_split _ _ l H). specialize (Hp (now' - AUTH_WINDOW_MS + 1) ltac:(lia)). lia.
    + pose proof (since_antitone (ct_started c) (now' - AUTH_WINDOW_MS + 1) l ltac:(lia)). lia.
  - intros [_ Hs]. specialize (Hs (now' - AUTH_WINDOW_MS + 1) ltac:(lia)). lia.
Qed.

(** ** The limiter *)

Record Attempt := { at_now : Z; at_source : string; at_username : string }.

Lemma cleaned_cleaned now slot : cleaned now (cleaned now slot) = cleaned now slot.
Proof. destruct slot as [c|]; [|done]. cbn. destruct (AUTH_WINDOW_MS <=? age now c) eqn:E; [done|]. cbn. by rewrite E. Qed.

Lemma cleaned_lookup now (m : gmap string Counter) k :
  filter (fun kv => age now kv.2 < AUTH_WINDOW_MS) m !! k = cleaned now (m !! k).
Proof.
  destruct (m !! k) as [c|] eqn:E; cbn.
  - destruct (Z.leb_spec AUTH_WINDOW_MS (age now c)).
    + apply map_lookup_filter_None. right. intros c' Hc'. rewrite E in Hc'. injection Hc' as <-. cbn. lia.
    + by apply map_lookup_filter_Some.
  - apply map_lookup_filter_None. by left.
Qed.

Section Limit.
Context `{WC : WebCrypto}.

(** The accepted attempts of a sequence, in order, and the limiter after it. *)
Definition attempt_step (st : list Attempt * Limiter) (a : Attempt) : list Attempt * Limiter :=
  let (r, l) := limiter_consume (at_now a) (at_source a) (at_username a) st.2 in
  (if is_ok r then st.1 ++ [a] else st.1, l).
Definition attempts_run (attempts : list Attempt) : list Attempt * Limiter :=
  fold_left attempt_step attempts ([], no_attempts).

Definition times (p : Attempt -> bool) (log : list Attempt) : list Z := map at_now (List.filter p log).
Definition from_source (k : string) (a : Attempt) : bool := bool_decide (at_source a = k).
Definition of_subject (k : string) (a : Attempt) : bool := bool_decide (sha256 (at_username a) = k).

Lemma times_snoc p log a : times p (log ++ [a]) = if p a then times p log ++ [at_now a] else times p log.
Proof. unfold times. rewrite List.filter_app, map_app. cbn. destruct (p a); [done|]. by rewrite app_nil_r. Qed.

Record limiter_inv (now : Z) (log : list Attempt) (l : Limiter) : Prop := {
  li_global : slot_inv AUTH_GLOBAL_LIMIT now (times (fun _ => true) log) (lm_global l);
  li_sources k : slot_inv AUTH_SOURCE_LIMIT now (times (from_source k) log) (lm_sources l !! k);
  li_subjects k : slot_inv AUTH_SUBJECT_LIMIT now (times (of_subject k) log) (lm_subjects l !! k);
  li_source_keys : Z.of_nat (size (lm_sources l)) <= AUTH_KEY_LIMIT;
  li_subject_keys : Z.of_nat (size (lm_subjects l)) <= AUTH_KEY_LIMIT;
}.

Lemma cleanup_limiter_inv now now' log l :
  now <= now' -> limiter_inv now log l -> limiter_inv now' log (cleanup_limiter now' l).
Proof.
  intros Hle [Hg Hs Hu Hn Hm]. constructor; cbn.
  - by apply (slot_cleaned _ now).
  - intros k. rewrite cleaned_lookup. by apply (slot_cleaned _ now).
  - intros k. rewrite cleaned_lookup. by apply (slot_cleaned _ now).
  - etrans; [apply inj_le, map_subseteq_size, map_filter_subseteq|done].
  - etrans; [apply inj_le, map_subseteq_size, map_filter_subseteq|done].
Qed.

(** Counting under a key, for the attempts of that key and of every other. *)
Lemma map_counted limit now (m : gmap string Counter) key (accepted : bool) a log (p : string -> Attempt -> bool) :
  0 <= limit <= u32_max -> at_now a = now -> (forall k, p k a = bool_decide (key = k)) ->
  (forall k, slot_inv limit now (times (p k) log) (m !! k)) -> cleaned now (m !! key) = m !! key ->
  (accepted = true -> (consume_map_counter m key limit now).1 = Ok tt) ->
  forall k, slot_inv limit now (times (p k) (if accepted then log ++ [a] else log)) ((consume_map_counter m key limit now).2 !! k).
Proof.
  intros Hlim Hnow Hp Hinv Hclean Hacc k. unfold consume_map_counter in *.
  pose proof (slot_consumed limit now (times (p key) log) (m !! key) accepted Hlim (Hinv key) Hclean) as Hslot.
  destruct (consume_counter (m !! key) limit now) as [r c]. cbn in *. specialize (Hslot Hacc).
  destruct (decide (key = k)) as [<-|Hne].
  - rewrite lookup_insert_eq. destruct accepted; [|done]. rewrite times_snoc, Hp, Hnow. by rewrite bool_decide_true.
  - rewrite lookup_insert_ne by done. destruct accepted; [|apply Hinv]. rewrite times_snoc, Hp, bool_decide_false by done.
    apply Hinv.
Qed.

Lemma map_counter_size (m : gmap string Counter) key limit now :
  Z.of_nat (size m) <= AUTH_KEY_LIMIT -> (AUTH_KEY_LIMIT <=? Z.of_nat (size m)) && negb (is_some (m !! key)) = false ->
  Z.of_nat (size (consume_map_counter m key limit now).2) <= AUTH_KEY_LIMIT.
Proof.
  intros Hm Hroom. unfold consume_map_counter. destruct (consume_counter _ _ _) as [r c]. cbn.
  rewrite map_size_insert. destruct (m !! key); cbn [id is_some negb] in *; [done|]. rewrite andb_true_r in Hroom. lia.
Qed.

Lemma limiter_step_inv now log l a :
  now <= at_now a -> limiter_inv now log l ->
  limiter_inv (at_now a) (attempt_step (log, l) a).1 (attempt_step (log, l) a).2.
Proof.
  intros Hle Hinv. unfold attempt_step, limiter_consume. cbn [fst snd].
  assert (forall k, cleaned (at_now a) (lm_sources (cleanup_limiter (at_now a) l) !! k) = lm_sources (cleanup_limiter (at_now a) l) !! k) as Hcs
    by (intros k; cbn; rewrite cleaned_lookup; apply cleaned_cleaned).
  assert (forall k, cleaned (at_now a) (lm_subjects (cleanup_limiter (at_now a) l) !! k) = lm_subjects (cleanup_limiter (at_now a) l) !! k) as Hcu
    by (intros k; cbn; rewrite cleaned_lookup; apply cleaned_cleaned).
  assert (cleaned (at_now a) (lm_global (cleanup_limiter (at_now a) l)) = lm_global (cleanup_limiter (at_now a) l)) as Hcg
    by apply cleaned_cleaned.
  apply (cleanup_limiter_inv _ (at_now a)) in Hinv; [|done]. revert Hinv Hcs Hcu Hcg.
  generalize (cleanup_limiter (at_now a) l). clear l Hle. intros l [Hg Hs Hu Hn Hm] Hcs Hcu Hcg.
  destruct (_ && negb (is_some (lm_sources l !! _))) eqn:Hroom; [by constructor|].
  destruct (_ && negb (is_some (lm_subjects l !! _))) eqn:Hroom'; [by constructor|].
  pose proof (slot_consumed AUTH_GLOBAL_LIMIT (at_now a) (times (fun _ => true) log) (lm_global l)) as Hg'.
  pose proof (fun acc => map_counted AUTH_SOURCE_LIMIT (at_now a) (lm_sources l) (at_source a) acc a log from_source) as Hs'.
  pose proof (fun acc => map_counted AUTH_SUBJECT_LIMIT (at_now a) (lm_subjects l) (sha256 (at_username a)) acc a log of_subject) as Hu'.
  pose proof (map_counter_size (lm_sources l) (at_source a) AUTH_SOURCE_LIMIT (at_now a) Hn Hroom) as Hn'.
  pose proof (map_counter_size (lm_subjects l) (sha256 (at_username a)) AUTH_SUBJECT_LIMIT (at_now a) Hm Hroom') as Hm'.
  destruct (consume_counter (lm_global l) AUTH_GLOBAL_LIMIT (at_now a)) as [rg g].
  destruct (consume_map_counter (lm_sources l) (at_source a) AUTH_SOURCE_LIMIT (at_now a)) as [rs ms] eqn:Es.
  destruct (consume_map_counter (lm_subjects l) _ AUTH_SUBJECT_LIMIT (at_now a)) as [ru mu] eqn:Eu. cbn [fst snd lm_sources lm_subjects lm_global] in *.
  assert (forall acc : bool, (acc = true -> rg = Ok tt) -> slot_inv AUTH_GLOBAL_LIMIT (at_now a) (times (fun _ => true) (if acc then log ++ [a] else log)) (Some g)) as Gg.
  { intros acc Hacc. destruct acc; [rewrite times_snoc; apply (Hg' true)|apply (Hg' false)]; auto; unfold AUTH_GLOBAL_LIMIT, u32_max; lia. }
  assert (forall acc : bool, (acc = true -> rs = Ok tt) -> forall k, slot_inv AUTH_SOURCE_LIMIT (at_now a) (times (from_source k) (if acc then log ++ [a] else log)) (ms !! k)) as Gs.
  { intros acc Hacc. apply Hs'; auto; unfold AUTH_SOURCE_LIMIT, u32_max; lia. }
  assert (forall acc : bool, (acc = true -> ru = Ok tt) -> forall k, slot_inv AUTH_SUBJECT_LIMIT (at_now a) (times (of_subject k) (if acc then log ++ [a] else log)) (mu !! k)) as Gu.
  { intros acc Hacc. apply Hu'; auto; unfold AUTH_SUBJECT_LIMIT, u32_max; lia. }
  destruct rg as [[]|pg]; [|constructor; cbn; auto; by apply (Gg false)].
  rewrite Es. destruct rs as [[]|ps]; [|constructor; cbn; auto; [by apply (Gg false)|by apply (Gs false)]].
  cbn [lm_sources lm_subjects lm_global]. rewrite Eu. destruct ru as [[]|pu]; constructor; cbn; auto;
    first [by apply (Gg true)|by apply (Gs true)|by apply (Gu true)|by apply (Gg false)|by apply (Gs false)|by apply (Gu false)].
Qed.

Lemma limiter_run_inv attempts now :
  Sorted Z.le (map at_now attempts ++ [now]) ->
  exists t, t <= now /\ limiter_inv t (attempts_run attempts).1 (attempts_run attempts).2.
Proof.
  revert now. induction attempts as [|a attempts IH] using rev_ind; intros now Hsorted.
  - exists now. split; [lia|]. constructor; cbn; intros; try (split; [constructor|cbn; unfold AUTH_GLOBAL_LIMIT, AUTH_SOURCE_LIMIT, AUTH_SUBJECT_LIMIT; lia]);
      rewrite map_size_empty; unfold AUTH_KEY_LIMIT; cbn; lia.
  - rewrite map_app in Hsorted. cbn in Hsorted. apply Sorted_StronglySorted in Hsorted; [|exact Z.le_trans].
    rewrite <- app_assoc in Hsorted. cbn in Hsorted.
    assert (StronglySorted Z.le [at_now a; now]) as Hpair by (by eapply StronglySorted_app_1_r).
    assert (Sorted Z.le (map at_now attempts ++ [at_now a])) as Hfront.
    { apply StronglySorted_Sorted. replace (map at_now attempts ++ [at_now a; now]) with ((map at_now attempts ++ [at_now a]) ++ [now]) in Hsorted by (by rewrite <- app_assoc).
      by eapply StronglySorted_app_1_l. }
    destruct (IH _ Hfront) as (t & Ht & Hinv). exists (at_now a). split.
    + apply StronglySorted_inv in Hpair as [_ Hf]. by apply Forall_inv in Hf.
    + unfold attempts_run. rewrite fold_left_app. fold (attempts_run attempts).
      destruct (attempts_run attempts) as [log l]. by apply (limiter_step_inv t).
Qed.

(** C29: however many clients try, in the minute before any moment at most 120
    attempts are accepted in all, at most 40 of one source address and at most
    12 for one user name (twice the limits, as the windows of the counters are
    not those of the clock), and the limiter keeps at most 2048 counters of
    each kind. *)
Theorem attempts_bounded attempts now :
  Sorted Z.le (map at_now attempts ++ [now]) ->
  let (log, l) := attempts_run attempts in
  let recent p := Z.of_nat (since (now - AUTH_WINDOW_MS + 1) (times p log)) in
  recent (fun _ => true) <= 2 * AUTH_GLOBAL_LIMIT
  /\ (forall source, recent (from_source source) <= 2 * AUTH_SOURCE_LIMIT)
  /\ (forall username, recent (of_subject (sha256 username)) <= 2 * AUTH_SUBJECT_LIMIT)
  /\ Z.of_nat (size (lm_sources l)) <= AUTH_KEY_LIMIT /\ Z.of_nat (size (lm_subjects l)) <= AUTH_KEY_LIMIT.
Proof.
  intros (t & Ht & Hinv)%limiter_run_inv. destruct (attempts_run attempts) as [log l]. destruct Hinv as [Hg Hs Hu Hn Hm].
  split_and!; try done; intros; eapply slot_window; eauto.
Qed.
End Limit.

Module LimiterWitness.
#[local] Existing Instance reference_web.

(** Seven attempts for one user in a second, from two addresses, and one two
    minutes later. *)
Definition tries : list Attempt :=
  map (fun i => {| at_now := i * 100; at_source := if Z.even i then "203.0.113.5" else "203.0.113.6"; at_username := "kim" |})
    [0; 1; 2; 3; 4; 5; 6; 1200].

Lemma attempts_bounded_witness :
  map at_now (attempts_run tries).1 = [0; 100; 200; 300; 400; 500; 120000]
  /\ Z.of_nat (since (120000 - AUTH_WINDOW_MS + 1) (times (of_subject (sha256 "kim")) (attempts_run tries).1)) <= 12.
Proof.
  split; [vm_compute; reflexivity|].
  pose proof (attempts_bounded tries 120000 ltac:(cbn; repeat (constructor; try lia))) as H.
  destruct (attempts_run tries) as [log l]. destruct H as (_ & _ & H & _). exact (H "kim"%string).
Defined.

(** Attempts refused for their source are counted against everyone: sixty
    from one address leave nothing for another. *)
Definition flood : list Attempt :=
  map (fun i => {| at_now := Z.of_nat i; at_source := "203.0.113.5"; at_username := decimal (Z.of_nat i) |}) (seq 0 60).

Example one_source_exhausts_the_budget :
  length (attempts_run flood).1 = 20%nat
  /\ (limiter_consume 61 "198.51.100.7" "lee" (attempts_run flood).2).1 = Err (rate_limited 59939).
Proof. split; vm_compute; reflexivity. Qed.
End LimiterWitness.
