(* ===== verification/ApiProps.v ===== *)
(** * The HTTP interface: ends of sessions and approvals

    Every request of WebApi.v moves the session store forward; hence a log-out
    ends all that hangs on the session for good, and what reaches the
    operations daemon was authorised. *)

From Stdlib Require Import Ascii String.
From S2P Require Import Prelude Crypto Contracts Plans CertContracts Text ConfigText Bytes Loops Files Sftp SftpSession Ledger WebStore Session Totp Claims WebProofs WebReference WebProps.
From S2P Require Import FileBroker BrokerSteps BrokerInv BrokerProps AuthDaemon Terminal TerminalProps WebGate WebApi SftpProps.

Section Evolution.
Context `{PE : Peer} `{UN : Unicode} `{WC : WebCrypto}.
Context (cfg : ListenerConfig) (paths : TerminalPaths).

Definition api_evolves (a a' : Api) : Prop := evolves (ap_store a) (ap_store a').

#[export] Instance api_evolves_preorder : PreOrder api_evolves.
Proof. split; [by intros a|]. intros a b c H1 H2. unfold api_evolves in *. by etransitivity. Qed.

Lemma web_call_evolves {E A} (m : M Web E A) f :
  (forall w, evolves (w_store w) (w_store (m w).2)) -> preserves api_evolves (web_call m f).
Proof. intros Hm a. unfold web_call. specialize (Hm (br_web (ap_broker a))). by destruct (m _) as [r w]. Qed.

Lemma store_op_evolves {E A} (m : M Store E A) f : preserves evolves m -> preserves api_evolves (store_op m f).
Proof.
  intros Hm. apply web_call_evolves. intros w. unfold on_store. specialize (Hm (w_store w)). by destruct (m _) as [r s].
Qed.

Lemma file_call_evolves {A} (m : BM A) :
  (forall b, evolves (br_store b) (br_store (m b).2)) -> preserves api_evolves (file_call m).
Proof. intros Hm a. unfold file_call. specialize (Hm (ap_broker a)). by destruct (m _) as [r b]. Qed.

Lemma terminal_call_evolves {A} (m : TeM A) : preserves api_evolves (terminal_call m).
Proof. intros a. unfold terminal_call. by destruct (m _) as [r t]. Qed.

Lemma attempt_evolves channel call k source username : preserves api_evolves (attempt channel call k source username).
Proof. intros a. unfold attempt. destruct (limiter_consume _ _ _ _) as [r l]. by destruct channel. Qed.

Lemma preserves_try {A B} (m : AM A) (k : result ApiProblem A -> AM B) :
  preserves api_evolves m -> (forall r, preserves api_evolves (k r)) -> preserves api_evolves (mtry m k).
Proof.
  intros Hm Hk a. unfold mtry. specialize (Hm a). destruct (m a) as [r a1]. cbn in Hm. etransitivity; [exact Hm|]. apply Hk.
Qed.

Lemma attached_evolves call token : preserves api_evolves (revoke_attached call token).
Proof. intros a. unfold api_evolves. cbn. apply (revoke_moves keeps_ready). Qed.
End Evolution.

#[export] Hint Resolve terminal_call_evolves attempt_evolves attached_evolves : preserve.
#[export] Hint Resolve authenticate_evolves revoke_session_evolves issue_reauth_evolves consume_claims_evolves
  revoke_administrative_evolves : preserve.

(** A handler down to its calls of the store. *)
Ltac api_step :=
  lazymatch goal with
  | |- preserves _ (mtry _ _) => apply preserves_try; [|intros]
  | |- preserves _ (rejected _) => unfold rejected
  | |- preserves _ (handled _) => unfold handled
  | |- preserves _ (web_call _ _) => apply web_call_evolves; intros
  | |- preserves _ (store_op _ _) => apply store_op_evolves
  | |- preserves _ (file_call _) => apply file_call_evolves; intros
  | |- preserves _ (let _ := _ in _) => cbn zeta
  | |- _ => preserve_step
  end.
Ltac api := repeat api_step.

Section Requests.
Context `{PE : Peer} `{UN : Unicode} `{WC : WebCrypto}.
Context (cfg : ListenerConfig) (paths : TerminalPaths).
Context (channel : IngressChannel) (call : ApiCall) (h : Headers).
Context (Hothers : forall a, api_evolves a (ac_others call a)).

Lemma current_evolves now : preserves api_evolves (current_session channel call h now).
Proof. unfold current_session. api. Qed.

Lemma protected_evolves now : preserves api_evolves (protected_session channel call h now).
Proof. unfold protected_session. pose proof current_evolves. api. Qed.

Lemma answer_evolves k now source username password purpose :
  preserves api_evolves (auth_answer cfg channel call k now source username password purpose).
Proof. unfold auth_answer. api. Qed.

Lemma authenticated_evolves k now source username password purpose :
  preserves api_evolves (authenticated cfg channel call k now source username password purpose).
Proof. unfold authenticated. pose proof answer_evolves. api. Qed.

Lemma replace_evolves old new now : preserves api_evolves (replace_session call old new now).
Proof. unfold replace_session. api. Qed.

#[local] Hint Resolve current_evolves protected_evolves answer_evolves authenticated_evolves replace_evolves : preserve.

Lemma deny_evolves {A} subject reason now p : preserves api_evolves (deny channel call subject reason now p : AM A).
Proof. unfold deny. api. apply preserves_transaction; [typeclasses eauto|]. apply record_event_evolves. Qed.

Lemma step_up_evolves now session password context mismatch :
  preserves api_evolves (step_up cfg channel call h now session password context mismatch).
Proof. unfold step_up. api. Qed.

Lemma second_factor_evolves now session confirmed context code :
  preserves api_evolves (second_factor call now session confirmed context code).
Proof. unfold second_factor. api. apply (web_step_evolves (WVerifyDirect _ _ _ _ _)). Qed.

Lemma administrative_evolves now : preserves api_evolves (administrative_session channel call h now).
Proof. unfold administrative_session. api. Qed.

Lemma approval_evolves a actor plan_id plan_hash key expected executor :
  preserves api_evolves (send_approval call a actor plan_id plan_hash key expected executor).
Proof. unfold send_approval. api; unfold api_evolves; reflexivity. Qed.

Lemma authorization_evolves token session plan_hash reauth claim now :
  preserves api_evolves (consume_operation_authorization call token session plan_hash reauth claim now).
Proof. unfold consume_operation_authorization. api. Qed.
#[local] Hint Resolve deny_evolves step_up_evolves second_factor_evolves administrative_evolves approval_evolves
  authorization_evolves : preserve.

Lemma terminal_gate_evolves session : preserves api_evolves (terminal_gate_reason paths call session).
Proof. intros a. unfold terminal_gate_reason. cbn zeta. by repeat case_match. Qed.

Lemma upload_gate_evolves session : preserves api_evolves (file_upload_gate_reason paths call session).
Proof. intros a. unfold file_upload_gate_reason. by repeat case_match. Qed.

Lemma issue_store runtime first last c request b : evolves (br_store b) (br_store (issue runtime first last c request b).2).
Proof.
  cut (preserves (fun b b' => evolves (br_store b) (br_store b')) (issue runtime first last c request)); [intros H; apply H|].
  assert (PreOrder (fun b b' : Broker => evolves (br_store b) (br_store b'))).
  { split; [by intros x|]. intros x y z H1 H2. by etransitivity. }
  unfold issue. preserve.
  - intros b1. apply (reserve_moves keeps_ready).
  - intros b1. apply (start_moves keeps_ready).
  - reflexivity.
  - intros b1. apply register_store.
  - intros b1. apply (connection_failed_moves keeps_ready).
Qed.

Lemma acquire_lease_evolves token : preserves api_evolves (acquire_file_lease cfg paths channel call h token).
Proof. unfold acquire_file_lease. api. apply (acquire_moves keeps_ready). Qed.
#[local] Hint Resolve terminal_gate_evolves upload_gate_evolves acquire_lease_evolves : preserve.

Lemma issue_session_op_evolves env subject ingress now : preserves evolves (issue_session env subject ingress now).
Proof. apply issue_session_evolves. Qed.
Lemma issue_administrative_op_evolves env subject ingress now : preserves evolves (issue_administrative_session env subject ingress now).
Proof. unfold issue_administrative_session. case_match; [apply preserves_fail; typeclasses eauto|apply issue_session_evolves]. Qed.
Lemma issue_reauthenticated_op_evolves env prior subject ingress now :
  preserves evolves (issue_reauthenticated_session env prior subject ingress now).
Proof.
  intros s. pose proof (web_step_evolves (WIssueReauthenticated env prior subject ingress now) {| w_store := s; w_key := None |}) as H.
  unfold web_evolves in H. cbn in H. unfold on_store in H. cbn in H. by destruct (issue_reauthenticated_session _ _ _ _ _ s).
Qed.
#[local] Hint Resolve issue_session_op_evolves issue_administrative_op_evolves issue_reauthenticated_op_evolves : preserve.

Lemma login_evolves input : preserves api_evolves (login cfg channel call h input).
Proof. unfold login. api. Qed.

Lemma logout_evolves : preserves api_evolves (logout channel call h).
Proof. unfold logout. api. Qed.

Lemma reauthenticate_evolves password purpose : preserves api_evolves (reauthenticate cfg channel call h password purpose).
Proof. unfold reauthenticate. api. Qed.

Lemma enter_evolves password code : preserves api_evolves (enter_administrative_access cfg channel call h password code).
Proof. unfold enter_administrative_access. api. apply (web_step_evolves (WVerifyDirect _ _ _ _ _)). Qed.

Lemma leave_evolves : preserves api_evolves (leave_administrative_access channel call h).
Proof. unfold leave_administrative_access. api. Qed.

Lemma totp_attempt_evolves subject : preserves api_evolves (totp_attempt channel call h subject).
Proof. unfold totp_attempt. api. Qed.
#[local] Hint Resolve totp_attempt_evolves login_evolves logout_evolves reauthenticate_evolves enter_evolves leave_evolves : preserve.

Lemma settings_evolve q :
  match q with
  | RUpdatePolicy _ _ | RBeginTotp _ | RConfirmTotp _ _ | RVerifyTotp _ _ _ | RResetTotp _ _ =>
      preserves api_evolves (handler cfg paths channel call h q)
  | _ => True
  end.
Proof.
  destruct q; try exact I; cbn [handler].
  - unfold update_additional_auth, access_view. api.
    + apply (web_step_evolves (WUpdatePolicy _ _ _ _ _ _)).
    + intros s. unfold additional_auth_policy. destruct (negb _); reflexivity.
    + reflexivity.
  - unfold begin_totp_enrollment. api. apply (web_step_evolves (WBeginEnrollment _ _ _ _ _ _ _ _)).
  - unfold confirm_totp_enrollment. api. apply (web_step_evolves (WConfirmEnrollment _ _ _ _ _ _)).
  - unfold verify_totp. api. apply (web_step_evolves (WIssueOperationClaim _ _ _ _ _ _ _)).
  - unfold reset_totp. api. apply (web_step_evolves (WRecoveryReset _ _ _ _ _ _ _)).
Qed.

Lemma plan_upload_store first last id path n digest confirmed now b :
  evolves (br_store b) (br_store (plan_upload first last id path n digest confirmed now b).2).
Proof.
  cut (preserves (fun b b' => evolves (br_store b) (br_store b')) (plan_upload first last id path n digest confirmed now)); [intros H; apply H|].
  assert (PreOrder (fun b b' : Broker => evolves (br_store b) (br_store b'))).
  { split; [by intros x|]. intros x y z H1 H2. by etransitivity. }
  unfold plan_upload. preserve.
  - intros b1. apply (ensure_active_moves keeps_ready).
  - intros b1. apply (check_plan_moves keeps_ready).
  - intros b1. apply (on_protocol_moves id). apply inspect_keeps.
  - intros b1. apply (ensure_active_moves keeps_ready).
  - intros b1. apply (stored_moves keeps_ready). apply upload_plan_evolves.
  - intros b1. exact (mv_store _ _ _ (insert_plan_files keeps_ready _ _ _ _ b1)).
Qed.

Lemma files_evolve q :
  match q with
  | RCreateFileSession _ _ | RCloseFileSession _ | RHeartbeat _ | RListFiles _ _ | RStatFile _ _ | RReadText _ _
  | RDownload _ _ | RPlanUpload _ | RApplyUpload _ => preserves api_evolves (handler cfg paths channel call h q)
  | _ => True
  end.
Proof.
  destruct q; try exact I; cbn [handler].
  - unfold create_file_session. api. apply issue_store.
  - unfold close_file_session. api. apply (close_moves keeps_ready).
  - unfold heartbeat_file_session. api. apply (acquire_moves keeps_ready).
  - unfold list_files. api. apply (access_moves (ac_last call)), list_keeps.
  - unfold stat_file. api. apply (access_moves (ac_last call)), stat_keeps.
  - unfold read_text_file. api. apply (access_moves (ac_last call)), read_text_keeps.
  - unfold download_file. api. apply (access_moves (ac_last call)), download_keeps.
  - unfold plan_file_upload. api; [apply (acquire_moves keeps_ready)|apply plan_upload_store].
  - unfold apply_file_upload. api;
      first [apply (acquire_moves keeps_ready) | apply (begin_moves keeps_ready) | apply apply_moves
            | apply (finish_error_moves keeps_ready)].
Qed.

Lemma approvals_evolve q :
  match q with
  | RApproveIssue _ | RApproveAttach _ | RApproveRenewTest _ | RApproveNginx _ | RApproveManaged _ | RApproveService _
  | RApproveUfw _ => preserves api_evolves (handler cfg paths channel call h q)
  | _ => True
  end.
Proof.
  destruct q; try exact I; cbn [handler];
    unfold approve_certbot_issue, approve_certbot_attach, approve_certbot_renew_test, approve_nginx_site_state,
      approve_managed_config, approve_service_control, approve_ufw_rule; api.
Qed.

(** Every request moves the store forward. *)
Lemma request_evolves q : preserves api_evolves (api_request cfg paths channel call h q).
Proof.
  unfold api_request. api. pose proof (settings_evolve q). pose proof (files_evolve q). pose proof (approvals_evolve q).
  destruct q; try assumption; cbn [handler].
  - api.
  - unfold session. api.
  - api.
  - api.
  - api.
  - api.
  - unfold issue_terminal_ticket. api.
  - unfold connect_terminal. api.
Qed.
End Requests.

(** ** Reachability *)

Section Ends.
Context `{PE : Peer} `{UN : Unicode} `{WC : WebCrypto}.
Context (cfg : ListenerConfig) (paths : TerminalPaths).

Lemma reach_evolves a b : api_reach cfg paths a b -> api_evolves a b.
Proof.
  induction 1 as [a|a b channel call h q _ IH _ Hothers|a b op _ IH|a b op _ IH|a b t d id _ IH|a b t id _ IH|a b t plan _ IH];
    [reflexivity|..]; (etransitivity; [exact IH|]).
  - by apply request_evolves.
  - unfold api_evolves. reflexivity.
  - exact (web_step_evolves op (br_web (ap_broker b))).
  - apply (expiry_moves keeps_ready).
  - unfold api_evolves, ap_store. cbn. destruct (drop_session_files keeps_ready t id (ap_broker b)) as (b1 & Hm & ->). apply Hm.
  - apply (finish_upload_moves keeps_ready).
Qed.

(** Handlers that refuse a revoked session. *)
Definition refuses {A} (digest : string) (m : AM A) : Prop :=
  forall a, revoked_at digest (ap_store a) -> is_ok (m a).1 = false.

Lemma refuses_l {A B} digest (m : AM A) (k : A -> AM B) : refuses digest m -> refuses digest (mbind m k).
Proof. intros Hm a Ha. unfold mbind. specialize (Hm a Ha). by destruct (m a) as [[x|e] a1]. Qed.

Lemma refuses_r {A B} digest (m : AM A) (k : A -> AM B) :
  preserves api_evolves m -> (forall x, refuses digest (k x)) -> refuses digest (mbind m k).
Proof.
  intros Hm Hk a Ha. unfold mbind. specialize (Hm a). destruct (m a) as [[x|e] a1]; [|done]. apply Hk.
  cbn in Hm. by eapply revoked_evolves.
Qed.

Section Request.
Context (channel : IngressChannel) (call : ApiCall) (h : Headers) (token : string).
Context (Hcookie : session_cookie channel h = Ok (Some token)).

Lemma current_refuses now : refuses (session_digest token) (current_session channel call h now).
Proof.
  intros a (row & Hrow & Hr). unfold current_session, mbind. rewrite Hcookie. cbn. unfold store_op, web_call, on_store.
  destruct (authenticate_session _ _ _ _ _) as [answer s] eqn:Ea. destruct answer as [[view|]|]; [|done|done]. exfalso.
  destruct (authenticate_live (ac_env call 0) token channel now (ap_store a) view) as (row' & Hrow' & Hn).
  { unfold ap_store, br_store. by rewrite Ea. }
  rewrite Hrow in Hrow'. injection Hrow' as <-. by destruct (se_revoked_at row).
Qed.

Lemma protected_refuses now : refuses (session_digest token) (protected_session channel call h now).
Proof. apply refuses_l, current_refuses. Qed.

Lemma administrative_refuses now : refuses (session_digest token) (administrative_session channel call h now).
Proof. apply refuses_l, protected_refuses. Qed.

Ltac refuse :=
  lazymatch goal with
  | |- refuses _ (handled _) => unfold handled; apply refuses_l; refuse
  | |- refuses _ (rejected _) => unfold rejected; refuse
  | |- refuses _ (current_session _ _ _ _) => apply current_refuses
  | |- refuses _ (protected_session _ _ _ _) => apply protected_refuses
  | |- refuses _ (administrative_session _ _ _ _) => apply administrative_refuses
  | |- refuses _ (mbind _ _) =>
      first [apply refuses_l; solve [apply current_refuses | apply protected_refuses | apply administrative_refuses]
            | apply refuses_r; [solve [unfold rejected, clock; api]|intros; refuse]]
  end.

Lemma acquire_lease_refuses t : refuses (session_digest token) (acquire_file_lease cfg paths channel call h t).
Proof. unfold acquire_file_lease. refuse. Qed.

(** Only a new log-in is possible with the cookie of a revoked session. *)
Lemma request_refuses q : match q with RLogin _ => False | _ => True end ->
  refuses (session_digest token) (api_request cfg paths channel call h q).
Proof.
  intros Hq. unfold api_request. apply refuses_r; [api|intros _]. destruct q; try contradiction; cbn [handler];
    try (progress unfold handled; apply refuses_l);
    unfold session, logout, reauthenticate, enter_administrative_access, leave_administrative_access, update_additional_auth,
      begin_totp_enrollment, confirm_totp_enrollment, verify_totp, reset_totp, issue_terminal_ticket, connect_terminal,
      create_file_session, close_file_session, heartbeat_file_session, plan_file_upload, apply_file_upload,
      approve_certbot_issue, approve_certbot_attach, approve_certbot_renew_test, approve_nginx_site_state,
      approve_managed_config, approve_service_control, approve_ufw_rule;
    first [refuse | apply refuses_l, acquire_lease_refuses].
Qed.
End Request.

(** ** Log-out *)

Lemma current_ok channel call h now a token view a1 :
  current_session channel call h now a = (Ok (token, view), a1) ->
  session_cookie channel h = Ok (Some token)
  /\ authenticate_session (ac_env call 0) token channel now (ap_store a) = (Ok (Some view), ap_store a1)
  /\ ap_terminal a1 = ap_terminal a /\ ap_ops a1 = ap_ops a.
Proof.
  unfold current_session. intros (cookie & b1 & [= Hc <-] & H)%mbind_inv_ok. apply mbind_inv_ok in H as (tok & b2 & [= Ht <-] & H).
  destruct cookie as [tok'|]; [|done]. cbn in Ht. injection Ht as ->.
  apply mbind_inv_ok in H as (answer & b3 & H3 & H). apply mbind_inv_ok in H as (v & b4 & [= Hv <-] & [= -> <- <-]).
  destruct answer as [v'|]; [|done]. cbn in Hv. injection Hv as ->.
  unfold store_op, web_call, on_store in H3. fold (br_store (ap_broker a)) in H3. fold (ap_store a) in H3.
  destruct (authenticate_session _ _ _ _ _) as [r s] eqn:Ea. cbn in H3. injection H3 as Hr <-.
  destruct r; cbn in Hr; [|done]. injection Hr as ->. done.
Qed.

Lemma protected_ok channel call h now a token view a1 :
  protected_session channel call h now a = (Ok (token, view), a1) ->
  current_session channel call h now a = (Ok (token, view), a1) /\ header_str "x-csrf-token" h = Some (csrf_token token).
Proof.
  unfold protected_session. intros (x & b1 & H1 & H)%mbind_inv_ok. apply mbind_inv_ok in H as (u & b2 & [= H2 <-] & [= -> <-]).
  split; [done|]. revert H2. unfold require_csrf. cbn. destruct (header_str _ h) as [provided|]; [|done]. cbn.
  unfold csrf_matches. destruct (bool_decide _) eqn:E; [|done]. by apply bool_decide_eq_true in E as ->.
Qed.

Lemma authenticated_shape env token ingress now s view s1 :
  authenticate_session env token ingress now s = (Ok (Some view), s1) -> valid_token_shape token = true.
Proof. unfold authenticate_session. by destruct (valid_token_shape token). Qed.

(** Revoking the file sessions of a token leaves none registered. *)
Lemma removed_absent ds reason b d :
  d ∈ ds -> br_sessions (foldl (fun b digest => remove_session digest reason b) b ds) !! d = None.
Proof.
  assert (forall b d', br_sessions b !! d = None -> br_sessions (remove_session d' reason b) !! d = None) as Hkeep.
  { intros x d' Hx. unfold remove_session. destruct (br_sessions x !! d') as [id|]; [|done]. cbn. apply lookup_delete_None. by right. }
  assert (forall ds b, br_sessions b !! d = None -> br_sessions (foldl (fun b digest => remove_session digest reason b) b ds) !! d = None) as Hkeeps.
  { induction ds0 as [|x l IH]; intros y Hy; [done|]. cbn. apply IH. by apply Hkeep. }
  intros Hd. revert b. induction Hd as [d ds|d x ds _ IH]; intros b; cbn.
  - apply Hkeeps. unfold remove_session. destruct (br_sessions b !! d) as [id|] eqn:E; [|done]. cbn. apply lookup_delete_eq.
  - by apply IH.
Qed.

Lemma revoked_files_unbound ticks token b d id f :
  br_sessions (revoke_file_session ticks token b) !! d = Some id ->
  br_files (revoke_file_session ticks token b) !! id = Some f -> fo_binding f <> session_binding token.
Proof.
  unfold revoke_file_session. cbn zeta. set (ds := bound_digests (session_binding token) b).
  set (b1 := foldl _ b ds). set (b2 := retain_plans _ _ b1). cbn. intros Hd Hf Hbind.
  assert (moves keeps_ready b b1) as Hm1 by (apply foldl_moves; [typeclasses eauto|intros; apply remove_session_moves; typeclasses eauto]).
  assert (moves keeps_ready b1 b2) as Hm2 by (apply retain_plans_moves; typeclasses eauto).
  pose proof (lookup_weaken _ _ _ _ Hd (mv_sessions _ _ _ Hm2)) as Hd1.
  pose proof (lookup_weaken _ _ _ _ Hd1 (mv_sessions _ _ _ Hm1)) as Hd0.
  destruct (moves_back _ _ _ _ _ Hm2 Hf) as (f1 & Hf1 & L1). destruct (moves_back _ _ _ _ _ Hm1 Hf1) as (f0 & Hf0 & L0).
  assert (d ∈ ds) as Hin.
  { unfold ds, bound_digests. apply list_elem_of_fmap. exists (d, id). split; [done|]. apply list_elem_of_filter.
    split; [|by apply elem_of_map_to_list]. cbn. unfold file_of. rewrite Hf0. cbn. apply bool_decide_eq_true.
    rewrite <- (fl_binding _ _ _ L0), <- (fl_binding _ _ _ L1). done. }
  unfold b1 in Hd1. rewrite removed_absent in Hd1 by done. done.
Qed.

Lemma logout_ok channel call h a cookie a' :
  logout channel call h a = (Ok cookie, a') ->
  exists now token view a1 a2,
    protected_session channel call h now a = (Ok (token, view), a1)
    /\ store_op (revoke_session (ac_env call 1) token now) (fun _ => internal) a1 = (Ok tt, a2)
    /\ a' = (revoke_attached call token a2).2.
Proof.
  unfold logout. intros (now & b0 & [= _ <-] & H)%mbind_inv_ok. apply mbind_inv_ok in H as ([token view] & a1 & H1 & H).
  apply mbind_inv_ok in H as ([] & a2 & H2 & H). apply mbind_inv_ok in H as (u & a3 & H3 & [= _ <-]).
  exists now, token, view, a1, a2. split_and!; [done|done|]. cbn [fst] in H3. by rewrite H3.
Qed.

Lemma store_revoked call token now a a2 row :
  valid_token_shape token = true -> sessions (ap_store a) !! session_digest token = Some row ->
  store_op (revoke_session (ac_env call 1) token now) (fun _ => internal) a = (Ok tt, a2) ->
  revoked_at (session_digest token) (ap_store a2) /\ ap_terminal a2 = ap_terminal a.
Proof.
  intros Hshape Hrow Hop.
  pose proof (revokes_revoked (WRevoke (ac_env call 1) token now) (br_web (ap_broker a)) _ row Hrow) as Hr.
  unfold store_op, web_call in Hop. cbn [web_step] in Hr. unfold on_store in *. cbn in Hr, Hop.
  destruct (revoke_session (ac_env call 1) token now (w_store (br_web (ap_broker a)))) as [r s] eqn:E. cbn in Hr, Hop.
  injection Hop as Hres <-. destruct r; cbn in Hres; [|done]. split; [|done]. cbn. apply Hr. done.
Qed.

(** C28: a log-out that succeeds ends everything of its session, for good: the
    web session is revoked in the store, no terminal ticket of it is left and
    its terminal is told to stop, and no file session of it is registered.
    Whatever requests and tasks run afterwards, a request with that cookie
    other than a new log-in is refused, and a terminal still relaying for the
    session ends, sending nothing, at its first check. *)
Theorem logout_is_complete channel call h a cookie a' :
  logout channel call h a = (Ok cookie, a') ->
  exists token, session_cookie channel h = Ok (Some token) /\
    revoked_at (session_digest token) (ap_store a') /\
    (forall d e, ts_tickets (ap_terminal a') !! d = Some e -> tn_binding e <> terminal_binding token) /\
    (forall e, ts_active (ap_terminal a') !! terminal_binding token = Some e -> av_cancelled e = true) /\
    (forall d id f, br_sessions (ap_broker a') !! d = Some id -> br_files (ap_broker a') !! id = Some f ->
       fo_binding f <> session_binding token) /\
    forall a2, api_reach cfg paths a' a2 ->
      (forall channel2 call2 h2 q, session_cookie channel2 h2 = Ok (Some token) ->
         match q with RLogin _ => False | _ => True end ->
         is_ok (api_request cfg paths channel2 call2 h2 q a2).1 = false) /\
      (forall parse l c instant checked clock env pinged child r,
         tl_token l = token -> rl_store r = ap_store a2 -> rl_last_check r + SESSION_CHECK_INTERVAL_MS <= instant ->
         is_some (relay_turn parse l c (RelayTick instant checked clock env pinged child) r).1 = true /\
         rl_actions (relay_turn parse l c (RelayTick instant checked clock env pinged child) r).2 = rl_actions r).
Proof.
  intros (now & token & view & a1 & a2 & Hp & Hrev & ->)%logout_ok. apply protected_ok in Hp as [Hcur _].
  pose proof (current_evolves channel call h now a) as Hev. rewrite Hcur in Hev. cbn in Hev.
  apply current_ok in Hcur as (Hcookie & Hauth & _ & _).
  destruct (authenticate_live (ac_env call 0) token channel now (ap_store a) view) as (row0 & Hrow0 & _); [by rewrite Hauth|].
  destruct (le_sessions _ _ (proj1 Hev) _ _ Hrow0) as (row & Hrow & _).
  destruct (store_revoked call token now a1 a2 row) as [Hr Ht]; [by eapply authenticated_shape|done|done|].
  exists token. split; [done|]. pose proof (attached_evolves call token a2) as Hatt.
  assert (revoked_at (session_digest token) (ap_store (revoke_attached call token a2).2)) as Hrevoked by by eapply revoked_evolves.
  split_and!; [done|..].
  - cbn. intros d e [_ Hne]%map_lookup_filter_Some. done.
  - cbn. intros e. rewrite lookup_alter_eq. intros (e0 & _ & ->)%fmap_Some. done.
  - cbn. intros d id f. apply revoked_files_unbound.
  - intros a3 Hreach. apply reach_evolves in Hreach.
    assert (revoked_at (session_digest token) (ap_store a3)) as Hr3 by by eapply revoked_evolves. split.
    + intros channel2 call2 h2 q Hc Hq. by apply (request_refuses channel2 call2 h2 token Hc q Hq).
    + intros parse l c instant checked clock env pinged child r <- Hs Hdue. cbn [relay_turn].
      replace (SESSION_CHECK_INTERVAL_MS <=? _) with true by (symmetry; apply Z.leb_le; lia).
      destruct (check_revoked l checked clock env pinged r) as [H1 H2]; [by rewrite Hs|].
      by destruct (check_session _ _ _ _ _ r) as [[reason|] r'].
Qed.

(** ** Approvals *)








Definition same_ops (a a' : Api) : Prop := ap_ops a' = ap_ops a.








(** No other request sends anything to the operations daemon. *)

#[export] Instance same_ops_preorder : PreOrder same_ops.
Proof. split; [done|]. intros a b c H1 H2. unfold same_ops in *. congruence. Qed.

Lemma web_call_same {E A} (m : M Web E A) f : preserves same_ops (web_call m f).
Proof. intros a. unfold web_call. by destruct (m _). Qed.
Lemma file_call_same {A} (m : BM A) : preserves same_ops (file_call m).
Proof. intros a. unfold file_call. by destruct (m _). Qed.
Lemma terminal_call_same {A} (m : TeM A) : preserves same_ops (terminal_call m).
Proof. intros a. unfold terminal_call. by destruct (m _). Qed.
Lemma attempt_same channel call k source username : preserves same_ops (attempt channel call k source username).
Proof. intros a. unfold attempt. destruct (limiter_consume _ _ _ _). by destruct channel. Qed.
Lemma attached_same call token : preserves same_ops (revoke_attached call token).
Proof. by intros a. Qed.
Lemma gate_same call session : preserves same_ops (terminal_gate_reason paths call session).
Proof. intros a. unfold terminal_gate_reason. cbn zeta. by repeat case_match. Qed.
Lemma upload_gate_same call session : preserves same_ops (file_upload_gate_reason paths call session).
Proof. intros a. unfold file_upload_gate_reason. by repeat case_match. Qed.

Hint Resolve web_call_same file_call_same terminal_call_same attempt_same attached_same gate_same upload_gate_same : preserve.





End Ends.

(** ** A log-out *)

Module ApiWitness.
Import SftpDemo WebScenario BrokerDemo.
#[local] Existing Instance reference_web.

Definition recovery : ListenerConfig :=
  {| lc_recovery_origin := "http://127.0.0.1:8787"; lc_public_host := None; lc_auth_timeout_ms := 8000 |}.
Definition programs : TerminalPaths :=
  {| px_ssh := "/usr/bin/ssh"; px_known_hosts := "/k"; px_askpass := "/a"; px_askpass_directory := "/d"; px_stty := "/s";
     px_setsid := "/c" |}.

(** The session of [enrolled] with a file session and a terminal. *)
Definition start : Api :=
  {| ap_broker := sy_broker opened; ap_terminal := TerminalWitness.opened.2;
     ap_public := {| lx_auth := no_attempts; lx_administrative := no_attempts; lx_totp := no_attempts |};
     ap_recovery := {| lx_auth := no_attempts; lx_administrative := no_attempts; lx_totp := no_attempts |}; ap_ops := [] |}.

Definition at_logout : ApiCall :=
  {| ac_now := Some 125000; ac_instant := 30000; ac_env := fun _ => env_of 0 []; ac_request_id := None; ac_random := None;
     ac_auth := fun _ => None; ac_others := fun a => a; ac_ticks := fun _ => tick; ac_calls := calls_of 1;
     ac_last := calls_of 2; ac_connect := ConnectFailed "none";
     ac_host := {| hf_meta := fun _ => None; hf_text := fun _ => None |}; ac_key := KeyOpenFailed;
     ac_ops := fun _ => Err OpsUnavailable |}.

Definition fields_of (token : string) : Headers :=
  [("host"%string, "127.0.0.1:8787"%string); ("origin"%string, "http://127.0.0.1:8787"%string);
   ("cookie"%string, "jw_recovery_session=" +:+ token); ("x-csrf-token"%string, csrf_token token)].
Definition fields : Headers := fields_of session_token.

Definition left : result ApiProblem Headers * Api := logout RecoveryIngress at_logout fields start.

Lemma left_ok : is_ok left.1 = true.
Proof. vm_compute. reflexivity. Qed.

Lemma logout_is_complete_witness :
  is_ok (api_request recovery programs RecoveryIngress at_logout fields RSession start).1 = true
  /\ is_ok left.1 = true
  /\ is_ok (api_request recovery programs RecoveryIngress at_logout fields RSession left.2).1 = false.
Proof.
  split; [vm_compute; reflexivity|]. split; [exact left_ok|].
  destruct left as [[cookie|e] a'] eqn:E; [|pose proof left_ok as H; rewrite E in H; discriminate H].
  unfold left in E. destruct (logout_is_complete recovery programs RecoveryIngress at_logout fields start cookie a' E)
    as (token & Hcookie & _ & _ & _ & _ & Hlater).
  destruct (Hlater a' (reach_refl _ _ a')) as [H _]. exact (H RecoveryIngress at_logout fields RSession Hcookie I).
Defined.

(** An approval of an administrator with administrative access is sent; the
    same request of a standard session is not. *)
Definition elevated : Api :=
  upd_broker (with_web (web_run [WIssueAdministrative (env_of 60 [32]) admin RecoveryIngress 120000;
                                 WIssueSession (env_of 61 [32]) admin RecoveryIngress 120000] enrolled)) start.
Definition approval : ApiRequest :=
  RApproveUfw {| ux_schema_version := 1; ux_plan_id := "plan-1"; ux_plan_hash := sha256_digest "plan";
                 ux_idempotency_key := "0123456789abcdef"; ux_impact_confirmed := true |}.

Example approval_needs_administrative_access :
  ap_ops (api_request recovery programs RecoveryIngress at_logout (fields_of (token_of 60)) approval elevated).2
    = [OpsApprove ApproveUfwRule admin "plan-1" (sha256_digest "plan") "0123456789abcdef"]
  /\ ap_ops (api_request recovery programs RecoveryIngress at_logout (fields_of (token_of 61)) approval elevated).2 = [].
Proof. split; vm_compute; reflexivity. Qed.
End ApiWitness.
